(* ===== verification/_CoqProject ===== *)
-Q . S2P
Prelude.v
Wire.v
Framing.v
Host.v
Server.v
ServerSafe.v
Session.v
ServerFiles.v
ServerNames.v
Netboot.v
NetbootSafe.v
NetbootFiles.v
Pio.v
Imd.v
ImdTools.v
Hex.v
Text.v
Sysgen.v
Z80.v
Stamp.v
Spr.v
Checks.v
Sdlc.v
Screen.v
Labels.v
Verify.v
CpmDisk.v
Disasm.v
ConvTables.v
Report.v
Trace.v
CpnosBuild.v
Gdb.v
Listing.v
DiffBios.v
Confi.v
Profile.v
ImdInfo.v
Watch.v
Tracer.v
Bgstar.v
Ddt.v
Siob.v
Smoke.v
Monitor.v
