(* ===== verification/Prelude.v ===== *)
(** * The RC700 system tools, verified

    This development models the Python programs of the repository, the tools and
    servers around the RC702/RC703 computers' CP/M: what builds, checks, disassembles
    and patches BIOS images, disks and boot PROMs, and what serves CP/NET to the
    machines.  Every program is a set of functions from file contents to file
    contents, or a program on a byte stream, and what is proved are the properties
    its users rely on.  This file is the root and holds the vocabulary all others use.

    ** The parts

    The network.  [Wire] is the model of two programs on a byte stream, every
    interleaving of their socket calls allowed.  [Framing] has the frame layer of
    CP/NET as four programs implement it (cpnet/server.py, cpnet/cpnet12_client.py,
    cpnos-rom/netboot_server.py, cpnos-rom/cpnet_pio_server.py).  [Host] is the file
    system below; [Server] is cpnet/server.py on it, handler by handler and with its
    main loop, and [ServerSafe], [Session], [ServerFiles], [ServerNames] prove its
    invariant, its sessions with a client, what happens to files, and what names mean.
    [Netboot], [NetbootSafe], [NetbootFiles] do the same for netboot_server.py, and [Pio]
    for the bridge cpnet_pio_server.py.  [Trace] is the recorder sio_tee.py with its
    decoder cpnet_decode.py.  [Sdlc] is the receiver rcbios-in-c/sdlc_receiver.py.
    [Monitor] is the server's throughput monitor with cpnet/serial_graph.py, which reads
    its file.

    The serial lines.  [Ddt] is the deployment of programs typed into DDT (ddt_deploy.py,
    sioa_fix_via_ddt.py), [Siob] the servers and bridges on connected lines
    (siob_deploy_server.py, siob_iobyte_server.py, sysgen_serial_server.py,
    siob_console_server.py, siob_interactive.py, siob_daemon.py, sio_b_driver.py), over
    the triples of the last section here; [Smoke] is the smoke test, the generated source
    (mksmokeasm.py) and what types at the prompts (smoke_inject.py).

    Disks.  [Imd] has the five readers of IMD images over one account of the format,
    [ImdTools] the programs that write them (imd_rebase_sectors.py, bin2imd.py,
    patch_bios.py), [ImdInfo] the summary imdinfo.py, [CpmDisk] the file extractor
    extract_polypascal.py, [Checks] the build's checks (verify_skew.py,
    verify_checksums.py, verify_against_imd.py).

    Images.  [Hex] is Intel HEX (cpm/apply_hex.py and the writers), [Text] Python's
    numbers as text, [Sysgen] the SYSGEN images (mk_sysgen_hex.py, mk_sysgen_t0.py,
    mk_cpm56.py), [Z80] the machine that runs the validator in them, [Stamp] the serial
    numbers (cpm/stamp_serial.py), [Spr] page-relocatable modules (cpnet/build_snios.py),
    [CpnosBuild] the cpnos tools (patch_payload_checksum.py, stamp_cpnos.py, dri_split.py,
    build_loader.py, with the machine that runs the loader), [Verify] the comparison of
    an assembled BIOS with a reference (verify_bios.py, verify_58k.py, verify_rc702e.py,
    verify_rc703.py, extract_bios.py).

    Sources.  [Disasm] is the six mkbios scripts around the disassembler, [Labels] the
    renaming of rename_labels.py, [Listing] defb2str.py and portnames.py, [DiffBios]
    diff_bios.py, [Confi] annotate_confi.py, [ConvTables] and [Report]
    extract_conv_tables.py.
    [Screen] is tools/bitmap2rc700.py.

    The debugger.  [Gdb] is the client of the remote protocol in gdb_trace.py and
    gdb_bgstar.py; [Watch] is its interface for the tracers, with the log of what they
    ask; [Tracer] is gdb_trace.py's tracer, a machine of four phases, and [Bgstar]
    gdb_bgstar.py's.  [Profile] is profile_trace.py.

    ** How the code is modelled

    Bytes and code points are integers; byte arithmetic is written out ([u8], [u16],
    [Z.land] and the like).  Code that raises is an [outcome], code with state a
    computation in [stM], where the state reached before an exception survives it.  A
    program's exit status is part of its result.  Texts are ASCII, as the programs'
    files are.  Loops over data are recursions over the data; the other loops take
    fuel, and a theorem says how much is enough: the waits for ENQ in [Framing] (one
    more than the bytes in front of it), the turns of the servers' loops (one more than
    the requests), the IMD readers (the length of the file), [Checks.next_free] (the
    sectors of a track), [Sdlc.dpll_loop] (two per sample), [DiffBios.walk] (one more
    than the end of the code), the scanners of text (its length), [Gdb] (the bytes the
    stub sends), [Tracer.run] (one turn per stop or timeout), the two machines ([Z80]: a bound computed from the regions;
    [CpnosBuild]: 4105 instructions), the 8080 of [Smoke] (4096), the waits of [Ddt] and
    [Siob] ([turns]: what comes within them; the theorems hold for every number and say
    what was sent when it is too small).

    What is outside the repository is a parameter with its documented behaviour as a
    class or hypothesis: the assembler in [Spr], the disassembler in [Disasm], the debugger's stub in [Gdb] ([Stub]), the BDOS call in [Z80] and [Smoke], the serial
    console with CP/M behind it in [Ddt] ([Console], [Cpm]), connected lines in [Siob]
    ([Wires]).  What reads the programs'
    outputs is specified on its own: the assemblers' and C's view of written tables in
    [ConvTables] and [Listing], an SDLC transmitter in [Sdlc], CP/M's wildcard rule in
    [ServerNames], the machines.

    ** What the theorems show

    Communication: frames are delivered under every interleaving, and what is
    damaged is refused ([frames_are_delivered], [frames_are_checked]); sessions of either
    server with the test client finish ([client_sessions_finish],
    [netboot_sessions_finish]), answers fit a frame ([answers_fit_a_frame]), the bridge
    answers as the server does ([bridge_frames_are_answered]).

    Files: a write changes one record, what was written is read back, sizes and
    positions, directory searches and patterns ([ServerFiles], [ServerNames],
    [NetbootFiles]); requests of the netboot server write only into its own directory.

    Round trips: IMD images, HEX files, serial numbers, conversion tables, recorded
    traffic, SDLC lines, pictures.

    Refinements: the generated Z80 code judges the memory it runs over
    ([validator_judges_memory]), the loader recreates the PROMs
    ([cpnos_is_built]), relocated modules are the assembler's
    ([built_modules_relocate]), the debugger's client shows the target
    ([debuggers_reach_the_target]).

    The tracers: for every behaviour of the stub they ask only while the target is
    stopped and resume it only then ([tracer_keeps_its_target]), or in which two cases
    they do not ([bgtest_is_followed]).

    Whatever the machine answers: what is typed at it comes in order and only after what
    the programs wait for ([deploy_saves_what_it_verified],
    [serial_servers_follow_the_machine], [smoke_test_is_run]), nothing of what passes
    through is lost ([consoles_pass_everything_on]), and what is counted is shown
    ([monitor_and_graph_agree]).

    Equivalences: wildcard matching, renaming, statement splitting, the sources made
    of listings.  Several theorems also state where a program does not do what its
    documentation says, at a concrete input.

    ** Not modelled

    Printed messages and reports, log output, argument parsing,
    terminals and the opening of sockets; symbolic links and full disks; texts that are
    not ASCII; times and time-outs (a wait ends when what it waits for has come, or
    never).  The sweep over fractional rates and the capture in sdlc_receiver.py, the
    scaling of pictures, the bars of
    serial_graph.py; gen_qr.py and dump_ringbuf.py, which only show data, and the tests
    and their harnesses, which drive the emulator.

    ** This file

    Bytes and characters are integers ([Z]); a byte string, a text string and a
    [bytearray] are all [list Z].  Python's slices clamp, its subscripts raise
    [IndexError], and storing a value outside [0..255] in a [bytearray] raises
    [ValueError]; the functions here keep those three behaviours apart.
    [outcome] is the result of code that may raise; [stM S] is state passing
    with exceptions, where the state reached before the exception survives it,
    as mutations of Python objects do. *)

From stdpp Require Export base list numbers option strings gmap sorting.
From Stdlib Require Export ZArith Lia.
From Stdlib Require Import Zbitwise.

#[global] Open Scope Z_scope.

Abbreviation bytes := (list Z).
Abbreviation str := (list Z).

(** ** Characters and string literals *)

(** The code points of a string literal. *)
Fixpoint chars (s : string) : str :=
  match s with
  | EmptyString => []
  | String c s' => Z.of_N (Ascii.N_of_ascii c) :: chars s'
  end.

Arguments chars s%_string.

(** ** Exceptions and outcomes *)

(** The exceptions the sources raise or let escape. *)
Inductive exn : Set :=
  | IndexError | ValueError | KeyError | ZeroDivisionError | UnicodeEncodeError | OSError
  | ConnectionError | TimeoutError | EOFError | AssertionError
  | KeyboardInterrupt | SystemExit (code : Z) | OutOfFuel.

#[export] Instance exn_eq_dec : EqDecision exn.
Proof. solve_decision. Defined.

Inductive outcome (A : Type) : Type :=
  | Ret (a : A)
  | Raise (e : exn).
Arguments Ret {A} a.
Arguments Raise {A} e.

#[export] Instance outcome_eq_dec {A} `{EqDecision A} : EqDecision (outcome A).
Proof. solve_decision. Defined.

#[export] Instance outcome_ret : MRet outcome := fun A a => Ret a.
#[export] Instance outcome_bind : MBind outcome := fun A B f m =>
  match m with Ret a => f a | Raise e => Raise e end.
#[export] Instance outcome_fmap : FMap outcome := fun A B f m =>
  match m with Ret a => Ret (f a) | Raise e => Raise e end.

(** State passing with exceptions. *)
Definition stM (S A : Type) : Type := S -> outcome A * S.

#[export] Instance stM_ret S : MRet (stM S) := fun A a s => (Ret a, s).
#[export] Instance stM_bind S : MBind (stM S) := fun A B f m s =>
  match m s with
  | (Ret a, s') => f a s'
  | (Raise e, s') => (Raise e, s')
  end.

Definition get {S} : stM S S := fun s => (Ret s, s).
Definition gets {S A} (f : S -> A) : stM S A := fun s => (Ret (f s), s).
Definition modify {S} (f : S -> S) : stM S unit := fun s => (Ret tt, f s).
Definition raise {S A} (e : exn) : stM S A := fun s => (Raise e, s).
Definition lift {S A} (o : outcome A) : stM S A := fun s => (o, s).

(** [try: body except caught: handler]. *)
Definition catch {S A} (caught : exn -> bool) (body : stM S A) (handler : exn -> stM S A)
  : stM S A :=
  fun s => match body s with
           | (Raise e, s') => if caught e then handler e s' else (Raise e, s')
           | r => r
           end.

(** [open] and its relatives raise subclasses of [OSError]; a socket's
    [ConnectionError] and [TimeoutError] are subclasses too. *)
Definition is_os_error (e : exn) : bool :=
  match e with OSError | ConnectionError | TimeoutError => true | _ => false end.

(** [try: body except OSError: return otherwise]. *)
Definition try_os {S A} (body : stM S A) (otherwise : A) : stM S A :=
  catch is_os_error body (fun _ => mret otherwise).

(** ** Machine-width integers *)

Definition u8 (x : Z) : Z := Z.land x 255.
Definition u16 (x : Z) : Z := Z.land x 65535.

Definition is_byte (b : Z) : Prop := 0 <= b < 256.
Definition is_byteb (b : Z) : bool := (0 <=? b) && (b <? 256).
Abbreviation all_bytes l := (Forall is_byte l).

#[export] Instance is_byte_dec b : Decision (is_byte b).
Proof. unfold is_byte. apply _. Defined.

(** Python's [sum]. *)
Definition zsum (l : list Z) : Z := foldr Z.add 0 l.

(** ** Slices, subscripts, padding *)

(** [l[a:b]] for non-negative bounds. *)
Definition slice {A} (a b : nat) (l : list A) : list A := take (b - a) (drop a l).

(** [l[a:b] = d] on a bytearray: the replaced part may change the length. *)
Definition slice_set {A} (a b : nat) (d l : list A) : list A :=
  take a l ++ d ++ drop (Nat.max a b) l.

(** [l[i]]. *)
Definition index (l : bytes) (i : nat) : outcome Z :=
  match l !! i with Some b => Ret b | None => Raise IndexError end.

(** [l[i] = v] on a bytearray.  Python checks the value first. *)
Definition store (l : bytes) (i : nat) (v : Z) : outcome bytes :=
  if is_byteb v then
    if decide (i < length l)%nat then Ret (<[i := v]> l) else Raise IndexError
  else Raise ValueError.

(** [l[i] = v] for each pair in turn. *)
Fixpoint stores (l : bytes) (kvs : list (nat * Z)) : outcome bytes :=
  match kvs with
  | [] => mret l
  | (i, v) :: kvs' => l ← store l i v; stores l kvs'
  end.

(** [bytes([...])]: every element must be a byte. *)
Definition mk_bytes (l : list Z) : outcome bytes :=
  if forallb is_byteb l then Ret l else Raise ValueError.

(** [l.ljust(n, c)]. *)
Definition ljust (n : nat) (c : Z) (l : list Z) : list Z := l ++ replicate (n - length l) c.

(** Drop the longest prefix whose elements satisfy [f]. *)
Fixpoint drop_while (f : Z -> bool) (l : list Z) : list Z :=
  match l with
  | [] => []
  | x :: t => if f x then drop_while f t else l
  end.
Definition rstrip_with (f : Z -> bool) (l : list Z) : list Z := rev (drop_while f (rev l)).
Definition strip_with (f : Z -> bool) (l : list Z) : list Z := rstrip_with f (drop_while f l).

(** [s.split(c)]. *)
Fixpoint split_on (c : Z) (s : str) : list str :=
  match s with
  | [] => [[]]
  | x :: t =>
      if x =? c then [] :: split_on c t
      else match split_on c t with
           | [] => [[x]]
           | w :: ws => (x :: w) :: ws
           end
  end.

(** [str.isspace] below 128, the set [str.strip()] removes. *)
Definition py_space (c : Z) : bool :=
  ((9 <=? c) && (c <=? 13)) || ((28 <=? c) && (c <=? 32)).

(** [str.upper] on ASCII text. *)
Definition upper1 (c : Z) : Z := if (97 <=? c) && (c <=? 122) then c - 32 else c.
Definition upper (s : str) : str := map upper1 s.

(** [bytes.decode('ascii', errors='replace')] and [str.encode('ascii')]. *)
Definition decode_ascii (l : bytes) : str := map (fun b => if b <? 128 then b else 65533) l.
Definition encode_ascii (s : str) : outcome bytes :=
  if forallb (fun c => (0 <=? c) && (c <? 128)) s then Ret s else Raise UnicodeEncodeError.

(** [bytes(b & 0x7F for b in l)]. *)
Definition strip7 (l : bytes) : bytes := map (fun b => Z.land b 127) l.

(** ** Sorting of strings *)

(** Python's order on strings, code point by code point. *)
Fixpoint str_leb (a b : str) : bool :=
  match a, b with
  | [], _ => true
  | _, [] => false
  | x :: a', y :: b' => if x <? y then true else if y <? x then false else str_leb a' b'
  end.
Definition str_le (a b : str) : Prop := str_leb a b = true.

#[export] Instance str_le_dec a b : Decision (str_le a b).
Proof. unfold str_le. apply _. Defined.

(** [sorted(l)]. *)
Definition sorted (l : list str) : list str := merge_sort str_le l.

(** ** Offsets as integers: [drop] and [take] without a unary conversion. *)
Fixpoint dropZ {A} (n : Z) (l : list A) : list A :=
  match l with
  | [] => []
  | x :: t => if n <=? 0 then l else dropZ (n - 1) t
  end.
Fixpoint takeZ {A} (n : Z) (l : list A) : list A :=
  match l with
  | [] => []
  | x :: t => if n <=? 0 then [] else x :: takeZ (n - 1) t
  end.
Definition zlength {A} (l : list A) : Z := Z.of_nat (length l).

(** ** Automation *)

Create HintDb py.
Create Rewrite HintDb py.
Create Rewrite HintDb pylen.

(** Unfold the monads of a handler and simplify. *)
Ltac mred :=
  cbn [mbind stM_bind outcome_bind mret stM_ret outcome_ret fmap outcome_fmap
       lift raise gets get modify fst snd] in *.

(** A decidable proposition without variables. *)
Ltac decided := apply (bool_decide_unpack _); vm_compute; exact I.

(** Case on every test a goal still branches on. *)
Ltac case_if :=
  match goal with
  | |- context [if ?c then _ else _] => destruct c eqn:?
  end.

(** ** Lemmas on machine-width integers *)

Lemma u8_mod x : u8 x = x mod 256.
Proof. unfold u8. change 255 with (Z.ones 8). rewrite Z.land_ones by lia. reflexivity. Qed.

Lemma u16_mod x : u16 x = x mod 65536.
Proof. unfold u16. change 65535 with (Z.ones 16). rewrite Z.land_ones by lia. reflexivity. Qed.

Lemma u8_range x : is_byte (u8 x).
Proof. rewrite u8_mod. unfold is_byte. apply Z.mod_pos_bound. lia. Qed.

Lemma u8_small x : is_byte x -> u8 x = x.
Proof. intros H. rewrite u8_mod. apply Z.mod_small, H. Qed.

Lemma u8_add_l a b : u8 (u8 a + b) = u8 (a + b).
Proof. rewrite !u8_mod. apply Zplus_mod_idemp_l. Qed.

Lemma u8_add_r a b : u8 (a + u8 b) = u8 (a + b).
Proof. rewrite !u8_mod. apply Zplus_mod_idemp_r. Qed.

Lemma u8_neg a : u8 (- u8 a) = u8 (- a).
Proof.
  rewrite !u8_mod. rewrite <- (Z.sub_0_l (a mod 256)), <- (Z.sub_0_l a).
  apply Zminus_mod_idemp_r.
Qed.

(** The byte that makes a sum vanish modulo 256. *)
Lemma u8_add_neg a : u8 (a + u8 (- a)) = 0.
Proof. rewrite u8_add_r. replace (a + - a) with 0 by lia. reflexivity. Qed.

Lemma u16_add_l a b : u16 (u16 a + b) = u16 (a + b).
Proof. rewrite !u16_mod. apply Zplus_mod_idemp_l. Qed.

Lemma land127_range b : 0 <= Z.land b 127 < 128.
Proof. change 127 with (Z.ones 7). rewrite Z.land_ones by lia. apply Z.mod_pos_bound. lia. Qed.

Lemma land127_small b : 0 <= b < 128 -> Z.land b 127 = b.
Proof.
  intros H. change 127 with (Z.ones 7). rewrite Z.land_ones by lia. apply Z.mod_small. lia.
Qed.

(** [x | (y << n)] is a sum when [x] fits below the shift. *)
Lemma lor_shiftl x y n : 0 <= n -> 0 <= x < 2 ^ n -> Z.lor x (Z.shiftl y n) = x + y * 2 ^ n.
Proof.
  intros Hn Hx.
  assert (Hz : Z.land x (Z.shiftl y n) = 0).
  { apply Z.bits_inj'. intros i Hi. rewrite Z.land_spec, Z.bits_0, Z.shiftl_spec by done.
    destruct (Z.lt_ge_cases i n).
    - rewrite (Z.testbit_neg_r y) by lia. apply andb_false_r.
    - rewrite <- (Z.mod_small x (2 ^ n)) by done. by rewrite Z.mod_pow2_bits_high by lia. }
  pose proof (Z.add_lor_land x (Z.shiftl y n)) as H. rewrite Hz, Z.add_0_r in H.
  rewrite H, Z.shiftl_mul_pow2 by done. reflexivity.
Qed.

Lemma is_byteb_spec b : is_byteb b = true <-> is_byte b.
Proof. unfold is_byteb, is_byte. rewrite andb_true_iff, Z.leb_le, Z.ltb_lt. reflexivity. Qed.

Lemma shiftr_byte_0 b n : is_byte b -> 8 <= n -> Z.shiftr b n = 0.
Proof.
  intros [H1 H2] Hn. rewrite Z.shiftr_div_pow2 by lia. apply Z.div_small. split; [lia|].
  apply Z.lt_le_trans with (2 ^ 8); [lia|]. apply Z.pow_le_mono_r; lia.
Qed.

#[export] Hint Resolve u8_range : py.

Lemma mk_bytes_ok l : all_bytes l -> mk_bytes l = Ret l.
Proof.
  intros H. unfold mk_bytes. rewrite (proj2 (forallb_forall _ _)); [done|].
  intros x Hx. apply is_byteb_spec. by apply (proj1 (List.Forall_forall _ _) H).
Qed.

(** ** Lemmas on sums *)

Lemma zsum_app l1 l2 : zsum (l1 ++ l2) = zsum l1 + zsum l2.
Proof. unfold zsum. induction l1; cbn in *; lia. Qed.

Lemma zsum_cons x l : zsum (x :: l) = x + zsum l.
Proof. reflexivity. Qed.

(** A loop that adds bytes modulo 256 computes the reduced sum. *)
Lemma fold_u8_sum l s : u8 (foldl (fun a b => u8 (a + b)) s l) = u8 (s + zsum l).
Proof.
  revert s. induction l as [|b l IH]; intros s; cbn [foldl].
  - cbn. now rewrite Z.add_0_r.
  - rewrite IH, u8_add_l, zsum_cons. f_equal. lia.
Qed.

Lemma fold_u8_sum_small l s :
  is_byte s -> foldl (fun a b => u8 (a + b)) s l = u8 (s + zsum l).
Proof.
  intros Hs. rewrite <- fold_u8_sum. symmetry. apply u8_small.
  revert s Hs. induction l as [|b l IH]; intros s Hs; cbn [foldl]; auto with py.
Qed.

#[export] Hint Rewrite zsum_app zsum_cons u8_add_l u8_add_r : py.

(** ** Lemmas on slices and padding *)

Lemma length_slice {A} a b (l : list A) : length (slice a b l) = (Nat.min (b - a) (length l - a))%nat.
Proof. unfold slice. rewrite length_take, length_drop. lia. Qed.

Lemma slice_app_exact {A} a b (l1 l2 l3 : list A) :
  a = length l1 -> b = (length l1 + length l2)%nat -> slice a b (l1 ++ l2 ++ l3) = l2.
Proof.
  intros -> ->. unfold slice. rewrite drop_app_length.
  replace (length l1 + length l2 - length l1)%nat with (length l2) by lia.
  apply take_app_length.
Qed.

Lemma length_slice_set {A} a b (d l : list A) :
  length d = (b - a)%nat -> (a <= b)%nat -> (b <= length l)%nat ->
  length (slice_set a b d l) = length l.
Proof.
  intros Hd Hab Hb. unfold slice_set.
  rewrite !length_app, length_take, length_drop. lia.
Qed.

Lemma length_slice_set_gen {A} a b (d l : list A) :
  length (slice_set a b d l) = (Nat.min a (length l) + length d + (length l - Nat.max a b))%nat.
Proof. unfold slice_set. rewrite !length_app, length_take, length_drop. lia. Qed.

Lemma lookup_slice_set_in {A} a b (d l : list A) i :
  (a <= length l)%nat -> (a <= i < a + length d)%nat ->
  slice_set a b d l !! i = d !! (i - a)%nat.
Proof.
  intros Ha Hi. unfold slice_set.
  rewrite lookup_app_r by (rewrite length_take; lia).
  rewrite length_take. replace (Nat.min a (length l)) with a by lia.
  apply lookup_app_l. lia.
Qed.

Lemma lookup_slice_set_lt {A} a b (d l : list A) i :
  (i < a)%nat -> (a <= length l)%nat -> slice_set a b d l !! i = l !! i.
Proof.
  intros Hi Ha. unfold slice_set. rewrite lookup_app_l by (rewrite length_take; lia).
  apply lookup_take_lt. lia.
Qed.

Lemma lookup_slice_set_ge {A} a b (d l : list A) i :
  length d = (b - a)%nat -> (a <= b)%nat -> (b <= i)%nat -> (b <= length l)%nat ->
  slice_set a b d l !! i = l !! i.
Proof.
  intros Hd Hab Hi Hl. unfold slice_set.
  rewrite lookup_app_r by (rewrite length_take; lia).
  rewrite lookup_app_r by (rewrite length_take; lia).
  rewrite lookup_drop, length_take. f_equal. lia.
Qed.

Lemma slice_slice_set {A} a b (d l : list A) :
  length d = (b - a)%nat -> (a <= b)%nat -> (a <= length l)%nat ->
  slice a b (slice_set a b d l) = d.
Proof.
  intros Hd Hab Hl. unfold slice_set. apply slice_app_exact.
  - rewrite length_take. lia.
  - rewrite length_take. lia.
Qed.

Lemma length_ljust n c l : length (ljust n c l) = Nat.max n (length l).
Proof. unfold ljust. rewrite length_app, length_replicate. lia. Qed.

Lemma ljust_all_bytes n c l : is_byte c -> all_bytes l -> all_bytes (ljust n c l).
Proof. intros Hc Hl. unfold ljust. apply Forall_app. split; [done|]. by apply Forall_replicate. Qed.

Lemma slice_all {P : Z -> Prop} a b l : Forall P l -> Forall P (slice a b l).
Proof. intros H. unfold slice. by apply Forall_take, Forall_drop. Qed.

Lemma slice_set_all {P : Z -> Prop} a b d l : Forall P d -> Forall P l -> Forall P (slice_set a b d l).
Proof.
  intros Hd Hl. unfold slice_set. repeat apply Forall_app_2; auto using Forall_take, Forall_drop.
Qed.

Lemma strip7_all l : all_bytes (strip7 l).
Proof.
  unfold strip7. apply Forall_fmap, Forall_true. intros b. unfold compose, is_byte.
  pose proof (land127_range b). lia.
Qed.

Lemma length_strip7 l : length (strip7 l) = length l.
Proof. apply length_map. Qed.

#[export] Hint Resolve slice_all slice_set_all strip7_all ljust_all_bytes : py.
#[export] Hint Rewrite @length_slice @length_ljust @length_app @length_take @length_drop
  @length_replicate length_strip7 : pylen.

Lemma store_ok l i v l' :
  store l i v = Ret l' -> is_byte v /\ (i < length l)%nat /\ l' = <[i := v]> l.
Proof.
  unfold store. destruct (is_byteb v) eqn:E; [|done]. destruct (decide _); [|done].
  intros [= <-]. apply is_byteb_spec in E. done.
Qed.

Lemma store_in l i v : is_byte v -> (i < length l)%nat -> store l i v = Ret (<[i := v]> l).
Proof.
  intros Hv Hi. unfold store. apply is_byteb_spec in Hv. rewrite Hv.
  by rewrite decide_True.
Qed.

Lemma store_keeps l i v l' : store l i v = Ret l' -> length l' = length l /\ (all_bytes l -> all_bytes l').
Proof.
  intros (Hv & Hi & ->)%store_ok. rewrite length_insert. split; [done|]. intros. by apply Forall_insert.
Qed.

Lemma stores_keeps l kvs l' :
  stores l kvs = Ret l' -> length l' = length l /\ (all_bytes l -> all_bytes l').
Proof.
  revert l. induction kvs as [|[i v] kvs IH]; intros l H; cbn in H.
  - injection H as <-. done.
  - destruct (store l i v) as [l1|] eqn:E; [|done]. apply store_ok in E as (Hv & Hi & ->).
    apply IH in H as [Hl Hb]. rewrite length_insert in Hl. split; [done|].
    intros H. apply Hb. by apply Forall_insert.
Qed.

Lemma zeros_all n : all_bytes (replicate n 0).
Proof. apply Forall_replicate. by split. Qed.

Lemma all_bytes_nil : all_bytes ([] : bytes).
Proof. constructor. Qed.

#[export] Hint Resolve zeros_all all_bytes_nil : py.

Lemma index_in l i b : l !! i = Some b -> index l i = Ret b.
Proof. unfold index. by intros ->. Qed.

Lemma index_ok l i b : index l i = Ret b -> l !! i = Some b.
Proof. unfold index. destruct (l !! i); congruence. Qed.

#[export] Instance str_le_total : Total str_le.
Proof.
  intros a. unfold str_le. induction a as [|x a IH]; intros [|y b]; cbn; auto.
  destruct (Z.ltb_spec x y), (Z.ltb_spec y x); auto; lia.
Qed.

#[export] Instance str_le_trans : Transitive str_le.
Proof.
  intros a. unfold str_le. induction a as [|x a IH]; intros [|y b] [|z c]; cbn; try done.
  destruct (Z.ltb_spec x y), (Z.ltb_spec y x), (Z.ltb_spec y z), (Z.ltb_spec z y),
    (Z.ltb_spec x z), (Z.ltb_spec z x); try done; try lia. apply IH.
Qed.

Lemma sorted_perm l : sorted l ≡ₚ l.
Proof. apply merge_sort_Permutation. Qed.

Lemma sorted_sorted l : StronglySorted str_le (sorted l).
Proof. apply StronglySorted_merge_sort; apply _. Qed.

(** ** Integer offsets agree with the unary ones *)

Lemma dropZ_drop {A} n (l : list A) : dropZ n l = drop (Z.to_nat n) l.
Proof.
  revert n. induction l as [|x l IH]; intros n; cbn [dropZ]; [by rewrite drop_nil|].
  destruct (Z.leb_spec n 0).
  - replace (Z.to_nat n) with 0%nat by lia. reflexivity.
  - rewrite IH. replace (Z.to_nat n) with (S (Z.to_nat (n - 1))) by lia. reflexivity.
Qed.

Lemma takeZ_take {A} n (l : list A) : takeZ n l = take (Z.to_nat n) l.
Proof.
  revert n. induction l as [|x l IH]; intros n; cbn [takeZ]; [by rewrite take_nil|].
  destruct (Z.leb_spec n 0).
  - replace (Z.to_nat n) with 0%nat by lia. reflexivity.
  - rewrite IH. replace (Z.to_nat n) with (S (Z.to_nat (n - 1))) by lia. reflexivity.
Qed.

(** ** Stripping *)

Lemma drop_while_suffix f l : exists k, drop_while f l = drop k l /\ (k <= length l)%nat.
Proof.
  induction l as [|x l (k & Hk & Hl)]; [by exists 0%nat|]. cbn [drop_while].
  destruct (f x); [exists (S k) | exists 0%nat]; cbn; split; auto; lia.
Qed.

Lemma length_drop_while f l : (length (drop_while f l) <= length l)%nat.
Proof. destruct (drop_while_suffix f l) as (k & -> & _). rewrite length_drop. lia. Qed.

Lemma length_rstrip_with f l : (length (rstrip_with f l) <= length l)%nat.
Proof.
  unfold rstrip_with. rewrite length_rev.
  transitivity (length (rev l)); [apply length_drop_while | by rewrite length_rev].
Qed.

Lemma length_strip_with f l : (length (strip_with f l) <= length l)%nat.
Proof.
  unfold strip_with. transitivity (length (drop_while f l));
    [apply length_rstrip_with | apply length_drop_while].
Qed.

Lemma drop_while_false f l : (forall x, head l = Some x -> f x = false) -> drop_while f l = l.
Proof. destruct l as [|x l]; intros H; cbn; [done|]. by rewrite (H x). Qed.

Lemma drop_while_replicate f n c l :
  f c = true -> drop_while f (replicate n c ++ l) = drop_while f l.
Proof. intros Hc. induction n; cbn; [done|]. by rewrite Hc. Qed.

Lemma rev_replicate {A} n (x : A) : rev (replicate n x) = replicate n x.
Proof.
  induction n as [|n IH]; [done|]. cbn [replicate rev]. rewrite IH.
  symmetry. apply replicate_cons_app.
Qed.

(** Padding is undone by stripping, when the text does not end in a stripped
    character. *)
Lemma rstrip_with_pad f n c l :
  f c = true -> (forall x, last l = Some x -> f x = false) ->
  rstrip_with f (l ++ replicate n c) = l.
Proof.
  intros Hc Hl. unfold rstrip_with. rewrite rev_app_distr, rev_replicate.
  rewrite drop_while_replicate by done. rewrite drop_while_false; [apply rev_involutive|].
  intros x Hx. apply Hl.
  rewrite <- (rev_involutive l). destruct (rev l) as [|y t]; [done|]. cbn in *.
  rewrite last_snoc. done.
Qed.

(** ** The state monad *)

Lemma stM_bind_ret {S A B} (a : A) (f : A -> stM S B) s : (mret a ≫= f) s = f a s.
Proof. reflexivity. Qed.

(** Once a computation returned, so did its first part. *)
Lemma stM_bind_inv {S A B} (m : stM S A) (f : A -> stM S B) s b s' :
  (m ≫= f) s = (Ret b, s') -> exists a s1, m s = (Ret a, s1) /\ f a s1 = (Ret b, s').
Proof.
  unfold mbind, stM_bind. destruct (m s) as [[a|e] s1] eqn:E; [eauto | congruence].
Qed.

(** ** Sums under a single change *)

Lemma zsum_insert l i x y : l !! i = Some x -> zsum (<[i := y]> l) = zsum l - x + y.
Proof.
  revert i. induction l as [|z l IH]; intros [|i] H; try done; cbn in H.
  - injection H as ->. cbn. unfold zsum. cbn. lia.
  - change (<[S i := y]> (z :: l)) with (z :: <[i := y]> l).
    rewrite !zsum_cons, (IH i) by done. lia.
Qed.

(** Two different bytes cannot both complete a sum to zero. *)
Lemma u8_sum_changed s x y :
  is_byte x -> is_byte y -> x <> y -> u8 (s + x) = 0 -> u8 (s + y) <> 0.
Proof.
  unfold is_byte. rewrite !u8_mod. intros Hx Hy Hne H0 H1.
  apply Z.mod_divide in H0 as [k Hk]; [|lia]. apply Z.mod_divide in H1 as [j Hj]; [|lia].
  assert (x - y = (k - j) * 256) by lia. nia.
Qed.

Lemma all_bytes_lookup l i b : all_bytes l -> l !! i = Some b -> is_byte b.
Proof. intros H Hi. by apply (proj1 (Forall_lookup _ _) H i). Qed.

(** ** Invariants of stateful code

    [keeps I m Q]: from a state that satisfies [I], [m] ends in one, also when
    it raises, and what it returns satisfies [Q]. *)
Definition keeps {S A} (I : S -> Prop) (m : stM S A) (Q : A -> Prop) : Prop :=
  forall s, I s -> I (snd (m s)) /\ forall a, fst (m s) = Ret a -> Q a.

Section Keeps.
Context {S A B : Type} (I : S -> Prop).
Implicit Types (P : B -> Prop) (Q : A -> Prop).

Lemma keeps_ret a Q : Q a -> keeps I (mret a) Q.
Proof. intros H s Hs. split; [done|]. by intros ? [= <-]. Qed.

Lemma keeps_bind (m : stM S B) (f : B -> stM S A) P Q :
  keeps I m P -> (forall b, P b -> keeps I (f b) Q) -> keeps I (m ≫= f) Q.
Proof.
  intros Hm Hf s Hs. specialize (Hm s Hs) as [Hs' HP]. unfold mbind, stM_bind.
  destruct (m s) as [[b|e] s'] eqn:E; cbn in *; [|by split].
  apply Hf; auto.
Qed.

Lemma keeps_lift (o : outcome A) Q : (forall a, o = Ret a -> Q a) -> keeps I (lift o) Q.
Proof. intros H s Hs. split; [done|exact H]. Qed.

Lemma keeps_get (f : S -> stM S A) Q :
  (forall s, I s -> keeps I (f s) Q) -> keeps I (get ≫= f) Q.
Proof. intros H s Hs. unfold mbind, stM_bind, get. by apply H. Qed.

Lemma keeps_gets (g : S -> B) (f : B -> stM S A) Q :
  (forall b, keeps I (f b) Q) -> keeps I (gets g ≫= f) Q.
Proof. intros H s Hs. by apply H. Qed.

Lemma keeps_raise e Q : keeps I (raise e) Q.
Proof. intros s Hs. by split. Qed.

Lemma keeps_try (m : stM S A) a Q : keeps I m Q -> Q a -> keeps I (try_os m a) Q.
Proof.
  intros Hm Ha s Hs. specialize (Hm s Hs) as [Hs' HQ]. unfold try_os, catch.
  destruct (m s) as [[b|e] s'] eqn:E; cbn in *; [by split|].
  destruct (is_os_error e); cbn; [|by split]. split; [done|]. by intros ? [= <-].
Qed.

Lemma keeps_modify (g : S -> S) (f : unit -> stM S A) Q :
  (forall s, I s -> I (g s)) -> keeps I (f tt) Q -> keeps I (modify g ≫= f) Q.
Proof. intros Hg Hf s Hs. unfold mbind, stM_bind, modify. by apply Hf, Hg. Qed.

Lemma keeps_try_any (m : stM S B) b (f : B -> stM S A) Q :
  keeps I m (fun _ => True) -> (forall b, keeps I (f b) Q) -> keeps I (try_os m b ≫= f) Q.
Proof.
  intros Hm Hf s Hs. specialize (Hm s Hs) as [Hs' _]. unfold mbind, stM_bind, try_os, catch.
  destruct (m s) as [[a|e] s'] eqn:E; cbn in *; [by apply Hf|].
  destruct (is_os_error e); [by apply Hf|by split].
Qed.

Lemma keeps_unit_bind (m : stM S unit) (f : unit -> stM S A) Q :
  keeps I m (fun _ => True) -> keeps I (f tt) Q -> keeps I (m ≫= f) Q.
Proof.
  intros Hm Hf s Hs. specialize (Hm s Hs) as [Hs' _]. unfold mbind, stM_bind.
  destruct (m s) as [[[]|e] s']; cbn in *; [by apply Hf|by split].
Qed.
End Keeps.

(** ** Splitting texts *)

Lemma split_on_app c a b : split_on c (a ++ c :: b) = split_on c a ++ split_on c b.
Proof.
  induction a as [|x a IH]; cbn [split_on app].
  - by rewrite Z.eqb_refl.
  - destruct (x =? c); [by rewrite IH|]. rewrite IH.
    destruct (split_on c a) as [|w ws] eqn:E; [|done].
    exfalso. clear -E. destruct a as [|y a]; cbn in E; [done|].
    destruct (y =? c); [done|]. by destruct (split_on c a).
Qed.

Lemma split_on_none c a : c ∉ a -> split_on c a = [a].
Proof.
  induction a as [|x a IH]; intros H; [done|]. cbn [split_on].
  apply not_elem_of_cons in H as [Hx Ha]. rewrite (proj2 (Z.eqb_neq x c)) by congruence.
  by rewrite IH.
Qed.

(** ** Triples *)

(** From a state with [P], [m] ends in one with [Q], or raises and ends in one with [E]. *)
Definition hoare {S A} (P : S -> Prop) (m : stM S A) (Q : A -> S -> Prop) (E : exn -> S -> Prop) : Prop :=
  forall s, P s -> match m s with (Ret a, s') => Q a s' | (Raise e, s') => E e s' end.

Section Hoare.
Context {S : Type}.
Implicit Types P : S -> Prop.

Lemma hoare_ret {A} (a : A) P (Q : A -> S -> Prop) E : (forall s, P s -> Q a s) -> hoare P (mret a) Q E.
Proof. intros H s Hs. by apply H. Qed.

Lemma hoare_bind {A B} (m : stM S A) (f : A -> stM S B) P R Q E : hoare P m R E -> (forall a, hoare (R a) (f a) Q E) -> hoare P (m ≫= f) Q E.
Proof. intros Hm Hf s Hs. specialize (Hm s Hs). unfold mbind, stM_bind. destruct (m s) as [[a|e] s']; [|done]. by apply Hf. Qed.

Lemma hoare_conseq {A} (m : stM S A) P P' (Q Q' : A -> S -> Prop) (E E' : exn -> S -> Prop) : hoare P' m Q' E' ->
  (forall s, P s -> P' s) -> (forall a s, Q' a s -> Q a s) -> (forall e s, E' e s -> E e s) -> hoare P m Q E.
Proof. intros Hm HP HQ HE s Hs. specialize (Hm s (HP _ Hs)). destruct (m s) as [[a|e] s']; auto. Qed.

Lemma hoare_catch {A} caught (m : stM S A) (h : exn -> stM S A) P Q E F : hoare P m Q F -> (forall e, caught e = true -> hoare (F e) (h e) Q E) ->
  (forall e s, caught e = false -> F e s -> E e s) -> hoare P (catch caught m h) Q E.
Proof.
  intros Hm Hh HF s Hs. specialize (Hm s Hs). unfold catch. destruct (m s) as [[a|e] s']; [done|]. destruct (caught e) eqn:Ec; [by apply Hh|by apply HF].
Qed.

Lemma hoare_ex {A X} (m : stM S A) (P : X -> S -> Prop) Q E : (forall x, hoare (P x) m Q E) -> hoare (fun s => exists x, P x s) m Q E.
Proof. intros H s [x Hx]. by apply (H x). Qed.

Lemma hoare_pure {A} (m : stM S A) (X : Prop) P Q E : (X -> hoare P m Q E) -> hoare (fun s => X /\ P s) m Q E.
Proof. intros H s [Hx Hs]. by apply H. Qed.

Lemma hoare_lift {A} (o : outcome A) P (Q : A -> S -> Prop) (E : exn -> S -> Prop) :
  (forall a s, o = Ret a -> P s -> Q a s) -> (forall e s, o = Raise e -> P s -> E e s) -> hoare P (lift o) Q E.
Proof. intros HQ HE s Hs. unfold lift. destruct o; auto. Qed.
End Hoare.
