(* ===== verification/Wire.v ===== *)
(** * Programs that talk over a byte stream.

    The servers and clients of the repository exchange bytes over a socket,
    [sock.recv(1)] and [sock.sendall(...)] at a time.  [prog A] is such a
    program as a tree: it returns, raises, sends a chunk and continues with
    what the socket answered, or waits for one byte and continues with the
    byte, a timeout or the end of the stream.  [plays] says which conversation
    a program holds; [step] runs two programs against each other over two FIFO
    channels, every interleaving of their steps being allowed.

    The section [Duality] shows that two programs that hold dual conversations
    finish together under every interleaving; [FrameSender] and
    [FrameReceiver] are the interface through which the concrete senders and
    receivers of [Framing] use it. *)

From stdpp Require Import relations.
From S2P Require Import Prelude.

(** ** Socket programs *)

(** What [recv(1)] gives: a byte, [b''] (the peer closed), or a timeout. *)
Inductive rx : Set := RxByte (b : Z) | RxClosed | RxTimeout.

(** What [sendall] does: it returns, or raises. *)
Inductive tx : Set := TxOk | TxBroken | TxTimeout.

Inductive prog (A : Type) : Type :=
  | PRet (a : A)
  | PRaise (e : exn)
  | PSend (bs : bytes) (k : tx -> prog A)
  | PRecv (timeout : option Z) (k : rx -> prog A).
Arguments PRet {A} a.
Arguments PRaise {A} e.
Arguments PSend {A} bs k.
Arguments PRecv {A} timeout k.

#[export] Instance prog_ret : MRet prog := fun A a => PRet a.
#[export] Instance prog_bind : MBind prog := fun A B f =>
  fix bind (m : prog A) : prog B :=
    match m with
    | PRet a => f a
    | PRaise e => PRaise e
    | PSend bs k => PSend bs (fun r => bind (k r))
    | PRecv t k => PRecv t (fun r => bind (k r))
    end.

(** Run a program to its outcome, so that a caller can catch exceptions. *)
Fixpoint attempt {A} (m : prog A) : prog (outcome A) :=
  match m with
  | PRet a => PRet (Ret a)
  | PRaise e => PRet (Raise e)
  | PSend bs k => PSend bs (fun r => attempt (k r))
  | PRecv t k => PRecv t (fun r => attempt (k r))
  end.

(** [sock.sendall(bs)]. *)
Definition sendall (bs : bytes) : prog unit :=
  PSend bs (fun r => match r with
                     | TxOk => PRet tt
                     | TxBroken => PRaise ConnectionError
                     | TxTimeout => PRaise TimeoutError
                     end).

(** Raise or return what a pure computation gives. *)
Definition of_outcome {A} (o : outcome A) : prog A :=
  match o with Ret a => PRet a | Raise e => PRaise e end.

(** ** Running a program against a fixed list of socket events

    [feed m l] gives the events of [l] to the receives of [m] in order and lets
    every send succeed: what [m] sent, and either its outcome and the unread
    events or [None] when it still waits for input. *)
Fixpoint feed {A} (m : prog A) (l : list rx) : bytes * option (outcome A * list rx) :=
  match m with
  | PRet a => ([], Some (Ret a, l))
  | PRaise e => ([], Some (Raise e, l))
  | PSend bs k => let r := feed (k TxOk) l in (bs ++ fst r, snd r)
  | PRecv t k =>
      match l with
      | [] => ([], None)
      | r :: l' => feed (k r) l'
      end
  end.

Lemma feed_bind {A B} (m : prog A) (f : A -> prog B) l :
  feed (m ≫= f) l =
  match feed m l with
  | (o, Some (Ret a, l')) => let r := feed (f a) l' in (o ++ fst r, snd r)
  | (o, Some (Raise e, l')) => (o, Some (Raise e, l'))
  | (o, None) => (o, None)
  end.
Proof.
  revert l. induction m as [a|e|bs k IH|t k IH]; intros l; cbn.
  - by destruct (feed (f a) l).
  - done.
  - rewrite IH. destruct (feed (k TxOk) l) as [o [[[a|e] l']|]]; cbn; [by rewrite app_assoc|done|done].
  - destruct l as [|r l']; [done|]. apply IH.
Qed.

Lemma feed_sendall_bind {B} bs (f : unit -> prog B) l :
  feed (sendall bs ≫= f) l = (bs ++ fst (feed (f tt) l), snd (feed (f tt) l)).
Proof. rewrite feed_bind. cbn. by rewrite app_nil_r. Qed.

(** ** Conversations *)

(** One byte out or one byte in. *)
Inductive act : Set := Out (b : Z) | In (b : Z).

Definition dual_act (a : act) : act :=
  match a with Out b => In b | In b => Out b end.
Definition dual (s : list act) : list act := map dual_act s.

(** [plays n m s m']: with every send accepted, [m] holds the conversation [s]
    in [n] socket calls and is [m'] afterwards. *)
Inductive plays {A} : nat -> prog A -> list act -> prog A -> Prop :=
  | plays_done m : plays 0 m [] m
  | plays_send n bs k s m' :
      plays n (k TxOk) s m' -> plays (S n) (PSend bs k) (map Out bs ++ s) m'
  | plays_recv n t b k s m' :
      plays n (k (RxByte b)) s m' -> plays (S n) (PRecv t k) (In b :: s) m'.

Definition holds {A} (m : prog A) (s : list act) (a : A) : Prop :=
  exists n, plays n m s (PRet a).

(** ** Two programs over two channels *)

Record net (A B : Type) : Type := Net {
  left_prog : prog A;
  right_prog : prog B;
  to_right : bytes;
  to_left : bytes
}.
Arguments Net {A B} left_prog right_prog to_right to_left.

Inductive side : Set := L | R.

Inductive step {A B} : side -> net A B -> net A B -> Prop :=
  | step_left_send bs k q c d :
      step L (Net (PSend bs k) q c d) (Net (k TxOk) q (c ++ bs) d)
  | step_left_recv t k q c b d :
      step L (Net (PRecv t k) q c (b :: d)) (Net (k (RxByte b)) q c d)
  | step_right_send p bs k c d :
      step R (Net p (PSend bs k) c d) (Net p (k TxOk) c (d ++ bs))
  | step_right_recv p t k b c d :
      step R (Net p (PRecv t k) (b :: c) d) (Net p (k (RxByte b)) c d).

Definition nstep {A B} (x y : net A B) : Prop := exists s, step s x y.

Definition started {A B} (p : prog A) (q : prog B) : net A B := Net p q [] [].
Definition finished {A B} (a : A) (b : B) : net A B := Net (PRet a) (PRet b) [] [].

(** The two programs deliver: every reachable state can still reach the state
    where both returned with empty channels, and no run is longer than some
    bound, so every maximal run ends there. *)
Definition always_finishes {A B} (p : prog A) (q : prog B) (a : A) (b : B) : Prop :=
  exists n, forall m y, nsteps nstep m (started p q) y ->
    (m <= n)%nat /\ nsteps nstep (n - m) y (finished a b).

(** ** The frame interface *)

Definition ENQ : Z := 5.
Definition ACK : Z := 6.
Definition NAK : Z := 21.
Definition SOH : Z := 1.
Definition STX : Z := 2.
Definition ETX : Z := 3.
Definition EOT : Z := 4.

(** The checksum byte of a block: it makes the sum of the block vanish. *)
Definition closing (l : bytes) : Z := u8 (- zsum l).

Definition header_block (hdr : bytes) : bytes := SOH :: hdr ++ [closing (SOH :: hdr)].
Definition data_block (payload : bytes) : bytes :=
  STX :: payload ++ [ETX; closing (STX :: payload ++ [ETX]); EOT].

(** What the sending end of a frame does. *)
Definition sender_script (hdr payload : bytes) : list act :=
  [Out ENQ; In ACK] ++ map Out (header_block hdr) ++ [In ACK]
  ++ map Out (data_block payload) ++ [In ACK].
Definition receiver_script (hdr payload : bytes) : list act := dual (sender_script hdr payload).

(** A frame: five header bytes whose last counts the payload minus one. *)
Definition wf_frame (hdr payload : bytes) : Prop :=
  all_bytes hdr /\ all_bytes payload /\ length hdr = 5%nat /\
  hdr !! 4%nat = Some (zlength payload - 1).

Class FrameSender {X A} (snd : X -> prog A) (hdr payload : X -> bytes) (ok : A) : Prop :=
  sender_holds : forall x, wf_frame (hdr x) (payload x) ->
    holds (snd x) (sender_script (hdr x) (payload x)) ok.

Class FrameReceiver {A} (rcv : prog A) (ok : bytes -> bytes -> A) : Prop :=
  receiver_holds : forall hdr payload, wf_frame hdr payload ->
    holds rcv (receiver_script hdr payload) (ok hdr payload).

(** ** Conversations compose *)

Lemma plays_app {A} n m (p p' p'' : prog A) s s' :
  plays n p s p' -> plays m p' s' p'' -> plays (n + m) p (s ++ s') p''.
Proof.
  induction 1; intros H'; cbn; [done| |]; try (rewrite <- app_assoc); constructor; auto.
Qed.

(** A program that holds [s] and returns [a] can be continued. *)
Lemma plays_bind {A B} n (m : prog A) (f : A -> prog B) s a :
  plays n m s (PRet a) -> plays n (m ≫= f) s (f a).
Proof.
  intros H. remember (PRet a) as m' eqn:E. revert E.
  induction H; intros ->; cbn; constructor; auto.
Qed.

Lemma holds_bind {A B} (m : prog A) (f : A -> prog B) s s' a b :
  holds m s a -> holds (f a) s' b -> holds (m ≫= f) (s ++ s') b.
Proof.
  intros [n Hn] [k Hk]. exists (n + k)%nat. eapply plays_app; [by apply plays_bind | done].
Qed.

Lemma holds_ret {A} (a : A) : holds (PRet a) [] a.
Proof. exists 0%nat. constructor. Qed.

Lemma holds_send {A} bs (k : tx -> prog A) s a :
  holds (k TxOk) s a -> holds (PSend bs k) (map Out bs ++ s) a.
Proof. intros [n H]. exists (S n). by constructor. Qed.

Lemma holds_recv {A} t b (k : rx -> prog A) s a :
  holds (k (RxByte b)) s a -> holds (PRecv t k) (In b :: s) a.
Proof. intros [n H]. exists (S n). by constructor. Qed.

Lemma holds_sendall_bind {B} bs (f : unit -> prog B) s b :
  holds (f tt) s b -> holds (sendall bs ≫= f) (map Out bs ++ s) b.
Proof. intros H. by apply holds_send. Qed.

Lemma holds_sendall bs : holds (sendall bs) (map Out bs) tt.
Proof. rewrite <- (app_nil_r (map Out bs)). apply holds_send, holds_ret. Qed.

#[export] Hint Resolve holds_ret holds_sendall : py.

(** ** Every interleaving of two deterministic programs ends alike *)

Section Confluence.
Context {A B : Type}.
Implicit Types x y z w t : net A B.

Lemma step_det s x y z : step s x y -> step s x z -> y = z.
Proof. destruct 1; inversion 1; subst; congruence. Qed.

Lemma step_commute x y z : step L x y -> step R x z -> exists w, step R y w /\ step L z w.
Proof.
  inversion 1; subst; inversion 1; subst; eexists; split; try constructor.
Qed.

Lemma nstep_diamond x y z : nstep x y -> nstep x z -> y = z \/ exists w, nstep y w /\ nstep z w.
Proof.
  intros [[|] Hy] [[|] Hz]; try (left; by eapply step_det); right.
  - destruct (step_commute x y z) as (w & ? & ?); try done. exists w. split; eexists; done.
  - destruct (step_commute x z y) as (w & ? & ?); try done. exists w. split; eexists; done.
Qed.

Definition stuck x : Prop := forall y, ~ nstep x y.

Lemma nsteps_one_back n x y t :
  stuck t -> nsteps nstep n x t -> nstep x y -> exists m, n = S m /\ nsteps nstep m y t.
Proof.
  intros Ht. revert x y. induction n as [|n IH]; intros x y Hn Hy.
  - inversion Hn; subst. exfalso. by apply (Ht y).
  - inversion Hn as [|? ? x1 ? Hx1 Hrest]; subst. exists n. split; [done|].
    destruct (nstep_diamond x y x1 Hy Hx1) as [->|(w & Hyw & Hxw)]; [done|].
    destruct (IH x1 w Hrest Hxw) as (m & -> & Hm). by apply (nsteps_l _ _ _ w).
Qed.

Lemma nsteps_any_prefix n m x y t :
  stuck t -> nsteps nstep n x t -> nsteps nstep m x y ->
  (m <= n)%nat /\ nsteps nstep (n - m) y t.
Proof.
  intros Ht. revert n x. induction m as [|m IH]; intros n x Hn Hm.
  - inversion Hm; subst. rewrite Nat.sub_0_r. split; [lia | done].
  - inversion Hm as [|? ? x1 ? Hx1 Hrest]; subst.
    destruct (nsteps_one_back n x x1 t Ht Hn Hx1) as (k & -> & Hk).
    destruct (IH k x1 Hk Hrest) as [? ?]. split; [lia | done].
Qed.

Lemma finished_stuck a b : stuck (finished a b).
Proof. intros y [s H]. inversion H. Qed.
End Confluence.

(** ** Duality *)

Section Duality.
Context {A B : Type}.

(** The channels hold what one end has said and the other has not yet heard. *)
Definition in_phase (sp sq : list act) (c d : bytes) : Prop :=
  (d = [] /\ sq = map In c ++ dual sp) \/ (c = [] /\ sp = map In d ++ dual sq).

Lemma dual_involutive s : dual (dual s) = s.
Proof. unfold dual. rewrite map_map. induction s as [|[]]; cbn; congruence. Qed.

Lemma in_phase_send_left sp sq bs :
  in_phase (map Out bs ++ sp) sq [] [] -> in_phase sp sq bs [].
Proof.
  assert (Hd : dual (map Out bs ++ sp) = map In bs ++ dual sp).
  { unfold dual. rewrite map_app, map_map. reflexivity. }
  intros [[_ H]|[_ H]]; left; (split; [done|]).
  - cbn in H. by rewrite H, Hd.
  - cbn in H. rewrite <- Hd, H. symmetry. apply dual_involutive.
Qed.

Lemma in_phase_send_right sp sq bs :
  in_phase sp (map Out bs ++ sq) [] [] -> in_phase sp sq [] bs.
Proof.
  assert (Hd : dual (map Out bs ++ sq) = map In bs ++ dual sq).
  { unfold dual. rewrite map_app, map_map. reflexivity. }
  intros [[_ H]|[_ H]]; right; (split; [done|]).
  - cbn in H. rewrite <- Hd, H. symmetry. apply dual_involutive.
  - cbn in H. by rewrite H, Hd.
Qed.

Lemma nsteps_cons (x y z : net A B) n s : step s x y -> nsteps nstep n y z -> nsteps nstep (S n) x z.
Proof. intros. eapply nsteps_l; [by exists s | done]. Qed.

Lemma duality_run N : forall n m (p : prog A) (q : prog B) sp sq c d a b,
  (n + m = N)%nat ->
  plays n p sp (PRet a) -> plays m q sq (PRet b) -> in_phase sp sq c d ->
  nsteps nstep N (Net p q c d) (finished a b).
Proof.
  induction N as [N IH] using lt_wf_ind. intros n m p q sp sq c d a b HN Hp Hq Hph.
  destruct c as [|x c].
  - destruct d as [|x d].
    + (* both channels empty: a side that sends may go *)
      inversion Hp as [|n' bs k s m' Hk|n' t x k s m' Hk]; subst.
      * inversion Hq as [|m0 bs k s m' Hk|m0 t x k s m' Hk]; subst.
        -- constructor.
        -- eapply nsteps_cons; [constructor|].
           eapply (IH m0); [lia| |exact Hp|exact Hk|]; [lia|].
           destruct bs; [|destruct Hph as [[_ Hs]|[_ Hs]]; done].
           by apply in_phase_send_right.
        -- destruct Hph as [[_ Hs]|[_ Hs]]; done.
      * eapply nsteps_cons; [constructor|].
        eapply (IH (n' + m)%nat); [lia|reflexivity|exact Hk|exact Hq|].
        by apply in_phase_send_left.
      * inversion Hq as [|m0 bs k0 s0 m' Hk0|m0 t0 x0 k0 s0 m' Hk0]; subst.
        -- destruct Hph as [[_ Hs]|[_ Hs]]; done.
        -- replace (S n' + S m0)%nat with (S (S n' + m0)) by lia.
           eapply nsteps_cons; [constructor|].
           eapply (IH (S n' + m0)%nat); [lia|reflexivity|exact Hp|exact Hk0|].
           by apply in_phase_send_right.
        -- destruct Hph as [[_ Hs]|[_ Hs]]; done.
    + (* a byte waits for the left side *)
      destruct Hph as [[? _]|[_ Hs]]; [done|]. cbn in Hs.
      inversion Hp as [|n' bs k s m' Hk|n' t y k s m' Hk]; subst.
      * done.
      * destruct bs as [|y bs]; [|done]. cbn in *. subst.
        eapply nsteps_cons; [constructor|].
        eapply (IH (n' + m)%nat); [lia|reflexivity|exact Hk|exact Hq|]. right. split; done.
      * simplify_eq. eapply nsteps_cons; [constructor|].
        eapply (IH (n' + m)%nat); [lia|reflexivity|exact Hk|exact Hq|]. right. split; done.
  - (* a byte waits for the right side *)
    destruct Hph as [[-> Hs]|[? _]]; [|done]. cbn in Hs.
    inversion Hq as [|m0 bs k s m' Hk|m0 t y k s m' Hk]; subst.
    + done.
    + destruct bs as [|y bs]; [|done]. cbn in *. subst.
      replace (n + S m0)%nat with (S (n + m0)) by lia.
      eapply nsteps_cons; [constructor|].
      eapply (IH (n + m0)%nat); [lia|reflexivity|exact Hp|exact Hk|]. left. split; done.
    + simplify_eq. replace (n + S m0)%nat with (S (n + m0)) by lia.
      eapply nsteps_cons; [constructor|].
      eapply (IH (n + m0)%nat); [lia|reflexivity|exact Hp|exact Hk|]. left. split; done.
Qed.

Lemma dual_finishes (p : prog A) (q : prog B) s a b :
  holds p s a -> holds q (dual s) b -> always_finishes p q a b.
Proof.
  intros [n Hp] [m Hq]. exists (n + m)%nat. intros k y Hk.
  eapply nsteps_any_prefix; [apply finished_stuck| |exact Hk].
  eapply duality_run; [reflexivity|exact Hp|exact Hq|]. left. split; done.
Qed.
End Duality.

(** Any sender of the interface delivers its frame to any receiver of it. *)
Lemma frame_delivery {X A B} (snd : X -> prog A) hdr payload ok (rcv : prog B) ok'
  `{!FrameSender snd hdr payload ok} `{!FrameReceiver rcv ok'} x :
  wf_frame (hdr x) (payload x) ->
  always_finishes (snd x) rcv ok (ok' (hdr x) (payload x)).
Proof.
  intros Hwf. eapply dual_finishes; [by apply sender_holds|].
  exact (receiver_holds _ _ Hwf).
Qed.

(** ** Reading a returned run backwards *)

Lemma feed_bind_inv {A B} (m : prog A) (f : A -> prog B) l o b l2 :
  feed (m ≫= f) l = (o, Some (Ret b, l2)) ->
  exists a l1 o1 o2, feed m l = (o1, Some (Ret a, l1)) /\
    feed (f a) l1 = (o2, Some (Ret b, l2)) /\ o = o1 ++ o2.
Proof.
  rewrite feed_bind. destruct (feed m l) as [o1 [[[a|e] l1]|]] eqn:E; try done.
  destruct (feed (f a) l1) as [o2 r] eqn:E2. cbn. intros [= <- ->].
  exists a, l1, o1, o2. done.
Qed.

Lemma feed_sendall_inv bs l o l2 :
  feed (sendall bs) l = (o, Some (Ret tt, l2)) -> o = bs /\ l2 = l.
Proof. cbn. rewrite app_nil_r. by intros [= <- <-]. Qed.

Lemma feed_of_outcome_inv {A} (x : outcome A) l o a l2 :
  feed (of_outcome x) l = (o, Some (Ret a, l2)) -> x = Ret a /\ o = [] /\ l2 = l.
Proof. destruct x; cbn; [by intros [= <- <- <-] | done]. Qed.
