(* ===== verification/Framing.v ===== *)
(** * DRI CP/NET 1.2 serial framing, on both ends and in four programs.

    [SerialConnection] of cpnet/server.py, the SNIOS functions of
    cpnos-rom/netboot_server.py, the test client cpnet/cpnet12_client.py and
    the upstream half of cpnos-rom/cpnet_pio_server.py each implement

      ENQ -> / <- ACK / SOH hdr[5] HCS -> / <- ACK / STX data ETX CKS EOT -> / <- ACK

    The three receivers that check the sums answer a bad one with NAK and give
    up; the SNIOS receiver only prints a warning.  The waits for ENQ are
    [while True] loops in the source; here they take a number of bytes to read
    before giving up ([OutOfFuel]), and every theorem holds for any larger one. *)

From S2P Require Import Prelude Wire.

(** ** cpnet/server.py: SerialConnection *)

(** Two's complement checksum of a block. *)
Definition checksum (data : bytes) (init : Z) : Z :=
  u8 (- foldl (fun s b => u8 (s + b)) init data).

(** [sock.sendall(bytes([b]))]. *)
Definition send_byte (b : Z) : prog unit :=
  bs ← of_outcome (mk_bytes [b]); sendall bs.

(** [recv(1)] with a timeout: [None] when it expires. *)
Definition recv_byte (timeout : option Z) : prog (option Z) :=
  PRecv timeout (fun r => match r with
                          | RxByte b => PRet (Some b)
                          | RxClosed => PRaise ConnectionError
                          | RxTimeout => PRet None
                          end).

(** Exactly [n] bytes, [None] as soon as one of them times out. *)
Fixpoint recv_bytes (n : nat) (timeout : option Z) : prog (option bytes) :=
  match n with
  | O => mret (Some [])
  | S n' =>
      b ← recv_byte timeout;
      match b with
      | None => mret None
      | Some b => r ← recv_bytes n' timeout; mret (cons b <$> r)
      end
  end.

(** [(b & 0x7F) == c], with [None] for a timeout. *)
Definition is_ctl (b : option Z) (c : Z) : bool :=
  match b with Some b => Z.land b 127 =? c | None => false end.

(** [for byte in l: send_byte(byte); s = (s + byte) & 0xFF]. *)
Fixpoint send_summed (l : bytes) (s : Z) : prog Z :=
  match l with
  | [] => mret s
  | b :: l' => send_byte b;; send_summed l' (u8 (s + b))
  end.

Definition sum_bytes (l : bytes) (s : Z) : Z := foldl (fun a b => u8 (a + b)) s l.

Definition send_frame (hdr payload : bytes) : prog bool :=
  send_byte ENQ;;
  b ← recv_byte (Some 5);
  if negb (is_ctl b ACK) then mret false else
  send_byte SOH;;
  hcs ← send_summed (take 5 hdr) SOH;
  send_byte (u8 (- hcs));;
  b ← recv_byte (Some 5);
  if negb (is_ctl b ACK) then mret false else
  send_byte STX;;
  cks ← send_summed payload STX;
  send_byte ETX;;
  let cks := u8 (cks + ETX) in
  send_byte (u8 (- cks));;
  send_byte EOT;;
  b ← recv_byte (Some 5);
  if negb (is_ctl b ACK) then mret false else
  mret true.

(** The loop that skips bytes until ENQ; [false] for a timeout. *)
Fixpoint wait_enq (fuel : nat) : prog bool :=
  match fuel with
  | O => PRaise OutOfFuel
  | S fuel' =>
      b ← recv_byte None;
      match b with
      | None => mret false
      | Some b => if b =? ENQ then mret true else wait_enq fuel'
      end
  end.

Definition recv_frame (fuel : nat) : prog (option (bytes * bytes)) :=
  got ← wait_enq fuel;
  if negb got then mret None else
  send_byte ACK;;
  soh ← recv_byte (Some 5);
  if negb (is_ctl soh SOH) then mret None else
  let hcs := Z.land (default 0 soh) 127 in
  hdr_data ← recv_bytes 5 (Some 5);
  match hdr_data with
  | None => mret None
  | Some hdr_data =>
    let hcs := sum_bytes hdr_data hcs in
    b ← recv_byte (Some 5);
    match b with
    | None => mret None
    | Some b =>
      let hcs := u8 (hcs + b) in
      if negb (hcs =? 0) then (send_byte NAK;; mret None) else
      send_byte ACK;;
      stx ← recv_byte (Some 5);
      if negb (is_ctl stx STX) then mret None else
      let cks := Z.land (default 0 stx) 127 in
      siz ← of_outcome (index hdr_data 4);
      payload ← recv_bytes (Z.to_nat (siz + 1)) (Some 5);
      match payload with
      | None => mret None
      | Some payload =>
        let cks := sum_bytes payload cks in
        etx ← recv_byte (Some 5);
        if negb (is_ctl etx ETX) then mret None else
        let cks := u8 (cks + Z.land (default 0 etx) 127) in
        b ← recv_byte (Some 5);
        match b with
        | None => mret None
        | Some b =>
          let cks := u8 (cks + b) in
          eot ← recv_byte (Some 5);
          if negb (is_ctl eot EOT) then mret None else
          if negb (cks =? 0) then (send_byte NAK;; mret None) else
          send_byte ACK;;
          mret (Some (hdr_data, payload))
        end
      end
    end
  end.

(** ** cpnos-rom/netboot_server.py: the SNIOS master side *)

(** [recv_byte(c, timeout)]: a closed socket or a timeout raises. *)
Definition snios_recv_byte (timeout : Z) : prog Z :=
  PRecv (Some timeout) (fun r => match r with
                                 | RxByte b => PRet b
                                 | RxClosed => PRaise EOFError
                                 | RxTimeout => PRaise TimeoutError
                                 end).

(** [bytes([recv_byte(c) for _ in range(n)])]. *)
Fixpoint recv_list (rb : prog Z) (n : nat) : prog bytes :=
  match n with
  | O => mret []
  | S n' => b ← rb; r ← recv_list rb n'; mret (b :: r)
  end.

Definition snios_recv_sndmsg (idle_timeout byte_timeout : Z) : prog (bytes * bytes) :=
  b ← snios_recv_byte idle_timeout;
  if negb (b =? ENQ) then PRaise EOFError else
  sendall [ACK];;
  soh ← snios_recv_byte 5;
  if negb (soh =? SOH) then PRaise EOFError else
  hdr ← recv_list (snios_recv_byte 5) 5;
  hcs ← snios_recv_byte 5;
  (* a bad header sum is printed as a warning *)
  sendall [ACK];;
  stx ← snios_recv_byte 5;
  if negb (stx =? STX) then PRaise EOFError else
  n ← of_outcome (index hdr 4);
  data ← recv_list (snios_recv_byte 5) (Z.to_nat (n + 1));
  etx ← snios_recv_byte 5;
  cks ← snios_recv_byte 5;
  eot ← snios_recv_byte 5;
  (* a bad data sum or a missing EOT is printed as a warning *)
  sendall [ACK];;
  mret (hdr, data).

(** The reply's header swaps DID and SID and keeps FNC unless overridden; any
    byte is taken for the client's ACK (another one is printed as a warning). *)
Definition snios_send_rcvmsg (reply_to data : bytes) (fnc : option Z) : prog unit :=
  fnc ← of_outcome (match fnc with None => index reply_to 3 | Some f => Ret f end);
  did ← of_outcome (index reply_to 2);
  sendall [ENQ];;
  ack ← snios_recv_byte 5;
  header ← of_outcome (mk_bytes [1; did; 0; fnc; Z.max (zlength data) 1 - 1]);
  let hcs := u8 (- u8 (SOH + zsum header)) in
  sendall ([SOH] ++ header ++ [hcs]);;
  ack ← snios_recv_byte 5;
  let cks := u8 (- u8 (STX + zsum data + ETX)) in
  sendall ([STX] ++ data ++ [ETX; cks; EOT]);;
  ack ← snios_recv_byte 5;
  mret tt.

(** ** cpnet/cpnet12_client.py: CPNetClient *)

Definition client_recv_byte (timeout : Z) : prog Z :=
  PRecv (Some timeout) (fun r => match r with
                                 | RxByte b => PRet b
                                 | RxClosed => PRaise ConnectionError
                                 | RxTimeout => PRaise TimeoutError
                                 end).

Definition wait_for_ack : prog bool :=
  r ← attempt (client_recv_byte 5);
  match r with
  | Ret b => mret (is_ctl (Some b) ACK)
  | Raise TimeoutError => mret false
  | Raise e => PRaise e
  end.

Fixpoint send_each (l : bytes) : prog unit :=
  match l with
  | [] => mret tt
  | b :: l' => send_byte b;; send_each l'
  end.

Definition send_message (fmt did sid fnc siz : Z) (data : bytes) : prog bool :=
  header ← of_outcome (mk_bytes [fmt; did; sid; fnc; siz]);
  send_byte ENQ;;
  ok ← wait_for_ack;
  if negb ok then mret false else
  let hdr_with_soh := [SOH] ++ header in
  send_each hdr_with_soh;;
  send_byte (checksum hdr_with_soh 0);;
  ok ← wait_for_ack;
  if negb ok then mret false else
  let block := [STX] ++ data ++ [ETX] in
  send_each block;;
  send_byte (checksum block 0);;
  send_byte EOT;;
  ok ← wait_for_ack;
  if negb ok then mret false else
  mret true.

(** [for _ in range(n): b = recv_byte(); l.append(b); s = (s + b) & 0xFF]. *)
Fixpoint recv_summed (rb : prog Z) (n : nat) (s : Z) : prog (bytes * Z) :=
  match n with
  | O => mret ([], s)
  | S n' => b ← rb; r ← recv_summed rb n' (u8 (s + b)); mret (b :: r.1, r.2)
  end.

Definition recv_message : prog (option (bytes * bytes)) :=
  r ← attempt (client_recv_byte 10);
  match r with
  | Raise TimeoutError => mret None
  | Raise e => PRaise e
  | Ret b =>
    if negb (Z.land b 127 =? ENQ) then mret None else
    send_byte ACK;;
    b ← client_recv_byte 5;
    if negb (Z.land b 127 =? SOH) then mret None else
    h ← recv_summed (client_recv_byte 5) 5 SOH;
    let header := h.1 in
    hcs ← client_recv_byte 5;
    if negb (u8 (h.2 + hcs) =? 0) then (send_byte NAK;; mret None) else
    send_byte ACK;;
    b ← client_recv_byte 5;
    if negb (Z.land b 127 =? STX) then mret None else
    siz ← of_outcome (index header 4);
    d ← recv_summed (client_recv_byte 5) (Z.to_nat (siz + 1)) STX;
    b ← client_recv_byte 5;
    if negb (Z.land b 127 =? ETX) then mret None else
    let cksum := u8 (d.2 + ETX) in
    cks ← client_recv_byte 5;
    let cksum := u8 (cksum + cks) in
    b ← client_recv_byte 5;
    if negb (Z.land b 127 =? EOT) then mret None else
    if negb (cksum =? 0) then (send_byte NAK;; mret None) else
    send_byte ACK;;
    mret (Some (header, d.1))
  end.

(** ** cpnos-rom/cpnet_pio_server.py: the upstream envelope *)

Definition recv_byte_upstream : prog Z :=
  PRecv (Some 30) (fun r => match r with
                            | RxByte b => PRet b
                            | RxClosed => PRaise EOFError
                            | RxTimeout => PRaise TimeoutError
                            end).

Definition upstream_send (hdr payload : bytes) : prog unit :=
  sendall [ENQ];;
  a ← recv_byte_upstream;
  if negb (a =? ACK) then PRaise OSError else
  let hcs := u8 (- (SOH + zsum hdr)) in
  sendall ([SOH] ++ hdr ++ [hcs]);;
  a ← recv_byte_upstream;
  if negb (a =? ACK) then PRaise OSError else
  let cks := u8 (- (STX + zsum payload + ETX)) in
  sendall ([STX] ++ payload ++ [ETX; cks; EOT]);;
  a ← recv_byte_upstream;
  if negb (a =? ACK) then PRaise OSError else
  mret tt.

Fixpoint upstream_wait_enq (fuel : nat) : prog unit :=
  match fuel with
  | O => PRaise OutOfFuel
  | S fuel' => b ← recv_byte_upstream;
               if Z.land b 127 =? ENQ then mret tt else upstream_wait_enq fuel'
  end.

Definition upstream_recv (fuel : nat) : prog (bytes * bytes) :=
  upstream_wait_enq fuel;;
  sendall [ACK];;
  soh ← recv_byte_upstream;
  if negb (Z.land soh 127 =? SOH) then PRaise OSError else
  hdr ← recv_list recv_byte_upstream 5;
  hcs ← recv_byte_upstream;
  if negb (u8 (SOH + zsum hdr + hcs) =? 0) then PRaise OSError else
  sendall [ACK];;
  stx ← recv_byte_upstream;
  if negb (Z.land stx 127 =? STX) then PRaise OSError else
  n ← of_outcome (index hdr 4);
  payload ← recv_list recv_byte_upstream (Z.to_nat (n + 1));
  etx ← recv_byte_upstream;
  if negb (Z.land etx 127 =? ETX) then PRaise OSError else
  cks ← recv_byte_upstream;
  eot ← recv_byte_upstream;
  if negb (Z.land eot 127 =? EOT) then PRaise OSError else
  if negb (u8 (STX + zsum payload + ETX + cks) =? 0) then PRaise OSError else
  sendall [ACK];;
  mret (hdr, payload).

(** ** Rules: how each piece of a program advances a conversation *)

Lemma closing_range l : is_byte (closing l).
Proof. apply u8_range. Qed.

Lemma sum_bytes_spec l s : is_byte s -> sum_bytes l s = u8 (s + zsum l).
Proof. apply fold_u8_sum_small. Qed.

Lemma checksum_closing l : checksum l 0 = closing l.
Proof.
  unfold checksum, closing. rewrite (fold_u8_sum_small l 0) by (unfold is_byte; lia).
  rewrite u8_neg. f_equal.
Qed.

Section Rules.
Context {A : Type}.
Implicit Types (s : list act) (a : A).

Lemma say_byte b (f : unit -> prog A) s a :
  is_byte b -> holds (f tt) s a -> holds (send_byte b ≫= f) (Out b :: s) a.
Proof.
  intros Hb H. unfold send_byte. rewrite mk_bytes_ok by (constructor; auto).
  exact (holds_sendall_bind [b] f s a H).
Qed.

Lemma hear_byte t b (f : option Z -> prog A) s a :
  holds (f (Some b)) s a -> holds (recv_byte t ≫= f) (In b :: s) a.
Proof. intros H. by apply holds_recv. Qed.

Lemma hear_snios t b (f : Z -> prog A) s a :
  holds (f b) s a -> holds (snios_recv_byte t ≫= f) (In b :: s) a.
Proof. intros H. by apply holds_recv. Qed.

Lemma hear_client t b (f : Z -> prog A) s a :
  holds (f b) s a -> holds (client_recv_byte t ≫= f) (In b :: s) a.
Proof. intros H. by apply holds_recv. Qed.

Lemma hear_client_try t b (f : outcome Z -> prog A) s a :
  holds (f (Ret b)) s a -> holds (attempt (client_recv_byte t) ≫= f) (In b :: s) a.
Proof. intros H. by apply holds_recv. Qed.

Lemma hear_upstream b (f : Z -> prog A) s a :
  holds (f b) s a -> holds (recv_byte_upstream ≫= f) (In b :: s) a.
Proof. intros H. by apply holds_recv. Qed.

Lemma say_all bs (f : unit -> prog A) s a :
  holds (f tt) s a -> holds (sendall bs ≫= f) (map Out bs ++ s) a.
Proof. apply holds_sendall_bind. Qed.

Lemma hear_ack (f : bool -> prog A) s a :
  holds (f true) s a -> holds (wait_for_ack ≫= f) (In ACK :: s) a.
Proof. intros H. by apply holds_recv. Qed.
End Rules.

Lemma holds_send_summed l acc :
  all_bytes l -> is_byte acc -> holds (send_summed l acc) (map Out l) (u8 (acc + zsum l)).
Proof.
  intros Hl. revert acc. induction Hl as [|b l Hb Hl IH]; intros acc Hacc; cbn [send_summed map].
  - cbn. rewrite Z.add_0_r, u8_small by done. apply holds_ret.
  - apply say_byte; [done|]. rewrite zsum_cons.
    replace (u8 (acc + (b + zsum l))) with (u8 (u8 (acc + b) + zsum l))
      by (rewrite u8_add_l; f_equal; lia).
    apply IH, u8_range.
Qed.

Lemma holds_send_each l : all_bytes l -> holds (send_each l) (map Out l) tt.
Proof. induction 1; cbn; [apply holds_ret|]. by apply say_byte. Qed.

Lemma holds_recv_bytes l t : holds (recv_bytes (length l) t) (map In l) (Some l).
Proof.
  induction l as [|b l IH]; cbn [recv_bytes length map]; [apply holds_ret|].
  apply hear_byte. rewrite <- (app_nil_r (map In l)).
  eapply holds_bind; [exact IH | apply holds_ret].
Qed.

Section ByteReaders.
Context (rb : prog Z).
Context (hear : forall A (f : Z -> prog A) b s a, holds (f b) s a -> holds (rb ≫= f) (In b :: s) a).

Lemma holds_recv_list l : holds (recv_list rb (length l)) (map In l) l.
Proof.
  induction l as [|b l IH]; cbn [recv_list length map]; [apply holds_ret|].
  apply hear. rewrite <- (app_nil_r (map In l)).
  eapply holds_bind; [exact IH | apply holds_ret].
Qed.

Lemma holds_recv_summed l acc :
  is_byte acc -> holds (recv_summed rb (length l) acc) (map In l) (l, u8 (acc + zsum l)).
Proof.
  revert acc. induction l as [|b l IH]; intros acc Hacc; cbn [recv_summed length map].
  - cbn. rewrite Z.add_0_r, u8_small by done. apply holds_ret.
  - apply hear. rewrite <- (app_nil_r (map In l)).
    eapply holds_bind; [apply IH, u8_range|]. cbn [fst snd].
    rewrite u8_add_l, zsum_cons, Z.add_assoc. apply holds_ret.
Qed.
End ByteReaders.

(** ** The scripts, one action at a time *)

Definition hcs_of (hdr : bytes) : Z := closing (SOH :: hdr).
Definition cks_of (payload : bytes) : Z := closing (STX :: payload ++ [ETX]).

Lemma sender_script_eq hdr payload :
  sender_script hdr payload =
  Out ENQ :: In ACK :: Out SOH :: map Out hdr ++ Out (hcs_of hdr) :: In ACK ::
  Out STX :: map Out payload ++ [Out ETX; Out (cks_of payload); Out EOT; In ACK].
Proof.
  unfold sender_script, header_block, data_block. cbn [map app].
  rewrite !map_app, <- !app_assoc. reflexivity.
Qed.

Lemma receiver_script_eq hdr payload :
  receiver_script hdr payload =
  In ENQ :: Out ACK :: In SOH :: map In hdr ++ In (hcs_of hdr) :: Out ACK ::
  In STX :: map In payload ++ [In ETX; In (cks_of payload); In EOT; Out ACK].
Proof.
  unfold receiver_script. rewrite sender_script_eq. unfold dual. cbn [map dual_act].
  rewrite map_app. cbn [map dual_act]. rewrite map_app. cbn [map dual_act].
  rewrite !map_map. reflexivity.
Qed.

Lemma hcs_of_eq hdr : hcs_of hdr = u8 (- (SOH + zsum hdr)).
Proof. reflexivity. Qed.

Lemma cks_of_eq payload : cks_of payload = u8 (- (STX + zsum payload + ETX)).
Proof. unfold cks_of, closing. rewrite zsum_cons, zsum_app. f_equal. cbn. lia. Qed.

Lemma wf_frame_siz hdr payload :
  wf_frame hdr payload -> index hdr 4 = Ret (zlength payload - 1).
Proof. intros (_ & _ & _ & H). by apply index_in. Qed.

(** The sums a receiver accumulates over an honest block vanish. *)
Lemma hcs_vanishes hdr : u8 (u8 (SOH + zsum hdr) + hcs_of hdr) = 0.
Proof. rewrite hcs_of_eq, u8_add_l. apply u8_add_neg. Qed.

Lemma cks_vanishes payload :
  u8 (u8 (u8 (STX + zsum payload) + ETX) + cks_of payload) = 0.
Proof. 
  rewrite cks_of_eq, u8_add_l, <- (Z.add_assoc (u8 _)), u8_add_l, Z.add_assoc.
  apply u8_add_neg.
Qed.

(** One step of a conversation on a straight-line piece of code. *)
Ltac talk1 :=
  match goal with
  | |- holds (send_byte _ ≫= _) (Out _ :: _) _ =>
      apply say_byte; [first [apply u8_range | apply is_byteb_spec; reflexivity | auto] |]
  | |- holds (recv_byte _ ≫= _) (In _ :: _) _ => apply hear_byte
  | |- holds (snios_recv_byte _ ≫= _) (In _ :: _) _ => apply hear_snios
  | |- holds (client_recv_byte _ ≫= _) (In _ :: _) _ => apply hear_client
  | |- holds (attempt (client_recv_byte _) ≫= _) (In _ :: _) _ => apply hear_client_try
  | |- holds (recv_byte_upstream ≫= _) (In _ :: _) _ => apply hear_upstream
  | |- holds (wait_for_ack ≫= _) (In ACK :: _) _ => apply hear_ack
  | |- holds (sendall [?b] ≫= _) (Out ?b :: _) _ => apply (say_all [b])
  | |- holds (if negb (is_ctl (Some ?c) ?c) then _ else _) _ _ =>
      change (is_ctl (Some c) c) with true; cbn [negb]
  | |- holds (if negb (Z.land ?c 127 =? ?c) then _ else _) _ _ =>
      change (Z.land c 127 =? c) with true; cbn [negb]
  | |- holds (if negb (?c =? ?c) then _ else _) _ _ => rewrite (Z.eqb_refl c); cbn [negb]
  | |- holds (if negb true then _ else _) _ _ => cbn [negb]
  | |- holds (PRet _) [] _ => apply holds_ret
  | |- holds (mret _) [] _ => apply holds_ret
  | |- holds (PRet _ ≫= _) _ _ => cbn [mbind prog_bind]
  | |- holds (of_outcome (Ret _) ≫= _) _ _ => cbn [of_outcome mbind prog_bind]
  end.
Ltac talk := repeat (talk1; cbv beta zeta; cbn [default from_option id fst snd]).

Lemma cks_of_sent payload : u8 (- u8 (u8 (STX + zsum payload) + ETX)) = cks_of payload.
Proof. by rewrite cks_of_eq, u8_neg, <- u8_neg, u8_add_l, u8_neg. Qed.

Lemma zsum_header_block hdr : closing ([SOH] ++ hdr) = hcs_of hdr.
Proof. reflexivity. Qed.

Ltac byte_const := apply is_byteb_spec; reflexivity.

(** *** Senders *)

#[export] Instance send_frame_sender :
  FrameSender (fun x : bytes * bytes => send_frame x.1 x.2) fst snd true.
Proof.
  intros [hdr payload] (Hh & Hp & Hl & _). cbn [fst snd] in *. rewrite sender_script_eq.
  unfold send_frame. rewrite take_ge by lia. talk.
  eapply holds_bind; [apply holds_send_summed; [done | byte_const]|]. cbv beta.
  rewrite u8_neg, <- hcs_of_eq. talk.
  eapply holds_bind; [apply holds_send_summed; [done | byte_const]|]. cbv beta.
  talk. rewrite cks_of_sent. talk.
Qed.

(** [snios_send_rcvmsg] is given the request it answers; its frame has the
    reply header. *)
Definition rcvmsg_header (reply_to data : bytes) (fnc : option Z) : bytes :=
  [1; default 0 (reply_to !! 2%nat); 0;
   default (default 0 (reply_to !! 3%nat)) fnc; zlength data - 1].

#[export] Instance snios_send_rcvmsg_sender :
  FrameSender (fun x : { x : bytes * bytes | (4 <= length x.1)%nat } =>
                 snios_send_rcvmsg (`x).1 (`x).2 None)
    (fun x => rcvmsg_header (`x).1 (`x).2 None) (fun x => (`x).2) tt.
Proof.
  intros [[reply_to data] Hr] (Hh & Hp & Hl & Hz). cbn [proj1_sig fst snd] in *.
  rewrite sender_script_eq. unfold snios_send_rcvmsg.
  destruct (lookup_lt_is_Some_2 reply_to 3) as [r3 E3]; [lia|].
  destruct (lookup_lt_is_Some_2 reply_to 2) as [r2 E2]; [lia|].
  rewrite (index_in _ _ _ E3), (index_in _ _ _ E2).
  unfold rcvmsg_header in *. rewrite E2, E3 in *. cbn [default from_option id] in *. talk.
  assert (Hmax : Z.max (zlength data) 1 - 1 = zlength data - 1).
  { destruct data; [|unfold zlength; cbn; lia].
    repeat (apply Forall_cons in Hh as [? Hh]). unfold is_byte, zlength in *. cbn in *. lia. }
  rewrite Hmax, mk_bytes_ok by done. talk.
  set (header := [1; r2; 0; r3; zlength data - 1]) in *.
  replace (u8 (- u8 (SOH + zsum header))) with (hcs_of header) by by rewrite u8_neg.
  replace (u8 (- u8 (STX + zsum data + ETX))) with (cks_of data)
    by by rewrite u8_neg, cks_of_eq.
  change (Out SOH :: map Out header ++ Out (hcs_of header) :: In ACK :: Out STX :: map Out data
    ++ [Out ETX; Out (cks_of data); Out EOT; In ACK])
    with (map Out ([SOH] ++ header ++ [hcs_of header]) ++ In ACK :: Out STX :: map Out data
    ++ [Out ETX; Out (cks_of data); Out EOT; In ACK]).
  apply say_all. talk.
  replace (Out STX :: map Out data ++ [Out ETX; Out (cks_of data); Out EOT; In ACK])
    with (map Out ([STX] ++ data ++ [ETX; cks_of data; EOT]) ++ [In ACK]).
  - apply say_all. talk.
  - rewrite !map_app. cbn [map app]. by rewrite <- app_assoc.
Qed.

#[export] Instance upstream_send_sender :
  FrameSender (fun x : bytes * bytes => upstream_send x.1 x.2) fst snd tt.
Proof.
  intros [hdr payload] (Hh & Hp & Hl & _). cbn [fst snd] in *. rewrite sender_script_eq.
  unfold upstream_send. talk. rewrite <- hcs_of_eq, <- cks_of_eq.
  replace (Out SOH :: map Out hdr ++ Out (hcs_of hdr) :: In ACK :: Out STX :: map Out payload
    ++ [Out ETX; Out (cks_of payload); Out EOT; In ACK])
    with (map Out ([SOH] ++ hdr ++ [hcs_of hdr]) ++ In ACK ::
          map Out ([STX] ++ payload ++ [ETX; cks_of payload; EOT]) ++ [In ACK]).
  - apply say_all. talk. apply say_all. talk.
  - rewrite !map_app. cbn [map app]. by rewrite <- !app_assoc.
Qed.

#[export] Instance send_message_sender :
  FrameSender (fun x : (Z * Z * Z * Z * Z) * bytes =>
                 let '(fmt, did, sid, fnc, siz) := x.1 in send_message fmt did sid fnc siz x.2)
    (fun x => let '(fmt, did, sid, fnc, siz) := x.1 in [fmt; did; sid; fnc; siz]) snd true.
Proof.
  intros [[[[[fmt did] sid] fnc] siz] data] (Hh & Hp & Hl & _). cbn [fst snd] in *.
  rewrite sender_script_eq. unfold send_message. rewrite mk_bytes_ok by done.
  set (header := [fmt; did; sid; fnc; siz]) in *. talk.
  change (Out SOH :: map Out header ++ Out (hcs_of header) :: In ACK :: Out STX :: map Out data
    ++ [Out ETX; Out (cks_of data); Out EOT; In ACK])
    with (map Out ([SOH] ++ header) ++ Out (hcs_of header) :: In ACK :: Out STX :: map Out data
    ++ [Out ETX; Out (cks_of data); Out EOT; In ACK]).
  eapply holds_bind; [apply holds_send_each; constructor; [byte_const | done]|]. cbv beta.
  rewrite !checksum_closing. talk.
  replace (Out STX :: map Out data ++ [Out ETX; Out (cks_of data); Out EOT; In ACK])
    with (map Out ([STX] ++ data ++ [ETX]) ++ [Out (cks_of data); Out EOT; In ACK]).
  - eapply holds_bind.
    + apply holds_send_each. constructor; [byte_const|].
      apply Forall_app; split; [done|]. constructor; [byte_const | constructor].
    + talk.
  - rewrite !map_app. cbn [map app]. by rewrite <- app_assoc.
Qed.

(** *** Receivers *)

(** The wait for ENQ skips line noise. *)
Lemma holds_wait_enq noise fuel :
  (length noise <= fuel)%nat -> Forall (fun b => b <> ENQ) noise ->
  holds (wait_enq (S fuel)) (map In noise ++ [In ENQ]) true.
Proof.
  revert fuel. induction noise as [|b noise IH]; intros fuel Hf Hn.
  - apply (hear_byte None). apply holds_ret.
  - destruct fuel as [|fuel]; [cbn in Hf; lia|]. apply Forall_cons in Hn as [Hb Hn].
    apply (hear_byte None). cbv iota beta. apply Z.eqb_neq in Hb. rewrite Hb.
    apply IH; [cbn in Hf; lia | done].
Qed.

Lemma hear_wait_enq {A} fuel (f : bool -> prog A) s a :
  holds (f true) s a -> holds (wait_enq (S fuel) ≫= f) (In ENQ :: s) a.
Proof.
  intros H. apply (holds_bind _ _ [In ENQ] s true); [|done].
  apply (holds_wait_enq []); [cbn; lia | constructor].
Qed.

Lemma holds_upstream_wait_enq noise fuel :
  (length noise <= fuel)%nat -> Forall (fun b => Z.land b 127 <> ENQ) noise ->
  holds (upstream_wait_enq (S fuel)) (map In noise ++ [In ENQ]) tt.
Proof.
  revert fuel. induction noise as [|b noise IH]; intros fuel Hf Hn.
  - apply hear_upstream. apply holds_ret.
  - destruct fuel as [|fuel]; [cbn in Hf; lia|]. apply Forall_cons in Hn as [Hb Hn].
    apply hear_upstream. apply Z.eqb_neq in Hb. rewrite Hb. apply IH; [cbn in Hf; lia | done].
Qed.

Lemma hear_upstream_wait_enq {A} fuel (f : unit -> prog A) s a :
  holds (f tt) s a -> holds (upstream_wait_enq (S fuel) ≫= f) (In ENQ :: s) a.
Proof.
  intros H. apply (holds_bind _ _ [In ENQ] s tt); [|done].
  apply (holds_upstream_wait_enq []); [cbn; lia | constructor].
Qed.

Lemma payload_count (payload : bytes) : Z.to_nat (zlength payload - 1 + 1) = length payload.
Proof. unfold zlength. lia. Qed.

#[export] Instance recv_frame_receiver fuel :
  FrameReceiver (recv_frame (S fuel)) (fun hdr payload => Some (hdr, payload)).
Proof.
  intros hdr payload Hwf. pose proof Hwf as (_ & _ & Hl & _). rewrite receiver_script_eq.
  unfold recv_frame. apply hear_wait_enq. talk.
  change (Z.land SOH 127) with SOH. rewrite <- Hl.
  eapply holds_bind; [apply holds_recv_bytes|]. cbv beta iota. talk.
  rewrite sum_bytes_spec, hcs_vanishes by byte_const. talk.
  rewrite (wf_frame_siz _ _ Hwf). talk. rewrite payload_count.
  eapply holds_bind; [apply holds_recv_bytes|]. cbv beta iota. talk.
  change (Z.land STX 127) with STX. change (Z.land ETX 127) with ETX.
  rewrite sum_bytes_spec, cks_vanishes by byte_const. talk.
Qed.

#[export] Instance snios_recv_sndmsg_receiver idle byte_timeout :
  FrameReceiver (snios_recv_sndmsg idle byte_timeout) (fun hdr payload => (hdr, payload)).
Proof.
  intros hdr payload Hwf. pose proof Hwf as (_ & _ & Hl & _). rewrite receiver_script_eq.
  unfold snios_recv_sndmsg. talk. rewrite <- Hl.
  eapply holds_bind; [apply holds_recv_list; intros; by apply hear_snios|]. cbv beta. talk.
  rewrite (wf_frame_siz _ _ Hwf). talk. rewrite payload_count.
  eapply holds_bind; [apply holds_recv_list; intros; by apply hear_snios|]. cbv beta. talk.
Qed.

#[export] Instance recv_message_receiver :
  FrameReceiver recv_message (fun hdr payload => Some (hdr, payload)).
Proof.
  intros hdr payload Hwf. pose proof Hwf as (_ & _ & Hl & _). rewrite receiver_script_eq.
  unfold recv_message. talk. rewrite <- Hl.
  eapply holds_bind; [apply holds_recv_summed; [intros; by apply hear_client | byte_const]|].
  cbv beta zeta. cbn [fst snd]. talk. rewrite hcs_vanishes. talk.
  rewrite (wf_frame_siz _ _ Hwf). talk. rewrite payload_count.
  eapply holds_bind; [apply holds_recv_summed; [intros; by apply hear_client | byte_const]|].
  cbv beta zeta. cbn [fst snd]. talk. rewrite cks_vanishes. talk.
Qed.

#[export] Instance upstream_recv_receiver fuel :
  FrameReceiver (upstream_recv (S fuel)) (fun hdr payload => (hdr, payload)).
Proof.
  intros hdr payload Hwf. pose proof Hwf as (_ & _ & Hl & _). rewrite receiver_script_eq.
  unfold upstream_recv. apply hear_upstream_wait_enq. talk.
  rewrite <- Hl. eapply holds_bind; [apply holds_recv_list; intros; by apply hear_upstream|]. cbv beta. talk.
  rewrite <- (u8_add_l (SOH + zsum hdr)), hcs_vanishes. talk.
  rewrite (wf_frame_siz _ _ Hwf). talk. rewrite payload_count.
  eapply holds_bind; [apply holds_recv_list; intros; by apply hear_upstream|]. cbv beta. talk.
  replace (u8 (STX + zsum payload + ETX + cks_of payload)) with 0
    by by rewrite cks_of_eq, u8_add_neg.
  talk.
Qed.

(** ** What an accepted frame guarantees *)

Lemma feed_send_byte_inv b l o l2 :
  feed (send_byte b) l = (o, Some (Ret tt, l2)) -> o = [b] /\ l2 = l.
Proof.
  unfold send_byte. intros H. apply feed_bind_inv in H as (bs & l1 & o1 & o2 & H1 & H2 & ->).
  apply feed_of_outcome_inv in H1 as (Hb & -> & ->).
  apply feed_sendall_inv in H2 as [-> ->]. unfold mk_bytes in Hb.
  destruct (forallb _ _); [|done]. by injection Hb as <-.
Qed.

Lemma feed_recv_byte_inv t l o r l2 :
  feed (recv_byte t) l = (o, Some (Ret r, l2)) ->
  o = [] /\ exists e, l = e :: l2 /\
    (forall b, r = Some b -> e = RxByte b).
Proof.
  destruct l as [|[b| |] l]; cbn; try done; intros [= <- <- <-];
    (split; [done|]); eexists; (split; [reflexivity|]); congruence.
Qed.

Lemma feed_recv_bytes_inv n t l o bs l2 :
  feed (recv_bytes n t) l = (o, Some (Ret (Some bs), l2)) ->
  o = [] /\ l = map RxByte bs ++ l2 /\ length bs = n.
Proof.
  revert l o bs l2. induction n as [|n IH]; intros l o bs l2 H; cbn [recv_bytes] in H.
  - injection H as <- <- <-. done.
  - apply feed_bind_inv in H as (r & l1 & o1 & o2 & H1 & H2 & ->).
    apply feed_recv_byte_inv in H1 as (-> & e & -> & He).
    destruct r as [b|]; [|done]. rewrite (He b eq_refl).
    apply feed_bind_inv in H2 as ([bs'|] & l3 & o3 & o4 & H2 & H3 & ->); [|done].
    apply IH in H2 as (-> & -> & <-). injection H3 as <- <- <-. done.
Qed.

Lemma feed_wait_enq_inv fuel l o l2 :
  feed (wait_enq fuel) l = (o, Some (Ret true, l2)) ->
  o = [] /\ exists noise, l = map RxByte (noise ++ [ENQ]) ++ l2.
Proof.
  revert l o. induction fuel as [|fuel IH]; intros l o H; cbn [wait_enq] in H; [done|].
  apply feed_bind_inv in H as (r & l1 & o1 & o2 & H1 & H2 & ->).
  apply feed_recv_byte_inv in H1 as (-> & e & -> & He).
  destruct r as [b|]; [|done]. rewrite (He b eq_refl).
  destruct (Z.eqb_spec b ENQ) as [->|_].
  - injection H2 as <- <-. split; [done|]. by exists [].
  - apply IH in H2 as (-> & noise & ->). split; [done|]. by exists (b :: noise).
Qed.

Lemma is_ctl_inv r c : is_ctl r c = true -> exists b, r = Some b /\ Z.land b 127 = c.
Proof. destruct r as [b|]; cbn; [|done]. intros ?%Z.eqb_eq. eauto. Qed.

(** Peel one bind, or one test that must have succeeded, off a returned run. *)
Ltac unfeed1 :=
  match goal with
  | H : feed (mret _) _ = _ |- _ => injection H; clear H; intros; subst
  | H : feed (PRet _) _ = _ |- _ => injection H; clear H; intros; subst
  | H : feed (PRaise _) _ = _ |- _ => discriminate H
  | H : feed (send_byte _) _ = (_, Some (Ret ?u, _)) |- _ =>
      destruct u; apply feed_send_byte_inv in H as [? ?]; subst
  | H : feed (of_outcome _) _ = (_, Some (Ret _, _)) |- _ =>
      apply feed_of_outcome_inv in H as (? & ? & ?); subst
  | H : feed (recv_byte _) _ = (_, Some (Ret _, _)) |- _ =>
      apply feed_recv_byte_inv in H as (? & ? & ? & ?); subst
  | H : feed (recv_bytes _ _) _ = (_, Some (Ret (Some _), _)) |- _ =>
      apply feed_recv_bytes_inv in H as (? & ? & ?); subst
  | H : feed (?m ≫= _) _ = (_, Some (Ret _, _)) |- _ =>
      apply feed_bind_inv in H as (? & ? & ? & ? & ? & H & ?); cbv beta zeta in H; subst
  | H : feed (if negb (is_ctl ?r ?c) then _ else _) _ = _ |- _ =>
      let E := fresh "Ectl" in
      destruct (is_ctl r c) eqn:E; cbn [negb] in H;
      [apply is_ctl_inv in E as (? & ? & ?); subst|]
  | H : feed (if negb (?x =? 0) then _ else _) _ = _ |- _ =>
      let E := fresh "Esum" in
      destruct (Z.eqb_spec x 0) as [E|E]; cbn [negb] in H
  | H : feed (match ?r with Some _ => _ | None => _ end) _ = _ |- _ => destruct r
  | H : forall b, Some ?c = Some b -> _ |- _ => specialize (H c eq_refl); subst
  | H : None = Some _ |- _ => discriminate H
  | H : Some _ = Some _ |- _ => injection H; clear H; intros; subst
  end.
Ltac unfeed := repeat unfeed1.

(** What was accepted is exactly a frame on the wire, control bytes up to their
    top bit, with both sums zero. *)
Definition framed (l : list rx) (hdr payload : bytes) (rest : list rx) : Prop :=
  exists noise soh hcs stx etx cks eot siz,
    l = map RxByte (noise ++ [ENQ; soh] ++ hdr ++ [hcs; stx] ++ payload ++ [etx; cks; eot]) ++ rest
    /\ length hdr = 5%nat /\ hdr !! 4%nat = Some siz /\ length payload = Z.to_nat (siz + 1)
    /\ Z.land soh 127 = SOH /\ Z.land stx 127 = STX /\ Z.land etx 127 = ETX /\ Z.land eot 127 = EOT
    /\ u8 (SOH + zsum hdr + hcs) = 0 /\ u8 (STX + zsum payload + ETX + cks) = 0.

Lemma framed_intro noise soh hdr hcs stx payload etx cks eot siz rest :
  length hdr = 5%nat -> index hdr 4 = Ret siz -> length payload = Z.to_nat (siz + 1) ->
  Z.land soh 127 = SOH -> Z.land stx 127 = STX -> Z.land etx 127 = ETX -> Z.land eot 127 = EOT ->
  u8 (sum_bytes hdr SOH + hcs) = 0 ->
  u8 (u8 (sum_bytes payload STX + ETX) + cks) = 0 ->
  framed (map RxByte (noise ++ [ENQ]) ++ RxByte soh :: map RxByte hdr ++ RxByte hcs ::
          RxByte stx :: map RxByte payload ++ RxByte etx :: RxByte cks :: RxByte eot :: rest)
    hdr payload rest.
Proof.
  intros Hl Hi Hp H1 H2 H3 H4 Hh Hd. exists noise, soh, hcs, stx, etx, cks, eot, siz.
  rewrite sum_bytes_spec, u8_add_l in Hh by byte_const.
  rewrite sum_bytes_spec, u8_add_l, <- Z.add_assoc, u8_add_l, Z.add_assoc in Hd by byte_const.
  apply index_ok in Hi. repeat (split; [done || idtac|]); [|done..].
  rewrite !map_app, <- !app_assoc. reflexivity.
Qed.

Lemma recv_frame_framed fuel l o hdr payload rest :
  feed (recv_frame fuel) l = (o, Some (Ret (Some (hdr, payload)), rest)) ->
  o = [ACK; ACK; ACK] /\ framed l hdr payload rest.
Proof.
  unfold recv_frame. intros H. apply feed_bind_inv in H as (got & ? & ? & ? & Hw & H & ->).
  destruct got; cbn [negb] in H; [|unfeed; done].
  apply feed_wait_enq_inv in Hw as (-> & noise & ->).
  unfeed. all: try done. cbn [default from_option id] in *.
  split; [done|]. eapply framed_intro; try eassumption.
  - match goal with E : Z.land _ 127 = SOH, E' : u8 (sum_bytes hdr _ + _) = 0 |- _ =>
      rewrite E in E'; exact E' end.
  - match goal with E : Z.land _ 127 = STX, E1 : Z.land _ 127 = ETX, E' : u8 (u8 _ + _) = 0 |- _ =>
      rewrite E, E1 in E'; exact E' end.
Qed.

(** ** A damaged byte is answered with NAK *)

(** The checked part of a header: five bytes and the sum. *)
Definition checked_header (hdr : bytes) : bytes := hdr ++ [hcs_of hdr].

Lemma checked_header_sum hdr : u8 (SOH + zsum (checked_header hdr)) = 0.
Proof.
  unfold checked_header. rewrite zsum_app. cbn [zsum foldr].
  rewrite Z.add_0_r, Z.add_assoc, hcs_of_eq. apply u8_add_neg.
Qed.

Lemma checked_header_all hdr : all_bytes hdr -> all_bytes (checked_header hdr).
Proof. intros. apply Forall_app. split; [done|]. constructor; [apply u8_range | constructor]. Qed.

Lemma damaged_sum s l i x y :
  all_bytes l -> l !! i = Some x -> is_byte y -> x <> y ->
  u8 (s + zsum l) = 0 -> u8 (s + zsum (<[i := y]> l)) <> 0.
Proof.
  intros Hl Hx Hy Hne H0. rewrite (zsum_insert _ _ x) by done.
  replace (s + (zsum l - x + y)) with (s + zsum l - x + y) by lia.
  apply (u8_sum_changed _ x y); [by eapply all_bytes_lookup | done..|].
  replace (s + zsum l - x + x) with (s + zsum l) by lia. done.
Qed.

(** A header block whose sum does not vanish is refused. *)
Lemma recv_frame_bad_header fuel h hcs :
  length h = 5%nat -> u8 (SOH + zsum h + hcs) <> 0 ->
  holds (recv_frame (S fuel))
    ([In ENQ; Out ACK; In SOH] ++ map In (h ++ [hcs]) ++ [Out NAK]) None.
Proof.
  intros Hl Hs. unfold recv_frame. rewrite map_app, <- app_assoc. cbn [app map].
  apply hear_wait_enq. talk. change (Z.land SOH 127) with SOH. rewrite <- Hl.
  eapply holds_bind; [apply holds_recv_bytes|]. cbv beta iota. talk.
  rewrite sum_bytes_spec, u8_add_l by byte_const. apply Z.eqb_neq in Hs. rewrite Hs.
  cbn [negb]. talk.
Qed.

Lemma recv_frame_bad_data fuel hdr payload p cks :
  wf_frame hdr payload -> length p = length payload ->
  u8 (STX + zsum p + ETX + cks) <> 0 ->
  holds (recv_frame (S fuel))
    ([In ENQ; Out ACK; In SOH] ++ map In (checked_header hdr) ++ [Out ACK; In STX]
     ++ map In (p ++ [ETX; cks; EOT]) ++ [Out NAK]) None.
Proof.
  intros Hwf Hlp Hs. pose proof Hwf as (_ & _ & Hl & _).
  unfold recv_frame, checked_header. rewrite !map_app, <- !app_assoc. cbn [app map].
  apply hear_wait_enq. talk. change (Z.land SOH 127) with SOH. rewrite <- Hl.
  eapply holds_bind; [apply holds_recv_bytes|]. cbv beta iota. talk.
  rewrite sum_bytes_spec, hcs_vanishes by byte_const. talk.
  rewrite (wf_frame_siz _ _ Hwf). talk. rewrite payload_count, <- Hlp.
  eapply holds_bind; [apply holds_recv_bytes|]. cbv beta iota. talk.
  change (Z.land STX 127) with STX. change (Z.land ETX 127) with ETX.
  rewrite sum_bytes_spec, u8_add_l, <- Z.add_assoc, u8_add_l, Z.add_assoc by byte_const.
  apply Z.eqb_neq in Hs. rewrite Hs. cbn [negb]. talk.
Qed.

(** ** Payloads that fit one frame *)

Definition fits (resp : bytes) : Prop := all_bytes resp /\ (1 <= length resp <= 256)%nat.

(** Short constant answers. *)
Lemma fits_list (l : bytes) : forallb is_byteb l = true -> (1 <= length l <= 256)%nat -> fits l.
Proof.
  intros H Hl. split; [|done]. apply List.Forall_forall. intros x Hx.
  apply is_byteb_spec. by apply (proj1 (forallb_forall _ _) H).
Qed.

Ltac fits_const := apply fits_list; [reflexivity | cbn; lia].

Lemma fits_zlength resp : fits resp -> u8 (zlength resp - 1) = zlength resp - 1.
Proof. intros [_ H]. apply u8_small. unfold is_byte, zlength. lia. Qed.

Lemma frame_intro a b c d payload :
  is_byte a -> is_byte b -> is_byte c -> is_byte d -> fits payload ->
  wf_frame [a; b; c; d; zlength payload - 1] payload.
Proof.
  intros Ha Hb Hc Hd [Hp Hl]. split_and!; [|done|done|done].
  repeat (apply Forall_cons_2; [done|]). apply Forall_singleton. unfold is_byte, zlength. lia.
Qed.

Lemma holds_attempt {A} (m : prog A) s a : holds m s a -> holds (attempt m) s (Ret a).
Proof.
  intros [n H]. exists n. remember (PRet a) as m' eqn:E. revert E.
  induction H; intros ->; cbn; [constructor|constructor; auto..].
Qed.

(** ** Properties *)

(** Requests.  Whatever the interleaving of the two programs' socket calls,
    the test client and the PIO bridge's upstream half deliver their frame to
    the CP/NET server and to the netboot server: both ends return, the receiver
    with exactly the header and payload sent, and no run can end elsewhere. *)
Lemma requests_are_delivered fuel fmt did sid fnc siz payload :
  wf_frame [fmt; did; sid; fnc; siz] payload ->
  let hdr := [fmt; did; sid; fnc; siz] in
  always_finishes (send_message fmt did sid fnc siz payload) (recv_frame (S fuel))
    true (Some (hdr, payload)) /\
  always_finishes (send_message fmt did sid fnc siz payload) (snios_recv_sndmsg 30 5)
    true (hdr, payload) /\
  always_finishes (upstream_send hdr payload) (recv_frame (S fuel)) tt (Some (hdr, payload)) /\
  always_finishes (upstream_send hdr payload) (snios_recv_sndmsg 30 5) tt (hdr, payload).
Proof.
  intros Hwf hdr. repeat split.
  - exact (frame_delivery _ _ _ _ _ _ ((fmt, did, sid, fnc, siz), payload) Hwf).
  - exact (frame_delivery _ _ _ _ _ _ ((fmt, did, sid, fnc, siz), payload) Hwf).
  - exact (frame_delivery _ _ _ _ _ _ (hdr, payload) Hwf).
  - exact (frame_delivery _ _ _ _ _ _ (hdr, payload) Hwf).
Qed.

(** Replies.  Whatever the interleaving, the CP/NET server's [send_frame]
    and the netboot server's [snios_send_rcvmsg] (whose header answers the
    request [reply_to]) deliver their frame to the test client and to the PIO
    bridge's upstream half, and no run can end elsewhere. *)
Lemma replies_are_delivered fuel hdr reply_to payload :
  wf_frame hdr payload -> (4 <= length reply_to)%nat ->
  wf_frame (rcvmsg_header reply_to payload None) payload ->
  always_finishes (send_frame hdr payload) recv_message true (Some (hdr, payload)) /\
  always_finishes (send_frame hdr payload) (upstream_recv (S fuel)) true (hdr, payload) /\
  always_finishes (snios_send_rcvmsg reply_to payload None) recv_message
    tt (Some (rcvmsg_header reply_to payload None, payload)) /\
  always_finishes (snios_send_rcvmsg reply_to payload None) (upstream_recv (S fuel))
    tt (rcvmsg_header reply_to payload None, payload).
Proof.
  intros Hwf Hr Hwf'. repeat split.
  - exact (frame_delivery _ _ _ _ _ _ (hdr, payload) Hwf).
  - exact (frame_delivery _ _ _ _ _ _ (hdr, payload) Hwf).
  - exact (frame_delivery _ _ _ _ _ _ (exist _ (reply_to, payload) Hr) Hwf').
  - exact (frame_delivery _ _ _ _ _ _ (exist _ (reply_to, payload) Hr) Hwf').
Qed.

(** C1: frames.  Whatever the interleaving of the two programs' socket
    calls, every sender of the repository delivers its frame to every receiver it
    is used with, and no run can end elsewhere: requests go from the test client
    and from the PIO bridge's upstream half to the CP/NET server and to the netboot
    server, replies from the CP/NET server's [send_frame] and the netboot server's
    [snios_send_rcvmsg] (whose header answers the request [reply_to]) to the test
    client and to the bridge.  Both ends return, the receiver with exactly the
    header and payload sent. *)
Theorem frames_are_delivered :
  (forall fuel fmt did sid fnc siz payload,
  wf_frame [fmt; did; sid; fnc; siz] payload ->
  let hdr := [fmt; did; sid; fnc; siz] in
  always_finishes (send_message fmt did sid fnc siz payload) (recv_frame (S fuel))
    true (Some (hdr, payload)) /\
  always_finishes (send_message fmt did sid fnc siz payload) (snios_recv_sndmsg 30 5)
    true (hdr, payload) /\
  always_finishes (upstream_send hdr payload) (recv_frame (S fuel)) tt (Some (hdr, payload)) /\
  always_finishes (upstream_send hdr payload) (snios_recv_sndmsg 30 5) tt (hdr, payload)) /\
  (forall fuel hdr reply_to payload,
  wf_frame hdr payload -> (4 <= length reply_to)%nat ->
  wf_frame (rcvmsg_header reply_to payload None) payload ->
  always_finishes (send_frame hdr payload) recv_message true (Some (hdr, payload)) /\
  always_finishes (send_frame hdr payload) (upstream_recv (S fuel)) true (hdr, payload) /\
  always_finishes (snios_send_rcvmsg reply_to payload None) recv_message
    tt (Some (rcvmsg_header reply_to payload None, payload)) /\
  always_finishes (snios_send_rcvmsg reply_to payload None) (upstream_recv (S fuel))
    tt (rcvmsg_header reply_to payload None, payload)).
Proof. split; [exact requests_are_delivered|exact replies_are_delivered]. Qed.

Lemma frames_are_delivered_witness :
  (wf_frame [0; 0; 1; 64; 1] [80; 87] /\
  always_finishes (send_message 0 0 1 64 1 [80; 87]) (recv_frame 1)
    true (Some ([0; 0; 1; 64; 1], [80; 87]))) /\
  (always_finishes (send_frame [1; 1; 0; 15; 1] [0; 255]) recv_message
    true (Some ([1; 1; 0; 15; 1], [0; 255]))).
Proof.
  split.
  { assert (H : wf_frame [0; 0; 1; 64; 1] [80; 87]).
  { repeat split; repeat constructor; done. }
  split; [exact H|]. exact (proj1 ((proj1 frames_are_delivered) 0%nat 0 0 1 64 1 [80; 87] H)). }
  { refine (proj1 ((proj2 frames_are_delivered) 0%nat [1; 1; 0; 15; 1] [0; 0; 1; 15; 0] [0; 255] _ _ _)).
  - repeat split; repeat constructor; done.
  - cbn. lia.
  - repeat split; repeat constructor; done. }
Defined.

(** The CP/NET server accepts nothing but frames.  For every sequence of
    bytes, timeouts and disconnects, if [recv_frame] returns a header and a
    payload then what it consumed was line noise, ENQ and one complete frame
    carrying them (five header bytes, SIZ+1 payload bytes, the four control
    bytes up to bit 7, both sums zero), and it answered exactly three ACKs. *)
Lemma recv_frame_accepts_only_frames fuel l sent hdr payload rest :
  feed (recv_frame fuel) l = (sent, Some (Ret (Some (hdr, payload)), rest)) ->
  sent = [ACK; ACK; ACK] /\ framed l hdr payload rest.
Proof. apply recv_frame_framed. Qed.

Lemma one_damaged_byte fuel hdr payload i x y :
  wf_frame hdr payload -> is_byte y -> x <> y ->
  (checked_header hdr !! i = Some x ->
   holds (recv_frame (S fuel))
     ([In ENQ; Out ACK; In SOH] ++ map In (<[i := y]> (checked_header hdr)) ++ [Out NAK]) None) /\
  (payload !! i = Some x ->
   holds (recv_frame (S fuel))
     ([In ENQ; Out ACK; In SOH] ++ map In (checked_header hdr) ++ [Out ACK; In STX]
      ++ map In (<[i := y]> payload ++ [ETX; cks_of payload; EOT]) ++ [Out NAK]) None).
Proof.
  intros Hwf Hy Hne. pose proof Hwf as (Hh & Hp & Hl & _). split; intros Hx.
  - assert (Hd : u8 (SOH + zsum (<[i := y]> (checked_header hdr))) <> 0).
    { apply (damaged_sum _ _ _ x); auto using checked_header_all, checked_header_sum. }
    destruct (<[i := y]> (checked_header hdr)) as [|hcs h _] eqn:E using rev_ind.
    { apply (f_equal length) in E. rewrite length_insert in E. by destruct hdr. }
    apply recv_frame_bad_header.
    + apply (f_equal length) in E. rewrite length_insert in E.
      unfold checked_header in E. rewrite !length_app in E. cbn in E. lia.
    + rewrite zsum_app in Hd. cbn in Hd. by rewrite Z.add_0_r, Z.add_assoc in Hd.
  - apply (recv_frame_bad_data fuel hdr payload); [done | apply length_insert |].
    rewrite (zsum_insert _ _ x) by done. rewrite cks_of_eq, u8_add_r.
    replace (STX + (zsum payload - x + y) + ETX + - (STX + zsum payload + ETX))
      with (- x + y) by lia.
    apply (u8_sum_changed _ x y); [by eapply all_bytes_lookup | done..|].
    by replace (- x + x) with 0 by lia.
Qed.

Lemma snios_accepts_any_checksum hdr hcs siz payload etx cks eot :
  length hdr = 5%nat -> hdr !! 4%nat = Some siz -> length payload = Z.to_nat (siz + 1) ->
  holds (snios_recv_sndmsg 30 5)
    ([In ENQ; Out ACK; In SOH] ++ map In hdr ++ [In hcs; Out ACK; In STX]
     ++ map In payload ++ [In etx; In cks; In eot; Out ACK])
    (hdr, payload).
Proof.
  intros Hl Hs Hp. unfold snios_recv_sndmsg. cbn [app]. talk. rewrite <- Hl.
  eapply holds_bind; [apply holds_recv_list; intros; by apply hear_snios|]. cbv beta. cbn [app].
  talk. rewrite (index_in _ _ _ Hs). talk. rewrite <- Hp.
  eapply holds_bind; [apply holds_recv_list; intros; by apply hear_snios|]. cbv beta. talk.
Qed.

(** What becomes of damaged frames.  If any one of the five header bytes and
    their sum, or of the payload bytes, reaches the CP/NET server changed to
    another byte, it answers NAK in place of the ACK and returns no frame.  The
    netboot server does not verify its checksums: whatever bytes stand in the
    place of HCS, ETX, CKS and EOT, [snios_recv_sndmsg] acknowledges all three
    steps and returns the header and payload as received. *)
Lemma damaged_frames_are_refused hdr payload :
  (forall fuel i x y, wf_frame hdr payload -> is_byte y -> x <> y ->
    (checked_header hdr !! i = Some x ->
     holds (recv_frame (S fuel))
       ([In ENQ; Out ACK; In SOH] ++ map In (<[i := y]> (checked_header hdr)) ++ [Out NAK]) None) /\
    (payload !! i = Some x ->
     holds (recv_frame (S fuel))
       ([In ENQ; Out ACK; In SOH] ++ map In (checked_header hdr) ++ [Out ACK; In STX]
        ++ map In (<[i := y]> payload ++ [ETX; cks_of payload; EOT]) ++ [Out NAK]) None)) /\
  (forall hcs siz etx cks eot,
    length hdr = 5%nat -> hdr !! 4%nat = Some siz -> length payload = Z.to_nat (siz + 1) ->
    holds (snios_recv_sndmsg 30 5)
      ([In ENQ; Out ACK; In SOH] ++ map In hdr ++ [In hcs; Out ACK; In STX]
       ++ map In payload ++ [In etx; In cks; In eot; Out ACK])
      (hdr, payload)).
Proof. split; intros; [by apply one_damaged_byte | by apply (snios_accepts_any_checksum _ _ siz)]. Qed.

(** C2: the CP/NET server accepts nothing but frames, whole ones.  For every
    sequence of bytes, timeouts and disconnects, if [recv_frame] returns a header
    and a payload then what it consumed was line noise, ENQ and one complete frame
    carrying them (five header bytes, SIZ+1 payload bytes, the four control bytes
    up to bit 7, both sums zero), and it answered exactly three ACKs.  If any one
    of the five header bytes and their sum, or of the payload bytes, reaches it
    changed to another byte, it answers NAK in place of the ACK and returns no
    frame.  The netboot server does not verify its checksums: whatever bytes stand
    in the place of HCS, ETX, CKS and EOT, [snios_recv_sndmsg] acknowledges all
    three steps and returns the header and payload as received. *)
Theorem frames_are_checked :
  (forall fuel l sent hdr payload rest,
  feed (recv_frame fuel) l = (sent, Some (Ret (Some (hdr, payload)), rest)) ->
  sent = [ACK; ACK; ACK] /\ framed l hdr payload rest) /\
  (forall hdr payload,
  (forall fuel i x y, wf_frame hdr payload -> is_byte y -> x <> y ->
    (checked_header hdr !! i = Some x ->
     holds (recv_frame (S fuel))
       ([In ENQ; Out ACK; In SOH] ++ map In (<[i := y]> (checked_header hdr)) ++ [Out NAK]) None) /\
    (payload !! i = Some x ->
     holds (recv_frame (S fuel))
       ([In ENQ; Out ACK; In SOH] ++ map In (checked_header hdr) ++ [Out ACK; In STX]
        ++ map In (<[i := y]> payload ++ [ETX; cks_of payload; EOT]) ++ [Out NAK]) None)) /\
  (forall hcs siz etx cks eot,
    length hdr = 5%nat -> hdr !! 4%nat = Some siz -> length payload = Z.to_nat (siz + 1) ->
    holds (snios_recv_sndmsg 30 5)
      ([In ENQ; Out ACK; In SOH] ++ map In hdr ++ [In hcs; Out ACK; In STX]
       ++ map In payload ++ [In etx; In cks; In eot; Out ACK])
      (hdr, payload))).
Proof. split; [exact recv_frame_accepts_only_frames|exact damaged_frames_are_refused]. Qed.

Lemma frames_are_checked_witness :
  (exists l, framed l [0; 0; 1; 64; 0] [7] [RxTimeout]) /\
  (holds (recv_frame 1) [In 5; Out 6; In 1; In 0; In 0; In 1; In 65; In 0; In 190; Out 21] None /\
  holds (snios_recv_sndmsg 30 5)
    [In 5; Out 6; In 1; In 0; In 0; In 1; In 64; In 0; In 77; Out 6; In 2; In 7; In 0; In 0; In 0; Out 6]
    ([0; 0; 1; 64; 0], [7])).
Proof.
  split.
  { exists (map RxByte [99; 5; 1; 0; 0; 1; 64; 0; 190; 2; 7; 3; 244; 4] ++ [RxTimeout]).
  exact (proj2 ((proj1 frames_are_checked) 2%nat
    (map RxByte [99; 5; 1; 0; 0; 1; 64; 0; 190; 2; 7; 3; 244; 4] ++ [RxTimeout])
    [ACK; ACK; ACK] [0; 0; 1; 64; 0] [7] [RxTimeout] eq_refl)). }
  { pose proof ((proj2 frames_are_checked) [0; 0; 1; 64; 0] [7]) as [Hd Hs]. split.
  - refine (proj1 (Hd 0%nat 3%nat 64 65 _ _ _) eq_refl).
    + repeat split; repeat constructor; done.
    + by split.
    + done.
  - exact (Hs 77 0 0 0 0 eq_refl eq_refl eq_refl). }
Defined.
