(* ===== verification/Host.v ===== *)
(** * The host: its file system, standard input, and Python's calls on them.

    The CP/NET server keeps its drives in directories of the host.  Here a file
    system is a finite map from absolute paths (lists of names) to files and
    directories; a path string is resolved component by component as the
    operating system does it (every directory passed through must exist, [.]
    and [..] are followed, a trailing slash demands a directory).  Symbolic
    links, quotas and full disks are not modelled; [denied] is the set of paths
    the operating system refuses to open, remove or rename.

    [exists], [getsize], [open] in the modes ['rb'], ['r+b'], ['wb'] and
    ['ab'], [remove], [rename] and [listdir] are the calls of the [os] module
    the sources use, with the exceptions they raise: [OSError], and
    [ValueError] for a path with a NUL in it (which [os.path.exists] catches). *)

From S2P Require Import Prelude.

(** ** Paths *)

Definition ends_with (c : Z) (s : str) : bool :=
  match last s with Some x => x =? c | None => false end.

Definition starts_with (c : Z) (s : str) : bool :=
  match s with x :: _ => x =? c | [] => false end.

(** [os.path.join(a, b)]: an absolute [b] replaces [a]. *)
Definition path_join (a b : str) : str :=
  if starts_with 47 b then b
  else match a with
       | [] => b
       | _ => if ends_with 47 a then a ++ b else a ++ 47 :: b
       end.

(** [s.rsplit('.', 1)], as the part before and, if there is a dot, the part
    after the last one. *)
Fixpoint rsplit_dot (s : str) : str * option str :=
  match s with
  | [] => ([], None)
  | x :: t =>
      match rsplit_dot t with
      | (b, Some e) => (x :: b, Some e)
      | (b, None) => if x =? 46 then ([], Some t) else (x :: b, None)
      end
  end.

(** ** The file system *)

Inductive node : Type :=
  | NFile (content : bytes)
  | NDir (size : Z).

Abbreviation path := (list str).

Record host : Type := Host {
  fs : gmap path node;
  denied : list path;
  cwd : path;
  scan : list str -> list str;   (* the order in which a directory is listed *)
  typed : bytes;                 (* standard input: bytes already there, *)
  untyped : bytes                (* those still to come, then end of file *)
}.

Definition with_fs (h : host) (m : gmap path node) : host :=
  Host m (denied h) (cwd h) (scan h) (typed h) (untyped h).

Definition is_dir (m : gmap path node) (p : path) : bool :=
  match m !! p with Some (NDir _) => true | _ => false end.

(** Follow the components of a path; a component is looked up in a directory. *)
Fixpoint walk (m : gmap path node) (cur : path) (cs : list str) : option path :=
  match cs with
  | [] => Some cur
  | c :: cs' =>
      if is_dir m cur then
        if decide (c = []) then walk m cur cs'
        else if decide (c = chars ".") then walk m cur cs'
        else if decide (c = chars "..") then walk m (removelast cur) cs'
        else walk m (cur ++ [c]) cs'
      else None
  end.

Definition resolve (h : host) (p : str) : outcome path :=
  if decide (0 ∈ p) then Raise ValueError
  else match p with
       | [] => Raise OSError
       | _ => match walk (fs h) (if starts_with 47 p then [] else cwd h) (split_on 47 p) with
              | Some q => Ret q
              | None => Raise OSError
              end
       end.

(** The path of an existing node, for calls that refuse [denied] paths. *)
Definition locate (h : host) (p : str) : outcome path :=
  q ← resolve h p; if decide (q ∈ denied h) then Raise OSError else Ret q.

Definition exists_ (h : host) (p : str) : bool :=
  match resolve h p with
  | Ret q => match fs h !! q with Some _ => true | None => false end
  | Raise _ => false
  end.

Definition getsize (h : host) (p : str) : outcome Z :=
  q ← resolve h p;
  match fs h !! q with
  | Some (NFile c) => Ret (zlength c)
  | Some (NDir n) => Ret n
  | None => Raise OSError
  end.

(** [open(p, 'rb')]: the file's content. *)
Definition open_rb (h : host) (p : str) : outcome bytes :=
  q ← locate h p;
  match fs h !! q with Some (NFile c) => Ret c | _ => Raise OSError end.

(** [with open(p, mode) as f: ...] where the body turns the content the file
    has after opening into the one it has at the end. *)
Inductive wmode : Set := RPlusB | WB | AB.

Definition open_write (mode : wmode) (p : str) (body : bytes -> bytes) : stM host unit :=
  fun h =>
    match locate h p with
    | Raise e => (Raise e, h)
    | Ret q =>
        match mode, fs h !! q with
        | _, Some (NDir _) => (Raise OSError, h)
        | RPlusB, None => (Raise OSError, h)
        | RPlusB, Some (NFile c) | AB, Some (NFile c) =>
            (Ret tt, with_fs h (<[q := NFile (body c)]> (fs h)))
        | WB, _ | AB, None => (Ret tt, with_fs h (<[q := NFile (body [])]> (fs h)))
        end
    end.

Definition os_remove (p : str) : stM host unit :=
  fun h =>
    match locate h p with
    | Raise e => (Raise e, h)
    | Ret q =>
        match fs h !! q with
        | Some (NFile _) => (Ret tt, with_fs h (delete q (fs h)))
        | _ => (Raise OSError, h)
        end
    end.

(** Is [p] the path [d] itself, or below it? *)
Fixpoint below (d p : path) : option path :=
  match d, p with
  | [], _ => Some p
  | a :: d', b :: p' => if decide (a = b) then below d' p' else None
  | _, [] => None
  end.

Definition has_children (m : gmap path node) (d : path) : bool :=
  existsb (fun kv => match below d kv.1 with Some (_ :: _) => true | _ => false end)
    (map_to_list m).

(** Everything at or below [old] moves to the same place relative to [new]. *)
Definition move_tree (m : gmap path node) (old new : path) : gmap path node :=
  list_to_map (map (fun kv => match below old kv.1 with
                              | Some r => (new ++ r, kv.2)
                              | None => kv
                              end) (map_to_list m)).

(** The last component of a path string, to which [rename] denies [.] and [..]. *)
Definition ends_in_dots (p : str) : bool :=
  match last (filter (fun c => c <> []) (split_on 47 p)) with
  | Some c => bool_decide (c = chars "." \/ c = chars "..")
  | None => true
  end.

(** [os.rename]: POSIX [rename], which replaces a file by a file and an empty
    directory by a directory.  Only a directory may be renamed to a name with a
    trailing slash. *)
Definition os_rename (old new : str) : stM host unit :=
  fun h =>
    let new' := match resolve h old with
                | Ret a => if is_dir (fs h) a then rstrip_with (Z.eqb 47) new else new
                | Raise _ => new
                end in
    match resolve h old, resolve h new' with
    | Raise ValueError, _ | _, Raise ValueError => (Raise ValueError, h)
    | Raise e, _ | _, Raise e => (Raise e, h)
    | Ret a, Ret b =>
        if ends_in_dots old || ends_in_dots new then (Raise OSError, h)
        else if decide (a ∈ denied h \/ b ∈ denied h) then (Raise OSError, h)
        else match fs h !! a, fs h !! b with
        | None, _ | Some (NFile _), Some (NDir _) | Some (NDir _), Some (NFile _) =>
            (Raise OSError, h)
        | Some (NFile c), _ => (Ret tt, with_fs h (<[b := NFile c]> (delete a (fs h))))
        | Some (NDir _), _ =>
            if decide (a = b) then (Ret tt, h)
            else if bool_decide (is_Some (below a b)) || has_children (fs h) b
            then (Raise OSError, h)
            else (Ret tt, with_fs h (move_tree (delete b (fs h)) a b))
        end
    end.

(** The names in a directory. *)
Definition children (m : gmap path node) (d : path) : list str :=
  omap (fun kv => match below d kv.1 with Some [c] => Some c | _ => None end) (map_to_list m).

Definition listdir (h : host) (p : str) : outcome (list str) :=
  q ← resolve h p;
  if is_dir (fs h) q then Ret (scan h (children (fs h) q)) else Raise OSError.

(** [os.path.isdir] and [os.path.isfile]. *)
Definition isdir (h : host) (p : str) : bool :=
  match resolve h p with Ret q => is_dir (fs h) q | Raise _ => false end.
Definition isfile (h : host) (p : str) : bool :=
  match resolve h p with
  | Ret q => match fs h !! q with Some (NFile _) => true | _ => false end
  | Raise _ => false
  end.

(** The part of a path before its last component. *)
Definition dirname (p : str) : str :=
  let head := rev (drop_while (fun c => negb (c =? 47)) (rev p)) in
  match rstrip_with (Z.eqb 47) head with [] => head | head' => head' end.

(** [os.mkdir], an existing directory being accepted. *)
Definition mkdir_ok (p : str) : stM host unit :=
  fun h =>
    match locate h p with
    | Raise e => (Raise e, h)
    | Ret q =>
        match fs h !! q with
        | Some (NDir _) => (Ret tt, h)
        | Some (NFile _) => (Raise OSError, h)
        | None => (Ret tt, with_fs h (<[q := NDir 0]> (fs h)))
        end
    end.

(** [os.makedirs(p, exist_ok=True)]; [fuel] bounds the depth of [p]. *)
Fixpoint makedirs (fuel : nat) (p : str) : stM host unit :=
  match fuel with
  | O => raise OutOfFuel
  | S fuel' =>
      let head := dirname p in
      h ← get;
      (match head with
       | [] => mret tt
       | _ => if exists_ h head then mret tt else makedirs fuel' head
       end);;
      mkdir_ok p
  end.

(** ** Files by offset *)

(** [f.seek(off); f.read(n)]. *)
Definition read_at (c : bytes) (off n : Z) : bytes := takeZ n (dropZ off c).

(** [f.seek(off); f.write(d)]: a gap before [off] reads as zeros. *)
Definition write_at (c : bytes) (off : Z) (d : bytes) : bytes :=
  takeZ off c ++ replicate (Z.to_nat off - length c) 0 ++ d ++ dropZ (off + zlength d) c.

(** ** Standard input *)

(** [select] on it without waiting: a byte or the end of file is there. *)
Definition stdin_ready (h : host) : bool :=
  match typed h, untyped h with [], _ :: _ => false | _, _ => true end.

(** [os.read(fd, 1)]: waits for what comes. *)
Definition stdin_read : stM host bytes :=
  fun h =>
    match typed h, untyped h with
    | b :: t, u => (Ret [b], Host (fs h) (denied h) (cwd h) (scan h) t u)
    | [], b :: u => (Ret [b], Host (fs h) (denied h) (cwd h) (scan h) [] u)
    | [], [] => (Ret [], h)
    end.

(** ** Lemmas: files by offset *)

Lemma write_at_spec c off d : 0 <= off ->
  write_at c off d =
  take (Z.to_nat off) c ++ replicate (Z.to_nat off - length c) 0 ++ d
  ++ drop (Z.to_nat off + length d) c.
Proof.
  intros H. unfold write_at, zlength. rewrite takeZ_take, dropZ_drop.
  replace (Z.to_nat (off + Z.of_nat (length d))) with (Z.to_nat off + length d)%nat by lia.
  reflexivity.
Qed.

(** What was written is read back. *)
Lemma read_write_same c off d : 0 <= off -> read_at (write_at c off d) off (zlength d) = d.
Proof.
  intros H. rewrite write_at_spec by done. unfold read_at.
  rewrite takeZ_take, dropZ_drop, app_assoc.
  unfold zlength. rewrite Nat2Z.id.
  rewrite drop_app_length' by (rewrite length_app, length_take, length_replicate; lia).
  apply take_app_length.
Qed.

Lemma lookup_write_at c off d i : 0 <= off ->
  write_at c off d !! i =
  if decide (i < Z.to_nat off)%nat
  then (if decide (i < length c)%nat then c !! i else Some 0)
  else if decide (i < Z.to_nat off + length d)%nat then d !! (i - Z.to_nat off)%nat
  else c !! i.
Proof.
  intros H. rewrite write_at_spec by done. set (o := Z.to_nat off).
  destruct (decide (i < o)%nat) as [Hi|Hi].
  - destruct (decide (i < length c)%nat) as [Hc|Hc].
    + rewrite lookup_app_l by (rewrite length_take; lia). apply lookup_take_lt. lia.
    + rewrite lookup_app_r by (rewrite length_take; lia). rewrite length_take.
      rewrite lookup_app_l by (rewrite length_replicate; lia).
      apply lookup_replicate_2. lia.
  - rewrite app_assoc.
    rewrite lookup_app_r by (rewrite length_app, length_take, length_replicate; lia).
    rewrite length_app, length_take, length_replicate.
    replace (Nat.min o (length c) + (o - length c))%nat with o by lia.
    destruct (decide (i < o + length d)%nat).
    + apply lookup_app_l. lia.
    + rewrite lookup_app_r by lia. rewrite lookup_drop. f_equal. lia.
Qed.

Lemma write_at_all (c d : bytes) off :
  all_bytes c -> all_bytes d -> all_bytes (write_at c off d).
Proof.
  intros Hc Hd. unfold write_at. rewrite takeZ_take, dropZ_drop.
  repeat apply Forall_app_2; auto using Forall_take, Forall_drop.
  apply Forall_replicate. unfold is_byte. lia.
Qed.

Lemma read_at_all (c : bytes) off n : all_bytes c -> all_bytes (read_at c off n).
Proof.
  intros Hc. unfold read_at. rewrite takeZ_take, dropZ_drop. by apply Forall_take, Forall_drop.
Qed.

Lemma length_read_at c off n : (length (read_at c off n) <= Z.to_nat n)%nat.
Proof. unfold read_at. rewrite takeZ_take, length_take. lia. Qed.

(** A write leaves every other part of the file alone, as far as the file went. *)
Lemma read_write_other c off d off' n :
  0 <= off -> 0 <= off' -> 0 <= n -> off' + n <= zlength c ->
  off' + n <= off \/ off + zlength d <= off' ->
  read_at (write_at c off d) off' n = read_at c off' n.
Proof.
  unfold zlength. intros Ho Ho' Hn Hin Hdis.
  unfold read_at. rewrite !takeZ_take, !dropZ_drop. apply list_eq. intros i.
  destruct (decide (i < Z.to_nat n)%nat) as [Hi|Hi].
  - rewrite !lookup_take_lt by done. rewrite !lookup_drop, lookup_write_at by done.
    repeat case_decide; try lia; done.
  - rewrite !lookup_take_ge by lia. done.
Qed.

#[export] Hint Resolve write_at_all read_at_all : py.

(** ** Lemmas: paths *)

Lemma resolve_with_fs h m p :
  fs h = m -> resolve (with_fs h m) p = resolve h p.
Proof. intros <-. unfold resolve, with_fs. by destruct h. Qed.

(** Storing a file where no directory is does not change how paths resolve. *)
Lemma is_dir_insert_file m q c p :
  is_dir m q = false -> is_dir (<[q := NFile c]> m) p = is_dir m p.
Proof.
  unfold is_dir. intros H. destruct (decide (p = q)) as [->|Hne].
  - rewrite lookup_insert_eq. by destruct (m !! q) as [[]|].
  - by rewrite lookup_insert_ne.
Qed.

Lemma walk_insert_file m q c cs cur :
  is_dir m q = false -> walk (<[q := NFile c]> m) cur cs = walk m cur cs.
Proof.
  intros H. revert cur. induction cs as [|a cs IH]; intros cur; cbn [walk]; [done|].
  rewrite is_dir_insert_file by done. by rewrite !IH.
Qed.

Lemma resolve_insert_file h q c p :
  is_dir (fs h) q = false ->
  resolve (with_fs h (<[q := NFile c]> (fs h))) p = resolve h p.
Proof.
  intros H. unfold resolve. cbn [fs cwd with_fs]. destruct (decide _); [done|].
  destruct p; [done|]. by rewrite walk_insert_file.
Qed.

Lemma locate_insert_file h q c p :
  is_dir (fs h) q = false ->
  locate (with_fs h (<[q := NFile c]> (fs h))) p = locate h p.
Proof. intros H. unfold locate. rewrite resolve_insert_file by done. reflexivity. Qed.

(** What a write leaves behind: reading the same path gives what was stored. *)
Lemma open_write_inv mode p body h h' :
  open_write mode p body h = (Ret tt, h') ->
  exists q c, locate h p = Ret q /\ is_dir (fs h) q = false /\
    h' = with_fs h (<[q := NFile (body c)]> (fs h)) /\
    ((mode <> WB /\ fs h !! q = Some (NFile c)) \/ (mode <> RPlusB /\ c = [])).
Proof.
  unfold open_write, is_dir. destruct (locate h p) as [q|e] eqn:Eq; [|done].
  destruct mode, (fs h !! q) as [[c|n]|] eqn:Ec; intros H; simplify_eq;
    eexists q, _; repeat split; eauto; rewrite Ec; done.
Qed.

Lemma open_rb_after_write mode p body h h' :
  open_write mode p body h = (Ret tt, h') ->
  exists q c, locate h p = Ret q /\ open_rb h' p = Ret (body c) /\
    ((mode <> WB /\ fs h !! q = Some (NFile c)) \/ (mode <> RPlusB /\ c = [])).
Proof.
  intros (q & c & Hq & Hd & -> & Hc)%open_write_inv. exists q, c. split_and!; [done| |done].
  unfold open_rb. rewrite locate_insert_file, Hq by done. cbn. by rewrite lookup_insert_eq.
Qed.

(** ** Invariant: files and typed input hold bytes *)

Definition node_ok (n : node) : Prop :=
  match n with NFile c => all_bytes c | NDir _ => True end.

Definition host_ok (h : host) : Prop :=
  map_Forall (fun _ n => node_ok n) (fs h) /\ all_bytes (typed h) /\ all_bytes (untyped h).

Abbreviation host_safe := (keeps host_ok).


Lemma host_ok_with_fs h m :
  host_ok h -> map_Forall (fun _ n => node_ok n) m -> host_ok (with_fs h m).
Proof. intros (_ & Ht & Hu) Hm. by repeat split. Qed.

Lemma host_ok_insert h q n : host_ok h -> node_ok n -> host_ok (with_fs h (<[q := n]> (fs h))).
Proof. intros H Hn. apply host_ok_with_fs; [done|]. apply map_Forall_insert_2; [done|apply H]. Qed.

Lemma host_ok_file h q c : host_ok h -> fs h !! q = Some (NFile c) -> all_bytes c.
Proof. intros (Hm & _) Hq. by apply (Hm q (NFile c)). Qed.

Lemma open_rb_bytes h p c : host_ok h -> open_rb h p = Ret c -> all_bytes c.
Proof.
  unfold open_rb. intros Hh. destruct (locate h p) as [q|]; cbn; [|done].
  destruct (fs h !! q) as [[c'|]|] eqn:E; intros [= <-]. by eapply host_ok_file.
Qed.

Lemma open_write_safe mode p body :
  (forall c, all_bytes c -> all_bytes (body c)) -> host_safe (open_write mode p body) (fun _ => True).
Proof.
  intros Hb h Hh. split; [|done]. unfold open_write.
  destruct (locate h p) as [q|]; [|done].
  assert (Hnil : all_bytes (body [])) by (apply Hb; constructor).
  destruct mode, (fs h !! q) as [[c|]|] eqn:E; cbn; try done;
    apply host_ok_insert; try done; apply Hb; by eapply host_ok_file.
Qed.

Lemma map_Forall_move_tree m a b :
  map_Forall (fun _ n => node_ok n) m -> map_Forall (fun _ n => node_ok n) (move_tree m a b).
Proof.
  intros H p n Hp. unfold move_tree in Hp.
  apply elem_of_list_to_map_2, list_elem_of_fmap in Hp as ([q n'] & Heq & Hin).
  apply elem_of_map_to_list in Hin. cbn in Heq.
  destruct (below a q); injection Heq as -> ->; by apply (H q).
Qed.

Lemma os_remove_safe p : host_safe (os_remove p) (fun _ => True).
Proof.
  intros h Hh. split; [|done]. unfold os_remove. destruct (locate h p) as [q|]; [|done].
  destruct (fs h !! q) as [[c|]|]; cbn; try done.
  apply host_ok_with_fs; [done|]. apply map_Forall_delete, Hh.
Qed.

Lemma os_rename_safe old new : host_safe (os_rename old new) (fun _ => True).
Proof.
  intros h Hh. split; [|done]. unfold os_rename.
  repeat (case_match; simplify_eq/=; try done).
  all: apply host_ok_with_fs; [done|].
  all: first [apply map_Forall_move_tree, map_Forall_delete, Hh
             |apply map_Forall_insert_2; [by eapply host_ok_file | apply map_Forall_delete, Hh]].
Qed.

Lemma stdin_read_safe : host_safe stdin_read (fun bs => all_bytes bs /\ (length bs <= 1)%nat).
Proof.
  intros h (Hm & Ht & Hu). unfold stdin_read.
  destruct (typed h) as [|b t] eqn:Et; [destruct (untyped h) as [|b u] eqn:Eu|]; cbn.
  - split; [repeat split; rewrite ?Et, ?Eu; done|]. intros a [= <-]. by split; [constructor|cbn; lia].
  - apply Forall_cons in Hu as [Hb Hu]. split; [done|]. intros a [= <-].
    split; [by apply Forall_singleton | cbn; lia].
  - apply Forall_cons in Ht as [Hb Ht]. split; [done|]. intros a [= <-].
    split; [by apply Forall_singleton | cbn; lia].
Qed.
