(* ===== verification/Server.v ===== *)
(** * cpnet/server.py: the CP/NET server.

    [server] is the state of a [CPNetServer] and of the host it runs on.  A
    handler takes the request's payload and gives the response's, or raises; it
    is a computation in [stM server], so that what it did to the host's files
    before an exception stays done, and [except OSError] is [catch].
    [handle_request] dispatches through the table [handlers] and sends the
    answer with [Framing.send_frame]; [run] is the main loop, which ends on
    [ConnectionError] and [KeyboardInterrupt] and lets every other exception
    through.  Log output ([print]) and the throughput counters are left out. *)

From S2P Require Import Prelude Wire Framing Host.
From stdpp Require Import pretty.
#[local] Open Scope Z_scope.

(** ** State *)

Record search : Type := Search {
  matches : list str;
  next_match : nat;
  search_drive : Z
}.

Record server : Type := Server {
  drive_dirs : gmap Z str;
  server_node : Z;
  client_node : Z;
  search_state : option search;
  error_file : option str;
  printer_file : option str;
  console_mode : bool;
  console_out : option bytes;   (* what was written to it, if there is one *)
  on : host
}.

Definition set_client_node (s : server) (n : Z) : server :=
  Server (drive_dirs s) (server_node s) n (search_state s) (error_file s) (printer_file s)
    (console_mode s) (console_out s) (on s).
Definition set_search (s : server) (x : option search) : server :=
  Server (drive_dirs s) (server_node s) (client_node s) x (error_file s) (printer_file s)
    (console_mode s) (console_out s) (on s).
Definition set_console_out (s : server) (x : option bytes) : server :=
  Server (drive_dirs s) (server_node s) (client_node s) (search_state s) (error_file s)
    (printer_file s) (console_mode s) x (on s).
Definition set_host (s : server) (h : host) : server :=
  Server (drive_dirs s) (server_node s) (client_node s) (search_state s) (error_file s)
    (printer_file s) (console_mode s) (console_out s) h.

Abbreviation handler := (bytes -> stM server bytes).

(** A call on the host. *)
Definition host_call {A} (m : stM host A) : stM server A :=
  fun s => (fst (m (on s)), set_host s (snd (m (on s)))).
Definition host_ask {A} (f : host -> outcome A) : stM server A := fun s => (f (on s), s).

(** A string or path is true when it is not empty. *)
Definition truthy (o : option str) : option str :=
  match o with Some (_ :: _) => o | _ => None end.

(** ** Names and paths *)

Definition fcb_name (payload : bytes) (offset : nat) : bytes :=
  strip7 (slice (offset + 1) (offset + 12) payload).

Definition fcb_drive (payload : bytes) (offset : nat) : outcome Z :=
  d ← index payload offset;
  let d := Z.land d 15 in
  mret (if 0 <? d then d - 1 else 0).

(** The padding [rstrip(b'\x00 ')] removes. *)
Definition is_pad (c : Z) : bool := (c =? 0) || (c =? 32).

Definition host_name (name : bytes) : str :=
  let fname := decode_ascii (rstrip_with is_pad (take 8 name)) in
  let ext := decode_ascii (rstrip_with is_pad (slice 8 11 name)) in
  match ext with [] => fname | _ => fname ++ chars "." ++ ext end.

Definition resolve_path (s : server) (drive : Z) (name : bytes) : option str :=
  match truthy (drive_dirs s !! drive) with
  | None => None
  | Some drive_dir => Some (path_join drive_dir (host_name name))
  end.

(** ** Building responses *)

(** [payload[i] if len(payload) > i else 0]. *)
Definition byte_or_0 (payload : bytes) (i : nat) : Z := default 0 (payload !! i).

Definition records_of (size : Z) : Z := (size + 127) / 128.

(** The position after a sequential transfer of record [ex * 128 + cr]. *)
Definition advance (ex cr : Z) : Z * Z :=
  if 128 <=? cr + 1 then (ex + 1, 0) else (ex, cr + 1).

Definition rec_of (payload : bytes) : outcome Z :=
  r0 ← index payload 34; r1 ← index payload 35; r2 ← index payload 36;
  mret (Z.lor (Z.lor r0 (Z.shiftl r1 8)) (Z.shiftl r2 16)).

(** retcode + drive + FCB[1..35], with EX and CR replaced, then the sector. *)
Definition fcb_response (size : nat) (payload : bytes) (ex cr : Z) : outcome bytes :=
  let fcb_data := slice 1 37 payload in
  let resp := slice_set 1 (1 + length fcb_data) fcb_data (replicate size 0) in
  stores resp [(13%nat, ex); (33%nat, cr)].

Definition sector_response (payload : bytes) (ex cr : Z) (data : bytes) : outcome bytes :=
  resp ← fcb_response 165 payload ex cr;
  mret (slice_set 37 165 data resp).

(** ** File handlers *)

Definition handle_open : handler := fun payload =>
  drive ← lift (fcb_drive payload 1);
  let name := fcb_name payload 1 in
  s ← get;
  match resolve_path s drive name with
  | Some path =>
      if exists_ (on s) path then
        size ← host_ask (fun h => getsize h path);
        let records := records_of size in
        lift (resp ← stores (replicate 34 0) [(0%nat, 0); (1%nat, u8 (drive + 1))];
              let resp := slice_set 2 13 (take 11 name) resp in
              stores resp [(13%nat, 0); (14%nat, 0); (15%nat, 0);
                           (16%nat, Z.min records 128); (33%nat, 0)])
      else mret [255]
  | None => mret [255]
  end.

Definition handle_close : handler := fun payload => mret [0].

Definition handle_read_seq : handler := fun payload =>
  drive ← lift (fcb_drive payload 1);
  let name := fcb_name payload 1 in
  let ex := byte_or_0 payload 13 in
  let cr := byte_or_0 payload 33 in
  s ← get;
  match resolve_path s drive name with
  | None => mret [255]
  | Some path =>
      let record := ex * 128 + cr in
      let offset := record * 128 in
      try_os
        (content ← host_ask (fun h => open_rb h path);
         let data := read_at content offset 128 in
         match data with
         | [] => mret [1]
         | _ =>
             let data := ljust 128 26 data in
             let '(ex, cr) := advance ex cr in
             lift (sector_response payload ex cr data)
         end)
        [255]
  end.

Definition handle_read_rand : handler := fun payload =>
  drive ← lift (fcb_drive payload 1);
  let name := fcb_name payload 1 in
  s ← get;
  match resolve_path s drive name with
  | None => mret [255]
  | Some path =>
      if decide (length payload < 37)%nat then mret [255] else
      rec ← lift (rec_of payload);
      let offset := rec * 128 in
      try_os
        (content ← host_ask (fun h => open_rb h path);
         let data := read_at content offset 128 in
         match data with
         | [] => mret [6]
         | _ =>
             let data := ljust 128 26 data in
             let cr := rec mod 128 in
             let ex := (rec / 128) mod 32 in
             lift (sector_response payload ex cr data)
         end)
        [255]
  end.

(** [open(path, 'r+b' if os.path.exists(path) else 'wb')]. *)
Definition write_mode (path : str) : stM server wmode :=
  gets (fun s => if exists_ (on s) path then RPlusB else WB).

Definition handle_write_seq : handler := fun payload =>
  drive ← lift (fcb_drive payload 1);
  let name := fcb_name payload 1 in
  s ← get;
  match resolve_path s drive name with
  | None => mret [255]
  | Some path =>
      let ex := byte_or_0 payload 13 in
      let cr := byte_or_0 payload 33 in
      let record := ex * 128 + cr in
      let offset := record * 128 in
      if decide (length payload < 37 + 128)%nat then mret [255] else
      let data := slice 37 (37 + 128) payload in
      try_os
        (mode ← write_mode path;
         host_call (open_write mode path (fun c => write_at c offset data));;
         let '(ex, cr) := advance ex cr in
         let fcb_copy := slice 1 37 payload in
         fcb_copy ← lift (store fcb_copy 12 ex);
         fcb_copy ← lift (if decide (32 < length fcb_copy)%nat
                          then store fcb_copy 32 cr else Ret fcb_copy);
         mret (0 :: fcb_copy))
        [255]
  end.

(** The two random writes differ in how they treat a gap before the record;
    [zero_fill] is the code of BDOS 40. *)
Definition zero_fill (offset : Z) (c : bytes) : bytes :=
  if zlength c <? offset
  then c ++ replicate (Z.to_nat (offset - zlength c)) 0
  else c.

Definition handle_write_rand : handler := fun payload =>
  drive ← lift (fcb_drive payload 1);
  let name := fcb_name payload 1 in
  s ← get;
  match resolve_path s drive name with
  | None => mret [255]
  | Some path =>
      if decide (length payload < 37)%nat then mret [255] else
      rec ← lift (rec_of payload);
      let offset := rec * 128 in
      if decide (length payload < 37 + 128)%nat then mret [255] else
      let data := slice 37 (37 + 128) payload in
      try_os
        (mode ← write_mode path;
         host_call (open_write mode path (fun c => write_at c offset data));;
         let cr := rec mod 128 in
         let ex := (rec / 128) mod 32 in
         lift (fcb_response 37 payload ex cr))
        [255]
  end.

Definition handle_write_rand_zf : handler := fun payload =>
  drive ← lift (fcb_drive payload 1);
  let name := fcb_name payload 1 in
  s ← get;
  match resolve_path s drive name with
  | None => mret [255]
  | Some path =>
      if decide (length payload < 37)%nat then mret [255] else
      rec ← lift (rec_of payload);
      let offset := rec * 128 in
      if decide (length payload < 37 + 128)%nat then mret [255] else
      let data := slice 37 (37 + 128) payload in
      try_os
        (mode ← write_mode path;
         host_call (open_write mode path
                      (fun c => write_at (zero_fill offset c) offset data));;
         let cr := rec mod 128 in
         let ex := (rec / 128) mod 32 in
         lift (fcb_response 37 payload ex cr))
        [255]
  end.

Definition handle_make_file : handler := fun payload =>
  drive ← lift (fcb_drive payload 1);
  let name := fcb_name payload 1 in
  s ← get;
  match resolve_path s drive name with
  | None => mret [255]
  | Some path =>
      try_os
        (host_call (open_write AB path (fun c => c));;
         lift (resp ← stores (replicate 34 0) [(0%nat, 0)];
               let resp := slice_set 1 13 (slice 1 13 payload) resp in
               stores resp [(13%nat, 0); (14%nat, 0); (15%nat, 0); (16%nat, 0); (33%nat, 0)]))
        [255]
  end.

Definition handle_delete : handler := fun payload =>
  drive ← lift (fcb_drive payload 1);
  let name := fcb_name payload 1 in
  s ← get;
  match resolve_path s drive name with
  | Some path =>
      if exists_ (on s) path then try_os (host_call (os_remove path);; mret [0]) [255]
      else mret [255]
  | None => mret [255]
  end.

Definition handle_rename : handler := fun payload =>
  drive ← lift (fcb_drive payload 1);
  let old_name := strip7 (slice 2 13 payload) in
  let new_name := strip7 (slice 18 29 payload) in
  s ← get;
  match resolve_path s drive old_name, resolve_path s drive new_name with
  | Some old_path, Some new_path =>
      try_os (host_call (os_rename old_path new_path);; mret [0]) [255]
  | _, _ => mret [255]
  end.

Definition handle_file_size : handler := fun payload =>
  drive ← lift (fcb_drive payload 1);
  let name := fcb_name payload 1 in
  s ← get;
  match resolve_path s drive name with
  | None => mret [255]
  | Some path =>
      if negb (exists_ (on s) path) then mret [255] else
      size ← host_ask (fun h => getsize h path);
      let records := records_of size in
      let src := slice 1 37 payload in
      let resp := slice_set 1 (1 + length src) src (replicate 37 0) in
      lift (stores resp [(34%nat, Z.land records 255);
                         (35%nat, Z.land (Z.shiftr records 8) 255);
                         (36%nat, Z.land (Z.shiftr records 16) 255)])
  end.

(** ** Directory search *)

Definition question : Z := 63.

(** [all(p == '?' or p == n for p, n in zip(pattern, name))]. *)
Fixpoint match_chars (pattern name : str) : bool :=
  match pattern, name with
  | p :: pattern', n :: name' =>
      if negb (p =? question) && negb (p =? n) then false else match_chars pattern' name'
  | _, _ => true
  end.

Definition match_pattern (pattern name : str) : bool :=
  let pattern := upper pattern in
  let name := upper name in
  if decide (pattern = [] \/ pattern = replicate (length pattern) question) then true else
  let maxlen := Nat.max (length pattern) (length name) in
  match_chars (ljust maxlen 32 pattern) (ljust maxlen 32 name).

(** The 8+3 name a host file is known by. *)
Definition entry_name (entry : str) : str := take 8 (upper (fst (rsplit_dot entry))).
Definition entry_ext (entry : str) : str :=
  match snd (rsplit_dot entry) with Some e => take 3 (upper e) | None => [] end.

Definition entry_matches (pattern_name pattern_ext : str) (entry : str) : bool :=
  match_pattern pattern_name (entry_name entry) && match_pattern pattern_ext (entry_ext entry).

(** One step of a search: the next entry as a 32-byte directory entry. *)
Definition search_result : stM server bytes :=
  s ← get;
  match search_state s with
  | None => mret [255]
  | Some st =>
      match matches st !! next_match st with
      | None => modify (fun s => set_search s None);; mret [255]
      | Some entry =>
          modify (fun s => set_search s
            (Some (Search (matches st) (S (next_match st)) (search_drive st))));;
          let fname := ljust 8 32 (entry_name entry) in
          let fext := ljust 3 32 (entry_ext entry) in
          direntry ← lift (stores (replicate 32 0) [(0%nat, 0)]);
          fname ← lift (encode_ascii fname);
          let direntry := slice_set 1 9 fname direntry in
          fext ← lift (encode_ascii fext);
          let direntry := slice_set 9 12 fext direntry in
          let drive_dir := default (chars ".") (drive_dirs s !! search_drive st) in
          let path := path_join drive_dir entry in
          records ← try_os (size ← host_ask (fun h => getsize h path); mret (records_of size)) 0;
          direntry ← lift (stores direntry [(12%nat, 0); (15%nat, Z.min records 128)]);
          mret (slice_set 1 33 direntry (replicate 33 0))
      end
  end.

Definition handle_search_first : handler := fun payload =>
  drive ← lift (fcb_drive payload 2);
  let name := fcb_name payload 2 in
  s ← get;
  match truthy (drive_dirs s !! drive) with
  | None => mret [255]
  | Some drive_dir =>
      let pattern_name := rstrip_with py_space (decode_ascii (take 8 name)) in
      let pattern_ext := rstrip_with py_space (decode_ascii (slice 8 11 name)) in
      found ← try_os (entries ← host_ask (fun h => listdir h drive_dir);
                      mret (List.filter (entry_matches pattern_name pattern_ext) entries)) [];
      modify (fun s => set_search s (Some (Search found 0 drive)));;
      search_result
  end.

Definition handle_search_next : handler := fun payload => search_result.

(** ** Console, printer, and the constant answers *)

Definition handle_get_user : handler := fun payload => mret [0].
Definition handle_get_login_vector : handler := fun payload => mret [255; 255].

Definition handle_list_output : handler := fun payload =>
  let ch := byte_or_0 payload 0 in
  s ← get;
  match truthy (printer_file s) with
  | Some pf => host_call (open_write AB pf (fun c => c ++ [ch]))
  | None => mret tt
  end;;
  mret [0].

Definition handle_network_login : handler := fun payload => mret [0].
Definition handle_network_logoff : handler := fun payload => mret [0].
Definition handle_get_server_cfg : handler := fun payload => mret (replicate 23 0).
Definition handle_reset_drive : handler := fun payload => mret [0].
Definition handle_access_drive : handler := fun payload => mret [0].
Definition handle_free_drive : handler := fun payload => mret [0].

(** [n.to_bytes(2, 'little')]. *)
Definition le16 (n : Z) : bytes := [Z.land n 255; Z.shiftr n 8].

Definition handle_get_dpb : handler := fun payload =>
  let dpb := slice_set 0 2 (le16 72) (replicate 17 0) in
  dpb ← lift (stores dpb [(2%nat, 4); (3%nat, 15); (4%nat, 1)]);
  let dpb := slice_set 5 7 (le16 242) dpb in
  let dpb := slice_set 7 9 (le16 63) dpb in
  dpb ← lift (stores dpb [(9%nat, 192); (10%nat, 0)]);
  let dpb := slice_set 11 13 (le16 16) dpb in
  let dpb := slice_set 13 15 (le16 2) dpb in
  mret (0 :: dpb).

Definition handle_set_dma : handler := fun payload => mret [0].
Definition handle_network_status : handler := fun payload => mret [0].
Definition handle_select_disk : handler := fun payload => mret [0].
Definition handle_reset_disk : handler := fun payload => mret [0].
Definition handle_ret_current : handler := fun payload => mret [0].
Definition handle_set_rec : handler := fun payload => mret [0].
Definition handle_get_alloc : handler := fun payload => mret [0].
Definition handle_get_ro : handler := fun payload => mret [0; 0].
Definition handle_write_prot : handler := fun payload => mret [0].

Definition handle_set_attrs : handler := fun payload =>
  drive ← lift (fcb_drive payload 1); mret [0].

Definition handle_console_status : handler := fun payload =>
  s ← get;
  if negb (console_mode s) then mret [0]
  else mret [if stdin_ready (on s) then 255 else 0].

Definition handle_console_input : handler := fun payload =>
  s ← get;
  if negb (console_mode s) then mret [13] else
  ch ← host_call stdin_read;
  match ch with
  | b :: _ => if b =? 29 then raise KeyboardInterrupt else mret [b]
  | [] => raise KeyboardInterrupt
  end.

Definition handle_console_output : handler := fun payload =>
  ch ← lift (match payload !! 1%nat with Some b => Ret b | None => index payload 0 end);
  s ← get;
  match console_mode s, console_out s with
  | true, Some out => modify (fun s => set_console_out s (Some (out ++ [ch])))
  | _, _ => mret tt
  end;;
  mret [0].

(** ** Dispatch *)

Definition handlers : list (Z * handler) := [
  (13, handle_reset_disk); (14, handle_select_disk); (15, handle_open); (16, handle_close);
  (17, handle_search_first); (18, handle_search_next); (19, handle_delete);
  (23, handle_rename); (20, handle_read_seq); (21, handle_write_seq); (22, handle_make_file);
  (36, handle_set_rec); (25, handle_ret_current); (26, handle_set_dma); (27, handle_get_alloc);
  (29, handle_get_ro); (28, handle_write_prot); (30, handle_set_attrs); (31, handle_get_dpb);
  (34, handle_write_rand); (40, handle_write_rand_zf); (32, handle_get_user);
  (33, handle_read_rand); (35, handle_file_size); (37, handle_reset_drive);
  (38, handle_access_drive); (39, handle_free_drive); (24, handle_get_login_vector);
  (5, handle_list_output); (64, handle_network_login); (65, handle_network_logoff);
  (70, handle_network_status); (71, handle_get_server_cfg); (11, handle_console_status);
  (3, handle_console_input); (4, handle_console_output)].

Definition find_handler (fnc : Z) : option handler :=
  snd <$> List.find (fun kh => fst kh =? fnc) handlers.

(** A function code without a handler is reported in [error_file]. *)
Definition unhandled (fnc : Z) : stM server bytes :=
  let msg := chars "UNHANDLED_BDOS_F" ++ chars (pretty (Z.to_N fnc)) in
  s ← get;
  match truthy (error_file s) with
  | Some ef => host_call (open_write AB ef (fun c => c ++ msg ++ [10]))
  | None => mret tt
  end;;
  mret [255].

Definition respond (fnc : Z) (payload : bytes) : stM server bytes :=
  match find_handler fnc with
  | Some h => h payload
  | None => unhandled fnc
  end.

(** [self.conn.send_frame(bytes(hdr), data)], its result ignored. *)
Definition send_response (hdr : list Z) (data : bytes) : prog (outcome unit) :=
  attempt (hdr ← of_outcome (mk_bytes hdr); send_frame hdr data;; mret tt).

Definition handle_init (client_sid : Z) (s : server) : prog (outcome unit * server) :=
  let s := set_client_node s (if client_sid =? 0 then 1 else client_sid) in
  let flags := if console_mode s then 1 else 0 in
  r ← attempt (hdr ← of_outcome (mk_bytes [0; client_node s; server_node s; 0; 2]);
               data ← of_outcome (mk_bytes [client_node s; server_node s; flags]);
               send_frame hdr data;; mret tt);
  mret (r, s).

Definition handle_request (hdr payload : bytes) (s : server) : prog (outcome unit * server) :=
  match hdr with
  | fmt :: did :: sid :: fnc :: siz :: _ =>
      if fnc =? 255 then handle_init sid s
      else if fnc =? 254 then mret (Ret tt, s)
      else
        match respond fnc payload s with
        | (Raise e, s') => mret (Raise e, s')
        | (Ret resp_data, s') =>
            r ← send_response [1; sid; server_node s'; fnc; u8 (zlength resp_data - 1)] resp_data;
            mret (r, s')
        end
  | _ => mret (Raise IndexError, s)
  end.

(** The exceptions that end the loop; every other one leaves [run]. *)
Definition ends_run (e : exn) : bool :=
  match e with ConnectionError | KeyboardInterrupt => true | _ => false end.

(** [n] turns of the loop, each reading at most [enq] bytes before an ENQ. *)
Fixpoint run (n enq : nat) (s : server) : prog (outcome unit * server) :=
  match n with
  | O => mret (Raise OutOfFuel, s)
  | S n' =>
      result ← attempt (recv_frame enq);
      match result with
      | Raise e => mret (if ends_run e then Ret tt else Raise e, s)
      | Ret None => run n' enq s
      | Ret (Some (hdr, payload)) =>
          r ← handle_request hdr payload s;
          match r with
          | (Ret _, s') => run n' enq s'
          | (Raise e, s') => mret (if ends_run e then Ret tt else Raise e, s')
          end
      end
  end.

(** ** Start-up *)

(** [ord(letter.upper()) - ord('A')]; [ord] wants a single character. *)
Definition drive_index (letter : str) : outcome Z :=
  match upper letter with [c] => Ret (c - 65) | _ => Raise ValueError end.

Fixpoint map_drives (args : list (str * str)) (m : gmap Z str) : outcome (gmap Z str) :=
  match args with
  | [] => Ret m
  | (letter, dir) :: args' => i ← drive_index letter; map_drives args' (<[i := dir]> m)
  end.

(** Explicit mappings, or all sixteen drives on the current directory. *)
Definition drive_mapping (args : list (str * str)) (cwd : str) : outcome (gmap Z str) :=
  match args with
  | [] => Ret (foldr (fun i m => <[Z.of_nat i := cwd]> m) ∅ (seq 0 16))
  | _ => map_drives args ∅
  end.

(** The SUBMIT batch, each line ended by CR. *)
Definition go_sub : bytes :=
  concat (map (fun l => chars l ++ [13])
    ["PIP CHKSUM.HEX=RDR:"; "LOAD CHKSUM"; "PIP CPNETLDR.HEX=RDR:"; "LOAD CPNETLDR";
     "PIP NETWORK.HEX=RDR:"; "LOAD NETWORK"; "PIP CCP.HEX=RDR:"; "LOAD CCP";
     "REN CCP.SPR=CCP.COM"; "PIP SNIOS.HEX=RDR:"; "LOAD SNIOS"; "REN SNIOS.SPR=SNIOS.COM";
     "PIP NDOS.HEX=RDR:"; "LOAD NDOS"; "REN NDOS.SPR=NDOS.COM"; "CPNETLDR"]%string).

Definition file_order : list str :=
  map chars ["CHKSUM.HEX"; "CPNETLDR.HEX"; "NETWORK.HEX"; "CCP.HEX"; "SNIOS.HEX"; "NDOS.HEX"]%string.

(** [sock.sendall(data); sock.sendall(b'\x1a')] under [except OSError]:
    [false] when sending failed. *)
Definition send_file (data : bytes) : prog bool :=
  r ← attempt (sendall data;; sendall [26]);
  match r with
  | Ret _ => mret true
  | Raise e => if is_os_error e then mret false else PRaise e
  end.

Fixpoint send_files (h : host) (hex_dir : str) (names : list str) : prog unit :=
  match names with
  | [] => mret tt
  | fname :: names' =>
      let path := path_join hex_dir fname in
      if negb (exists_ h path) then send_files h hex_dir names' else
      data ← of_outcome (open_rb h path);
      ok ← send_file data;
      if (ok : bool) then send_files h hex_dir names' else mret tt
  end.

Definition send_hex_files (h : host) (hex_dir : str) : prog unit :=
  ok ← send_file go_sub;
  if (ok : bool) then send_files h hex_dir file_order else mret tt.
