(* ===== verification/ServerSafe.v ===== *)
(** * The CP/NET server: invariant, well-formed answers, sessions.

    [server_ok] says that files and typed input hold bytes and that the node
    numbers fit a header.  [safe m Q] says that the computation [m] keeps it,
    also when it raises, and that what it returns satisfies [Q]; the rules below
    follow the handlers' structure.  The session theorem composes the handlers
    with the framing of [Framing]. *)

From S2P Require Import Prelude Wire Framing Host Server.
#[local] Open Scope Z_scope.

(** ** The invariant *)

Definition server_ok (s : server) : Prop :=
  host_ok (on s) /\ is_byte (server_node s) /\ is_byte (client_node s).

Abbreviation safe := (keeps server_ok).

(** ** Rules *)

Section SafeRules.
Context {A : Type}.
Implicit Types (Q : A -> Prop).

Lemma safe_host_call (m : stM host A) Q : host_safe m Q -> safe (host_call m) Q.
Proof.
  intros Hm s (Hh & Hn & Hc). destruct (Hm (on s) Hh) as [Hh' HQ].
  unfold host_call. cbn. by split_and!.
Qed.

Lemma safe_host_ask (f : host -> outcome A) Q :
  (forall h a, host_ok h -> f h = Ret a -> Q a) -> safe (host_ask f) Q.
Proof. intros H s Hs. split; [done|]. intros a. apply H, Hs. Qed.

End SafeRules.

(** ** The pieces of a response *)

Lemma byte_or_0_byte payload i : all_bytes payload -> is_byte (byte_or_0 payload i).
Proof.
  intros H. unfold byte_or_0. destruct (payload !! i) eqn:E; cbn; [|by split].
  by eapply all_bytes_lookup.
Qed.

Lemma decode_pad_all l : all_bytes l -> all_bytes (ljust 128 26 l).
Proof. apply ljust_all_bytes. by split. Qed.

#[export] Hint Resolve byte_or_0_byte decode_pad_all : py.

Lemma fcb_response_ok size payload ex cr r :
  all_bytes payload -> (37 <= size)%nat -> fcb_response size payload ex cr = Ret r ->
  all_bytes r /\ length r = size.
Proof.
  unfold fcb_response. intros Hp Hs (Hl & Hb)%stores_keeps. split; [apply Hb; auto with py|].
  rewrite Hl, length_slice_set; rewrite ?length_slice, ?length_replicate; lia.
Qed.

Lemma sector_response_ok payload ex cr data r :
  all_bytes payload -> all_bytes data -> length data = 128%nat ->
  sector_response payload ex cr data = Ret r -> fits r.
Proof.
  unfold sector_response. intros Hp Hd Hl H.
  destruct (fcb_response _ _ _ _) as [f|] eqn:E; [|done]. cbn in H. injection H as <-.
  apply fcb_response_ok in E as [Hf Hlf]; [|done|lia].
  split; [auto with py|]. rewrite length_slice_set; lia.
Qed.

Lemma length_padded c off : length (ljust 128 26 (read_at c off 128)) = 128%nat.
Proof. rewrite length_ljust. pose proof (length_read_at c off 128). lia. Qed.

Lemma safe_open_rb {A} path (f : bytes -> stM server A) Q :
  (forall c, all_bytes c -> safe (f c) Q) ->
  safe (host_ask (fun h => open_rb h path) ≫= f) Q.
Proof.
  intros H. eapply keeps_bind; [apply safe_host_ask; intros h a Hh Ha; exact (open_rb_bytes _ _ _ Hh Ha)|].
  exact H.
Qed.

(** Follow one construct of a handler. *)
Ltac safe1 :=
  match goal with
  | |- safe (lift _ ≫= _) _ =>
      eapply keeps_bind; [apply keeps_lift; let x := fresh "x" in let E := fresh "E" in
                         intros x E; exact E | cbv beta; intros ? ?]
  | |- safe (get ≫= _) _ => apply keeps_get; intros ? ?
  | |- safe (gets _ ≫= _) _ => apply keeps_gets; intros ?
  | |- safe (write_mode _ ≫= _) _ => apply keeps_gets; intros ?
  | |- safe (try_os _ _) _ => apply keeps_try
  | |- safe (host_call (open_write _ _ _) ≫= _) _ =>
      eapply keeps_bind; [apply safe_host_call, open_write_safe | intros ? ?]
  | |- safe (host_call (os_remove _) ≫= _) _ =>
      eapply keeps_bind; [apply safe_host_call, os_remove_safe | intros ? ?]
  | |- safe (host_call (os_rename _ _) ≫= _) _ =>
      eapply keeps_bind; [apply safe_host_call, os_rename_safe | intros ? ?]
  | |- safe (host_ask (fun h => open_rb h _) ≫= _) _ => apply safe_open_rb; intros ? ?
  | |- safe (host_ask _ ≫= _) _ =>
      eapply keeps_bind; [apply safe_host_ask; let x := fresh "x" in let E := fresh "E" in
                         intros ? x ? E; exact I | cbv beta; intros ? ?]
  | |- safe (mret _) _ => apply keeps_ret
  | |- safe (lift _) _ => apply keeps_lift; intros ? ?
  | |- safe (match ?x with _ => _ end) _ => let E := fresh "E" in destruct x eqn:E
  end; cbv beta zeta.

(** What each handler owes: it keeps the server well-formed and answers with a
    payload that fits a frame. *)
Definition handler_ok (h : handler) : Prop := forall payload, all_bytes payload -> safe (h payload) fits.

(** The sector a read returns. *)
Lemma sector_fits payload ex cr c off b d r :
  sector_response payload ex cr (ljust 128 26 (b :: d)) = Ret r ->
  read_at c off 128 = b :: d -> all_bytes payload -> all_bytes c -> fits r.
Proof.
  intros H E Hp Hc. rewrite <- E in H.
  eapply (sector_response_ok payload); [done| |apply length_padded|exact H]. auto with py.
Qed.

Lemma handle_read_seq_ok : handler_ok handle_read_seq.
Proof. intros p Hp. unfold handle_read_seq. repeat safe1; try fits_const. by eapply sector_fits. Qed.

Lemma handle_read_rand_ok : handler_ok handle_read_rand.
Proof. intros p Hp. unfold handle_read_rand. repeat safe1; try fits_const. by eapply sector_fits. Qed.

Lemma zero_fill_all off c : all_bytes c -> all_bytes (zero_fill off c).
Proof. intros H. unfold zero_fill. case_if; [|done]. apply Forall_app. auto with py. Qed.
#[export] Hint Resolve zero_fill_all : py.

Lemma fcb_answer_fits payload ex cr r :
  fcb_response 37 payload ex cr = Ret r -> all_bytes payload -> fits r.
Proof. intros H Hp. apply fcb_response_ok in H as [Hb Hl]; [|done|lia]. split; [done|lia]. Qed.

Lemma handle_write_rand_ok : handler_ok handle_write_rand.
Proof.
  intros p Hp. unfold handle_write_rand. repeat safe1; try fits_const; auto with py.
  by eapply fcb_answer_fits.
Qed.

Lemma handle_write_rand_zf_ok : handler_ok handle_write_rand_zf.
Proof.
  intros p Hp. unfold handle_write_rand_zf. repeat safe1; try fits_const; auto with py.
  by eapply fcb_answer_fits.
Qed.

(** The FCB a sequential write echoes. *)
Lemma fcb_copy_fits payload ex cr l1 l2 :
  store (slice 1 37 payload) 12 ex = Ret l1 ->
  (if decide (32 < length l1)%nat then store l1 32 cr else Ret l1) = Ret l2 ->
  all_bytes payload -> fits (0 :: l2).
Proof.
  intros [Hl1 Hb1]%store_keeps H2 Hp. rewrite length_slice in Hl1.
  assert (H : length l2 = length l1 /\ (all_bytes l1 -> all_bytes l2)).
  { destruct (decide _); [by apply store_keeps in H2 | by injection H2 as <-]. }
  destruct H as [Hl2 Hb2]. split; [|cbn; lia].
  constructor; [by split|]. apply Hb2, Hb1. auto with py.
Qed.

Lemma handle_write_seq_ok : handler_ok handle_write_seq.
Proof.
  intros p Hp. unfold handle_write_seq. repeat safe1; try fits_const; auto with py.
  by eapply fcb_copy_fits.
Qed.

(** A fresh [bytearray] filled in around one slice assignment. *)
Lemma built_fits n kvs1 a b d kvs2 r :
  (x ← stores (replicate n 0) kvs1; stores (slice_set a b d x) kvs2) = Ret r ->
  all_bytes d -> (1 <= a <= n)%nat -> (n + length d <= 256)%nat -> fits r.
Proof.
  intros H Hd Ha Hn. destruct (stores _ kvs1) as [x|] eqn:E; [|done]. cbn in H.
  apply stores_keeps in E as [Hl1 Hb1]. apply stores_keeps in H as [Hl2 Hb2].
  rewrite length_replicate in Hl1. split; [apply Hb2; auto with py|].
  rewrite Hl2, length_slice_set_gen. lia.
Qed.

Lemma strip7_name_all payload i n : all_bytes (take n (fcb_name payload i)).
Proof. apply Forall_take, strip7_all. Qed.
#[export] Hint Resolve strip7_name_all : py.

Lemma length_fcb_name payload i : (length (fcb_name payload i) <= 11)%nat.
Proof. unfold fcb_name. rewrite length_strip7, length_slice. lia. Qed.

Lemma handle_open_ok : handler_ok handle_open.
Proof.
  intros p Hp. unfold handle_open. repeat safe1; try fits_const.
  eapply built_fits; [eassumption|auto with py|lia|].
  rewrite length_take. lia.
Qed.

Lemma handle_make_file_ok : handler_ok handle_make_file.
Proof.
  intros p Hp. unfold handle_make_file. repeat safe1; try fits_const; auto.
  eapply built_fits; [eassumption|auto with py|lia|].
  rewrite length_slice. lia.
Qed.

Lemma handle_delete_ok : handler_ok handle_delete.
Proof. intros p Hp. unfold handle_delete. repeat safe1; fits_const. Qed.

Lemma handle_rename_ok : handler_ok handle_rename.
Proof. intros p Hp. unfold handle_rename. repeat safe1; fits_const. Qed.

Lemma handle_file_size_ok : handler_ok handle_file_size.
Proof.
  intros p Hp. unfold handle_file_size. repeat safe1; try fits_const.
  match goal with H : stores _ _ = Ret _ |- _ => apply stores_keeps in H as [Hl Hb] end.
  rewrite length_slice_set in Hl by (rewrite ?length_slice, ?length_replicate; lia).
  rewrite length_replicate in Hl. split; [apply Hb; auto with py | lia].
Qed.

(** *** Searching *)

Lemma encode_ascii_ok s l : encode_ascii s = Ret l -> l = s /\ all_bytes l.
Proof.
  unfold encode_ascii. destruct (forallb _ s) eqn:E; [|done]. intros [= <-]. split; [done|].
  apply List.Forall_forall. intros x Hx. apply (proj1 (forallb_forall _ _) E) in Hx.
  unfold is_byte. lia.
Qed.

(** Reading a file's size never changes anything. *)
Lemma safe_size h_path : safe (size ← host_ask (fun h => getsize h h_path); mret (records_of size)) (fun _ => True).
Proof. eapply keeps_bind; [apply (safe_host_ask _ (fun _ => True)); done|]. intros. by apply keeps_ret. Qed.

Lemma dir_entry_fits d0 d1 fname fext d :
  all_bytes d0 -> (length d0 <= 32)%nat -> stores (slice_set 9 12 fext (slice_set 1 9 fname d0)) d1 = Ret d ->
  all_bytes fname -> all_bytes fext -> (length fname <= 100)%nat -> (length fext <= 100)%nat ->
  fits (slice_set 1 33 d (replicate 33 0)).
Proof.
  intros H0 Hl0 [Hl Hb]%stores_keeps Hn He Hln Hle. split; [auto 7 with py|].
  rewrite !length_slice_set_gen in Hl. rewrite length_slice_set_gen, length_replicate. lia.
Qed.

Lemma entry_name_length e : (length (entry_name e) <= 8)%nat.
Proof. unfold entry_name. rewrite length_take. lia. Qed.
Lemma entry_ext_length e : (length (entry_ext e) <= 3)%nat.
Proof. unfold entry_ext. destruct (rsplit_dot e).2; [rewrite length_take|cbn]; lia. Qed.

Lemma search_result_ok : safe search_result fits.
Proof.
  unfold search_result. apply keeps_get. intros s Hs.
  destruct (search_state s) as [st|]; [|apply keeps_ret; fits_const].
  destruct (matches st !! next_match st) as [entry|].
  - apply keeps_modify; [done|]. repeat safe1.
    apply keeps_try_any; [apply safe_size|]. intros records. repeat safe1.
    repeat match goal with H : encode_ascii _ = Ret _ |- _ => apply encode_ascii_ok in H as [-> ?] end.
    pose proof (entry_name_length entry). pose proof (entry_ext_length entry).
    eapply dir_entry_fits; [|  |eassumption|done|done|rewrite length_ljust; lia|rewrite length_ljust; lia].
    all: match goal with H : stores _ [(0%nat, 0)] = Ret _ |- _ => apply stores_keeps in H as [Hl Hb] end.
    + apply Hb. auto with py.
    + rewrite Hl. by rewrite length_replicate.
  - apply keeps_modify; [done|]. apply keeps_ret. fits_const.
Qed.

Lemma handle_search_first_ok : handler_ok handle_search_first.
Proof.
  intros p Hp. unfold handle_search_first. repeat safe1; try fits_const.
  apply keeps_try_any.
  - eapply keeps_bind; [apply (safe_host_ask _ (fun _ => True)); done|]. intros. by apply keeps_ret.
  - intros found. apply keeps_modify; [done|]. apply search_result_ok.
Qed.

Lemma handle_search_next_ok : handler_ok handle_search_next.
Proof. intros p _. apply search_result_ok. Qed.

(** *** The other handlers *)

Lemma safe_printer pf ch : is_byte ch -> host_safe (open_write AB pf (fun c => c ++ [ch])) (fun _ => True).
Proof. intros H. apply open_write_safe. intros c Hc. apply Forall_app. auto. Qed.

Lemma handle_list_output_ok : handler_ok handle_list_output.
Proof.
  intros p Hp. unfold handle_list_output. apply keeps_get. intros s Hs.
  apply keeps_unit_bind; [|apply keeps_ret; fits_const].
  destruct (truthy _); [|by apply keeps_ret]. apply safe_host_call, safe_printer. auto with py.
Qed.

Lemma handle_console_input_ok : handler_ok handle_console_input.
Proof.
  intros p Hp. unfold handle_console_input. apply keeps_get. intros s Hs. cbv beta.
  destruct (negb _); [apply keeps_ret; fits_const|].
  eapply keeps_bind; [apply safe_host_call, stdin_read_safe|]. intros ch [Hb Hl].
  destruct ch as [|b ch]; [apply keeps_raise|]. case_if; [apply keeps_raise|].
  apply keeps_ret. apply Forall_cons in Hb as [Hb _]. split; [by apply Forall_singleton | cbn; lia].
Qed.

Lemma handle_console_output_ok : handler_ok handle_console_output.
Proof.
  intros p Hp. unfold handle_console_output. repeat safe1.
  apply keeps_unit_bind; [|apply keeps_ret; fits_const].
  repeat safe1; done.
Qed.

Lemma handle_console_status_ok : handler_ok handle_console_status.
Proof. intros p Hp. unfold handle_console_status. repeat safe1; try case_if; fits_const. Qed.

Lemma handlers_ok : Forall (fun kh => handler_ok kh.2) handlers.
Proof.
  unfold handlers. repeat (apply Forall_cons_2 || apply Forall_nil_2); cbn [snd];
    auto using handle_open_ok, handle_search_first_ok, handle_search_next_ok, handle_delete_ok,
      handle_rename_ok, handle_read_seq_ok, handle_write_seq_ok, handle_make_file_ok,
      handle_write_rand_ok, handle_write_rand_zf_ok, handle_read_rand_ok, handle_file_size_ok,
      handle_list_output_ok, handle_console_status_ok, handle_console_input_ok,
      handle_console_output_ok.
  all: intros p Hp; try (apply keeps_ret; fits_const).
  unfold handle_set_attrs. repeat safe1. fits_const.
Qed.

Lemma find_handler_ok fnc h : find_handler fnc = Some h -> handler_ok h.
Proof.
  unfold find_handler. destruct (List.find _ _) as [[k h']|] eqn:E; [|done]. intros [= <-].
  apply List.find_some in E as [Hin _].
  exact (proj1 (List.Forall_forall _ _) handlers_ok _ Hin).
Qed.

Lemma chars_all s : all_bytes (chars s).
Proof.
  induction s as [|c s IH]; cbn; constructor; [|done]. split; [lia|].
  destruct c as [[][][][][][][][]]; vm_compute; reflexivity.
Qed.

Lemma respond_safe fnc payload : all_bytes payload -> safe (respond fnc payload) fits.
Proof.
  intros Hp. unfold respond. destruct (find_handler fnc) as [h|] eqn:E; [by eapply find_handler_ok|].
  unfold unhandled. apply keeps_get. intros s Hs.
  apply keeps_unit_bind; [|apply keeps_ret; fits_const].
  destruct (truthy _); [|by apply keeps_ret].
  apply safe_host_call, open_write_safe. intros c Hc.
  repeat apply Forall_app_2; auto using chars_all. by apply Forall_singleton.
Qed.

(** ** Frames that carry answers *)

Lemma holds_send_response hdr data :
  wf_frame hdr data -> holds (send_response hdr data) (sender_script hdr data) (Ret tt).
Proof.
  intros Hwf. unfold send_response. apply holds_attempt.
  rewrite mk_bytes_ok by apply Hwf. cbn [of_outcome mbind prog_bind].
  rewrite <- (app_nil_r (sender_script _ _)). eapply holds_bind; [|apply holds_ret].
  exact (send_frame_sender (hdr, data) Hwf).
Qed.

(** A request with a handler's answer: one request frame in, one frame out. *)
Lemma holds_handle_request fmt did sid fnc siz payload s resp s' :
  0 <= fnc < 254 -> is_byte sid -> all_bytes payload -> server_ok s ->
  respond fnc payload s = (Ret resp, s') ->
  holds (handle_request [fmt; did; sid; fnc; siz] payload s)
    (sender_script [1; sid; server_node s'; fnc; zlength resp - 1] resp) (Ret tt, s').
Proof.
  intros Hf Hs Hp Hok H. destruct (respond_safe fnc payload Hp s Hok) as [Hok' Hfit].
  rewrite H in Hok', Hfit. cbn in Hok', Hfit. specialize (Hfit resp eq_refl).
  unfold handle_request. rewrite (proj2 (Z.eqb_neq fnc 255)), (proj2 (Z.eqb_neq fnc 254)) by lia.
  rewrite H, fits_zlength by done.
  rewrite <- (app_nil_r (sender_script _ _)). eapply holds_bind; [|apply holds_ret].
  apply holds_send_response, frame_intro; try done; [apply Hok' | unfold is_byte; lia].
Qed.

(** ** Example states *)

(** A host with one drive, for the examples. *)
Definition example_host (files : list (str * bytes)) : host :=
  Host (list_to_map (([], NDir 0) :: ([chars "d"], NDir 0) ::
                     map (fun f => ([chars "d"; f.1], NFile f.2)) files))
    [] [] (fun l => l) [] [].
Definition example_server (files : list (str * bytes)) : server :=
  Server {[0 := chars "/d"]} 0 1 None None None false None (example_host files).

Lemma example_server_ok files :
  Forall (fun f => all_bytes f.2) files -> server_ok (example_server files).
Proof.
  intros H. split; [|by split]. split; [|by split].
  cbn [on fs example_server example_host]. intros p n Hp.
  apply elem_of_list_to_map_2 in Hp.
  apply elem_of_cons in Hp as [[= -> ->]|Hp]; [done|].
  apply elem_of_cons in Hp as [[= -> ->]|Hp]; [done|].
  apply list_elem_of_fmap in Hp as (f & [= -> ->] & Hf).
  exact (proj1 (Forall_forall _ _) H f Hf).
Qed.

(** The FCB of a request, user and drive first. *)
Definition example_fcb (name : string) : bytes := [0; 1] ++ chars name ++ replicate 24 0.
