(* ===== verification/Session.v ===== *)
(** * The test client against the server, over any interleaving.

    [test_login] and [test_dir] are the client's two requests
    (cpnet/cpnet12_client.py); [exchange] is the pattern they share, a request
    sent with [send_message] and the answer read with [recv_message], and
    [session] a list of them.  The theorems run such a client against
    [Server.run]: the framing of [Framing] and the invariant of [ServerSafe]
    carry every exchange, whatever the order of the two programs' steps. *)

From S2P Require Import Prelude Wire Framing Host Server ServerSafe.
#[local] Open Scope Z_scope.

(** ** The client *)

Record request : Type := Request { r_sid : Z; r_fnc : Z; r_payload : bytes }.

(** Send one request and wait for the answer. *)
Definition exchange (q : request) : prog (option (bytes * bytes)) :=
  ok ← send_message 0 0 (r_sid q) (r_fnc q) (zlength (r_payload q) - 1) (r_payload q);
  if negb ok then mret None else recv_message.

Fixpoint session (qs : list request) : prog (list (option (bytes * bytes))) :=
  match qs with
  | [] => mret []
  | q :: qs' => a ← exchange q; r ← session qs'; mret (a :: r)
  end.

Definition slave_id : Z := 1.

Definition test_login : prog bool :=
  let password := chars "PASSWORD" in
  ok ← send_message 0 0 slave_id 64 (zlength password - 1) password;
  if negb ok then mret false else
  resp ← recv_message;
  match resp with Some _ => mret true | None => mret false end.

Definition test_dir (drive : Z) : prog bool :=
  fcb ← of_outcome (stores (replicate 36 0)
          ((0%nat, drive) :: map (fun i => (i, 63)) (seq 1 11)));
  ok ← send_message 0 0 slave_id 17 (zlength fcb - 1) fcb;
  if negb ok then mret false else
  resp ← recv_message;
  match resp with Some _ => mret true | None => mret false end.

(** ** What the server answers *)

(** The response frame to a request, header and payload. *)
Definition answer (q : request) : stM server (bytes * bytes) :=
  resp ← respond (r_fnc q) (r_payload q);
  s ← get;
  mret ([1; r_sid q; server_node s; r_fnc q; zlength resp - 1], resp).

Fixpoint answers (qs : list request) : stM server (list (bytes * bytes)) :=
  match qs with
  | [] => mret []
  | q :: qs' => a ← answer q; r ← answers qs'; mret (a :: r)
  end.

(** Requests for the handlers; 254 and 255 are network control. *)
Definition request_ok (q : request) : Prop :=
  is_byte (r_sid q) /\ 0 <= r_fnc q < 254 /\ fits (r_payload q).

Definition request_header (q : request) : bytes :=
  [0; 0; r_sid q; r_fnc q; zlength (r_payload q) - 1].

(** A request that can be framed at all. *)
Definition framable (q : request) : Prop := wf_frame (request_header q) (r_payload q).

(** One exchange as the client sees it. *)
Definition exchange_script (q : request) (a : bytes * bytes) : list act :=
  sender_script (request_header q) (r_payload q) ++ receiver_script a.1 a.2.

(** ** Lemmas *)

Lemma request_wf q : request_ok q -> framable q.
Proof. intros (Hs & Hf & Hp). apply frame_intro; unfold is_byte in *; auto; lia. Qed.

Lemma answer_inv q s a s' :
  answer q s = (Ret a, s') -> exists resp,
    respond (r_fnc q) (r_payload q) s = (Ret resp, s') /\
    a = ([1; r_sid q; server_node s'; r_fnc q; zlength resp - 1], resp).
Proof.
  intros (resp & s1 & H1 & H2)%stM_bind_inv. cbn in H2. injection H2 as <- <-. eauto.
Qed.

Lemma answer_wf q s a s' :
  request_ok q -> server_ok s -> answer q s = (Ret a, s') -> server_ok s' /\ wf_frame a.1 a.2.
Proof.
  intros (Hs & Hf & Hp) Hok (resp & H & ->)%answer_inv.
  destruct (respond_safe (r_fnc q) (r_payload q) (proj1 Hp) s Hok) as [Hok' Hfit].
  rewrite H in *. cbn in *. split; [done|]. pose proof Hok' as (_ & Hn & _).
  apply frame_intro; unfold is_byte in *; auto; lia.
Qed.

Lemma dual_app s t : dual (s ++ t) = dual s ++ dual t.
Proof. apply map_app. Qed.

Lemma holds_send_message q : framable q ->
  holds (send_message 0 0 (r_sid q) (r_fnc q) (zlength (r_payload q) - 1) (r_payload q))
    (sender_script (request_header q) (r_payload q)) true.
Proof.
  intros Hq. exact (send_message_sender ((0, 0, r_sid q, r_fnc q, zlength (r_payload q) - 1),
    r_payload q) Hq).
Qed.

Lemma holds_exchange q a :
  framable q -> wf_frame a.1 a.2 -> holds (exchange q) (exchange_script q a) (Some a).
Proof.
  intros Hq Ha. eapply holds_bind; [by apply holds_send_message|]. cbn [negb].
  destruct a as [hdr resp]. exact (receiver_holds (rcv := recv_message) hdr resp Ha).
Qed.

Lemma holds_session qs ars :
  Forall2 (fun q a => framable q /\ wf_frame a.1 a.2) qs ars ->
  holds (session qs) (concat (zip_with exchange_script qs ars)) (map Some ars).
Proof.
  induction 1 as [|q a qs ars [Hq Ha] H IH]; cbn [session zip_with concat map]; [apply holds_ret|].
  eapply holds_bind; [by apply holds_exchange|].
  rewrite <- (app_nil_r (concat _)). eapply holds_bind; [exact IH|apply holds_ret].
Qed.

(** One turn of the server's loop, up to what the rest of it does. *)
Lemma holds_run_turn n enq q a s s' script r :
  request_ok q -> server_ok s -> answer q s = (Ret a, s') ->
  holds (run n (S enq) s') script r ->
  holds (run (S n) (S enq) s) (dual (exchange_script q a) ++ script) r.
Proof.
  intros Hq Hok Ha Hrun. pose proof Ha as (resp & H & ->)%answer_inv. cbn [fst snd].
  pose proof Hq as (Hs & Hf & Hp).
  unfold exchange_script. rewrite dual_app, <- app_assoc. cbn [run fst snd].
  unfold receiver_script. rewrite dual_involutive.
  eapply holds_bind.
  { apply holds_attempt. exact (receiver_holds (rcv := recv_frame (S enq)) _ _ (request_wf q Hq)). }
  cbv beta iota. unfold request_header.
  apply (holds_bind _ _ _ _ (Ret tt, s')); [|exact Hrun].
  apply holds_handle_request; try done. apply Hp.
Qed.

Lemma holds_run qs enq s ars s' :
  Forall request_ok qs -> server_ok s -> answers qs s = (Ret ars, s') ->
  Forall2 (fun q a => framable q /\ wf_frame a.1 a.2) qs ars /\
  holds (run (length qs) (S enq) s) (dual (concat (zip_with exchange_script qs ars)))
    (Raise OutOfFuel, s').
Proof.
  intros Hqs. revert s ars. induction Hqs as [|q qs Hq Hqs IH]; intros s ars Hok H.
  - injection H as <- <-. split; [constructor|apply holds_ret].
  - cbn [answers] in H. apply stM_bind_inv in H as (a & s1 & Ha & H).
    apply stM_bind_inv in H as (ars' & s2 & Hars & H). injection H as <- <-.
    destruct (answer_wf q s a s1 Hq Hok Ha) as [Hok1 Hwf].
    destruct (IH s1 ars' Hok1 Hars) as [HF Hrun]. split; [constructor; auto using request_wf|].
    cbn [length zip_with concat]. rewrite dual_app. by eapply holds_run_turn.
Qed.

(** The client's two tests are exchanges whose answer only has to arrive. *)
Definition arrived {A} (r : option A) : bool := match r with Some _ => true | None => false end.

Lemma holds_test_login s a :
  wf_frame a.1 a.2 -> s = exchange_script (Request slave_id 64 (chars "PASSWORD")) a ->
  holds test_login s true.
Proof.
  intros Ha ->. unfold test_login, exchange_script.
  eapply holds_bind.
  { apply (holds_send_message (Request slave_id 64 (chars "PASSWORD"))), request_wf.
    split; [by split|split; [by cbn|fits_const]]. }
  cbn [negb]. rewrite <- (app_nil_r (receiver_script _ _)).
  eapply holds_bind; [exact (receiver_holds (rcv := recv_message) a.1 a.2 Ha)|]. apply holds_ret.
Qed.

Definition dir_fcb (drive : Z) : bytes := drive :: replicate 11 63 ++ replicate 24 0.

Lemma dir_fcb_fits drive : is_byte drive -> fits (dir_fcb drive).
Proof.
  intros H. split; [|cbn; lia]. apply Forall_cons_2; [done|].
  apply Forall_app_2; apply Forall_replicate; by split.
Qed.

Lemma holds_test_dir drive s a : is_byte drive ->
  wf_frame a.1 a.2 -> s = exchange_script (Request slave_id 17 (dir_fcb drive)) a ->
  holds (test_dir drive) s true.
Proof.
  intros Hd Ha ->. unfold test_dir, exchange_script.
  assert (Hst : stores (replicate 36 0) ((0%nat, drive) :: map (fun i => (i, 63)) (seq 1 11))
                = Ret (dir_fcb drive)).
  { cbn [stores]. rewrite store_in; [reflexivity|done|cbn; lia]. }
  rewrite Hst. cbn [of_outcome mbind prog_bind].
  eapply holds_bind.
  { apply (holds_send_message (Request slave_id 17 (dir_fcb drive))), request_wf.
    split; [by split|split; [by cbn|by apply dir_fcb_fits]]. }
  cbn [negb]. rewrite <- (app_nil_r (receiver_script _ _)).
  eapply holds_bind; [exact (receiver_holds (rcv := recv_message) a.1 a.2 Ha)|]. apply holds_ret.
Qed.

(** A client program whose conversation is the exchange for [q]. *)
Lemma exchange_finishes {A} (p : prog A) q a s s' enq x :
  request_ok q -> server_ok s -> answer q s = (Ret a, s') ->
  (forall t, wf_frame a.1 a.2 -> t = exchange_script q a -> holds p t x) ->
  always_finishes p (run 1 (S enq) s) x (Raise OutOfFuel, s').
Proof.
  intros Hq Hs Ha Hp. destruct (answer_wf q s a s' Hq Hs Ha) as [_ Hwf].
  eapply dual_finishes; [by apply Hp|].
  rewrite <- (app_nil_r (dual _)). eapply holds_run_turn; [done..|]. apply holds_ret.
Qed.

(** ** Properties *)

(** C3: every answer fits a frame.  Whatever request arrives, the server stays
    well-formed (files of bytes, node numbers of one byte), also when the
    handler raises; and when a handler returns, its answer consists of 1 to 256
    bytes, so that the SIZ byte the server computes is the exact length minus
    one. *)
Theorem answers_fit_a_frame fnc payload s :
  all_bytes payload -> server_ok s ->
  server_ok (snd (respond fnc payload s)) /\
  (forall resp, fst (respond fnc payload s) = Ret resp ->
     fits resp /\ u8 (zlength resp - 1) + 1 = zlength resp).
Proof.
  intros Hp Hs. destruct (respond_safe fnc payload Hp s Hs) as [Hs' Hr].
  split; [done|]. intros resp H. specialize (Hr resp H). split; [done|].
  rewrite fits_zlength by done. lia.
Qed.

(** Sessions.  For every list of requests that the handlers answer, the
    client's exchanges and the server's loop finish together under every
    interleaving of their socket calls, the client holding the answers the
    handlers gave in the order of its requests, each in a frame addressed to it
    (FMT 1, DID its node, FNC its function), and the server's files being those
    the handlers left. *)
Lemma sessions_finish qs ars s s' enq :
  Forall request_ok qs -> server_ok s -> answers qs s = (Ret ars, s') ->
  always_finishes (session qs) (run (length qs) (S enq) s)
    (map Some ars) (Raise OutOfFuel, s').
Proof.
  intros Hqs Hs H. destruct (holds_run qs enq s ars s' Hqs Hs H) as [HF Hrun].
  eapply dual_finishes; [by apply holds_session | exact Hrun].
Qed.

Lemma answers_fit_a_frame_witness :
  exists resp, fst (respond 15 (example_fcb "README  TXT") (example_server [(chars "README.TXT", [1; 2])]))
    = Ret resp /\ fits resp.
Proof.
  eexists. split; [vm_compute; reflexivity|].
  apply (proj2 (answers_fit_a_frame 15 (example_fcb "README  TXT")
                  (example_server [(chars "README.TXT", [1; 2])])
     ltac:(vm_compute; repeat constructor; discriminate)
     ltac:(apply example_server_ok; repeat constructor; discriminate)) _).
  vm_compute. reflexivity.
Defined.

(** A handler's exception ends the service.  When the handler of a properly
    framed request raises, the server has acknowledged the frame, sends
    nothing more, and its loop ends: quietly for [ConnectionError] and
    [KeyboardInterrupt] (the console's Ctrl-]), with the exception escaping from
    [run] otherwise. *)
Lemma handler_exceptions_end_the_loop n enq q e s s' :
  request_ok q -> respond (r_fnc q) (r_payload q) s = (Raise e, s') ->
  holds (run (S n) (S enq) s) (receiver_script (request_header q) (r_payload q))
    (if ends_run e then Ret tt else Raise e, s').
Proof.
  intros Hq H. pose proof Hq as (Hs & Hf & Hp). cbn [run].
  rewrite <- (app_nil_r (receiver_script _ _)). eapply holds_bind.
  { apply holds_attempt. exact (receiver_holds (rcv := recv_frame (S enq)) _ _ (request_wf q Hq)). }
  cbv beta iota. unfold request_header, handle_request.
  rewrite (proj2 (Z.eqb_neq (r_fnc q) 255)), (proj2 (Z.eqb_neq (r_fnc q) 254)) by lia.
  rewrite H. apply holds_ret.
Qed.

(** Sessions.  For every list of requests that the handlers answer, the client's
    exchanges and the server's loop finish together under every interleaving of
    their socket calls, the client holding the answers the handlers gave in the
    order of its requests, each in a frame addressed to it (FMT 1, DID its node,
    FNC its function), and the server's files being those the handlers left.  When
    the handler of a properly framed request raises instead, the server has
    acknowledged the frame, sends nothing more, and its loop ends: quietly for
    [ConnectionError] and [KeyboardInterrupt] (the console's Ctrl-]), with the
    exception escaping from [run] otherwise. *)
Lemma sessions_finish_or_end :
  (forall qs ars s s' enq,
  Forall request_ok qs -> server_ok s -> answers qs s = (Ret ars, s') ->
  always_finishes (session qs) (run (length qs) (S enq) s)
    (map Some ars) (Raise OutOfFuel, s')) /\
  (forall n enq q e s s',
  request_ok q -> respond (r_fnc q) (r_payload q) s = (Raise e, s') ->
  holds (run (S n) (S enq) s) (receiver_script (request_header q) (r_payload q))
    (if ends_run e then Ret tt else Raise e, s')).
Proof. split; [exact sessions_finish|exact handler_exceptions_end_the_loop]. Qed.

(** The client's tests.  Against this server [test_login] always succeeds.
    [test_dir] always reports success as well, but its FCB comes without the two
    bytes the server skips, so that whatever drive is asked for, the server reads
    drive 14 (O:) out of the wildcards and, without a mapping for it, answers
    0xFF. *)
Lemma client_tests_finish drive enq s :
  server_ok s -> is_byte drive ->
  always_finishes test_login (run 1 (S enq) s) true (Raise OutOfFuel, s) /\
  (drive_dirs s !! 14 = None ->
   respond 17 (dir_fcb drive) s = (Ret [255], s) /\
   always_finishes (test_dir drive) (run 1 (S enq) s) true (Raise OutOfFuel, s)).
Proof.
  intros Hs Hd. split.
  - eapply (exchange_finishes _ (Request slave_id 64 (chars "PASSWORD"))); [|done|reflexivity|].
    + split; [by split|split; [by cbn|fits_const]].
    + intros t. apply holds_test_login.
  - intros Ho.
    assert (H : respond 17 (dir_fcb drive) s = (Ret [255], s)).
    { change (handle_search_first (dir_fcb drive) s = (Ret [255], s)).
      unfold handle_search_first, mbind, stM_bind, get, lift.
      change (fcb_drive (dir_fcb drive) 2) with (Ret 14). cbv beta iota. by rewrite Ho. }
    split; [done|].
    eapply (exchange_finishes _ (Request slave_id 17 (dir_fcb drive))); [|done| |].
    + split; [by split|split; [by cbn|by apply dir_fcb_fits]].
    + unfold answer, mbind, stM_bind. cbn [r_fnc r_payload]. rewrite H. reflexivity.
    + intros t. by apply holds_test_dir.
Qed.

(** C4: sessions.  However the socket calls interleave, a client that sends a list of
    well-formed requests and the server's loop both finish all their socket calls, the
    client holding the answers the handlers gave in the order of its requests and the
    server's files being those the handlers left; when the handler of a properly framed
    request raises, the server has acknowledged the frame, sends nothing more and its
    loop ends.  The client's own tests are such sessions: [test_login] always succeeds;
    [test_dir] always reports success as well, but its FCB comes without the two bytes
    the server skips, so that whatever drive is asked for, the server reads drive 14
    (O:) out of the wildcards and, without a mapping for it, answers 0xFF. *)
Theorem client_sessions_finish :
  ((forall qs ars s s' enq,
  Forall request_ok qs -> server_ok s -> answers qs s = (Ret ars, s') ->
  always_finishes (session qs) (run (length qs) (S enq) s)
    (map Some ars) (Raise OutOfFuel, s')) /\
  (forall n enq q e s s',
  request_ok q -> respond (r_fnc q) (r_payload q) s = (Raise e, s') ->
  holds (run (S n) (S enq) s) (receiver_script (request_header q) (r_payload q))
    (if ends_run e then Ret tt else Raise e, s'))) /\
  (forall drive enq s,
  server_ok s -> is_byte drive ->
  always_finishes test_login (run 1 (S enq) s) true (Raise OutOfFuel, s) /\
  (drive_dirs s !! 14 = None ->
   respond 17 (dir_fcb drive) s = (Ret [255], s) /\
   always_finishes (test_dir drive) (run 1 (S enq) s) true (Raise OutOfFuel, s))).
Proof. split; [exact sessions_finish_or_end|exact client_tests_finish]. Qed.

Lemma client_sessions_finish_witness :
  ((let s := example_server [(chars "A.TXT", [65; 66])] in
  let q := Request 1 20 (example_fcb "A       TXT") in
  exists ars s',
    always_finishes (session [q; q]) (run 2 1 s) (map Some ars) (Raise OutOfFuel, s')) /\
  (holds (run 1 1 (example_server [])) (receiver_script [0; 0; 1; 15; 0] [0])
    (Raise IndexError, example_server []))) /\
  (always_finishes test_login (run 1 1 (example_server [])) true
    (Raise OutOfFuel, example_server [])).
Proof.
  split.
  { split.
  { intros s q. eexists _, _.
  refine ((proj1 (proj1 client_sessions_finish)) [q; q] _ s _ 0%nat _ _ _).
  - assert (Hq : request_ok q) by (split; [by split|split; [by split|fits_const]]).
    by repeat constructor.
  - apply example_server_ok. repeat constructor; discriminate.
  - vm_compute. reflexivity. }
  { refine ((proj2 (proj1 client_sessions_finish)) 0%nat 0%nat (Request 1 15 [0]) IndexError
    (example_server []) (example_server []) _ _).
  - split; [by split|split; [by split|fits_const]].
  - vm_compute. reflexivity. } }
  { refine (proj1 ((proj2 client_sessions_finish) 1 0%nat (example_server []) _ _)).
  - apply example_server_ok. constructor.
  - by split. }
Defined.
