(* ===== verification/ServerFiles.v ===== *)
(** * The CP/NET server's files: reading, writing, sizes.

    A client names a file and a position by an FCB; [fcb] is its 36 bytes with
    the user byte in front, [wire] the bytes of a request.  The lemmas give each
    file handler on such a request: what it does to the file system and the
    bytes it answers.  The properties are about the files: what a write changes,
    that reads return what was written, that a sequential copy reproduces the
    whole file, how sizes are reported, and where positions go wrong. *)

From S2P Require Import Prelude Wire Framing Host Server ServerSafe.
#[local] Open Scope Z_scope.

(** ** File control blocks *)

Record fcb : Type := Fcb {
  f_user : Z;
  f_drive : Z;
  f_name : bytes;   (* name and extension, 11 bytes *)
  f_ex : Z;
  f_map : bytes;    (* S1, S2, RC and the allocation map, 19 bytes *)
  f_cr : Z;
  f_r0 : Z; f_r1 : Z; f_r2 : Z
}.

Definition fcb_tail (f : fcb) : bytes :=
  f_drive f :: f_name f ++ f_ex f :: f_map f ++ [f_cr f; f_r0 f; f_r1 f; f_r2 f].
Definition wire (f : fcb) : bytes := f_user f :: fcb_tail f.

Definition fcb_ok (f : fcb) : Prop :=
  all_bytes (wire f) /\ length (f_name f) = 11%nat /\ length (f_map f) = 19%nat.

(** The same FCB at another sequential position. *)
Definition at_pos (f : fcb) (ex cr : Z) : fcb :=
  Fcb (f_user f) (f_drive f) (f_name f) ex (f_map f) cr (f_r0 f) (f_r1 f) (f_r2 f).

(** The drive and the sequential and random record the server reads off it. *)
Definition drive_of (f : fcb) : Z :=
  if 0 <? Z.land (f_drive f) 15 then Z.land (f_drive f) 15 - 1 else 0.
Definition seq_rec (f : fcb) : Z := f_ex f * 128 + f_cr f.
Definition rand_rec (f : fcb) : Z :=
  Z.lor (Z.lor (f_r0 f) (Z.shiftl (f_r1 f) 8)) (Z.shiftl (f_r2 f) 16).

Definition path_of (s : server) (f : fcb) : option str :=
  resolve_path s (drive_of f) (strip7 (f_name f)).

(** Name the elements of the two byte fields. *)
Ltac explode f Hok :=
  destruct f as [fu fd fname fex fmp fcr fr0 fr1 fr2];
  let Hn := fresh in let Hm := fresh in
  destruct Hok as (Hok & Hn & Hm); cbn [f_name f_map] in Hn, Hm;
  do 11 (destruct fname as [|? fname]; [discriminate Hn|]);
  destruct fname; [|discriminate Hn];
  do 19 (destruct fmp as [|? fmp]; [discriminate Hm|]);
  destruct fmp; [|discriminate Hm]; clear Hn Hm.

Section Requests.
Context (f : fcb) (extra : bytes) (Hok : fcb_ok f).

Lemma wire_drive : fcb_drive (wire f ++ extra) 1 = Ret (drive_of f).
Proof. by explode f Hok. Qed.

Lemma wire_name : fcb_name (wire f ++ extra) 1 = strip7 (f_name f).
Proof. by explode f Hok. Qed.

Lemma wire_ex : byte_or_0 (wire f ++ extra) 13 = f_ex f.
Proof. by explode f Hok. Qed.

Lemma wire_cr : byte_or_0 (wire f ++ extra) 33 = f_cr f.
Proof. by explode f Hok. Qed.

Lemma wire_rec : rec_of (wire f ++ extra) = Ret (rand_rec f).
Proof. by explode f Hok. Qed.

Lemma wire_tail : slice 1 37 (wire f ++ extra) = fcb_tail f.
Proof. by explode f Hok. Qed.

Lemma wire_data : slice 37 165 (wire f ++ extra) = take 128 extra.
Proof. by explode f Hok. Qed.

Lemma length_wire : length (wire f ++ extra) = (37 + length extra)%nat.
Proof. by explode f Hok. Qed.

Lemma wire_response n ex' cr' :
  is_byte ex' -> is_byte cr' ->
  fcb_response (37 + n) (wire f ++ extra) ex' cr' =
  Ret (0 :: fcb_tail (at_pos f ex' cr') ++ replicate n 0).
Proof.
  intros He Hc. unfold fcb_response. rewrite wire_tail. cbn [stores]. unfold store.
  rewrite (proj2 (is_byteb_spec ex') He), (proj2 (is_byteb_spec cr') Hc).
  explode f Hok. rewrite decide_True by (cbn; lia). cbn [mbind outcome_bind].
  rewrite decide_True by (cbn; lia). reflexivity.
Qed.

Lemma wire_response_bad n ex' cr' :
  ~ is_byte ex' -> fcb_response n (wire f ++ extra) ex' cr' = Raise ValueError.
Proof.
  intros He. unfold fcb_response. cbn [stores]. unfold store.
  destruct (is_byteb ex') eqn:E; [|done]. by apply is_byteb_spec in E.
Qed.
End Requests.

(** ** The handlers on a request *)

Lemma length_fcb_tail f : fcb_ok f -> length (fcb_tail f) = 36%nat.
Proof. intros Hok. by explode f Hok. Qed.

Lemma fcb_ok_bytes f : fcb_ok f -> is_byte (f_ex f) /\ is_byte (f_cr f).
Proof.
  intros (Hb & _). unfold wire, fcb_tail in Hb.
  apply Forall_cons in Hb as [_ Hb]. apply Forall_cons in Hb as [_ Hb].
  apply Forall_app in Hb as [_ Hb]. apply Forall_cons in Hb as [He Hb].
  apply Forall_app in Hb as [_ Hb]. by apply Forall_cons in Hb as [Hc _].
Qed.

Lemma fcb_ok_at f ex cr : fcb_ok f -> is_byte ex -> is_byte cr -> fcb_ok (at_pos f ex cr).
Proof.
  intros (Hb & Hn & Hm) He Hc. split; [|done]. revert Hb. unfold wire, fcb_tail. cbn.
  rewrite !Forall_cons, !Forall_app, !Forall_cons, !Forall_app, !Forall_cons. tauto.
Qed.

(** The answer of a read: the FCB at the new position and the sector. *)
Definition read_answer (f : fcb) (ex cr : Z) (d : bytes) : bytes :=
  0 :: fcb_tail (at_pos f ex cr) ++ ljust 128 26 d.

Lemma advance_ranges ex cr ex' cr' :
  is_byte ex -> is_byte cr -> advance ex cr = (ex', cr') ->
  0 <= ex' <= 256 /\ is_byte cr'.
Proof.
  unfold advance, is_byte. intros He Hc. destruct (Z.leb_spec 128 (cr + 1)); intros [= <- <-]; lia.
Qed.

Lemma random_position_ranges rec : is_byte ((rec / 128) mod 32) /\ is_byte (rec mod 128).
Proof.
  unfold is_byte. pose proof (Z.mod_pos_bound (rec / 128) 32 ltac:(lia)).
  pose proof (Z.mod_pos_bound rec 128 ltac:(lia)).
  split; split; lia.
Qed.

Lemma wire_sector f extra ex' cr' d :
  fcb_ok f -> is_byte ex' -> is_byte cr' -> (length d <= 128)%nat ->
  sector_response (wire f ++ extra) ex' cr' (ljust 128 26 d) = Ret (read_answer f ex' cr' d).
Proof.
  intros Hok He Hc Hd. unfold sector_response.
  rewrite (wire_response f extra Hok 128) by done. cbn [mbind outcome_bind].
  change (mret ?x) with (Ret x). f_equal. unfold slice_set, read_answer.
  assert (Hl : length (fcb_tail (at_pos f ex' cr')) = 36%nat) by by apply length_fcb_tail, fcb_ok_at.
  set (t := fcb_tail _) in *. clearbody t. rewrite app_comm_cons.
  rewrite take_app_length' by (cbn; lia). rewrite drop_ge, app_nil_r; [done|].
  rewrite length_app, length_replicate. cbn. lia.
Qed.

Lemma read_at_short c off : (length (read_at c off 128) <= 128)%nat.
Proof. apply length_read_at. Qed.

Section Handlers.
Context (s : server) (f : fcb) (extra : bytes) (path : str).
Context (Hok : fcb_ok f) (Hpath : path_of s f = Some path).

Definition read_seq_result : outcome bytes :=
  match open_rb (on s) path with
  | Raise e => if is_os_error e then Ret [255] else Raise e
  | Ret c =>
      match read_at c (seq_rec f * 128) 128 with
      | [] => Ret [1]
      | d => let '(ex, cr) := advance (f_ex f) (f_cr f) in
             if ex <? 256 then Ret (read_answer f ex cr d) else Raise ValueError
      end
  end.

Lemma read_seq_spec : handle_read_seq (wire f ++ extra) s = (read_seq_result, s).
Proof.
  unfold handle_read_seq. rewrite wire_drive, wire_name, wire_ex, wire_cr by done.
  unfold mbind at 1, stM_bind at 1, lift at 1. unfold mbind at 1, stM_bind at 1, get.
  unfold path_of in Hpath. rewrite Hpath. fold (seq_rec f).
  unfold try_os, catch, host_ask, mbind, stM_bind, read_seq_result.
  destruct (open_rb (on s) path) as [c|e]; [|by destruct (is_os_error e)].
  pose proof (read_at_short c (seq_rec f * 128)) as Hd.
  destruct (read_at c (seq_rec f * 128) 128) as [|b d]; [done|].
  destruct (advance (f_ex f) (f_cr f)) as [ex cr] eqn:Ea.
  destruct (fcb_ok_bytes f Hok) as [He Hc].
  destruct (advance_ranges _ _ _ _ He Hc Ea) as [Hex Hcr]. unfold lift.
  destruct (Z.ltb_spec ex 256).
  - rewrite wire_sector by (unfold is_byte in *; auto; lia). done.
  - unfold sector_response. rewrite wire_response_bad by (unfold is_byte in *; lia). done.
Qed.

Definition read_rand_result : outcome bytes :=
  match open_rb (on s) path with
  | Raise e => if is_os_error e then Ret [255] else Raise e
  | Ret c =>
      match read_at c (rand_rec f * 128) 128 with
      | [] => Ret [6]
      | d => Ret (read_answer f ((rand_rec f / 128) mod 32) (rand_rec f mod 128) d)
      end
  end.

Lemma read_rand_spec : handle_read_rand (wire f ++ extra) s = (read_rand_result, s).
Proof.
  unfold handle_read_rand. rewrite wire_drive, wire_name, wire_rec, length_wire by done.
  unfold mbind at 1, stM_bind at 1, lift at 1. unfold mbind at 1, stM_bind at 1, get.
  unfold path_of in Hpath. rewrite Hpath. rewrite decide_False by lia.
  unfold mbind at 1, stM_bind at 1, lift at 1.
  unfold try_os, catch, host_ask, mbind, stM_bind, read_rand_result.
  destruct (open_rb (on s) path) as [c|e]; [|by destruct (is_os_error e)].
  pose proof (read_at_short c (rand_rec f * 128)) as Hd.
  destruct (read_at c (rand_rec f * 128) 128) as [|b d]; [done|].
  destruct (random_position_ranges (rand_rec f)) as [He Hc].
  unfold lift. by rewrite wire_sector.
Qed.

(** The file calls of a write: open for update or create, then [body]. *)
Definition stored (body : bytes -> bytes) : outcome unit * host :=
  open_write (if exists_ (on s) path then RPlusB else WB) path body (on s).

(** The outcome of a write whose file calls are done. *)
Definition write_result (o : outcome unit) (ok : outcome bytes) : outcome bytes :=
  match o with
  | Ret _ => ok
  | Raise e => if is_os_error e then Ret [255] else Raise e
  end.

Lemma write_rand_spec :
  (128 <= length extra)%nat ->
  let r := stored (fun c => write_at c (rand_rec f * 128) (take 128 extra)) in
  handle_write_rand (wire f ++ extra) s =
  (write_result r.1 (Ret (0 :: fcb_tail (at_pos f ((rand_rec f / 128) mod 32) (rand_rec f mod 128)))),
   set_host s r.2).
Proof.
  intros Hx r. unfold handle_write_rand. rewrite wire_drive, wire_name, wire_rec, length_wire by done.
  unfold mbind at 1, stM_bind at 1, lift at 1. unfold mbind at 1, stM_bind at 1, get.
  unfold path_of in Hpath. rewrite Hpath. rewrite decide_False by lia.
  unfold mbind at 1, stM_bind at 1, lift at 1. rewrite decide_False by lia. cbv zeta.
  rewrite (wire_data f extra Hok : slice 37 (37 + 128) _ = _).
  unfold try_os, catch, write_mode, gets, host_call, mbind, stM_bind.
  fold (stored (fun c => write_at c (rand_rec f * 128) (take 128 extra))). fold r.
  destruct (random_position_ranges (rand_rec f)) as [He Hc].
  destruct (fst r) as [[]|e]; cbn [write_result]; [|by destruct (is_os_error e)].
  rewrite (wire_response f extra Hok 0) by done. cbn [replicate]. by rewrite app_nil_r.
Qed.

Lemma write_rand_zf_spec :
  (128 <= length extra)%nat ->
  let r := stored (fun c => write_at (zero_fill (rand_rec f * 128) c) (rand_rec f * 128)
                              (take 128 extra)) in
  handle_write_rand_zf (wire f ++ extra) s =
  (write_result r.1 (Ret (0 :: fcb_tail (at_pos f ((rand_rec f / 128) mod 32) (rand_rec f mod 128)))),
   set_host s r.2).
Proof.
  intros Hx r. unfold handle_write_rand_zf. rewrite wire_drive, wire_name, wire_rec, length_wire by done.
  unfold mbind at 1, stM_bind at 1, lift at 1. unfold mbind at 1, stM_bind at 1, get.
  unfold path_of in Hpath. rewrite Hpath. rewrite decide_False by lia.
  unfold mbind at 1, stM_bind at 1, lift at 1. rewrite decide_False by lia. cbv zeta.
  rewrite (wire_data f extra Hok : slice 37 (37 + 128) _ = _).
  unfold try_os, catch, write_mode, gets, host_call, mbind, stM_bind.
  fold (stored (fun c => write_at (zero_fill (rand_rec f * 128) c) (rand_rec f * 128)
                              (take 128 extra))). fold r.
  destruct (random_position_ranges (rand_rec f)) as [He Hc].
  destruct (fst r) as [[]|e]; cbn [write_result]; [|by destruct (is_os_error e)].
  rewrite (wire_response f extra Hok 0) by done. cbn [replicate]. by rewrite app_nil_r.
Qed.

Lemma wire_copy ex cr :
  is_byte ex -> is_byte cr ->
  store (fcb_tail f) 12 ex = Ret (<[12%nat := ex]> (fcb_tail f)) /\
  (if decide (32 < length (<[12%nat := ex]> (fcb_tail f)))%nat
   then store (<[12%nat := ex]> (fcb_tail f)) 32 cr else Ret (<[12%nat := ex]> (fcb_tail f)))
  = Ret (fcb_tail (at_pos f ex cr)).
Proof.
  intros He Hc. assert (Hl := length_fcb_tail f Hok). split; [apply store_in; [done|lia]|].
  rewrite decide_True by (rewrite length_insert; lia).
  rewrite store_in by (rewrite ?length_insert; auto; lia). clear Hl. by explode f Hok.
Qed.

Lemma write_seq_spec :
  (128 <= length extra)%nat ->
  let r := stored (fun c => write_at c (seq_rec f * 128) (take 128 extra)) in
  let '(ex, cr) := advance (f_ex f) (f_cr f) in
  handle_write_seq (wire f ++ extra) s =
  (write_result r.1 (if ex <? 256 then Ret (0 :: fcb_tail (at_pos f ex cr)) else Raise ValueError),
   set_host s r.2).
Proof.
  intros Hx r. destruct (advance (f_ex f) (f_cr f)) as [ex cr] eqn:Ea.
  unfold handle_write_seq. rewrite wire_drive, wire_name, wire_ex, wire_cr, length_wire, wire_tail by done.
  unfold mbind at 1, stM_bind at 1, lift at 1. unfold mbind at 1, stM_bind at 1, get.
  unfold path_of in Hpath. rewrite Hpath. rewrite decide_False by lia. cbv zeta. rewrite Ea.
  rewrite (wire_data f extra Hok : slice 37 (37 + 128) _ = _). fold (seq_rec f).
  unfold try_os, catch, write_mode, gets, host_call, mbind, stM_bind.
  fold (stored (fun c => write_at c (seq_rec f * 128) (take 128 extra))). fold r.
  destruct (fst r) as [[]|e]; cbn [write_result]; [|by destruct (is_os_error e)].
  destruct (fcb_ok_bytes f Hok) as [He Hc].
  destruct (advance_ranges _ _ _ _ He Hc Ea) as [Hex Hcr]. unfold lift.
  destruct (Z.ltb_spec ex 256).
  - destruct (wire_copy ex cr) as [H1 H2]; [unfold is_byte; lia | done |]. rewrite H1, H2. done.
  - unfold store. destruct (is_byteb ex) eqn:E; [|done].
    apply is_byteb_spec in E. unfold is_byte in E. lia.
Qed.

Lemma file_size_spec :
  handle_file_size (wire f ++ extra) s =
  (match exists_ (on s) path, getsize (on s) path with
   | false, _ => Ret [255]
   | true, Raise e => Raise e
   | true, Ret size =>
       let n := records_of size in
       Ret (0 :: fcb_tail (Fcb (f_user f) (f_drive f) (f_name f) (f_ex f) (f_map f) (f_cr f)
              (Z.land n 255) (Z.land (Z.shiftr n 8) 255) (Z.land (Z.shiftr n 16) 255)))
   end, s).
Proof.
  unfold handle_file_size. rewrite wire_drive, wire_name, wire_tail by done.
  unfold mbind at 1, stM_bind at 1, lift at 1. unfold mbind at 1, stM_bind at 1, get.
  unfold path_of in Hpath. rewrite Hpath. destruct (exists_ (on s) path); [|done]. cbn [negb].
  unfold mbind at 1, stM_bind, host_ask. destruct (getsize (on s) path) as [size|e]; [|done].
  cbv zeta. cbn [stores].
  assert (Hb : forall x, is_byteb (Z.land x 255) = true) by (intros x; apply is_byteb_spec, u8_range).
  unfold store. rewrite !Hb. unfold lift. explode f Hok. reflexivity.
Qed.
End Handlers.

(** ** Lemmas for the properties *)

(** The three write handlers, with the record each addresses. *)
Inductive write_op (f : fcb) : handler -> Z -> Prop :=
  | op_write_seq : write_op f handle_write_seq (seq_rec f)
  | op_write_rand : write_op f handle_write_rand (rand_rec f)
  | op_write_rand_zf : write_op f handle_write_rand_zf (rand_rec f).

Lemma fcb_ok_random f : fcb_ok f -> is_byte (f_r0 f) /\ is_byte (f_r1 f) /\ is_byte (f_r2 f).
Proof.
  intros (Hb & _). unfold wire, fcb_tail in Hb.
  rewrite !Forall_cons, !Forall_app, !Forall_cons, !Forall_app, !Forall_cons in Hb. tauto.
Qed.

Lemma rand_rec_sum f : fcb_ok f -> rand_rec f = f_r0 f + 256 * f_r1 f + 65536 * f_r2 f.
Proof.
  intros (H0 & H1 & H2)%fcb_ok_random. unfold rand_rec, is_byte in *.
  rewrite (lor_shiftl (f_r0 f)) by lia. rewrite lor_shiftl by lia. lia.
Qed.

Lemma rec_nonneg f w rec : fcb_ok f -> write_op f w rec -> 0 <= rec.
Proof.
  intros Hok Hop. pose proof (rand_rec_sum f Hok). pose proof (fcb_ok_random f Hok).
  pose proof (fcb_ok_bytes f Hok). unfold is_byte in *. destruct Hop; unfold seq_rec; lia.
Qed.

(** The bytes of a file after a sector was written, by position. *)
Definition sector_written (c : bytes) (rec : Z) (data c' : bytes) : Prop :=
  forall i, c' !! i =
    if decide (Z.to_nat (rec * 128) <= i < Z.to_nat (rec * 128) + 128)%nat
    then data !! (i - Z.to_nat (rec * 128))%nat
    else if decide (i < length c)%nat then c !! i
    else if decide (i < Z.to_nat (rec * 128))%nat then Some 0 else None.

Lemma write_at_sector c rec data :
  0 <= rec -> length data = 128%nat -> sector_written c rec data (write_at c (rec * 128) data).
Proof.
  intros Hr Hd i. rewrite lookup_write_at by lia. rewrite Hd.
  repeat case_decide; try lia; try done. apply lookup_ge_None. lia.
Qed.

Lemma lookup_zero_fill off c i : 0 <= off ->
  zero_fill off c !! i =
  if decide (i < length c)%nat then c !! i
  else if decide (i < Z.to_nat off)%nat then Some 0 else None.
Proof.
  intros Hoff. unfold zero_fill, zlength. destruct (Z.ltb_spec (Z.of_nat (length c)) off) as [H|H].
  - destruct (decide (i < length c)%nat); [by apply lookup_app_l|].
    rewrite lookup_app_r by lia. case_decide.
    + apply lookup_replicate_2. lia.
    + apply lookup_ge_None. rewrite length_replicate. lia.
  - repeat case_decide; try lia; [done|]. apply lookup_ge_None. lia.
Qed.

Lemma zero_fill_sector c rec data :
  0 <= rec -> length data = 128%nat ->
  sector_written c rec data (write_at (zero_fill (rec * 128) c) (rec * 128) data).
Proof.
  intros Hr Hd i. rewrite lookup_write_at by lia. rewrite Hd.
  assert (Hl : length (zero_fill (rec * 128) c) = Nat.max (length c) (Z.to_nat (rec * 128))).
  { unfold zero_fill, zlength. case_if; rewrite ?length_app, ?length_replicate; lia. }
  rewrite Hl, lookup_zero_fill by lia. repeat case_decide; try lia; done.
Qed.

(** The file calls of any of the three writes, when the answer was success. *)
Lemma write_op_inv f w rec data extra s path r s' :
  fcb_ok f -> path_of s f = Some path -> write_op f w rec -> length data = 128%nat ->
  w (wire f ++ data ++ extra) s = (Ret (0 :: r), s') ->
  exists body h', stored s path body = (Ret tt, h') /\ s' = set_host s h' /\
    forall c, sector_written c rec data (body c).
Proof.
  intros Hok Hp Hop Hd H. assert (Hx : (128 <= length (data ++ extra))%nat)
    by (rewrite length_app; lia).
  assert (Ht : take 128 (data ++ extra) = data) by by rewrite <- Hd, take_app_length.
  pose proof (rec_nonneg f w rec Hok Hop) as Hrec.
  destruct Hop.
  - pose proof (write_seq_spec s f (data ++ extra) path Hok Hp Hx) as E.
    destruct (advance (f_ex f) (f_cr f)) as [ex cr]. rewrite H, Ht in E.
    set (body := fun c => _) in E. destruct (stored s path body) as [[[]|e] h'] eqn:Es; cbn in E.
    + injection E as _ ->. eexists body, h'. split_and!; auto. intros c. by apply write_at_sector.
    + destruct (is_os_error e); discriminate E.
  - rewrite (write_rand_spec s f (data ++ extra) path Hok Hp Hx), Ht in H.
    set (body := fun c => _) in H. destruct (stored s path body) as [[[]|e] h'] eqn:Es; cbn in H.
    + injection H as _ <-. eexists body, h'. split_and!; auto. intros c. by apply write_at_sector.
    + destruct (is_os_error e); discriminate H.
  - rewrite (write_rand_zf_spec s f (data ++ extra) path Hok Hp Hx), Ht in H.
    set (body := fun c => _) in H. destruct (stored s path body) as [[[]|e] h'] eqn:Es; cbn in H.
    + injection H as _ <-. eexists body, h'. split_and!; auto. intros c. by apply zero_fill_sector.
    + destruct (is_os_error e); discriminate H.
Qed.

(** Opening for update or create finds the file, or starts an empty one. *)
Lemma stored_inv s path body h' :
  stored s path body = (Ret tt, h') ->
  exists q c, locate (on s) path = Ret q /\ is_dir (fs (on s)) q = false /\
    (fs (on s) !! q = Some (NFile c) \/ fs (on s) !! q = None /\ c = []) /\
    h' = with_fs (on s) (<[q := NFile (body c)]> (fs (on s))).
Proof.
  unfold stored. intros H. apply open_write_inv in H as (q & c & Hq & Hd & -> & Hc).
  exists q, c. split_and!; [done|done| |done].
  unfold locate in Hq. destruct (resolve (on s) path) as [q'|] eqn:Er; [|done]. cbn in Hq.
  destruct (decide _); [done|]. injection Hq as ->. unfold exists_ in Hc. rewrite Er in Hc.
  unfold is_dir in Hd. destruct (fs (on s) !! q) as [[]|] eqn:Ef; destruct Hc as [[? ?]|[? ->]];
    simplify_eq; auto.
Qed.

(** A file's content after a write, as the host reads it back. *)
Lemma stored_open_rb s path body h' :
  stored s path body = (Ret tt, h') -> exists c, open_rb h' path = Ret (body c).
Proof.
  intros (q & c & Hq & Hd & _ & ->)%stored_inv. exists c.
  unfold open_rb. rewrite locate_insert_file, Hq by done. cbn. by rewrite lookup_insert_eq.
Qed.

Lemma read_sector_written c rec data c' :
  0 <= rec -> length data = 128%nat -> sector_written c rec data c' ->
  read_at c' (rec * 128) 128 = data.
Proof.
  intros Hr Hd Hs. unfold read_at. rewrite takeZ_take, dropZ_drop. apply list_eq. intros i.
  change (Z.to_nat 128) with 128%nat. destruct (decide (i < 128)%nat) as [Hi|Hi].
  - rewrite lookup_take_lt, lookup_drop, Hs by done.
    rewrite decide_True by lia. f_equal. lia.
  - rewrite lookup_take_ge by lia. symmetry. apply lookup_ge_None. lia.
Qed.

Lemma ljust_full d : length d = 128%nat -> ljust 128 26 d = d.
Proof. intros H. unfold ljust. by rewrite H, app_nil_r. Qed.

(** An FCB for the same file, seen by the server after the host changed. *)
Lemma path_of_set_host s h f : path_of (set_host s h) f = path_of s f.
Proof. reflexivity. Qed.

Definition same_file (f g : fcb) : Prop := f_drive f = f_drive g /\ f_name f = f_name g.

Lemma path_of_same s f g : same_file f g -> path_of s f = path_of s g.
Proof. intros [Hd Hn]. unfold path_of, drive_of. by rewrite Hd, Hn. Qed.

Lemma not_nil_128 (d : bytes) : length d = 128%nat -> exists b t, d = b :: t.
Proof. destruct d; [discriminate|eauto]. Qed.

Lemma read_seq_data s f extra path c d ex cr :
  fcb_ok f -> path_of s f = Some path -> open_rb (on s) path = Ret c ->
  read_at c (seq_rec f * 128) 128 = d -> d <> [] ->
  advance (f_ex f) (f_cr f) = (ex, cr) -> ex < 256 ->
  handle_read_seq (wire f ++ extra) s = (Ret (read_answer f ex cr d), s).
Proof.
  intros Hok Hp Hc Hd Hne Ha Hex. rewrite (read_seq_spec s f extra path Hok Hp).
  unfold read_seq_result. rewrite Hc, Hd, Ha. destruct d; [done|].
  by rewrite (proj2 (Z.ltb_lt _ _) Hex).
Qed.

Lemma read_rand_data s f extra path c d :
  fcb_ok f -> path_of s f = Some path -> open_rb (on s) path = Ret c ->
  read_at c (rand_rec f * 128) 128 = d -> d <> [] ->
  handle_read_rand (wire f ++ extra) s =
  (Ret (read_answer f ((rand_rec f / 128) mod 32) (rand_rec f mod 128) d), s).
Proof.
  intros Hok Hp Hc Hd Hne. rewrite (read_rand_spec s f extra path Hok Hp).
  unfold read_rand_result. rewrite Hc, Hd. by destruct d.
Qed.

(** *** A client that copies a whole file *)

(** The FCB a client keeps after an answer: EX and CR taken over. *)
Definition reload (f : fcb) (resp : bytes) : fcb := at_pos f (byte_or_0 resp 13) (byte_or_0 resp 33).

(** Read sequentially until the server answers something else than success. *)
Fixpoint read_all (n : nat) (f : fcb) : stM server (bytes * Z) :=
  match n with
  | O => raise OutOfFuel
  | S n' =>
      r ← handle_read_seq (wire f);
      match r with
      | 0 :: _ => rest ← read_all n' (reload f r); mret (slice 37 165 r ++ rest.1, rest.2)
      | rc :: _ => mret ([], rc)
      | [] => raise IndexError
      end
  end.

(** Write sectors sequentially, until one is refused. *)
Fixpoint write_all (sectors : list bytes) (f : fcb) : stM server Z :=
  match sectors with
  | [] => mret 0
  | d :: sectors' =>
      r ← handle_write_seq (wire f ++ d);
      match r with
      | 0 :: _ => write_all sectors' (reload f r)
      | rc :: _ => mret rc
      | [] => raise IndexError
      end
  end.

(** A file as CP/M sees it: whole records, the last filled up with 0x1A. *)
Definition padded (c : bytes) : bytes := ljust (128 * Z.to_nat (records_of (zlength c))) 26 c.

Lemma records_of_bounds n : 0 <= n ->
  128 * (records_of n - 1) < n <= 128 * records_of n.
Proof.
  intros Hn. unfold records_of.
  pose proof (Z.div_mod (n + 127) 128 ltac:(lia)). pose proof (Z.mod_pos_bound (n + 127) 128 ltac:(lia)).
  lia.
Qed.

Lemma length_padded_file c : length (padded c) = (128 * Z.to_nat (records_of (zlength c)))%nat.
Proof.
  unfold padded. rewrite length_ljust. unfold zlength.
  pose proof (records_of_bounds (Z.of_nat (length c))). lia.
Qed.

Lemma lookup_ljust n x l i : (i < n)%nat -> ljust n x l !! i =
  if decide (i < length l)%nat then l !! i else Some x.
Proof.
  intros Hi. unfold ljust. case_decide; [by apply lookup_app_l|].
  rewrite lookup_app_r by lia. apply lookup_replicate_2. lia.
Qed.

(** The sector a read returns is that record of the padded file. *)
Lemma padded_sector c k :
  (Z.of_nat k < records_of (zlength c)) ->
  ljust 128 26 (read_at c (Z.of_nat k * 128) 128) = take 128 (drop (k * 128) (padded c)).
Proof.
  intros Hk. apply list_eq. intros i. pose proof (records_of_bounds (zlength c)) as Hr.
  unfold zlength in *.
  unfold read_at. rewrite takeZ_take, dropZ_drop.
  replace (Z.to_nat (Z.of_nat k * 128)) with (k * 128)%nat by lia. change (Z.to_nat 128) with 128%nat.
  destruct (decide (i < 128)%nat) as [Hi|Hi].
  - rewrite lookup_ljust, (lookup_take_lt (drop _ (padded c))), lookup_drop by done.
    unfold padded, zlength. rewrite lookup_ljust by lia.
    rewrite length_take, length_drop. repeat case_decide; try lia; [|done].
    rewrite lookup_take_lt, lookup_drop by done. done.
  - rewrite (lookup_ge_None_2 (take 128 _)) by (rewrite length_take; lia).
    apply lookup_ge_None. rewrite length_ljust, length_take. lia.
Qed.

Lemma read_at_nonempty c k :
  Z.of_nat k < records_of (zlength c) -> read_at c (Z.of_nat k * 128) 128 <> [].
Proof.
  intros Hk H. pose proof (records_of_bounds (zlength c)). unfold zlength in *.
  apply (f_equal length) in H. unfold read_at in H.
  rewrite takeZ_take, dropZ_drop, length_take, length_drop in H. cbn in H. lia.
Qed.

Lemma read_at_past_end c k :
  records_of (zlength c) <= Z.of_nat k -> read_at c (Z.of_nat k * 128) 128 = [].
Proof.
  intros Hk. pose proof (records_of_bounds (zlength c)). unfold zlength in *.
  unfold read_at. rewrite takeZ_take, dropZ_drop. rewrite drop_ge by lia. apply take_nil.
Qed.

(** The FCB at record [k], CR below 128. *)
Definition at_record (f : fcb) (k : nat) : fcb := at_pos f (Z.of_nat k / 128) (Z.of_nat k mod 128).

Lemma seq_rec_at f k : seq_rec (at_record f k) = Z.of_nat k.
Proof. unfold seq_rec, at_record. cbn. pose proof (Z.div_mod (Z.of_nat k) 128). lia. Qed.

Lemma at_record_ok f k : fcb_ok f -> Z.of_nat k < 32768 -> fcb_ok (at_record f k).
Proof.
  intros Hok Hk. apply fcb_ok_at; [done| |]; unfold is_byte.
  - split; [apply Z.div_pos; lia|]. apply Z.div_lt_upper_bound; lia.
  - pose proof (Z.mod_pos_bound (Z.of_nat k) 128). lia.
Qed.

Lemma advance_at_record f k :
  advance (f_ex (at_record f k)) (f_cr (at_record f k)) =
  (Z.of_nat (S k) / 128, Z.of_nat (S k) mod 128).
Proof.
  unfold advance, at_record. cbn [f_ex f_cr at_pos].
  pose proof (Z.div_mod (Z.of_nat k) 128 ltac:(lia)).
  pose proof (Z.mod_pos_bound (Z.of_nat k) 128 ltac:(lia)).
  destruct (Z.leb_spec 128 (Z.of_nat k mod 128 + 1)); f_equal.
  - apply Z.div_unique_pos with 0; lia.
  - apply Z.mod_unique_pos with (Z.of_nat k / 128 + 1); lia.
  - apply Z.div_unique_pos with (Z.of_nat k mod 128 + 1); lia.
  - apply Z.mod_unique_pos with (Z.of_nat k / 128); lia.
Qed.

Lemma at_record_ex k : Z.of_nat k < 32767 -> Z.of_nat (S k) / 128 < 256.
Proof. intros Hk. apply Z.div_lt_upper_bound; lia. Qed.

(** What a client makes of a successful answer. *)
Lemma reload_answer f k d :
  fcb_ok f -> Z.of_nat k < 32767 -> length d = 128%nat ->
  let r := read_answer (at_record f k) (Z.of_nat (S k) / 128) (Z.of_nat (S k) mod 128) d in
  reload (at_record f k) r = at_record f (S k) /\ slice 37 165 r = d.
Proof.
  intros Hok Hk Hd r. subst r. unfold read_answer. rewrite ljust_full by done.
  set (ex := Z.of_nat (S k) / 128). set (cr := Z.of_nat (S k) mod 128). split.
  - unfold reload, at_record. fold ex cr. clearbody ex cr. by explode f Hok.
  - clearbody ex cr. assert (Hl : length (fcb_tail (at_pos (at_record f k) ex cr)) = 36%nat).
    { clear - Hok. unfold at_record. by explode f Hok. }
    set (t := fcb_tail _) in *. clearbody t. rewrite app_comm_cons. unfold slice.
    rewrite drop_app_length' by (cbn [length]; lia).
    apply take_ge. lia.
Qed.

Section Download.
Context (s : server) (f : fcb) (path : str) (c : bytes).
Context (Hok : fcb_ok f) (Hpath : path_of s f = Some path) (Hc : open_rb (on s) path = Ret c).

Lemma read_all_from m k :
  Z.of_nat (m + k) = records_of (zlength c) -> records_of (zlength c) <= 32767 ->
  read_all (S m) (at_record f k) s = (Ret (drop (k * 128) (padded c), 1), s).
Proof.
  revert k. induction m as [|m IH]; intros k Hm Hsize.
  - cbn [read_all]. unfold mbind, stM_bind. rewrite <- (app_nil_r (wire _)).
    rewrite (read_seq_spec s (at_record f k) [] path) by (try apply at_record_ok; try done; lia).
    unfold read_seq_result. rewrite Hc, seq_rec_at, read_at_past_end by lia.
    rewrite drop_ge; [done|]. rewrite length_padded_file. lia.
  - remember (S m) as n eqn:En. cbn [read_all].
    unfold mbind at 1, stM_bind at 1. rewrite <- (app_nil_r (wire _)).
    set (d := read_at c (Z.of_nat k * 128) 128).
    rewrite (read_seq_data s (at_record f k) [] path c d (Z.of_nat (S k) / 128) (Z.of_nat (S k) mod 128));
      [|apply at_record_ok; [done|lia]|done|done|by rewrite seq_rec_at|apply read_at_nonempty; lia
       |apply advance_at_record|apply at_record_ex; lia].
    destruct (reload_answer f k (ljust 128 26 d)) as [Hr Hs]; [done|lia| |].
    { apply length_padded. }
    unfold read_answer in *. rewrite (ljust_full (ljust 128 26 d)) in * by apply length_padded.
    set (r := 0 :: _) in *. cbv iota beta. rewrite Hr, Hs.
    unfold mbind, stM_bind. rewrite IH by lia. cbn [fst snd mret stM_ret].
    subst d. rewrite padded_sector by lia.
    unfold mret, stM_ret. do 3 f_equal. replace (S k * 128)%nat with (k * 128 + 128)%nat by lia.
    rewrite <- drop_drop. apply take_drop.
Qed.

(** A download delivers the whole file. *)
Lemma read_all_file :
  f_ex f = 0 -> f_cr f = 0 -> records_of (zlength c) <= 32767 ->
  read_all (S (Z.to_nat (records_of (zlength c)))) f s = (Ret (padded c, 1), s).
Proof.
  intros He Hcr Hsize. assert (E : at_record f 0 = f).
  { unfold at_record. cbn. destruct f; cbn in *; by subst. }
  rewrite <- E. rewrite read_all_from; [done| |done].
  pose proof (records_of_bounds (zlength c)). unfold zlength in *. lia.
Qed.
End Download.

(** Updating an existing file. *)
Lemma stored_existing s path c body :
  open_rb (on s) path = Ret c ->
  exists h', stored s path body = (Ret tt, h') /\ open_rb h' path = Ret (body c).
Proof.
  intros Hc. unfold open_rb in Hc. destruct (locate (on s) path) as [q|] eqn:El; [|done].
  cbn in Hc. destruct (fs (on s) !! q) as [[c'|]|] eqn:Ef; [|done..]. injection Hc as ->.
  pose proof El as El'. unfold locate in El'.
  destruct (resolve (on s) path) as [q'|] eqn:Er; [|done]. cbn in El'.
  destruct (decide _); [done|]. injection El' as ->.
  assert (He : exists_ (on s) path = true) by (unfold exists_; by rewrite Er, Ef).
  unfold stored. rewrite He. unfold open_write. rewrite El, Ef.
  eexists. split; [reflexivity|]. unfold open_rb.
  rewrite locate_insert_file by (unfold is_dir; by rewrite Ef). rewrite El. cbn.
  by rewrite lookup_insert_eq.
Qed.

Lemma write_at_end c d : write_at c (zlength c) d = c ++ d.
Proof.
  unfold zlength. rewrite write_at_spec by lia. rewrite Nat2Z.id, Nat.sub_diag, take_ge by lia.
  cbn [replicate app]. rewrite drop_ge by lia. by rewrite app_nil_r.
Qed.

(** What a client makes of a successful write. *)
Lemma reload_write f k :
  fcb_ok f -> 
  reload (at_record f k)
    (0 :: fcb_tail (at_pos (at_record f k) (Z.of_nat (S k) / 128) (Z.of_nat (S k) mod 128)))
  = at_record f (S k).
Proof.
  intros Hok. set (ex := Z.of_nat (S k) / 128). set (cr := Z.of_nat (S k) mod 128).
  unfold reload, at_record. fold ex cr. clearbody ex cr. by explode f Hok.
Qed.

(** An upload appends its sectors. *)
Lemma write_all_from f path sectors s c k :
  fcb_ok f -> path_of s f = Some path -> open_rb (on s) path = Ret c ->
  Forall (fun d => length d = 128%nat) sectors ->
  zlength c = Z.of_nat k * 128 -> Z.of_nat (k + length sectors) <= 32767 ->
  exists h', write_all sectors (at_record f k) s = (Ret 0, set_host s h') /\
    open_rb h' path = Ret (c ++ concat sectors).
Proof.
  intros Hok Hpath Hc Hs. revert s c k Hpath Hc.
  induction Hs as [|d sectors Hd Hs IH]; intros s c k Hpath Hc Hk Hn; cbn [length] in Hn.
  - exists (on s). split; [by destruct s|]. cbn. by rewrite app_nil_r.
  - cbn [write_all]. unfold mbind, stM_bind.
    assert (Hokk : fcb_ok (at_record f k)) by (apply at_record_ok; [done|lia]).
    pose proof (write_seq_spec s (at_record f k) d path Hokk Hpath ltac:(lia)) as E.
    cbv zeta in E. rewrite advance_at_record, seq_rec_at, <- Hk, take_ge in E by lia.
    destruct (stored_existing s path c (fun c0 => write_at c0 (zlength c) d) Hc) as (h' & Hst & Ho).
    rewrite write_at_end in Ho. rewrite Hst in E. cbn [fst snd write_result] in E.
    rewrite (proj2 (Z.ltb_lt _ _) (at_record_ex k ltac:(lia))) in E. rewrite E.
    cbv iota beta. rewrite reload_write by done.
    destruct (IH (set_host s h') (c ++ d) (S k)) as (h2 & Hw & Ho2); [done|done| |lia|].
    { unfold zlength in *. rewrite length_app. lia. }
    exists h2. rewrite Hw. split; [done|]. cbn [concat]. by rewrite app_assoc.
Qed.

Lemma read_at_earlier c off rec :
  0 <= off <= rec -> read_at c (rec * 128) 128 <> [] -> read_at c (off * 128) 128 <> [].
Proof.
  unfold read_at. rewrite !takeZ_take, !dropZ_drop. intros Ho H1 H2. apply H1.
  apply (f_equal length) in H2. rewrite length_take, length_drop in H2. cbn in H2.
  rewrite drop_ge by lia. apply take_nil.
Qed.

Lemma open_rb_size h p c : open_rb h p = Ret c -> exists_ h p = true /\ getsize h p = Ret (zlength c).
Proof.
  unfold open_rb, locate, exists_, getsize. destruct (resolve h p) as [q|]; [|done]. cbn.
  destruct (decide _); [done|]. cbn. destruct (fs h !! q) as [[]|]; [|done..]. by intros [= ->].
Qed.

(** The three random-record bytes of a count. *)
Definition with_rand (f : fcb) (n : Z) : fcb :=
  Fcb (f_user f) (f_drive f) (f_name f) (f_ex f) (f_map f) (f_cr f)
    (Z.land n 255) (Z.land (Z.shiftr n 8) 255) (Z.land (Z.shiftr n 16) 255).

Lemma rand_rec_with f n : fcb_ok f -> rand_rec (with_rand f n) = n mod 16777216.
Proof.
  intros Hok.
  assert (Hok' : fcb_ok (with_rand f n)).
  { destruct Hok as (Hb & Hn & Hm). split; [|done]. revert Hb. unfold wire, fcb_tail. cbn.
    rewrite !Forall_cons, !Forall_app, !Forall_cons, !Forall_app, !Forall_cons, Forall_nil.
    pose proof (u8_range n). pose proof (u8_range (Z.shiftr n 8)). pose proof (u8_range (Z.shiftr n 16)).
    unfold u8 in *. tauto. }
  rewrite rand_rec_sum by done. cbn [f_r0 f_r1 f_r2 with_rand].
  change (Z.land ?x 255) with (u8 x). rewrite !u8_mod, !Z.shiftr_div_pow2 by lia.
  change (2 ^ 8) with 256. change (2 ^ 16) with 65536.
  change 16777216 with (256 * 65536). rewrite Z.rem_mul_r by lia.
  change 65536 with (256 * 256) at 3. rewrite (Z.rem_mul_r (n / 256)) by lia.
  rewrite Z.div_div by lia. change (256 * 256) with 65536. lia.
Qed.

(** ** Properties *)

(** A write changes one record of one file.  When any of the three write
    handlers answers with success, exactly one file of the host has changed:
    the 128 bytes of its addressed record are the request's data, every other
    byte it had is as before, and the gap up to a record beyond its end reads
    as zeros (for BDOS 34 as for BDOS 40, which writes the zeros itself).  A
    file that was not there is created. *)
Lemma writes_change_one_record w rec f data extra s path r s' :
  fcb_ok f -> path_of s f = Some path -> write_op f w rec -> length data = 128%nat ->
  w (wire f ++ data ++ extra) s = (Ret (0 :: r), s') ->
  exists q c c', locate (on s) path = Ret q /\
    (fs (on s) !! q = Some (NFile c) \/ fs (on s) !! q = None /\ c = []) /\
    s' = set_host s (with_fs (on s) (<[q := NFile c']> (fs (on s)))) /\
    sector_written c rec data c'.
Proof.
  intros Hok Hp Hop Hd H.
  destruct (write_op_inv f w rec data extra s path r s' Hok Hp Hop Hd H) as (body & h' & Hs & -> & Hb).
  apply stored_inv in Hs as (q & c & Hq & _ & Hc & ->). exists q, c, (body c). auto.
Qed.

Definition example_fcb_of (name : string) : fcb := Fcb 0 1 (chars name) 0 (replicate 19 0) 0 0 0 0.

(** What was written is read back.  After a write that answered success,
    both read handlers return exactly the 128 bytes written, whatever FCB of
    the same file addresses the record: the sequential one for records below
    32767, the random one always, and neither changes anything. *)
Lemma written_records_read_back w rec f data extra s path r s' g extra' :
  fcb_ok f -> path_of s f = Some path -> write_op f w rec -> length data = 128%nat ->
  w (wire f ++ data ++ extra) s = (Ret (0 :: r), s') ->
  fcb_ok g -> same_file f g ->
  (seq_rec g = rec -> rec < 32767 ->
   exists ex cr, advance (f_ex g) (f_cr g) = (ex, cr) /\
     handle_read_seq (wire g ++ extra') s' = (Ret (0 :: fcb_tail (at_pos g ex cr) ++ data), s')) /\
  (rand_rec g = rec ->
   exists ex cr, handle_read_rand (wire g ++ extra') s' =
     (Ret (0 :: fcb_tail (at_pos g ex cr) ++ data), s')).
Proof.
  intros Hok Hp Hop Hd H Hokg Hsame.
  destruct (write_op_inv f w rec data extra s path r s' Hok Hp Hop Hd H) as (body & h' & Hs & -> & Hb).
  destruct (stored_open_rb s path body h' Hs) as [c Hc].
  assert (Hread : read_at (body c) (rec * 128) 128 = data)
    by (eapply read_sector_written; eauto using rec_nonneg).
  rewrite (path_of_same s f g Hsame) in Hp.
  assert (Hne : data <> []) by by destruct data.
  split; intros <-.
  - intros Hlt. destruct (advance (f_ex g) (f_cr g)) as [ex cr] eqn:Ea. exists ex, cr.
    assert (Hex : ex < 256).
    { destruct (fcb_ok_bytes g Hokg) as [He Hcr]. unfold advance, seq_rec, is_byte in *.
      destruct (Z.leb_spec 128 (f_cr g + 1)); injection Ea as <- <-; lia. }
    split; [done|]. rewrite (read_seq_data _ g extra' path (body c) data ex cr) by done.
    unfold read_answer. by rewrite ljust_full.
  - eexists _, _. rewrite (read_rand_data _ g extra' path (body c) data) by done.
    unfold read_answer. by rewrite ljust_full.
Qed.

(** Copying a file.  A client that reads a file from its beginning, each
    time with the FCB of the last answer, receives the whole file, its last
    record filled up with 0x1A, and then end of file (1); and after a client
    has written sectors the same way to an empty file, reading it returns
    exactly those sectors.  Both for files of at most 32767 records. *)
Lemma copies_are_exact f path s c :
  fcb_ok f -> f_ex f = 0 -> f_cr f = 0 -> path_of s f = Some path ->
  open_rb (on s) path = Ret c -> records_of (zlength c) <= 32767 ->
  read_all (S (Z.to_nat (records_of (zlength c)))) f s = (Ret (padded c, 1), s) /\
  (forall sectors, c = [] -> Forall (fun d => length d = 128%nat) sectors ->
     zlength sectors <= 32767 ->
     exists s', write_all sectors f s = (Ret 0, s') /\
       read_all (S (length sectors)) f s' = (Ret (concat sectors, 1), s')).
Proof.
  intros Hok He Hcr Hpath Hc Hsize. split; [by eapply read_all_file|].
  intros sectors -> Hs Hn. unfold zlength in Hn.
  assert (E : at_record f 0 = f) by (unfold at_record; cbn; destruct f; cbn in *; by subst).
  destruct (write_all_from f path sectors s [] 0 Hok Hpath Hc Hs eq_refl Hn) as (h' & Hw & Ho).
  rewrite E in Hw. exists (set_host s h'). split; [done|]. cbn [app] in Ho.
  assert (Hl : length (concat sectors) = (128 * length sectors)%nat).
  { clear -Hs. induction Hs as [|d l Hd Hs IH]; [done|]. cbn. rewrite length_app. lia. }
  assert (Hr : records_of (zlength (concat sectors)) = Z.of_nat (length sectors)).
  { unfold records_of, zlength. rewrite Hl. symmetry. apply Z.div_unique_pos with 127; lia. }
  pose proof (read_all_file (set_host s h') f path (concat sectors) Hok Hpath Ho He Hcr) as H.
  rewrite Hr, Nat2Z.id in H. rewrite H by done. do 3 f_equal.
  unfold padded. rewrite Hr, Nat2Z.id. unfold ljust. rewrite Hl, Nat.sub_diag. apply app_nil_r.
Qed.

(** What was written is read back, and files are copied whole.  After a write
    that answered success, both read handlers return exactly the 128 bytes written,
    whatever FCB of the same file addresses the record: the sequential one for
    records below 32767, the random one always, and neither changes anything.  A
    client that reads a file from its beginning, each time with the FCB of the last
    answer, receives the whole file, its last record filled up with 0x1A, and then
    end of file (1); and after a client has written sectors the same way to an
    empty file, reading it returns exactly those sectors.  Copies are of at most
    32767 records. *)
Lemma written_files_read_back :
  (forall w rec f data extra s path r s' g extra',
  fcb_ok f -> path_of s f = Some path -> write_op f w rec -> length data = 128%nat ->
  w (wire f ++ data ++ extra) s = (Ret (0 :: r), s') ->
  fcb_ok g -> same_file f g ->
  (seq_rec g = rec -> rec < 32767 ->
   exists ex cr, advance (f_ex g) (f_cr g) = (ex, cr) /\
     handle_read_seq (wire g ++ extra') s' = (Ret (0 :: fcb_tail (at_pos g ex cr) ++ data), s')) /\
  (rand_rec g = rec ->
   exists ex cr, handle_read_rand (wire g ++ extra') s' =
     (Ret (0 :: fcb_tail (at_pos g ex cr) ++ data), s'))) /\
  (forall f path s c,
  fcb_ok f -> f_ex f = 0 -> f_cr f = 0 -> path_of s f = Some path ->
  open_rb (on s) path = Ret c -> records_of (zlength c) <= 32767 ->
  read_all (S (Z.to_nat (records_of (zlength c)))) f s = (Ret (padded c, 1), s) /\
  (forall sectors, c = [] -> Forall (fun d => length d = 128%nat) sectors ->
     zlength sectors <= 32767 ->
     exists s', write_all sectors f s = (Ret 0, s') /\
       read_all (S (length sectors)) f s' = (Ret (concat sectors, 1), s'))).
Proof. split; [exact written_records_read_back|exact copies_are_exact]. Qed.

(** C5: what writing does, and that it is read back.  When any of the three write handlers
    answers with success, exactly one file of the host has changed: the 128 bytes of its
    addressed record are the request's data, every other byte it had is as before, and
    the gap up to a record beyond its end reads as zeros; a file that was not there is
    created.  Both read handlers then return exactly the bytes written, whatever FCB of
    the same file addresses the record: the sequential one for records below 32767, the
    random one always, and neither changes anything.  A client that reads a file from
    its beginning, each time with the FCB of the last answer, receives the whole file,
    its last record filled up with 0x1A, and then end of file; and sectors written the
    same way to an empty file are read back.  Copies are of at most 32767 records. *)
Theorem files_are_written_and_read :
  (forall w rec f data extra s path r s',
  fcb_ok f -> path_of s f = Some path -> write_op f w rec -> length data = 128%nat ->
  w (wire f ++ data ++ extra) s = (Ret (0 :: r), s') ->
  exists q c c', locate (on s) path = Ret q /\
    (fs (on s) !! q = Some (NFile c) \/ fs (on s) !! q = None /\ c = []) /\
    s' = set_host s (with_fs (on s) (<[q := NFile c']> (fs (on s)))) /\
    sector_written c rec data c') /\
  ((forall w rec f data extra s path r s' g extra',
  fcb_ok f -> path_of s f = Some path -> write_op f w rec -> length data = 128%nat ->
  w (wire f ++ data ++ extra) s = (Ret (0 :: r), s') ->
  fcb_ok g -> same_file f g ->
  (seq_rec g = rec -> rec < 32767 ->
   exists ex cr, advance (f_ex g) (f_cr g) = (ex, cr) /\
     handle_read_seq (wire g ++ extra') s' = (Ret (0 :: fcb_tail (at_pos g ex cr) ++ data), s')) /\
  (rand_rec g = rec ->
   exists ex cr, handle_read_rand (wire g ++ extra') s' =
     (Ret (0 :: fcb_tail (at_pos g ex cr) ++ data), s'))) /\
  (forall f path s c,
  fcb_ok f -> f_ex f = 0 -> f_cr f = 0 -> path_of s f = Some path ->
  open_rb (on s) path = Ret c -> records_of (zlength c) <= 32767 ->
  read_all (S (Z.to_nat (records_of (zlength c)))) f s = (Ret (padded c, 1), s) /\
  (forall sectors, c = [] -> Forall (fun d => length d = 128%nat) sectors ->
     zlength sectors <= 32767 ->
     exists s', write_all sectors f s = (Ret 0, s') /\
       read_all (S (length sectors)) f s' = (Ret (concat sectors, 1), s')))).
Proof. split; [exact writes_change_one_record|exact written_files_read_back]. Qed.

Lemma files_are_written_and_read_witness :
  (exists c', sector_written [1; 2] 1 (replicate 128 7) c') /\
  ((exists s' ex cr, let f := example_fcb_of "NEW     DAT" in
    handle_read_seq (wire f ++ []) s' = (Ret (0 :: fcb_tail (at_pos f ex cr) ++ replicate 128 9), s')) /\
  (let s := example_server [(chars "A.TXT", replicate 130 65)] in
  read_all 3 (example_fcb_of "A       TXT") s
  = (Ret (replicate 130 65 ++ replicate 126 26, 1), s))).
Proof.
  split.
  { set (s := example_server [(chars "A.TXT", [1; 2])]).
  set (f := at_pos (example_fcb_of "A       TXT") 0 1).
  assert (Hf : fcb_ok f) by (split; [vm_compute; repeat constructor; discriminate|done]).
  destruct ((proj1 files_are_written_and_read) handle_write_seq 1 f (replicate 128 7) [] s (chars "/d/A.TXT")
    (fcb_tail (at_pos f 0 2))
    (snd (handle_write_seq (wire f ++ replicate 128 7 ++ []) s)) Hf eq_refl (op_write_seq f) eq_refl
    ltac:(vm_compute; reflexivity)) as (q & c & c' & Hq & Hc & _ & Hw).
  exists c'. vm_compute in Hq. injection Hq as <-.
  destruct Hc as [Hc|[Hc _]]; vm_compute in Hc; [injection Hc as <-; exact Hw|discriminate]. }
  { split.
  { set (s := example_server []). set (f := example_fcb_of "NEW     DAT").
  assert (Hf : fcb_ok f) by (split; [vm_compute; repeat constructor; discriminate|done]).
  destruct (proj1 ((proj1 (proj2 files_are_written_and_read)) handle_write_rand 0 f (replicate 128 9) [] s
    (chars "/d/NEW.DAT") (fcb_tail (at_pos f 0 0))
    (snd (handle_write_rand (wire f ++ replicate 128 9 ++ []) s)) f [] Hf eq_refl
    (op_write_rand f) eq_refl ltac:(vm_compute; reflexivity) Hf (conj eq_refl eq_refl))
    eq_refl eq_refl) as (ex & cr & _ & H).
  eexists _, ex, cr. exact H. }
  { refine (proj1 ((proj2 (proj2 files_are_written_and_read)) (example_fcb_of "A       TXT") (chars "/d/A.TXT")
    (example_server [(chars "A.TXT", replicate 130 65)]) (replicate 130 65) _ eq_refl eq_refl
    eq_refl eq_refl _)).
  - split; [vm_compute; repeat constructor; discriminate|done].
  - vm_compute. discriminate. } }
Defined.

(** Where a random read leaves the file.  The FCB a random read returns
    stands at record [rand_rec mod 4096] for sequential access: the next
    sequential read fetches that record, which is the one just read only below
    record 4096 (half a megabyte). *)
Lemma random_read_position f extra path s c r s' :
  fcb_ok f -> path_of s f = Some path -> open_rb (on s) path = Ret c ->
  handle_read_rand (wire f ++ extra) s = (Ret (0 :: r), s') ->
  let g := reload f (0 :: r) in
  s' = s /\ seq_rec g = rand_rec f mod 4096 /\
  (seq_rec g = rand_rec f <-> rand_rec f < 4096) /\
  exists ex cr, handle_read_seq (wire g) s =
    (Ret (read_answer g ex cr (read_at c (rand_rec f mod 4096 * 128) 128)), s).
Proof.
  intros Hok Hpath Hc H g.
  assert (Hr : read_at c (rand_rec f * 128) 128 <> [] /\ s' = s /\
    g = at_pos f ((rand_rec f / 128) mod 32) (rand_rec f mod 128)).
  { pose proof (read_rand_spec s f extra path Hok Hpath) as E. unfold read_rand_result in E.
    rewrite Hc, H in E. destruct (read_at c (rand_rec f * 128) 128) eqn:Ed; [done|].
    injection E as -> ->. split_and!; [done|done|]. subst g. unfold reload.
    set (ex := (rand_rec f / 128) mod 32). set (cr := rand_rec f mod 128). clearbody ex cr.
    clear -Hok. by explode f Hok. }
  destruct Hr as (Hne & -> & Hg).
  pose proof (rand_rec_sum f Hok) as Hsum. pose proof (fcb_ok_random f Hok) as Hb. unfold is_byte in Hb.
  assert (Hpos : 0 <= rand_rec f) by lia.
  assert (Hseq : seq_rec g = rand_rec f mod 4096).
  { rewrite Hg. unfold seq_rec. cbn. change 4096 with (128 * 32).
    rewrite Z.rem_mul_r by lia. lia. }
  pose proof (Z.mod_pos_bound (rand_rec f) 4096 ltac:(lia)) as Hm.
  pose proof (Z.mod_le (rand_rec f) 4096 ltac:(lia) ltac:(lia)) as Hle.
  split_and!; [done|done| |].
  - rewrite Hseq. split; [lia|]. intros. apply Z.mod_small. lia.
  - destruct (random_position_ranges (rand_rec f)) as [He Hcr].
    assert (Hgok : fcb_ok g) by (rewrite Hg; by apply fcb_ok_at).
    destruct (advance (f_ex g) (f_cr g)) as [ex cr] eqn:Ea. exists ex, cr.
    rewrite <- (app_nil_r (wire g)), <- Hseq.
    apply (read_seq_data s g [] path c); [done|by rewrite Hg|done|done| |done|].
    + rewrite Hseq. apply (read_at_earlier c _ (rand_rec f)); [lia|done].
    + rewrite Hg in Ea. unfold advance in Ea. cbn in Ea.
      pose proof (Z.mod_pos_bound (rand_rec f / 128) 32 ltac:(lia)).
      destruct (128 <=? _); injection Ea as <- <-; lia.
Qed.

(** The end of the sequential range.  At record 32767 (EX 255, CR 127) or
    beyond, a sequential transfer cannot report the next position: when there is
    data to read, the read raises [ValueError]; a write stores its sector and
    then raises [ValueError].  Below, no sequential transfer raises it for its
    position. *)
Lemma sequential_range f path s c data :
  fcb_ok f -> path_of s f = Some path -> open_rb (on s) path = Ret c -> length data = 128%nat ->
  let past := f_ex f = 255 /\ 127 <= f_cr f in
  (past -> read_at c (seq_rec f * 128) 128 <> [] ->
     handle_read_seq (wire f) s = (Raise ValueError, s)) /\
  (past -> exists h', handle_write_seq (wire f ++ data) s = (Raise ValueError, set_host s h') /\
     open_rb h' path = Ret (write_at c (seq_rec f * 128) data)) /\
  (~ past -> exists r r' h', handle_read_seq (wire f) s = (Ret r, s) /\
     handle_write_seq (wire f ++ data) s = (Ret r', set_host s h')).
Proof.
  intros Hok Hpath Hc Hd past. destruct (fcb_ok_bytes f Hok) as [He Hcr].
  pose proof (read_seq_spec s f [] path Hok Hpath) as Er. rewrite app_nil_r in Er.
  unfold read_seq_result in Er. rewrite Hc in Er.
  pose proof (write_seq_spec s f data path Hok Hpath ltac:(lia)) as Ew. cbv zeta in Ew.
  rewrite take_ge in Ew by lia.
  destruct (stored_existing s path c (fun c0 => write_at c0 (seq_rec f * 128) data) Hc)
    as (h' & Hst & Ho). rewrite Hst in Ew. cbn [fst snd write_result] in Ew.
  destruct (advance (f_ex f) (f_cr f)) as [ex cr] eqn:Ea.
  assert (Hex : past <-> ~ ex < 256).
  { unfold advance, is_byte, past in *. destruct (Z.leb_spec 128 (f_cr f + 1)); injection Ea as <- <-; lia. }
  destruct (Z.ltb_spec ex 256) as [Hlt|Hge].
  - split_and!; [intros; tauto..|]. intros _.
    destruct (read_at c (seq_rec f * 128) 128); eexists _, _, h'; split; eassumption.
  - split_and!.
    + intros _ Hne. destruct (read_at c (seq_rec f * 128) 128); [done|]. exact Er.
    + intros _. exists h'. split; [exact Ew|exact Ho].
    + intros Hp. exfalso. apply Hp, Hex. lia.
Qed.

(** Positions beyond what an FCB holds.  A random read of a record leaves the
    FCB at that record modulo 4096 for sequential access, so the next sequential
    read fetches the record just read only below record 4096 (half a megabyte).
    At record 32767 (EX 255, CR 127) or beyond a sequential transfer cannot report
    the next position: the read raises [ValueError] when there is data, the write
    stores its sector and then raises [ValueError]; below, neither raises. *)
Lemma file_positions_are_limited :
  (forall f extra path s c r s',
    fcb_ok f -> path_of s f = Some path -> open_rb (on s) path = Ret c ->
    handle_read_rand (wire f ++ extra) s = (Ret (0 :: r), s') ->
    let g := reload f (0 :: r) in
    s' = s /\ seq_rec g = rand_rec f mod 4096 /\
    (seq_rec g = rand_rec f <-> rand_rec f < 4096) /\
    exists ex cr, handle_read_seq (wire g) s =
      (Ret (read_answer g ex cr (read_at c (rand_rec f mod 4096 * 128) 128)), s)) /\
  (forall f path s c data,
    fcb_ok f -> path_of s f = Some path -> open_rb (on s) path = Ret c -> length data = 128%nat ->
    let past := f_ex f = 255 /\ 127 <= f_cr f in
    (past -> read_at c (seq_rec f * 128) 128 <> [] ->
       handle_read_seq (wire f) s = (Raise ValueError, s)) /\
    (past -> exists h', handle_write_seq (wire f ++ data) s = (Raise ValueError, set_host s h') /\
       open_rb h' path = Ret (write_at c (seq_rec f * 128) data)) /\
    (~ past -> exists r r' h', handle_read_seq (wire f) s = (Ret r, s) /\
       handle_write_seq (wire f ++ data) s = (Ret r', set_host s h'))).
Proof. split; [exact random_read_position|exact sequential_range]. Qed.

(** File sizes.  BDOS 35 answers the request's FCB with the random record
    set to the number of records the file has, modulo 2^24: the file ends in
    the last of them, a sequential read fails with end of file exactly from that
    record on, and returns data before it. *)
Lemma file_size_counts_records f extra path s c :
  fcb_ok f -> path_of s f = Some path -> open_rb (on s) path = Ret c ->
  let n := records_of (zlength c) in
  handle_file_size (wire f ++ extra) s = (Ret (0 :: fcb_tail (with_rand f n)), s) /\
  rand_rec (with_rand f n) = n mod 16777216 /\
  128 * (n - 1) < zlength c <= 128 * n /\
  (forall g, fcb_ok g -> same_file f g ->
     handle_read_seq (wire g) s = (Ret [1], s) <-> n <= seq_rec g).
Proof.
  intros Hok Hpath Hc n. destruct (open_rb_size _ _ _ Hc) as [He Hg].
  pose proof (records_of_bounds (zlength c) ltac:(unfold zlength; lia)) as Hn.
  split_and!; [|by apply rand_rec_with|apply Hn..|].
  - rewrite (file_size_spec s f extra path Hok Hpath), He, Hg. reflexivity.
  - intros g Hgok Hsame. rewrite (path_of_same s f g Hsame) in Hpath.
    pose proof (read_seq_spec s g [] path Hgok Hpath) as E. rewrite app_nil_r in E. rewrite E.
    unfold read_seq_result. rewrite Hc. destruct (fcb_ok_bytes g Hgok) as [Hex Hcr].
    assert (Hk : seq_rec g = Z.of_nat (Z.to_nat (seq_rec g))) by (unfold seq_rec, is_byte in *; lia).
    destruct (Z.lt_ge_cases (seq_rec g) n) as [Hlt|Hge].
    + pose proof (read_at_nonempty c (Z.to_nat (seq_rec g))) as Hne. rewrite <- Hk in Hne.
      specialize (Hne Hlt). split; [|lia].
      destruct (read_at c (seq_rec g * 128) 128) as [|b d]; [done|].
      destruct (advance _ _) as [ex cr]. destruct (ex <? 256); done.
    + split; [done|]. intros _. rewrite Hk, read_at_past_end; [done|]. lia.
Qed.

(** C6: file sizes and positions.  A random read of a record leaves the FCB at
    that record modulo 4096 for sequential access, so the next sequential read
    fetches the record just read only below record 4096 (half a megabyte).  At
    record 32767 (EX 255, CR 127) or beyond a sequential transfer cannot report the
    next position: the read raises [ValueError] when there is data, the write
    stores its sector and then raises [ValueError]; below, neither raises.  BDOS 35
    answers the request's FCB with the random record set to the number of records
    the file has, modulo 2^24: the file ends in the last of them, a sequential read
    fails with end of file exactly from that record on, and returns data before it. *)
Theorem file_sizes_and_positions :
  ((forall f extra path s c r s',
    fcb_ok f -> path_of s f = Some path -> open_rb (on s) path = Ret c ->
    handle_read_rand (wire f ++ extra) s = (Ret (0 :: r), s') ->
    let g := reload f (0 :: r) in
    s' = s /\ seq_rec g = rand_rec f mod 4096 /\
    (seq_rec g = rand_rec f <-> rand_rec f < 4096) /\
    exists ex cr, handle_read_seq (wire g) s =
      (Ret (read_answer g ex cr (read_at c (rand_rec f mod 4096 * 128) 128)), s)) /\
  (forall f path s c data,
    fcb_ok f -> path_of s f = Some path -> open_rb (on s) path = Ret c -> length data = 128%nat ->
    let past := f_ex f = 255 /\ 127 <= f_cr f in
    (past -> read_at c (seq_rec f * 128) 128 <> [] ->
       handle_read_seq (wire f) s = (Raise ValueError, s)) /\
    (past -> exists h', handle_write_seq (wire f ++ data) s = (Raise ValueError, set_host s h') /\
       open_rb h' path = Ret (write_at c (seq_rec f * 128) data)) /\
    (~ past -> exists r r' h', handle_read_seq (wire f) s = (Ret r, s) /\
       handle_write_seq (wire f ++ data) s = (Ret r', set_host s h')))) /\
  (forall f extra path s c,
  fcb_ok f -> path_of s f = Some path -> open_rb (on s) path = Ret c ->
  let n := records_of (zlength c) in
  handle_file_size (wire f ++ extra) s = (Ret (0 :: fcb_tail (with_rand f n)), s) /\
  rand_rec (with_rand f n) = n mod 16777216 /\
  128 * (n - 1) < zlength c <= 128 * n /\
  (forall g, fcb_ok g -> same_file f g ->
     handle_read_seq (wire g) s = (Ret [1], s) <-> n <= seq_rec g)).
Proof. split; [exact file_positions_are_limited|exact file_size_counts_records]. Qed.

Lemma file_sizes_and_positions_witness :
  ((exists ex cr,
     let s := example_server [(chars "A.TXT", replicate 200 65)] in
     let f := Fcb 0 1 (chars "A       TXT") 9 (replicate 19 0) 9 1 0 0 in
     handle_read_seq (wire (at_pos f 0 1)) s =
     (Ret (read_answer (at_pos f 0 1) ex cr (replicate 72 65)), s)) /\
  (exists h', let s := example_server [(chars "A.TXT", [1])] in
     let f := Fcb 0 1 (chars "A       TXT") 255 (replicate 19 0) 127 0 0 0 in
     handle_write_seq (wire f ++ replicate 128 7) s = (Raise ValueError, set_host s h'))) /\
  (let s := example_server [(chars "A.TXT", replicate 130 65)] in
  let f := example_fcb_of "A       TXT" in
  handle_file_size (wire f ++ []) s = (Ret (0 :: fcb_tail (with_rand f 2)), s)).
Proof.
  split.
  { split.
  { set (s := example_server [(chars "A.TXT", replicate 200 65)]).
    set (f := Fcb 0 1 (chars "A       TXT") 9 (replicate 19 0) 9 1 0 0).
    destruct (proj1 (proj1 file_sizes_and_positions) f [] (chars "/d/A.TXT") s (replicate 200 65)
      (fcb_tail (at_pos f 0 1) ++ replicate 72 65 ++ replicate 56 26) s) as (_ & _ & _ & ex & cr & H).
    - split; [vm_compute; repeat constructor; discriminate|done].
    - reflexivity.
    - vm_compute. reflexivity.
    - vm_compute. reflexivity.
    - exists ex, cr. exact H. }
  { set (s := example_server [(chars "A.TXT", [1])]).
    set (f := Fcb 0 1 (chars "A       TXT") 255 (replicate 19 0) 127 0 0 0).
    destruct (proj1 (proj2 (proj2 (proj1 file_sizes_and_positions) f (chars "/d/A.TXT") s [1] (replicate 128 7)
      ltac:(split; [vm_compute; repeat constructor; discriminate|done])
      eq_refl ltac:(vm_compute; reflexivity) eq_refl)))
      as (h' & H & _); [split; [reflexivity|vm_compute; discriminate]|].
    exists h'. exact H. } }
  { refine (proj1 ((proj2 file_sizes_and_positions) (example_fcb_of "A       TXT") [] (chars "/d/A.TXT")
    (example_server [(chars "A.TXT", replicate 130 65)]) (replicate 130 65) _ eq_refl _)).
  - split; [vm_compute; repeat constructor; discriminate|done].
  - vm_compute. reflexivity. }
Defined.
