(* ===== verification/ServerNames.v ===== *)
(** * The CP/NET server's names: paths, directory search, matching.

    How the 8+3 names of requests become host paths and how host names become
    directory entries: which paths a request can reach, what a directory search
    lists, which patterns match, and whether a listed file can be opened. *)

From S2P Require Import Prelude Wire Framing Host Server ServerSafe ServerFiles.
#[local] Open Scope Z_scope.

(** ** Paths, component by component *)

Lemma walk_app m l1 l2 cur : walk m cur (l1 ++ l2) = (walk m cur l1 ≫= (fun p => walk m p l2)).
Proof.
  revert cur. induction l1 as [|c l1 IH]; intros cur; cbn [walk app]; [done|].
  destruct (is_dir m cur); [|done]. repeat (case_decide; [apply IH|]). apply IH.
Qed.

(** A name that the host takes as one plain component. *)
Definition plain (n : str) : Prop :=
  (47 ∉ n) /\ (0 ∉ n) /\ n <> [] /\ n <> chars "." /\ n <> chars "..".

Lemma walk_plain m d n : is_dir m d = true -> plain n -> walk m d [n] = Some (d ++ [n]).
Proof. intros Hd (_ & _ & H1 & H2 & H3). cbn [walk]. rewrite Hd. by rewrite !decide_False by done. Qed.

Lemma join_shape dir n :
  dir <> [] -> starts_with 47 n = false ->
  exists d, path_join dir n = d ++ 47 :: n /\ (dir = d \/ dir = d ++ [47]).
Proof.
  intros Hd Hn. unfold path_join. rewrite Hn. destruct dir as [|x dir]; [done|].
  unfold ends_with. destruct (last (x :: dir)) as [y|] eqn:E.
  - destruct (Z.eqb_spec y 47) as [->|].
    + apply last_Some in E as [d E]. rewrite E. exists d. rewrite <- app_assoc. auto.
    + exists (x :: dir). auto.
  - by apply last_None in E.
Qed.

(** A plain name below a directory is resolved there. *)
Lemma resolve_join h dir n p :
  resolve h dir = Ret p -> is_dir (fs h) p = true -> plain n ->
  resolve h (path_join dir n) = Ret (p ++ [n]).
Proof.
  intros Hr Hp Hn. pose proof Hn as (Hs & H0 & Hne & _).
  assert (Hdir : dir <> []).
  { intros ->. unfold resolve in Hr. by destruct (decide _). }
  assert (Hst : starts_with 47 n = false).
  { destruct n as [|x n]; [done|]. cbn. apply Z.eqb_neq. intros ->. apply Hs. left. }
  destruct (join_shape dir n Hdir Hst) as (d & -> & Hd).
  unfold resolve in *. destruct (decide (0 ∈ dir)) as [|H0d]; [done|].
  assert (H0j : 0 ∉ d ++ 47 :: n).
  { intros [Hx|Hx]%elem_of_app.
    - apply H0d. destruct Hd as [->| ->]; [done|]. apply elem_of_app. auto.
    - apply elem_of_cons in Hx as [?|?]; done. }
  rewrite (decide_False (P := 0 ∈ d ++ 47 :: n)) by done.
  assert (Hcur : (if starts_with 47 (d ++ 47 :: n) then [] else cwd h) =
                 (if starts_with 47 dir then [] else cwd h) \/ d = []).
  { destruct d as [|x d]; [by right|]. left. by destruct Hd as [->| ->]. }
  destruct (d ++ 47 :: n) as [|y rest] eqn:Ej; [by destruct d|]. rewrite <- Ej in *.
  destruct dir as [|x dir]; [done|].
  destruct (walk (fs h) _ (split_on 47 (x :: dir))) as [p'|] eqn:Ew; [|done]. injection Hr as ->.
  assert (Hd' : walk (fs h) (if starts_with 47 (d ++ 47 :: n) then [] else cwd h) (split_on 47 d) = Some p).
  { destruct Hd as [<-|Hd].
    - destruct Hcur as [->|Hnil]; [done|]. discriminate.
    - rewrite Hd in Ew. rewrite split_on_app, walk_app in Ew.
      assert (Hc : (if starts_with 47 (d ++ 47 :: n) then [] else cwd h) =
                   (if starts_with 47 (d ++ [47]) then [] else cwd h)) by by destruct d.
      rewrite Hc. destruct (walk (fs h) _ (split_on 47 d)) as [p'|] eqn:Ed; [|done].
      cbn in Ew. destruct (is_dir (fs h) p'); [|done]. done. }
  rewrite split_on_app, walk_app, Hd', (split_on_none 47 n Hs). cbn [mbind option_bind].
  by rewrite (walk_plain _ _ _ Hp Hn).
Qed.

(** ** Directory entries *)

(** The answer that lists host file [e] of [size] bytes: directory code and
    32-byte entry. *)
Definition listed (size : Z) (e : str) : bytes :=
  0 :: 0 :: ljust 8 32 (entry_name e) ++ ljust 3 32 (entry_ext e)
  ++ [0; 0; 0; Z.min (records_of size) 128] ++ replicate 16 0.

Definition ascii (e : str) : Prop := Forall (fun c => 0 <= c < 128) e.

Lemma encode_ascii_ascii e : ascii e -> encode_ascii e = Ret e.
Proof.
  intros H. unfold encode_ascii. rewrite (proj2 (forallb_forall _ _)); [done|].
  intros x Hx. apply (proj1 (List.Forall_forall _ _) H) in Hx. lia.
Qed.

Lemma upper_ascii e : ascii e -> ascii (upper e).
Proof.
  intros H. unfold ascii, upper. apply Forall_fmap. eapply Forall_impl; [exact H|].
  intros c Hc. unfold compose, upper1. cbv beta in *. case_if; lia.
Qed.

Lemma rsplit_dot_app e b x : rsplit_dot e = (b, x) ->
  e = b ++ match x with Some t => 46 :: t | None => [] end.
Proof.
  revert b x. induction e as [|c e IH]; intros b x H; cbn in H; [by injection H as <- <-|].
  destruct (rsplit_dot e) as [b' [t|]]; specialize (IH _ _ eq_refl).
  - injection H as <- <-. cbn. by rewrite IH.
  - rewrite app_nil_r in IH. subst b'.
    destruct (Z.eqb_spec c 46) as [->|]; injection H as <- <-; cbn; by rewrite ?app_nil_r.
Qed.

Lemma entry_parts_ascii e : ascii e -> ascii (entry_name e) /\ ascii (entry_ext e).
Proof.
  intros H. unfold entry_name, entry_ext. destruct (rsplit_dot e) as [b x] eqn:E. cbn [fst snd].
  apply rsplit_dot_app in E. subst e. apply Forall_app in H as [Hb Hx].
  split; [by apply Forall_take, upper_ascii|].
  destruct x as [t|]; [|constructor]. apply Forall_cons in Hx as [_ Hx].
  by apply Forall_take, upper_ascii.
Qed.

Lemma ljust_ascii n l : ascii l -> ascii (ljust n 32 l).
Proof. intros H. apply Forall_app. split; [done|]. apply Forall_replicate. lia. Qed.

Lemma length_ljust_exact n c l : (length l <= n)%nat -> length (ljust n c l) = n.
Proof. intros H. rewrite length_ljust. lia. Qed.

(** Put the pieces of a directory entry together. *)
Lemma entry_layout (n x : bytes) rc :
  length n = 8%nat -> length x = 3%nat -> is_byte rc ->
  exists d, stores (slice_set 9 12 x (slice_set 1 9 n (replicate 32 0)))
              [(12%nat, 0); (15%nat, rc)] = Ret d /\
    slice_set 1 33 d (replicate 33 0) = 0 :: 0 :: n ++ x ++ [0; 0; 0; rc] ++ replicate 16 0.
Proof.
  intros Hn Hx Hr.
  do 8 (destruct n as [|? n]; [discriminate Hn|]). destruct n; [|discriminate Hn].
  do 3 (destruct x as [|? x]; [discriminate Hx|]). destruct x; [|discriminate Hx].
  cbn [stores]. unfold store. rewrite (proj2 (is_byteb_spec rc) Hr).
  eexists. split; reflexivity.
Qed.

(** One step of a search that has an entry left. *)
Lemma search_result_entry s ms k d dir e size :
  search_state s = Some (Search ms k d) -> ms !! k = Some e -> ascii e ->
  drive_dirs s !! d = Some dir -> getsize (on s) (path_join dir e) = Ret size -> 0 <= size ->
  search_result s = (Ret (listed size e), set_search s (Some (Search ms (S k) d))).
Proof.
  intros Hst He Ha Hd Hsz Hpos. unfold search_result. unfold mbind at 1, stM_bind at 1, get.
  rewrite Hst. cbn [matches next_match search_drive]. rewrite He.
  unfold mbind at 1, stM_bind at 1, modify.
  destruct (entry_parts_ascii e Ha) as [Hn Hx].
  set (s1 := set_search s _). change (replicate 32 0) with (replicate 32 0).
  assert (H0 : stores (replicate 32 0) [(0%nat, 0)] = Ret (replicate 32 0)) by reflexivity.
  rewrite H0, !encode_ascii_ascii by by apply ljust_ascii.
  pose proof (length_ljust_exact 8 32 _ (entry_name_length e)) as Hln.
  pose proof (length_ljust_exact 3 32 _ (entry_ext_length e)) as Hlx.
  unfold mbind, stM_bind, lift. rewrite Hd. cbn [default from_option id].
  unfold try_os, catch, host_ask. change (on s1) with (on s). rewrite Hsz.
  assert (Hrc : is_byte (Z.min (records_of size) 128)).
  { pose proof (records_of_bounds size Hpos). unfold is_byte. lia. }
  destruct (entry_layout _ _ _ Hln Hlx Hrc) as (dd & Hdd & HL).
  unfold mret, stM_ret. rewrite Hdd, HL. reflexivity.
Qed.

(** *** Walking a search to its end *)

Fixpoint search_rest (n : nat) (payload : bytes) : stM server (list bytes) :=
  match n with
  | O => raise OutOfFuel
  | S n' =>
      r ← handle_search_next payload;
      match r with
      | 0 :: _ => rest ← search_rest n' payload; mret (r :: rest)
      | _ => mret []
      end
  end.

(** SEARCH FIRST, then SEARCH NEXT until the answer is not 0. *)
Definition search_all (n : nat) (payload : bytes) : stM server (list bytes) :=
  r ← handle_search_first payload;
  match r with
  | 0 :: _ => rest ← search_rest n payload; mret (r :: rest)
  | _ => mret []
  end.

Section Search.
Context (s : server) (d : Z) (dir : str) (size : str -> Z) (payload : bytes).
Context (Hdir : drive_dirs s !! d = Some dir).

Definition listable (e : str) : Prop :=
  ascii e /\ getsize (on s) (path_join dir e) = Ret (size e) /\ 0 <= size e.

Lemma search_rest_spec ms n k :
  Forall listable ms -> (k + n = length ms)%nat ->
  search_rest (S n) payload (set_search s (Some (Search ms k d))) =
  (Ret (map (fun e => listed (size e) e) (drop k ms)), set_search s None).
Proof.
  intros Hms. revert k. induction n as [|n IH]; intros k Hk.
  - cbn [search_rest]. unfold handle_search_next, search_result, mbind, stM_bind, get.
    cbn [search_state set_search matches next_match].
    rewrite (proj2 (lookup_ge_None ms k)) by lia. rewrite drop_ge by lia. reflexivity.
  - remember (S n) as m eqn:Em. cbn [search_rest]. unfold handle_search_next.
    destruct (lookup_lt_is_Some_2 ms k) as [e He]; [lia|].
    pose proof (proj1 (Forall_lookup _ _) Hms k e He) as (Ha & Hsz & Hpos).
    unfold mbind at 1, stM_bind at 1.
    rewrite (search_result_entry _ ms k d dir e (size e)) by done.
    unfold listed at 1. cbv iota beta. fold (listed (size e) e).
    change (set_search (set_search s _) ?x) with (set_search s x). subst m.
    unfold mbind, stM_bind. rewrite IH by lia.
    by rewrite (drop_S ms e k He).
Qed.
End Search.

(** ** CP/M names on the host *)

(** A character that an 8+3 name can hold and the host takes as it is. *)
Definition name_char (c : Z) : Prop := 33 <= c < 127 /\ c <> 46 /\ c <> 47.

(** [e] is [n.x], or [n] alone when [x] is empty. *)
Definition host_spelling (n x e : str) : Prop :=
  (1 <= length n <= 8)%nat /\ (length x <= 3)%nat /\ Forall name_char n /\ Forall name_char x /\
  e = match x with [] => n | _ => n ++ 46 :: x end.

Lemma rsplit_no_dot n : 46 ∉ n -> rsplit_dot n = (n, None).
Proof.
  induction n as [|c n IH]; intros H; [done|]. cbn [rsplit_dot].
  apply not_elem_of_cons in H as [Hc Hn]. rewrite IH by done.
  by rewrite (proj2 (Z.eqb_neq c 46)) by congruence.
Qed.

Lemma rsplit_one_dot n x : 46 ∉ x -> rsplit_dot (n ++ 46 :: x) = (n, Some x).
Proof.
  intros Hx. induction n as [|c n IH]; cbn [rsplit_dot app].
  - by rewrite rsplit_no_dot, Z.eqb_refl.
  - by rewrite IH.
Qed.

Lemma name_char_no_dot n : Forall name_char n -> 46 ∉ n.
Proof. intros H Hin. apply (proj1 (Forall_forall _ _) H) in Hin. unfold name_char in Hin. lia. Qed.

Lemma upper_name_char n : Forall name_char n -> Forall name_char (upper n).
Proof.
  intros H. apply Forall_fmap. eapply Forall_impl; [exact H|].
  intros c Hc. unfold compose, upper1, name_char in *. cbv beta in *. case_if; lia.
Qed.

Lemma length_upper n : length (upper n) = length n.
Proof. apply length_map. Qed.

Lemma spelling_parts n x e : host_spelling n x e -> entry_name e = upper n /\ entry_ext e = upper x.
Proof.
  intros (Hn & Hx & Cn & Cx & ->). unfold entry_name, entry_ext. destruct x as [|c x].
  - rewrite rsplit_no_dot by by apply name_char_no_dot. cbn [fst snd].
    rewrite take_ge by (rewrite length_upper; lia). done.
  - rewrite rsplit_one_dot by by apply name_char_no_dot. cbn [fst snd].
    rewrite !take_ge by (rewrite length_upper; lia). done.
Qed.

Lemma decode_name_chars n : Forall name_char n -> decode_ascii n = n.
Proof.
  intros H. unfold decode_ascii. induction H as [|c n Hc Hn IH]; [done|]. cbn.
  unfold name_char in Hc. rewrite (proj2 (Z.ltb_lt c 128)) by lia. by rewrite IH.
Qed.

(** The padding of a name is taken off again. *)
Lemma unpad_name k n : Forall name_char n -> rstrip_with is_pad (ljust k 32 n) = n.
Proof.
  intros Hn. unfold ljust. apply rstrip_with_pad; [done|].
  intros x Hx. apply last_Some in Hx as [l ->]. apply Forall_app in Hn as [_ Hn].
  apply Forall_cons in Hn as [Hc _]. unfold name_char in Hc. unfold is_pad. lia.
Qed.

Lemma strip7_name n k : Forall name_char n -> strip7 (ljust k 32 n) = ljust k 32 n.
Proof.
  intros Hn. unfold strip7.
  assert (H : Forall (fun c => 0 <= c < 128) (ljust k 32 n)).
  { apply Forall_app. split; [|apply Forall_replicate; lia].
    eapply Forall_impl; [exact Hn|]. unfold name_char. lia. }
  induction H as [|c l Hc Hl IH]; [done|]. cbn. by rewrite land127_small, IH.
Qed.

(** The 11 bytes under which a host file is listed. *)
Definition listed_name (e : str) : bytes := ljust 8 32 (entry_name e) ++ ljust 3 32 (entry_ext e).

Lemma upper_app a b : upper (a ++ b) = upper a ++ upper b.
Proof. apply map_app. Qed.

(** They name the host file in upper case. *)
Lemma listed_host_name n x e :
  host_spelling n x e -> length (listed_name e) = 11%nat /\
  strip7 (listed_name e) = listed_name e /\ host_name (listed_name e) = upper e.
Proof.
  intros H. destruct (spelling_parts n x e H) as [En Ex]. destruct H as (Hn & Hx & Cn & Cx & ->).
  unfold listed_name. rewrite En, Ex.
  pose proof (upper_name_char n Cn) as Un. pose proof (upper_name_char x Cx) as Ux.
  assert (Ln : length (ljust 8 32 (upper n)) = 8%nat) by (apply length_ljust_exact; rewrite length_upper; lia).
  assert (Lx : length (ljust 3 32 (upper x)) = 3%nat) by (apply length_ljust_exact; rewrite length_upper; lia).
  split_and!.
  - rewrite length_app. lia.
  - unfold strip7. rewrite map_app. fold (strip7 (ljust 8 32 (upper n))).
    fold (strip7 (ljust 3 32 (upper x))). by rewrite !strip7_name.
  - unfold host_name. rewrite take_app_length' by lia.
    rewrite <- (app_nil_r (ljust 3 32 (upper x))), slice_app_exact by lia.
    rewrite !unpad_name, !decode_name_chars by done.
    destruct x as [|c x]; [done|]. rewrite upper_app. done.
Qed.

(** ** Patterns *)

(** CP/M's rule on two names padded with spaces to the longer length. *)
Definition char_matches (p n : str) (i : nat) : Prop :=
  default 32 (p !! i) = question \/ default 32 (p !! i) = default 32 (n !! i).

Lemma match_chars_spec p n : length p = length n ->
  match_chars p n = true <->
  forall i, (i < length p)%nat -> default 32 (p !! i) = question \/ default 32 (p !! i) = default 32 (n !! i).
Proof.
  revert n. induction p as [|a p IH]; intros [|b n] Hl; try discriminate Hl; cbn [match_chars].
  - split; [cbn; lia|done].
  - injection Hl as Hl. specialize (IH n Hl).
    destruct (Z.eqb_spec a question) as [->|Ha]; [|destruct (Z.eqb_spec a b) as [->|Hb]];
      cbn [negb andb]; rewrite ?IH; split; intros H.
    + intros [|i] Hi; cbn in *; [by left|apply H; lia].
    + intros i Hi. apply (H (S i)). cbn. lia.
    + intros [|i] Hi; cbn in *; [by right|apply H; lia].
    + intros i Hi. apply (H (S i)). cbn. lia.
    + discriminate.
    + destruct (H 0%nat ltac:(cbn; lia)); cbn in *; congruence.
Qed.

Lemma lookup_ljust_default n l i : default 32 (ljust n 32 l !! i) = default 32 (l !! i).
Proof.
  unfold ljust. destruct (decide (i < length l)%nat) as [H|H].
  - by rewrite lookup_app_l.
  - rewrite lookup_app_r, (lookup_ge_None_2 l) by lia. cbn.
    destruct (replicate _ 32 !! _) as [x|] eqn:E; [|done]. by apply lookup_replicate in E as [-> _].
Qed.

(** ** Opening *)

(** The answer to a successful OPEN. *)
Definition open_answer (f : fcb) (size : Z) : bytes :=
  0 :: u8 (drive_of f + 1) :: strip7 (f_name f) ++ [0; 0; 0; Z.min (records_of size) 128]
  ++ replicate 17 0.

Lemma open_layout (n : bytes) b rc :
  length n = 11%nat -> is_byte b -> is_byte rc ->
  (resp ← stores (replicate 34 0) [(0%nat, 0); (1%nat, b)];
   stores (slice_set 2 13 (take 11 n) resp)
     [(13%nat, 0); (14%nat, 0); (15%nat, 0); (16%nat, rc); (33%nat, 0)])
  = Ret (0 :: b :: n ++ [0; 0; 0; rc] ++ replicate 17 0).
Proof.
  intros Hn Hb Hr. do 11 (destruct n as [|? n]; [discriminate Hn|]). destruct n; [|discriminate Hn].
  cbn [stores]. unfold store.
  rewrite (proj2 (is_byteb_spec b) Hb), (proj2 (is_byteb_spec rc) Hr). reflexivity.
Qed.

Lemma open_spec s f extra path :
  fcb_ok f -> path_of s f = Some path ->
  (forall size, getsize (on s) path = Ret size -> 0 <= size) ->
  handle_open (wire f ++ extra) s =
  (match exists_ (on s) path, getsize (on s) path with
   | false, _ => Ret [255]
   | true, Raise e => Raise e
   | true, Ret size => Ret (open_answer f size)
   end, s).
Proof.
  intros Hok Hpath Hpos. unfold handle_open. rewrite wire_drive, wire_name by done.
  unfold mbind at 1, stM_bind at 1, lift at 1. unfold mbind at 1, stM_bind at 1, get.
  unfold path_of in Hpath. rewrite Hpath. destruct (exists_ (on s) path); [|done].
  unfold mbind at 1, stM_bind, host_ask. destruct (getsize (on s) path) as [size|e]; [|done].
  assert (Hrc : is_byte (Z.min (records_of size) 128)).
  { pose proof (Hpos size eq_refl) as H0. pose proof (records_of_bounds size H0). unfold is_byte. lia. }
  unfold lift. cbv zeta.
  rewrite (open_layout (strip7 (f_name f)) (u8 (drive_of f + 1)) _); [done| |apply u8_range|done].
  rewrite length_strip7. apply Hok.
Qed.

(** ** Properties *)

(** Directory listings are complete.  When the directory of the FCB's
    drive can be read and its matching entries have ASCII names, SEARCH FIRST
    followed by SEARCH NEXT until the answer is not 0 lists exactly the
    directory's entries that match the pattern, each once and in the
    directory's order, with their record counts; then the search is over. *)
Lemma search_lists_the_matches s payload d dir entries size :
  fcb_drive payload 2 = Ret d -> drive_dirs s !! d = Some dir -> dir <> [] ->
  listdir (on s) dir = Ret entries ->
  let name := fcb_name payload 2 in
  let found := List.filter (entry_matches (rstrip_with py_space (decode_ascii (take 8 name)))
                              (rstrip_with py_space (decode_ascii (slice 8 11 name)))) entries in
  Forall (listable s dir size) found ->
  search_all (length found) payload s =
  (Ret (map (fun e => listed (size e) e) found), set_search s None).
Proof.
  intros Hd Hdir Hne Hls name found Hf.
  unfold search_all, handle_search_first. rewrite Hd.
  unfold mbind at 1, stM_bind at 1. unfold mbind at 1, stM_bind at 1, lift.
  unfold mbind at 1, stM_bind at 1, get. rewrite Hdir.
  unfold truthy. destruct dir as [|x dir]; [done|]. set (dr := x :: dir) in *.
  fold name. unfold try_os, catch, host_ask, mbind, stM_bind, modify. rewrite Hls.
  unfold mret at 1, stM_ret at 1. fold found. clearbody found.
  destruct found as [|e rest].
  - unfold search_result, mbind, stM_bind, get. reflexivity.
  - pose proof (proj1 (proj1 (Forall_cons _ _ _) Hf)) as (Ha & Hsz & Hpos).
    rewrite (search_result_entry _ (e :: rest) 0 d dr e (size e)) by done.
    unfold listed at 1. cbv iota beta. fold (listed (size e) e).
    change (set_search (set_search s _) ?y) with (set_search s y). cbn [length].
    rewrite (search_rest_spec s d dr size payload Hdir (e :: rest) (length rest) 1) by done.
    reflexivity.
Qed.

(** Which patterns match.  A blank pattern and one of question marks only
    match every name; any other matches when each of its characters, after
    padding with spaces and without regard to case, is a question mark or the
    name's character. *)
Lemma match_pattern_spec p n :
  match_pattern p n = true <->
  p = [] \/ upper p = replicate (length p) question \/
  (forall i, (i < Nat.max (length p) (length n))%nat -> char_matches (upper p) (upper n) i).
Proof.
  unfold match_pattern. rewrite length_upper.
  destruct (decide _) as [[H|H]|H].
  - split; [|done]. intros _. left. by apply (f_equal length) in H; destruct p.
  - tauto.
  - rewrite match_chars_spec by (rewrite !length_ljust, !length_upper; lia).
    rewrite length_ljust, !length_upper.
    replace (Nat.max (Nat.max (length p) (length n)) (length p))
      with (Nat.max (length p) (length n)) by lia.
    setoid_rewrite lookup_ljust_default. fold (char_matches (upper p) (upper n)).
    split; [intros Hm; right; right; exact Hm|]. intros [->|[Hq|Hm]]; [by destruct H; left| |exact Hm].
    destruct H. by right.
Qed.

(** Which names a search gives.  A blank pattern and one of question marks only match
    every name; any other matches when each of its characters, after padding with spaces
    and without regard to case, is a question mark or the name's character.  A search
    first and the search nexts after it answer with exactly the entries of the drive's
    directory whose names match, in the directory's order, each with its size, and then
    with the end of the directory; nothing else of the server changes, and the search is
    over. *)
Lemma matching_names_are_listed :
  (forall p n,
  match_pattern p n = true <->
  p = [] \/ upper p = replicate (length p) question \/
  (forall i, (i < Nat.max (length p) (length n))%nat -> char_matches (upper p) (upper n) i)) /\
  (forall s payload d dir entries size,
  fcb_drive payload 2 = Ret d -> drive_dirs s !! d = Some dir -> dir <> [] ->
  listdir (on s) dir = Ret entries ->
  let name := fcb_name payload 2 in
  let found := List.filter (entry_matches (rstrip_with py_space (decode_ascii (take 8 name)))
                              (rstrip_with py_space (decode_ascii (slice 8 11 name)))) entries in
  Forall (listable s dir size) found ->
  search_all (length found) payload s =
  (Ret (map (fun e => listed (size e) e) found), set_search s None)).
Proof. split; [exact match_pattern_spec|exact search_lists_the_matches]. Qed.

(** Which listed files can be opened.  A host file with an 8+3 name is
    listed under its name in upper case.  Opening the listed name therefore
    opens the file, with its record count, when the host name is in upper case;
    otherwise it asks the host for the upper-case spelling, and answers 0xFF
    when there is no such file, although the directory listed it. *)
Lemma listed_files_open s f extra dir n x e size :
  host_spelling n x e -> fcb_ok f -> f_name f = listed_name e ->
  drive_dirs s !! drive_of f = Some dir -> dir <> [] ->
  path_of s f = Some (path_join dir (upper e)) /\
  (upper e = e -> exists_ (on s) (path_join dir e) = true ->
   getsize (on s) (path_join dir e) = Ret size -> 0 <= size ->
   handle_open (wire f ++ extra) s = (Ret (open_answer f size), s)) /\
  (exists_ (on s) (path_join dir (upper e)) = false ->
   handle_open (wire f ++ extra) s = (Ret [255], s)).
Proof.
  intros He Hok Hname Hdir Hne.
  destruct (listed_host_name n x e He) as (Hl & H7 & Hh).
  assert (Hp : path_of s f = Some (path_join dir (upper e))).
  { unfold path_of, resolve_path. rewrite Hdir, Hname, H7, Hh. by destruct dir. }
  split; [done|]. split.
  - intros Hup Hex Hsz Hpos. rewrite Hup in Hp.
    rewrite (open_spec s f extra (path_join dir e) Hok Hp) by (intros z Hz; congruence).
    by rewrite Hex, Hsz.
  - intros Hex. unfold handle_open. rewrite wire_drive, wire_name by done.
    unfold mbind at 1, stM_bind at 1, lift at 1. unfold mbind at 1, stM_bind at 1, get.
    unfold path_of in Hp. by rewrite Hp, Hex.
Qed.

(** Which paths a request can reach.  A name the host takes as one plain
    component stays in the drive's directory.  A name whose first byte is a
    slash replaces the directory: the path is the name itself, whatever the
    drive is mapped to. *)
Lemma paths_of_names s drive dir name p :
  drive_dirs s !! drive = Some dir -> resolve (on s) dir = Ret p -> is_dir (fs (on s)) p = true ->
  (plain (host_name name) ->
   exists q, resolve_path s drive name = Some q /\ resolve (on s) q = Ret (p ++ [host_name name])) /\
  (starts_with 47 (host_name name) = true -> resolve_path s drive name = Some (host_name name)).
Proof.
  intros Hdir Hr Hp.
  assert (Hne : dir <> []).
  { intros ->. unfold resolve in Hr. by destruct (decide _). }
  unfold resolve_path. rewrite Hdir. destruct dir as [|x dir]; [done|]. cbn [truthy]. split.
  - intros Hn. eexists. split; [done|]. by apply resolve_join.
  - intros Hs. unfold path_join. by rewrite Hs.
Qed.

(** Names and paths.  A host file with an 8+3 name is listed under its name
    in upper case; opening the listed name opens the file, with its record count,
    when the host name is in upper case, and otherwise asks the host for the
    upper-case spelling, and answers 0xFF when there is no such file, although the
    directory listed it.  A name the host takes as one plain component stays in
    the drive's directory; a name whose first byte is a slash replaces the
    directory: the path is the name itself, whatever the drive is mapped to. *)
Lemma names_and_paths :
  (forall s f extra dir n x e size,
  host_spelling n x e -> fcb_ok f -> f_name f = listed_name e ->
  drive_dirs s !! drive_of f = Some dir -> dir <> [] ->
  path_of s f = Some (path_join dir (upper e)) /\
  (upper e = e -> exists_ (on s) (path_join dir e) = true ->
   getsize (on s) (path_join dir e) = Ret size -> 0 <= size ->
   handle_open (wire f ++ extra) s = (Ret (open_answer f size), s)) /\
  (exists_ (on s) (path_join dir (upper e)) = false ->
   handle_open (wire f ++ extra) s = (Ret [255], s))) /\
  (forall s drive dir name p,
  drive_dirs s !! drive = Some dir -> resolve (on s) dir = Ret p -> is_dir (fs (on s)) p = true ->
  (plain (host_name name) ->
   exists q, resolve_path s drive name = Some q /\ resolve (on s) q = Ret (p ++ [host_name name])) /\
  (starts_with 47 (host_name name) = true -> resolve_path s drive name = Some (host_name name))).
Proof. split; [exact listed_files_open|exact paths_of_names]. Qed.

(** C7: names on the server.  Searches: a blank pattern and one of question marks only match
    every name; any other matches when each of its characters, after padding with spaces
    and without regard to case, is a question mark or the name's character.  A search
    first and the search nexts after it answer with exactly the entries of the drive's
    directory whose names match, in the directory's order, each with its size, and then
    with the end of the directory; nothing else of the server changes.  Opening: a host
    file with an 8+3 name is listed under its name in upper case; opening the listed name
    opens the file, with its record count, when the host name is in upper case, and
    otherwise asks the host for the upper-case spelling, and answers 0xFF when there is
    no such file, although the directory listed it.  A name the host takes as one plain
    component stays in the drive's directory; a name whose first byte is a slash replaces
    the directory: the path is the name itself, whatever the drive is mapped to. *)
Theorem names_on_the_server :
  ((forall p n,
  match_pattern p n = true <->
  p = [] \/ upper p = replicate (length p) question \/
  (forall i, (i < Nat.max (length p) (length n))%nat -> char_matches (upper p) (upper n) i)) /\
  (forall s payload d dir entries size,
  fcb_drive payload 2 = Ret d -> drive_dirs s !! d = Some dir -> dir <> [] ->
  listdir (on s) dir = Ret entries ->
  let name := fcb_name payload 2 in
  let found := List.filter (entry_matches (rstrip_with py_space (decode_ascii (take 8 name)))
                              (rstrip_with py_space (decode_ascii (slice 8 11 name)))) entries in
  Forall (listable s dir size) found ->
  search_all (length found) payload s =
  (Ret (map (fun e => listed (size e) e) found), set_search s None))) /\
  ((forall s f extra dir n x e size,
  host_spelling n x e -> fcb_ok f -> f_name f = listed_name e ->
  drive_dirs s !! drive_of f = Some dir -> dir <> [] ->
  path_of s f = Some (path_join dir (upper e)) /\
  (upper e = e -> exists_ (on s) (path_join dir e) = true ->
   getsize (on s) (path_join dir e) = Ret size -> 0 <= size ->
   handle_open (wire f ++ extra) s = (Ret (open_answer f size), s)) /\
  (exists_ (on s) (path_join dir (upper e)) = false ->
   handle_open (wire f ++ extra) s = (Ret [255], s))) /\
  (forall s drive dir name p,
  drive_dirs s !! drive = Some dir -> resolve (on s) dir = Ret p -> is_dir (fs (on s)) p = true ->
  (plain (host_name name) ->
   exists q, resolve_path s drive name = Some q /\ resolve (on s) q = Ret (p ++ [host_name name])) /\
  (starts_with 47 (host_name name) = true -> resolve_path s drive name = Some (host_name name)))).
Proof. split; [exact matching_names_are_listed|exact names_and_paths]. Qed.

Lemma names_on_the_server_witness :
  ((match_pattern [] (chars "TXT") = true) /\
  (let s := example_server [(chars "B.TXT", replicate 130 65); (chars "A.COM", [1]); (chars "C.TXT", [])] in
  search_all 2 ([0; 0; 1] ++ chars "????????TXT" ++ replicate 24 0) s =
  (Ret [listed 0 (chars "C.TXT"); listed 130 (chars "B.TXT")], set_search s None))) /\
  ((let s := example_server [(chars "notes.txt", [1; 2; 3])] in
  let f := Fcb 0 1 (chars "NOTES   TXT") 0 (replicate 19 0) 0 0 0 0 in
  handle_open (wire f ++ []) s = (Ret [255], s)) /\
  (resolve_path (example_server []) 0 (chars "/etc/motd  ") = Some (chars "/etc/mot.d"))).
Proof.
  split.
  { split.
  { apply (proj1 (proj1 names_on_the_server)). by left. }
  { set (size := fun e => if decide (e = chars "B.TXT") then 130 else if decide (e = chars "C.TXT") then 0 else 1).
  exact ((proj2 (proj1 names_on_the_server))
    (example_server [(chars "B.TXT", replicate 130 65); (chars "A.COM", [1]); (chars "C.TXT", [])])
    ([0; 0; 1] ++ chars "????????TXT" ++ replicate 24 0) 0 (chars "/d")
    [chars "C.TXT"; chars "A.COM"; chars "B.TXT"] size eq_refl eq_refl ltac:(discriminate)
    ltac:(vm_compute; reflexivity)
    ltac:(repeat constructor; vm_compute; (reflexivity || discriminate))). } }
  { split.
  { refine (proj2 (proj2 ((proj1 (proj2 names_on_the_server)) (example_server [(chars "notes.txt", [1; 2; 3])])
    (Fcb 0 1 (chars "NOTES   TXT") 0 (replicate 19 0) 0 0 0 0) [] (chars "/d")
    (chars "notes") (chars "txt") (chars "notes.txt") 3 _ _ eq_refl eq_refl _)) _).
  - repeat split; try (cbn; lia); repeat constructor; discriminate.
  - split; [vm_compute; repeat constructor; discriminate|done].
  - discriminate.
  - vm_compute. reflexivity. }
  { refine (proj2 ((proj2 (proj2 names_on_the_server)) (example_server []) 0 (chars "/d") (chars "/etc/motd  ") [chars "d"]
    eq_refl _ _) _); vm_compute; reflexivity. } }
Defined.
