(* ===== verification/Netboot.v ===== *)
(** * cpnos-rom/netboot_server.py: the netboot server.

    [netboot] holds the module's dictionaries: [file_map] (8+3 key to host
    path), [open_files] (the content each opened file is read from), [writes]
    (files kept in memory) and the pending search, together with the host.
    Keys are strings of 11 characters.  Each BDOS function of [dispatch_sndmsg]
    is a definition [on_...] in [stM netboot]; [dispatch_sndmsg] selects among
    them as the source's chain of tests does, and [handle] serves one
    connection.  The in-memory [bytearray]s are only reachable through [writes]
    (every other table holds copies), so they are values here. *)

From S2P Require Import Prelude Wire Framing Host.
#[local] Open Scope Z_scope.

(** ** State *)

Record netboot : Type := Netboot {
  file_map : gmap str str;
  open_files : gmap str bytes;
  writes : gmap str bytes;
  pattern : option str;
  pending : list str;
  disk : host
}.

Definition set_file_map (s : netboot) m := Netboot m (open_files s) (writes s) (pattern s) (pending s) (disk s).
Definition set_open_files (s : netboot) m := Netboot (file_map s) m (writes s) (pattern s) (pending s) (disk s).
Definition set_writes (s : netboot) m := Netboot (file_map s) (open_files s) m (pattern s) (pending s) (disk s).
Definition set_found (s : netboot) p l := Netboot (file_map s) (open_files s) (writes s) p l (disk s).
Definition set_disk (s : netboot) h := Netboot (file_map s) (open_files s) (writes s) (pattern s) (pending s) h.

Definition disk_call {A} (m : stM host A) : stM netboot A :=
  fun s => (fst (m (disk s)), set_disk s (snd (m (disk s)))).
Definition disk_ask {A} (f : host -> outcome A) : stM netboot A := fun s => (f (disk s), s).

(** ** Building the tables *)

(** [s.rpartition('.')] as its first and last part; without a dot the first is
    empty and the last is [s]. *)
Definition rpartition_dot (s : str) : str * str :=
  match rsplit_dot s with
  | (b, Some e) => (b, e)
  | (b, None) => ([], b)
  end.

(** [s.upper().ljust(n)[:n]]. *)
Definition field (n : nat) (s : str) : str := take n (ljust n 32 (upper s)).

Definition map_key (fn : str) : str :=
  let '(base, ext) := rpartition_dot fn in
  let '(base, ext) := match base with [] => (fn, []) | _ => (base, ext) end in
  field 8 base ++ field 3 ext.

Definition add_file (h : host) (root : str) (m : gmap str str) (fn : str) : gmap str str :=
  let full := path_join root fn in
  if isfile h full then <[map_key fn := full]> m else m.

Definition add_root (h : host) (m : gmap str str) (root : str) : outcome (gmap str str) :=
  if negb (isdir h root) then Ret m
  else names ← listdir h root; Ret (foldl (add_file h root) m (sorted names)).

Definition setdefault {A} (m : gmap str A) (k : str) (v : A) : gmap str A :=
  match m !! k with Some _ => m | None => <[k := v]> m end.

(** The roots are the DRI distribution and the test helpers; [cpnos_com] is the
    composite image. *)
Definition build_file_map (h : host) (dist testutil cpnos_com : str) : outcome (gmap str str) :=
  m ← add_root h ∅ dist;
  m ← add_root h m testutil;
  let m := setdefault m (chars "CCP     SPR") (path_join dist (chars "ccp.spr")) in
  Ret (setdefault m (chars "CPNOS   IMG") cpnos_com).

(** [f"{n:02X}"] for a byte or more. *)
Definition hex_digit (d : Z) : Z := if d <? 10 then 48 + d else 55 + d.
Fixpoint hex_digits (fuel : nat) (n : Z) (acc : str) : str :=
  match fuel with
  | O => acc
  | S fuel' =>
      let acc := hex_digit (n mod 16) :: acc in
      if n <? 16 then acc else hex_digits fuel' (n / 16) acc
  end.
Definition hex_upper (width : nat) (n : Z) : str :=
  let ds := hex_digits 20 n [] in replicate (width - length ds) 48 ++ ds.

(** [line.encode('ascii', 'replace')]. *)
Definition encode_replace (line : str) : bytes := map (fun c => if c <? 128 then c else 63) line.

Definition is_newline (c : Z) : bool := (c =? 13) || (c =? 10).

Definition sub_record (line : str) : outcome bytes :=
  let line := rstrip_with is_newline line in
  rec ← store (replicate 128 0) 0 (zlength line);
  Ret (slice_set 1 (1 + length line) (encode_replace line) rec).

Fixpoint sub_records (lines : list str) : outcome bytes :=
  match lines with
  | [] => Ret []
  | line :: lines' => r ← sub_record line; rest ← sub_records lines'; Ret (r ++ rest)
  end.

Definition sub_key (slave_id : Z) : str := chars "$" ++ hex_upper 2 slave_id ++ chars "     SUB".

Definition seed_sub_file (slave_id : Z) (commands : list str) : stM netboot unit :=
  match commands with
  | [] => mret tt
  | _ =>
      let key := sub_key slave_id in
      buf ← lift (sub_records (rev commands));
      modify (fun s => set_writes s (<[key := buf]> (writes s)))
  end.

(** ** Looking files up *)

Definition all_keys (s : netboot) : list str :=
  sorted (elements (dom (file_map s) ∪ dom (writes s) : gset str)).

Definition file_content (key : str) : stM netboot (option bytes) :=
  s ← get;
  match writes s !! key with
  | Some buf => mret (Some buf)
  | None =>
      match file_map s !! key with
      | Some (c :: path) =>
          if exists_ (disk s) (c :: path)
          then content ← disk_ask (fun h => open_rb h (c :: path)); mret (Some content)
          else mret None
      | _ => mret None
      end
  end.

Definition file_size (key : str) : stM netboot Z :=
  s ← get;
  match writes s !! key with
  | Some buf => mret (zlength buf)
  | None =>
      match file_map s !! key with
      | Some (c :: path) =>
          if exists_ (disk s) (c :: path) then disk_ask (fun h => getsize h (c :: path)) else mret 0
      | _ => mret 0
      end
  end.

(** [needle in s]. *)
Fixpoint contains (needle s : str) : bool :=
  bool_decide (take (length needle) s = needle) ||
  match s with [] => false | _ :: t => contains needle t end.

(** ** Names and directory entries *)

(** [s.strip()]. *)
Definition strip (s : str) : str := strip_with py_space s.

Definition fcb_key (fcb : bytes) : str :=
  let name := strip (strip7 (slice 1 9 fcb)) in
  let ext := strip (strip7 (slice 9 12 fcb)) in
  upper (ljust 8 32 name ++ ljust 3 32 ext).

Definition pattern_from_search_data (data : bytes) : str :=
  if decide (length data < 35)%nat then replicate 11 63 else
  let start := (length data - 35)%nat in
  let raw := strip7 (slice start (start + 11) data) in
  let s := upper raw in
  take 11 (ljust 11 32 s).

Definition pattern_match (pattern key : str) : bool :=
  if decide (length pattern <> 11%nat \/ length key <> 11%nat) then false
  else forallb (fun pk => (fst pk =? 63) || (fst pk =? snd pk)) (zip pattern key).

Definition is_system_file (s : netboot) (key : str) : bool :=
  if starts_with 36 key then true
  else match file_map s !! key with
       | Some (c :: path) => contains (chars "/testutil/") (c :: path)
       | _ => false
       end.

(** [b[i] |= 0x80]. *)
Definition set_bit7 (b : bytes) (i : nat) : outcome bytes :=
  x ← index b i; store b i (Z.lor x 128).

Definition dir_entry (s : netboot) (key : str) (size : Z) : outcome bytes :=
  name ← encode_ascii (take 8 key);
  ext ← encode_ascii (slice 8 11 key);
  ext ← (if bool_decide (is_Some (file_map s !! key)) && bool_decide (writes s !! key = None)
         then set_bit7 ext 0 else Ret ext);
  ext ← (if is_system_file s key then set_bit7 ext 1 else Ret ext);
  let rc := Z.min 128 ((size + 127) / 128) in
  entry ← store (replicate 32 0) 0 0;
  let entry := slice_set 1 9 name entry in
  let entry := slice_set 9 12 ext entry in
  stores entry ([(12%nat, 0); (13%nat, 0); (14%nat, 0); (15%nat, rc)]
                ++ map (fun i => (i, 1)) (seq 16 16)).

Definition zeros (n : nat) : bytes := replicate n 0.

Definition search_reply : stM netboot bytes :=
  s ← get;
  match pending s with
  | [] => mret (255 :: zeros 128)
  | key :: rest =>
      modify (fun s => set_found s (pattern s) rest);;
      size ← file_size key;
      s ← get;
      entry ← lift (dir_entry s key size);
      mret (0 :: entry ++ zeros (128 - length entry))
  end.

(** ** The BDOS functions *)

(** [bytearray(data[1:37]) if len(data) >= 37 else bytearray(36)]. *)
Definition fcb_or_zeros (data : bytes) : bytes :=
  if decide (37 <= length data)%nat then slice 1 37 data else zeros 36.
(** ... [else bytearray((data[1:] if data else b'').ljust(36, b'\0'))]. *)
Definition fcb_or_padded (data : bytes) : bytes :=
  if decide (37 <= length data)%nat then slice 1 37 data else ljust 36 0 (drop 1 data).
(** [bytes(data[37:165]) if len(data) >= 165 else bytes(data[37:]).ljust(128, b'\0')]. *)
Definition sector_of (data : bytes) : bytes :=
  if decide (165 <= length data)%nat then slice 37 165 data else ljust 128 0 (drop 37 data).

(** Extend the buffer up to the record and store the sector. *)
Definition put_sector (buf : bytes) (offset : Z) (sector : bytes) : bytes :=
  let buf := if zlength buf <? offset + 128
             then buf ++ replicate (Z.to_nat (offset + 128 - zlength buf)) 0 else buf in
  takeZ offset buf ++ sector ++ dropZ (offset + 128) buf.

(** [content[offset:offset + 128]]. *)
Definition get_sector (content : bytes) (offset : Z) : bytes := takeZ 128 (dropZ offset content).

(** The next sequential position. *)
Definition next_pos (ex cr : Z) : Z * Z := if 128 <=? cr + 1 then (ex + 1, 0) else (ex, cr + 1).

(** The 34-byte reply of OPEN and MAKE. *)
Definition name_reply (data : bytes) (kvs : list (nat * Z)) : outcome bytes :=
  reply ← store (zeros 34) 0 0;
  d1 ← index data 1;
  reply ← store reply 1 (Z.land d1 15);
  let reply := slice_set 2 13 (strip7 (slice 2 13 data)) reply in
  stores reply kvs.

Definition on_open (data : bytes) : stM netboot bytes :=
  let fcb_in := fcb_or_zeros data in
  let key := fcb_key fcb_in in
  content ← file_content key;
  match content with
  | None => mret [255]
  | Some content =>
      modify (fun s => set_open_files s (<[key := content]> (open_files s)));;
      let records := Z.min 128 ((zlength content + 127) / 128) in
      lift (name_reply data [(13%nat, 0); (14%nat, 0); (15%nat, 0); (16%nat, records)])
  end.

Definition on_make (data : bytes) : stM netboot bytes :=
  let fcb_in := fcb_or_zeros data in
  let key := fcb_key fcb_in in
  s ← get;
  match file_map s !! key with
  | Some _ => mret [255]
  | None =>
      modify (fun s => set_writes s (<[key := []]> (writes s)));;
      modify (fun s => set_open_files s (<[key := []]> (open_files s)));;
      lift (name_reply data [])
  end.

Definition on_write_seq (data : bytes) : stM netboot bytes :=
  let fcb := fcb_or_zeros data in
  let sector := sector_of data in
  let key := fcb_key fcb in
  s ← get;
  match writes s !! key with
  | None => mret (255 :: fcb)
  | Some buf =>
      ex ← lift (index fcb 12);
      cr ← lift (index fcb 32);
      let record := ex * 128 + cr in
      let offset := record * 128 in
      let buf := put_sector buf offset sector in
      modify (fun s => set_writes s (<[key := buf]> (writes s)));;
      modify (fun s => set_open_files s (<[key := buf]> (open_files s)));;
      let '(ex, cr) := next_pos ex cr in
      fcb ← lift (stores fcb [(12%nat, ex); (32%nat, cr)]);
      mret (0 :: fcb)
  end.

Definition on_read_seq (data : bytes) : stM netboot bytes :=
  let fcb := fcb_or_padded data in
  let key := fcb_key fcb in
  s ← get;
  match open_files s !! key with
  | None => mret (255 :: fcb ++ zeros 128)
  | Some content =>
      ex ← lift (index fcb 12);
      cr ← lift (index fcb 32);
      let record := ex * 128 + cr in
      let offset := record * 128 in
      if zlength content <=? offset then mret (1 :: fcb ++ zeros 128) else
      let sector := ljust 128 26 (get_sector content offset) in
      let '(ex, cr) := next_pos ex cr in
      fcb ← lift (stores fcb [(12%nat, ex); (32%nat, cr)]);
      mret (0 :: fcb ++ sector)
  end.

(** The name CLOSE saves a written file under. *)
Definition clean_name (key : str) : str :=
  map (fun c => if (c =? 32) || (c =? 47) then 95 else c) (strip key).
Definition out_dir : str := chars "/tmp/cpnos_writes".

Definition on_close (data : bytes) : stM netboot bytes :=
  let fcb := fcb_or_padded data in
  let key := fcb_key fcb in
  modify (fun s => set_open_files s (delete key (open_files s)));;
  s ← get;
  match writes s !! key with
  | Some buf =>
      disk_call (makedirs 3 out_dir);;
      let out_path := path_join out_dir (clean_name key ++ chars ".bin") in
      disk_call (open_write WB out_path (fun _ => buf))
  | None => mret tt
  end;;
  mret (0 :: fcb).

Definition on_file_size (data : bytes) : stM netboot bytes :=
  let fcb := fcb_or_zeros data in
  let key := fcb_key fcb in
  size ← file_size key;
  let records := (size + 127) / 128 in
  fcb ← lift (stores fcb [(33%nat, Z.land records 255);
                          (34%nat, Z.land (Z.shiftr records 8) 255);
                          (35%nat, Z.land (Z.shiftr records 16) 255)]);
  mret (0 :: fcb).

(** [fcb[33] | (fcb[34] << 8) | (fcb[35] << 16)]. *)
Definition random_record (fcb : bytes) : outcome Z :=
  r0 ← index fcb 33; r1 ← index fcb 34; r2 ← index fcb 35;
  Ret (Z.lor (Z.lor r0 (Z.shiftl r1 8)) (Z.shiftl r2 16)).

Definition on_read_rand (data : bytes) : stM netboot bytes :=
  let fcb := fcb_or_zeros data in
  let key := fcb_key fcb in
  content ← file_content key;
  match content with
  | None => mret (255 :: fcb ++ zeros 128)
  | Some content =>
      record ← lift (random_record fcb);
      let offset := record * 128 in
      let sector := if offset <? zlength content then get_sector content offset else [] in
      let sector := ljust 128 26 sector in
      let status := if offset <? zlength content then 0 else 1 in
      mret (status :: fcb ++ sector)
  end.

Definition on_write_rand (data : bytes) : stM netboot bytes :=
  let fcb := fcb_or_zeros data in
  let sector := sector_of data in
  let key := fcb_key fcb in
  s ← get;
  src ← (match writes s !! key with
         | Some buf => mret (Some buf)
         | None => file_content key      (* copied on the first write *)
         end);
  match src with
  | None => mret (255 :: fcb)
  | Some buf =>
      modify (fun s => set_writes s (<[key := buf]> (writes s)));;
      record ← lift (random_record fcb);
      let offset := record * 128 in
      modify (fun s => set_writes s (<[key := put_sector buf offset sector]> (writes s)));;
      mret (0 :: fcb)
  end.

Definition on_delete (data : bytes) : stM netboot bytes :=
  let fcb := fcb_or_zeros data in
  let key := fcb_key fcb in
  s ← get;
  match writes s !! key with
  | Some _ =>
      modify (fun s => set_writes s (delete key (writes s)));;
      modify (fun s => set_open_files s (delete key (open_files s)));;
      mret (0 :: fcb)
  | None => mret (255 :: fcb)
  end.

(** [if old in m: m[new] = m.pop(old)]. *)
Definition move_key {A} (old new : str) (m : gmap str A) : gmap str A :=
  match m !! old with Some v => <[new := v]> (delete old m) | None => m end.

Definition on_rename (data : bytes) : stM netboot bytes :=
  let fcb := fcb_or_zeros data in
  let old_key := fcb_key fcb in
  b16 ← lift (index fcb 16);
  let new_fcb := b16 :: slice 17 25 fcb ++ slice 25 28 fcb in
  let new_key := fcb_key new_fcb in
  s ← get;
  if bool_decide (writes s !! old_key = None) && bool_decide (file_map s !! old_key = None)
  then mret (255 :: fcb) else
  if bool_decide (is_Some (writes s !! new_key)) || bool_decide (is_Some (file_map s !! new_key))
  then mret (255 :: fcb) else
  modify (fun s => set_writes s (move_key old_key new_key (writes s)));;
  modify (fun s => set_open_files s (move_key old_key new_key (open_files s)));;
  modify (fun s => set_file_map s (move_key old_key new_key (file_map s)));;
  mret (0 :: fcb).

Definition on_search_first (data : bytes) : stM netboot bytes :=
  let p := pattern_from_search_data data in
  modify (fun s => set_found s (Some p) (List.filter (pattern_match p) (all_keys s)));;
  search_reply.

Definition on_search_next : stM netboot bytes := search_reply.

(** ** Dispatch *)

Definition dispatch_sndmsg (hdr data : bytes) : stM netboot bytes :=
  fnc ← lift (index hdr 3);
  if fnc =? 64 then _ ← lift (index hdr 2); mret [0]
  else if fnc =? 65 then _ ← lift (index hdr 2); mret [0]
  else if fnc =? 15 then on_open data
  else if fnc =? 22 then on_make data
  else if fnc =? 21 then on_write_seq data
  else if fnc =? 20 then on_read_seq data
  else if fnc =? 16 then on_close data
  else if fnc =? 35 then on_file_size data
  else if fnc =? 33 then on_read_rand data
  else if fnc =? 34 then on_write_rand data
  else if fnc =? 19 then on_delete data
  else if fnc =? 23 then on_rename data
  else if fnc =? 17 then on_search_first data
  else if fnc =? 18 then on_search_next
  else if fnc =? 12 then mret [34; 0]
  else mret (0 :: zeros 36).

(** The exceptions [handle] ends its session on. *)
Definition ends_session (e : exn) : bool :=
  match e with TimeoutError | EOFError => true | _ => false end.

(** [n] turns of the loop that serves one connection. *)
Fixpoint handle (n : nat) (s : netboot) : prog (outcome unit * netboot) :=
  match n with
  | O => mret (Raise OutOfFuel, s)
  | S n' =>
      msg ← attempt (snios_recv_sndmsg 30 5);
      match msg with
      | Raise e => mret (if ends_session e then Ret tt else Raise e, s)
      | Ret (hdr, data) =>
          match dispatch_sndmsg hdr data s with
          | (Raise e, s') => mret (if ends_session e then Ret tt else Raise e, s')
          | (Ret reply, s') =>
              r ← attempt (snios_send_rcvmsg hdr reply None);
              match r with
              | Ret _ => handle n' s'
              | Raise e => mret (if ends_session e then Ret tt else Raise e, s')
              end
          end
      end
  end.

(** What [run] does with a connection: any [Exception] is reported and the
    server goes on with the state it has; [KeyboardInterrupt] is not one. *)
Definition serve_connection (n : nat) (s : netboot) : prog (outcome unit * netboot) :=
  r ← handle n s;
  mret (match fst r with
        | Raise KeyboardInterrupt => Raise KeyboardInterrupt
        | _ => Ret tt
        end, snd r).
