(* ===== verification/NetbootSafe.v ===== *)
(** * The netboot server: invariant, answers, sessions.

    [netboot_ok]: file contents are bytes and every key has 11 characters.
    The functions of [Netboot] keep it and answer payloads that fit a frame, so
    that the test client's sessions finish with this server as they do with the
    CP/NET server ([Session]). *)

From S2P Require Import Prelude Wire Framing Host Server ServerSafe Session Netboot.
#[local] Open Scope Z_scope.

(** ** Invariant *)

Definition netboot_ok (s : netboot) : Prop :=
  host_ok (disk s) /\
  map_Forall (fun k v => length k = 11%nat /\ all_bytes v) (writes s) /\
  map_Forall (fun _ v => all_bytes v) (open_files s) /\
  map_Forall (fun k (_ : str) => length k = 11%nat) (file_map s) /\
  Forall (fun k => length k = 11%nat) (pending s).

Abbreviation boot_safe := (keeps netboot_ok).

Lemma boot_ok_writes s k v :
  netboot_ok s -> length k = 11%nat -> all_bytes v ->
  netboot_ok (set_writes s (<[k := v]> (writes s))).
Proof. intros (Hd & Hw & Ho & Hf & Hp) Hk Hv. split_and!; try done. by apply map_Forall_insert_2. Qed.

Lemma boot_ok_open s k v :
  netboot_ok s -> all_bytes v -> netboot_ok (set_open_files s (<[k := v]> (open_files s))).
Proof. intros (Hd & Hw & Ho & Hf & Hp) Hv. split_and!; try done. by apply map_Forall_insert_2. Qed.

Lemma boot_ok_found s p l :
  netboot_ok s -> Forall (fun k => length k = 11%nat) l -> netboot_ok (set_found s p l).
Proof. intros (Hd & Hw & Ho & Hf & Hp) Hl. by split_and!. Qed.

Lemma move_key_Forall {A} (P : str -> A -> Prop) old new m :
  map_Forall P m -> (forall v, P old v -> P new v) -> map_Forall P (move_key old new m).
Proof.
  intros Hm Hpn. unfold move_key. destruct (m !! old) as [v|] eqn:E; [|done].
  apply map_Forall_insert_2; [apply Hpn; by apply Hm|]. by apply map_Forall_delete.
Qed.

(** ** Names *)

Lemma length_strip7_slice a b l : (length (strip (strip7 (slice a b l))) <= b - a)%nat.
Proof.
  unfold strip. pose proof (length_strip_with py_space (strip7 (slice a b l))).
  rewrite length_strip7, length_slice in *. lia.
Qed.

Lemma length_fcb_key fcb : length (fcb_key fcb) = 11%nat.
Proof.
  unfold fcb_key. unfold upper. rewrite length_map, length_app, !length_ljust.
  pose proof (length_strip7_slice 1 9 fcb). pose proof (length_strip7_slice 9 12 fcb). lia.
Qed.

Lemma length_fcb_or_zeros data : length (fcb_or_zeros data) = 36%nat.
Proof. unfold fcb_or_zeros. case_decide; [|done]. rewrite length_slice. lia. Qed.

Lemma length_fcb_or_padded data : length (fcb_or_padded data) = 36%nat.
Proof.
  unfold fcb_or_padded. case_decide; [rewrite length_slice; lia|].
  rewrite length_ljust, length_drop. lia.
Qed.

Lemma zeros_bytes n : all_bytes (zeros n).
Proof. apply zeros_all. Qed.
#[export] Hint Resolve zeros_bytes : py.

Lemma fcb_or_zeros_all data : all_bytes data -> all_bytes (fcb_or_zeros data).
Proof. intros H. unfold fcb_or_zeros. case_decide; auto with py. Qed.

Lemma drop_all n (l : bytes) : all_bytes l -> all_bytes (drop n l).
Proof. apply Forall_drop. Qed.

Lemma pad_zero_all n l : all_bytes l -> all_bytes (ljust n 0 l).
Proof. apply ljust_all_bytes. by split. Qed.

#[export] Hint Resolve fcb_or_zeros_all drop_all pad_zero_all : py.

Lemma fcb_or_padded_all data : all_bytes data -> all_bytes (fcb_or_padded data).
Proof. intros H. unfold fcb_or_padded. case_decide; auto with py. Qed.

Lemma sector_of_all data : all_bytes data -> all_bytes (sector_of data).
Proof. intros H. unfold sector_of. case_decide; auto with py. Qed.

Lemma length_sector_of data : length (sector_of data) = 128%nat.
Proof.
  unfold sector_of. case_decide; [rewrite length_slice; lia|].
  rewrite length_ljust, length_drop. lia.
Qed.

Lemma put_sector_all buf off sector :
  all_bytes buf -> all_bytes sector -> all_bytes (put_sector buf off sector).
Proof.
  intros Hb Hs. unfold put_sector. rewrite takeZ_take, dropZ_drop.
  case_if; repeat apply Forall_app_2; auto using Forall_take, Forall_drop.
  - apply Forall_take, Forall_app; auto with py.
  - apply Forall_drop, Forall_app; auto with py.
Qed.

Lemma get_sector_all c off : all_bytes c -> all_bytes (get_sector c off).
Proof.
  intros H. unfold get_sector. rewrite takeZ_take, dropZ_drop. by apply Forall_take, Forall_drop.
Qed.

Lemma length_get_sector c off : (length (get_sector c off) <= 128)%nat.
Proof. unfold get_sector. rewrite takeZ_take, length_take. lia. Qed.

#[export] Hint Resolve fcb_or_padded_all sector_of_all put_sector_all get_sector_all
  length_fcb_key boot_ok_writes boot_ok_open : py.

(** ** Answers *)

(** A status, an FCB of 36 bytes, and possibly a sector. *)
Lemma fcb_fits st fcb tail :
  is_byte st -> all_bytes fcb -> length fcb = 36%nat -> all_bytes tail -> (length tail <= 128)%nat ->
  fits (st :: fcb ++ tail).
Proof.
  intros. split.
  - constructor; [done|]. by apply Forall_app.
  - cbn. rewrite length_app. lia.
Qed.

Lemma fcb_fits_only st fcb :
  is_byte st -> all_bytes fcb -> length fcb = 36%nat -> fits (st :: fcb).
Proof. intros. rewrite <- (app_nil_r fcb). apply fcb_fits; auto with py. cbn. lia. Qed.

Lemma zero_byte : is_byte 0.
Proof. by split. Qed.
Lemma ff_byte : is_byte 255.
Proof. by split. Qed.
Lemma one_byte : is_byte 1.
Proof. by split. Qed.
#[export] Hint Resolve zero_byte ff_byte one_byte length_fcb_or_zeros length_fcb_or_padded : py.

(** The same FCB with a few bytes stored. *)
Lemma stored_fcb fcb kvs fcb' :
  stores fcb kvs = Ret fcb' -> all_bytes fcb -> length fcb = 36%nat ->
  all_bytes fcb' /\ length fcb' = 36%nat.
Proof. intros [Hl Hb]%stores_keeps H1 H2. split; [auto|congruence]. Qed.

Lemma name_reply_fits data kvs r : name_reply data kvs = Ret r -> fits r.
Proof.
  unfold name_reply. intros H.
  destruct (store (zeros 34) 0 0) as [r0|] eqn:E0; [|done]. cbn in H.
  destruct (index data 1) as [d1|]; [|done]. cbn in H.
  destruct (store r0 1 (Z.land d1 15)) as [r1|] eqn:E1; [|done]. cbn in H.
  apply store_keeps in E0 as [L0 B0]. apply store_keeps in E1 as [L1 B1].
  apply stores_keeps in H as [L2 B2]. unfold zeros in *. rewrite length_replicate in L0.
  split; [apply B2, slice_set_all; [apply strip7_all | auto with py]|].
  rewrite L2, length_slice_set_gen, length_map, length_take, L1, L0. lia.
Qed.

Lemma length_pad_sector l : (length l <= 128)%nat -> length (ljust 128 26 l) = 128%nat.
Proof. intros H. rewrite length_ljust. lia. Qed.

Lemma open_rb_keeps h p c : host_ok h -> open_rb h p = Ret c -> all_bytes c.
Proof. apply open_rb_bytes. Qed.

Lemma file_content_safe {A} key (f : option bytes -> stM netboot A) Q :
  (forall o, (forall c, o = Some c -> all_bytes c) -> boot_safe (f o) Q) ->
  boot_safe (file_content key ≫= f) Q.
Proof.
  intros Hf. eapply keeps_bind; [|exact Hf]. unfold file_content.
  apply keeps_get. intros s Hs. pose proof Hs as (Hd & Hw & Ho & Hfm & Hp).
  destruct (writes s !! key) as [buf|] eqn:Ew.
  - apply keeps_ret. intros c [= ->]. exact (proj2 (Hw _ _ Ew)).
  - destruct (file_map s !! key) as [[|x path]|]; try by apply keeps_ret.
    destruct (exists_ _ _); [|by apply keeps_ret].
    intros s' Hs'. unfold mbind, stM_bind, disk_ask.
    destruct (open_rb (disk s') (x :: path)) as [c|e] eqn:E; cbn; [|by split].
    split; [done|]. intros o [= <-] c' [= <-]. eapply open_rb_keeps; [|exact E]. apply Hs'.
Qed.

Lemma file_size_safe {A} key (f : Z -> stM netboot A) Q :
  (forall n, boot_safe (f n) Q) -> boot_safe (file_size key ≫= f) Q.
Proof.
  intros Hf. eapply (keeps_bind _ _ _ (fun _ => True)); [|intros n _; apply Hf]. unfold file_size.
  apply keeps_get. intros s Hs. destruct (writes s !! key); [by apply keeps_ret|].
  destruct (file_map s !! key) as [[|x path]|]; try by apply keeps_ret.
  destruct (exists_ _ _); [|by apply keeps_ret]. intros s' Hs'. by split.
Qed.

Lemma disk_call_safe {A} (m : stM host A) : host_safe m (fun _ => True) -> boot_safe (disk_call m) (fun _ => True).
Proof.
  intros Hm s (Hd & Hr). destruct (Hm (disk s) Hd) as [Hd' _].
  unfold disk_call. cbn. by split_and!.
Qed.

Lemma set_bit7_keeps b i b' : set_bit7 b i = Ret b' -> length b' = length b.
Proof.
  unfold set_bit7. destruct (index b i) as [x|]; [|done]. cbn. by intros [? _]%store_keeps.
Qed.

Lemma dir_entry_keeps s key size d : dir_entry s key size = Ret d -> all_bytes d /\ (length d <= 64)%nat.
Proof.
  unfold dir_entry. intros H.
  destruct (encode_ascii (take 8 key)) as [name|] eqn:En; [|done]. cbn [mbind outcome_bind] in H.
  destruct (encode_ascii (slice 8 11 key)) as [ext|] eqn:Ee; [|done]. cbn [mbind outcome_bind] in H.
  apply encode_ascii_ok in En as [-> Hn]. apply encode_ascii_ok in Ee as [-> He].
  assert (Hset : forall e i e', set_bit7 e i = Ret e' -> all_bytes e -> all_bytes e').
  { intros e i e'. unfold set_bit7. destruct (index e i); [|done]. cbn. by intros [_ ?]%store_keeps. }
  destruct (if (_ : bool) then set_bit7 _ 0 else _) as [e1|] eqn:E1; [|done]. cbn [mbind outcome_bind] in H.
  destruct (if (_ : bool) then set_bit7 _ 1 else _) as [e2|] eqn:E2; [|done]. cbn [mbind outcome_bind] in H.
  destruct (store (replicate 32 0) 0 0) as [e3|] eqn:E3; [|done]. cbn [mbind outcome_bind] in H.
  apply store_keeps in E3 as [L3 B3]. apply stores_keeps in H as [L4 B4].
  assert (H1 : all_bytes e1 /\ length e1 = length (slice 8 11 key)).
  { destruct (_ && _); [split; eauto using set_bit7_keeps|injection E1 as <-; done]. }
  assert (H2 : all_bytes e2 /\ length e2 = length e1).
  { destruct H1 as [? ?]. destruct (is_system_file _ _); [split; eauto using set_bit7_keeps|injection E2 as <-; done]. }
  destruct H1 as [B1 L1], H2 as [B2 L2]. split; [apply B4; auto 6 with py|].
  rewrite L4, !length_slice_set_gen, L2, L1, L3, length_slice, length_take, length_replicate. lia.
Qed.

Lemma search_reply_safe : boot_safe search_reply fits.
Proof.
  unfold search_reply. apply keeps_get. intros s Hs. pose proof Hs as (_ & _ & _ & _ & Hp).
  destruct (pending s) as [|key rest]; [apply keeps_ret; fits_const|].
  apply Forall_cons in Hp as [_ Hp].
  apply keeps_modify; [intros; by apply boot_ok_found|].
  apply file_size_safe. intros size. apply keeps_get. intros s1 Hs1.
  eapply keeps_bind; [apply keeps_lift; intros e He; exact (dir_entry_keeps _ _ _ _ He)|].
  intros entry [Hb Hl]. cbv beta. apply keeps_ret. split.
  - constructor; [auto with py|]. apply Forall_app. auto with py.
  - cbn. rewrite length_app. unfold zeros. rewrite length_replicate. lia.
Qed.

(** ** The functions *)

Abbreviation boot_ok m := (boot_safe m fits).

Lemma length_zeros n : length (zeros n) = n.
Proof. apply length_replicate. Qed.

(** Close the goals a function's answers leave. *)
Ltac answer :=
  first [ fits_const
        | apply fcb_fits; rewrite ?length_zeros; auto with py; try lia
        | apply fcb_fits_only; auto with py ].

Lemma on_open_ok data : all_bytes data -> boot_ok (on_open data).
Proof.
  intros Hd. unfold on_open. apply file_content_safe. intros [c|] Hc; [|apply keeps_ret; answer].
  apply keeps_modify; [intros; auto with py|].
  apply keeps_lift. intros r. apply name_reply_fits.
Qed.

Lemma on_make_ok data : all_bytes data -> boot_ok (on_make data).
Proof.
  intros Hd. unfold on_make. apply keeps_get. intros s Hs.
  destruct (file_map s !! _); [apply keeps_ret; answer|].
  apply keeps_modify; [intros; auto with py|]. apply keeps_modify; [intros; auto with py|].
  apply keeps_lift. intros r. apply name_reply_fits.
Qed.

Lemma on_write_seq_ok data : all_bytes data -> boot_ok (on_write_seq data).
Proof.
  intros Hd. unfold on_write_seq. apply keeps_get. intros s Hs.
  destruct (writes s !! _) as [buf|] eqn:Ew; [|apply keeps_ret; answer].
  pose proof Hs as (_ & Hw & _). destruct (Hw _ _ Ew) as [_ Hb].
  eapply keeps_bind; [apply keeps_lift; intros ? E; exact E|]. intros ex _.
  eapply keeps_bind; [apply keeps_lift; intros ? E; exact E|]. intros cr _. cbv zeta.
  apply keeps_modify; [intros; auto with py|]. apply keeps_modify; [intros; auto with py|].
  destruct (next_pos ex cr) as [ex' cr'].
  eapply keeps_bind; [apply keeps_lift; intros ? E; exact (stored_fcb _ _ _ E ltac:(auto with py) ltac:(auto with py))|].
  intros fcb [Hb' Hl']. apply keeps_ret. answer.
Qed.

Lemma on_read_seq_ok data : all_bytes data -> boot_ok (on_read_seq data).
Proof.
  intros Hd. unfold on_read_seq. apply keeps_get. intros s Hs.
  destruct (open_files s !! _) as [c|] eqn:Eo; [|apply keeps_ret; answer].
  pose proof Hs as (_ & _ & Ho & _). pose proof (Ho _ _ Eo) as Hb. cbv beta in Hb.
  eapply keeps_bind; [apply keeps_lift; intros ? E; exact E|]. intros ex _.
  eapply keeps_bind; [apply keeps_lift; intros ? E; exact E|]. intros cr _. cbv zeta.
  case_if; [apply keeps_ret; answer|]. destruct (next_pos ex cr) as [ex' cr'].
  eapply keeps_bind; [apply keeps_lift; intros ? E; exact (stored_fcb _ _ _ E ltac:(auto with py) ltac:(auto with py))|].
  intros fcb [Hb' Hl']. apply keeps_ret. apply fcb_fits; auto with py.
  rewrite length_pad_sector; [done|apply length_get_sector].
Qed.

Lemma mkdir_ok_safe p : host_safe (mkdir_ok p) (fun _ => True).
Proof.
  intros h Hh. split; [|done]. unfold mkdir_ok. destruct (locate h p) as [q|]; [|done].
  destruct (fs h !! q) as [[]|]; try done. cbn. by apply host_ok_insert.
Qed.

Lemma makedirs_safe n p : host_safe (makedirs n p) (fun _ => True).
Proof.
  revert p. induction n as [|n IH]; intros p; cbn [makedirs]; [apply keeps_raise|].
  apply keeps_get. intros h Hh. apply keeps_unit_bind; [|apply mkdir_ok_safe].
  destruct (dirname p); [by apply keeps_ret|]. destruct (exists_ _ _); [by apply keeps_ret|apply IH].
Qed.

Lemma boot_ok_delete_open s k : netboot_ok s -> netboot_ok (set_open_files s (delete k (open_files s))).
Proof. intros (Hd & Hw & Ho & Hf & Hp). split_and!; try done. by apply map_Forall_delete. Qed.

Lemma boot_ok_delete_writes s k : netboot_ok s -> netboot_ok (set_writes s (delete k (writes s))).
Proof. intros (Hd & Hw & Ho & Hf & Hp). split_and!; try done. by apply map_Forall_delete. Qed.

Lemma on_close_ok data : all_bytes data -> boot_ok (on_close data).
Proof.
  intros Hd. unfold on_close. apply keeps_modify; [intros; by apply boot_ok_delete_open|].
  apply keeps_get. intros s Hs. apply keeps_unit_bind; [|apply keeps_ret; answer].
  destruct (writes s !! _) as [buf|] eqn:Ew; [|by apply keeps_ret].
  pose proof Hs as (_ & Hw & _). destruct (Hw _ _ Ew) as [_ Hb].
  apply keeps_unit_bind; [apply disk_call_safe, makedirs_safe|].
  by apply disk_call_safe, open_write_safe.
Qed.

Lemma on_file_size_ok data : all_bytes data -> boot_ok (on_file_size data).
Proof.
  intros Hd. unfold on_file_size. apply file_size_safe. intros n. cbv zeta.
  eapply keeps_bind; [apply keeps_lift; intros ? E; exact (stored_fcb _ _ _ E ltac:(auto with py) ltac:(auto with py))|].
  intros fcb [Hb Hl]. apply keeps_ret. answer.
Qed.

Lemma on_read_rand_ok data : all_bytes data -> boot_ok (on_read_rand data).
Proof.
  intros Hd. unfold on_read_rand. apply file_content_safe.
  intros [c|] Hc; [|apply keeps_ret; answer]. specialize (Hc c eq_refl).
  eapply keeps_bind; [apply keeps_lift; intros ? E; exact E|]. intros rec _. cbv zeta.
  apply keeps_ret. apply fcb_fits; auto with py.
  - case_if; by split.
  - apply decode_pad_all. case_if; auto with py.
  - rewrite length_pad_sector; [done|]. case_if; [apply length_get_sector|cbn; lia].
Qed.

Lemma on_write_rand_ok data : all_bytes data -> boot_ok (on_write_rand data).
Proof.
  intros Hd. unfold on_write_rand. apply keeps_get. intros s Hs.
  eapply (keeps_bind _ _ _ (fun o => forall c, o = Some c -> all_bytes c)).
  - destruct (writes s !! _) as [buf|] eqn:Ew.
    + apply keeps_ret. intros c [= ->]. pose proof Hs as (_ & Hw & _). exact (proj2 (Hw _ _ Ew)).
    + intros s' Hs'.
      apply (file_content_safe (fcb_key (fcb_or_zeros data)) (fun o => mret o)
               (fun o => forall c, o = Some c -> all_bytes c)) in Hs'.
      { revert Hs'. unfold mbind, stM_bind. by destruct (file_content _ s') as [[o|e] s'']. }
      intros o Ho. by apply keeps_ret.
  - intros [buf|] Hb; [|apply keeps_ret; answer]. specialize (Hb buf eq_refl).
    apply keeps_modify; [intros; auto with py|].
    eapply keeps_bind; [apply keeps_lift; intros ? E; exact E|]. intros rec _. cbv zeta.
    apply keeps_modify; [intros; auto with py|]. apply keeps_ret. answer.
Qed.

Lemma on_delete_ok data : all_bytes data -> boot_ok (on_delete data).
Proof.
  intros Hd. unfold on_delete. apply keeps_get. intros s Hs.
  destruct (writes s !! _); [|apply keeps_ret; answer].
  apply keeps_modify; [intros; by apply boot_ok_delete_writes|].
  apply keeps_modify; [intros; by apply boot_ok_delete_open|]. apply keeps_ret. answer.
Qed.

Lemma boot_ok_rename s old new : netboot_ok s -> length new = 11%nat ->
  netboot_ok (set_writes s (move_key old new (writes s))) /\
  netboot_ok (set_open_files s (move_key old new (open_files s))) /\
  netboot_ok (set_file_map s (move_key old new (file_map s))).
Proof.
  intros (Hd & Hw & Ho & Hf & Hp) Hn.
  unfold netboot_ok. split_and!; try done; apply move_key_Forall; try done; tauto.
Qed.

Lemma on_rename_ok data : all_bytes data -> boot_ok (on_rename data).
Proof.
  intros Hd. unfold on_rename.
  eapply keeps_bind; [apply keeps_lift; intros ? E; exact E|]. intros b16 _. cbv zeta.
  apply keeps_get. intros s Hs. case_if; [apply keeps_ret; answer|]. case_if; [apply keeps_ret; answer|].
  apply keeps_modify; [intros; apply boot_ok_rename; auto with py|].
  apply keeps_modify; [intros; apply boot_ok_rename; auto with py|].
  apply keeps_modify; [intros; apply boot_ok_rename; auto with py|].
  apply keeps_ret. answer.
Qed.

Lemma all_keys_11 s : netboot_ok s -> Forall (fun k => length k = 11%nat) (all_keys s).
Proof.
  intros (_ & Hw & _ & Hf & _). apply Forall_forall. intros k Hk. unfold all_keys in Hk.
  rewrite (sorted_perm _) in Hk. apply elem_of_elements, elem_of_union in Hk as [Hk|Hk];
    apply elem_of_dom in Hk as [v Hv]; [by apply (Hf k v)|by apply (Hw k v)].
Qed.

Lemma Forall_list_filter {A} (P : A -> Prop) g l : Forall P l -> Forall P (List.filter g l).
Proof. induction 1; cbn; [constructor|]. destruct (g _); auto. Qed.

Lemma on_search_first_ok data : all_bytes data -> boot_ok (on_search_first data).
Proof.
  intros Hd. unfold on_search_first. apply keeps_modify; [|apply search_reply_safe].
  intros s Hs. apply boot_ok_found; [done|]. by apply Forall_list_filter, all_keys_11.
Qed.

Lemma dispatch_ok hdr data : all_bytes data -> boot_ok (dispatch_sndmsg hdr data).
Proof.
  intros Hd. unfold dispatch_sndmsg.
  eapply keeps_bind; [apply keeps_lift; intros ? E; exact E|]. intros fnc _. cbv beta.
  repeat match goal with
  | |- keeps _ (if _ then (_ ← lift _; _) else _) _ =>
      case_if; [eapply keeps_bind; [apply keeps_lift; intros ? E; exact E|];
                intros; apply keeps_ret; fits_const|]
  | |- keeps _ (if _ then mret _ else _) _ => case_if; [apply keeps_ret; fits_const|]
  | |- keeps _ (if _ then _ else _) _ => case_if; [by auto using on_open_ok, on_make_ok, on_write_seq_ok,
      on_read_seq_ok, on_close_ok, on_file_size_ok, on_read_rand_ok, on_write_rand_ok, on_delete_ok,
      on_rename_ok, on_search_first_ok, search_reply_safe|]
  end.
  apply keeps_ret. fits_const.
Qed.

(** ** Sessions *)

Definition boot_answer (q : request) : stM netboot (bytes * bytes) :=
  resp ← dispatch_sndmsg (request_header q) (r_payload q);
  mret (rcvmsg_header (request_header q) resp None, resp).

Fixpoint boot_answers (qs : list request) : stM netboot (list (bytes * bytes)) :=
  match qs with
  | [] => mret []
  | q :: qs' => a ← boot_answer q; r ← boot_answers qs'; mret (a :: r)
  end.

Definition boot_request_ok (q : request) : Prop :=
  is_byte (r_sid q) /\ is_byte (r_fnc q) /\ fits (r_payload q).

Lemma boot_request_wf q : boot_request_ok q -> framable q.
Proof. intros (Hs & Hf & Hp). by apply frame_intro. Qed.

Lemma boot_answer_inv q s a s' :
  boot_answer q s = (Ret a, s') -> exists resp,
    dispatch_sndmsg (request_header q) (r_payload q) s = (Ret resp, s') /\
    a = (rcvmsg_header (request_header q) resp None, resp).
Proof.
  intros (resp & s1 & H1 & H2)%stM_bind_inv. injection H2 as <- <-. eauto.
Qed.

Lemma boot_answer_wf q s a s' :
  boot_request_ok q -> netboot_ok s -> boot_answer q s = (Ret a, s') ->
  netboot_ok s' /\ wf_frame a.1 a.2.
Proof.
  intros (Hs & Hf & Hp) Hok (resp & H & ->)%boot_answer_inv.
  destruct (dispatch_ok (request_header q) (r_payload q) (proj1 Hp) s Hok) as [Hok' Hfit].
  rewrite H in *. cbn [fst snd] in *. split; [done|].
  apply (frame_intro 1 (r_sid q) 0 (r_fnc q)); auto with py.
Qed.

(** One turn of the loop of [handle]. *)
Lemma holds_handle_turn n q a s s' script r :
  boot_request_ok q -> netboot_ok s -> boot_answer q s = (Ret a, s') ->
  holds (handle n s') script r ->
  holds (handle (S n) s) (dual (exchange_script q a) ++ script) r.
Proof.
  intros Hq Hok Ha Hrun. destruct (boot_answer_wf q s a s' Hq Hok Ha) as [_ Hwf].
  pose proof Ha as (resp & H & ->)%boot_answer_inv. cbn [fst snd] in *.
  unfold exchange_script. rewrite dual_app, <- app_assoc. cbn [handle fst snd].
  unfold receiver_script. rewrite dual_involutive.
  eapply holds_bind.
  { apply holds_attempt. exact (receiver_holds (rcv := snios_recv_sndmsg 30 5) _ _ (boot_request_wf q Hq)). }
  cbv beta iota. rewrite H. apply (holds_bind _ _ _ _ (Ret tt)); [|exact Hrun].
  apply holds_attempt.
  assert (Hl : (4 <= length (request_header q, resp).1)%nat) by (cbn; lia).
  exact (snios_send_rcvmsg_sender (exist _ (request_header q, resp) Hl) Hwf).
Qed.

Lemma holds_handle qs s ars s' :
  Forall boot_request_ok qs -> netboot_ok s -> boot_answers qs s = (Ret ars, s') ->
  Forall2 (fun q a => framable q /\ wf_frame a.1 a.2) qs ars /\
  holds (handle (length qs) s) (dual (concat (zip_with exchange_script qs ars)))
    (Raise OutOfFuel, s').
Proof.
  intros Hqs. revert s ars. induction Hqs as [|q qs Hq Hqs IH]; intros s ars Hok H.
  - injection H as <- <-. split; [constructor|apply holds_ret].
  - cbn [boot_answers] in H. apply stM_bind_inv in H as (a & s1 & Ha & H).
    apply stM_bind_inv in H as (ars' & s2 & Hars & H). injection H as <- <-.
    destruct (boot_answer_wf q s a s1 Hq Hok Ha) as [Hok1 Hwf].
    destruct (IH s1 ars' Hok1 Hars) as [HF Hrun]. split; [constructor; auto using boot_request_wf|].
    cbn [length zip_with concat]. rewrite dual_app. by eapply holds_handle_turn.
Qed.

(** ** Properties *)

(** C8: netboot sessions.  For every list of requests the netboot server's
    functions answer, a client's exchanges and the server's loop finish together
    under every interleaving of their socket calls, the client holding the
    replies in order, each in a frame with FMT 1, the client's node and its
    function code; and the tables stay well-formed throughout. *)
Theorem netboot_sessions_finish qs ars s s' :
  Forall boot_request_ok qs -> netboot_ok s -> boot_answers qs s = (Ret ars, s') ->
  always_finishes (session qs) (handle (length qs) s) (map Some ars) (Raise OutOfFuel, s') /\
  Forall2 (fun q a => exists resp,
    a = ([1; r_sid q; 0; r_fnc q; zlength resp - 1], resp) /\ fits resp) qs ars.
Proof.
  intros Hqs Hs H. destruct (holds_handle qs s ars s' Hqs Hs H) as [HF Hrun]. split.
  - eapply dual_finishes; [by apply holds_session | exact Hrun].
  - clear HF Hrun. revert s ars Hs H. induction Hqs as [|q qs Hq Hqs IH]; intros s ars Hs H.
    + injection H as <- <-. constructor.
    + cbn [boot_answers] in H. apply stM_bind_inv in H as (a & s1 & Ha & H).
      apply stM_bind_inv in H as (ars' & s2 & Hars & H). injection H as <- <-.
      destruct (boot_answer_wf q s a s1 Hq Hs Ha) as [Hok1 _].
      constructor; [|by apply (IH s1)]. pose proof Ha as (resp & Hd & ->)%boot_answer_inv.
      exists resp. split; [done|].
      destruct Hq as (_ & _ & Hp & _).
      destruct (dispatch_ok (request_header q) (r_payload q) Hp s Hs) as [_ Hf].
      apply Hf. by rewrite Hd.
Qed.

(** A server whose only host file is the boot image. *)
Definition example_boot (image : bytes) : netboot :=
  Netboot {[chars "CPNOS   IMG" := chars "/img"]} ∅ ∅ None []
    (Host (list_to_map [([], NDir 0); ([chars "img"], NFile image)]) [] [] (fun l => l) [] []).

Lemma example_boot_ok image : all_bytes image -> netboot_ok (example_boot image).
Proof.
  intros H. split; [|split_and!; try done].
  - split; [|by split]. intros p n Hp. apply elem_of_list_to_map_2 in Hp.
    apply elem_of_cons in Hp as [[= -> ->]|Hp]; [done|].
    apply elem_of_cons in Hp as [[= -> ->]|Hp]; [done|]. by apply elem_of_nil in Hp.
  - by apply map_Forall_singleton.
Qed.

Lemma netboot_sessions_finish_witness :
  let s := example_boot (replicate 130 7) in
  let q f := Request 1 f (example_fcb "CPNOS   IMG") in
  exists ars s', always_finishes (session [q 15; q 20; q 20; q 20; q 16]) (handle 5 s)
                   (map Some ars) (Raise OutOfFuel, s').
Proof.
  intros s q. eexists _, _.
  refine (proj1 (netboot_sessions_finish [q 15; q 20; q 20; q 20; q 16] _ s _ _ _ _)).
  - assert (Hp : fits (example_fcb "CPNOS   IMG")) by fits_const.
    repeat constructor; try done; apply Hp.
  - apply example_boot_ok. repeat constructor; discriminate.
  - vm_compute. reflexivity.
Defined.
