(* ===== verification/NetbootFiles.v ===== *)
(** * The netboot server's files.

    What READ SEQ, WRITE SEQ, READ RANDOM and WRITE RANDOM of [Netboot] do to the
    in-memory files, on requests written as FCBs ([ServerFiles.fcb]); the boot
    sequence; what a directory search lists; and which host files any request
    can touch. *)

From S2P Require Import Prelude Wire Framing Host Server ServerSafe Session ServerFiles ServerNames.
From S2P Require Import Netboot NetbootSafe.
#[local] Open Scope Z_scope.

(** ** Requests as FCBs *)

(** The key an FCB names. *)
Definition key_of (f : fcb) : str := fcb_key (fcb_tail f).

Lemma fcb_or_zeros_wire f extra : fcb_ok f -> fcb_or_zeros (wire f ++ extra) = fcb_tail f.
Proof.
  intros Hok. unfold fcb_or_zeros. rewrite length_wire, wire_tail by done.
  by rewrite decide_True by lia.
Qed.

Lemma fcb_or_padded_wire f extra : fcb_ok f -> fcb_or_padded (wire f ++ extra) = fcb_tail f.
Proof.
  intros Hok. unfold fcb_or_padded. rewrite length_wire, wire_tail by done.
  by rewrite decide_True by lia.
Qed.

Lemma sector_of_wire f extra : fcb_ok f -> (128 <= length extra)%nat ->
  sector_of (wire f ++ extra) = take 128 extra.
Proof.
  intros Hok Hx. unfold sector_of. rewrite length_wire, wire_data by done.
  by rewrite decide_True by lia.
Qed.

Lemma tail_positions f : fcb_ok f ->
  index (fcb_tail f) 12 = Ret (f_ex f) /\ index (fcb_tail f) 32 = Ret (f_cr f) /\
  random_record (fcb_tail f) = Ret (rand_rec f).
Proof. intros Hok. split_and!; by explode f Hok. Qed.

Lemma tail_advance f ex cr : fcb_ok f -> is_byte ex -> is_byte cr ->
  stores (fcb_tail f) [(12%nat, ex); (32%nat, cr)] = Ret (fcb_tail (at_pos f ex cr)).
Proof.
  intros Hok He Hc. cbn [stores]. unfold store.
  rewrite (proj2 (is_byteb_spec ex) He), (proj2 (is_byteb_spec cr) Hc). by explode f Hok.
Qed.

Lemma tail_advance_bad f ex cr : ~ is_byte ex ->
  stores (fcb_tail f) [(12%nat, ex); (32%nat, cr)] = Raise ValueError.
Proof.
  intros He. cbn [stores]. unfold store. destruct (is_byteb ex) eqn:E; [|done].
  by apply is_byteb_spec in E.
Qed.

Lemma key_of_pos f ex cr : fcb_ok f -> key_of (at_pos f ex cr) = key_of f.
Proof. intros Hok. unfold key_of. by explode f Hok. Qed.

(** ** Sequential reads *)

Definition boot_read_result (c : bytes) (f : fcb) : outcome bytes :=
  if zlength c <=? seq_rec f * 128 then Ret (1 :: fcb_tail f ++ zeros 128)
  else let '(ex, cr) := advance (f_ex f) (f_cr f) in
       if ex <? 256 then Ret (read_answer f ex cr (read_at c (seq_rec f * 128) 128))
       else Raise ValueError.

Lemma on_read_seq_spec s f extra c :
  fcb_ok f -> open_files s !! key_of f = Some c ->
  on_read_seq (wire f ++ extra) s = (boot_read_result c f, s).
Proof.
  intros Hok Hc. destruct (tail_positions f Hok) as (He & Hcr & _).
  destruct (fcb_ok_bytes f Hok) as [Be Bc].
  unfold on_read_seq. rewrite fcb_or_padded_wire by done. fold (key_of f).
  unfold mbind at 1, stM_bind at 1, get. rewrite Hc, He, Hcr.
  unfold mbind at 1, stM_bind at 1, lift at 1. unfold mbind at 1, stM_bind at 1, lift at 1.
  cbv zeta. fold (seq_rec f). unfold boot_read_result.
  destruct (zlength c <=? seq_rec f * 128); [done|].
  change (next_pos (f_ex f) (f_cr f)) with (advance (f_ex f) (f_cr f)).
  destruct (advance (f_ex f) (f_cr f)) as [ex cr] eqn:Ea.
  destruct (advance_ranges _ _ _ _ Be Bc Ea) as [Rex Rcr].
  unfold mbind, stM_bind, lift. destruct (Z.ltb_spec ex 256).
  - rewrite tail_advance by (unfold is_byte in *; auto; lia). done.
  - rewrite tail_advance_bad by (unfold is_byte in *; lia). done.
Qed.

(** Read an opened file sequentially until the answer is not 0. *)
Fixpoint boot_read_all (n : nat) (f : fcb) : stM netboot (bytes * Z) :=
  match n with
  | O => raise OutOfFuel
  | S n' =>
      r ← on_read_seq (wire f);
      match r with
      | 0 :: _ => rest ← boot_read_all n' (reload f r); mret (slice 37 165 r ++ rest.1, rest.2)
      | rc :: _ => mret ([], rc)
      | [] => raise IndexError
      end
  end.

Section Boot.
Context (s : netboot) (f : fcb) (c : bytes).
Context (Hok : fcb_ok f) (Hc : open_files s !! key_of f = Some c).

Lemma boot_read_from m k :
  Z.of_nat (m + k) = records_of (zlength c) -> records_of (zlength c) <= 32767 ->
  boot_read_all (S m) (at_record f k) s = (Ret (drop (k * 128) (padded c), 1), s).
Proof.
  revert k. pose proof (records_of_bounds (zlength c) ltac:(unfold zlength; lia)) as Hr.
  induction m as [|m IH]; intros k Hm Hsize.
  - cbn [boot_read_all]. unfold mbind, stM_bind. rewrite <- (app_nil_r (wire _)).
    rewrite (on_read_seq_spec s (at_record f k) [] c);
      [|apply at_record_ok; [done|lia]|unfold at_record; by rewrite key_of_pos].
    unfold boot_read_result. rewrite seq_rec_at.
    rewrite (proj2 (Z.leb_le _ _)) by lia.
    rewrite drop_ge; [done|]. rewrite length_padded_file. lia.
  - remember (S m) as n eqn:En. cbn [boot_read_all].
    unfold mbind at 1, stM_bind at 1. rewrite <- (app_nil_r (wire _)).
    rewrite (on_read_seq_spec s (at_record f k) [] c);
      [|apply at_record_ok; [done|lia]|unfold at_record; by rewrite key_of_pos].
    unfold boot_read_result. rewrite seq_rec_at.
    rewrite (proj2 (Z.leb_gt _ _)) by lia. rewrite advance_at_record.
    rewrite (proj2 (Z.ltb_lt _ _) (at_record_ex k ltac:(lia))).
    set (d := read_at c (Z.of_nat k * 128) 128).
    destruct (reload_answer f k (ljust 128 26 d)) as [Hre Hs]; [done|lia|apply length_padded|].
    unfold read_answer in *. rewrite (ljust_full (ljust 128 26 d)) in * by apply length_padded.
    set (r := 0 :: _) in *. cbv iota beta. rewrite Hre, Hs. subst n.
    unfold mbind, stM_bind. rewrite IH by lia. cbn [fst snd mret stM_ret].
    subst d. rewrite padded_sector by lia.
    unfold mret, stM_ret. do 3 f_equal. replace (S k * 128)%nat with (k * 128 + 128)%nat by lia.
    rewrite <- drop_drop. apply take_drop.
Qed.
End Boot.

(** ** Opening *)

Definition boot_open_answer (f : fcb) (c : bytes) : bytes :=
  0 :: Z.land (f_drive f) 15 :: strip7 (f_name f) ++ [0; 0; 0; Z.min 128 (records_of (zlength c))]
  ++ replicate 17 0.

Lemma name_reply_wire f extra rc :
  fcb_ok f -> is_byte rc ->
  name_reply (wire f ++ extra) [(13%nat, 0); (14%nat, 0); (15%nat, 0); (16%nat, rc)] =
  Ret (0 :: Z.land (f_drive f) 15 :: strip7 (f_name f) ++ [0; 0; 0; rc] ++ replicate 17 0).
Proof.
  intros Hok Hrc. unfold name_reply. assert (Hd : is_byte (Z.land (f_drive f) 15)).
  { change 15 with (Z.ones 4). rewrite Z.land_ones by lia. unfold is_byte.
    pose proof (Z.mod_pos_bound (f_drive f) (2 ^ 4)). lia. }
  assert (Hi : index (wire f ++ extra) 1 = Ret (f_drive f)) by done.
  rewrite Hi. unfold store at 1. cbn [mbind outcome_bind zeros].
  unfold store at 1. rewrite (proj2 (is_byteb_spec _) Hd). cbn [mbind outcome_bind stores].
  unfold store. rewrite (proj2 (is_byteb_spec _) Hrc). by explode f Hok.
Qed.

Lemma on_open_spec s f extra c s' :
  fcb_ok f -> file_content (key_of f) s = (Ret (Some c), s') ->
  on_open (wire f ++ extra) s =
  (Ret (boot_open_answer f c), set_open_files s' (<[key_of f := c]> (open_files s'))).
Proof.
  intros Hok Hc. unfold on_open. rewrite fcb_or_zeros_wire by done. fold (key_of f).
  unfold mbind at 1, stM_bind at 1. rewrite Hc. unfold mbind, stM_bind, modify, lift.
  rewrite name_reply_wire; [done|done|].
  pose proof (records_of_bounds (zlength c) ltac:(unfold zlength; lia)). unfold zlength in *.
  change ((Z.of_nat (length c) + 127) / 128) with (records_of (Z.of_nat (length c))).
  unfold is_byte. lia.
Qed.

Lemma file_content_state key s o s' : file_content key s = (o, s') -> s' = s.
Proof.
  unfold file_content, mbind, stM_bind, get. destruct (writes s !! key); [by intros [= _ <-]|].
  destruct (file_map s !! key) as [[|x p]|]; try by intros [= _ <-].
  destruct (exists_ _ _); [|by intros [= _ <-]].
  unfold disk_ask. destruct (open_rb _ _); by intros [= _ <-].
Qed.

(** ** Writes *)

Lemma put_sector_written buf rec data :
  0 <= rec -> length data = 128%nat -> sector_written buf rec data (put_sector buf (rec * 128) data).
Proof.
  intros Hr Hd i. set (o := Z.to_nat (rec * 128)).
  set (b := if zlength buf <? rec * 128 + 128
            then buf ++ replicate (Z.to_nat (rec * 128 + 128 - zlength buf)) 0 else buf).
  assert (Hb : forall j, b !! j = if decide (j < length buf)%nat then buf !! j
                                  else if decide (j < o + 128)%nat then Some 0 else None).
  { intros j. subst b o. unfold zlength. destruct (Z.ltb_spec (Z.of_nat (length buf)) (rec * 128 + 128)).
    - destruct (decide (j < length buf)%nat); [by apply lookup_app_l|].
      rewrite lookup_app_r by lia. case_decide; [apply lookup_replicate_2; lia|].
      apply lookup_ge_None. rewrite length_replicate. lia.
    - repeat case_decide; try lia; [done|]. apply lookup_ge_None. lia. }
  assert (Hl : (o + 128 <= length b)%nat).
  { destruct (decide (o + 128 <= length b)%nat) as [|Hn]; [done|].
    pose proof (Hb (o + 127)%nat) as E. rewrite (lookup_ge_None_2 b) in E by lia.
    repeat case_decide; try lia; try done. symmetry in E. apply lookup_ge_None in E. lia. }
  unfold put_sector. fold b. rewrite takeZ_take, dropZ_drop.
  replace (Z.to_nat (rec * 128 + 128)) with (o + 128)%nat by lia. fold o.
  destruct (decide (i < o)%nat) as [Hi|Hi].
  - rewrite lookup_app_l by (rewrite length_take; lia). rewrite lookup_take_lt, Hb by done.
    repeat case_decide; try lia; done.
  - rewrite lookup_app_r by (rewrite length_take; lia). rewrite length_take.
    replace (Nat.min o (length b)) with o by lia.
    destruct (decide (i < o + 128)%nat).
    + rewrite decide_True by lia. apply lookup_app_l. lia.
    + rewrite decide_False by lia. rewrite lookup_app_r by lia. rewrite lookup_drop, Hb, Hd.
      replace (o + 128 + (i - o - 128))%nat with i by lia. repeat case_decide; try lia; done.
Qed.

Definition with_content (s : netboot) (key : str) (c : bytes) : netboot :=
  set_writes s (<[key := c]> (writes s)).
Definition with_both (s : netboot) (key : str) (c : bytes) : netboot :=
  set_open_files (with_content s key c) (<[key := c]> (open_files s)).

Lemma on_write_seq_spec s f extra buf :
  fcb_ok f -> (128 <= length extra)%nat -> writes s !! key_of f = Some buf ->
  let s' := with_both s (key_of f) (put_sector buf (seq_rec f * 128) (take 128 extra)) in
  let '(ex, cr) := advance (f_ex f) (f_cr f) in
  on_write_seq (wire f ++ extra) s =
  (if ex <? 256 then Ret (0 :: fcb_tail (at_pos f ex cr)) else Raise ValueError, s').
Proof.
  intros Hok Hx Hb s'. destruct (tail_positions f Hok) as (He & Hcr & _).
  destruct (fcb_ok_bytes f Hok) as [Be Bc]. destruct (advance (f_ex f) (f_cr f)) as [ex cr] eqn:Ea.
  destruct (advance_ranges _ _ _ _ Be Bc Ea) as [Rex Rcr].
  unfold on_write_seq. rewrite fcb_or_zeros_wire, sector_of_wire by done. fold (key_of f).
  unfold mbind at 1, stM_bind at 1, get. rewrite Hb, He, Hcr.
  unfold mbind at 1, stM_bind at 1, lift at 1. unfold mbind at 1, stM_bind at 1, lift at 1.
  cbv zeta. fold (seq_rec f).
  change (next_pos (f_ex f) (f_cr f)) with (advance (f_ex f) (f_cr f)). rewrite Ea.
  unfold mbind, stM_bind, modify, lift. destruct (Z.ltb_spec ex 256).
  - rewrite tail_advance by (unfold is_byte in *; auto; lia). done.
  - rewrite tail_advance_bad by (unfold is_byte in *; lia). done.
Qed.

(** The content a random write starts from. *)
Definition base_content (s : netboot) (key : str) : outcome (option bytes) :=
  fst (file_content key s).

Lemma base_of_writes s key buf : writes s !! key = Some buf -> base_content s key = Ret (Some buf).
Proof. intros H. unfold base_content, file_content, mbind, stM_bind, get. by rewrite H. Qed.

Lemma on_write_rand_spec s f extra buf :
  fcb_ok f -> (128 <= length extra)%nat -> base_content s (key_of f) = Ret (Some buf) ->
  on_write_rand (wire f ++ extra) s =
  (Ret (0 :: fcb_tail f),
   with_content s (key_of f) (put_sector buf (rand_rec f * 128) (take 128 extra))).
Proof.
  intros Hok Hx Hb. destruct (tail_positions f Hok) as (_ & _ & Hr).
  unfold on_write_rand. rewrite fcb_or_zeros_wire, sector_of_wire by done. fold (key_of f).
  unfold mbind at 1, stM_bind at 1, get.
  assert (Hsrc : (match writes s !! key_of f with
                  | Some buf => mret (Some buf) | None => file_content (key_of f) end) s
                 = (Ret (Some buf), s)).
  { unfold base_content in Hb. destruct (file_content (key_of f) s) as [o s'] eqn:E. cbn in Hb. subst o.
    pose proof (file_content_state _ _ _ _ E) as ->. pose proof E as E'.
    unfold file_content, mbind, stM_bind, get in E. destruct (writes s !! key_of f); [|done].
    by injection E as ->. }
  unfold mbind at 1, stM_bind at 1. rewrite Hsrc.
  unfold mbind, stM_bind, modify, lift. rewrite Hr. unfold with_content, set_writes. cbn.
  by rewrite insert_insert_eq.
Qed.

Definition boot_rand_answer (f : fcb) (c : bytes) : bytes :=
  (if rand_rec f * 128 <? zlength c then 0 else 1) :: fcb_tail f ++
  ljust 128 26 (if rand_rec f * 128 <? zlength c then read_at c (rand_rec f * 128) 128 else []).

Lemma on_read_rand_spec s f extra c :
  fcb_ok f -> base_content s (key_of f) = Ret (Some c) ->
  on_read_rand (wire f ++ extra) s = (Ret (boot_rand_answer f c), s).
Proof.
  intros Hok Hc. destruct (tail_positions f Hok) as (_ & _ & Hr).
  unfold on_read_rand. rewrite fcb_or_zeros_wire by done. fold (key_of f).
  unfold base_content in Hc. destruct (file_content (key_of f) s) as [o s'] eqn:E. cbn in Hc. subst o.
  pose proof (file_content_state _ _ _ _ E) as ->.
  unfold mbind at 1, stM_bind at 1. rewrite E. unfold mbind, stM_bind, lift. by rewrite Hr.
Qed.

(** A sector that was written is inside the file and reads back. *)
Lemma sector_inside c rec data c' :
  0 <= rec -> length data = 128%nat -> sector_written c rec data c' -> rec * 128 < zlength c'.
Proof.
  intros Hr Hd Hs. unfold zlength. specialize (Hs (Z.to_nat (rec * 128))).
  rewrite decide_True in Hs by lia. rewrite Nat.sub_diag in Hs.
  destruct data as [|b t]; [discriminate Hd|]. apply lookup_lt_Some in Hs. lia.
Qed.

Lemma take_sector (d e : bytes) : length d = 128%nat -> take 128 (d ++ e) = d.
Proof. intros H. by rewrite <- H, take_app_length. Qed.

Lemma key_of_same f g : fcb_ok f -> fcb_ok g -> f_name f = f_name g -> key_of f = key_of g.
Proof.
  intros Hf Hg Hn. unfold key_of, fcb_key.
  assert (H : forall h, fcb_ok h -> slice 1 9 (fcb_tail h) = take 8 (f_name h) /\
                                    slice 9 12 (fcb_tail h) = drop 8 (f_name h)).
  { intros h Hh. split; by explode h Hh. }
  destruct (H f Hf) as [-> ->], (H g Hg) as [-> ->]. by rewrite Hn.
Qed.

(** ** Directory listings *)

(** A key that spells an 8+3 name of upper-case characters. *)
Definition plain_key (k : str) : Prop :=
  exists n x, k = ljust 8 32 n ++ ljust 3 32 x /\ (length n <= 8)%nat /\ (length x <= 3)%nat /\
    Forall name_char n /\ Forall name_char x /\ upper n = n /\ upper x = x.

Lemma strip_padded k n : Forall name_char n -> strip (ljust k 32 n) = n.
Proof.
  intros Hn. unfold strip, strip_with.
  assert (Hsp : forall c, name_char c -> py_space c = false) by (unfold name_char, py_space; intros; lia).
  destruct Hn as [|c n Hc Hn].
  - unfold ljust. cbn [length app]. rewrite Nat.sub_0_r, <- (app_nil_r (replicate k 32)).
    by rewrite drop_while_replicate.
  - unfold ljust. cbn [app drop_while]. rewrite (Hsp c Hc), app_comm_cons.
    apply rstrip_with_pad; [done|]. intros y Hy. apply last_Some in Hy as [l Hl].
    apply Hsp. assert (HF : Forall name_char (c :: n)) by by constructor.
    rewrite Hl in HF. apply Forall_app in HF as [_ HF]. by apply Forall_cons in HF as [? _].
Qed.

Lemma upper_ljust k n : upper (ljust k 32 n) = ljust k 32 (upper n).
Proof.
  unfold ljust. rewrite upper_app, length_upper. f_equal.
  generalize (k - length n)%nat as j. unfold upper. induction j as [|j IH]; [done|]. cbn. by rewrite IH.
Qed.

Lemma attribute_bit x : 0 <= x < 128 -> is_byte (Z.lor x 128) /\ Z.land (Z.lor x 128) 127 = x.
Proof.
  intros H. assert (E : Z.lor x 128 = x + 128) by exact (lor_shiftl x 1 7 ltac:(lia) H).
  rewrite E. split; [unfold is_byte; lia|]. change 127 with (Z.ones 7). rewrite Z.land_ones by lia.
  change (2 ^ 7) with 128. rewrite <- (Z.mul_1_l 128) at 1. rewrite Z.mod_add by lia.
  by apply Z.mod_small.
Qed.

Lemma set_bit7_spec e i x : e !! i = Some x -> 0 <= x < 128 ->
  set_bit7 e i = Ret (<[i := Z.lor x 128]> e).
Proof.
  intros Hi Hx. unfold set_bit7. rewrite (index_in _ _ _ Hi). cbn.
  apply store_in; [by apply attribute_bit|]. by apply lookup_lt_Some in Hi.
Qed.

(** The entry of a key: its name, its extension up to the attribute bits. *)
Lemma dir_entry_spec s (n x : bytes) size :
  length n = 8%nat -> length x = 3%nat -> ascii n -> ascii x -> 0 <= size ->
  exists x', length x' = 3%nat /\ strip7 x' = x /\
    dir_entry s (n ++ x) size =
    Ret (0 :: n ++ x' ++ [0; 0; 0; Z.min 128 (records_of size)] ++ replicate 16 1).
Proof.
  intros Hn Hx An Ax Hs.
  assert (Hrc : is_byte (Z.min 128 (records_of size))).
  { pose proof (records_of_bounds size Hs). unfold is_byte. lia. }
  unfold dir_entry. rewrite take_app_length' by lia.
  assert (Hsl : slice 8 11 (n ++ x) = x).
  { unfold slice. rewrite drop_app_length' by lia. apply take_ge. lia. }
  rewrite Hsl.
  rewrite !encode_ascii_ascii by done. cbn [mbind outcome_bind].
  set (ro := (_ && _)). set (sys := is_system_file _ _). clearbody ro sys.
  change ((size + 127) / 128) with (records_of size).
  do 3 (destruct x as [|? x]; [discriminate Hx|]). destruct x; [|discriminate Hx].
  unfold ascii in Ax. rewrite !Forall_cons in Ax. destruct Ax as (H0 & H1 & H2 & _).
  exists [if ro then Z.lor z 128 else z; if sys then Z.lor z0 128 else z0; z1].
  split; [done|]. split.
  { cbn. f_equal; [|f_equal; [|f_equal]].
    - destruct ro; [by apply attribute_bit|by apply land127_small].
    - destruct sys; [by apply attribute_bit|by apply land127_small].
    - by apply land127_small. }
  assert (E1 : (if ro then set_bit7 [z; z0; z1] 0 else Ret [z; z0; z1]) =
               Ret [if ro then Z.lor z 128 else z; z0; z1]).
  { destruct ro; [|done]. by rewrite (set_bit7_spec _ _ z). }
  rewrite E1. cbn [mbind outcome_bind]. set (y := if ro then _ else _).
  assert (E2 : (if sys then set_bit7 [y; z0; z1] 1 else Ret [y; z0; z1]) =
               Ret [y; if sys then Z.lor z0 128 else z0; z1]).
  { destruct sys; [|done]. by rewrite (set_bit7_spec _ _ z0). }
  rewrite E2. cbn [mbind outcome_bind]. set (y' := if sys then _ else _). clearbody y y'.
  do 8 (destruct n as [|? n]; [discriminate Hn|]). destruct n; [|discriminate Hn].
  cbn. unfold store. rewrite (proj2 (is_byteb_spec _) Hrc). reflexivity.
Qed.

Lemma name_chars_ascii k n : Forall name_char n -> ascii (ljust k 32 n).
Proof.
  intros H. apply ljust_ascii. eapply Forall_impl; [exact H|]. unfold name_char. intros. lia.
Qed.

(** A listed entry, taken as an FCB, names the key it was made from. *)
Lemma entry_names_key s k size : plain_key k -> 0 <= size ->
  exists d, dir_entry s k size = Ret d /\ length d = 32%nat /\ fcb_key d = k.
Proof.
  intros (n & x & -> & Ln & Lx & Cn & Cx & Un & Ux) Hs.
  pose proof (length_ljust_exact 8 32 n Ln) as L8. pose proof (length_ljust_exact 3 32 x Lx) as L3.
  destruct (dir_entry_spec s (ljust 8 32 n) (ljust 3 32 x) size L8 L3
    (name_chars_ascii 8 n Cn) (name_chars_ascii 3 x Cx) Hs) as (x' & L3' & Hx' & ->).
  eexists. split; [reflexivity|]. split.
  - cbn. rewrite !length_app. cbn. lia.
  - unfold fcb_key.
    assert (S1 : forall t, slice 1 9 (0 :: ljust 8 32 n ++ x' ++ t) = ljust 8 32 n).
    { intros t. unfold slice. cbn [drop Nat.sub]. apply take_app_length'. lia. }
    assert (S2 : forall t, slice 9 12 (0 :: ljust 8 32 n ++ x' ++ t) = x').
    { intros t. unfold slice. rewrite app_comm_cons. rewrite drop_app_length' by (cbn; lia).
      replace (12 - 9)%nat with (length x') by lia. apply take_app_length. }
    rewrite S1, S2, Hx', strip7_name, !strip_padded by done.
    by rewrite upper_app, !upper_ljust, Un, Ux.
Qed.

(** SEARCH FIRST, then SEARCH NEXT until the answer is not 0. *)
Fixpoint boot_search_rest (n : nat) : stM netboot (list bytes) :=
  match n with
  | O => raise OutOfFuel
  | S n' =>
      r ← on_search_next;
      match r with
      | 0 :: _ => rest ← boot_search_rest n'; mret (r :: rest)
      | _ => mret []
      end
  end.

Definition boot_search (n : nat) (data : bytes) : stM netboot (list bytes) :=
  r ← on_search_first data;
  match r with
  | 0 :: _ => rest ← boot_search_rest n; mret (r :: rest)
  | _ => mret []
  end.

(** The tables a listing only reads. *)
Definition same_files (s s' : netboot) : Prop :=
  writes s' = writes s /\ file_map s' = file_map s /\ disk s' = disk s.

Lemma file_size_same k s s' : same_files s s' -> file_size k s' = (fst (file_size k s), s').
Proof.
  intros (Hw & Hf & Hd). unfold file_size, mbind, stM_bind, get. rewrite Hw, Hf, Hd.
  destruct (writes s !! k); [done|]. destruct (file_map s !! k) as [[|x path]|]; try done.
  destruct (exists_ _ _); [|done]. unfold disk_ask. by rewrite Hd.
Qed.

Section Listing.
Context (s : netboot) (size : str -> Z).

(** A key that can be listed. *)
Definition listable_key (k : str) : Prop :=
  plain_key k /\ fst (file_size k s) = Ret (size k) /\ 0 <= size k.

Definition lists (k : str) (r : bytes) : Prop := r !! 0%nat = Some 0 /\ fcb_key (slice 1 33 r) = k.

Lemma search_reply_step s' k rest :
  same_files s s' -> pending s' = k :: rest -> listable_key k ->
  exists t, search_reply s' = (Ret (0 :: t), set_found s' (pattern s') rest) /\ lists k (0 :: t).
Proof.
  intros Hsame Hp (Hk & Hsz & Hpos). unfold search_reply. unfold mbind at 1, stM_bind at 1, get.
  rewrite Hp. unfold mbind at 1, stM_bind at 1, modify. set (s1 := set_found s' (pattern s') rest).
  assert (H1 : same_files s s1) by exact Hsame.
  unfold mbind at 1, stM_bind at 1. rewrite (file_size_same k s s1 H1), Hsz.
  unfold mbind at 1, stM_bind at 1.
  destruct (entry_names_key s1 k (size k) Hk Hpos) as (d & Hd & Hl & Hkey).
  unfold mbind, stM_bind, lift. rewrite Hd. eexists. split; [reflexivity|]. split; [done|].
  change (slice 1 33 (0 :: ?t)) with (take 32 t). rewrite take_app_length' by lia. done.
Qed.

Lemma boot_search_rest_spec l s' :
  same_files s s' -> pending s' = l -> Forall listable_key l ->
  exists rs s'', boot_search_rest (S (length l)) s' = (Ret rs, s'') /\ same_files s s'' /\
    pending s'' = [] /\ Forall2 lists l rs.
Proof.
  intros Hsame Hp Hl. revert s' Hsame Hp. induction Hl as [|k l Hk Hl IH]; intros s' Hsame Hp.
  - exists [], s'. split; [|split_and!; try apply Hsame; try done; constructor].
    cbn [boot_search_rest length]. unfold on_search_next, search_reply, mbind, stM_bind, get.
    by rewrite Hp.
  - destruct (search_reply_step s' k l Hsame Hp Hk) as (t & Ht & Hlist).
    destruct (IH (set_found s' (pattern s') l) Hsame eq_refl) as (rs & s'' & Hrest & Hs'' & Hp'' & HF).
    exists ((0 :: t) :: rs), s''. split; [|split_and!; try apply Hs''; try done; by constructor].
    cbn [length]. remember (S (length l)) as n eqn:En. cbn [boot_search_rest].
    unfold on_search_next, mbind, stM_bind. rewrite Ht. cbv iota beta. by rewrite Hrest.
Qed.
End Listing.

Lemma StronglySorted_list_filter {A} (R : A -> A -> Prop) g l :
  StronglySorted R l -> StronglySorted R (List.filter g l).
Proof.
  induction 1 as [|a l Hl IH Ha]; cbn; [constructor|]. destruct (g a); [|done].
  constructor; [done|]. by apply Forall_list_filter.
Qed.

(** ** What requests can do to the host *)

Section Quiet.
Context (d : host).
Let I (s : netboot) : Prop := disk s = d.
Abbreviation quiet m := (keeps I m (fun _ => True)).

Lemma quiet_bind {A B} (m : stM netboot B) (f : B -> stM netboot A) :
  quiet m -> (forall b, quiet (f b)) -> quiet (m ≫= f).
Proof. intros Hm Hf. eapply keeps_bind; [exact Hm|]. intros b _. apply Hf. Qed.

Lemma quiet_modify g : (forall s, disk (g s) = disk s) -> quiet (modify g).
Proof. intros H s Hs. split; [|done]. unfold I, modify in *. cbn. by rewrite H. Qed.

Lemma quiet_get : quiet get.
Proof. intros s Hs. by split. Qed.

Lemma quiet_ret {A} (a : A) : quiet (mret a).
Proof. by apply keeps_ret. Qed.

Lemma quiet_lift {A} (o : outcome A) : quiet (lift o).
Proof. by apply keeps_lift. Qed.

Lemma quiet_content key : quiet (file_content key).
Proof.
  intros s Hs. destruct (file_content key s) as [o s'] eqn:E.
  apply file_content_state in E as ->. by split.
Qed.

Lemma quiet_size key : quiet (file_size key).
Proof.
  intros s Hs. rewrite (file_size_same key s s) by done. by split.
Qed.

(** Everything but CLOSE. *)
Ltac quiet :=
  repeat match goal with
  | |- keeps _ (_ ≫= _) _ => apply quiet_bind; [|intros ?]; cbv beta zeta
  | |- keeps _ (modify _) _ => apply quiet_modify; reflexivity
  | |- keeps _ get _ => apply quiet_get
  | |- keeps _ (mret _) _ => apply quiet_ret
  | |- keeps _ (lift _) _ => apply quiet_lift
  | |- keeps _ (file_content _) _ => apply quiet_content
  | |- keeps _ (file_size _) _ => apply quiet_size
  | |- keeps _ (match ?x with _ => _ end) _ => destruct x
  end.

Lemma quiet_search_reply : quiet search_reply.
Proof. unfold search_reply. quiet. Qed.

Lemma dispatch_quiet hdr data : index hdr 3 <> Ret 16 -> quiet (dispatch_sndmsg hdr data).
Proof.
  intros H. unfold dispatch_sndmsg. destruct (index hdr 3) as [fnc|e]; [|by apply keeps_raise].
  assert (Hl : forall f : Z -> stM netboot bytes, quiet (f fnc) -> quiet (lift (Ret fnc) ≫= f)) by auto.
  apply Hl. assert (H16 : (fnc =? 16) = false) by (apply Z.eqb_neq; congruence). rewrite H16.
  repeat match goal with |- keeps _ (if ?c then _ else _) _ => destruct c end;
    unfold on_open, on_make, on_write_seq, on_read_seq, on_file_size, on_read_rand, on_write_rand,
      on_delete, on_rename, on_search_first, on_search_next; quiet; apply quiet_search_reply.
Qed.
End Quiet.

(** A path that was reached lists the components it went through. *)
Definition component (c : str) : Prop := c <> [] /\ c <> chars "." /\ c <> chars "..".

Lemma walk_components m cur cs q :
  Forall component cs -> walk m cur cs = Some q -> q = cur ++ cs.
Proof.
  intros Hcs. revert cur. induction Hcs as [|c cs (H1 & H2 & H3) Hcs IH]; intros cur H.
  - injection H as <-. by rewrite app_nil_r.
  - cbn [walk] in H. destruct (is_dir m cur); [|done]. rewrite !decide_False in H by done.
    apply IH in H. by rewrite H, <- app_assoc.
Qed.

Lemma locate_absolute h p cs q :
  split_on 47 p = [] :: cs -> starts_with 47 p = true -> Forall component cs ->
  locate h p = Ret q -> q = cs.
Proof.
  intros Hsp Hst Hcs. unfold locate, resolve. destruct (decide (0 ∈ p)); [done|].
  destruct p as [|x p]; [done|]. rewrite Hst, Hsp. cbn [walk].
  destruct (is_dir (fs h) []); [|done]. rewrite decide_True by done.
  destruct (walk (fs h) [] cs) as [q'|] eqn:E; [|done]. cbn. destruct (decide _); [done|].
  intros [= <-]. by apply walk_components in E.
Qed.

(** The places CLOSE may create or replace. *)
Definition out_place (q : path) : Prop :=
  q = [chars "tmp"] \/ q = [chars "tmp"; chars "cpnos_writes"] \/
  exists n, q = [chars "tmp"; chars "cpnos_writes"; n].

Definition only_out (h h' : host) : Prop := forall q, ~ out_place q -> fs h' !! q = fs h !! q.

Lemma only_out_trans h1 h2 h3 : only_out h1 h2 -> only_out h2 h3 -> only_out h1 h3.
Proof. intros H1 H2 q Hq. by rewrite H2, H1. Qed.

Lemma only_out_insert h q n : out_place q -> only_out h (with_fs h (<[q := n]> (fs h))).
Proof. intros Hq q' Hq'. cbn. apply lookup_insert_ne. by intros ->. Qed.

Lemma mkdir_only_out p h :
  (forall q, locate h p = Ret q -> out_place q \/ is_dir (fs h) q = true) ->
  only_out h (snd (mkdir_ok p h)).
Proof.
  intros H. unfold mkdir_ok. destruct (locate h p) as [q|e]; [|done].
  destruct (fs h !! q) as [[]|] eqn:E; [done..|]. cbn.
  apply only_out_insert. destruct (H q eq_refl) as [|Hd]; [done|]. unfold is_dir in Hd. by rewrite E in Hd.
Qed.

Lemma mkdir_tmp h : only_out h (snd (mkdir_ok (chars "/tmp") h)).
Proof.
  apply mkdir_only_out. intros q Hq. left. left.
  apply (locate_absolute h (chars "/tmp") [chars "tmp"]) in Hq; [exact Hq|reflexivity..|].
  repeat constructor; discriminate.
Qed.

Lemma mkdir_out_dir h : only_out h (snd (mkdir_ok out_dir h)).
Proof.
  apply mkdir_only_out. intros q Hq. left. right. left.
  apply (locate_absolute h out_dir [chars "tmp"; chars "cpnos_writes"]) in Hq;
    [exact Hq|reflexivity..|]. repeat constructor; discriminate.
Qed.

Lemma mkdir_root h : only_out h (snd (mkdir_ok (chars "/") h)).
Proof.
  apply mkdir_only_out. intros q Hq. right. revert Hq. unfold locate, resolve.
  destruct (decide (0 ∈ chars "/")); [done|].
  change (split_on 47 (chars "/")) with [@nil Z; []]. change (starts_with 47 (chars "/")) with true.
  change (chars "/") with [47]. cbv iota. cbn [walk].
  destruct (is_dir (fs h) []) eqn:E; [|by intros]. rewrite !decide_True, ?E by done.
  cbn [mbind outcome_bind]. destruct (decide _); [by intros|]. by intros [= <-].
Qed.

(** Creating the directory creates nothing else. *)
Lemma makedirs_only_out h : only_out h (snd (makedirs 3 out_dir h)).
Proof.
  cbn [makedirs]. change (dirname out_dir) with (chars "/tmp").
  change (dirname (chars "/tmp")) with (chars "/"). change (dirname (chars "/")) with (chars "/").
  unfold mbind, stM_bind, get, raise, mret, stM_ret. cbn [chars].
  destruct (exists_ h _); [apply mkdir_out_dir|].
  destruct (exists_ h _).
  - pose proof (mkdir_tmp h) as H1. destruct (mkdir_ok _ h) as [[[]|e] h1]; [|exact H1].
    eapply only_out_trans; [exact H1|apply mkdir_out_dir].
  - destruct (exists_ h _); [|done].
    pose proof (mkdir_root h) as H0. destruct (mkdir_ok _ h) as [[[]|e] h0]; [|exact H0].
    pose proof (mkdir_tmp h0) as H1. destruct (mkdir_ok _ h0) as [[[]|e] h1];
      [|eapply only_out_trans; [exact H0|exact H1]].
    eapply only_out_trans; [exact H0|]. eapply only_out_trans; [exact H1|apply mkdir_out_dir].
Qed.

Lemma clean_name_no_slash key : 47 ∉ clean_name key ++ chars ".bin".
Proof.
  intros [H|H]%elem_of_app.
  - unfold clean_name in H. apply list_elem_of_fmap in H as (c & E & _).
    destruct (Z.eqb_spec c 32), (Z.eqb_spec c 47); cbn in E; congruence || lia.
  - cbn in H. rewrite !elem_of_cons in H. destruct H as [?|[?|[?|[?|H]]]]; try discriminate.
    by apply elem_of_nil in H.
Qed.

Lemma bin_component n : component (n ++ chars ".bin").
Proof.
  assert (H : (4 <= length (n ++ chars ".bin"))%nat) by (rewrite length_app; cbn; lia).
  split_and!; intros E; rewrite E in H; cbn in H; lia.
Qed.

Lemma saved_place h key q :
  locate h (path_join out_dir (clean_name key ++ chars ".bin")) = Ret q -> out_place q.
Proof.
  set (n := clean_name key ++ chars ".bin"). intros H.
  assert (Hs : 47 ∉ n) by apply clean_name_no_slash.
  assert (Hj : path_join out_dir n = out_dir ++ 47 :: n).
  { unfold path_join. destruct n as [|x n'] eqn:En; [done|]. cbn [starts_with].
    rewrite (proj2 (Z.eqb_neq x 47)); [done|]. intros ->. apply Hs. left. }
  rewrite Hj in H. right. right. exists n.
  apply (locate_absolute h _ [chars "tmp"; chars "cpnos_writes"; n]) in H; [exact H| |done|].
  - rewrite split_on_app, (split_on_none 47 n Hs). reflexivity.
  - constructor; [|constructor; [|constructor; [apply bin_component|constructor]]]; by split_and!.
Qed.

Lemma open_write_only_out mode p body h :
  (forall q, locate h p = Ret q -> out_place q) -> only_out h (snd (open_write mode p body h)).
Proof.
  intros Hp. unfold open_write. destruct (locate h p) as [q|e] eqn:E; [|done].
  specialize (Hp q eq_refl).
  destruct mode, (fs h !! q) as [[]|]; cbn; try done; by apply only_out_insert.
Qed.

Lemma on_close_only_out data s : only_out (disk s) (disk (snd (on_close data s))).
Proof.
  unfold on_close, mbind, stM_bind, modify, get. cbn [writes set_open_files].
  destruct (writes s !! _) as [buf|]; [|done]. unfold disk_call. cbn [disk set_open_files].
  pose proof (makedirs_only_out (disk s)) as H1.
  destruct (makedirs 3 out_dir (disk s)) as [[[]|e] h1]; cbn [fst snd] in *; [|exact H1].
  set (p := path_join _ _). unfold mret, stM_ret. cbn [disk set_disk].
  pose proof (open_write_only_out WB p (fun _ => buf) h1 (fun q Hq => saved_place _ _ _ Hq)) as H2.
  destruct (open_write WB p (fun _ => buf) h1) as [[[]|e] h2]; by eapply only_out_trans.
Qed.

(** ** Properties *)

(** The boot sequence.  A client that OPENs a file the server has (a file
    in memory, or a mapped host file) and reads it sequentially from record 0,
    each time with the FCB of the last reply, receives the whole file, its last
    record filled up with 0x1A, and then end of file; the host is not touched. *)
Lemma opened_files_are_delivered f s c :
  fcb_ok f -> f_ex f = 0 -> f_cr f = 0 -> records_of (zlength c) <= 32767 ->
  fst (file_content (key_of f) s) = Ret (Some c) ->
  exists s1, on_open (wire f) s = (Ret (boot_open_answer f c), s1) /\ disk s1 = disk s /\
    boot_read_all (S (Z.to_nat (records_of (zlength c)))) f s1 = (Ret (padded c, 1), s1).
Proof.
  intros Hok He Hcr Hsize Hc. destruct (file_content (key_of f) s) as [o s'] eqn:E.
  cbn in Hc. subst o. pose proof (file_content_state _ _ _ _ E) as ->.
  pose proof (on_open_spec s f [] c s Hok E) as Ho. rewrite app_nil_r in Ho.
  eexists. split; [exact Ho|]. split; [done|].
  assert (Ef : at_record f 0 = f) by (unfold at_record; cbn; destruct f; cbn in *; by subst).
  rewrite <- Ef at 1. apply (boot_read_from _ f c Hok); [cbn; by rewrite lookup_insert_eq| |done].
  pose proof (records_of_bounds (zlength c)). unfold zlength in *. lia.
Qed.

(** Writes to a file in memory.  WRITE SEQ on a file the client made
    stores exactly its record (other bytes, and other files, stay; a gap reads as
    zeros), and both READ SEQ and READ RANDOM of that record return it, below
    record 32767. *)
Lemma netboot_writes_read_back s f data extra buf r s' :
  fcb_ok f -> length data = 128%nat -> writes s !! key_of f = Some buf ->
  on_write_seq (wire f ++ data ++ extra) s = (Ret (0 :: r), s') ->
  exists c', sector_written buf (seq_rec f) data c' /\
    writes s' = <[key_of f := c']> (writes s) /\ disk s' = disk s /\
    forall g extra', fcb_ok g -> f_name g = f_name f ->
      (seq_rec g = seq_rec f -> exists ex cr, advance (f_ex g) (f_cr g) = (ex, cr) /\
         (ex < 256 -> on_read_seq (wire g ++ extra') s' =
            (Ret (0 :: fcb_tail (at_pos g ex cr) ++ data), s'))) /\
      (rand_rec g = seq_rec f ->
         on_read_rand (wire g ++ extra') s' = (Ret (0 :: fcb_tail g ++ data), s')).
Proof.
  intros Hok Hd Hb H. set (c' := put_sector buf (seq_rec f * 128) data).
  assert (Hpos : 0 <= seq_rec f) by (destruct (fcb_ok_bytes f Hok); unfold seq_rec, is_byte in *; lia).
  assert (Hw : sector_written buf (seq_rec f) data c') by by apply put_sector_written.
  pose proof (sector_inside _ _ _ _ Hpos Hd Hw) as Hin.
  pose proof (read_sector_written _ _ _ _ Hpos Hd Hw) as Hread.
  pose proof (on_write_seq_spec s f (data ++ extra) buf Hok ltac:(rewrite length_app; lia) Hb) as E.
  rewrite take_sector in E by done. fold c' in E.
  destruct (advance (f_ex f) (f_cr f)) as [ex cr]. cbv zeta in E. rewrite H in E.
  assert (Es : s' = with_both s (key_of f) c') by (destruct (ex <? 256); congruence). subst s'. clear E H.
  exists c'. split_and!; [done|done|done|]. intros g extra' Hg Hn.
  pose proof (key_of_same g f Hg Hok Hn) as Hk. split; intros Hrec.
  - destruct (advance (f_ex g) (f_cr g)) as [ex' cr'] eqn:Ea. exists ex', cr'. split; [done|]. intros Hlt.
    rewrite (on_read_seq_spec _ g extra' c'); [|done|rewrite Hk; cbn; by rewrite lookup_insert_eq].
    unfold boot_read_result. rewrite Hrec, (proj2 (Z.leb_gt _ _)) by lia.
    rewrite Ea, (proj2 (Z.ltb_lt _ _) Hlt), Hread. unfold read_answer. by rewrite ljust_full.
  - rewrite (on_read_rand_spec _ g extra' c');
      [|done|rewrite Hk; apply base_of_writes; cbn; by rewrite lookup_insert_eq].
    unfold boot_rand_answer. rewrite Hrec, (proj2 (Z.ltb_lt _ _) Hin), Hread. by rewrite ljust_full.
Qed.

(** WRITE RANDOM bypasses the opened file.  It stores its record in the
    file READ RANDOM and COMPUTE FILE SIZE look at, but leaves alone the copy
    READ SEQ reads from: every READ SEQ reply is the one it would have been
    before the write, while READ RANDOM of the record returns the new data. *)
Lemma random_writes_are_not_read_sequentially s f data extra buf :
  fcb_ok f -> length data = 128%nat -> base_content s (key_of f) = Ret (Some buf) ->
  exists s', on_write_rand (wire f ++ data ++ extra) s = (Ret (0 :: fcb_tail f), s') /\
    on_read_rand (wire f) s' = (Ret (0 :: fcb_tail f ++ data), s') /\
    (forall request, fst (on_read_seq request s') = fst (on_read_seq request s)).
Proof.
  intros Hok Hd Hb. pose proof (rec_nonneg f handle_write_rand (rand_rec f) Hok (op_write_rand f)) as Hpos.
  pose proof (on_write_rand_spec s f (data ++ extra) buf Hok ltac:(rewrite length_app; lia) Hb) as E.
  rewrite take_sector in E by done.
  set (c' := put_sector buf (rand_rec f * 128) data) in *.
  assert (Hw : sector_written buf (rand_rec f) data c') by by apply put_sector_written.
  eexists. split; [exact E|]. split.
  - rewrite <- (app_nil_r (wire f)).
    rewrite (on_read_rand_spec _ f [] c'); [|done|apply base_of_writes; cbn; by rewrite lookup_insert_eq].
    unfold boot_rand_answer. rewrite (proj2 (Z.ltb_lt _ _) (sector_inside _ _ _ _ Hpos Hd Hw)).
    rewrite (read_sector_written _ _ _ _ Hpos Hd Hw). by rewrite ljust_full.
  - intros request. unfold on_read_seq, mbind, stM_bind, get. cbn [open_files with_content set_writes].
    destruct (open_files s !! _); [|done]. unfold lift.
    destruct (index _ 12); [|done]. destruct (index _ 32); [|done].
    case_if; [done|]. destruct (next_pos _ _). by destruct (stores _ _).
Qed.

(** What reads see of writes.  WRITE SEQ on a file the client made stores
    exactly its record (other bytes and other files stay, a gap reads as zeros), and
    READ SEQ below record 32767 and READ RANDOM return it.  WRITE RANDOM stores its
    record in the file READ RANDOM looks at, which returns it, but leaves alone the
    copy READ SEQ reads from: every READ SEQ reply is what it was before. *)
Lemma netboot_reads_after_writes :
  (forall s f data extra buf r s',
    fcb_ok f -> length data = 128%nat -> writes s !! key_of f = Some buf ->
    on_write_seq (wire f ++ data ++ extra) s = (Ret (0 :: r), s') ->
    exists c', sector_written buf (seq_rec f) data c' /\
      writes s' = <[key_of f := c']> (writes s) /\ disk s' = disk s /\
      forall g extra', fcb_ok g -> f_name g = f_name f ->
        (seq_rec g = seq_rec f -> exists ex cr, advance (f_ex g) (f_cr g) = (ex, cr) /\
           (ex < 256 -> on_read_seq (wire g ++ extra') s' =
              (Ret (0 :: fcb_tail (at_pos g ex cr) ++ data), s'))) /\
        (rand_rec g = seq_rec f ->
           on_read_rand (wire g ++ extra') s' = (Ret (0 :: fcb_tail g ++ data), s'))) /\
  (forall s f data extra buf,
    fcb_ok f -> length data = 128%nat -> base_content s (key_of f) = Ret (Some buf) ->
    exists s', on_write_rand (wire f ++ data ++ extra) s = (Ret (0 :: fcb_tail f), s') /\
      on_read_rand (wire f) s' = (Ret (0 :: fcb_tail f ++ data), s') /\
      (forall request, fst (on_read_seq request s') = fst (on_read_seq request s))).
Proof. split; [exact netboot_writes_read_back|exact random_writes_are_not_read_sequentially]. Qed.

(** The boot sequence and what reads see of writes.  A client that OPENs a
    file the server has (a file in memory, or a mapped host file) and reads it
    sequentially from record 0, each time with the FCB of the last reply, receives
    the whole file, its last record filled up with 0x1A, and then end of file; the
    host is not touched.  WRITE SEQ on a file the client made stores exactly its
    record (other bytes and other files stay, a gap reads as zeros), and READ SEQ
    below record 32767 and READ RANDOM return it.  WRITE RANDOM stores its record
    in the file READ RANDOM looks at, which returns it, but leaves alone the copy
    READ SEQ reads from: every READ SEQ reply is what it was before. *)
Lemma netboot_files_are_served :
  (forall f s c,
  fcb_ok f -> f_ex f = 0 -> f_cr f = 0 -> records_of (zlength c) <= 32767 ->
  fst (file_content (key_of f) s) = Ret (Some c) ->
  exists s1, on_open (wire f) s = (Ret (boot_open_answer f c), s1) /\ disk s1 = disk s /\
    boot_read_all (S (Z.to_nat (records_of (zlength c)))) f s1 = (Ret (padded c, 1), s1)) /\
  ((forall s f data extra buf r s',
    fcb_ok f -> length data = 128%nat -> writes s !! key_of f = Some buf ->
    on_write_seq (wire f ++ data ++ extra) s = (Ret (0 :: r), s') ->
    exists c', sector_written buf (seq_rec f) data c' /\
      writes s' = <[key_of f := c']> (writes s) /\ disk s' = disk s /\
      forall g extra', fcb_ok g -> f_name g = f_name f ->
        (seq_rec g = seq_rec f -> exists ex cr, advance (f_ex g) (f_cr g) = (ex, cr) /\
           (ex < 256 -> on_read_seq (wire g ++ extra') s' =
              (Ret (0 :: fcb_tail (at_pos g ex cr) ++ data), s'))) /\
        (rand_rec g = seq_rec f ->
           on_read_rand (wire g ++ extra') s' = (Ret (0 :: fcb_tail g ++ data), s'))) /\
  (forall s f data extra buf,
    fcb_ok f -> length data = 128%nat -> base_content s (key_of f) = Ret (Some buf) ->
    exists s', on_write_rand (wire f ++ data ++ extra) s = (Ret (0 :: fcb_tail f), s') /\
      on_read_rand (wire f) s' = (Ret (0 :: fcb_tail f ++ data), s') /\
      (forall request, fst (on_read_seq request s') = fst (on_read_seq request s)))).
Proof. split; [exact opened_files_are_delivered|exact netboot_reads_after_writes]. Qed.

(** Directory listings of the netboot server.  When every key matching the
    pattern spells an 8+3 name in upper case and its size can be had, SEARCH
    FIRST followed by SEARCH NEXT until the answer is not 0 lists exactly those
    keys, each once and in ascending order, and changes no file; and each listed
    entry, taken as the FCB of an OPEN, names the key it was listed for, whatever
    attribute bits it carries. *)
Lemma netboot_search_lists_the_matches s data size :
  let p := pattern_from_search_data data in
  let found := List.filter (pattern_match p) (all_keys s) in
  Forall (listable_key s size) found ->
  exists replies s',
    boot_search (length found) data s = (Ret replies, s') /\ same_files s s' /\
    pending s' = [] /\ Forall2 lists found replies /\ StronglySorted str_le found.
Proof.
  intros p found Hf.
  assert (Hsort : StronglySorted str_le found) by apply StronglySorted_list_filter, sorted_sorted.
  unfold boot_search, on_search_first. fold p. unfold mbind, stM_bind, modify. fold found.
  clearbody found. set (s1 := set_found s (Some p) found).
  assert (Hsame : same_files s s1) by done.
  destruct Hf as [|k l Hk Hl].
  - exists [], s1. split_and!; done || constructor.
  - destruct (search_reply_step s size s1 k l Hsame eq_refl Hk) as (t & Ht & Hlist).
    destruct (boot_search_rest_spec s size l (set_found s1 (pattern s1) l) Hsame eq_refl Hl)
      as (rs & s'' & Hrest & Hs'' & Hp'' & HF).
    exists ((0 :: t) :: rs), s''. rewrite Ht. cbv iota beta. cbn [length]. rewrite Hrest.
    split_and!; try apply Hs''; try done. by constructor.
Qed.

(** The files a netbooted client sees.  OPEN followed by sequential reads delivers the
    whole file, padded to records with 1Ah, and then the end of file.  What WRITE SEQ
    stored READ SEQ and READ RANDOM return; what WRITE RANDOM stored only READ RANDOM
    returns, and READ SEQ never.  A search first and as many search nexts as there are
    matching keys list exactly those, in order, each in an entry that names its key,
    and leave nothing pending. *)
Lemma netboot_directory_is_served :
  ((forall f s c,
  fcb_ok f -> f_ex f = 0 -> f_cr f = 0 -> records_of (zlength c) <= 32767 ->
  fst (file_content (key_of f) s) = Ret (Some c) ->
  exists s1, on_open (wire f) s = (Ret (boot_open_answer f c), s1) /\ disk s1 = disk s /\
    boot_read_all (S (Z.to_nat (records_of (zlength c)))) f s1 = (Ret (padded c, 1), s1)) /\
  ((forall s f data extra buf r s',
    fcb_ok f -> length data = 128%nat -> writes s !! key_of f = Some buf ->
    on_write_seq (wire f ++ data ++ extra) s = (Ret (0 :: r), s') ->
    exists c', sector_written buf (seq_rec f) data c' /\
      writes s' = <[key_of f := c']> (writes s) /\ disk s' = disk s /\
      forall g extra', fcb_ok g -> f_name g = f_name f ->
        (seq_rec g = seq_rec f -> exists ex cr, advance (f_ex g) (f_cr g) = (ex, cr) /\
           (ex < 256 -> on_read_seq (wire g ++ extra') s' =
              (Ret (0 :: fcb_tail (at_pos g ex cr) ++ data), s'))) /\
        (rand_rec g = seq_rec f ->
           on_read_rand (wire g ++ extra') s' = (Ret (0 :: fcb_tail g ++ data), s'))) /\
  (forall s f data extra buf,
    fcb_ok f -> length data = 128%nat -> base_content s (key_of f) = Ret (Some buf) ->
    exists s', on_write_rand (wire f ++ data ++ extra) s = (Ret (0 :: fcb_tail f), s') /\
      on_read_rand (wire f) s' = (Ret (0 :: fcb_tail f ++ data), s') /\
      (forall request, fst (on_read_seq request s') = fst (on_read_seq request s))))) /\
  (forall s data size,
  let p := pattern_from_search_data data in
  let found := List.filter (pattern_match p) (all_keys s) in
  Forall (listable_key s size) found ->
  exists replies s',
    boot_search (length found) data s = (Ret replies, s') /\ same_files s s' /\
    pending s' = [] /\ Forall2 lists found replies /\ StronglySorted str_le found).
Proof. split; [exact netboot_files_are_served|exact netboot_search_lists_the_matches]. Qed.

(** What the netboot server does to the host.  Whatever the request, in
    whatever state, no host file outside /tmp/cpnos_writes is created, changed or
    removed (the directory and /tmp are created when missing), and only CLOSE
    touches the host at all. *)
Lemma requests_write_only_the_output_directory hdr data s :
  only_out (disk s) (disk (snd (dispatch_sndmsg hdr data s))) /\
  (index hdr 3 <> Ret 16 -> disk (snd (dispatch_sndmsg hdr data s)) = disk s).
Proof.
  assert (Hq : index hdr 3 <> Ret 16 -> disk (snd (dispatch_sndmsg hdr data s)) = disk s).
  { intros H. by apply (dispatch_quiet (disk s) hdr data H). }
  split; [|done]. destruct (decide (index hdr 3 = Ret 16)) as [E|E]; [|by rewrite Hq].
  unfold dispatch_sndmsg. unfold mbind, stM_bind, lift. rewrite E. apply on_close_only_out.
Qed.

(** C9: the files of the netboot server.  OPEN followed by sequential reads delivers the
    whole file, padded to records with 1Ah, and then the end of file.  What WRITE SEQ
    stored READ SEQ and READ RANDOM return; what WRITE RANDOM stored only READ RANDOM
    returns, and READ SEQ never.  A search first and as many search nexts as there are
    matching keys list exactly those, in order, each in an entry that names its key,
    and leave nothing pending.  Whatever the request, in whatever state, no host file
    outside /tmp/cpnos_writes is created, changed or removed (the directory and /tmp are
    created when missing), and only CLOSE touches the host at all. *)
Theorem netboot_files_are_served_and_kept :
  (((forall f s c,
  fcb_ok f -> f_ex f = 0 -> f_cr f = 0 -> records_of (zlength c) <= 32767 ->
  fst (file_content (key_of f) s) = Ret (Some c) ->
  exists s1, on_open (wire f) s = (Ret (boot_open_answer f c), s1) /\ disk s1 = disk s /\
    boot_read_all (S (Z.to_nat (records_of (zlength c)))) f s1 = (Ret (padded c, 1), s1)) /\
  ((forall s f data extra buf r s',
    fcb_ok f -> length data = 128%nat -> writes s !! key_of f = Some buf ->
    on_write_seq (wire f ++ data ++ extra) s = (Ret (0 :: r), s') ->
    exists c', sector_written buf (seq_rec f) data c' /\
      writes s' = <[key_of f := c']> (writes s) /\ disk s' = disk s /\
      forall g extra', fcb_ok g -> f_name g = f_name f ->
        (seq_rec g = seq_rec f -> exists ex cr, advance (f_ex g) (f_cr g) = (ex, cr) /\
           (ex < 256 -> on_read_seq (wire g ++ extra') s' =
              (Ret (0 :: fcb_tail (at_pos g ex cr) ++ data), s'))) /\
        (rand_rec g = seq_rec f ->
           on_read_rand (wire g ++ extra') s' = (Ret (0 :: fcb_tail g ++ data), s'))) /\
  (forall s f data extra buf,
    fcb_ok f -> length data = 128%nat -> base_content s (key_of f) = Ret (Some buf) ->
    exists s', on_write_rand (wire f ++ data ++ extra) s = (Ret (0 :: fcb_tail f), s') /\
      on_read_rand (wire f) s' = (Ret (0 :: fcb_tail f ++ data), s') /\
      (forall request, fst (on_read_seq request s') = fst (on_read_seq request s))))) /\
  (forall s data size,
  let p := pattern_from_search_data data in
  let found := List.filter (pattern_match p) (all_keys s) in
  Forall (listable_key s size) found ->
  exists replies s',
    boot_search (length found) data s = (Ret replies, s') /\ same_files s s' /\
    pending s' = [] /\ Forall2 lists found replies /\ StronglySorted str_le found)) /\
  (forall hdr data s,
  only_out (disk s) (disk (snd (dispatch_sndmsg hdr data s))) /\
  (index hdr 3 <> Ret 16 -> disk (snd (dispatch_sndmsg hdr data s)) = disk s)).
Proof. split; [exact netboot_directory_is_served|exact requests_write_only_the_output_directory]. Qed.

Lemma netboot_files_are_served_and_kept_witness :
  (((let f := Fcb 0 1 (chars "CPNOS   IMG") 0 (replicate 19 0) 0 0 0 0 in
  exists s1, boot_read_all 3 f s1 = (Ret (replicate 130 7 ++ replicate 126 26, 1), s1)) /\
  ((let f := Fcb 0 1 (chars "OUT     TXT") 0 (replicate 19 0) 2 2 0 0 in
   exists s', on_read_rand (wire f ++ []) s' = (Ret (0 :: fcb_tail f ++ replicate 128 9), s')) /\
  (let f := Fcb 0 1 (chars "CPNOS   IMG") 0 (replicate 19 0) 0 0 0 0 in
   exists s', on_read_rand (wire f) s' = (Ret (0 :: fcb_tail f ++ replicate 128 9), s') /\
     forall request, fst (on_read_seq request s') =
       fst (on_read_seq request (snd (on_open (wire f) (example_boot [1; 2; 3]))))))) /\
  (exists replies s', boot_search 1 (replicate 2 0 ++ replicate 11 63 ++ replicate 24 0) (example_boot [1; 2])
    = (Ret replies, s') /\ Forall2 lists [chars "CPNOS   IMG"] replies)) /\
  (disk (snd (dispatch_sndmsg [0; 0; 1; 19; 0] (example_fcb "CPNOS   IMG") (example_boot [1])))
  = disk (example_boot [1])).
Proof.
  split.
  { split.
  { split.
  { destruct ((proj1 (proj1 (proj1 netboot_files_are_served_and_kept))) (Fcb 0 1 (chars "CPNOS   IMG") 0 (replicate 19 0) 0 0 0 0)
    (example_boot (replicate 130 7)) (replicate 130 7)) as (s1 & _ & _ & H).
  - split; [vm_compute; repeat constructor; discriminate|done].
  - reflexivity.
  - reflexivity.
  - vm_compute. discriminate.
  - vm_compute. reflexivity.
  - exists s1. exact H. }
  { split.
  { set (f := Fcb 0 1 (chars "OUT     TXT") 0 (replicate 19 0) 2 2 0 0).
    set (s := snd (on_make (wire f) (example_boot [1]))).
    assert (Hf : fcb_ok f) by (split; [vm_compute; repeat constructor; discriminate|done]).
    destruct (proj1 (proj2 (proj1 (proj1 netboot_files_are_served_and_kept))) s f (replicate 128 9) [] [] (fcb_tail (at_pos f 0 3))
      (snd (on_write_seq (wire f ++ replicate 128 9 ++ []) s)) Hf eq_refl
      ltac:(vm_compute; reflexivity) ltac:(vm_compute; reflexivity)) as (c' & _ & _ & _ & H).
    eexists. exact (proj2 (H f [] Hf eq_refl) eq_refl). }
  { set (f := Fcb 0 1 (chars "CPNOS   IMG") 0 (replicate 19 0) 0 0 0 0).
    destruct (proj2 (proj2 (proj1 (proj1 netboot_files_are_served_and_kept))) (snd (on_open (wire f) (example_boot [1; 2; 3])))
      f (replicate 128 9) [] [1; 2; 3]) as (s' & _ & H).
    - split; [vm_compute; repeat constructor; discriminate|done].
    - reflexivity.
    - vm_compute. reflexivity.
    - exists s'. exact H. } } }
  { destruct ((proj2 (proj1 netboot_files_are_served_and_kept)) (example_boot [1; 2])
    (replicate 2 0 ++ replicate 11 63 ++ replicate 24 0) (fun _ => 2)) as (rs & s' & H & _ & _ & HF & _).
  - vm_compute List.filter. constructor; [|constructor].
    split; [|split; [vm_compute; reflexivity|discriminate]].
    exists (chars "CPNOS"), (chars "IMG").
    repeat split; try (cbn; lia); repeat constructor; discriminate.
  - exists rs, s'. split; [exact H|exact HF]. } }
  { apply (proj2 ((proj2 netboot_files_are_served_and_kept) [0; 0; 1; 19; 0]
    (example_fcb "CPNOS   IMG") (example_boot [1]))). discriminate. }
Defined.
