(* ===== verification/Pio.v ===== *)
(** * cpnos-rom/cpnet_pio_server.py: the parallel-link bridge.

    An SCB on the parallel link is a bare header, payload and sum byte;
    [recv_scb] also strips the stale byte the link's direction change can put in
    front.  [handle] answers pings itself and everything else with the netboot
    server's [dispatch_sndmsg].  With an upstream server the frame is sent on
    through the envelope of [Framing] instead: [forward] is that part, on the
    upstream socket; the other socket's part of the loop is the same.  Waits
    read byte by byte, which consumes the same bytes as the source's reads of
    several.  Timing statistics are left out. *)

From S2P Require Import Prelude Wire Framing Host Server ServerSafe Session Netboot NetbootSafe.
#[local] Open Scope Z_scope.

(** ** The bridge *)

Definition PING_FNC : Z := 192.
Definition PING_BYTE : Z := 80.
Definition PONG_BYTE : Z := 79.

(** One byte of [sock.recv]. *)
Definition link_byte : prog Z :=
  PRecv (Some 60) (fun r => match r with
                            | RxByte b => PRet b
                            | RxClosed => PRaise EOFError
                            | RxTimeout => PRaise TimeoutError
                            end).

Definition recv_exact (n : nat) : prog bytes := recv_list link_byte n.

Section Link.
Context (SLAVE_SID : Z).

Definition recv_scb : prog (bytes * bytes * Z) :=
  raw ← recv_exact 6;
  r2 ← of_outcome (index raw 2);
  r3 ← of_outcome (index raw 3);
  '(hdr, seed) ← (if r2 =? SLAVE_SID then mret (slice 0 5 raw, slice 5 6 raw)
                  else if r3 =? SLAVE_SID then mret (slice 1 6 raw, [])
                  else PRaise ValueError);
  siz ← of_outcome (index hdr 4);
  let n_payload := siz + 1 in
  let n_remaining := n_payload + 1 - zlength seed in
  rest ← recv_exact (Z.to_nat n_remaining);
  let body := seed ++ rest in
  let payload := takeZ n_payload body in
  cks ← of_outcome (index body (Z.to_nat n_payload));
  let s := u8 (zsum hdr + zsum payload + cks) in
  if negb (s =? 0) then PRaise ValueError else
  mret (hdr, payload, cks).

Definition send_scb (fmt did sid fnc : Z) (payload : bytes) : prog unit :=
  let payload := match payload with [] => [0] | _ => payload end in
  let siz := zlength payload - 1 in
  hdr ← of_outcome (mk_bytes [fmt; did; sid; fnc; siz]);
  let body := hdr ++ payload in
  let cks := u8 (- zsum body) in
  sendall (body ++ [cks]).

Definition handle_ping (hdr payload : bytes) : outcome bytes :=
  match payload with
  | b :: _ => if b =? PING_BYTE then Ret [PONG_BYTE] else Raise ValueError
  | [] => Raise ValueError
  end.

(** One frame passed to the upstream server and its reply: FMT, DID, SID, FNC
    and payload. *)
Definition forward (fuel : nat) (hdr payload : bytes) : prog (list Z * bytes) :=
  upstream_send hdr payload;;
  reply ← upstream_recv fuel;
  mret (take 4 (fst reply), snd reply).

(** What the loop answers a frame with, when there is no upstream server. *)
Definition local_reply (hdr payload : bytes) : stM netboot (list Z * bytes) :=
  fnc ← lift (index hdr 3);
  if fnc =? PING_FNC then
    reply_payload ← lift (handle_ping hdr payload);
    did ← lift (index hdr 2);
    sid ← lift (index hdr 1);
    mret ([1; did; sid; PING_FNC], reply_payload)
  else
    reply_payload ← dispatch_sndmsg hdr payload;
    did ← lift (index hdr 2);
    sid ← lift (index hdr 1);
    mret ([1; did; sid; fnc], reply_payload).

Definition send_reply (r : list Z * bytes) : prog unit :=
  match fst r with
  | [fmt; did; sid; fnc] => send_scb fmt did sid fnc (snd r)
  | _ => PRaise IndexError
  end.

(** [n] turns of the loop of [handle]. *)
Fixpoint handle (n : nat) (s : netboot) : prog (outcome unit * netboot) :=
  match n with
  | O => mret (Raise OutOfFuel, s)
  | S n' =>
      r ← attempt recv_scb;
      match r with
      | Raise e => mret (Raise e, s)
      | Ret (hdr, payload, cks) =>
          match local_reply hdr payload s with
          | (Raise e, s') => mret (Raise e, s')
          | (Ret reply, s') =>
              sent ← attempt (send_reply reply);
              match sent with
              | Ret _ => handle n' s'
              | Raise e => mret (Raise e, s')
              end
          end
      end
  end.

(** The exceptions [run] ends the session on; others escape. *)
Definition ends_link (e : exn) : bool :=
  match e with EOFError | TimeoutError | OSError | ConnectionError => true | _ => false end.

Definition run (n : nat) (s : netboot) : prog (outcome unit * netboot) :=
  r ← handle n s;
  mret (match fst r with
        | Raise e => if ends_link e then Ret tt else Raise e
        | Ret _ => Ret tt
        end, snd r).

(** ** The bytes of a frame *)

Definition scb (hdr payload : bytes) : bytes := hdr ++ payload ++ [u8 (- zsum (hdr ++ payload))].

Lemma hear_link {A} b (f : Z -> prog A) s a :
  holds (f b) s a -> holds (link_byte ≫= f) (In b :: s) a.
Proof. intros H. by apply holds_recv. Qed.

Lemma holds_recv_exact l : holds (recv_exact (length l)) (map In l) l.
Proof. apply holds_recv_list. intros. by apply hear_link. Qed.

Lemma scb_sum hdr payload : u8 (zsum hdr + zsum payload + u8 (- zsum (hdr ++ payload))) = 0.
Proof. rewrite zsum_app. apply u8_add_neg. Qed.

(** What arrives: at most one stale byte, then a frame whose second byte cannot
    be taken for the slave's number. *)
Definition arrives (stale : list Z) (fmt did sid fnc : Z) (payload : bytes) : Prop :=
  sid = SLAVE_SID /\ did <> SLAVE_SID /\ (length stale <= 1)%nat /\ (1 <= length payload)%nat.

(** Exceptions may end a conversation, too. *)
Lemma plays_attempt {A B} n (m : prog A) (f : A -> prog B) s a :
  plays n m s (PRet a) -> plays n (attempt (m ≫= f)) s (attempt (f a)).
Proof.
  intros H. remember (PRet a) as m' eqn:E. revert E.
  induction H; intros ->; cbn; constructor; auto.
Qed.

Lemma attempt_bind {A B} (m : prog A) (f : A -> prog B) s s' a r :
  holds m s a -> holds (attempt (f a)) s' r -> holds (attempt (m ≫= f)) (s ++ s') r.
Proof.
  intros [n Hn] [k Hk]. exists (n + k)%nat. eapply plays_app; [by apply plays_attempt|done].
Qed.

Lemma attempt_recv {B} n l1 l2 (f : bytes -> prog B) r :
  length l1 = n -> holds (attempt (f l1)) (map In l2) r ->
  holds (attempt (recv_exact n ≫= f)) (map In (l1 ++ l2)) r.
Proof. intros <- H. rewrite map_app. eapply attempt_bind; [apply holds_recv_exact|exact H]. Qed.

(** Receiving any five header bytes, payload and sum byte. *)
Lemma holds_recv_scb stale fmt did sid fnc payload cks :
  arrives stale fmt did sid fnc payload ->
  let hdr := [fmt; did; sid; fnc; zlength payload - 1] in
  holds (attempt recv_scb) (map In (stale ++ hdr ++ payload ++ [cks]))
    (if u8 (zsum hdr + zsum payload + cks) =? 0 then Ret (hdr, payload, cks) else Raise ValueError).
Proof.
  intros (Hs & Hd & Hl & Hp) hdr.
  destruct payload as [|p0 payload]; [cbn in Hp; lia|].
  set (data := p0 :: payload) in *.
  assert (Hn : Z.to_nat (zlength data - 1 + 1) = length data) by (unfold zlength; lia).
  assert (Hcks : index (data ++ [cks]) (length data) = Ret cks).
  { unfold index. by rewrite list_lookup_middle. }
  assert (Htake : takeZ (zlength data - 1 + 1) (data ++ [cks]) = data).
  { rewrite takeZ_take, Hn. apply take_app_length. }
  unfold recv_scb. destruct stale as [|x [|y stale]]; [| |cbn in Hl; lia].
  - apply (attempt_recv 6 [fmt; did; sid; fnc; zlength data - 1; p0] (payload ++ [cks])); [done|].
    cbn [index lookup list_lookup of_outcome mbind prog_bind].
    rewrite (proj2 (Z.eqb_eq sid SLAVE_SID) Hs). cbn [mret prog_ret mbind prog_bind].
    change (slice 0 5 _) with hdr. change (slice 5 6 _) with [p0].
    change (index hdr 4) with (Ret (zlength data - 1)). cbn [of_outcome mbind prog_bind].
    rewrite <- (app_nil_r (payload ++ [cks])). apply (attempt_recv _ (payload ++ [cks]) []).
    { unfold zlength, data. rewrite length_app. cbn [length]. lia. }
    change ([p0] ++ payload ++ [cks]) with (data ++ [cks]). rewrite Htake, Hn, Hcks.
    cbn [of_outcome mbind prog_bind]. destruct (_ =? 0); apply holds_ret.
  - apply (attempt_recv 6 [x; fmt; did; sid; fnc; zlength data - 1] (data ++ [cks])); [done|].
    cbn [index lookup list_lookup of_outcome mbind prog_bind].
    rewrite (proj2 (Z.eqb_neq did SLAVE_SID) Hd), (proj2 (Z.eqb_eq sid SLAVE_SID) Hs).
    cbn [mret prog_ret mbind prog_bind]. change (slice 1 6 _) with hdr.
    change (index hdr 4) with (Ret (zlength data - 1)). cbn [of_outcome mbind prog_bind].
    rewrite <- (app_nil_r (data ++ [cks])). apply (attempt_recv _ (data ++ [cks]) []).
    { unfold zlength. rewrite length_app. cbn [length]. lia. }
    cbn [app]. rewrite Htake, Hn, Hcks.
    cbn [of_outcome mbind prog_bind]. destruct (_ =? 0); apply holds_ret.
Qed.

Lemma holds_send_scb fmt did sid fnc payload :
  wf_frame [fmt; did; sid; fnc; zlength payload - 1] payload -> fits payload ->
  holds (send_scb fmt did sid fnc payload)
    (map Out (scb [fmt; did; sid; fnc; zlength payload - 1] payload)) tt.
Proof.
  intros (Hh & _) [_ Hl]. unfold send_scb. destruct payload as [|b t]; [cbn in Hl; lia|].
  rewrite mk_bytes_ok by done. cbn [of_outcome mbind prog_bind]. unfold scb.
  rewrite app_assoc. apply holds_sendall.
Qed.

(** ** Sessions *)

(** One frame from the slave: its FMT, DID, SID and FNC, its payload, and the
    stale byte the link put before it, if any. *)
Record link_request : Type := LinkRequest {
  l_stale : list Z; l_fmt : Z; l_did : Z; l_fnc : Z; l_payload : bytes }.

Definition l_header (q : link_request) : bytes :=
  [l_fmt q; l_did q; SLAVE_SID; l_fnc q; zlength (l_payload q) - 1].

Definition link_ok (q : link_request) : Prop :=
  (length (l_stale q) <= 1)%nat /\ l_did q <> SLAVE_SID /\ is_byte (l_did q) /\ is_byte (l_fnc q) /\
  is_byte SLAVE_SID /\ fits (l_payload q).

Definition link_answer (q : link_request) : stM netboot (list Z * bytes) :=
  local_reply (l_header q) (l_payload q).

Fixpoint link_answers (qs : list link_request) : stM netboot (list (list Z * bytes)) :=
  match qs with
  | [] => mret []
  | q :: qs' => a ← link_answer q; r ← link_answers qs'; mret (a :: r)
  end.

(** What crosses the link: each frame, then its reply. *)
Definition link_script (q : link_request) (a : list Z * bytes) : list act :=
  map In (l_stale q ++ scb (l_header q) (l_payload q)) ++
  map Out (scb (fst a ++ [zlength (snd a) - 1]) (snd a)).

Lemma link_answer_eq q s :
  link_answer q s =
    if l_fnc q =? PING_FNC then
      match handle_ping (l_header q) (l_payload q) with
      | Ret p => (Ret ([1; SLAVE_SID; l_did q; PING_FNC], p), s)
      | Raise e => (Raise e, s)
      end
    else
      match dispatch_sndmsg (l_header q) (l_payload q) s with
      | (Ret p, s') => (Ret ([1; SLAVE_SID; l_did q; l_fnc q], p), s')
      | (Raise e, s') => (Raise e, s')
      end.
Proof.
  unfold link_answer, local_reply, mbind, stM_bind, lift. cbn [l_header index lookup list_lookup].
  by destruct (l_fnc q =? PING_FNC); [destruct (handle_ping _ _)|destruct (dispatch_sndmsg _ _ _) as [[]]].
Qed.

Lemma link_answer_ok q s a s' :
  link_ok q -> netboot_ok s -> link_answer q s = (Ret a, s') ->
  netboot_ok s' /\ fits (snd a) /\
  fst a = [1; SLAVE_SID; l_did q; l_fnc q].
Proof.
  intros (_ & _ & _ & _ & _ & Hp) Hs H. rewrite link_answer_eq in H.
  destruct (Z.eqb_spec (l_fnc q) PING_FNC) as [Ef|_].
  - destruct (handle_ping (l_header q) (l_payload q)) as [p|e] eqn:Ep; [|done].
    injection H as <- <-. rewrite Ef. split_and!; [done| |done].
    unfold handle_ping in Ep. destruct (l_payload q) as [|b t]; [done|].
    destruct (b =? PING_BYTE); [|done]. injection Ep as <-. fits_const.
  - destruct (dispatch_ok (l_header q) (l_payload q) (proj1 Hp) s Hs) as [Hs1 Hf].
    destruct (dispatch_sndmsg (l_header q) (l_payload q) s) as [[p|e] s1]; [|done].
    injection H as <- <-. by split_and!; [|apply Hf|].
Qed.

Lemma holds_link qs : forall s ars s',
  Forall link_ok qs -> netboot_ok s -> link_answers qs s = (Ret ars, s') ->
  holds (handle (length qs) s) (concat (zip_with link_script qs ars)) (Raise OutOfFuel, s').
Proof.
  induction qs as [|q qs IH]; intros s ars s' Hq Hs H.
  - injection H as <- <-. apply holds_ret.
  - apply Forall_cons in Hq as [Hq Hqs]. cbn [link_answers] in H.
    apply stM_bind_inv in H as (a & s1 & Ha & H).
    apply stM_bind_inv in H as (ars' & s2 & Hars & H). injection H as <- <-.
    destruct (link_answer_ok q s a s1 Hq Hs Ha) as (Hs1 & Hfit & Hfst).
    pose proof Hq as (Hl & Hd & Hdb & Hf & Hsid & Hp).
    cbn [length zip_with concat handle]. unfold link_script. rewrite <- !app_assoc.
    eapply holds_bind.
    { unfold scb. apply holds_recv_scb. split_and!; try done. apply Hp. }
    rewrite scb_sum. cbn [Z.eqb]. cbv iota beta. fold (l_header q).
    change (local_reply (l_header q) (l_payload q) s) with (link_answer q s). rewrite Ha.
    apply (holds_bind _ _ _ _ (Ret tt)); [|by apply IH].
    apply holds_attempt. unfold send_reply. rewrite Hfst. apply holds_send_scb; [|done].
    apply frame_intro; auto with py.
Qed.
End Link.

(** ** Properties *)

(** Link frames.  Whatever [send_scb] puts on the link, with or without a
    stale byte in front, [recv_scb] on a slave of that number takes as the same
    header and payload; and when a byte of the payload arrives changed, it raises
    [ValueError], which ends the bridge instead of answering. *)
Lemma link_frames_round_trip sid stale fmt did fnc payload :
  arrives sid stale fmt did sid fnc payload -> fits payload ->
  is_byte fmt -> is_byte did -> is_byte sid -> is_byte fnc ->
  let hdr := [fmt; did; sid; fnc; zlength payload - 1] in
  exists sent cks, holds (send_scb fmt did sid fnc payload) (map Out sent) tt /\
    holds (attempt (recv_scb sid)) (map In (stale ++ sent)) (Ret (hdr, payload, cks)) /\
    forall i x y, payload !! i = Some x -> is_byte y -> x <> y ->
      holds (attempt (recv_scb sid)) (map In (stale ++ hdr ++ <[i := y]> payload ++ [cks]))
        (Raise ValueError).
Proof.
  intros Ha Hf Hb1 Hb2 Hb3 Hb4 hdr. exists (scb hdr payload), (u8 (- zsum (hdr ++ payload))).
  split_and!.
  - apply holds_send_scb; [|done]. by apply frame_intro.
  - pose proof (holds_recv_scb sid stale fmt did sid fnc payload (u8 (- zsum (hdr ++ payload))) Ha) as H.
    cbv zeta in H. fold hdr in H. by rewrite scb_sum in H.
  - intros i x y Hx Hy Hne.
    assert (Ha' : arrives sid stale fmt did sid fnc (<[i := y]> payload)).
    { unfold arrives in *. by rewrite length_insert. }
    pose proof (holds_recv_scb sid stale fmt did sid fnc (<[i := y]> payload)
      (u8 (- zsum (hdr ++ payload))) Ha') as H.
    cbv zeta in H. unfold zlength in H. rewrite length_insert in H. fold (zlength payload) hdr in H.
    rewrite (proj2 (Z.eqb_neq _ 0)) in H; [exact H|].
    rewrite (zsum_insert _ _ x) by done. rewrite zsum_app, u8_add_r.
    replace (zsum hdr + (zsum payload - x + y) + - (zsum hdr + zsum payload)) with (- x + y) by lia.
    apply (u8_sum_changed _ x y); [by eapply all_bytes_lookup; [apply Hf|]|done..|].
    by replace (- x + x) with 0 by lia.
Qed.

(** The bridge answers as the netboot server does.  For every list of
    frames from the slave, pings included, that get an answer, the bridge and the
    link hold exactly the conversation of the frames and their replies, in order:
    DID and SID exchanged, FMT 1, the function code kept, the payload that
    [dispatch_sndmsg] (or the ping) gives, and the tables are those it leaves. *)
Lemma bridge_answers_frames sid qs s ars s' :
  Forall (link_ok sid) qs -> netboot_ok s -> link_answers sid qs s = (Ret ars, s') ->
  holds (handle sid (length qs) s) (concat (zip_with (link_script sid) qs ars)) (Raise OutOfFuel, s') /\
  Forall2 (fun q a => fst a = [1; sid; l_did q; l_fnc q] /\ fits (snd a)) qs ars.
Proof.
  intros Hqs Hs H. split; [by apply holds_link|].
  revert s ars Hs H. induction Hqs as [|q qs Hq Hqs IH]; intros s ars Hs H.
  - injection H as <- <-. constructor.
  - cbn [link_answers] in H. apply stM_bind_inv in H as (a & s1 & Ha & H).
    apply stM_bind_inv in H as (ars' & s2 & Hars & H). injection H as <- <-.
    destruct (link_answer_ok sid q s a s1 Hq Hs Ha) as (Hs1 & Hfit & Hfst).
    constructor; [by split|]. by apply (IH s1).
Qed.

(** C10: the parallel link.  Whatever [send_scb] puts on the link, with or without a
    stale byte in front, [recv_scb] on a slave of that number takes as the same
    header and payload; and when a byte of the payload arrives changed, it raises
    [ValueError], which ends the bridge instead of answering.  The bridge answers as
    the netboot server does: for every list of frames from the slave, pings
    included, that get an answer, the bridge and the link hold exactly the
    conversation of the frames and their replies, in order: DID and SID exchanged,
    FMT 1, the function code kept, the payload that [dispatch_sndmsg] (or the ping)
    gives, and the tables are those it leaves. *)
Theorem bridge_frames_are_answered :
  (forall sid stale fmt did fnc payload,
  arrives sid stale fmt did sid fnc payload -> fits payload ->
  is_byte fmt -> is_byte did -> is_byte sid -> is_byte fnc ->
  let hdr := [fmt; did; sid; fnc; zlength payload - 1] in
  exists sent cks, holds (send_scb fmt did sid fnc payload) (map Out sent) tt /\
    holds (attempt (recv_scb sid)) (map In (stale ++ sent)) (Ret (hdr, payload, cks)) /\
    forall i x y, payload !! i = Some x -> is_byte y -> x <> y ->
      holds (attempt (recv_scb sid)) (map In (stale ++ hdr ++ <[i := y]> payload ++ [cks]))
        (Raise ValueError)) /\
  (forall sid qs s ars s',
  Forall (link_ok sid) qs -> netboot_ok s -> link_answers sid qs s = (Ret ars, s') ->
  holds (handle sid (length qs) s) (concat (zip_with (link_script sid) qs ars)) (Raise OutOfFuel, s') /\
  Forall2 (fun q a => fst a = [1; sid; l_did q; l_fnc q] /\ fits (snd a)) qs ars).
Proof. split; [exact link_frames_round_trip|exact bridge_answers_frames]. Qed.

Lemma bridge_frames_are_answered_witness :
  (exists sent cks, holds (send_scb 0 0 1 64 [80; 87]) (map Out sent) tt /\
    holds (attempt (recv_scb 1)) (map In ([37] ++ sent)) (Ret ([0; 0; 1; 64; 1], [80; 87], cks))) /\
  (let s := example_boot [1] in
  let q := LinkRequest [] 0 0 64 (chars "PASSWORD") in
  let ping := LinkRequest [255] 0 0 192 [80] in
  exists s', holds (handle 1 2 s)
    (concat (zip_with (link_script 1) [q; ping] [([1; 1; 0; 64], [0]); ([1; 1; 0; 192], [79])]))
    (Raise OutOfFuel, s')).
Proof.
  split.
  { destruct ((proj1 bridge_frames_are_answered) 1 [37] 0 0 64 [80; 87]) as (sent & cks & Hs & Hr & _);
    [split_and!; done || (cbn; lia)|fits_const|by split..|].
  exists sent, cks. split; [exact Hs|exact Hr]. }
  { intros s q ping. eexists.
  refine (proj1 ((proj2 bridge_frames_are_answered) 1 [q; ping] s _ _ _ _ _)).
  - constructor; [|constructor; [|constructor]];
      (split; [cbn; lia|split; [discriminate|split; [by split|split; [by split|split; [by split|fits_const]]]]]).
  - apply example_boot_ok. repeat constructor; discriminate.
  - vm_compute. reflexivity. }
Defined.
