(* ===== verification/Imd.v ===== *)
(** * IMD disk images: the format and the programs that read it.

    rcbios/imd2raw.py, rcbios/patch_bios.py, rcbios/imdinfo.py,
    cpm/verify_against_imd.py and rcbios-in-c/verify_checksums.py each have
    their own reader; each has its definitions here.  A reader is a computation
    on the position in the file ([stM Z]); [peek k] is [data[pos + k]],
    [chunk n] is [data[pos:pos + n]; pos += n].  [image] is the format as a
    function from tracks to bytes.  Memory is taken to be unlimited, so that a
    size code of any value gives a sector size. *)

From S2P Require Import Prelude.
#[local] Open Scope Z_scope.

(** ** Reading at a position *)

(** [data.index(c)]. *)
Fixpoint index_of (c : Z) (l : bytes) : outcome Z :=
  match l with
  | [] => Raise ValueError
  | b :: l' => if b =? c then Ret 0 else i ← index_of c l'; Ret (i + 1)
  end.

(** [bytes([b]) * n]. *)
Definition repeatZ (n b : Z) : bytes := replicate (Z.to_nat n) b.

Section Reading.
Context (data : bytes).

Definition peek (k : Z) : stM Z Z := fun pos =>
  (match dropZ (pos + k) data with b :: _ => Ret b | [] => Raise IndexError end, pos).
Definition skip (n : Z) : stM Z unit := modify (fun pos => pos + n).
Definition chunk (n : Z) : stM Z bytes := fun pos => (Ret (takeZ n (dropZ pos data)), pos + n).

(** [while pos < len(data): body]. *)
Fixpoint while_data {A} (fuel : nat) (body : stM Z A) : stM Z (list A) :=
  match fuel with
  | O => raise OutOfFuel
  | S fuel' =>
      pos ← get;
      if pos <? zlength data then
        a ← body;
        r ← while_data fuel' body;
        mret (a :: r)
      else mret []
  end.
End Reading.

(** [for i in range(i, i + n): body]. *)
Fixpoint for_range {A} (i n : nat) (body : nat -> stM Z A) : stM Z (list A) :=
  match n with
  | O => mret []
  | S n' => a ← body i; r ← for_range (S i) n' body; mret (a :: r)
  end.

(** ** rcbios/imd2raw.py *)

(** [(cyl, head, mode, nsect, sectsize, sectors)]. *)
Record raw_track : Type := RawTrack {
  r_cyl : Z; r_head : Z; r_mode : Z; r_nsect : Z; r_sectsize : Z; r_sectors : list (Z * bytes) }.

Module Raw.
Section Parse.
Context (data : bytes).

Definition read_sector (secnums : bytes) (sectsize : Z) (i : nat) : stM Z (Z * bytes) :=
  stype ← peek data 0;
  skip 1;;
  if stype =? 0 then num ← lift (index secnums i); mret (num, repeatZ sectsize 0)
  else if stype =? 1 then num ← lift (index secnums i); d ← chunk data sectsize; mret (num, d)
  else if stype =? 2 then
    num ← lift (index secnums i); b ← peek data 0; skip 1;; mret (num, repeatZ sectsize b)
  else if stype =? 3 then num ← lift (index secnums i); d ← chunk data sectsize; mret (num, d)
  else if stype =? 4 then
    num ← lift (index secnums i); b ← peek data 0; skip 1;; mret (num, repeatZ sectsize b)
  else if stype =? 5 then num ← lift (index secnums i); d ← chunk data sectsize; mret (num, d)
  else if stype =? 6 then
    num ← lift (index secnums i); b ← peek data 0; skip 1;; mret (num, repeatZ sectsize b)
  else if stype =? 7 then num ← lift (index secnums i); d ← chunk data sectsize; mret (num, d)
  else if stype =? 8 then
    num ← lift (index secnums i); b ← peek data 0; skip 1;; mret (num, repeatZ sectsize b)
  else raise (SystemExit 1).

Definition read_track : stM Z raw_track :=
  mode ← peek data 0;
  cyl ← peek data 1;
  head_byte ← peek data 2;
  let head := Z.land head_byte 63 in
  let has_cyl_map := negb (Z.land head_byte 128 =? 0) in
  let has_head_map := negb (Z.land head_byte 64 =? 0) in
  nsect ← peek data 3;
  sectsize_code ← peek data 4;
  let sectsize := Z.shiftl 128 sectsize_code in
  skip 5;;
  secnums ← chunk data nsect;
  (if has_cyl_map then skip nsect else mret tt);;
  (if has_head_map then skip nsect else mret tt);;
  sectors ← for_range 0 (Z.to_nat nsect) (read_sector secnums sectsize);
  mret (RawTrack cyl head mode nsect sectsize sectors).

Definition parse_imd : outcome (list raw_track) :=
  hdr_end ← index_of 26 data;
  fst (while_data data (S (length data)) read_track (hdr_end + 1)).
End Parse.
End Raw.

(** A stable sort on a key. *)
Fixpoint insert_by {A} (le : A -> A -> bool) (x : A) (l : list A) : list A :=
  match l with
  | [] => [x]
  | y :: l' => if le x y then x :: l else y :: insert_by le x l'
  end.
Definition sort_by {A} (le : A -> A -> bool) (l : list A) : list A := foldr (insert_by le) [] l.
Definition by_number {B} (a b : Z * B) : bool := fst a <=? fst b.

(** The loop stops at the first track of another cylinder; a track without
    sectors has no [sectors[0]] to print. *)
Fixpoint track0_bytes (tracks : list raw_track) : outcome bytes :=
  match tracks with
  | [] => Ret []
  | t :: tracks' =>
      if negb (r_cyl t =? 0) then Ret [] else
      let sectors := sort_by by_number (r_sectors t) in
      match sectors with
      | [] => Raise IndexError
      | _ => r ← track0_bytes tracks'; Ret (concat (map snd sectors) ++ r)
      end
  end.

Definition extract_track0 (data : bytes) : outcome bytes :=
  tracks ← Raw.parse_imd data;
  track0_bytes tracks.

(** ** rcbios/patch_bios.py *)

Record trk : Type := Trk {
  k_cyl : Z; k_head : Z; k_head_byte : Z; k_mode : Z; k_nsect : Z; k_sectsize_code : Z;
  k_sectsize : Z; k_secnums : bytes; k_sectors : list (Z * bytes); k_raw_start : Z; k_raw_end : Z }.

Module Patch.
Section Parse.
Context (data : bytes).

Definition read_sector (secnums : bytes) (sectsize : Z) (i : nat) : stM Z (Z * bytes) :=
  stype ← peek data 0;
  skip 1;;
  if stype =? 0 then num ← lift (index secnums i); mret (num, repeatZ sectsize 0)
  else if bool_decide (stype ∈ [1; 3; 5; 7]) then
    num ← lift (index secnums i); d ← chunk data sectsize; mret (num, d)
  else if bool_decide (stype ∈ [2; 4; 6; 8]) then
    num ← lift (index secnums i); b ← peek data 0; skip 1;; mret (num, repeatZ sectsize b)
  else raise (SystemExit 1).

Definition read_track : stM Z trk :=
  raw_start ← get;
  mode ← peek data 0;
  cyl ← peek data 1;
  head_byte ← peek data 2;
  let head := Z.land head_byte 63 in
  let has_cyl_map := negb (Z.land head_byte 128 =? 0) in
  let has_head_map := negb (Z.land head_byte 64 =? 0) in
  nsect ← peek data 3;
  sectsize_code ← peek data 4;
  let sectsize := Z.shiftl 128 sectsize_code in
  skip 5;;
  secnums ← chunk data nsect;
  (if has_cyl_map then skip nsect else mret tt);;
  (if has_head_map then skip nsect else mret tt);;
  sectors ← for_range 0 (Z.to_nat nsect) (read_sector secnums sectsize);
  pos ← get;
  mret (Trk cyl head head_byte mode nsect sectsize_code sectsize secnums sectors raw_start pos).

Definition parse_imd : outcome (bytes * list trk) :=
  hdr_end ← index_of 26 data;
  let header := takeZ (hdr_end + 1) data in
  tracks ← fst (while_data data (S (length data)) read_track (hdr_end + 1));
  Ret (header, tracks).
End Parse.
End Patch.

(** ** cpm/verify_against_imd.py

    The same layout with a [ValueError] for an unknown sector type. *)
Module Against.
Section Parse.
Context (data : bytes).

Definition read_sector (secnums : bytes) (sectsize : Z) (i : nat) : stM Z (Z * bytes) :=
  stype ← peek data 0;
  skip 1;;
  if stype =? 0 then num ← lift (index secnums i); mret (num, repeatZ sectsize 0)
  else if bool_decide (stype ∈ [1; 3; 5; 7]) then
    num ← lift (index secnums i); d ← chunk data sectsize; mret (num, d)
  else if bool_decide (stype ∈ [2; 4; 6; 8]) then
    num ← lift (index secnums i); b ← peek data 0; skip 1;; mret (num, repeatZ sectsize b)
  else raise ValueError.

Definition read_track : stM Z raw_track :=
  mode ← peek data 0;
  cyl ← peek data 1;
  head_byte ← peek data 2;
  let head := Z.land head_byte 63 in
  let has_cyl_map := negb (Z.land head_byte 128 =? 0) in
  let has_head_map := negb (Z.land head_byte 64 =? 0) in
  nsect ← peek data 3;
  code ← peek data 4;
  let sectsize := Z.shiftl 128 code in
  skip 5;;
  secnums ← chunk data nsect;
  (if has_cyl_map then skip nsect else mret tt);;
  (if has_head_map then skip nsect else mret tt);;
  sectors ← for_range 0 (Z.to_nat nsect) (read_sector secnums sectsize);
  mret (RawTrack cyl head mode nsect sectsize sectors).

Definition parse_imd : outcome (list raw_track) :=
  hdr_end ← index_of 26 data;
  fst (while_data data (S (length data)) read_track (hdr_end + 1)).
End Parse.
End Against.

(** ** rcbios-in-c/verify_checksums.py

    A flat list of [(cyl, head, sector_id, data)]; only bit 0 of the head byte
    is the head, and a type above 4 is read as a sector of zeros without data
    in the file. *)
Module Sums.
Section Parse.
Context (data : bytes).

(** [raw[pos]; pos += 1]. *)
Definition next : stM Z Z := b ← peek data 0; skip 1;; mret b.

Definition read_sector (cyl head : Z) (sec_map : bytes) (secsize : Z) (i : nat)
  : stM Z (Z * Z * Z * bytes) :=
  dtype ← next;
  sdata ← (if dtype =? 0 then mret (repeatZ secsize 0)
           else if dtype =? 1 then chunk data secsize
           else if dtype =? 2 then b ← next; mret (repeatZ secsize b)
           else if dtype =? 3 then chunk data secsize
           else if dtype =? 4 then b ← next; mret (repeatZ secsize b)
           else mret (repeatZ secsize 0));
  num ← lift (index sec_map i);
  mret (cyl, head, num, sdata).

Definition read_track : stM Z (list (Z * Z * Z * bytes)) :=
  mode ← next;
  cyl ← next;
  head_byte ← next;
  let head := Z.land head_byte 1 in
  let has_cyl_map := negb (Z.land head_byte 128 =? 0) in
  let has_head_map := negb (Z.land head_byte 64 =? 0) in
  nsec ← next;
  secsize_code ← next;
  let secsize := Z.shiftl 128 secsize_code in
  sec_map ← chunk data nsec;
  (if has_cyl_map then skip nsec else mret tt);;
  (if has_head_map then skip nsec else mret tt);;
  for_range 0 (Z.to_nat nsec) (read_sector cyl head sec_map secsize).

Definition parse_imd : outcome (list (Z * Z * Z * bytes)) :=
  hdr_end ← index_of 26 data;
  tracks ← fst (while_data data (S (length data)) read_track (hdr_end + 1));
  Ret (concat tracks).
End Parse.
End Sums.

(** ** The format

    A track of the file: its sector records as stored, a type and the bytes
    kept for it. *)
Record track : Type := Track {
  t_mode : Z; t_cyl : Z; t_head : Z; t_code : Z; t_ids : bytes;
  t_cyl_map : option bytes; t_head_map : option bytes; t_stored : list (Z * bytes) }.

Definition t_nsect (t : track) : Z := zlength (t_stored t).
Definition t_size (t : track) : Z := Z.shiftl 128 (t_code t).
Definition head_byte (t : track) : Z :=
  t_head t + (match t_head_map t with Some _ => 64 | None => 0 end)
           + (match t_cyl_map t with Some _ => 128 | None => 0 end).

Definition map_bytes (m : option bytes) : bytes := match m with Some l => l | None => [] end.

Definition track_head (t : track) : bytes :=
  [t_mode t; t_cyl t; head_byte t; t_nsect t; t_code t].
Definition stored_bytes (t : track) : bytes := concat (map (fun '(ty, d) => ty :: d) (t_stored t)).
Definition track_bytes (t : track) : bytes :=
  track_head t ++ t_ids t ++ map_bytes (t_cyl_map t) ++ map_bytes (t_head_map t) ++ stored_bytes t.

Definition image (header : bytes) (ts : list track) : bytes :=
  header ++ 26 :: concat (map track_bytes ts).

(** How many bytes a record of a type keeps: none, the sector or one. *)
Definition kept (size ty : Z) : Z :=
  if ty =? 0 then 0 else if Z.odd ty then size else 1.
Definition stored_ok (size : Z) (r : Z * bytes) : Prop :=
  0 <= fst r <= 8 /\ all_bytes (snd r) /\ zlength (snd r) = kept size (fst r).

Definition map_ok (n : Z) (m : option bytes) : Prop :=
  match m with Some l => all_bytes l /\ zlength l = n | None => True end.

Record track_ok (t : track) : Prop := TrackOk {
  ok_mode : is_byte (t_mode t); ok_cyl : is_byte (t_cyl t); ok_head : 0 <= t_head t < 64;
  ok_code : is_byte (t_code t); ok_nsect : is_byte (t_nsect t);
  ok_ids : all_bytes (t_ids t); ok_count : zlength (t_ids t) = t_nsect t;
  ok_cyl_map : map_ok (t_nsect t) (t_cyl_map t); ok_head_map : map_ok (t_nsect t) (t_head_map t);
  ok_stored : Forall (stored_ok (t_size t)) (t_stored t) }.

(** What a record stands for, and the numbered sectors of a track. *)
Definition content (size : Z) (r : Z * bytes) : bytes :=
  if fst r =? 0 then repeatZ size 0
  else if Z.odd (fst r) then snd r
  else match snd r with b :: _ => repeatZ size b | [] => [] end.
Definition sectors_of (t : track) : list (Z * bytes) :=
  zip (t_ids t) (map (content (t_size t)) (t_stored t)).

Definition as_raw (t : track) : raw_track :=
  RawTrack (t_cyl t) (t_head t) (t_mode t) (t_nsect t) (t_size t) (sectors_of t).
Definition as_trk (start : Z) (t : track) : trk :=
  Trk (t_cyl t) (t_head t) (head_byte t) (t_mode t) (t_nsect t) (t_code t) (t_size t) (t_ids t)
    (sectors_of t) start (start + zlength (track_bytes t)).
Fixpoint as_trks (start : Z) (ts : list track) : list trk :=
  match ts with
  | [] => []
  | t :: ts' => as_trk start t :: as_trks (start + zlength (track_bytes t)) ts'
  end.
Definition as_flat (t : track) : list (Z * Z * Z * bytes) :=
  map (fun '(n, d) => (t_cyl t, Z.land (head_byte t) 1, n, d)) (sectors_of t).

(** ** Lemmas on reading *)

Lemma insert_by_perm {A} le (x : A) l : insert_by le x l ≡ₚ x :: l.
Proof.
  induction l as [|y l IH]; cbn [insert_by]; [done|]. destruct (le x y); [done|].
  rewrite IH. apply Permutation_swap.
Qed.

Lemma sort_by_perm {A} le (l : list A) : sort_by le l ≡ₚ l.
Proof. induction l as [|x l IH]; [done|]. cbn. by rewrite insert_by_perm, IH. Qed.

Definition before {B} (a b : Z * B) : Prop := fst a < fst b.

Lemma insert_by_sorted {B} (x : Z * B) l :
  StronglySorted before l -> Forall (fun y => fst y <> fst x) l -> StronglySorted before (insert_by by_number x l).
Proof.
  induction 1 as [|y l Hs IH Hy]; intros Hx; cbn [insert_by]; [by repeat constructor|].
  apply Forall_cons in Hx as [Hxy Hx]. unfold by_number at 1. destruct (Z.leb_spec (fst x) (fst y)).
  - assert (before x y) by (unfold before; lia). constructor; [by constructor|]. constructor; [done|].
    eapply Forall_impl; [exact Hy|]. unfold before in *. intros z Hz. lia.
  - constructor; [by apply IH|]. rewrite insert_by_perm. constructor; [unfold before; lia|done].
Qed.

Lemma sort_by_sorted {B} (l : list (Z * B)) : NoDup (map fst l) -> StronglySorted before (sort_by by_number l).
Proof.
  induction l as [|x l IH]; intros H; [constructor|]. cbn [map] in H. apply NoDup_cons in H as [Hx H]. cbn.
  apply insert_by_sorted; [by apply IH|]. apply Forall_forall. intros y Hy Hf. apply Hx.
  rewrite <- Hf. apply list_elem_of_fmap. exists y. split; [done|].
  by rewrite <- (sort_by_perm by_number l).
Qed.

Lemma sorted_same {B} (l1 l2 : list (Z * B)) : StronglySorted before l1 -> StronglySorted before l2 -> l1 ≡ₚ l2 -> l1 = l2.
Proof.
  apply StronglySorted_unique_strong. intros x1 x2 _ _. unfold before. lia.
Qed.

Lemma sorted_keys {B} (l1 l2 : list (Z * B)) : map fst l1 = map fst l2 -> StronglySorted before l1 -> StronglySorted before l2.
Proof.
  revert l2. induction l1 as [|x l1 IH]; intros [|y l2] E H; try done.
  injection E as E1 E2. apply StronglySorted_inv in H as [H Hx]. constructor; [by apply IH|].
  rewrite Forall_forall in *. intros z Hz. unfold before in *. rewrite <- E1.
  assert (fst z ∈ map fst l1) as (w & Ew & Hw)%list_elem_of_fmap.
  { rewrite E2. apply list_elem_of_fmap. by exists z. }
  rewrite Ew. by apply Hx.
Qed.

Lemma sorted_nodup {B} (l : list (Z * B)) : StronglySorted before l -> NoDup (map fst l).
Proof.
  induction 1 as [|x l Hs IH Hx]; cbn [map]; constructor; [|done].
  intros (y & E & Hy)%list_elem_of_fmap. rewrite Forall_forall in Hx. specialize (Hx y Hy).
  unfold before in Hx. lia.
Qed.

Lemma zlength_cons {A} (x : A) l : zlength (x :: l) = 1 + zlength l.
Proof. unfold zlength. cbn [length]. lia. Qed.

Lemma zlength_app {A} (l1 l2 : list A) : zlength (l1 ++ l2) = zlength l1 + zlength l2.
Proof. unfold zlength. rewrite length_app. lia. Qed.

Lemma zlength_pos {A} (l : list A) : 0 <= zlength l.
Proof. unfold zlength. lia. Qed.

Lemma zlength_nil {A} : zlength (@nil A) = 0.
Proof. done. Qed.

Create Rewrite HintDb zlen.
#[export] Hint Rewrite @zlength_cons @zlength_app @zlength_nil : zlen.

Lemma dropZ_app {A} n (l1 l2 : list A) : n = zlength l1 -> dropZ n (l1 ++ l2) = l2.
Proof. intros ->. rewrite dropZ_drop. unfold zlength. rewrite Nat2Z.id. apply drop_app_length. Qed.

Lemma takeZ_app {A} n (l1 l2 : list A) : n = zlength l1 -> takeZ n (l1 ++ l2) = l1.
Proof. intros ->. rewrite takeZ_take. unfold zlength. rewrite Nat2Z.id. apply take_app_length. Qed.

Lemma dropZ_dropZ {A} a b (l : list A) : 0 <= a -> 0 <= b -> dropZ (a + b) l = dropZ b (dropZ a l).
Proof. intros Ha Hb. rewrite !dropZ_drop, drop_drop. f_equal. lia. Qed.

(** [m], started at [pos], where the file goes on with [l], reads exactly [l]
    and returns [a]. *)
Definition reads {A} (data : bytes) (pos : Z) (m : stM Z A) (l : bytes) (a : A) : Prop :=
  0 <= pos -> (exists rest, dropZ pos data = l ++ rest) -> m pos = (Ret a, pos + zlength l).

Section Reads.
Context (data : bytes).
Implicit Types (pos : Z).

Lemma reads_ret {A} pos (a : A) : reads data pos (mret a) [] a.
Proof. intros _ _. rewrite zlength_nil, Z.add_0_r. done. Qed.

Lemma reads_bind {A B} pos (m : stM Z A) (f : A -> stM Z B) l1 l2 a b :
  reads data pos m l1 a -> reads data (pos + zlength l1) (f a) l2 b ->
  reads data pos (m ≫= f) (l1 ++ l2) b.
Proof.
  intros H1 H2 Hp [rest Hr]. unfold mbind, stM_bind.
  pose proof (zlength_pos l1). rewrite H1; [|done|exists (l2 ++ rest); by rewrite Hr, app_assoc].
  rewrite H2; [by rewrite zlength_app, Z.add_assoc|lia|].
  exists rest. rewrite dropZ_dropZ, Hr, <- app_assoc by lia. by apply dropZ_app.
Qed.

Lemma reads_lift {A B} pos (o : outcome A) (f : A -> stM Z B) l a b :
  o = Ret a -> reads data pos (f a) l b -> reads data pos (lift o ≫= f) l b.
Proof. intros -> H. exact H. Qed.

Lemma reads_get {B} pos (f : Z -> stM Z B) l b :
  reads data pos (f pos) l b -> reads data pos (get ≫= f) l b.
Proof. intros H. exact H. Qed.

Lemma reads_peek {B} pos k (f : Z -> stM Z B) l c b :
  0 <= k -> l !! Z.to_nat k = Some c -> reads data pos (f c) l b ->
  reads data pos (peek data k ≫= f) l b.
Proof.
  intros Hk Hl H Hp [rest Hr]. unfold mbind, stM_bind, peek.
  rewrite dropZ_dropZ, Hr by done. rewrite dropZ_drop, drop_app_le
    by (apply lookup_lt_Some in Hl; lia).
  rewrite (drop_S _ _ _ Hl). apply H; [done|]. by exists rest.
Qed.

Lemma reads_skip pos n l : n = zlength l -> reads data pos (skip n) l tt.
Proof. intros -> _ _. done. Qed.

Lemma reads_chunk pos n l : n = zlength l -> reads data pos (chunk data n) l l.
Proof. intros Hn _ [rest Hr]. unfold chunk. rewrite Hr, takeZ_app by done. by rewrite Hn. Qed.

Lemma reads_next pos b : reads data pos (Sums.next data) [b] b.
Proof.
  eapply reads_peek; [done|done|].
  apply (reads_bind _ _ _ [b] [] tt); [by apply reads_skip|apply reads_ret].
Qed.

(** A counted loop over pieces, one per turn. *)
Lemma reads_for {A} (body : nat -> stM Z A) (ls : list bytes) (xs : list A) :
  forall i pos, length ls = length xs ->
  (forall k l x pos, ls !! k = Some l -> xs !! k = Some x -> reads data pos (body (i + k)%nat) l x) ->
  reads data pos (for_range i (length ls) body) (concat ls) xs.
Proof.
  revert xs. induction ls as [|l ls IH]; intros [|x xs] i pos Hlen Hb; try done.
  { apply reads_ret. }
  cbn [for_range length concat]. eapply reads_bind.
  { replace i with (i + 0)%nat by lia. by apply (Hb 0%nat). }
  rewrite <- (app_nil_r (concat ls)). eapply reads_bind; [|apply reads_ret].
  apply IH; [by injection Hlen|]. intros k l' x' pos' Hl Hx.
  replace (S i + k)%nat with (i + S k)%nat by lia. by apply (Hb (S k)).
Qed.

(** The outer loop over what is left of the file. *)
Lemma reads_while {A} (body : stM Z A) (f : Z -> track -> A) ts : forall fuel pos,
  (forall t pos, In t ts -> reads data pos body (track_bytes t) (f pos t)) ->
  0 <= pos -> dropZ pos data = concat (map track_bytes ts) -> (length ts < fuel)%nat ->
  fst (while_data data fuel body pos) =
    Ret ((fix go p l := match l with
                        | [] => []
                        | t :: l' => f p t :: go (p + zlength (track_bytes t)) l'
                        end) pos ts).
Proof.
  induction ts as [|t ts IH]; intros fuel pos Hb Hp Hd Hf; (destruct fuel as [|fuel]; [cbn in Hf; lia|]);
    cbn [while_data]; unfold mbind, stM_bind, get.
  - assert (zlength data <= pos).
    { rewrite dropZ_drop in Hd. apply (f_equal length) in Hd. rewrite length_drop in Hd.
      cbn in Hd. unfold zlength. lia. }
    rewrite (proj2 (Z.ltb_ge _ _)) by done. done.
  - cbn [map concat] in Hd.
    assert (pos < zlength data).
    { rewrite dropZ_drop in Hd. apply (f_equal length) in Hd. rewrite length_drop, length_app in Hd.
      cbn in Hd. unfold zlength. lia. }
    rewrite (proj2 (Z.ltb_lt _ _)) by done.
    rewrite (Hb t pos); [|by left|done|by eexists]. cbn [In] in Hb. pose proof (zlength_pos (track_bytes t)).
    specialize (IH fuel (pos + zlength (track_bytes t))).
    destruct (while_data data fuel body (pos + zlength (track_bytes t))) as [o p] eqn:Ew.
    cbn [fst] in IH. rewrite IH; [done| |lia| |cbn in Hf; lia].
    + intros t' pos' Ht. apply Hb. by right.
    + rewrite dropZ_dropZ, Hd by lia. by apply dropZ_app.
Qed.
End Reads.

(** Every turn of the outer loop moves on, so the fuel is never spent. *)
Definition moves {A} (m : stM Z A) : Prop :=
  forall pos, match m pos with (Ret _, p) => pos < p | (Raise e, _) => e <> OutOfFuel end.

Lemma while_terminates {A} data (body : stM Z A) fuel : forall pos,
  moves body -> Z.max 0 (zlength data - pos) < Z.of_nat fuel ->
  fst (while_data data fuel body pos) <> Raise OutOfFuel.
Proof.
  induction fuel as [|fuel IH]; intros pos Hm Hf; cbn [while_data]; unfold mbind, stM_bind, get;
    [lia|].
  destruct (Z.ltb_spec pos (zlength data)); [|done].
  pose proof (Hm pos) as H1. destruct (body pos) as [[a|e] p] eqn:Eb; [|cbn; congruence].
  specialize (IH p Hm ltac:(lia)). by destruct (while_data data fuel body p) as [[r|e] p'].
Qed.

(** [m] never goes back and never runs out of fuel. *)
Definition steady {A} (m : stM Z A) : Prop :=
  forall pos, match m pos with (Ret _, p) => pos <= p | (Raise e, _) => e <> OutOfFuel end.

Section Steady.
Context (data : bytes).

Lemma steady_ret {A} (a : A) : steady (mret a).
Proof. intros pos. cbn. lia. Qed.
Lemma steady_get : steady get.
Proof. intros pos. cbn. lia. Qed.
Lemma steady_lift l i : steady (lift (index l i)).
Proof. intros pos. unfold lift, index. destruct (l !! i); [lia|done]. Qed.
Lemma steady_raise {A} e : e <> OutOfFuel -> steady (raise e : stM Z A).
Proof. by intros H pos. Qed.
Lemma steady_peek k : steady (peek data k).
Proof. intros pos. unfold peek. destruct (dropZ _ _); [done|lia]. Qed.
Lemma steady_skip n : 0 <= n -> steady (skip n).
Proof. intros H pos. cbn. lia. Qed.
Lemma steady_chunk n : 0 <= n -> steady (chunk data n).
Proof. intros H pos. cbn. lia. Qed.
Lemma steady_bind {A B} (m : stM Z A) (f : A -> stM Z B) :
  steady m -> (forall a, steady (f a)) -> steady (m ≫= f).
Proof.
  intros Hm Hf pos. specialize (Hm pos). unfold mbind, stM_bind.
  destruct (m pos) as [[a|e] p]; [|done]. specialize (Hf a p).
  destruct (f a p) as [[b|e] p']; [lia|done].
Qed.
Lemma steady_for {A} (body : nat -> stM Z A) n : forall i,
  (forall i, steady (body i)) -> steady (for_range i n body).
Proof.
  induction n as [|n IH]; intros i H; [apply steady_ret|].
  apply steady_bind; [done|]. intros a. apply steady_bind; [by apply IH|]. intros r. apply steady_ret.
Qed.
Lemma moves_bind {A B} (m : stM Z A) (f : A -> stM Z B) :
  steady m -> (forall a, moves (f a)) -> moves (m ≫= f).
Proof.
  intros Hm Hf pos. specialize (Hm pos). unfold mbind, stM_bind.
  destruct (m pos) as [[a|e] p]; [|done]. specialize (Hf a p).
  destruct (f a p) as [[b|e] p']; [lia|done].
Qed.
Lemma moves_skip {B} n (f : unit -> stM Z B) : 0 < n -> steady (f tt) -> moves (skip n ≫= f).
Proof.
  intros Hn Hf pos. unfold mbind, stM_bind, skip, modify. specialize (Hf (pos + n)).
  destruct (f tt (pos + n)) as [[b|e] p']; [lia|done].
Qed.
End Steady.

(** ** The readers on a track of the format *)

(** Evaluate the membership and equality tests on a known sector type. *)
Ltac eval_type :=
  repeat match goal with
  | |- context [bool_decide ?P] =>
      let b := eval vm_compute in (bool_decide P) in change (bool_decide P) with b
  | |- context [?x =? ?y] =>
      let b := eval vm_compute in (x =? y) in
      match b with true => idtac | false => idtac end; change (x =? y) with b
  end; cbv iota.

(** One record, read by a reader that takes the number before the data. *)
Ltac read_record Hn :=
  eapply reads_peek; [done|reflexivity|];
  match goal with |- reads _ _ _ (?ty :: ?d) _ => change (ty :: d) with ([ty] ++ d) end;
  eapply reads_bind; [by apply reads_skip|]; eval_type;
  eapply reads_lift; [apply index_in, Hn|].

Ltac read_content d Hd :=
  unfold content; eval_type; cbn [fst snd Z.odd];
  first
    [ destruct d as [|? d]; [apply reads_ret|rewrite zlength_cons in Hd; pose proof (zlength_pos d); lia]
    | rewrite <- (app_nil_r d) at 1; eapply reads_bind; [apply reads_chunk; by rewrite Hd|apply reads_ret]
    | destruct d as [|b [|? d]]; [by rewrite zlength_nil in Hd| |
        rewrite !zlength_cons in Hd; pose proof (zlength_pos d); lia];
      eapply reads_peek; [done|reflexivity|];
      apply (reads_bind _ _ _ _ [b] [] tt); [by apply reads_skip|apply reads_ret] ].

Lemma type_cases ty : 0 <= ty <= 8 ->
  ty = 0 \/ ty = 1 \/ ty = 2 \/ ty = 3 \/ ty = 4 \/ ty = 5 \/ ty = 6 \/ ty = 7 \/ ty = 8.
Proof. lia. Qed.

Ltac sector_types Hty Hd :=
  destruct (type_cases _ Hty) as [->|[->|[->|[->|[->|[->|[->|[->| ->]]]]]]]]; cbn in Hd.

Lemma raw_record data ids size k n ty d pos :
  ids !! k = Some n -> 0 <= ty <= 8 -> zlength d = kept size ty ->
  reads data pos (Raw.read_sector data ids size k) (ty :: d) (n, content size (ty, d)).
Proof.
  intros Hn Hty Hd. unfold Raw.read_sector, kept in *. sector_types Hty Hd; read_record Hn; read_content d Hd.
Qed.

Lemma patch_record data ids size k n ty d pos :
  ids !! k = Some n -> 0 <= ty <= 8 -> zlength d = kept size ty ->
  reads data pos (Patch.read_sector data ids size k) (ty :: d) (n, content size (ty, d)).
Proof.
  intros Hn Hty Hd. unfold Patch.read_sector, kept in *. sector_types Hty Hd; read_record Hn; read_content d Hd.
Qed.

Lemma against_record data ids size k n ty d pos :
  ids !! k = Some n -> 0 <= ty <= 8 -> zlength d = kept size ty ->
  reads data pos (Against.read_sector data ids size k) (ty :: d) (n, content size (ty, d)).
Proof.
  intros Hn Hty Hd. unfold Against.read_sector, kept in *. sector_types Hty Hd; read_record Hn; read_content d Hd.
Qed.

Lemma sums_record data ids size cyl head k n ty d pos :
  ids !! k = Some n -> 0 <= ty <= 4 -> zlength d = kept size ty ->
  reads data pos (Sums.read_sector data cyl head ids size k) (ty :: d)
    (cyl, head, n, content size (ty, d)).
Proof.
  intros Hn Hty Hd. unfold Sums.read_sector, kept in *.
  change (ty :: d) with ([ty] ++ d). eapply reads_bind; [apply reads_next|].
  rewrite <- (app_nil_r d) at 1. eapply reads_bind.
  2: { eapply reads_lift; [apply index_in, Hn|]. apply reads_ret. }
  assert (ty = 0 \/ ty = 1 \/ ty = 2 \/ ty = 3 \/ ty = 4) as [->|[->|[->|[->| ->]]]] by lia;
    cbn in Hd; unfold content; eval_type; cbn [fst snd Z.odd];
    first
    [ destruct d as [|? d]; [apply reads_ret|rewrite zlength_cons in Hd; pose proof (zlength_pos d); lia]
    | by apply reads_chunk
    | destruct d as [|b [|? d]]; [by rewrite zlength_nil in Hd| |
        rewrite !zlength_cons in Hd; pose proof (zlength_pos d); lia];
      apply (reads_bind _ _ _ _ [b] [] b); [apply reads_next|apply reads_ret] ].
Qed.

Definition present {A} (m : option A) : bool := match m with Some _ => true | None => false end.

(** The three fields of the head byte. *)
Lemma head_byte_fields t : track_ok t ->
  Z.land (head_byte t) 63 = t_head t /\
  negb (Z.land (head_byte t) 64 =? 0) = present (t_head_map t) /\
  negb (Z.land (head_byte t) 128 =? 0) = present (t_cyl_map t) /\
  is_byte (head_byte t).
Proof.
  intros Ht. pose proof (ok_head t Ht) as H.
  assert (Forall (fun h => Forall (fun a => Forall (fun b =>
    Z.land (h + a + b) 63 = h /\ negb (Z.land (h + a + b) 64 =? 0) = negb (a =? 0) /\
    negb (Z.land (h + a + b) 128 =? 0) = negb (b =? 0) /\ is_byte (h + a + b)) [0; 128]) [0; 64])
    (seqZ 0 64)) as Hall by (apply (bool_decide_unpack _); vm_compute; exact I).
  rewrite Forall_forall in Hall. specialize (Hall (t_head t) ltac:(apply elem_of_seqZ; lia)).
  unfold head_byte. rewrite !Forall_cons in Hall.
  destruct Hall as ((H00 & H01 & _) & (H10 & H11 & _) & _).
  by destruct (t_head_map t), (t_cyl_map t).
Qed.

Lemma map_reads data pos t (m : option bytes) c :
  map_ok (t_nsect t) m -> c = present m ->
  reads data pos (if c : bool then skip (t_nsect t) else mret tt) (map_bytes m) tt.
Proof.
  intros Hm ->. destruct m as [l|]; cbn [map_bytes].
  - apply reads_skip. by destruct Hm.
  - apply reads_ret.
Qed.

(** All sectors of a track, for a reader that reads each record. *)
Lemma track_records {A} data pos t (body : nat -> stM Z A) (g : Z * bytes -> A) :
  track_ok t ->
  (forall k n ty d pos, t_ids t !! k = Some n -> t_stored t !! k = Some (ty, d) ->
     stored_ok (t_size t) (ty, d) ->
     reads data pos (body k) (ty :: d) (g (n, content (t_size t) (ty, d)))) ->
  reads data pos (for_range 0 (Z.to_nat (t_nsect t)) body) (stored_bytes t)
    (map g (sectors_of t)).
Proof.
  intros Ht H. unfold t_nsect, zlength. rewrite Nat2Z.id. unfold stored_bytes.
  pose proof (ok_count t Ht) as Hc. unfold t_nsect, zlength in Hc. apply Nat2Z.inj in Hc.
  rewrite <- (length_map (fun '(ty, d) => ty :: d) (t_stored t)). apply reads_for.
  - unfold sectors_of. rewrite !length_map, length_zip_with, length_map. lia.
  - intros k l x pos' Hl Hx. rewrite Nat.add_0_l.
    rewrite list_lookup_fmap in Hl. apply fmap_Some in Hl as ([ty d] & Hk & ->).
    rewrite list_lookup_fmap in Hx. apply fmap_Some in Hx as ([n c] & Hn & ->).
    unfold sectors_of in Hn. rewrite lookup_zip_with_Some in Hn.
    destruct Hn as (n' & c' & [= -> ->] & Hn & Hc'). rewrite list_lookup_fmap, Hk in Hc'.
    injection Hc' as <-. apply H; try done.
    by eapply (proj1 (Forall_lookup _ _) (ok_stored t Ht)).
Qed.

Section Tracks.
Context (data : bytes) (pos : Z) (t : track) (Ht : track_ok t).

(** The five header bytes, the numbering map and the optional maps. *)
Ltac read_head :=
  pose proof (head_byte_fields t Ht) as (Hh & Hhm & Hcm & _); rewrite ?Hh;
  repeat (eapply reads_peek; [done|reflexivity|]); rewrite ?Hh;
  eapply (reads_bind _ _ _ _ (track_head t)); [by apply reads_skip|];
  eapply reads_bind; [apply reads_chunk; symmetry; apply ok_count, Ht|];
  eapply reads_bind; [apply map_reads; [apply ok_cyl_map, Ht|exact Hcm]|];
  eapply reads_bind; [apply map_reads; [apply ok_head_map, Ht|exact Hhm]|].

Lemma raw_reads : reads data pos (Raw.read_track data) (track_bytes t) (as_raw t).
Proof.
  unfold Raw.read_track. read_head. rewrite <- (app_nil_r (stored_bytes t)).
  eapply reads_bind; [|apply reads_ret]. rewrite <- (list_fmap_id (sectors_of t)).
  apply (track_records _ _ _ _ id Ht). intros k n ty d pos' Hn Hk (Hty & _ & Hd).
  by apply raw_record.
Qed.

Lemma against_reads : reads data pos (Against.read_track data) (track_bytes t) (as_raw t).
Proof.
  unfold Against.read_track. read_head. rewrite <- (app_nil_r (stored_bytes t)).
  eapply reads_bind; [|apply reads_ret]. rewrite <- (list_fmap_id (sectors_of t)).
  apply (track_records _ _ _ _ id Ht). intros k n ty d pos' Hn Hk (Hty & _ & Hd).
  by apply against_record.
Qed.
Lemma patch_reads : reads data pos (Patch.read_track data) (track_bytes t) (as_trk pos t).
Proof.
  unfold Patch.read_track. apply reads_get. read_head. rewrite <- (app_nil_r (stored_bytes t)).
  apply (reads_bind _ _ _ _ _ _ (map id (sectors_of t))).
  - apply (track_records _ _ _ _ id Ht). intros k n ty d pos' Hn Hk (Hty & _ & Hd).
    by apply patch_record.
  - apply reads_get. match goal with |- reads _ _ (mret ?a) _ ?b => replace b with a end;
      [apply reads_ret|].
    unfold as_trk, track_bytes. rewrite list_fmap_id. f_equal.
    autorewrite with zlen. lia.
Qed.

Lemma sums_reads : Forall (fun r => fst r <= 4) (t_stored t) ->
  reads data pos (Sums.read_track data) (track_bytes t) (as_flat t).
Proof.
  intros H4. unfold Sums.read_track, track_bytes, track_head. cbn [app].
  pose proof (head_byte_fields t Ht) as (_ & Hhm & Hcm & _).
  do 5 (match goal with |- reads _ _ _ (?b :: ?l) _ => change (b :: l) with ([b] ++ l) end;
        eapply reads_bind; [apply reads_next|]).
  eapply reads_bind; [apply reads_chunk; symmetry; apply ok_count, Ht|].
  eapply reads_bind; [apply map_reads; [apply ok_cyl_map, Ht|exact Hcm]|].
  eapply reads_bind; [apply map_reads; [apply ok_head_map, Ht|exact Hhm]|].
  unfold as_flat. apply (track_records _ _ _ _ _ Ht). intros k n ty d pos' Hn Hk (Hty & _ & Hd).
  apply sums_record; [done| |done].
  pose proof (proj1 (Forall_lookup _ _) H4 k _ Hk) as H. cbn in *. lia.
Qed.
End Tracks.

(** ** Whole files *)

Record image_ok (header : bytes) (ts : list track) : Prop := ImageOk {
  ok_header : 26 ∉ header; ok_tracks : Forall track_ok ts }.

Lemma index_of_app c l1 l2 : c ∉ l1 -> index_of c (l1 ++ c :: l2) = Ret (zlength l1).
Proof.
  induction l1 as [|b l1 IH]; intros H; cbn [app index_of].
  - by rewrite Z.eqb_refl.
  - apply not_elem_of_cons in H as [H1 H2]. rewrite (proj2 (Z.eqb_neq _ _)) by congruence.
    rewrite IH by done. cbn. rewrite zlength_cons. f_equal. lia.
Qed.

Lemma index_of_image header ts : 26 ∉ header -> index_of 26 (image header ts) = Ret (zlength header).
Proof. apply index_of_app. Qed.

Lemma image_tail header ts :
  dropZ (zlength header + 1) (image header ts) = concat (map track_bytes ts).
Proof.
  unfold image. change (26 :: ?l) with ([26] ++ l). rewrite app_assoc. apply dropZ_app.
  by autorewrite with zlen.
Qed.

Lemma image_header header ts :
  takeZ (zlength header + 1) (image header ts) = header ++ [26].
Proof.
  unfold image. change (26 :: ?l) with ([26] ++ l). rewrite app_assoc. apply takeZ_app.
  by autorewrite with zlen.
Qed.

Lemma length_tracks ts : (length ts <= length (concat (map track_bytes ts)))%nat.
Proof.
  induction ts as [|t ts IH]; [done|]. cbn [map concat length]. rewrite length_app.
  unfold track_bytes at 1. cbn [track_head app length]. lia.
Qed.

(** The outer loop of a reader over a file of the format. *)
Lemma image_while {A} header ts (body : stM Z A) (f : Z -> track -> A) :
  (forall t pos, In t ts -> reads (image header ts) pos body (track_bytes t) (f pos t)) ->
  fst (while_data (image header ts) (S (length (image header ts))) body (zlength header + 1)) =
    Ret ((fix go p l := match l with
                        | [] => []
                        | t :: l' => f p t :: go (p + zlength (track_bytes t)) l'
                        end) (zlength header + 1) ts).
Proof.
  intros H. apply reads_while; [done| |apply image_tail|].
  - pose proof (zlength_pos header). lia.
  - unfold image. rewrite length_app. cbn [length]. pose proof (length_tracks ts). lia.
Qed.

Lemma go_map {A} (f : track -> A) ts : forall p,
  (fix go (p : Z) l := match l with
             | [] => []
             | t :: l' => f t :: go (p + zlength (track_bytes t)) l'
             end) p ts = map f ts.
Proof. induction ts as [|t ts IH]; intros p; [done|]. cbn [map]. by f_equal. Qed.

Lemma raw_parses header ts : image_ok header ts -> Raw.parse_imd (image header ts) = Ret (map as_raw ts).
Proof.
  intros [Hh Ht]. unfold Raw.parse_imd. rewrite index_of_image by done. cbn [mbind outcome_bind].
  rewrite (image_while _ _ _ (fun _ => as_raw)); [by rewrite go_map|].
  intros t pos Hin. apply raw_reads. by eapply Forall_forall; [|apply list_elem_of_In].
Qed.

Lemma against_parses header ts :
  image_ok header ts -> Against.parse_imd (image header ts) = Ret (map as_raw ts).
Proof.
  intros [Hh Ht]. unfold Against.parse_imd. rewrite index_of_image by done. cbn [mbind outcome_bind].
  rewrite (image_while _ _ _ (fun _ => as_raw)); [by rewrite go_map|].
  intros t pos Hin. apply against_reads. by eapply Forall_forall; [|apply list_elem_of_In].
Qed.

Lemma patch_parses header ts : image_ok header ts ->
  Patch.parse_imd (image header ts) = Ret (header ++ [26], as_trks (zlength header + 1) ts).
Proof.
  intros [Hh Ht]. unfold Patch.parse_imd. rewrite index_of_image by done. cbn [mbind outcome_bind].
  rewrite (image_while _ _ _ as_trk).
  - cbn [mbind outcome_bind]. apply f_equal, f_equal2.
    + apply image_header.
    + generalize (zlength header + 1). clear. induction ts as [|t ts IH]; intros p; [done|].
      cbn [as_trks]. by f_equal.
  - intros t pos Hin. apply patch_reads. by eapply Forall_forall; [|apply list_elem_of_In].
Qed.

Lemma sums_parses header ts : image_ok header ts ->
  Forall (fun t => Forall (fun r => fst r <= 4) (t_stored t)) ts ->
  Sums.parse_imd (image header ts) = Ret (concat (map as_flat ts)).
Proof.
  intros [Hh Ht] H4. unfold Sums.parse_imd. rewrite index_of_image by done. cbn [mbind outcome_bind].
  rewrite (image_while _ _ _ (fun _ => as_flat)); [by rewrite go_map|].
  intros t pos Hin%list_elem_of_In. apply sums_reads.
  - by eapply Forall_forall.
  - by eapply (proj1 (Forall_forall _ _) H4).
Qed.

(** ** Termination on any file *)

Section Termination.
Context (data : bytes) (Hdata : all_bytes data).

Lemma steady_peek_byte {B} k (f : Z -> stM Z B) :
  (forall b, is_byte b -> steady (f b)) -> steady (peek data k ≫= f).
Proof.
  intros H pos. unfold mbind, stM_bind, peek. destruct (dropZ (pos + k) data) as [|b l] eqn:Ed; [done|].
  apply H. rewrite dropZ_drop in Ed.
  assert (all_bytes (b :: l)) as Hb by (rewrite <- Ed; by apply Forall_drop). by inversion Hb.
Qed.

Lemma moves_peek_byte {B} k (f : Z -> stM Z B) :
  (forall b, is_byte b -> moves (f b)) -> moves (peek data k ≫= f).
Proof.
  intros H pos. unfold mbind, stM_bind, peek. destruct (dropZ (pos + k) data) as [|b l] eqn:Ed; [done|].
  apply H. rewrite dropZ_drop in Ed.
  assert (all_bytes (b :: l)) as Hb by (rewrite <- Ed; by apply Forall_drop). by inversion Hb.
Qed.

Lemma steady_next {B} (f : Z -> stM Z B) :
  (forall b, is_byte b -> steady (f b)) -> steady (Sums.next data ≫= f).
Proof.
  intros H pos. unfold Sums.next, mbind, stM_bind, peek.
  destruct (dropZ (pos + 0) data) as [|b l] eqn:Ed; [done|]. cbn. rewrite dropZ_drop in Ed.
  assert (all_bytes (b :: l)) as Hb by (rewrite <- Ed; by apply Forall_drop).
  apply Forall_cons in Hb as [Hb _]. specialize (H b Hb (pos + 1)).
  destruct (f b (pos + 1)) as [[r|e] p]; [lia|done].
Qed.

Lemma moves_next {B} (f : Z -> stM Z B) :
  (forall b, is_byte b -> steady (f b)) -> moves (Sums.next data ≫= f).
Proof.
  intros H pos. unfold Sums.next, mbind, stM_bind, peek.
  destruct (dropZ (pos + 0) data) as [|b l] eqn:Ed; [done|]. cbn. rewrite dropZ_drop in Ed.
  assert (all_bytes (b :: l)) as Hb by (rewrite <- Ed; by apply Forall_drop).
  apply Forall_cons in Hb as [Hb _]. specialize (H b Hb (pos + 1)).
  destruct (f b (pos + 1)) as [[r|e] p]; [lia|done].
Qed.

Lemma size_nonneg code : is_byte code -> 0 <= Z.shiftl 128 code.
Proof. intros [H _]. by apply Z.shiftl_nonneg. Qed.

Ltac steady_step :=
  match goal with
  | |- steady (mret _) => apply steady_ret
  | |- steady (raise _) => by apply steady_raise
  | |- steady get => apply steady_get
  | |- steady (skip _) => apply steady_skip; unfold is_byte in *; lia
  | |- steady (chunk _ _) => apply steady_chunk; unfold is_byte in *; first [lia | by apply size_nonneg]
  | |- steady (lift (index _ _)) => apply steady_lift
  | |- steady (peek _ _ ≫= _) => apply steady_peek_byte; intros ? ?
  | |- steady (Sums.next _ ≫= _) => apply steady_next; intros ? ?
  | |- steady (_ ≫= _) => apply steady_bind; [|intros ?]
  | |- steady (if ?c then _ else _) => destruct c
  | |- steady (for_range _ _ _) => apply steady_for; intros ?
  | |- moves (peek _ _ ≫= _) => apply moves_peek_byte; intros ? ?
  | |- moves (skip _ ≫= _) => apply moves_skip; [lia|]
  | |- moves (Sums.next _ ≫= _) => apply moves_next; intros ? ?
  | |- moves (get ≫= _) => apply moves_bind; [apply steady_get|intros ?]
  end.

Lemma raw_moves : moves (Raw.read_track data).
Proof. unfold Raw.read_track, Raw.read_sector. repeat steady_step. Qed.

Lemma patch_moves : moves (Patch.read_track data).
Proof. unfold Patch.read_track, Patch.read_sector. repeat steady_step. Qed.

Lemma against_moves : moves (Against.read_track data).
Proof. unfold Against.read_track, Against.read_sector. repeat steady_step. Qed.

Lemma sums_moves : moves (Sums.read_track data).
Proof. unfold Sums.read_track, Sums.read_sector. repeat steady_step. Qed.

(** The outer loop from just behind the header. *)
Lemma while_ends {A} (body : stM Z A) p : moves body -> 0 <= p ->
  fst (while_data data (S (length data)) body p) <> Raise OutOfFuel.
Proof. intros Hm Hp. apply while_terminates; [done|]. unfold zlength. lia. Qed.

Lemma index_of_nonneg c l p : index_of c l = Ret p -> 0 <= p < zlength l.
Proof.
  revert p. induction l as [|b l IH]; intros p H; cbn [index_of] in H; [done|].
  rewrite zlength_cons. pose proof (zlength_pos l). destruct (b =? c); [injection H as <-; lia|].
  destruct (index_of c l) as [q|e]; [|done]. injection H as <-. specialize (IH q eq_refl). lia.
Qed.

Lemma index_of_raises c l e : index_of c l = Raise e -> e = ValueError.
Proof.
  revert e. induction l as [|b l IH]; intros e H; cbn [index_of] in H; [by injection H|].
  destruct (b =? c); [done|]. destruct (index_of c l) as [q|e']; [done|]. injection H as <-. by apply IH.
Qed.

Lemma outcome_bind_fuel {A B} (o : outcome A) (f : A -> outcome B) :
  o <> Raise OutOfFuel -> (forall a, f a <> Raise OutOfFuel) -> o ≫= f <> Raise OutOfFuel.
Proof. destruct o as [a|e]; intros Ho Hf; [apply Hf|]. cbn. intros [= ->]. by apply Ho. Qed.
End Termination.

(** ** Properties *)

(** A track whose first sector was read with an error: a record of type 5. *)
Definition failed_track : track := Track 2 0 0 0 [1; 2] None None [(5, repeatZ 128 7); (2, [229])].

Lemma failed_track_ok : image_ok [73; 77; 68] [failed_track].
Proof. split; [set_unfold; lia|]. repeat constructor; try done; try (by vm_compute); try lia. Qed.

(** C11: every reader reads the format.  From an image of any well-formed tracks
    the readers of imd2raw.py and verify_against_imd.py give each track's
    geometry and its sectors, numbered by the map and with the stored,
    expanded or zero contents; patch_bios.py's gives the same together with
    the exact part of the file each track takes; verify_checksums.py's gives
    the same sectors in one list as long as no record is of a type above 4, and
    loses its place at one of a higher type: with a sector read with an error on
    track 0 it raises [IndexError] where the others read the file.  On any file at
    all, of bytes, the four readers come to an end. *)
Theorem readers_read_images header ts data :
  image_ok header ts -> all_bytes data ->
  (Raw.parse_imd (image header ts) = Ret (map as_raw ts) /\
   Against.parse_imd (image header ts) = Ret (map as_raw ts) /\
   Patch.parse_imd (image header ts) = Ret (header ++ [26], as_trks (zlength header + 1) ts) /\
   (Forall (fun t => Forall (fun r => fst r <= 4) (t_stored t)) ts ->
    Sums.parse_imd (image header ts) = Ret (concat (map as_flat ts)))) /\
  (Raw.parse_imd data <> Raise OutOfFuel /\ Against.parse_imd data <> Raise OutOfFuel /\
   Patch.parse_imd data <> Raise OutOfFuel /\ Sums.parse_imd data <> Raise OutOfFuel) /\
  (Raw.parse_imd (image [73; 77; 68] [failed_track]) = Ret [as_raw failed_track] /\
   Sums.parse_imd (image [73; 77; 68] [failed_track]) = Raise IndexError).
Proof.
  intros Hi Hd. split; [|split; [|split; [apply raw_parses, failed_track_ok|by vm_compute]]].
  - split_and!; [by apply raw_parses|by apply against_parses|by apply patch_parses|by apply sums_parses].
  - unfold Raw.parse_imd, Against.parse_imd, Patch.parse_imd, Sums.parse_imd.
    destruct (index_of 26 data) as [p|e] eqn:Ei; cbn [mbind outcome_bind].
    + apply index_of_nonneg in Ei.
      split_and!; try apply outcome_bind_fuel; try done; apply while_ends; auto; try lia;
        auto using raw_moves, against_moves, patch_moves, sums_moves.
    + apply index_of_raises in Ei as ->. by split_and!.
Qed.

(** A mini image's first track, cut down to three sectors of the types 1, 2 and 0. *)
Definition small_track : track :=
  Track 2 0 0 0 [3; 1; 2] None None [(1, repeatZ 128 7); (2, [229]); (0, [])].

Lemma small_track_ok : image_ok [73; 77; 68] [small_track].
Proof.
  split; [set_unfold; lia|]. repeat constructor; try done; try (by vm_compute); try lia.
Qed.

Lemma readers_read_images_witness :
  Raw.parse_imd (image [73; 77; 68] [small_track]) = Ret [as_raw small_track] /\
  r_sectors (as_raw small_track) = [(3, repeatZ 128 7); (1, repeatZ 128 229); (2, repeatZ 128 0)] /\
  Raw.parse_imd [26; 1; 2] <> Raise OutOfFuel.
Proof.
  destruct (readers_read_images [73; 77; 68] [small_track] [26; 1; 2] small_track_ok) as [(H & _) [(H' & _) _]];
    [by repeat constructor|].
  split_and!; [exact H|vm_compute; reflexivity|exact H'].
Defined.
