(* ===== verification/ImdTools.v ===== *)
(** * The programs that write IMD images.

    rcbios/imd_rebase_sectors.py ([rebase]), rcbios/bin2imd.py ([convert]) and
    rcbios/patch_bios.py ([patch]).  Each is the function from the files it
    reads to the file it writes; the texts it prints are left out, except the
    numbers in the report of [rebase]. *)

From S2P Require Import Prelude Imd.
#[local] Open Scope Z_scope.

(** ** rcbios/imd_rebase_sectors.py *)

(** The numbers of one report line. *)
Record report_line : Type := ReportLine {
  l_cyl : Z; l_head : Z; l_fm : bool; l_nsect : Z; l_sectsize : Z;
  l_from : Z * Z; l_to : Z * Z }.

(** [l[0]] and [l[-1]]. *)
Definition ends_of (l : list Z) : outcome (Z * Z) :=
  a ← index l 0; b ← index l (length l - 1); Ret (a, b).

Section Rebase.
Context (data : bytes) (delta : Z) (verbose : bool).

(** What a turn of the inner loop appends to [out]. *)
Definition copy_sector (sectsize : Z) (i : nat) : stM Z bytes :=
  stype ← peek data 0;
  skip 1;;
  if stype =? 0 then mret [stype]
  else if bool_decide (stype ∈ [1; 3; 5; 7]) then
    d ← chunk data sectsize; mret (stype :: d)
  else if bool_decide (stype ∈ [2; 4; 6; 8]) then
    b ← peek data 0; skip 1;; mret [stype; b]
  else raise (SystemExit 1).

Definition report_of (mode cyl head nsect sectsize : Z) (secnums_orig secnums_new : list Z)
  : outcome (list report_line) :=
  if verbose && (0 <? nsect) then
    o ← ends_of secnums_orig;
    n ← ends_of secnums_new;
    Ret [ReportLine cyl head (mode <=? 2) nsect sectsize o n]
  else Ret [].

(** What a turn of the outer loop appends to [out] and to [report]. *)
Definition rebase_track : stM Z (bytes * list report_line) :=
  mode ← peek data 0;
  cyl ← peek data 1;
  head_byte ← peek data 2;
  let head := Z.land head_byte 63 in
  let has_cyl_map := negb (Z.land head_byte 128 =? 0) in
  let has_head_map := negb (Z.land head_byte 64 =? 0) in
  nsect ← peek data 3;
  sectsize_code ← peek data 4;
  let sectsize := Z.shiftl 128 sectsize_code in
  hdr ← chunk data 5;
  secnums_orig ← chunk data nsect;
  let secnums_new := map (fun s => s + delta) secnums_orig in
  ids ← lift (mk_bytes secnums_new);
  report ← lift (report_of mode cyl head nsect sectsize secnums_orig secnums_new);
  cyl_map ← (if has_cyl_map then chunk data nsect else mret []);
  head_map ← (if has_head_map then chunk data nsect else mret []);
  sectors ← for_range 0 (Z.to_nat nsect) (copy_sector sectsize);
  mret (hdr ++ ids ++ cyl_map ++ head_map ++ concat sectors, report).

Definition rebase : outcome (bytes * list report_line * Z) :=
  hdr_end ← index_of 26 data;
  tracks ← fst (while_data data (S (length data)) rebase_track (hdr_end + 1));
  Ret (takeZ (hdr_end + 1) data ++ concat (map fst tracks), concat (map snd tracks), zlength tracks).
End Rebase.

(** ** rcbios/bin2imd.py *)

(** The bytes [write_track] of bin2imd.py writes, with the default
    [sector_base]. *)
Definition write_raw_track (mode cyl head nsect sectsize_code : Z) (sectors : list bytes)
  : outcome bytes :=
  hdr ← mk_bytes [mode; cyl; head; nsect; sectsize_code];
  ids ← mk_bytes (seqZ 1 nsect);
  Ret (hdr ++ ids ++ concat (map (fun s => 1 :: s) sectors)).

(** [for s in range(n): sectors.append(data[pos:pos + size]); pos += size]. *)
Fixpoint cut (n : nat) (size pos : Z) (data : bytes) : list bytes * Z :=
  match n with
  | O => ([], pos)
  | S n' =>
      let r := cut n' size (pos + size) data in
      (takeZ size (dropZ pos data) :: fst r, snd r)
  end.

(** One [write_track] per cylinder and head of a uniform part of the disk. *)
Fixpoint write_sides (sides : list (Z * Z)) (mode nsect code size pos : Z) (data : bytes)
  : outcome (bytes * Z) :=
  match sides with
  | [] => Ret ([], pos)
  | (cyl, head) :: sides' =>
      let '(sectors, pos') := cut (Z.to_nat nsect) size pos data in
      t ← write_raw_track mode cyl head nsect code sectors;
      r ← write_sides sides' mode nsect code size pos' data;
      Ret (t ++ fst r, snd r)
  end.

(** [for cyl in range(lo, hi): for head in range(2)]. *)
Definition sides_of (lo hi : Z) : list (Z * Z) :=
  concat (map (fun cyl => [(cyl, 0); (cyl, 1)]) (seqZ lo (hi - lo))).

Definition convert_rc702_mini (data : bytes) : outcome bytes :=
  let t0s0_size := 16 * 128 in
  let t0s1_size := 16 * 256 in
  let track_size := 2 * 9 * 512 in
  let remaining := zlength data - t0s0_size - t0s1_size in
  let num_data_tracks := remaining / track_size in
  let total_tracks := 1 + num_data_tracks in
  let header := chars "IMD 1.18: RC702 mini raw2imd conversion" ++ [13; 10] in
  let '(s0, pos) := cut 16 128 0 data in
  t0 ← write_raw_track 2 0 0 16 0 s0;
  let '(s1, pos) := cut 16 256 pos data in
  t1 ← write_raw_track 5 0 1 16 1 s1;
  '(rest, pos) ← write_sides (sides_of 1 total_tracks) 5 9 2 512 pos data;
  if negb (pos =? zlength data) then Raise AssertionError else
  Ret (header ++ [26] ++ t0 ++ t1 ++ rest).

Definition convert_rc703_mini (data : bytes) : outcome bytes :=
  let track_size := 2 * 10 * 512 in
  let total_tracks := zlength data / track_size in
  let header := chars "IMD 1.18: RC703 mini raw2imd conversion" ++ [13; 10] in
  '(rest, pos) ← write_sides (sides_of 0 total_tracks) 5 10 2 512 0 data;
  if negb (pos =? zlength data) then Raise AssertionError else
  Ret (header ++ [26] ++ rest).

Definition convert_rc702_maxi (data : bytes) : outcome bytes :=
  if negb (zlength data =? 77 * 2 * 15 * 512) then Raise AssertionError else
  let header := chars "IMD 1.18: RC702 maxi 8" ++ [34] ++ chars " DSDD uniform MFM" ++ [13; 10] in
  '(rest, pos) ← write_sides (sides_of 0 77) 3 15 2 512 0 data;
  if negb (pos =? zlength data) then Raise AssertionError else
  Ret (header ++ [26] ++ rest).

(** [data[-n:]] for a positive [n] up to the length. *)
Definition last_n (n : Z) (l : bytes) : bytes := dropZ (zlength l - n) l.

Definition convert (data : bytes) : outcome bytes :=
  let len := zlength data in
  if len =? 77 * 2 * 15 * 512 then convert_rc702_maxi data else
  let rc703_track_size := 2 * 10 * 512 in
  if (len mod rc703_track_size =? 0) && (rc703_track_size * 40 <=? len) then
    convert_rc703_mini data else
  let t0s0_size := 16 * 128 in
  let t0s1_size := 16 * 256 in
  let rc702_track_size := 2 * 9 * 512 in
  let remaining := len - t0s0_size - t0s1_size in
  if (0 <? remaining) && (remaining mod rc702_track_size =? 0) then convert_rc702_mini data else
  let excess := remaining mod rc702_track_size in
  if (0 <? remaining) && (0 <? excess) && forallb (fun b => b =? 229) (last_n excess data) then
    convert_rc702_mini (takeZ (len - excess) data)
  else Raise (SystemExit 1).

(** ** rcbios/patch_bios.py *)

(** [{secnum: data for ...}[n]]: the last entry of a number counts. *)
Fixpoint dict_get (n : Z) (l : list (Z * bytes)) : outcome bytes :=
  match l with
  | [] => Raise KeyError
  | (m, d) :: l' =>
      match dict_get n l' with
      | Raise _ => if m =? n then Ret d else Raise KeyError
      | r => r
      end
  end.

(** [len(set(sdata)) == 1]. *)
Definition uniform (sdata : bytes) : bool :=
  match sdata with b :: l => forallb (fun c => c =? b) l | [] => false end.

Definition write_sector (sdata : bytes) : bytes :=
  if uniform sdata then [2; hd 0 sdata] else 1 :: sdata.

Fixpoint write_sectors (secnums : bytes) (sectors_data : list (Z * bytes)) : outcome bytes :=
  match secnums with
  | [] => Ret []
  | n :: secnums' =>
      sdata ← dict_get n sectors_data;
      r ← write_sectors secnums' sectors_data;
      Ret (write_sector sdata ++ r)
  end.

Definition write_track (t : trk) (sectors_data : list (Z * bytes)) : outcome bytes :=
  body ← write_sectors (k_secnums t) sectors_data;
  Ret ([k_mode t; k_cyl t; k_head_byte t; k_nsect t; k_sectsize_code t] ++ k_secnums t ++ body).

(** The loop over one side: the new sectors and [cim_pos]. *)
Fixpoint fill_side (ss : Z) (cim : bytes) (cim_pos : Z) (sectors : list (Z * bytes))
  : list (Z * bytes) * Z :=
  match sectors with
  | [] => ([], cim_pos)
  | (secnum, orig) :: sectors' =>
      if cim_pos <? zlength cim then
        let remaining := zlength cim - cim_pos in
        let d := if ss <=? remaining then takeZ ss (dropZ cim_pos cim)
                 else takeZ remaining (dropZ cim_pos cim) ++ dropZ remaining orig in
        let r := fill_side ss cim (cim_pos + ss) sectors' in
        ((secnum, d) :: fst r, snd r)
      else
        let r := fill_side ss cim cim_pos sectors' in
        ((secnum, orig) :: fst r, snd r)
  end.

Definition track0_side (h : Z) (tracks : list trk) : option trk :=
  find (fun t => (k_cyl t =? 0) && (k_head t =? h)) tracks.

Definition side_total (t : option trk) : Z :=
  match t with Some t => k_nsect t * k_sectsize t | None => 0 end.

(** The rebuilt tracks, in the order of the file. *)
Fixpoint rebuild (imd_data : bytes) (new_s0 : list (Z * bytes)) (new_s1 : option (list (Z * bytes)))
    (tracks : list trk) : outcome bytes :=
  match tracks with
  | [] => Ret []
  | t :: tracks' =>
      b ← (if (k_cyl t =? 0) && (k_head t =? 0) then write_track t new_s0
           else match new_s1 with
                | Some s1 =>
                    if (k_cyl t =? 0) && (k_head t =? 1) then write_track t s1
                    else Ret (takeZ (k_raw_end t - k_raw_start t) (dropZ (k_raw_start t) imd_data))
                | None => Ret (takeZ (k_raw_end t - k_raw_start t) (dropZ (k_raw_start t) imd_data))
                end);
      r ← rebuild imd_data new_s0 new_s1 tracks';
      Ret (b ++ r)
  end.

(** The file written to [out_path]. *)
Definition patch (imd_data cim_data : bytes) : outcome bytes :=
  '(header, tracks) ← Patch.parse_imd imd_data;
  match track0_side 0 tracks with
  | None => Raise (SystemExit 1)
  | Some t0s0 =>
      let t0s1 := track0_side 1 tracks in
      let t0_total := side_total (Some t0s0) + side_total t0s1 in
      if t0_total <? zlength cim_data then Raise (SystemExit 1) else
      let '(new_s0, cim_pos) :=
        fill_side (k_sectsize t0s0) cim_data 0 (sort_by by_number (k_sectors t0s0)) in
      let new_s1 :=
        match t0s1 with
        | Some t =>
            if cim_pos <? zlength cim_data then
              Some (fst (fill_side (k_sectsize t) cim_data cim_pos (sort_by by_number (k_sectors t))))
            else None
        | None => None
        end in
      body ← rebuild imd_data new_s0 new_s1 tracks;
      Ret (header ++ body)
  end.

(** ** Rebasing an image of the format *)

Definition shift (delta : Z) (t : track) : track :=
  Track (t_mode t) (t_cyl t) (t_head t) (t_code t) (map (fun s => s + delta) (t_ids t))
    (t_cyl_map t) (t_head_map t) (t_stored t).

Definition shifts_ok (delta : Z) (t : track) : Prop := all_bytes (map (fun s => s + delta) (t_ids t)).

Definition line_of (delta : Z) (verbose : bool) (t : track) : list report_line :=
  if verbose && (0 <? t_nsect t) then
    let a := hd 0 (t_ids t) in
    let b := List.last (t_ids t) 0 in
    [ReportLine (t_cyl t) (t_head t) (t_mode t <=? 2) (t_nsect t) (t_size t) (a, b) (a + delta, b + delta)]
  else [].

Lemma shift_ok delta t : track_ok t -> shifts_ok delta t -> track_ok (shift delta t).
Proof.
  intros Ht Hs. destruct Ht. split; try done. cbn. unfold zlength. by rewrite length_map.
Qed.

Lemma shift_shift a b t : shift b (shift a t) = shift (a + b) t.
Proof. unfold shift. cbn. rewrite map_map. f_equal. apply map_ext. intros x. lia. Qed.

Lemma shift_0 t : shift 0 t = t.
Proof.
  assert (map (fun s => s + 0) (t_ids t) = t_ids t) as E.
  { rewrite <- (map_id (t_ids t)) at 2. apply map_ext. intros x. lia. }
  unfold shift. rewrite E. by destruct t.
Qed.

(** What the readers see of a rebased track: the same sectors under the new
    numbers. *)
Lemma sectors_of_shift delta t :
  sectors_of (shift delta t) = map (fun '(n, d) => (n + delta, d)) (sectors_of t).
Proof.
  unfold sectors_of, t_size. cbn [shift t_ids t_code t_stored]. generalize (map (content (Z.shiftl 128 (t_code t))) (t_stored t)).
  induction (t_ids t) as [|n ids IH]; intros [|d l]; try done. cbn. by f_equal.
Qed.

Lemma copy_record data size i ty d pos :
  0 <= ty <= 8 -> zlength d = kept size ty ->
  reads data pos (copy_sector data size i) (ty :: d) (ty :: d).
Proof.
  intros Hty Hd. unfold copy_sector, kept in *. sector_types Hty Hd;
    (eapply reads_peek; [done|reflexivity|];
     match goal with |- reads _ _ _ (?ty :: ?d) _ => change (ty :: d) with ([ty] ++ d) at 1 end;
     eapply reads_bind; [by apply reads_skip|]; eval_type); cbn [app];
    first
    [ destruct d as [|? d]; [apply reads_ret|rewrite zlength_cons in Hd; pose proof (zlength_pos d); lia]
    | rewrite <- (app_nil_r d) at 1; eapply reads_bind; [apply reads_chunk; by rewrite Hd|apply reads_ret]
    | destruct d as [|b [|? d]]; [by rewrite zlength_nil in Hd| |
        rewrite !zlength_cons in Hd; pose proof (zlength_pos d); lia];
      eapply reads_peek; [done|reflexivity|];
      apply (reads_bind _ _ _ _ [b] [] tt); [by apply reads_skip|apply reads_ret] ].
Qed.

Lemma ends_of_nonempty l : l <> [] -> ends_of l = Ret (hd 0 l, List.last l 0).
Proof.
  intros H. unfold ends_of. destruct l as [|a l]; [done|]. cbn [index lookup list_lookup mbind outcome_bind].
  rewrite (index_in _ _ (List.last (a :: l) 0)); [done|].
  clear H. revert a. induction l as [|b l IH]; intros a; [done|].
  replace (length (a :: b :: l) - 1)%nat with (S (length (b :: l) - 1)) by (cbn; lia). apply IH.
Qed.

Lemma last_map (f : Z -> Z) l : l <> [] -> List.last (map f l) 0 = f (List.last l 0).
Proof.
  induction l as [|a [|b l] IH]; intros H; [done|done|]. cbn [map List.last] in *. by apply IH.
Qed.

Lemma report_ok delta verbose t : track_ok t ->
  report_of verbose (t_mode t) (t_cyl t) (t_head t) (t_nsect t) (t_size t) (t_ids t)
    (map (fun s => s + delta) (t_ids t)) = Ret (line_of delta verbose t).
Proof.
  intros Ht. unfold report_of, line_of. destruct (verbose && (0 <? t_nsect t)) eqn:Ev; [|done].
  apply andb_prop in Ev as [_ Hn%Z.ltb_lt].
  assert (t_ids t <> []) as He.
  { intros E. pose proof (ok_count t Ht) as H. rewrite E, zlength_nil in H. lia. }
  rewrite (ends_of_nonempty (t_ids t)) by done. cbn [mbind outcome_bind].
  rewrite (ends_of_nonempty (map _ _)) by (by destruct (t_ids t)). cbn [mbind outcome_bind].
  rewrite last_map by done. by destruct (t_ids t).
Qed.

Lemma map_copies data pos t (m : option bytes) c :
  map_ok (t_nsect t) m -> c = present m ->
  reads data pos (if c : bool then chunk data (t_nsect t) else mret []) (map_bytes m) (map_bytes m).
Proof.
  intros Hm ->. destruct m as [l|]; cbn [map_bytes present].
  - apply reads_chunk. by destruct Hm.
  - apply reads_ret.
Qed.

Lemma copies_reads data size pos t :
  track_ok t -> size = t_size t ->
  reads data pos (for_range 0 (Z.to_nat (t_nsect t)) (copy_sector data size)) (stored_bytes t)
    (map (fun '(ty, d) => ty :: d) (t_stored t)).
Proof.
  intros Ht ->. unfold t_nsect, zlength. rewrite Nat2Z.id.
  rewrite <- (length_map (fun '(ty, d) => ty :: d) (t_stored t)). apply reads_for; [done|].
  intros k l x pos' Hl Hx. rewrite Hl in Hx. injection Hx as <-.
  rewrite list_lookup_fmap in Hl. apply fmap_Some in Hl as ([ty d] & Hk & ->).
  destruct (proj1 (Forall_lookup _ _) (ok_stored t Ht) k _ Hk) as (Hty & _ & Hd).
  by apply copy_record.
Qed.

Section RebaseTrack.
Context (data : bytes) (delta : Z) (verbose : bool) (pos : Z) (t : track) (Ht : track_ok t).

Lemma rebase_reads : shifts_ok delta t ->
  reads data pos (rebase_track data delta verbose) (track_bytes t)
    (track_bytes (shift delta t), line_of delta verbose t).
Proof.
  intros Hs. unfold rebase_track.
  pose proof (head_byte_fields t Ht) as (Hh & Hhm & Hcm & _).
  do 5 (eapply reads_peek; [done|reflexivity|]). rewrite Hh.
  eapply (reads_bind _ _ _ _ (track_head t)); [by apply reads_chunk|].
  eapply reads_bind; [apply reads_chunk; symmetry; apply ok_count, Ht|].
  eapply reads_lift; [by apply mk_bytes_ok|].
  eapply reads_lift; [by apply report_ok|].
  eapply reads_bind; [apply map_copies; [apply ok_cyl_map, Ht|exact Hcm]|].
  eapply reads_bind; [apply map_copies; [apply ok_head_map, Ht|exact Hhm]|].
  rewrite <- (app_nil_r (stored_bytes t)).
  eapply reads_bind; [by apply copies_reads|]. apply reads_ret.
Qed.
End RebaseTrack.

(** [m], started at [pos] before [l], raises [e]. *)
Definition raises {A} (data : bytes) (pos : Z) (m : stM Z A) (l : bytes) (e : exn) : Prop :=
  0 <= pos -> (exists rest, dropZ pos data = l ++ rest) -> fst (m pos) = Raise e.

Section Raises.
Context (data : bytes).

Lemma raises_peek {B} pos k (f : Z -> stM Z B) l c e :
  0 <= k -> l !! Z.to_nat k = Some c -> raises data pos (f c) l e ->
  raises data pos (peek data k ≫= f) l e.
Proof.
  intros Hk Hl H Hp [rest Hr]. unfold mbind, stM_bind, peek.
  rewrite dropZ_dropZ, Hr by done. rewrite dropZ_drop, drop_app_le
    by (apply lookup_lt_Some in Hl; lia).
  rewrite (drop_S _ _ _ Hl). apply H; [done|]. by exists rest.
Qed.

Lemma raises_bind {A B} pos (m : stM Z A) (f : A -> stM Z B) l1 l2 a e :
  reads data pos m l1 a -> raises data (pos + zlength l1) (f a) l2 e ->
  raises data pos (m ≫= f) (l1 ++ l2) e.
Proof.
  intros H1 H2 Hp [rest Hr]. unfold mbind, stM_bind. pose proof (zlength_pos l1).
  rewrite H1; [|done|exists (l2 ++ rest); by rewrite Hr, app_assoc].
  apply H2; [lia|]. exists rest. rewrite dropZ_dropZ, Hr, <- app_assoc by lia. by apply dropZ_app.
Qed.

Lemma raises_lift {A B} pos (f : A -> stM Z B) l e : raises data pos (lift (Raise e) ≫= f) l e.
Proof. done. Qed.

Lemma while_raises {A} (body : stM Z A) (f : track -> A) t e rest ts : forall fuel pos,
  (forall t pos, In t ts -> reads data pos body (track_bytes t) (f t)) ->
  (forall pos, raises data pos body (track_bytes t) e) ->
  0 <= pos -> dropZ pos data = concat (map track_bytes ts) ++ track_bytes t ++ rest ->
  (length ts < fuel)%nat ->
  fst (while_data data fuel body pos) = Raise e.
Proof.
  induction ts as [|t' ts IH]; intros fuel pos Hb He Hp Hd Hf; (destruct fuel as [|fuel]; [cbn in Hf; lia|]);
    cbn [while_data]; unfold mbind, stM_bind, get; cbn [map concat app] in Hd.
  all: assert (pos < zlength data) by (apply (f_equal length) in Hd;
    rewrite dropZ_drop, length_drop, ?length_app in Hd; cbn in Hd; unfold zlength; lia).
  all: rewrite (proj2 (Z.ltb_lt _ _)) by done.
  - specialize (He pos Hp (ex_intro _ rest Hd)). destruct (body pos) as [[a|e'] p]; [done|].
    cbn in *. congruence.
  - rewrite <- app_assoc in Hd.
    rewrite (Hb t' pos); [|by left|done|by eexists]. pose proof (zlength_pos (track_bytes t')).
    specialize (IH fuel (pos + zlength (track_bytes t'))).
    destruct (while_data data fuel body (pos + zlength (track_bytes t'))) as [o p] eqn:Ew.
    cbn [fst] in IH. rewrite IH; [done| |done|lia| |cbn in Hf; lia].
    + intros t'' pos' Ht. apply Hb. by right.
    + rewrite dropZ_dropZ, Hd by lia. by apply dropZ_app.
Qed.
End Raises.

Lemma mk_bytes_raises l : ~ all_bytes l -> mk_bytes l = Raise ValueError.
Proof.
  intros H. unfold mk_bytes. destruct (forallb is_byteb l) eqn:E; [|done]. destruct H.
  apply List.Forall_forall. intros x Hx. apply is_byteb_spec. by apply (proj1 (forallb_forall _ _) E).
Qed.

Lemma mk_bytes_cases l : mk_bytes l = Ret l \/ mk_bytes l = Raise ValueError.
Proof. unfold mk_bytes. destruct (forallb _ _); auto. Qed.

Lemma rebase_track_raises data delta verbose pos t :
  track_ok t -> ~ shifts_ok delta t ->
  raises data pos (rebase_track data delta verbose) (track_bytes t) ValueError.
Proof.
  intros Ht Hs. unfold rebase_track.
  do 5 (eapply raises_peek; [done|reflexivity|]).
  eapply (raises_bind _ _ _ _ (track_head t)); [by apply reads_chunk|].
  eapply raises_bind; [apply reads_chunk; symmetry; apply ok_count, Ht|].
  rewrite mk_bytes_raises by done. apply raises_lift.
Qed.

Lemma rebase_image header ts delta verbose :
  image_ok header ts -> Forall (shifts_ok delta) ts ->
  rebase (image header ts) delta verbose =
    Ret (image header (map (shift delta) ts), concat (map (line_of delta verbose) ts), zlength ts).
Proof.
  intros [Hh Ht] Hs. unfold rebase. rewrite index_of_image by done. cbn [mbind outcome_bind].
  rewrite (image_while _ _ _ (fun _ t => (track_bytes (shift delta t), line_of delta verbose t))).
  - rewrite go_map. cbn [mbind outcome_bind]. rewrite !map_map. cbn [fst snd].
    rewrite image_header. unfold image. rewrite map_map, <- app_assoc. unfold zlength.
    by rewrite length_map.
  - intros t pos Hin%list_elem_of_In. apply rebase_reads;
      [by apply (proj1 (Forall_forall _ _) Ht)|by apply (proj1 (Forall_forall _ _) Hs)].
Qed.

Lemma rebase_refuses header ts delta verbose :
  image_ok header ts -> ~ Forall (shifts_ok delta) ts ->
  rebase (image header ts) delta verbose = Raise ValueError.
Proof.
  intros [Hh Ht] Hs. unfold rebase. rewrite index_of_image by done. cbn [mbind outcome_bind].
  assert (exists ts1 t ts2, ts = ts1 ++ t :: ts2 /\ Forall (shifts_ok delta) ts1 /\ ~ shifts_ok delta t)
    as (ts1 & t & ts2 & -> & H1 & H2).
  { clear Ht. induction ts as [|t ts IH]; [by destruct Hs|].
    destruct (decide (shifts_ok delta t)) as [H|H]; [|by exists [], t, ts].
    destruct IH as (ts1 & t' & ts2 & -> & H1 & H2); [intros H'; apply Hs; by constructor|].
    exists (t :: ts1), t', ts2. split_and!; [done|by constructor|done]. }
  apply Forall_app in Ht as [Ht1 [Ht _]%Forall_cons].
  rewrite (while_raises (image header (ts1 ++ t :: ts2)) (rebase_track (image header (ts1 ++ t :: ts2)) delta verbose)
    (fun t => (track_bytes (shift delta t), line_of delta verbose t)) t ValueError
    (concat (map track_bytes ts2)) ts1); [done| | | | |].
  - intros t' pos Hin%list_elem_of_In. apply rebase_reads;
      [by apply (proj1 (Forall_forall _ _) Ht1)|by apply (proj1 (Forall_forall _ _) H1)].
  - intros pos. by apply rebase_track_raises.
  - pose proof (zlength_pos header). lia.
  - rewrite image_tail, map_app, concat_app. done.
  - unfold image. rewrite length_app. cbn [length].
    pose proof (length_tracks (ts1 ++ t :: ts2)). rewrite length_app in *. cbn [length] in *. lia.
Qed.

(** ** Converted disks *)

(** A track of plain records numbered from 1. *)
Definition plain (mode cyl head code : Z) (sectors : list bytes) : track :=
  Track mode cyl head code (seqZ 1 (zlength sectors)) None None (map (fun s => (1, s)) sectors).

(** The contents of tracks, in order. *)
Definition contents (ts : list track) : bytes :=
  concat (map (fun t => concat (map snd (sectors_of t))) ts).

Lemma zlength_seqZ a n : 0 <= n -> zlength (seqZ a n) = n.
Proof. intros H. unfold zlength. rewrite length_seqZ. lia. Qed.

Lemma seqZ_bytes n : n < 256 -> all_bytes (seqZ 1 n).
Proof. intros H. apply Forall_forall. intros x Hx%elem_of_seqZ. unfold is_byte. lia. Qed.

Lemma plain_ok mode cyl head code sectors :
  is_byte mode -> is_byte cyl -> 0 <= head < 64 -> is_byte code -> zlength sectors < 256 ->
  Forall (fun s => all_bytes s /\ zlength s = Z.shiftl 128 code) sectors ->
  track_ok (plain mode cyl head code sectors).
Proof.
  intros Hm Hc Hh Hco Hn Hs. pose proof (zlength_pos sectors).
  assert (t_nsect (plain mode cyl head code sectors) = zlength sectors) as En
    by (unfold t_nsect, zlength; cbn; by rewrite length_map).
  split; try done; rewrite ?En.
  - done.
  - by apply seqZ_bytes.
  - by apply zlength_seqZ.
  - cbn. apply Forall_map. eapply Forall_impl; [exact Hs|]. intros s [H1 H2]. by split_and!.
Qed.

Lemma plain_contents mode cyl head code sectors :
  contents [plain mode cyl head code sectors] = concat sectors.
Proof.
  unfold contents. cbn [map concat]. rewrite app_nil_r. f_equal. unfold sectors_of. cbn [plain t_ids t_stored].
  rewrite map_map. replace (map (fun x : bytes => content _ (1, x)) sectors) with sectors
    by (symmetry; apply map_id). change (map snd (zip ?a ?b)) with ((zip a b).*2).
  apply snd_zip. unfold zlength. rewrite length_seqZ. lia.
Qed.

Lemma write_raw_track_plain mode cyl head code sectors :
  is_byte mode -> is_byte cyl -> 0 <= head < 64 -> is_byte code -> zlength sectors < 256 ->
  write_raw_track mode cyl head (zlength sectors) code sectors =
    Ret (track_bytes (plain mode cyl head code sectors)).
Proof.
  intros Hm Hc Hh Hco Hn. pose proof (zlength_pos sectors). unfold write_raw_track.
  rewrite (mk_bytes_ok [_; _; _; _; _]) by (unfold is_byte in *; rewrite !Forall_cons; split_and!; first [lia|constructor]). cbn [mbind outcome_bind].
  rewrite mk_bytes_ok by (by apply seqZ_bytes). cbn [mbind outcome_bind].
  unfold track_bytes, track_head, head_byte, stored_bytes, t_nsect. cbn [plain t_mode t_cyl t_head
    t_code t_ids t_cyl_map t_head_map t_stored map_bytes app]. rewrite !Z.add_0_r, map_map.
  unfold zlength at 3. rewrite length_map. done.
Qed.

Lemma write_raw_track_refuses mode cyl head nsect code sectors :
  256 <= cyl -> write_raw_track mode cyl head nsect code sectors = Raise ValueError.
Proof.
  intros H. unfold write_raw_track. rewrite (mk_bytes_raises [_; _; _; _; _]); [done|].
  intros H'. apply Forall_cons in H' as [_ [H' _]%Forall_cons]. unfold is_byte in H'. lia.
Qed.

Lemma write_raw_track_cases mode cyl head nsect code sectors :
  (exists o, write_raw_track mode cyl head nsect code sectors = Ret o) \/
  write_raw_track mode cyl head nsect code sectors = Raise ValueError.
Proof.
  unfold write_raw_track.
  destruct (mk_bytes_cases [mode; cyl; head; nsect; code]) as [-> | ->]; [|by right]. cbn [mbind outcome_bind].
  destruct (mk_bytes_cases (seqZ 1 nsect)) as [-> | ->]; [|by right]. left. by eexists.
Qed.

Lemma cut_spec n size data : forall pos, 0 <= pos -> 0 <= size -> pos + Z.of_nat n * size <= zlength data ->
  snd (cut n size pos data) = pos + Z.of_nat n * size /\
  length (fst (cut n size pos data)) = n /\
  Forall (fun s => zlength s = size) (fst (cut n size pos data)) /\
  dropZ pos data = concat (fst (cut n size pos data)) ++ dropZ (pos + Z.of_nat n * size) data.
Proof.
  induction n as [|n IH]; intros pos Hp Hs Hn; cbn [cut fst snd].
  - split_and!; [lia|done|constructor|]. cbn. f_equal. lia.
  - destruct (IH (pos + size)) as (H1 & H2 & H3 & H4); [lia..|]. split_and!.
    + rewrite H1. lia.
    + cbn. by rewrite H2.
    + constructor; [|done]. rewrite takeZ_take, dropZ_drop. unfold zlength in *.
      rewrite length_take, length_drop. lia.
    + cbn [concat]. rewrite <- app_assoc. replace (pos + Z.of_nat (S n) * size) with (pos + size + Z.of_nat n * size) by lia.
      rewrite <- H4, dropZ_dropZ by done. by rewrite takeZ_take, (dropZ_drop size), take_drop.
Qed.

Lemma cut_bytes n size data : forall pos, all_bytes data -> Forall (fun s => all_bytes s) (fst (cut n size pos data)).
Proof.
  induction n as [|n IH]; intros pos H; cbn [cut fst]; [constructor|]. constructor; [|by apply IH].
  rewrite takeZ_take, dropZ_drop. by apply Forall_take, Forall_drop.
Qed.

(** What the conversions write: the tracks with their data, one per side. *)
Definition written (data : bytes) (pos pos' : Z) (out : bytes) (ts : list track) : Prop :=
  out = concat (map track_bytes ts) /\ Forall track_ok ts /\
  Forall (fun t => t_ids t = seqZ 1 (t_nsect t)) ts /\
  0 <= pos <= pos' /\ dropZ pos data = contents ts ++ dropZ pos' data.

Lemma written_app data p1 p2 p3 o1 o2 ts1 ts2 :
  written data p1 p2 o1 ts1 -> written data p2 p3 o2 ts2 ->
  written data p1 p3 (o1 ++ o2) (ts1 ++ ts2).
Proof.
  intros (-> & H1 & H2 & H3 & H4) (-> & H1' & H2' & H3' & H4'). unfold written, contents in *.
  rewrite !map_app, !concat_app. split_and!; [done|by apply Forall_app|by apply Forall_app|lia|lia|].
  by rewrite H4, H4', app_assoc.
Qed.

Lemma track_written data mode cyl head nsect code size pos :
  is_byte mode -> is_byte cyl -> 0 <= head < 64 -> is_byte code -> size = Z.shiftl 128 code ->
  0 <= nsect < 256 -> 0 <= pos -> pos + nsect * size <= zlength data -> all_bytes data ->
  exists out t, write_raw_track mode cyl head nsect code (fst (cut (Z.to_nat nsect) size pos data)) = Ret out /\
    snd (cut (Z.to_nat nsect) size pos data) = pos + nsect * size /\
    written data pos (pos + nsect * size) out [t].
Proof.
  intros Hm Hc Hh Hco Hsz Hn Hp Hl Hb.
  assert (0 <= size) by (subst size; apply Z.shiftl_nonneg; lia).
  destruct (cut_spec (Z.to_nat nsect) size data pos) as (H1 & H2 & H3 & H4); [done..|lia|].
  pose proof (cut_bytes (Z.to_nat nsect) size data pos Hb) as H5.
  rewrite Z2Nat.id in * by lia. set (ss := fst (cut (Z.to_nat nsect) size pos data)) in *.
  assert (zlength ss = nsect) as En by (unfold zlength; lia).
  pose proof (write_raw_track_plain mode cyl head code ss Hm Hc Hh Hco ltac:(lia)) as Hw. rewrite En in Hw.
  exists (track_bytes (plain mode cyl head code ss)), (plain mode cyl head code ss).
  split_and!; [exact Hw|exact H1|]. unfold written. split_and!; try (cbn [map concat]; by rewrite app_nil_r); try (nia); try done.
  - constructor; [|constructor]. apply plain_ok; try done; [lia|].
    rewrite <- Hsz. apply Forall_and. split; [done|exact H3].
  - constructor; [|constructor]. unfold t_nsect, zlength. cbn [plain t_ids t_stored]. by rewrite length_map.
  - by rewrite plain_contents.
Qed.

Section Sides.
Context (mode nsect code size : Z) (data : bytes).
Context (Hm : is_byte mode) (Hco : is_byte code) (Hsz : size = Z.shiftl 128 code)
        (Hn : 0 <= nsect < 256) (Hb : all_bytes data).

Lemma sides_written sides : forall pos,
  Forall (fun s => is_byte (fst s) /\ 0 <= snd s < 64) sides -> 0 <= pos ->
  pos + zlength sides * (nsect * size) <= zlength data ->
  exists out ts, write_sides sides mode nsect code size pos data =
      Ret (out, pos + zlength sides * (nsect * size)) /\
    written data pos (pos + zlength sides * (nsect * size)) out ts.
Proof.
  assert (0 <= size) by (subst size; apply Z.shiftl_nonneg; lia).
  induction sides as [|[cyl head] sides IH]; intros pos Hs Hp Hl; cbn [write_sides].
  - exists [], []. rewrite (zlength_nil (A:=Z * Z)), Z.mul_0_l, Z.add_0_r. by split_and!.
  - rewrite zlength_cons in *. apply Forall_cons in Hs as [[Hc Hh] Hs]. cbn [fst snd] in *.
    pose proof (zlength_pos sides).
    destruct (track_written data mode cyl head nsect code size pos) as (o & t & H1 & H2 & H3); try done; [nia|].
    destruct (cut (Z.to_nat nsect) size pos data) as [ss p] eqn:Ec. cbn [fst snd] in *. subst p.
    rewrite H1. cbn [mbind outcome_bind].
    destruct (IH (pos + nsect * size)) as (o' & ts & H4 & H5); [done|nia|nia|].
    rewrite H4. cbn [mbind outcome_bind fst snd]. exists (o ++ o'), ([t] ++ ts). split.
    + f_equal. f_equal. lia.
    + eapply written_app; [exact H3|]. by replace (pos + (1 + zlength sides) * (nsect * size))
        with (pos + nsect * size + zlength sides * (nsect * size)) by lia.
Qed.

Lemma sides_refused m n c sides : forall pos,
  Exists (fun s => 256 <= fst s) sides -> write_sides sides m n c size pos data = Raise ValueError.
Proof.
  induction sides as [|[cyl head] sides IH]; intros pos H; cbn [write_sides]; [by inversion H|].
  destruct (cut (Z.to_nat n) size pos data) as [ss p]. apply Exists_cons in H as [H|H].
  - rewrite write_raw_track_refuses by done. reflexivity.
  - destruct (write_raw_track_cases m cyl head n c ss) as [[o ->] | ->]; [|done]. cbn [mbind outcome_bind].
    by rewrite IH.
Qed.
End Sides.

Lemma zlength_sides lo hi : lo <= hi -> zlength (sides_of lo hi) = 2 * (hi - lo).
Proof.
  intros H. unfold sides_of. rewrite <- (zlength_seqZ lo (hi - lo)) at 2 by lia.
  induction (seqZ lo (hi - lo)) as [|c l IH]; [done|]. cbn [map concat app].
  rewrite !zlength_cons, IH. lia.
Qed.

Lemma sides_in lo hi : 0 <= lo -> hi <= 256 ->
  Forall (fun s => is_byte (fst s) /\ 0 <= snd s < 64) (sides_of lo hi).
Proof.
  intros H1 H2. unfold sides_of. apply Forall_concat, Forall_map, Forall_forall.
  intros c Hc%elem_of_seqZ. unfold is_byte. repeat constructor; cbn; lia.
Qed.

Lemma sides_beyond lo hi : lo <= 256 -> 256 < hi -> Exists (fun s => 256 <= fst s) (sides_of lo hi).
Proof.
  intros H1 H2. apply Exists_exists. exists (256, 0). split; [|cbn; lia]. unfold sides_of.
  apply list_elem_of_In, in_concat. exists [(256, 0); (256, 1)]. split; [|by left].
  apply in_map_iff. exists 256. split; [done|]. apply list_elem_of_In, elem_of_seqZ. lia.
Qed.

(** An image that holds the whole of [data]. *)
Definition holds_disk (f data : bytes) : Prop :=
  exists header ts, f = image header ts /\ image_ok header ts /\ contents ts = data /\
    Forall (fun t => t_ids t = seqZ 1 (t_nsect t)) ts.

Lemma written_whole header data out ts p :
  26 ∉ header -> written data 0 p out ts -> p = zlength data -> holds_disk (header ++ [26] ++ out) data.
Proof.
  intros Hh (-> & H1 & H2 & _ & H4) ->. exists header, ts. split_and!; [done|done| |done].
  rewrite dropZ_drop in H4. change (drop (Z.to_nat 0) data) with (drop 0 data) in H4. rewrite drop_0 in H4.
  rewrite H4, dropZ_drop. unfold zlength. rewrite Nat2Z.id, drop_all. by rewrite app_nil_r.
Qed.

Ltac small := unfold is_byte; lia.

Ltac header_clean := apply (bool_decide_unpack _); vm_compute; exact I.

Section Conversions.
Context (data : bytes) (Hb : all_bytes data).

Lemma maxi_converts : zlength data = 1182720 ->
  exists f, convert_rc702_maxi data = Ret f /\ holds_disk f data.
Proof.
  intros Hl. unfold convert_rc702_maxi. rewrite Hl. cbn [Z.eqb Z.mul Pos.mul Pos.eqb negb].
  destruct (sides_written 3 15 2 512 data ltac:(small) ltac:(small) eq_refl ltac:(small) Hb
    (sides_of 0 77) 0) as (o & ts & H1 & H2);
    [apply sides_in; lia|lia|rewrite zlength_sides; lia|].
  rewrite zlength_sides in H1, H2 by lia. rewrite H1. cbn [mbind outcome_bind].
  eexists. split; [by rewrite (proj2 (Z.eqb_eq _ _)) by lia|].
  eapply written_whole; [header_clean|exact H2|lia].
Qed.

Lemma rc703_converts k : zlength data = k * 10240 -> 0 <= k <= 256 ->
  exists f, convert_rc703_mini data = Ret f /\ holds_disk f data.
Proof.
  intros Hl Hk. unfold convert_rc703_mini. change (2 * 10 * 512) with 10240. rewrite Hl.
  rewrite Z.div_mul by done.
  destruct (sides_written 5 10 2 512 data ltac:(small) ltac:(small) eq_refl ltac:(small) Hb
    (sides_of 0 k) 0) as (o & ts & H1 & H2);
    [apply sides_in; lia|lia|rewrite zlength_sides; lia|].
  rewrite zlength_sides in H1, H2 by lia. rewrite H1. cbn [mbind outcome_bind].
  eexists. split; [by rewrite (proj2 (Z.eqb_eq _ _)) by lia|].
  eapply written_whole; [header_clean|exact H2|lia].
Qed.

Lemma rc703_refuses k : zlength data = k * 10240 -> 256 < k -> convert_rc703_mini data = Raise ValueError.
Proof.
  intros Hl Hk. unfold convert_rc703_mini. change (2 * 10 * 512) with 10240. rewrite Hl.
  rewrite Z.div_mul by done. rewrite sides_refused; [done|apply sides_beyond; lia].
Qed.

Lemma mini_converts k : zlength data = 6144 + k * 9216 -> 0 <= k <= 255 ->
  exists f, convert_rc702_mini data = Ret f /\ holds_disk f data.
Proof.
  intros Hl Hk. unfold convert_rc702_mini.
  replace ((zlength data - 16 * 128 - 16 * 256) / (2 * 9 * 512)) with k
    by (rewrite Hl; change (2 * 9 * 512) with 9216; rewrite <- (Z.div_mul k 9216) at 1 by done; f_equal; lia).
  destruct (track_written data 2 0 0 16 0 128 0) as (o0 & t0 & H1 & H2 & H3);
    [small|small|small|small|done|small|small|lia|done|].
  change (Z.to_nat 16) with 16%nat in *.
  destruct (cut 16 128 0 data) as [s0 p0]. cbn [fst snd] in *. subst p0. rewrite H1. cbn [mbind outcome_bind].
  destruct (track_written data 5 0 1 16 1 256 (0 + 16 * 128)) as (o1 & t1 & H4 & H5 & H6);
    [small|small|small|small|done|small|small|lia|done|].
  change (Z.to_nat 16) with 16%nat in *.
  destruct (cut 16 256 (0 + 16 * 128) data) as [s1 p1]. cbn [fst snd] in *. subst p1. rewrite H4. cbn [mbind outcome_bind].
  destruct (sides_written 5 9 2 512 data ltac:(small) ltac:(small) eq_refl ltac:(small) Hb
    (sides_of 1 (1 + k)) (0 + 16 * 128 + 16 * 256)) as (o & ts & H7 & H8);
    [apply sides_in; lia|lia|rewrite zlength_sides; lia|].
  rewrite zlength_sides in H7, H8 by lia. rewrite H7. cbn [mbind outcome_bind].
  eexists. split; [by rewrite (proj2 (Z.eqb_eq _ _)) by lia|].
  eapply written_whole; [header_clean| |].
  - eapply written_app; [exact H3|]. eapply written_app; [exact H6|exact H8].
  - lia.
Qed.

Lemma mini_refuses k : zlength data = 6144 + k * 9216 -> 255 < k -> convert_rc702_mini data = Raise ValueError.
Proof.
  intros Hl Hk. unfold convert_rc702_mini.
  replace ((zlength data - 16 * 128 - 16 * 256) / (2 * 9 * 512)) with k
    by (rewrite Hl; change (2 * 9 * 512) with 9216; rewrite <- (Z.div_mul k 9216) at 1 by done; f_equal; lia).
  destruct (cut 16 128 0 data) as [s0 p0].
  destruct (write_raw_track_cases 2 0 0 16 0 s0) as [[o0 ->] | ->]; [|done]. cbn [mbind outcome_bind].
  destruct (cut 16 256 p0 data) as [s1 p1].
  destruct (write_raw_track_cases 5 0 1 16 1 s1) as [[o1 ->] | ->]; [|done]. cbn [mbind outcome_bind].
  rewrite sides_refused; [done|apply sides_beyond; lia].
Qed.
End Conversions.

(** The sizes [convert] has a geometry for. *)
Definition known_size (n : Z) : Prop :=
  n = 1182720 \/ (n mod 10240 = 0 /\ 40 * 10240 <= n <= 256 * 10240) \/
  ((n - 6144) mod 9216 = 0 /\ 6144 < n <= 6144 + 255 * 9216).

Lemma convert_known data : all_bytes data -> known_size (zlength data) ->
  exists f, convert data = Ret f /\ holds_disk f data.
Proof.
  intros Hb Hk. unfold convert, known_size in *. set (n := zlength data) in *.
  change (77 * 2 * 15 * 512) with 1182720. change (2 * 10 * 512) with 10240.
  change (2 * 9 * 512) with 9216. change (16 * 128) with 2048. change (16 * 256) with 4096.
  change (10240 * 40) with 409600.
  destruct (Z.eqb_spec n 1182720) as [E|E]; [by apply maxi_converts|].
  destruct (Z.eqb_spec (n mod 10240) 0) as [E1|E1]; destruct (Z.leb_spec 409600 n) as [E2|E2]; cbn [andb].
  { apply (rc703_converts data Hb (n / 10240)).
    - pose proof (Z.div_mod n 10240 ltac:(lia)). fold n. lia.
    - split; [by apply Z.div_pos; lia|]. apply Z.div_le_upper_bound; [lia|].
      destruct Hk as [?|[?|?]]; lia. }
  all: assert ((n - 6144) mod 9216 = 0 /\ 6144 < n <= 6144 + 255 * 9216) as [H1 H2]
    by (destruct Hk as [?|[?|?]]; [lia|lia|done]).
  all: replace (n - 2048 - 4096) with (n - 6144) by lia.
  all: rewrite (proj2 (Z.ltb_lt 0 (n - 6144))), (proj2 (Z.eqb_eq _ 0)) by lia; cbn [andb].
  all: apply (mini_converts data Hb ((n - 6144) / 9216)).
  all: pose proof (Z.div_mod (n - 6144) 9216 ltac:(lia)); fold n;
    first [lia|split; [by apply Z.div_pos; lia|apply Z.div_le_upper_bound; lia]].
Qed.

Lemma all_eqb_replicate (l : bytes) c :
  forallb (fun b => b =? c) l = true -> l = replicate (length l) c.
Proof.
  induction l as [|b l IH]; cbn; [done|]. intros [->%Z.eqb_eq H]%andb_prop. by rewrite <- IH.
Qed.

Lemma mini_some data k f : all_bytes data -> zlength data = 6144 + k * 9216 -> 0 <= k ->
  convert_rc702_mini data = Ret f -> holds_disk f data.
Proof.
  intros Hb Hl Hk H. destruct (Z.le_gt_cases k 255).
  - destruct (mini_converts data Hb k Hl) as (f' & H1 & H2); [lia|]. congruence.
  - rewrite (mini_refuses data k) in H by (done || lia). done.
Qed.

Lemma convert_keeps data f : all_bytes data -> convert data = Ret f ->
  exists d n, holds_disk f d /\ data = d ++ replicate n 229 /\ Z.of_nat n < 9216.
Proof.
  intros Hb. unfold convert.
  change (77 * 2 * 15 * 512) with 1182720. change (2 * 10 * 512) with 10240.
  change (2 * 9 * 512) with 9216. change (16 * 128) with 2048. change (16 * 256) with 4096.
  change (10240 * 40) with 409600. replace (zlength data - 2048 - 4096) with (zlength data - 6144) by lia.
  destruct (Z.eqb_spec (zlength data) 1182720) as [E|E].
  { intros H. destruct (maxi_converts data Hb E) as (f' & H1 & H2). exists data, 0%nat.
    rewrite app_nil_r. split_and!; [congruence|done|lia]. }
  destruct ((zlength data mod 10240 =? 0) && (409600 <=? zlength data)) eqn:E1.
  { intros H. apply andb_prop in E1 as [E1%Z.eqb_eq E2%Z.leb_le]. exists data, 0%nat. rewrite app_nil_r.
    split_and!; [|done|lia]. pose proof (Z.div_mod (zlength data) 10240 ltac:(lia)) as Hd.
    assert (zlength data = (zlength data / 10240) * 10240) as Hl by lia.
    destruct (Z.le_gt_cases (zlength data / 10240) 256).
    - destruct (rc703_converts data Hb _ Hl) as (f' & H1 & H2); [split; [by apply Z.div_pos; lia|done]|]. congruence.
    - rewrite (rc703_refuses data _ Hl) in H by lia. done. }
  pose proof (Z.div_mod (zlength data - 6144) 9216 ltac:(lia)) as Hd.
  destruct ((0 <? zlength data - 6144) && ((zlength data - 6144) mod 9216 =? 0)) eqn:E2.
  { intros H. apply andb_prop in E2 as [E2%Z.ltb_lt E3%Z.eqb_eq]. exists data, 0%nat. rewrite app_nil_r.
    split_and!; [|done|lia].
    apply (mini_some data ((zlength data - 6144) / 9216)); [done|lia|apply Z.div_pos; lia|done]. }
  destruct (Z.ltb_spec 0 (zlength data - 6144)) as [E3|]; cbn [andb]; [|done].
  set (x := (zlength data - 6144) mod 9216) in *.
  pose proof (Z.mod_pos_bound (zlength data - 6144) 9216 ltac:(lia)) as Hx. fold x in Hx.
  destruct (Z.ltb_spec 0 x); cbn [andb]; [|done]. destruct (forallb _ _) eqn:E4; [|done]. intros Hc.
  assert (Hq : 0 <= (zlength data - 6144) / 9216) by (apply Z.div_pos; lia).
  apply all_eqb_replicate in E4. unfold last_n in E4.
  exists (takeZ (zlength data - x) data), (length (dropZ (zlength data - x) data)).
  rewrite <- E4. rewrite takeZ_take, dropZ_drop in *. split_and!.
  - apply (mini_some _ ((zlength data - 6144) / 9216)); [by apply Forall_take| |exact Hq|exact Hc].
    unfold zlength in *.
    rewrite length_take. lia.
  - by rewrite take_drop.
  - rewrite length_drop. unfold zlength in *. lia.
Qed.

(** ** Patching track 0 *)

Lemma dict_get_key l m d : dict_get m l = Ret d -> m ∈ map fst l.
Proof.
  revert d. induction l as [|[k e] l IH]; intros d H; [done|]. cbn [dict_get map fst] in *.
  destruct (dict_get m l) as [d'|]; [right; by eapply IH|].
  destruct (Z.eqb_spec k m); [subst; by left|done].
Qed.

Lemma dict_get_in l n d : NoDup (map fst l) -> (n, d) ∈ l -> dict_get n l = Ret d.
Proof.
  induction l as [|[m e] l IH]; intros Hn Hi; [by inversion Hi|]. cbn [map fst] in Hn.
  apply NoDup_cons in Hn as [Hm Hn]. cbn [dict_get]. apply elem_of_cons in Hi as [[= -> ->]|Hi].
  - destruct (dict_get m l) as [d'|] eqn:E; [|by rewrite Z.eqb_refl].
    destruct Hm. by eapply dict_get_key.
  - by rewrite IH.
Qed.

(** The record [write_sector] chooses. *)
Definition packed (d : bytes) : Z * bytes := if uniform d then (2, [hd 0 d]) else (1, d).

Lemma write_sector_packed d : write_sector d = fst (packed d) :: snd (packed d).
Proof. unfold write_sector, packed. by destruct (uniform d). Qed.

Lemma packed_content size d : 0 < size -> all_bytes d -> zlength d = size ->
  content size (packed d) = d /\ stored_ok size (packed d) /\ fst (packed d) <= 4.
Proof.
  intros Hs Hb Hl. unfold packed. destruct (uniform d) eqn:E.
  - destruct d as [|b d]; [done|]. cbn [uniform] in E. apply all_eqb_replicate in E.
    apply Forall_cons in Hb as [Hb _]. unfold content, stored_ok. cbn [fst snd hd Z.eqb Z.odd].
    split_and!; try done; [|by constructor]. unfold repeatZ. rewrite <- Hl. unfold zlength.
    rewrite Nat2Z.id. cbn [length replicate]. by rewrite <- E.
  - unfold content, stored_ok. cbn [fst snd Z.eqb Z.odd]. by split_and!.
Qed.

Definition new_data_ok (size : Z) (ns : list (Z * bytes)) : Prop :=
  Forall (fun r => all_bytes (snd r) /\ zlength (snd r) = size) ns.

Lemma write_sectors_in (P ns : list (Z * bytes)) :
  NoDup (map fst ns) -> Forall (fun r => r ∈ ns) P ->
  write_sectors (map fst P) ns = Ret (concat (map (fun r => write_sector (snd r)) P)).
Proof.
  intros Hn. induction 1 as [|[n d] P Hi HP IH]; [done|]. cbn [map fst write_sectors].
  rewrite (dict_get_in ns n d) by done. cbn [mbind outcome_bind]. rewrite IH. done.
Qed.

(** What a patched track keeps of the original; its records are normal or compressed
    ones, whatever they were, unless they are all as they were. *)
Definition same_track (t t' : track) : Prop :=
  t_mode t' = t_mode t /\ t_cyl t' = t_cyl t /\ t_head t' = t_head t /\ t_code t' = t_code t /\
  t_ids t' = t_ids t /\ t_cyl_map t' = None /\ t_head_map t' = None /\
  length (t_stored t') = length (t_stored t) /\ (t_stored t' = t_stored t \/ Forall (fun r => fst r = 1 \/ fst r = 2) (t_stored t')).

Lemma packed_type d : fst (packed d) = 1 \/ fst (packed d) = 2.
Proof. unfold packed. repeat case_match; auto. Qed.

Lemma size_pos t : track_ok t -> 128 <= t_size t.
Proof.
  intros Ht. unfold t_size. pose proof (ok_code t Ht) as [H _]. rewrite Z.shiftl_mul_pow2 by done.
  pose proof (Z.pow_pos_nonneg 2 (t_code t)). nia.
Qed.

Lemma zip_split {A B} (l : list (A * B)) : zip (map fst l) (map snd l) = l.
Proof. induction l as [|[a b] l IH]; [done|]. cbn. by f_equal. Qed.

Lemma sectors_fst t : track_ok t -> map fst (sectors_of t) = t_ids t.
Proof.
  intros Ht. unfold sectors_of. apply fst_zip. rewrite length_map.
  pose proof (ok_count t Ht) as H. unfold t_nsect, zlength in H. lia.
Qed.

Lemma write_track_patched start t ns :
  track_ok t -> t_cyl_map t = None -> t_head_map t = None -> NoDup (t_ids t) ->
  map fst ns = map fst (sort_by by_number (sectors_of t)) -> new_data_ok (t_size t) ns ->
  exists t', write_track (as_trk start t) ns = Ret (track_bytes t') /\ track_ok t' /\ same_track t t' /\
    sort_by by_number (sectors_of t') = ns.
Proof.
  intros Ht Hc Hh Hnd Hk Hd.
  assert (StronglySorted before ns) as Hs.
  { eapply sorted_keys; [symmetry; exact Hk|]. apply sort_by_sorted. by rewrite sectors_fst. }
  assert (t_ids t ≡ₚ map fst ns) as Hp.
  { rewrite Hk, <- (sectors_fst t Ht) at 1. apply Permutation_map. symmetry. apply sort_by_perm. }
  apply Permutation_map_inv in Hp as (P & HP & Hperm).
  assert (new_data_ok (t_size t) P) as HdP by (unfold new_data_ok in *; by rewrite <- Hperm).
  pose proof (size_pos t Ht) as Hsz.
  set (t' := Track (t_mode t) (t_cyl t) (t_head t) (t_code t) (t_ids t) None None (map (fun r => packed (snd r)) P)).
  assert (sectors_of t' = P) as HS.
  { unfold sectors_of. cbn [t' t_ids t_stored]. rewrite map_map, HP.
    transitivity (zip (map fst P) (map snd P)); [|apply zip_split]. f_equal. apply map_ext_in.
    intros r Hr%list_elem_of_In. apply (proj1 (Forall_forall _ _) HdP) in Hr as [H1 H2].
    change (t_size t') with (t_size t). apply packed_content; [lia|done..]. }
  assert (length P = length (t_stored t)) as Hlen.
  { pose proof (ok_count t Ht) as H. rewrite HP in H. unfold t_nsect, zlength in H. rewrite length_map in H. lia. }
  exists t'. split_and!.
  - unfold write_track. cbn [as_trk k_secnums]. rewrite HP, write_sectors_in.
    + cbn [mbind outcome_bind]. unfold track_bytes, track_head, stored_bytes. f_equal. rewrite <- HP.
      cbn [as_trk k_mode k_cyl k_head_byte k_nsect k_sectsize_code t' t_mode t_cyl t_code t_ids t_cyl_map
        t_head_map t_stored map_bytes app]. unfold t_nsect, head_byte, zlength.
      cbn [t' t_stored t_head t_cyl_map t_head_map]. rewrite Hc, Hh, length_map, Hlen, map_map.
      by rewrite (map_ext _ (fun r => let '(ty, d) := packed (snd r) in ty :: d))
        by (intros r; rewrite write_sector_packed; by destruct (packed (snd r))).
    + by apply sorted_nodup.
    + apply Forall_forall. intros r Hr. by rewrite Hperm.
  - destruct Ht. split; try done; unfold t_nsect, zlength in *; cbn [t' t_stored]; rewrite ?length_map, ?Hlen; try done.
    apply Forall_map, Forall_forall. intros r Hr. apply (proj1 (Forall_forall _ _) HdP) in Hr as [H1 H2].
    change (t_size t') with (t_size t). apply packed_content; [lia|done..].
  - unfold same_track. cbn [t' t_mode t_cyl t_head t_code t_ids t_cyl_map t_head_map t_stored]. rewrite length_map. split_and!; try done.
    right. apply Forall_map, Forall_forall. intros r _. apply packed_type.
  - rewrite HS. apply sorted_same; [|done|rewrite sort_by_perm; by symmetry].
    apply sort_by_sorted. by rewrite <- HP.
Qed.

(** [cim] from [p] on, laid over [old]. *)
Definition overlay (cim : bytes) (p : nat) (old : bytes) : bytes :=
  take (length old) (drop p cim) ++ drop (length cim - p) old.

Lemma overlay_past cim p old : (length cim <= p)%nat -> overlay cim p old = old.
Proof.
  intros H. unfold overlay. rewrite (drop_ge cim) by done. rewrite take_nil.
  by replace (length cim - p)%nat with 0%nat by lia.
Qed.

Lemma overlay_nil cim p : overlay cim p [] = [].
Proof. unfold overlay. by rewrite drop_nil. Qed.

Lemma overlay_app cim p a b : overlay cim p (a ++ b) = overlay cim p a ++ overlay cim (p + length a) b.
Proof.
  unfold overlay. rewrite length_app. set (x := drop p cim).
  assert (length x = length cim - p)%nat as Hx by (unfold x; by rewrite length_drop).
  rewrite <- drop_drop. fold x. rewrite Nat.sub_add_distr, <- Hx.
  destruct (Nat.le_gt_cases (length a) (length x)) as [H|H].
  - rewrite (drop_ge a) by done. rewrite app_nil_r, drop_app_ge by done.
    rewrite <- take_take_drop. by rewrite <- app_assoc.
  - rewrite !(take_ge x) by lia. rewrite (drop_ge x), take_nil by lia.
    rewrite drop_app_le by lia. replace (length x - length a)%nat with 0%nat by lia.
    by rewrite drop_0, <- app_assoc.
Qed.

Definition datas (l : list (Z * bytes)) : bytes := concat (map snd l).

Lemma fill_side_spec ss cim sectors : forall p, 0 <= p -> 0 < ss ->
  all_bytes cim -> new_data_ok ss sectors ->
  let r := fill_side ss cim p sectors in
  map fst (fst r) = map fst sectors /\ new_data_ok ss (fst r) /\
  datas (fst r) = overlay cim (Z.to_nat p) (datas sectors) /\
  (snd r < zlength cim -> snd r = p + zlength (datas sectors)) /\
  (zlength cim <= snd r -> zlength cim <= p + zlength (datas sectors)).
Proof.
  induction sectors as [|[n orig] sectors IH]; intros p Hp Hs Hb Hd; cbn [fill_side].
  - unfold datas, overlay. cbn. rewrite drop_nil. split_and!; try done; unfold zlength; cbn; lia.
  - apply Forall_cons in Hd as [[Ho Hl] Hd]. cbn [fst snd] in *.
    assert (Hlo : length orig = Z.to_nat ss) by (unfold zlength in Hl; lia).
    assert (forall l, datas ((n, l) :: sectors) = l ++ datas sectors) as Hcons by done.
    destruct (Z.ltb_spec p (zlength cim)) as [Hlt|Hge].
    + destruct (IH (p + ss)) as (H1 & H2 & H3 & H4 & H5); [lia|done..|].
      set (d := if ss <=? zlength cim - p then _ else _).
      assert (d = overlay cim (Z.to_nat p) orig) as Hov.
      { unfold d, overlay. rewrite !takeZ_take, !dropZ_drop, Hlo. unfold zlength in *.
        destruct (Z.leb_spec ss (Z.of_nat (length cim) - p)).
        - rewrite (drop_ge orig) by lia. by rewrite app_nil_r.
        - rewrite !take_ge by (rewrite length_drop; lia). f_equal. f_equal. lia. }
      cbn [fst snd map]. split_and!.
      * by rewrite H1.
      * constructor; [|done]. cbn [snd]. rewrite Hov. split.
        -- apply Forall_app. split; [by apply Forall_take, Forall_drop|by apply Forall_drop].
        -- unfold overlay, zlength in *. rewrite length_app, length_take, !length_drop. lia.
      * rewrite !Hcons. unfold datas in *. cbn [map concat snd]. rewrite overlay_app, H3, Hov. f_equal. f_equal. lia.
      * rewrite Hcons, zlength_app. intros H. rewrite (H4 H). lia.
      * rewrite Hcons, zlength_app. intros H. specialize (H5 H). lia.
    + destruct (IH p) as (H1 & H2 & H3 & H4 & H5); [done..|]. cbn [fst snd map].
      rewrite overlay_past in H3 by (unfold zlength in Hge; lia).
      rewrite overlay_past by (unfold zlength in Hge; lia). rewrite Hcons, zlength_app.
      pose proof (zlength_pos orig). pose proof (zlength_pos (datas sectors)).
      split_and!; [by rewrite H1|by constructor| |lia|lia].
      unfold datas in *. cbn [map concat snd]. by rewrite H3.
Qed.

(** Tracks the patch leaves alone are copied as they are. *)
Lemma copy_part imd p t rest : 0 <= p -> dropZ p imd = track_bytes t ++ rest ->
  takeZ (k_raw_end (as_trk p t) - k_raw_start (as_trk p t)) (dropZ (k_raw_start (as_trk p t)) imd) = track_bytes t.
Proof. intros Hp H. cbn [as_trk k_raw_end k_raw_start]. rewrite H. apply takeZ_app. lia. Qed.

Lemma rebuild_rest imd s0 s1 ts : forall p,
  Forall (fun t => t_cyl t <> 0) ts -> 0 <= p -> dropZ p imd = concat (map track_bytes ts) ->
  rebuild imd s0 s1 (as_trks p ts) = Ret (concat (map track_bytes ts)).
Proof.
  induction ts as [|t ts IH]; intros p Hc Hp Hd; [done|]. apply Forall_cons in Hc as [Hc Hcs].
  cbn [as_trks rebuild map concat] in *. change (k_cyl (as_trk p t)) with (t_cyl t).
  rewrite (proj2 (Z.eqb_neq _ 0)) by done. cbn [andb].
  pose proof (zlength_pos (track_bytes t)).
  rewrite (IH (p + zlength (track_bytes t))); [|done|lia|].
  - destruct s1; rewrite (copy_part imd p t (concat (map track_bytes ts))) by done; done.
  - rewrite dropZ_dropZ, Hd by lia. by apply dropZ_app.
Qed.

Lemma rest_no_side h ts : forall p,
  Forall (fun t => t_cyl t <> 0) ts -> find (fun t => (k_cyl t =? 0) && (k_head t =? h)) (as_trks p ts) = None.
Proof.
  induction ts as [|t ts IH]; intros p Hc; [done|]. apply Forall_cons in Hc as [Hc Hcs]. cbn [as_trks find].
  change (k_cyl (as_trk p t)) with (t_cyl t). rewrite (proj2 (Z.eqb_neq _ 0)) by done. cbn [andb]. by apply IH.
Qed.

(** A side of track 0 that [patch] can write: no maps, no number twice. *)
Record side_ok (h : Z) (t : track) : Prop := SideOk {
  so_track : track_ok t; so_cyl : t_cyl t = 0; so_head : t_head t = h;
  so_maps : t_cyl_map t = None /\ t_head_map t = None; so_ids : NoDup (t_ids t) }.

Definition sorted_sectors (t : track) : list (Z * bytes) := sort_by by_number (sectors_of t).

Lemma content_length size r : 0 <= size -> stored_ok size r -> all_bytes (content size r) /\ zlength (content size r) = size.
Proof.
  intros Hs (Hty & Hb & Hl). unfold content, kept in *. destruct (fst r =? 0).
  - unfold repeatZ. split; [apply Forall_replicate; unfold is_byte; lia|].
    unfold zlength. rewrite length_replicate. lia.
  - destruct (Z.odd (fst r)); [done|]. destruct (snd r) as [|b [|? ?]]; [done| |].
    + apply Forall_cons in Hb as [Hb _]. unfold repeatZ. split; [by apply Forall_replicate|].
      unfold zlength. rewrite length_replicate. lia.
    + rewrite !zlength_cons in Hl. pose proof (zlength_pos l). lia.
Qed.

Lemma sectors_data_ok t : track_ok t -> new_data_ok (t_size t) (sectors_of t).
Proof.
  intros Ht. pose proof (size_pos t Ht). apply Forall_forall. intros [n d] Hi.
  apply elem_of_zip_r in Hi. apply list_elem_of_fmap in Hi as (r & -> & Hr).
  apply content_length; [lia|]. by apply (proj1 (Forall_forall _ _) (ok_stored t Ht)).
Qed.

Lemma sorted_data_ok t : track_ok t -> new_data_ok (t_size t) (sorted_sectors t).
Proof. intros Ht. unfold new_data_ok, sorted_sectors. rewrite sort_by_perm. by apply sectors_data_ok. Qed.

(** The capacity [patch] computes is the amount of data the side holds. *)
Lemma side_capacity t : track_ok t -> zlength (datas (sorted_sectors t)) = t_nsect t * t_size t.
Proof.
  intros Ht. pose proof (sorted_data_ok t Ht) as H.
  assert (length (sorted_sectors t) = length (t_stored t)) as Hl.
  { unfold sorted_sectors. rewrite sort_by_perm. rewrite <- (length_map fst), sectors_fst by done.
    pose proof (ok_count t Ht) as Hc. unfold t_nsect, zlength in Hc. lia. }
  unfold t_nsect, zlength at 2. rewrite <- Hl. clear Hl. unfold datas.
  induction H as [|[n d] l [_ Hd] Hl' IH]; [done|]. cbn [map concat snd length] in *.
  rewrite zlength_app, IH, Hd. lia.
Qed.

(** Filling a side and writing it out. *)
Lemma side_filled start h t cim p : side_ok h t -> all_bytes cim -> 0 <= p ->
  exists t', write_track (as_trk start t) (fst (fill_side (t_size t) cim p (sorted_sectors t))) = Ret (track_bytes t') /\
    side_ok h t' /\ same_track t t' /\
    datas (sorted_sectors t') = overlay cim (Z.to_nat p) (datas (sorted_sectors t)).
Proof.
  intros Hs Hb Hp. pose proof (so_track h t Hs) as Ht. pose proof (size_pos t Ht).
  destruct (fill_side_spec (t_size t) cim (sorted_sectors t) p) as (H1 & H2 & H3 & _ & _);
    [done|lia|done|by apply sorted_data_ok|].
  destruct (so_maps h t Hs) as [Hc Hh].
  destruct (write_track_patched start t (fst (fill_side (t_size t) cim p (sorted_sectors t))) Ht Hc Hh
    (so_ids h t Hs) H1 H2) as (t' & H4 & H5 & H6 & H7).
  exists t'. split_and!; [done| |done|].
  - destruct H6 as (_ & E1 & E2 & _ & E3 & E4 & E5 & _). destruct Hs. split; [done|congruence|congruence|done|].
    by rewrite E3.
  - unfold sorted_sectors at 1. by rewrite H7.
Qed.

Definition opt {A} (o : option A) : list A := match o with Some x => [x] | None => [] end.

(** The data of track 0, in the order the PROM reads it. *)
Definition track0 (t0 : track) (t1 : option track) : bytes :=
  datas (sorted_sectors t0) ++ concat (map (fun t => datas (sorted_sectors t)) (opt t1)).

Lemma track0_cons t l : track_ok t -> t_stored t <> [] -> t_cyl t = 0 ->
  track0_bytes (as_raw t :: l) = (r ← track0_bytes l; Ret (datas (sorted_sectors t) ++ r)).
Proof.
  intros Ht Hn Hc. cbn [track0_bytes as_raw r_cyl r_sectors]. rewrite Hc. cbn [Z.eqb negb].
  fold (sorted_sectors t). destruct (sorted_sectors t) as [|x l'] eqn:E; [|done].
  pose proof (sort_by_perm by_number (sectors_of t)) as Hp. fold (sorted_sectors t) in Hp.
  apply Permutation_length in Hp. rewrite E in Hp. pose proof (ok_count t Ht) as H.
  rewrite <- (sectors_fst t Ht) in H. unfold t_nsect, zlength in H. rewrite length_map in H.
  destruct (t_stored t); [done|]. cbn in *. lia.
Qed.

Lemma track0_rest ts : Forall (fun t => t_cyl t <> 0) ts -> track0_bytes (map as_raw ts) = Ret [].
Proof.
  intros H. destruct H as [|t ts Ht H]; [done|]. cbn [map track0_bytes as_raw r_cyl].
  by rewrite (proj2 (Z.eqb_neq _ 0)).
Qed.

Definition sides_ok (t0 : track) (t1 : option track) : Prop :=
  side_ok 0 t0 /\ t_stored t0 <> [] /\ Forall (fun t => side_ok 1 t /\ t_stored t <> []) (opt t1).

Lemma extract_track0_image header t0 t1 rest :
  image_ok header (t0 :: opt t1 ++ rest) -> sides_ok t0 t1 -> Forall (fun t => t_cyl t <> 0) rest ->
  extract_track0 (image header (t0 :: opt t1 ++ rest)) = Ret (track0 t0 t1).
Proof.
  intros Hi ([Ht0 Hc0 _ _ _] & Hn0 & H1) Hr. unfold extract_track0, track0.
  rewrite raw_parses by done. cbn [mbind outcome_bind]. rewrite map_cons, track0_cons by done.
  destruct t1 as [t1|]; cbn [opt app map concat].
  - apply Forall_cons in H1 as [[[Ht1 Hc1 _ _ _] Hn1] _]. rewrite track0_cons by done.
    rewrite track0_rest by done. done.
  - rewrite track0_rest by done. done.
Qed.

Lemma same_track_nonempty t t' : same_track t t' -> t_stored t <> [] -> t_stored t' <> [].
Proof. intros (_ & _ & _ & _ & _ & _ & _ & H & _) Hn. destruct (t_stored t'), (t_stored t); done. Qed.

Section PatchImage.
Context (header : bytes) (t0 : track) (t1 : option track) (rest : list track) (cim : bytes).
Context (Hi : image_ok header (t0 :: opt t1 ++ rest)) (Hs : sides_ok t0 t1)
        (Hr : Forall (fun t => t_cyl t <> 0) rest) (Hb : all_bytes cim).

Definition disk : bytes := image header (t0 :: opt t1 ++ rest).
Definition start : Z := zlength header + 1.
Definition start1 : Z := start + zlength (track_bytes t0).

Lemma find_sides : track0_side 0 (as_trks start (t0 :: opt t1 ++ rest)) = Some (as_trk start t0) /\
  track0_side 1 (as_trks start (t0 :: opt t1 ++ rest)) = (as_trk start1) <$> t1.
Proof.
  destruct Hs as ([_ Hc0 Hh0 _ _] & _ & H1). unfold track0_side. cbn [as_trks find].
  change (k_cyl (as_trk start t0)) with (t_cyl t0). change (k_head (as_trk start t0)) with (t_head t0).
  rewrite Hc0, Hh0. cbn [Z.eqb andb]. split; [done|]. fold start1.
  destruct t1 as [t|]; cbn [opt app as_trks find fmap option_fmap option_map].
  - apply Forall_cons in H1 as [[[_ Hc1 Hh1 _ _] _] _].
    change (k_cyl (as_trk start1 t)) with (t_cyl t). change (k_head (as_trk start1 t)) with (t_head t).
    by rewrite Hc1, Hh1.
  - by apply rest_no_side.
Qed.

Lemma capacity : side_total (Some (as_trk start t0)) + side_total ((as_trk start1) <$> t1) = zlength (track0 t0 t1).
Proof.
  destruct Hs as ([Ht0 _ _ _ _] & _ & H1). unfold track0. rewrite zlength_app, side_capacity by done.
  cbn [side_total as_trk k_nsect k_sectsize]. f_equal. destruct t1 as [t|]; [|done].
  apply Forall_cons in H1 as [[[Ht1 _ _ _ _] _] _]. cbn [opt map concat fmap option_fmap option_map side_total
    as_trk k_nsect k_sectsize]. by rewrite app_nil_r, side_capacity.
Qed.

Lemma disk_drop : dropZ start disk = track_bytes t0 ++ concat (map track_bytes (opt t1 ++ rest)) /\
  dropZ start1 disk = concat (map track_bytes (opt t1 ++ rest)).
Proof.
  assert (dropZ start disk = track_bytes t0 ++ concat (map track_bytes (opt t1 ++ rest))) as H
    by apply image_tail.
  split; [done|]. unfold start1. pose proof (zlength_pos header). pose proof (zlength_pos (track_bytes t0)).
  rewrite dropZ_dropZ, H by (unfold start; lia). by apply dropZ_app.
Qed.

Lemma patch_too_long : zlength (track0 t0 t1) < zlength cim -> patch disk cim = Raise (SystemExit 1).
Proof.
  intros Hl. unfold patch, disk. rewrite patch_parses by done. cbn [mbind outcome_bind].
  fold start. destruct find_sides as [-> ->]. rewrite capacity. by rewrite (proj2 (Z.ltb_lt _ _)).
Qed.

Lemma patch_fits : zlength cim <= zlength (track0 t0 t1) ->
  exists t0' t1', patch disk cim = Ret (image header (t0' :: opt t1' ++ rest)) /\
    sides_ok t0' t1' /\ same_track t0 t0' /\ Forall2 same_track (opt t1) (opt t1') /\
    track0 t0' t1' = cim ++ drop (length cim) (track0 t0 t1).
Proof.
  intros Hl. pose proof Hs as (Hs0 & Hn0 & H1). pose proof (so_track _ _ Hs0) as Ht0. pose proof (size_pos t0 Ht0).
  assert (overlay cim 0 (track0 t0 t1) = cim ++ drop (length cim) (track0 t0 t1)) as Hov.
  { unfold overlay. rewrite drop_0, Nat.sub_0_r. unfold zlength in Hl. by rewrite take_ge by lia. }
  destruct (fill_side_spec (t_size t0) cim (sorted_sectors t0) 0) as (_ & _ & _ & F1 & F2);
    [done|lia|done|by apply sorted_data_ok|].
  destruct (side_filled start 0 t0 cim 0) as (t0' & W0 & S0 & E0 & D0); [done..|].
  unfold patch, disk. rewrite patch_parses by done. cbn [mbind outcome_bind].
  fold start. destruct find_sides as [-> ->]. rewrite capacity. rewrite (proj2 (Z.ltb_ge _ _)) by done.
  change (k_sectsize (as_trk start t0)) with (t_size t0). change (k_sectors (as_trk start t0)) with (sectors_of t0).
  fold (sorted_sectors t0). destruct (fill_side (t_size t0) cim 0 (sorted_sectors t0)) as [s0 p0] eqn:Ef.
  cbn [fst snd] in *. destruct disk_drop as [Hd0 Hd1].
  cbn [as_trks rebuild]. change (k_cyl (as_trk start t0)) with (t_cyl t0). change (k_head (as_trk start t0)) with (t_head t0).
  rewrite (so_cyl _ _ Hs0), (so_head _ _ Hs0). cbn [Z.eqb andb]. rewrite W0. cbn [mbind outcome_bind]. fold start1.
  unfold track0 in *. change (Z.to_nat 0) with 0%nat in D0. rewrite overlay_app in Hov.
  pose proof (zlength_pos header). pose proof (zlength_pos (track_bytes t0)).
  assert (Hst : 0 <= start1) by (unfold start1, start; lia).
  unfold disk in Hd0, Hd1. set (imd := image header (t0 :: opt t1 ++ rest)) in *. clearbody imd.
  destruct t1 as [t|]; cbn [opt app map concat] in *.
  - apply Forall_cons in H1 as [[Hs1 Hn1] _]. pose proof (so_track _ _ Hs1) as Ht1. rewrite app_nil_r in *.
    pose proof (zlength_pos (track_bytes t)).
    cbn [as_trks rebuild fmap option_fmap option_map]. change (k_cyl (as_trk start1 t)) with (t_cyl t).
    change (k_head (as_trk start1 t)) with (t_head t). rewrite (so_cyl _ _ Hs1), (so_head _ _ Hs1). cbn [Z.eqb Pos.eqb andb].
    rewrite (rebuild_rest _ _ _ rest (start1 + zlength (track_bytes t)));
      [|done|lia|rewrite dropZ_dropZ, Hd1 by lia; by apply dropZ_app].
    destruct (Z.ltb_spec p0 (zlength cim)) as [Hp|Hp].
    + change (k_sectsize (as_trk start1 t)) with (t_size t). change (k_sectors (as_trk start1 t)) with (sectors_of t).
      fold (sorted_sectors t). specialize (F1 Hp).
      destruct (side_filled start1 1 t cim p0) as (t1' & W1 & S1 & E1 & D1);
        [done|done|pose proof (zlength_pos (datas (sorted_sectors t0))); lia|].
      rewrite W1. cbn [mbind outcome_bind]. exists t0', (Some t1'). cbn [opt app map concat].
      split_and!; [| |done|constructor; [done|constructor]|].
      * unfold image. by rewrite <- app_assoc.
      * split_and!; [done|by eapply same_track_nonempty|]. constructor; [|done]. split; [done|by eapply same_track_nonempty].
      * rewrite app_nil_r, D0, D1, F1. rewrite <- Hov. f_equal. f_equal. unfold zlength. lia.
    + specialize (F2 Hp). rewrite (copy_part imd start1 t _ Hst Hd1). cbn [mbind outcome_bind].
      exists t0', (Some t). cbn [opt app map concat]. split_and!; [| |done| |].
      * unfold image. by rewrite <- app_assoc.
      * split_and!; [done|by eapply same_track_nonempty|]. by constructor.
      * destruct (so_maps _ _ Hs1). constructor; [split_and!; (done || by left)|constructor].
      * rewrite app_nil_r, D0. rewrite <- Hov. f_equal. rewrite overlay_past; [done|]. unfold zlength in F2. lia.
  - rewrite !app_nil_r in *. rewrite (rebuild_rest _ _ _ rest start1); [|done|done|done].
    cbn [mbind outcome_bind]. exists t0', None. cbn [opt app map concat].
    split_and!; [| |done|constructor|].
    + unfold image. by rewrite <- app_assoc.
    + split_and!; [done|by eapply same_track_nonempty|constructor].
    + rewrite overlay_nil, app_nil_r in Hov. by rewrite app_nil_r, D0.
Qed.
End PatchImage.

(** ** Properties *)

(** Rebasing changes the sector numbers and nothing else.  From an image of
    well-formed tracks, with or without maps, [rebase] with any delta that keeps
    every number a byte writes the image of the same tracks with delta added to
    each number, so that a reader sees the same sectors under the new numbers,
    and rebasing the result by minus delta gives the original file back.  When a
    number leaves the range of a byte it raises [ValueError] instead. *)
Lemma rebase_shifts_the_numbers header ts delta verbose :
  image_ok header ts ->
  (Forall (shifts_ok delta) ts ->
    exists report, rebase (image header ts) delta verbose =
        Ret (image header (map (shift delta) ts), report, zlength ts) /\
      length report = (if verbose then length (List.filter (fun t => 0 <? t_nsect t) ts) else 0%nat) /\
      Raw.parse_imd (image header (map (shift delta) ts)) =
        Ret (map (fun r => RawTrack (r_cyl r) (r_head r) (r_mode r) (r_nsect r) (r_sectsize r)
                             (map (fun '(n, d) => (n + delta, d)) (r_sectors r))) (map as_raw ts)) /\
      exists report', rebase (image header (map (shift delta) ts)) (- delta) verbose =
        Ret (image header ts, report', zlength ts)) /\
  (~ Forall (shifts_ok delta) ts -> rebase (image header ts) delta verbose = Raise ValueError).
Proof.
  intros Hi. split; [|by apply rebase_refuses]. intros Hs. eexists. split; [by apply rebase_image|].
  assert (image_ok header (map (shift delta) ts)) as Hi'.
  { destruct Hi as [Hh Ht]. split; [done|]. apply Forall_map, Forall_forall. intros t Hin.
    apply shift_ok; [by apply (proj1 (Forall_forall _ _) Ht)|by apply (proj1 (Forall_forall _ _) Hs)]. }
  split_and!.
  - clear. induction ts as [|t ts IH]; [by destruct verbose|]. cbn [map concat List.filter].
    rewrite length_app, IH. unfold line_of. by destruct verbose, (0 <? t_nsect t).
  - rewrite raw_parses by done. rewrite !map_map. f_equal. apply map_ext. intros t. unfold as_raw.
    by rewrite sectors_of_shift.
  - eexists. rewrite rebase_image; [|done|].
    + rewrite map_map, (map_ext _ id), map_id; [unfold zlength; by rewrite length_map|].
      intros t. rewrite shift_shift. replace (delta + - delta) with 0 by lia. apply shift_0.
    + apply Forall_map, Forall_forall. intros t Hin. unfold shifts_ok. cbn [shift t_ids].
      rewrite map_map, (map_ext _ id) by (intros x; unfold id; lia). rewrite map_id.
      apply ok_ids, (proj1 (Forall_forall _ _) (ok_tracks _ _ Hi) t Hin).
Qed.

(** Converting a raw disk loses nothing.  A raw image of a size [convert]
    has a geometry for (the maxi disk, 40 to 256 cylinders of the RC703, or track
    0 and 1 to 255 further cylinders of the RC702) becomes a well-formed IMD
    image from whose tracks, numbered from 1, the readers get exactly the raw
    data back in order; and whenever [convert] writes an image, for any file at
    all, what that image holds is the file without at most 9215 bytes of E5 at
    its end. *)
Lemma raw_disks_survive_conversion data :
  all_bytes data ->
  (known_size (zlength data) ->
    exists f tracks, convert data = Ret f /\ Raw.parse_imd f = Ret tracks /\
      concat (map (fun t => concat (map snd (r_sectors t))) tracks) = data /\
      Forall (fun t => map fst (r_sectors t) = seqZ 1 (r_nsect t)) tracks) /\
  (forall f, convert data = Ret f ->
    exists tracks n, Raw.parse_imd f = Ret tracks /\ Z.of_nat n < 9216 /\
      data = concat (map (fun t => concat (map snd (r_sectors t))) tracks) ++ replicate n 229).
Proof.
  intros Hb. assert (forall f d, holds_disk f d -> exists tracks, Raw.parse_imd f = Ret tracks /\
      concat (map (fun t => concat (map snd (r_sectors t))) tracks) = d /\
      Forall (fun t => map fst (r_sectors t) = seqZ 1 (r_nsect t)) tracks) as Hread.
  { intros f d (header & ts & -> & Hi & <- & Hids). exists (map as_raw ts). split_and!.
    - by apply raw_parses.
    - unfold contents. by rewrite map_map.
    - apply Forall_map, Forall_forall. intros t Hin. cbn [as_raw r_sectors r_nsect].
      rewrite sectors_fst by (apply (proj1 (Forall_forall _ _) (ok_tracks _ _ Hi) t Hin)).
      by apply (proj1 (Forall_forall _ _) Hids). }
  split.
  - intros Hk. destruct (convert_known data Hb Hk) as (f & Hf & Hd).
    destruct (Hread f data Hd) as (tracks & H1 & H2 & H3). by exists f, tracks.
  - intros f Hf. destruct (convert_keeps data f Hb Hf) as (d & n & Hd & Hdata & Hn).
    destruct (Hread f d Hd) as (tracks & H1 & H2 & _). exists tracks, n. split_and!; [done|done|congruence].
Qed.

(** Rebasing and converting lose nothing.  From an image of well-formed tracks,
    with or without maps, [rebase] with any delta that keeps every number a byte
    writes the image of the same tracks with delta added to each number, so that a
    reader sees the same sectors under the new numbers, and rebasing the result by
    minus delta gives the original file back; when a number leaves the range of a
    byte it raises [ValueError] instead.  A raw image of a size [convert] has a
    geometry for (the maxi disk, 40 to 256 cylinders of the RC703, or track 0 and 1
    to 255 further cylinders of the RC702) becomes a well-formed IMD image from
    whose tracks, numbered from 1, the readers get exactly the raw data back in
    order; and whenever [convert] writes an image, for any file at all, what that
    image holds is the file without at most 9215 bytes of E5 at its end. *)
Lemma images_are_converted :
  (forall header ts delta verbose,
  image_ok header ts ->
  (Forall (shifts_ok delta) ts ->
    exists report, rebase (image header ts) delta verbose =
        Ret (image header (map (shift delta) ts), report, zlength ts) /\
      length report = (if verbose then length (List.filter (fun t => 0 <? t_nsect t) ts) else 0%nat) /\
      Raw.parse_imd (image header (map (shift delta) ts)) =
        Ret (map (fun r => RawTrack (r_cyl r) (r_head r) (r_mode r) (r_nsect r) (r_sectsize r)
                             (map (fun '(n, d) => (n + delta, d)) (r_sectors r))) (map as_raw ts)) /\
      exists report', rebase (image header (map (shift delta) ts)) (- delta) verbose =
        Ret (image header ts, report', zlength ts)) /\
  (~ Forall (shifts_ok delta) ts -> rebase (image header ts) delta verbose = Raise ValueError)) /\
  (forall data,
  all_bytes data ->
  (known_size (zlength data) ->
    exists f tracks, convert data = Ret f /\ Raw.parse_imd f = Ret tracks /\
      concat (map (fun t => concat (map snd (r_sectors t))) tracks) = data /\
      Forall (fun t => map fst (r_sectors t) = seqZ 1 (r_nsect t)) tracks) /\
  (forall f, convert data = Ret f ->
    exists tracks n, Raw.parse_imd f = Ret tracks /\ Z.of_nat n < 9216 /\
      data = concat (map (fun t => concat (map snd (r_sectors t))) tracks) ++ replicate n 229)).
Proof. split; [exact rebase_shifts_the_numbers|exact raw_disks_survive_conversion]. Qed.

(** Patching puts the BIOS on track 0.  For an image whose first tracks are
    track 0's one or two sides, without maps and without a number twice, a BIOS
    that fits makes [patch] write an image with the same geometry and the same
    remaining tracks, byte for byte, whose track 0, read in the order of the
    sector numbers as [extract_track0] and the PROM do, is the BIOS followed by
    what the original track 0 had beyond it.  A BIOS that does not fit ends the
    program with status 1. *)
Lemma patched_track0_is_the_bios header t0 t1 rest cim :
  image_ok header (t0 :: opt t1 ++ rest) -> sides_ok t0 t1 ->
  Forall (fun t => t_cyl t <> 0) rest -> all_bytes cim ->
  let old := track0 t0 t1 in
  extract_track0 (image header (t0 :: opt t1 ++ rest)) = Ret old /\
  (zlength old < zlength cim -> patch (image header (t0 :: opt t1 ++ rest)) cim = Raise (SystemExit 1)) /\
  (zlength cim <= zlength old ->
    exists t0' t1', let new := image header (t0' :: opt t1' ++ rest) in
      patch (image header (t0 :: opt t1 ++ rest)) cim = Ret new /\
      image_ok header (t0' :: opt t1' ++ rest) /\
      same_track t0 t0' /\ Forall2 same_track (opt t1) (opt t1') /\
      extract_track0 new = Ret (cim ++ drop (length cim) old)).
Proof.
  intros Hi Hs Hr Hb old. split_and!; [by apply extract_track0_image|by apply patch_too_long|].
  intros Hl. destruct (patch_fits header t0 t1 rest cim) as (t0' & t1' & H1 & H2 & H3 & H4 & H5); [done..|].
  assert (image_ok header (t0' :: opt t1' ++ rest)) as Hi'.
  { destruct Hi as [Hh Ht]. split; [done|]. destruct H2 as ([Ht0 _ _ _ _] & _ & H2). constructor; [done|].
    apply Forall_app. apply Forall_cons in Ht as [_ [_ Ht]%Forall_app]. split; [|done].
    eapply Forall_impl; [exact H2|]. by intros t [[? _ _ _ _] _]. }
  exists t0', t1'. cbv zeta. split_and!; [exact H1|done|done|done|].
  rewrite extract_track0_image by done. by rewrite H5.
Qed.

(** C12: the programs that write images.  A well-formed image is rebased exactly when every
    sector number plus delta is a byte: the program then writes the image of the same
    tracks with delta added to each number, so that a reader sees the same sectors under
    the new numbers, and rebasing the result by minus delta gives the original file back;
    otherwise it raises [ValueError].  A raw image of a size [convert] has a geometry for
    becomes a well-formed image from which the readers get exactly the raw data back, and
    whenever [convert] writes an image, of any file, it holds the file without at most
    9215 bytes of E5 at its end.  For an image whose first tracks are track 0's sides,
    without maps, a BIOS that fits is patched so that track 0, read in the order of the
    sector numbers, is the BIOS followed by what the original had beyond it; its geometry
    and sector numbers and all remaining tracks are unchanged, and so are the records of a
    side, or they all become normal or compressed ones: marks of deleted, bad or missing
    sectors are lost there.
    A BIOS that does not fit ends the program with status 1. *)
Theorem images_are_converted_and_patched :
  ((forall header ts delta verbose,
  image_ok header ts ->
  (Forall (shifts_ok delta) ts ->
    exists report, rebase (image header ts) delta verbose =
        Ret (image header (map (shift delta) ts), report, zlength ts) /\
      length report = (if verbose then length (List.filter (fun t => 0 <? t_nsect t) ts) else 0%nat) /\
      Raw.parse_imd (image header (map (shift delta) ts)) =
        Ret (map (fun r => RawTrack (r_cyl r) (r_head r) (r_mode r) (r_nsect r) (r_sectsize r)
                             (map (fun '(n, d) => (n + delta, d)) (r_sectors r))) (map as_raw ts)) /\
      exists report', rebase (image header (map (shift delta) ts)) (- delta) verbose =
        Ret (image header ts, report', zlength ts)) /\
  (~ Forall (shifts_ok delta) ts -> rebase (image header ts) delta verbose = Raise ValueError)) /\
  (forall data,
  all_bytes data ->
  (known_size (zlength data) ->
    exists f tracks, convert data = Ret f /\ Raw.parse_imd f = Ret tracks /\
      concat (map (fun t => concat (map snd (r_sectors t))) tracks) = data /\
      Forall (fun t => map fst (r_sectors t) = seqZ 1 (r_nsect t)) tracks) /\
  (forall f, convert data = Ret f ->
    exists tracks n, Raw.parse_imd f = Ret tracks /\ Z.of_nat n < 9216 /\
      data = concat (map (fun t => concat (map snd (r_sectors t))) tracks) ++ replicate n 229))) /\
  (forall header t0 t1 rest cim,
  image_ok header (t0 :: opt t1 ++ rest) -> sides_ok t0 t1 ->
  Forall (fun t => t_cyl t <> 0) rest -> all_bytes cim ->
  let old := track0 t0 t1 in
  extract_track0 (image header (t0 :: opt t1 ++ rest)) = Ret old /\
  (zlength old < zlength cim -> patch (image header (t0 :: opt t1 ++ rest)) cim = Raise (SystemExit 1)) /\
  (zlength cim <= zlength old ->
    exists t0' t1', let new := image header (t0' :: opt t1' ++ rest) in
      patch (image header (t0 :: opt t1 ++ rest)) cim = Ret new /\
      image_ok header (t0' :: opt t1' ++ rest) /\
      same_track t0 t0' /\ Forall2 same_track (opt t1) (opt t1') /\
      extract_track0 new = Ret (cim ++ drop (length cim) old))).
Proof. split; [exact images_are_converted|exact patched_track0_is_the_bios]. Qed.

Lemma images_are_converted_and_patched_witness :
  (((exists report, rebase (image [73; 77; 68] [small_track]) (-1) true =
     Ret (image [73; 77; 68] [shift (-1) small_track], report, 1) /\ length report = 1%nat) /\
  rebase (image [73; 77; 68] [small_track]) (-2) true = Raise ValueError) /\
  (exists f tracks, convert (repeatZ 15360 7) = Ret f /\ Raw.parse_imd f = Ret tracks /\
    concat (map (fun t => concat (map snd (r_sectors t))) tracks) = repeatZ 15360 7)) /\
  (exists t0' t1', patch (image [73; 77; 68] ([small_track] ++ [])) [243; 49; 0] =
      Ret (image [73; 77; 68] (t0' :: opt t1' ++ [])) /\
    extract_track0 (image [73; 77; 68] (t0' :: opt t1' ++ [])) =
      Ret ([243; 49; 0] ++ repeatZ 125 229 ++ repeatZ 128 0 ++ repeatZ 128 7)).
Proof.
  split.
  { split.
  { split.
  - destruct (proj1 ((proj1 (proj1 images_are_converted_and_patched)) [73; 77; 68] [small_track] (-1) true small_track_ok))
      as (report & H1 & H2 & _); [repeat constructor; done|]. exists report. split; [exact H1|exact H2].
  - apply (proj2 ((proj1 (proj1 images_are_converted_and_patched)) [73; 77; 68] [small_track] (-2) true small_track_ok)).
    intros H. apply Forall_cons in H as [H _]. unfold shifts_ok in H. cbn in H.
    apply Forall_cons in H as [_ [H _]%Forall_cons]. unfold is_byte in H. lia. }
  { destruct (proj1 ((proj2 (proj1 images_are_converted_and_patched)) (repeatZ 15360 7)
    ltac:(apply Forall_replicate; unfold is_byte; lia)))
    as (f & tracks & H1 & H2 & H3 & _).
  - right. right. unfold zlength, repeatZ. rewrite length_replicate. split; [reflexivity|lia].
  - exists f, tracks. split_and!; [exact H1|exact H2|exact H3]. } }
  { destruct (proj2 (proj2 ((proj2 images_are_converted_and_patched) [73; 77; 68] small_track None [] [243; 49; 0] small_track_ok
    ltac:(split_and!; [split; [apply (Forall_inv (ok_tracks _ _ small_track_ok))|done|done|done|apply (bool_decide_unpack _); vm_compute; exact I]|done|constructor])
    ltac:(constructor) ltac:(repeat constructor; done))))
    as (t0' & t1' & H1 & _ & _ & _ & H5); [by vm_compute|].
  exists t0', t1'. split; [exact H1|exact H5]. }
Defined.

(** With a cylinder map on track 0 the patched file has the flag of the map but
    not the map: it no longer parses. *)
Definition mapped_track : track :=
  Track 2 0 0 0 [3; 1; 2] (Some [0; 0; 0]) None [(1, repeatZ 128 7); (2, [229]); (0, [])].

Lemma patching_loses_the_maps :
  (exists f, patch (image [73; 77; 68] [mapped_track]) [243; 49; 0] = Ret f /\
     Raw.parse_imd f = Raise (SystemExit 1)) /\
  Raw.parse_imd (image [73; 77; 68] [mapped_track]) = Ret [as_raw mapped_track].
Proof. split; [eexists; split; vm_compute; reflexivity|vm_compute; reflexivity]. Qed.
