(* ===== verification/Hex.v ===== *)
(** * Intel HEX: the writers, the parser and the overlay.

    cpm/apply_hex.py reads HEX text and lays its records over a binary
    ([parse_hex], [apply_records]); rcbios-in-c/mk_sysgen_hex.py,
    rcbios-in-c/mk_cpm56.py, rcbios-in-c/cim_to_hex.py, cpnet/bin2ihex.py and
    cpm/stamp_serial.py write it, each with its own code.  Texts are ASCII; what
    a text-mode read does to line ends is [universal_newlines]. *)

From S2P Require Import Prelude Imd.
#[local] Open Scope Z_scope.

(** ** Formatting and reading hexadecimal *)

Definition hexdig (d : Z) : Z := if d <? 10 then 48 + d else 55 + d.

Fixpoint fmt_digits (fuel : nat) (n : Z) (acc : str) : str :=
  match fuel with
  | O => acc
  | S fuel' =>
      let acc' := hexdig (n mod 16) :: acc in
      if n / 16 =? 0 then acc' else fmt_digits fuel' (n / 16) acc'
  end.

(** [f'{n:0wX}'] for a non-negative [n]: at least [w] digits. *)
Definition fmt_hex (w : nat) (n : Z) : str :=
  let d := fmt_digits (S (Z.to_nat (Z.log2 n))) n [] in
  replicate (w - length d) 48 ++ d.

(** [data.hex().upper()]: two digits for each byte. *)
Definition hex_bytes (data : bytes) : str :=
  concat (map (fun b => [hexdig (b / 16); hexdig (b mod 16)]) data).

Definition hexval (c : Z) : option Z :=
  if (48 <=? c) && (c <=? 57) then Some (c - 48)
  else if (65 <=? c) && (c <=? 70) then Some (c - 55)
  else if (97 <=? c) && (c <=? 102) then Some (c - 87)
  else None.

(** ASCII white space, which [bytes.fromhex] skips between bytes. *)
Definition c_space (c : Z) : bool := ((9 <=? c) && (c <=? 13)) || (c =? 32).

(** [bytes.fromhex]. *)
Fixpoint fromhex (s : str) : outcome bytes :=
  match s with
  | [] => Ret []
  | c :: s' =>
      if c_space c then fromhex s' else
      match s' with
      | [] => Raise ValueError
      | d :: s'' =>
          match hexval c, hexval d with
          | Some h, Some l => r ← fromhex s''; Ret (h * 16 + l :: r)
          | _, _ => Raise ValueError
          end
      end
  end.

(** ** Lines *)

(** What reading in text mode makes of CR and CR LF. *)
Fixpoint universal_newlines (s : str) : str :=
  match s with
  | [] => []
  | c :: s' =>
      if c =? 13 then
        match s' with
        | d :: s'' => if d =? 10 then 10 :: universal_newlines s'' else 10 :: universal_newlines s'
        | [] => [10]
        end
      else c :: universal_newlines s'
  end.

(** The ASCII characters [str.splitlines] breaks at, once CR is gone. *)
Definition line_break (c : Z) : bool :=
  ((10 <=? c) && (c <=? 13)) || ((28 <=? c) && (c <=? 30)).

(** [str.splitlines()]: no line after a final break. *)
Fixpoint splitlines_from (cur : str) (s : str) : list str :=
  match s with
  | [] => match cur with [] => [] | _ => [cur] end
  | c :: s' => if line_break c then cur :: splitlines_from [] s' else splitlines_from (cur ++ [c]) s'
  end.
Definition splitlines : str -> list str := splitlines_from [].

(** [sep.join(lines)]. *)
Fixpoint join (sep : str) (lines : list str) : str :=
  match lines with
  | [] => []
  | [l] => l
  | l :: lines' => l ++ sep ++ join sep lines'
  end.

(** ** cpm/apply_hex.py *)

(** One turn of the loop of [parse_hex]. *)
Inductive line_result : Type :=
  | Skip | Data (addr : Z) (data : bytes) | Other | End.

Definition parse_line (line : str) : outcome line_result :=
  let line := strip_with py_space line in
  match line with
  | 58 :: hex =>
      raw ← fromhex hex;
      if (length raw <? 5)%nat then Raise ValueError else
      len ← index raw 0;
      addr_hi ← index raw 1;
      addr_lo ← index raw 2;
      rtype ← index raw 3;
      let data := slice 4 (4 + Z.to_nat len) raw in
      checksum ← index raw (length raw - 1);
      let computed := u8 (- zsum (take (length raw - 1) raw)) in
      if negb (checksum =? computed) then Raise ValueError else
      let addr := Z.lor (Z.shiftl addr_hi 8) addr_lo in
      if rtype =? 0 then Ret (Data addr data)
      else if rtype =? 1 then Ret End
      else Ret Other
  | _ => Ret Skip
  end.

Fixpoint parse_lines (lines : list str) : outcome (list (Z * bytes)) :=
  match lines with
  | [] => Ret []
  | line :: lines' =>
      r ← parse_line line;
      match r with
      | Data addr data => rs ← parse_lines lines'; Ret ((addr, data) :: rs)
      | End => Ret []
      | _ => parse_lines lines'
      end
  end.

Definition parse_hex (file : str) : outcome (list (Z * bytes)) :=
  parse_lines (splitlines (universal_newlines file)).

(** [data] is the bytearray before and after. *)
Fixpoint apply_records (base_addr : Z) (data : bytes) (records : list (Z * bytes)) : outcome bytes :=
  match records with
  | [] => Ret data
  | (abs_addr, chunk) :: records' =>
      let rel_off := abs_addr - base_addr in
      if (rel_off <? 0) || (zlength data <? rel_off + zlength chunk) then
        match chunk with
        | [] => apply_records base_addr data records'
        | _ => Raise ValueError
        end
      else
        apply_records base_addr
          (slice_set (Z.to_nat rel_off) (Z.to_nat (rel_off + zlength chunk)) chunk data) records'
  end.

(** [main] on the contents of its files: the binary it writes, or exit status 1. *)
Fixpoint apply_hex (base : Z) (data : bytes) (hex_files : list str) : outcome bytes :=
  match hex_files with
  | [] => Ret data
  | f :: hex_files' =>
      match (rs ← parse_hex f; apply_records base data rs) with
      | Ret data' => apply_hex base data' hex_files'
      | Raise ValueError => Raise (SystemExit 1)
      | Raise e => Raise e
      end
  end.

(** ** The writers *)

(** mk_sysgen_hex.py and mk_cpm56.py: the record as formatted integers. *)
Definition ihex_record (rtype addr : Z) (data : bytes) : str :=
  let len := zlength data in
  let record := [len; Z.land (Z.shiftr addr 8) 255; Z.land addr 255; rtype] ++ data in
  let checksum := u8 (- zsum record) in
  [58] ++ concat (map (fmt_hex 2) record) ++ fmt_hex 2 checksum.

(** The [while] loop of mk_sysgen_hex.py, from an offset on. *)
Fixpoint sysgen_ihex_data (fuel : nat) (addr : Z) (data : bytes) (max_per_line offset : Z) : list str :=
  match fuel with
  | O => []
  | S fuel' =>
      if offset <? zlength data then
        let chunk := takeZ max_per_line (dropZ offset data) in
        ihex_record 0 (addr + offset) chunk ::
        sysgen_ihex_data fuel' addr data max_per_line (offset + zlength chunk)
      else []
  end.

(** [range(start, stop, step)] for a positive step. *)
Fixpoint range_step (fuel : nat) (start stop step : Z) : list Z :=
  match fuel with
  | O => []
  | S fuel' => if start <? stop then start :: range_step fuel' (start + step) stop step else []
  end.

(** The [for] loop of mk_cpm56.py. *)
Definition cpm56_ihex_data (addr : Z) (data : bytes) (max_per_line : Z) : list str :=
  map (fun offset => ihex_record 0 (addr + offset) (takeZ max_per_line (dropZ offset data)))
    (range_step (length data) 0 (zlength data) max_per_line).

(** cim_to_hex.py. *)
Definition cim_line (addr : Z) (chunk : bytes) : str :=
  let byte_count := zlength chunk in
  let checksum := byte_count + Z.shiftr addr 8 + Z.land addr 255 + 0 in
  let checksum := foldl Z.add checksum chunk in
  let checksum := u8 (- checksum) in
  [58] ++ fmt_hex 2 byte_count ++ fmt_hex 4 addr ++ fmt_hex 2 0 ++ hex_bytes chunk ++ fmt_hex 2 checksum.

Fixpoint cim_lines (fuel : nat) (data : bytes) (base i : Z) : list str :=
  match fuel with
  | O => []
  | S fuel' =>
      if i <? zlength data then
        cim_line (base + i) (takeZ 16 (dropZ i data)) :: cim_lines fuel' data base (i + 16)
      else []
  end.

Definition to_hex (data : bytes) (base : Z) : str :=
  join [13; 10] (cim_lines (length data) data base 0 ++ [chars ":00000001FF"]) ++ [13; 10].

(** bin2ihex.py. *)
Definition bin_line (addr : Z) (chunk : bytes) : outcome str :=
  h ← mk_bytes [zlength chunk; Z.land (Z.shiftr addr 8) 255; Z.land addr 255; 0];
  let record := h ++ chunk in
  let checksum := u8 (- zsum record) in
  Ret ([58] ++ hex_bytes record ++ fmt_hex 2 checksum).

Fixpoint bin_lines (base_addr record_len : Z) (data : bytes) (offsets : list Z) : outcome (list str) :=
  match offsets with
  | [] => Ret []
  | i :: offsets' =>
      l ← bin_line (base_addr + i) (takeZ record_len (dropZ i data));
      ls ← bin_lines base_addr record_len data offsets';
      Ret (l :: ls)
  end.

Definition to_ihex (data : bytes) (base_addr record_len : Z) : outcome str :=
  ls ← bin_lines base_addr record_len data (range_step (length data) 0 (zlength data) record_len);
  Ret (join [13] (ls ++ [chars ":00000001FF"]) ++ [13]).

Example record_reads_back : parse_hex (ihex_record 0 50984 [213; 22; 8; 0; 11; 156] ++ [13; 10]) =
  Ret [(50984, [213; 22; 8; 0; 11; 156])].
Proof. reflexivity. Qed.
Example texts_agree : to_ihex [1; 2; 3] 256 2 = Ret (chars ":020100000102FA" ++ [13] ++ chars ":0101020003F9" ++ [13] ++ chars ":00000001FF" ++ [13]).
Proof. reflexivity. Qed.
Example cim_text : parse_hex (to_hex (replicate 20 7) 256) = Ret [(256, replicate 16 7); (272, replicate 4 7)].
Proof. reflexivity. Qed.

(** ** Lemmas on digits *)

Lemma hexval_hexdig d : 0 <= d < 16 -> hexval (hexdig d) = Some d /\ c_space (hexdig d) = false /\
  py_space (hexdig d) = false /\ line_break (hexdig d) = false /\ hexdig d <> 13 /\ hexdig d <> 58.
Proof.
  intros H. assert (Forall (fun d => hexval (hexdig d) = Some d /\ c_space (hexdig d) = false /\
    py_space (hexdig d) = false /\ line_break (hexdig d) = false /\ hexdig d <> 13 /\ hexdig d <> 58) (seqZ 0 16)) as Hall
    by (decided).
  rewrite Forall_forall in Hall. apply Hall, elem_of_seqZ. lia.
Qed.

Lemma byte_digits b : is_byte b -> 0 <= b / 16 < 16 /\ 0 <= b mod 16 < 16.
Proof.
  intros [H1 H2]. split; [|apply Z.mod_pos_bound; lia].
  split; [apply Z.div_pos; lia|apply Z.div_lt_upper_bound; lia].
Qed.

Lemma fromhex_bytes l : all_bytes l -> fromhex (hex_bytes l) = Ret l.
Proof.
  induction 1 as [|b l Hb Hl IH]; [done|]. unfold hex_bytes in *. cbn [map concat app fromhex].
  destruct (byte_digits b Hb) as [H1 H2].
  destruct (hexval_hexdig _ H1) as (E1 & E2 & _). destruct (hexval_hexdig _ H2) as (E3 & _).
  rewrite E2, E1, E3, IH. cbn [mbind outcome_bind]. do 2 f_equal.
  pose proof (Z.div_mod b 16 ltac:(lia)). lia.
Qed.

Lemma fmt_hex_2 b : is_byte b -> fmt_hex 2 b = hex_bytes [b].
Proof.
  intros [H1 H2]. assert (Forall (fun b => fmt_hex 2 b = hex_bytes [b]) (seqZ 0 256)) as Hall
    by (decided).
  rewrite Forall_forall in Hall. apply Hall, elem_of_seqZ. lia.
Qed.

(** [k] digits, whatever the number. *)
Fixpoint fixed_digits (k : nat) (n : Z) (acc : str) : str :=
  match k with O => acc | S k' => fixed_digits k' (n / 16) (hexdig (n mod 16) :: acc) end.

Lemma fixed_digits_0 k acc : fixed_digits k 0 acc = replicate k 48 ++ acc.
Proof.
  revert acc. induction k as [|k IH]; intros acc; [done|]. cbn [fixed_digits].
  change (0 / 16) with 0. rewrite IH. change (hexdig (0 mod 16)) with 48.
  change (replicate (S k) 48) with (48 :: replicate k 48). by rewrite replicate_cons_app, <- app_assoc.
Qed.

Lemma fmt_digits_fixed fuel : forall k n acc,
  0 <= n < 16 ^ Z.of_nat fuel -> n < 16 ^ Z.of_nat k -> (1 <= k)%nat -> (1 <= fuel)%nat ->
  exists d, fmt_digits fuel n acc = d ++ acc /\ replicate (k - length d) 48 ++ d ++ acc = fixed_digits k n acc.
Proof.
  induction fuel as [|fuel IH]; intros k n acc Hn Hk Hk1 Hf; [lia|]. destruct k as [|k]; [lia|].
  cbn [fmt_digits fixed_digits]. pose proof (Z.div_mod n 16 ltac:(lia)). pose proof (Z.mod_pos_bound n 16 ltac:(lia)).
  destruct (Z.eqb_spec (n / 16) 0) as [E|E].
  - exists [hexdig (n mod 16)]. split; [done|]. rewrite E, fixed_digits_0. cbn [length].
    by replace (S k - 1)%nat with k by lia.
  - assert (0 <= n / 16) by (apply Z.div_pos; lia).
    rewrite Nat2Z.inj_succ, Z.pow_succ_r in * by lia.
    destruct k as [|k]; [cbn in Hk; lia|]. destruct fuel as [|fuel]; [cbn in Hn; lia|].
    destruct (IH (S k) (n / 16) (hexdig (n mod 16) :: acc)) as (d & Hd & Hp); [lia..|].
    exists (d ++ [hexdig (n mod 16)]). rewrite Hd, <- !app_assoc. split; [done|]. rewrite <- Hp, length_app.
    cbn [length]. by replace (S (S k) - (length d + 1))%nat with (S k - length d)%nat by lia.
Qed.

Lemma fmt_hex_fixed k n : 0 <= n < 16 ^ Z.of_nat k -> (1 <= k)%nat -> fmt_hex k n = fixed_digits k n [].
Proof.
  intros Hn Hk. unfold fmt_hex.
  destruct (fmt_digits_fixed (S (Z.to_nat (Z.log2 n))) k n []) as (d & Hd & Hp); [|lia|done|lia|].
  - split; [lia|]. rewrite Nat2Z.inj_succ, Z2Nat.id by apply Z.log2_nonneg.
    destruct (Z.eq_dec n 0) as [->|]; [done|]. pose proof (Z.log2_spec n ltac:(lia)).
    pose proof (Z.pow_le_mono_l 2 16 (Z.succ (Z.log2 n)) ltac:(lia)). lia.
  - rewrite app_nil_r in *. by rewrite Hd.
Qed.

Lemma fmt_hex_4 a : 0 <= a < 65536 -> fmt_hex 4 a = hex_bytes [Z.shiftr a 8; Z.land a 255].
Proof.
  intros H. rewrite fmt_hex_fixed by (done || lia).
  rewrite Z.shiftr_div_pow2 by lia. change 255 with (Z.ones 8). rewrite Z.land_ones by lia.
  change (2 ^ 8) with 256. cbn [fixed_digits hex_bytes map concat app].
  assert (a / 16 / 16 / 16 mod 16 = a / 256 / 16 /\ a / 16 / 16 mod 16 = a / 256 mod 16 /\
          a / 16 mod 16 = a mod 256 / 16 /\ a mod 16 = a mod 256 mod 16) as (-> & -> & -> & ->)
    by (split_and!; Z.div_mod_to_equations; lia).
  done.
Qed.

Lemma fmt_hexes l : all_bytes l -> concat (map (fmt_hex 2) l) = hex_bytes l.
Proof.
  induction 1 as [|b l Hb Hl IH]; [done|]. cbn [map concat]. rewrite fmt_hex_2, IH by done. done.
Qed.

Lemma hex_bytes_app a b : hex_bytes (a ++ b) = hex_bytes a ++ hex_bytes b.
Proof. unfold hex_bytes. by rewrite map_app, concat_app. Qed.

(** ** One record *)

(** The bytes of a record and its line. *)
Definition record_bytes (rtype addr : Z) (data : bytes) : bytes :=
  let body := [zlength data; Z.shiftr addr 8; Z.land addr 255; rtype] ++ data in
  body ++ [u8 (- zsum body)].
Definition record_line (rtype addr : Z) (data : bytes) : str := 58 :: hex_bytes (record_bytes rtype addr data).

Definition record_ok (rtype addr : Z) (data : bytes) : Prop :=
  is_byte rtype /\ 0 <= addr < 65536 /\ all_bytes data /\ zlength data < 256.

Lemma high_byte a : 0 <= a < 65536 -> is_byte (Z.shiftr a 8) /\ Z.land (Z.shiftr a 8) 255 = Z.shiftr a 8.
Proof.
  intros H. assert (is_byte (Z.shiftr a 8)) as Hb.
  { rewrite Z.shiftr_div_pow2 by lia. unfold is_byte. change (2 ^ 8) with 256.
    split; [apply Z.div_pos; lia|apply Z.div_lt_upper_bound; lia]. }
  split; [done|]. by apply u8_small.
Qed.

Lemma record_all_bytes rtype addr data : record_ok rtype addr data -> all_bytes (record_bytes rtype addr data).
Proof.
  intros (Hr & Ha & Hd & Hl). unfold record_bytes. rewrite !Forall_app, !Forall_cons. pose proof (zlength_pos data).
  split_and!; auto with py; [unfold is_byte; lia|by apply high_byte|apply u8_range].
Qed.

(** What a line must be for the text functions to keep it whole. *)
Definition clean (l : str) : Prop := Forall (fun c => line_break c = false /\ c <> 13) l.

Lemma hex_bytes_chars (P : Z -> Prop) l :
  all_bytes l -> (forall d, 0 <= d < 16 -> P (hexdig d)) -> Forall P (hex_bytes l).
Proof.
  intros Hl HP. induction Hl as [|b l Hb Hl IH]; [constructor|]. unfold hex_bytes in *. cbn [map concat app].
  destruct (byte_digits b Hb). repeat constructor; auto.
Qed.

Lemma record_clean rtype addr data : record_ok rtype addr data -> clean (record_line rtype addr data).
Proof.
  intros H. constructor; [done|]. apply hex_bytes_chars; [by apply record_all_bytes|].
  intros d Hd. destruct (hexval_hexdig d Hd) as (_ & _ & _ & H1 & H2 & _). by split.
Qed.

Lemma strip_clean c l : py_space c = false -> Forall (fun d => py_space d = false) l ->
  strip_with py_space (c :: l) = c :: l.
Proof.
  intros Hc Hl. unfold strip_with. rewrite drop_while_false by (by intros x [= <-]).
  unfold rstrip_with. rewrite drop_while_false; [apply rev_involutive|]. intros x Hx.
  assert (x ∈ c :: l) as Hin.
  { apply list_elem_of_In, in_rev, list_elem_of_In. destruct (rev (c :: l)); [done|]. injection Hx as ->. by left. }
  apply elem_of_cons in Hin as [->|Hin]; [done|]. by apply (proj1 (Forall_forall _ _) Hl).
Qed.

Lemma lor_address a : 0 <= a < 65536 -> Z.lor (Z.shiftl (Z.shiftr a 8) 8) (Z.land a 255) = a.
Proof.
  intros H. rewrite Z.lor_comm. change 255 with (Z.ones 8). rewrite Z.land_ones by lia.
  rewrite lor_shiftl by first [done | by apply Z.mod_pos_bound].
  rewrite Z.shiftr_div_pow2 by lia. pose proof (Z.div_mod a (2 ^ 8) ltac:(done)). lia.
Qed.

Lemma parse_record rtype addr data : record_ok rtype addr data ->
  parse_line (record_line rtype addr data) =
    Ret (if rtype =? 0 then Data addr data else if rtype =? 1 then End else Other).
Proof.
  intros H. pose proof (record_all_bytes _ _ _ H) as Hb. destruct H as (Hr & Ha & Hd & Hl).
  unfold parse_line, record_line. rewrite strip_clean; [|done|].
  2: { apply hex_bytes_chars; [done|]. intros d Hd'. by apply hexval_hexdig. }
  rewrite fromhex_bytes by done. cbn [mbind outcome_bind].
  assert (length (record_bytes rtype addr data) = 5 + length data)%nat as Hlen
    by (unfold record_bytes; rewrite length_app; cbn; lia).
  rewrite (proj2 (Nat.ltb_ge _ _)) by lia. rewrite Hlen.
  set (body := [zlength data; Z.shiftr addr 8; Z.land addr 255; rtype] ++ data).
  assert (length body = 4 + length data)%nat as Hbl by done.
  change (record_bytes rtype addr data) with (body ++ [u8 (- zsum body)]).
  assert (index (body ++ [u8 (- zsum body)]) (5 + length data - 1) = Ret (u8 (- zsum body))) as Hlast.
  { apply index_in. rewrite lookup_app_r by lia. by replace (5 + length data - 1 - length body)%nat with 0%nat by lia. }
  rewrite Hlast. change (index (body ++ [u8 (- zsum body)]) 0) with (Ret (zlength data)).
  change (index (body ++ [u8 (- zsum body)]) 1) with (Ret (Z.shiftr addr 8)).
  change (index (body ++ [u8 (- zsum body)]) 2) with (Ret (Z.land addr 255)).
  change (index (body ++ [u8 (- zsum body)]) 3) with (Ret rtype). cbn [mbind outcome_bind].
  rewrite take_app_length' by lia. rewrite Z.eqb_refl. cbn [negb].
  rewrite lor_address by done. unfold slice.
  assert (drop 4 (body ++ [u8 (- zsum body)]) = data ++ [u8 (- zsum body)]) as -> by done.
  rewrite take_app_length' by (unfold zlength; lia). by destruct (rtype =? 0), (rtype =? 1).
Qed.

(** The writers' lines are these lines. *)
Lemma ihex_record_line rtype addr data : record_ok rtype addr data ->
  ihex_record rtype addr data = record_line rtype addr data.
Proof.
  intros H. pose proof (record_all_bytes _ _ _ H) as Hb. destruct H as (Hr & Ha & Hd & Hl).
  unfold ihex_record, record_line. destruct (high_byte addr Ha) as [_ ->].
  unfold record_bytes in *. cbv zeta in *. rewrite hex_bytes_app.
  apply Forall_app in Hb as [Hb _]. rewrite fmt_hexes by done. by rewrite fmt_hex_2 by apply u8_range.
Qed.

Lemma foldl_add l s : foldl Z.add s l = s + zsum l.
Proof.
  revert s. induction l as [|x l IH]; intros s; cbn [foldl]; [cbn; lia|]. rewrite IH, zsum_cons. lia.
Qed.

Lemma cim_line_line addr data : record_ok 0 addr data -> cim_line addr data = record_line 0 addr data.
Proof.
  intros H. destruct H as (Hr & Ha & Hd & Hl). unfold cim_line, record_line. rewrite foldl_add.
  destruct (high_byte addr Ha) as [Hh _]. pose proof (zlength_pos data).
  rewrite fmt_hex_2, fmt_hex_4, !fmt_hex_2 by (done || apply u8_range || (unfold is_byte; lia)).
  rewrite <- !hex_bytes_app. cbn [app]. do 2 f_equal. unfold record_bytes. cbn [app].
  do 6 f_equal. autorewrite with py. do 2 f_equal. lia.
Qed.

Lemma bin_line_line addr data : record_ok 0 addr data -> bin_line addr data = Ret (record_line 0 addr data).
Proof.
  intros H. pose proof (record_all_bytes _ _ _ H) as Hb. destruct H as (Hr & Ha & Hd & Hl).
  unfold bin_line, record_line. destruct (high_byte addr Ha) as [Hh ->]. unfold record_bytes in *. cbv zeta in *.
  apply Forall_app in Hb as [Hb _]. apply Forall_app in Hb as [Hb _].
  rewrite mk_bytes_ok by done. cbn [mbind outcome_bind].
  rewrite fmt_hex_2 by apply u8_range. by rewrite <- hex_bytes_app.
Qed.

(** ** Texts of lines *)

Definition newline (sep : str) : Prop := sep = [13; 10] \/ sep = [13] \/ sep = [10].

Lemma newlines_clean l rest : clean l -> universal_newlines (l ++ rest) = l ++ universal_newlines rest.
Proof.
  induction 1 as [|c l [Hc Hc'] Hl IH]; [done|]. cbn [app universal_newlines].
  rewrite (proj2 (Z.eqb_neq _ _)) by done. by rewrite IH.
Qed.

Lemma newlines_sep sep rest : newline sep -> (sep = [13] -> forall c r, rest = c :: r -> c <> 10) ->
  universal_newlines (sep ++ rest) = 10 :: universal_newlines rest.
Proof.
  intros [->|[->| ->]] Hr; [done| |done]. cbn [app universal_newlines Z.eqb Pos.eqb].
  destruct rest as [|c r]; [done|]. by rewrite (proj2 (Z.eqb_neq _ _)) by by eapply Hr.
Qed.

Lemma text_head l ls c r : clean l -> join [13] (l :: ls) ++ [13] = c :: r -> c <> 10.
Proof.
  intros H E. destruct l as [|d l].
  - destruct ls; injection E as <- _; done.
  - apply Forall_cons in H as [[Hd _] _]. destruct ls; injection E as <- _; by intros ->.
Qed.

Lemma splitlines_clean l cur rest : clean l ->
  splitlines_from cur (l ++ 10 :: rest) = (cur ++ l) :: splitlines_from [] rest.
Proof.
  intros H. revert cur. induction H as [|c l [Hc _] Hl IH]; intros cur; cbn [app splitlines_from].
  - by rewrite app_nil_r.
  - rewrite Hc, IH. by rewrite <- app_assoc.
Qed.

(** A text of clean lines, each with the line end after it, is split into them. *)
Lemma split_text sep l ls : newline sep -> Forall clean (l :: ls) ->
  splitlines (universal_newlines (join sep (l :: ls) ++ sep)) = l :: ls.
Proof.
  intros Hs. revert l. induction ls as [|l' ls IH]; intros l H; apply Forall_cons in H as [Hl H].
  - cbn [join]. rewrite newlines_clean, <- (app_nil_r sep), newlines_sep by (done || by intros _ ? ?).
    unfold splitlines. by rewrite splitlines_clean.
  - change (join sep (l :: l' :: ls)) with (l ++ sep ++ join sep (l' :: ls)).
    rewrite <- !app_assoc, newlines_clean, newlines_sep
      by (try done; intros -> c r; apply text_head; by apply Forall_cons in H as [? _]).
    unfold splitlines in *. rewrite splitlines_clean by done. cbn [app]. f_equal. by apply IH.
Qed.

(** ** Blocks of data *)

(** [rs] is [data] cut into pieces, one after the other from [addr]. *)
Fixpoint consecutive (addr : Z) (rs : list (Z * bytes)) (data : bytes) : Prop :=
  match rs with
  | [] => data = []
  | (a, c) :: rs' => a = addr /\ exists data', data = c ++ data' /\ consecutive (addr + zlength c) rs' data'
  end.

Definition gives (l : str) (r : Z * bytes) : Prop :=
  clean l /\ parse_line l = Ret (Data (fst r) (snd r)) /\ snd r <> [].

(** [ls] are the lines of a block. *)
Definition block (addr : Z) (ls : list str) (data : bytes) : Prop :=
  exists rs, Forall2 gives ls rs /\ consecutive addr rs data.

(** [data] laid over [img] at an offset. *)
Definition place (off : nat) (data img : bytes) : bytes := slice_set off (off + length data) data img.

Lemma place_eq off data img : place off data img = take off img ++ data ++ drop (off + length data) img.
Proof. unfold place, slice_set. by rewrite Nat.max_r by lia. Qed.

Lemma length_place off data img : (off + length data <= length img)%nat -> length (place off data img) = length img.
Proof. intros H. rewrite place_eq, !length_app, length_take, length_drop. lia. Qed.

Lemma place_nil off img : (off <= length img)%nat -> place off [] img = img.
Proof. intros H. rewrite place_eq. cbn. by rewrite Nat.add_0_r, take_drop. Qed.

Lemma place_app off a b img : (off + length a + length b <= length img)%nat ->
  place (off + length a) b (place off a img) = place off (a ++ b) img.
Proof.
  intros H. rewrite !place_eq, length_app.
  assert (length (take off img ++ a) = off + length a)%nat as Hp by (rewrite length_app, length_take; lia).
  rewrite (app_assoc (take off img) a). rewrite take_app_length' by done.
  rewrite drop_app_ge by lia. rewrite drop_drop, Hp, <- !app_assoc. do 4 f_equal. lia.
Qed.

Lemma apply_block base rs rest : forall addr data img,
  consecutive addr rs data -> base <= addr -> addr + zlength data <= base + zlength img ->
  apply_records base img (rs ++ rest) = apply_records base (place (Z.to_nat (addr - base)) data img) rest.
Proof.
  induction rs as [|[a c] rs IH]; intros addr data img H Hb Hl; cbn [consecutive app apply_records] in *.
  - subst data. rewrite place_nil by (unfold zlength in *; cbn in *; lia). done.
  - destruct H as (-> & data' & -> & H). rewrite zlength_app in Hl.
    pose proof (zlength_pos c). pose proof (zlength_pos data').
    rewrite (proj2 (Z.ltb_ge _ _)), (proj2 (Z.ltb_ge _ _)) by lia. cbn [orb].
    replace (Z.to_nat (addr - base + zlength c)) with (Z.to_nat (addr - base) + length c)%nat by (unfold zlength; lia).
    fold (place (Z.to_nat (addr - base)) c img).
    rewrite (IH (addr + zlength c) data') by
      (try done; try lia; unfold zlength in *; rewrite length_place by lia; lia).
    replace (Z.to_nat (addr + zlength c - base)) with (Z.to_nat (addr - base) + length c)%nat by (unfold zlength; lia).
    rewrite place_app; [done|]. unfold zlength in *. lia.
Qed.

Lemma parse_block ls rs rest : Forall2 gives ls rs ->
  parse_lines (ls ++ rest) = (r ← parse_lines rest; Ret (rs ++ r)).
Proof.
  induction 1 as [|l [a d] ls rs (_ & Hl & _) H IH]; cbn [app parse_lines].
  - by destruct (parse_lines rest).
  - rewrite Hl. cbn [mbind outcome_bind fst snd]. rewrite IH. by destruct (parse_lines rest).
Qed.

Lemma gives_clean ls rs : Forall2 gives ls rs -> Forall clean ls.
Proof. induction 1 as [|l r ls rs [H _]]; by constructor. Qed.

Lemma block_app addr ls1 ls2 d1 d2 :
  block addr ls1 d1 -> block (addr + zlength d1) ls2 d2 -> block addr (ls1 ++ ls2) (d1 ++ d2).
Proof.
  intros (rs1 & H1 & C1) (rs2 & H2 & C2). exists (rs1 ++ rs2). split; [by apply Forall2_app|].
  clear H1 H2. revert addr d1 C1 C2. induction rs1 as [|[a c] rs1 IH]; intros addr d1 C1 C2; cbn [consecutive app] in *.
  - subst d1. by rewrite zlength_nil, Z.add_0_r in C2.
  - destruct C1 as (-> & d' & -> & C1). split; [done|]. exists (d' ++ d2). split; [by rewrite app_assoc|].
    apply IH; [done|]. by rewrite zlength_app, Z.add_assoc in C2.
Qed.

Lemma record_gives addr data : record_ok 0 addr data -> data <> [] ->
  gives (record_line 0 addr data) (addr, data).
Proof. intros H Hd. split_and!; [by apply record_clean|by rewrite parse_record|done]. Qed.

(** The lines of a range-driven writer. *)
Definition stepped (addr : Z) (data : bytes) (step : Z) (offsets : list Z) : list str :=
  map (fun o => record_line 0 (addr + o) (takeZ step (dropZ o data))) offsets.

Section Stepped.
Context (addr step : Z) (data : bytes).
Context (Hstep : 0 < step < 256) (Haddr : 0 <= addr /\ addr + zlength data <= 65536) (Hb : all_bytes data).

Lemma piece_ok o : 0 <= o < zlength data -> record_ok 0 (addr + o) (takeZ step (dropZ o data)).
Proof.
  intros Ho. split; [unfold is_byte; lia|]. split; [lia|]. split.
  - rewrite takeZ_take, dropZ_drop. by apply Forall_take, Forall_drop.
  - unfold zlength. rewrite takeZ_take, dropZ_drop, length_take. lia.
Qed.

Lemma stepped_block fuel : forall o, 0 <= o -> Z.of_nat fuel >= zlength data - o ->
  block (addr + o) (stepped addr data step (range_step fuel o (zlength data) step)) (dropZ o data).
Proof.
  assert (Hge : forall o, zlength data <= o -> dropZ o data = []).
  { intros o Ho. rewrite dropZ_drop. apply drop_ge. unfold zlength in Ho. lia. }
  induction fuel as [|fuel IH]; intros o Ho Hf; cbn [range_step].
  - exists []. split; [constructor|]. cbn. apply Hge. lia.
  - destruct (Z.ltb_spec o (zlength data)) as [Hlt|H]; [|exists []; split; [constructor|by apply Hge]].
    cbn [stepped map]. assert (Hsplit : dropZ o data = takeZ step (dropZ o data) ++ dropZ (o + step) data).
    { rewrite dropZ_dropZ by lia. rewrite takeZ_take, (dropZ_drop step). by rewrite take_drop. }
    destruct (IH (o + step)) as (rs & H1 & H2); [lia|lia|].
    exists ((addr + o, takeZ step (dropZ o data)) :: rs). split.
    + constructor; [|done]. apply record_gives; [apply piece_ok; lia|]. intros E.
      apply (f_equal length) in E. unfold zlength in *. rewrite takeZ_take, dropZ_drop, length_take, length_drop in E.
      cbn in E. lia.
    + cbn [consecutive]. split; [done|]. exists (dropZ (o + step) data). split; [done|].
      assert (zlength (takeZ step (dropZ o data)) = step \/
              zlength (takeZ step (dropZ o data)) = zlength data - o /\ zlength data <= o + step) as [E|[E E']].
      { unfold zlength in *. rewrite takeZ_take, dropZ_drop, length_take, length_drop. lia. }
      * by rewrite E, <- Z.add_assoc.
      * rewrite (Hge (o + step)) in H2 |- * by done. destruct rs as [|[a c] rs]; [done|].
        destruct H2 as (-> & d' & Ed & _). destruct fuel as [|fuel]; [by inversion H1|].
        cbn [range_step] in H1. rewrite (proj2 (Z.ltb_ge _ _)) in H1 by done. by inversion H1.
Qed.

Lemma whole_block : block addr (stepped addr data step (range_step (length data) 0 (zlength data) step)) data.
Proof.
  pose proof (stepped_block (length data) 0 ltac:(lia)) as H. unfold zlength in H at 1.
  rewrite Z.add_0_r in H. rewrite dropZ_drop in H. change (drop (Z.to_nat 0) data) with data in H.
  apply H. lia.
Qed.

Lemma in_range_step fuel : forall o x, 0 <= o -> x ∈ range_step fuel o (zlength data) step -> 0 <= x < zlength data.
Proof.
  induction fuel as [|fuel IH]; intros o x Ho; cbn [range_step]; [by intros ?%elem_of_nil|].
  destruct (Z.ltb_spec o (zlength data)); [|by intros ?%elem_of_nil].
  intros [->|Hx]%elem_of_cons; [lia|]. by eapply (IH (o + step)); [lia|].
Qed.

Lemma map_pieces (f : Z -> bytes -> str) fuel o : 0 <= o ->
  (forall a d, record_ok 0 a d -> f a d = record_line 0 a d) ->
  map (fun o => f (addr + o) (takeZ step (dropZ o data))) (range_step fuel o (zlength data) step) =
  stepped addr data step (range_step fuel o (zlength data) step).
Proof.
  intros Ho Hf. apply map_ext_in. intros x Hx%list_elem_of_In. apply Hf, piece_ok.
  by eapply in_range_step.
Qed.

(** The four writers' loops. *)
Lemma cpm56_block : block addr (cpm56_ihex_data addr data step) data.
Proof.
  unfold cpm56_ihex_data. rewrite map_pieces; [apply whole_block|lia|]. apply ihex_record_line.
Qed.

Lemma sysgen_stepped fuel : forall o, 0 <= o ->
  sysgen_ihex_data fuel addr data step o = stepped addr data step (range_step fuel o (zlength data) step).
Proof.
  induction fuel as [|fuel IH]; intros o Ho; [done|]. cbn [sysgen_ihex_data range_step].
  destruct (Z.ltb_spec o (zlength data)); [|done]. cbn [stepped map]. f_equal.
  - apply ihex_record_line, piece_ok. lia.
  - destruct (Z.le_gt_cases (o + step) (zlength data)) as [Hle|Hgt].
    + replace (zlength (takeZ step (dropZ o data))) with step; [apply IH; lia|].
      unfold zlength in *. rewrite takeZ_take, dropZ_drop, length_take, length_drop. lia.
    + replace (zlength (takeZ step (dropZ o data))) with (zlength data - o)
        by (unfold zlength in *; rewrite takeZ_take, dropZ_drop, length_take, length_drop; lia).
      destruct fuel as [|fuel]; [done|]. cbn [sysgen_ihex_data range_step].
      rewrite !(proj2 (Z.ltb_ge _ _)) by lia. done.
Qed.

Lemma sysgen_block : block addr (sysgen_ihex_data (length data) addr data step 0) data.
Proof. rewrite sysgen_stepped by lia. apply whole_block. Qed.

Lemma bin_lines_eq fuel o : 0 <= o ->
  bin_lines addr step data (range_step fuel o (zlength data) step) =
    Ret (stepped addr data step (range_step fuel o (zlength data) step)).
Proof.
  revert o. induction fuel as [|fuel IH]; intros o Ho; [done|]. cbn [range_step].
  destruct (Z.ltb_spec o (zlength data)); [|done]. cbn [bin_lines stepped map].
  rewrite bin_line_line by (apply piece_ok; lia). cbn [mbind outcome_bind]. rewrite IH by lia. done.
Qed.
End Stepped.

Lemma cim_lines_eq addr data : 0 <= addr -> addr + zlength data <= 65536 -> all_bytes data ->
  forall fuel o, 0 <= o ->
  cim_lines fuel data addr o = stepped addr data 16 (range_step fuel o (zlength data) 16).
Proof.
  intros Ha Hl Hb. induction fuel as [|fuel IH]; intros o Ho; [done|]. cbn [cim_lines range_step].
  destruct (Z.ltb_spec o (zlength data)); [|done]. cbn [stepped map]. f_equal; [|apply IH; lia].
  apply cim_line_line. apply piece_ok; [lia|done|done|lia].
Qed.

(** A writer of blocks: whatever the data, if it and its addresses fit in 64 KiB,
    what it writes is a block. *)
Class HexWriter (write : Z -> bytes -> outcome (list str)) : Prop :=
  writes_block : forall addr data, 0 <= addr -> addr + zlength data <= 65536 -> all_bytes data ->
    exists ls, write addr data = Ret ls /\ block addr ls data.

#[export] Instance sysgen_writer :
  HexWriter (fun addr data => Ret (sysgen_ihex_data (length data) addr data 16 0)).
Proof. intros addr data H1 H2 H3. eexists. split; [done|]. by apply sysgen_block. Qed.

#[export] Instance cpm56_writer : HexWriter (fun addr data => Ret (cpm56_ihex_data addr data 32)).
Proof. intros addr data H1 H2 H3. eexists. split; [done|]. by apply cpm56_block. Qed.

#[export] Instance cim_writer : HexWriter (fun addr data => Ret (cim_lines (length data) data addr 0)).
Proof.
  intros addr data H1 H2 H3. eexists. split; [done|]. rewrite cim_lines_eq by done. by apply whole_block.
Qed.

#[export] Instance bin_writer :
  HexWriter (fun addr data => bin_lines addr 16 data (range_step (length data) 0 (zlength data) 16)).
Proof.
  intros addr data H1 H2 H3. eexists. split; [by apply bin_lines_eq|]. by apply whole_block.
Qed.

(** ** The end of a file *)

Definition intel_eof : str := chars ":00000001FF".
Definition cpm_eof : str := ihex_record 0 0 [].

(** What the loader does with the record of either terminator. *)
Lemma terminator term : term = intel_eof \/ term = cpm_eof -> clean term /\
  exists rs, parse_lines [term] = Ret rs /\ forall base img, apply_records base img rs = Ret img.
Proof.
  intros [->| ->].
  - split; [decided|]. by exists [].
  - split; [decided|]. exists [(0, [])]. split; [reflexivity|].
    intros base img. cbn [apply_records]. destruct (_ || _) eqn:E; [done|].
    change (zlength (@nil Z)) with 0. rewrite Z.add_0_r.
    f_equal. unfold slice_set. rewrite Nat.max_id. cbn [app]. by rewrite take_drop.
Qed.

(** Loading a text of lines. *)
Lemma apply_text sep l ls base img : newline sep -> Forall clean (l :: ls) ->
  apply_hex base img [join sep (l :: ls) ++ sep] =
    match (rs ← parse_lines (l :: ls); apply_records base img rs) with
    | Ret data => Ret data
    | Raise ValueError => Raise (SystemExit 1)
    | Raise e => Raise e
    end.
Proof. intros Hs Hc. cbn [apply_hex]. unfold parse_hex. by rewrite split_text. Qed.

Lemma apply_block_refused base rs rest : forall addr data img,
  consecutive addr rs data -> Forall (fun r => snd r <> []) rs -> data <> [] ->
  addr < base \/ base + zlength img < addr + zlength data ->
  apply_records base img (rs ++ rest) = Raise ValueError.
Proof.
  induction rs as [|[a c] rs IH]; intros addr data img H Hn Hd Ho; cbn [consecutive app apply_records] in *; [done|].
  destruct H as (-> & data' & -> & H). apply Forall_cons in Hn as [Hc Hn]. cbn [snd] in Hc.
  rewrite zlength_app in Ho. destruct (_ || _) eqn:E; [by destruct c|].
  apply orb_false_elim in E as [E1%Z.ltb_ge E2%Z.ltb_ge].
  apply (IH (addr + zlength c) data'); [done|done| |].
  - intros ->. rewrite zlength_nil in Ho. lia.
  - right. replace (Z.to_nat (addr - base + zlength c)) with (Z.to_nat (addr - base) + length c)%nat by (unfold zlength; lia).
    fold (place (Z.to_nat (addr - base)) c img). unfold zlength in *. rewrite length_place by lia. lia.
Qed.

Lemma gives_nonempty ls rs : Forall2 gives ls rs -> Forall (fun r => snd r <> []) rs.
Proof. induction 1 as [|l r ls rs (_ & _ & H)]; by constructor. Qed.

(** A text made of a block and a terminator, over an image it fits in or not. *)
Lemma block_text sep term addr ls data base img :
  newline sep -> term = intel_eof \/ term = cpm_eof -> block addr ls data ->
  (base <= addr -> addr + zlength data <= base + zlength img ->
    apply_hex base img [join sep (ls ++ [term]) ++ sep] = Ret (place (Z.to_nat (addr - base)) data img)) /\
  (data <> [] -> addr < base \/ base + zlength img < addr + zlength data ->
    apply_hex base img [join sep (ls ++ [term]) ++ sep] = Raise (SystemExit 1)).
Proof.
  intros Hs Ht (rs & Hg & Hc). destruct (terminator term Ht) as (Htc & ts & Hp & Ha).
  assert (Forall clean (ls ++ [term])) as Hcl.
  { apply Forall_app. split; [by eapply gives_clean|by constructor]. }
  assert (forall img, (rs0 ← parse_lines (ls ++ [term]); apply_records base img rs0) = apply_records base img (rs ++ ts)) as Hpl
    by (intros i; by rewrite (parse_block _ _ _ Hg), Hp).
  destruct (ls ++ [term]) as [|l ls'] eqn:E; [by destruct ls|]. split.
  - intros H1 H2. rewrite apply_text by done. rewrite Hpl, (apply_block _ _ _ _ _ _ Hc) by done. by rewrite Ha.
  - intros H1 H2. rewrite apply_text by done. rewrite Hpl.
    rewrite (apply_block_refused _ _ _ _ _ _ Hc) by (done || by eapply gives_nonempty). done.
Qed.

(** Several blocks and a terminator, loaded in order. *)
Definition laid (base : Z) (img : bytes) (b : Z * list str * bytes) : bytes :=
  place (Z.to_nat (fst (fst b) - base)) (snd b) img.

Lemma blocks_text sep term bs base img :
  newline sep -> term = intel_eof \/ term = cpm_eof ->
  Forall (fun b => block (fst (fst b)) (snd (fst b)) (snd b) /\ base <= fst (fst b) /\
                   fst (fst b) + zlength (snd b) <= base + zlength img) bs ->
  apply_hex base img [join sep (concat (map (fun b => snd (fst b)) bs) ++ [term]) ++ sep] =
    Ret (foldl (laid base) img bs).
Proof.
  intros Hs Ht Hbs. destruct (terminator term Ht) as (Htc & ts & Hp & Ha).
  assert (exists rs, Forall clean (concat (map (fun b => snd (fst b)) bs) ++ [term]) /\
    parse_lines (concat (map (fun b => snd (fst b)) bs) ++ [term]) = Ret rs /\
    forall img', zlength img' = zlength img -> apply_records base img' rs = Ret (foldl (laid base) img' bs))
    as (rs & Hc & Hl & Hr).
  { induction Hbs as [|[[addr ls] data] bs ((brs & Hg & Hc) & H1 & H2) _ (rs & IHc & IHl & IHr)];
      cbn [map concat foldl fst snd] in *.
    - exists ts. split_and!; [by constructor|done|by intros].
    - exists (brs ++ rs). rewrite <- app_assoc. split_and!.
      + apply Forall_app. split; [by eapply gives_clean|done].
      + by rewrite (parse_block _ _ _ Hg), IHl.
      + intros img' Hi. rewrite (apply_block _ _ _ _ _ _ Hc) by lia. apply IHr. unfold zlength, laid in *.
        cbn [fst snd]. rewrite length_place; lia. }
  destruct (concat (map (fun b => snd (fst b)) bs) ++ [term]) as [|l ls'] eqn:E.
  { by destruct (concat (map (fun b => snd (fst b)) bs)). }
  rewrite apply_text by done. rewrite Hl. cbn [mbind outcome_bind]. by rewrite Hr.
Qed.

(** ** Any record *)

(** What [parse_line] makes of any bytes in place of a record: the sum decides,
    the length byte only says where to cut. *)
Lemma parse_raw raw : all_bytes raw -> (5 <= length raw)%nat ->
  parse_line (58 :: hex_bytes raw) =
    if u8 (zsum raw) =? 0 then
      Ret (match raw with
           | len :: hi :: lo :: t :: _ =>
               if t =? 0 then Data (hi * 256 + lo) (slice 4 (4 + Z.to_nat len) raw)
               else if t =? 1 then End else Other
           | _ => Skip
           end)
    else Raise ValueError.
Proof.
  intros Hb Hl. unfold parse_line. rewrite strip_clean; [|done|].
  2: { apply hex_bytes_chars; [done|]. intros d Hd. by apply hexval_hexdig. }
  rewrite fromhex_bytes by done. cbn [mbind outcome_bind]. rewrite (proj2 (Nat.ltb_ge _ _)) by lia.
  destruct raw as [|len [|hi [|lo [|t raw]]]]; cbn [length] in Hl; try lia.
  set (all := len :: hi :: lo :: t :: raw) in *.
  destruct (exists_last (l := all)) as (front & c & E); [done|].
  assert (length all - 1 = length front)%nat as En by (rewrite E, length_app; cbn; lia).
  rewrite En. assert (index all (length front) = Ret c) as ->
    by (apply index_in; rewrite E; apply list_lookup_middle; done).
  change (index all 0) with (Ret len). change (index all 1) with (Ret hi).
  change (index all 2) with (Ret lo). change (index all 3) with (Ret t). cbn [mbind outcome_bind].
  assert (take (length front) all = front) as -> by (rewrite E; apply take_app_length).
  assert (is_byte c) as Hc by (rewrite E in Hb; apply Forall_app in Hb as [_ Hb]; by apply Forall_cons in Hb as [? _]).
  assert (Z.lor (Z.shiftl hi 8) lo = hi * 256 + lo) as ->.
  { rewrite Z.lor_comm, lor_shiftl; [lia|done|].
    do 2 apply Forall_cons in Hb as [_ Hb]. by apply Forall_cons in Hb as [? _]. }
  replace (u8 (zsum all) =? 0) with (c =? u8 (- zsum front)).
  { destruct (c =? u8 (- zsum front)); cbn [negb]; [|done]. by destruct (t =? 0), (t =? 1). }
  rewrite E, zsum_app, zsum_cons. cbn [zsum foldr]. rewrite Z.add_0_r. apply Bool.eq_iff_eq_true.
  rewrite !Z.eqb_eq. split.
  - intros ->. apply u8_add_neg.
  - intros H. rewrite <- (u8_small c) by done. rewrite u8_mod in *. rewrite (u8_mod (- _)).
    pose proof (Z.div_mod (zsum front + c) 256 ltac:(lia)).
    replace c with (- zsum front + ((zsum front + c) / 256) * 256) by lia. by rewrite Z.mod_add.
Qed.

(** ** Properties *)

(** HEX files are overlays.  Whatever the writer (the interface has one
    instance for each of mk_sysgen_hex.py, mk_cpm56.py, cim_to_hex.py and
    bin2ihex.py), the line end (LF, CR or CR LF) and the terminator (Intel's or
    CP/M's), applying the file of a block of data to a binary that covers its
    addresses puts exactly the data there and changes nothing else, and applying
    it to any other binary ends the program with status 1.  The complete files of
    cim_to_hex.py and bin2ihex.py are such files. *)
Lemma hex_files_overlay (write : Z -> bytes -> outcome (list str)) `{!HexWriter write}
    sep term addr data base img :
  newline sep -> term = intel_eof \/ term = cpm_eof ->
  0 <= addr -> addr + zlength data <= 65536 -> all_bytes data ->
  let covered := base <= addr /\ addr + zlength data <= base + zlength img in
  (exists ls, write addr data = Ret ls /\
     (covered -> apply_hex base img [join sep (ls ++ [term]) ++ sep] = Ret (place (Z.to_nat (addr - base)) data img)) /\
     (data <> [] -> ~ covered -> apply_hex base img [join sep (ls ++ [term]) ++ sep] = Raise (SystemExit 1))) /\
  (covered -> apply_hex base img [to_hex data addr] = Ret (place (Z.to_nat (addr - base)) data img) /\
     exists t, to_ihex data addr 16 = Ret t /\ apply_hex base img [t] = Ret (place (Z.to_nat (addr - base)) data img)).
Proof.
  intros Hs Ht H1 H2 H3 covered. split.
  - destruct (writes_block addr data H1 H2 H3) as (ls & Hw & Hb). exists ls. split; [done|].
    destruct (block_text sep term addr ls data base img Hs Ht Hb) as [Hc Hr]. split.
    + intros [Hc1 Hc2]. by apply Hc.
    + intros Hd Hn. apply Hr; [done|]. unfold covered in Hn. lia.
  - intros [Hc1 Hc2]. split.
    + unfold to_hex. rewrite cim_lines_eq by done.
      apply block_text; [by left|by left|by apply whole_block|done|done].
    + unfold to_ihex. rewrite bin_lines_eq by done. cbn [mbind outcome_bind]. eexists. split; [done|].
      apply block_text; [by right; left|by left|by apply whole_block|done|done].
Qed.

(** A record is checked by its sum, and by nothing else.  Any bytes, at least
    five, in the place of a record are taken when their sum is zero modulo 256 and
    raise [ValueError] when it is not; so a record of a writer with any one byte
    changed is always refused.  The length byte is not compared with the line: a
    record that claims one byte more than it has, with the sum made right, is
    taken with its own checksum as the last byte of the data. *)
Lemma records_are_checked_by_sum raw rtype addr data i x y :
  all_bytes raw -> (5 <= length raw)%nat -> record_ok rtype addr data ->
  record_bytes rtype addr data !! i = Some x -> is_byte y -> x <> y ->
  ((exists r, parse_line (58 :: hex_bytes raw) = Ret r) <-> zsum raw mod 256 = 0) /\
  (zsum raw mod 256 <> 0 -> parse_line (58 :: hex_bytes raw) = Raise ValueError) /\
  parse_line (58 :: hex_bytes (<[i := y]> (record_bytes rtype addr data))) = Raise ValueError /\
  (zlength data < 255 ->
    let body := [zlength data + 1; Z.shiftr addr 8; Z.land addr 255; 0] ++ data in
    let cks := u8 (- zsum body) in
    parse_line (58 :: hex_bytes (body ++ [cks])) = Ret (Data addr (data ++ [cks]))).
Proof.
  intros Hb Hl Hr Hx Hy Hne. rewrite <- u8_mod. split_and!.
  - rewrite parse_raw by done. destruct (Z.eqb_spec (u8 (zsum raw)) 0) as [E|E].
    + split; [done|]. intros _. by eexists.
    + split; [by intros [r ?]|done].
  - intros H. rewrite parse_raw by done. by rewrite (proj2 (Z.eqb_neq _ _)).
  - pose proof (record_all_bytes _ _ _ Hr) as Hrb.
    rewrite parse_raw; [|by apply Forall_insert|rewrite length_insert; unfold record_bytes; rewrite length_app; cbn; lia].
    rewrite (zsum_insert _ _ x) by done. rewrite (proj2 (Z.eqb_neq _ 0)); [done|].
    assert (u8 (zsum (record_bytes rtype addr data)) = 0) as H0.
    { unfold record_bytes. cbv zeta. rewrite zsum_app, zsum_cons. cbn [zsum foldr]. rewrite Z.add_0_r. apply u8_add_neg. }
    apply (u8_sum_changed _ x y); [by eapply all_bytes_lookup|done|done|].
    by replace (zsum (record_bytes rtype addr data) - x + x) with (zsum (record_bytes rtype addr data)) by lia.
  - intros Hlen body cks. destruct Hr as (_ & Ha & Hd & _). destruct (high_byte addr Ha) as [Hh _].
    pose proof (zlength_pos data).
    assert (all_bytes (body ++ [cks])) as Hbb.
    { unfold body. rewrite !Forall_app, !Forall_cons. unfold cks, is_byte in *. split_and!; auto with py; try lia; try apply u8_range. }
    rewrite parse_raw; [|done|unfold body; rewrite length_app; cbn; lia].
    rewrite zsum_app, zsum_cons. cbn [zsum foldr]. rewrite Z.add_0_r. unfold cks at 1. rewrite u8_add_neg.
    cbn [Z.eqb body app]. f_equal. f_equal.
    + rewrite <- (lor_address addr) at 3 by done. rewrite Z.lor_comm, lor_shiftl by (done || apply u8_range).
      change (2 ^ 8) with 256. lia.
    + unfold slice. cbn [drop]. apply take_ge. rewrite length_app. unfold zlength. cbn [length]. lia.
Qed.

(** C13: HEX files are overlays, checked by their sums.  Whatever the writer (the
    interface has one instance for each of mk_sysgen_hex.py, mk_cpm56.py,
    cim_to_hex.py and bin2ihex.py), the line end and the terminator (Intel's or
    CP/M's), applying the file of a block of data to a binary that covers its
    addresses puts exactly the data there and changes nothing else, and applying
    it to any other binary ends the program with status 1.  Any bytes, at least
    five, in the place of a record are taken when their sum is zero modulo 256 and
    raise [ValueError] when it is not; so a record with any one byte changed is
    always refused.  The length byte is not compared with the line: a record that
    claims one byte more than it has, with the sum made right, is taken with its
    own checksum as the last byte of the data. *)
Theorem hex_files_are_read :
  (forall (write : Z -> bytes -> outcome (list str)) `{!HexWriter write}
    sep term addr data base img,
  newline sep -> term = intel_eof \/ term = cpm_eof ->
  0 <= addr -> addr + zlength data <= 65536 -> all_bytes data ->
  let covered := base <= addr /\ addr + zlength data <= base + zlength img in
  (exists ls, write addr data = Ret ls /\
     (covered -> apply_hex base img [join sep (ls ++ [term]) ++ sep] = Ret (place (Z.to_nat (addr - base)) data img)) /\
     (data <> [] -> ~ covered -> apply_hex base img [join sep (ls ++ [term]) ++ sep] = Raise (SystemExit 1))) /\
  (covered -> apply_hex base img [to_hex data addr] = Ret (place (Z.to_nat (addr - base)) data img) /\
     exists t, to_ihex data addr 16 = Ret t /\ apply_hex base img [t] = Ret (place (Z.to_nat (addr - base)) data img))) /\
  (forall raw rtype addr data i x y,
  all_bytes raw -> (5 <= length raw)%nat -> record_ok rtype addr data ->
  record_bytes rtype addr data !! i = Some x -> is_byte y -> x <> y ->
  ((exists r, parse_line (58 :: hex_bytes raw) = Ret r) <-> zsum raw mod 256 = 0) /\
  (zsum raw mod 256 <> 0 -> parse_line (58 :: hex_bytes raw) = Raise ValueError) /\
  parse_line (58 :: hex_bytes (<[i := y]> (record_bytes rtype addr data))) = Raise ValueError /\
  (zlength data < 255 ->
    let body := [zlength data + 1; Z.shiftr addr 8; Z.land addr 255; 0] ++ data in
    let cks := u8 (- zsum body) in
    parse_line (58 :: hex_bytes (body ++ [cks])) = Ret (Data addr (data ++ [cks])))).
Proof. split; [exact hex_files_overlay|exact records_are_checked_by_sum]. Qed.

Lemma hex_files_are_read_witness :
  ((exists ls, Ret (cpm56_ihex_data 258 [1; 2; 3] 32) = Ret ls /\
    apply_hex 256 (replicate 6 0) [join [13; 10] (ls ++ [cpm_eof]) ++ [13; 10]] = Ret [0; 0; 1; 2; 3; 0]) /\
  apply_hex 256 (replicate 6 0) [to_hex [1; 2; 3] 258] = Ret [0; 0; 1; 2; 3; 0]) /\
  (parse_line (chars ":03010000010203F7") = Raise ValueError /\
  parse_line (chars ":02000000AA54") = Ret (Data 0 [170; 84])).
Proof.
  split.
  { destruct ((proj1 hex_files_are_read) (fun addr data => Ret (cpm56_ihex_data addr data 32)) _ [13; 10] cpm_eof 258 [1; 2; 3] 256 (replicate 6 0)
    ltac:(by left) ltac:(by right) ltac:(lia) ltac:(vm_compute; discriminate)
    ltac:(decided)) as ((ls & Hw & Hc & _) & Ht).
  assert (256 <= 258 /\ 258 + zlength [1; 2; 3] <= 256 + zlength (replicate 6 0)) as Hcov
    by (split; vm_compute; discriminate).
  split; [|exact (proj1 (Ht Hcov))]. exists ls. split; [exact Hw|]. exact (Hc Hcov). }
  { destruct ((proj2 hex_files_are_read) [3; 1; 0; 0; 1; 2; 3; 247] 0 0 [170] 4%nat 170 171
    ltac:(decided) ltac:(cbn; lia) ltac:(split_and!; decided) ltac:(reflexivity)
    ltac:(by split) ltac:(lia)) as (_ & H & _ & Hl).
  split; [apply H; vm_compute; lia|]. exact (Hl ltac:(by vm_compute)). }
Defined.
