(* ===== verification/Text.v ===== *)
(** * Numbers as text: Python's [int], [str] and number formats.

    What the scripts use of the language to read and show decimal numbers, and the
    lemmas that connect the two directions.  Texts are ASCII, and numbers have at
    most the 4300 digits [int] reads. *)

From S2P Require Import Prelude Imd Hex.
#[local] Open Scope Z_scope.

Definition is_digit (c : Z) : bool := (48 <=? c) && (c <=? 57).

(** The digits of [int]: single underscores may stand between them. *)
Fixpoint int_digits (after_digit : bool) (acc : Z) (s : str) : outcome Z :=
  match s with
  | [] => if after_digit then Ret acc else Raise ValueError
  | c :: s' =>
      if is_digit c then int_digits true (acc * 10 + (c - 48)) s'
      else if (c =? 95) && after_digit then int_digits false acc s'
      else Raise ValueError
  end.

(** [int(s)]. *)
Definition int_of (s : str) : outcome Z :=
  match strip_with py_space s with
  | 43 :: s' => int_digits false 0 s'
  | 45 :: s' => n ← int_digits false 0 s'; Ret (- n)
  | s' => int_digits false 0 s'
  end.

(** [str(n)] of a non-negative integer, with fuel for its digits. *)
Fixpoint decimal_from (fuel : nat) (n : Z) (acc : str) : str :=
  match fuel with
  | O => acc
  | S fuel' => let acc' := 48 + n mod 10 :: acc in if n <? 10 then acc' else decimal_from fuel' (n / 10) acc'
  end.
Definition decimal (n : Z) : str := decimal_from (S (Z.to_nat (Z.log2 n))) n [].

(** [f'{n:0wd}']. *)
Definition decimal_width (w : nat) (n : Z) : str := let d := decimal n in replicate (w - length d) 48 ++ d.

(** [data.hex(' ')]. *)
Definition hexdig_lower (d : Z) : Z := if d <? 10 then 48 + d else 87 + d.
Definition hex_spaced (data : bytes) : str :=
  join [32] (map (fun b => [hexdig_lower (b / 16); hexdig_lower (b mod 16)]) data).

(** [str.lower()] of an ASCII text. *)
Definition lower1 (c : Z) : Z := if (65 <=? c) && (c <=? 90) then c + 32 else c.
Definition lower (s : str) : str := map lower1 s.

(** [bytes.decode('ascii', errors='replace')], encoded again. *)
Definition ascii_replace (s : bytes) : str := concat (map (fun b => if b <? 128 then [b] else [0xEF; 0xBF; 0xBD]) s).

(** [f.readlines()], without the line ends, which [rstrip] takes off anyway. *)
Definition readlines (file : str) : list str :=
  let ls := split_on 10 (universal_newlines file) in
  match last ls with Some [] => take (length ls - 1) ls | _ => ls end.

(** The longest beginning of characters [f] has. *)
Fixpoint take_while (f : Z -> bool) (s : str) : str :=
  match s with
  | [] => []
  | c :: s' => if f c then c :: take_while f s' else []
  end.

(** ** Decimal numbers *)

Definition digits (s : str) : Prop := Forall (fun c => is_digit c = true) s.
Definition value (acc : Z) (s : str) : Z := foldl (fun a c => a * 10 + (c - 48)) acc s.

Lemma is_digit_spec c : is_digit c = true <-> 48 <= c <= 57.
Proof. unfold is_digit. rewrite andb_true_iff, !Z.leb_le. done. Qed.

Lemma int_digits_value s : digits s -> forall b acc, b = true \/ s <> [] -> int_digits b acc s = Ret (value acc s).
Proof.
  induction 1 as [|c s Hc Hs IH]; intros b acc H; cbn [int_digits].
  - by destruct H as [->|].
  - rewrite Hc. apply IH. by left.
Qed.

Lemma digit_not_space c : is_digit c = true -> py_space c = false.
Proof. intros H%is_digit_spec. unfold py_space. repeat destruct (Z.leb_spec _ _); try done; lia. Qed.

Lemma int_of_digits s : digits s -> s <> [] -> int_of s = Ret (value 0 s).
Proof.
  intros H Hne. unfold int_of. destruct s as [|c s]; [done|]. pose proof H as H'.
  apply Forall_cons in H as [Hc Hs]. rewrite strip_clean; [|by apply digit_not_space|].
  2: { eapply Forall_impl; [exact Hs|]. apply digit_not_space. }
  rewrite <- (int_digits_value (c :: s) H' false 0) by (by right).
  apply is_digit_spec in Hc. destruct c as [|c|c]; try lia. do 6 (try destruct c as [c|c|]; try lia; try done).
Qed.

Lemma decimal_from_app fuel : forall n acc, decimal_from fuel n acc = decimal_from fuel n [] ++ acc.
Proof.
  induction fuel as [|fuel IH]; intros n acc; cbn [decimal_from]; [done|].
  destruct (n <? 10); [done|]. rewrite IH, (IH _ [_]), <- app_assoc. done.
Qed.

Lemma decimal_from_value fuel : forall n, 0 <= n < 10 ^ Z.of_nat fuel ->
  digits (decimal_from fuel n []) /\ value 0 (decimal_from fuel n []) = n /\ (n <> 0 -> decimal_from fuel n [] <> []) /\
  ((0 < fuel)%nat -> decimal_from fuel n [] <> []).
Proof.
  induction fuel as [|fuel IH]; intros n Hn.
  - cbn in Hn. assert (n = 0) as -> by lia. split_and!; [constructor|done|done|lia].
  - rewrite Nat2Z.inj_succ, Z.pow_succ_r in Hn by lia. cbn [decimal_from].
    assert (0 <= n mod 10 < 10) as Hm by (apply Z.mod_pos_bound; lia).
    assert (is_digit (48 + n mod 10) = true) as Hd by (apply is_digit_spec; lia).
    destruct (Z.ltb_spec n 10) as [Hs|Hs].
    + rewrite Z.mod_small by lia. rewrite Z.mod_small in Hd by lia.
      split_and!; [by constructor|unfold value; cbn; lia|done|done].
    + destruct (IH (n / 10)) as (D & V & _ & _); [Z.div_mod_to_equations; lia|]. rewrite decimal_from_app.
      split_and!.
      * apply Forall_app. by split; [|constructor].
      * unfold value in *. rewrite foldl_app, V. cbn [foldl]. Z.div_mod_to_equations. lia.
      * intros _. by destruct (decimal_from _ _ _).
      * intros _. by destruct (decimal_from _ _ _).
Qed.

Lemma length_decimal_from fuel : forall k n, 0 <= n < 10 ^ Z.of_nat (S k) -> (length (decimal_from fuel n []) <= S k)%nat.
Proof.
  induction fuel as [|fuel IH]; intros k n Hn; cbn [decimal_from]; [cbn; lia|].
  destruct (Z.ltb_spec n 10); [cbn; lia|]. rewrite decimal_from_app, length_app. cbn [length].
  destruct k as [|k]; [cbn in Hn; lia|]. rewrite Nat2Z.inj_succ, Z.pow_succ_r in Hn by lia.
  specialize (IH k (n / 10)). assert (0 <= n / 10 < 10 ^ Z.of_nat (S k)) by (Z.div_mod_to_equations; lia).
  specialize (IH ltac:(done)). lia.
Qed.

Lemma decimal_ok n : 0 <= n -> digits (decimal n) /\ value 0 (decimal n) = n /\ decimal n <> [] /\
  (n < 100000000 -> (length (decimal n) <= 8)%nat).
Proof.
  intros H. unfold decimal. destruct (decimal_from_value (S (Z.to_nat (Z.log2 n))) n) as (D & V & _ & N).
  - split; [done|]. rewrite Nat2Z.inj_succ, Z2Nat.id by apply Z.log2_nonneg.
    destruct (Z.eq_dec n 0) as [->|Hn]; [done|].
    apply Z.lt_le_trans with (2 ^ Z.succ (Z.log2 n)); [apply Z.log2_spec; lia|].
    apply Z.pow_le_mono_l. lia.
  - split_and!; [done|done|apply N; lia|]. intros Hn. by apply (length_decimal_from _ 7).
Qed.

Lemma decimal_width_ok w n : 0 <= n ->
  digits (decimal_width w n) /\ value 0 (decimal_width w n) = n /\ decimal_width w n <> [].
Proof.
  intros H. destruct (decimal_ok n H) as (D & V & N & _). unfold decimal_width. cbv zeta.
  generalize (w - length (decimal n))%nat. intros k. split_and!.
  - apply Forall_app. split; [|done]. by apply Forall_replicate.
  - unfold value in *. rewrite foldl_app. assert (foldl (fun a c => a * 10 + (c - 48)) 0 (replicate k 48) = 0) as ->; [|done].
    induction k; [done|]. cbn. done.
  - by destruct k.
Qed.

Lemma value_app acc a b : value acc (a ++ b) = value (value acc a) b.
Proof. apply foldl_app. Qed.

Lemma value_from s : forall acc, value acc s = value 0 s + acc * 10 ^ Z.of_nat (length s).
Proof.
  induction s as [|c s IH]; intros acc; [unfold value; cbn; lia|].
  change (value acc (c :: s)) with (value (acc * 10 + (c - 48)) s). change (value 0 (c :: s)) with (value (c - 48) s).
  rewrite (IH (acc * 10 + (c - 48))), (IH (c - 48)). cbn [length]. rewrite Nat2Z.inj_succ, Z.pow_succ_r by lia. lia.
Qed.

(** ** Hexadecimal numbers

    [int(s, 16)]: white space around, a sign, [0x], and single underscores between
    the digits are allowed. *)
Fixpoint base16_digits (after_digit : bool) (acc : Z) (s : str) : outcome Z :=
  match s with
  | [] => if after_digit then Ret acc else Raise ValueError
  | c :: s' =>
      match hexval c with
      | Some d => base16_digits true (acc * 16 + d) s'
      | None => if (c =? 95) && after_digit then base16_digits false acc s' else Raise ValueError
      end
  end.

Definition base16_unsigned (s : str) : outcome Z :=
  match s with
  | 48 :: x :: s' =>
      if (x =? 120) || (x =? 88) then
        base16_digits false 0 (match s' with 95 :: s'' => s'' | _ => s' end)
      else base16_digits false 0 s
  | _ => base16_digits false 0 s
  end.

Definition int16 (s : str) : outcome Z :=
  match strip_with py_space s with
  | 43 :: s' => base16_unsigned s'
  | 45 :: s' => n ← base16_unsigned s'; Ret (- n)
  | s' => base16_unsigned s'
  end.

Lemma base16_digits_bytes l : all_bytes l -> forall b acc, b = true \/ l <> [] ->
  base16_digits b acc (hex_bytes l) = Ret (foldl (fun a x => a * 256 + x) acc l).
Proof.
  induction 1 as [|x l Hx Hl IH]; intros b acc H; [by destruct H as [->|]|]. unfold hex_bytes in *. cbn [map concat app base16_digits foldl].
  destruct (byte_digits x Hx) as [H1 H2]. destruct (hexval_hexdig _ H1) as (-> & _), (hexval_hexdig _ H2) as (-> & _).
  rewrite IH by (by left). do 2 f_equal. pose proof (Z.div_mod x 16 ltac:(lia)). lia.
Qed.

Lemma int16_bytes l : all_bytes l -> l <> [] -> int16 (hex_bytes l) = Ret (foldl (fun a x => a * 256 + x) 0 l).
Proof.
  intros Hl Hne. unfold int16.
  assert (Hsp : Forall (fun d => py_space d = false /\ d <> 43 /\ d <> 45 /\ d <> 120 /\ d <> 88) (hex_bytes l)).
  { apply hex_bytes_chars; [done|]. intros d Hd.
    assert (F : Forall (fun d => py_space (hexdig d) = false /\ hexdig d <> 43 /\ hexdig d <> 45 /\ hexdig d <> 120 /\ hexdig d <> 88) (seqZ 0 16)) by decided.
    apply (proj1 (Forall_forall _ _) F). apply elem_of_seqZ. lia. }
  pose proof (base16_digits_bytes l Hl false 0 ltac:(by right)) as E. revert E Hsp.
  destruct (hex_bytes l) as [|c s] eqn:Eh; [by destruct l|]. intros E Hsp.
  rewrite strip_clean.
  2: { apply Forall_cons in Hsp as [H _]. by destruct H. }
  2: { apply Forall_cons in Hsp as [_ Hsp]. eapply Forall_impl; [exact Hsp|]. by intros d [H _]. }
  apply Forall_cons in Hsp as [(_ & H43 & H45 & _) Hsp].
  assert (Hu : base16_unsigned (c :: s) = base16_digits false 0 (c :: s)).
  { unfold base16_unsigned. destruct s as [|x s]; [by repeat case_match|]. apply Forall_cons in Hsp as [(_ & _ & _ & H120 & H88) _].
    rewrite (proj2 (Z.eqb_neq x 120)), (proj2 (Z.eqb_neq x 88)) by done. by repeat case_match. }
  rewrite <- E, <- Hu. destruct c as [|p|p]; try done. do 6 (destruct p as [p|p|]; try done).
Qed.

(** ** Splitting and joining *)

Lemma split_on_free c s : Forall (fun p => c ∉ p) (split_on c s) /\ split_on c s <> [].
Proof.
  induction s as [|x s [IH Hne]]; cbn [split_on]; [split; [repeat constructor; by intros ?%elem_of_nil|done]|].
  destruct (Z.eqb_spec x c) as [->|Hx]; [split; [constructor; [by intros ?%elem_of_nil|done]|done]|].
  destruct (split_on c s) as [|w ws]; [done|]. apply Forall_cons in IH as [Hw Hws]. split; [|done].
  constructor; [|done]. by intros [?|?]%elem_of_cons.
Qed.

Lemma join_split c s : join [c] (split_on c s) = s.
Proof.
  induction s as [|x s IH]; [done|]. cbn [split_on]. destruct (split_on_free c s) as [_ Hne].
  destruct (Z.eqb_spec x c) as [->|Hx].
  - destruct (split_on c s) as [|w ws]; [done|]. change (join [c] ([] :: w :: ws)) with (c :: join [c] (w :: ws)). by rewrite IH.
  - destruct (split_on c s) as [|w ws]; [done|]. destruct ws as [|v ws]; cbn [join app] in *; by rewrite IH.
Qed.

Lemma split_join c l : Forall (fun p => c ∉ p) l -> l <> [] -> split_on c (join [c] l) = l.
Proof.
  induction 1 as [|p l Hp Hl IH]; [done|]. intros _. destruct l as [|q l]; [by apply split_on_none|].
  change (join [c] (p :: q :: l)) with (p ++ c :: join [c] (q :: l)). rewrite split_on_app, split_on_none by done. by rewrite IH.
Qed.

Lemma elem_of_join c d l : c <> d -> Forall (fun p => c ∉ p) l -> c ∉ join [d] l.
Proof.
  intros Hne. induction 1 as [|p l Hp Hl IH]; [by intros ?%elem_of_nil|]. destruct l as [|q l]; [done|].
  change (join [d] (p :: q :: l)) with (p ++ d :: join [d] (q :: l)). rewrite elem_of_app, elem_of_cons. intros [?|[?|?]]; done.
Qed.

(** A text of clean lines, read line by line. *)
Lemma split_lines sep l ls : newline sep -> Forall clean (l :: ls) ->
  split_on 10 (universal_newlines (join sep (l :: ls) ++ sep)) = (l :: ls) ++ [[]].
Proof.
  intros Hs. assert (Hc : forall l, clean l -> 10 ∉ l).
  { intros l' Hl' Hin. apply (proj1 (Forall_forall _ _) Hl') in Hin as [H _]. done. }
  revert l. induction ls as [|l' ls IH]; intros l H; apply Forall_cons in H as [Hl H].
  - cbn [join]. rewrite newlines_clean, <- (app_nil_r sep), newlines_sep by (done || by intros _ ? ?).
    rewrite split_on_app, split_on_none by auto. done.
  - change (join sep (l :: l' :: ls)) with (l ++ sep ++ join sep (l' :: ls)).
    rewrite <- !app_assoc, newlines_clean, newlines_sep
      by (try done; intros -> c r; apply text_head; by apply Forall_cons in H as [? _]).
    rewrite split_on_app, split_on_none, IH by auto. done.
Qed.

(** Lines, each with its line end. *)
Definition listing (lines : list str) : str := join [10] lines ++ [10].

Lemma readlines_listing lines : lines <> [] -> Forall clean lines -> readlines (listing lines) = lines.
Proof.
  intros Hne Hc. destruct lines as [|l ls]; [done|]. unfold readlines, listing.
  rewrite (split_lines [10] l ls (or_intror (or_intror eq_refl)) Hc). rewrite last_snoc, length_app. cbn [length].
  replace (S (length ls) + 1 - 1)%nat with (length (l :: ls)) by (cbn; lia). by rewrite take_app_length.
Qed.

Lemma take_drop_while f a r : Forall (fun c => f c = true) a -> (forall c, head r = Some c -> f c = false) ->
  take_while f (a ++ r) = a /\ drop_while f (a ++ r) = r.
Proof.
  intros H Hr. induction H as [|c a Hc Ha [IH1 IH2]]; cbn [app take_while drop_while].
  - destruct r as [|c r]; [done|]. cbn [take_while drop_while]. by rewrite Hr.
  - by rewrite Hc, IH1, IH2.
Qed.
