(* ===== verification/Sysgen.v ===== *)
(** * SYSGEN images: rcbios-in-c/mk_sysgen_hex.py, mk_sysgen_t0.py, mk_cpm56.py.

    The three scripts put bios.cim into the memory layout SYSGEN copies to track
    0: side 0, a gap, side 1.  The HEX files also carry a Z80 program that sums
    the payload and prints OK or FAIL ([build_validator]; mk_cpm56.py has the
    same function).  Printed messages are left out; a [main] is the function from
    the contents of the input files to those of the output files. *)

From S2P Require Import Prelude Imd Hex.
#[local] Open Scope Z_scope.

Definition SIDE0_SIZE : Z := 26 * 128.
Definition GAP_SIZE : Z := 26 * 128.
Definition SIDE1_SIZE : Z := 26 * 256.
Definition TOTAL : Z := SIDE0_SIZE + GAP_SIZE + SIDE1_SIZE.

Definition COM_BASE : Z := 256.
Definition T0_ADDR : Z := 17664.

(** ** The validator *)

Definition build_checksum16_loop : list Z :=
  [126; 131; 95; 48; 1; 20; 35; 11; 120; 177; 32; 244].

(** [code += ...] for one region. *)
Definition region_code (r : Z * Z) : list Z :=
  let '(addr, length) := r in
  [33; Z.land addr 255; Z.land (Z.shiftr addr 8) 255] ++
  [1; Z.land length 255; Z.land (Z.shiftr length 8) 255] ++
  build_checksum16_loop.

(** The code that prints a text with BDOS function 2 and returns. *)
Definition print_code (text : str) : list Z :=
  concat (map (fun ch => [30; ch; 14; 2; 205; 5; 0]) text) ++ [201].

Definition OK_TEXT : str := [79; 75; 13; 10; 36].
Definition FAIL_TEXT : str := [70; 65; 73; 76; 13; 10; 36].

Definition build_validator (expected_sum : Z) (regions : list (Z * Z)) : outcome bytes :=
  let code := [17; 0; 0] ++ concat (map region_code regions) in
  let code := code ++ [123; 254; Z.land expected_sum 255] in
  let code := code ++ [32; 0] in
  let fail_jr1_pos := (length code - 1)%nat in
  let code := code ++ [122; 254; Z.land (Z.shiftr expected_sum 8) 255] in
  let code := code ++ [32; 0] in
  let fail_jr2_pos := (length code - 1)%nat in
  let code := code ++ print_code OK_TEXT in
  let fail_start := zlength code in
  let code := <[fail_jr1_pos := Z.land (fail_start - (Z.of_nat fail_jr1_pos + 1)) 255]> code in
  let code := <[fail_jr2_pos := Z.land (fail_start - (Z.of_nat fail_jr2_pos + 1)) 255]> code in
  let code := code ++ print_code FAIL_TEXT in
  mk_bytes code.

(** ** mk_sysgen_hex.py *)

(** The two texts: with CR LF after every line, and with CR. *)
Definition sysgen_hex (cim : bytes) : outcome (str * str) :=
  if SIDE0_SIZE + SIDE1_SIZE <? zlength cim then Raise (SystemExit 1) else
  let expected_sum := Z.land (zsum cim) 65535 in
  let s0_len := Z.min (zlength cim) SIDE0_SIZE in
  let s1_len := Z.max 0 (zlength cim - SIDE0_SIZE) in
  let regions := (T0_ADDR, s0_len) ::
    (if 0 <? s1_len then [(T0_ADDR + SIDE0_SIZE + GAP_SIZE, s1_len)] else []) in
  validator ← build_validator expected_sum regions;
  let data addr d := sysgen_ihex_data (length d) addr d 16 0 in
  let s0_data := takeZ s0_len cim in
  let lines := data COM_BASE validator ++ data T0_ADDR s0_data ++
    (if SIDE0_SIZE <? zlength cim then
       data (T0_ADDR + SIDE0_SIZE + GAP_SIZE) (dropZ SIDE0_SIZE cim)
     else []) ++ [ihex_record 0 0 []] in
  Ret (join [13; 10] lines ++ [13; 10], join [13] lines ++ [13]).

(** ** mk_sysgen_t0.py *)

Definition sysgen_t0 (cim : bytes) : outcome bytes :=
  if SIDE0_SIZE + SIDE1_SIZE <? zlength cim then Raise (SystemExit 1) else
  let out := replicate (Z.to_nat TOTAL) 0 in
  let s0_len := Z.min (zlength cim) SIDE0_SIZE in
  let out := slice_set 0 (Z.to_nat s0_len) (takeZ s0_len cim) out in
  let out :=
    if SIDE0_SIZE <? zlength cim then
      let s1_data := dropZ SIDE0_SIZE cim in
      slice_set (Z.to_nat (SIDE0_SIZE + GAP_SIZE)) (Z.to_nat (SIDE0_SIZE + GAP_SIZE + zlength s1_data)) s1_data out
    else out in
  Ret out.

(** ** mk_cpm56.py *)

Definition TPA : Z := 256.
Definition LOADP : Z := 2304.
Definition T0_FILE_OFFSET : Z := (LOADP - TPA) + 15360.

(** [l[a:b] = d] for bounds given as integers. *)
Definition set_range (a b : Z) (d l : bytes) : bytes := slice_set (Z.to_nat a) (Z.to_nat b) d l.

(** [d[:n]], counting a negative [n] from the end. *)
Definition upto (n : Z) (d : bytes) : bytes := takeZ (if n <? 0 then zlength d + n else n) d.

(** The patched .COM before the validator is put in. *)
Definition patch_com (com cim : bytes) : bytes :=
  let s0_len := Z.min (zlength cim) SIDE0_SIZE in
  let com := set_range T0_FILE_OFFSET (T0_FILE_OFFSET + s0_len) (takeZ s0_len cim) com in
  let gap_off := T0_FILE_OFFSET + SIDE0_SIZE in
  let com := set_range gap_off (gap_off + GAP_SIZE) (replicate (Z.to_nat GAP_SIZE) 0) com in
  if SIDE0_SIZE <? zlength cim then
    let s1_off := T0_FILE_OFFSET + SIDE0_SIZE + GAP_SIZE in
    let s1_data := dropZ SIDE0_SIZE cim in
    let s1_end := Z.min (s1_off + zlength s1_data) (zlength com) in
    let com := set_range s1_off s1_end (upto (s1_end - s1_off) s1_data) com in
    let zero_start := s1_end in
    let zero_end := Z.min (s1_off + SIDE1_SIZE) (zlength com) in
    if zero_start <? zero_end then
      set_range zero_start zero_end (replicate (Z.to_nat (zero_end - zero_start)) 0) com
    else com
  else com.

(** The patched .COM and the HEX text. *)
Definition cpm56 (com cim : bytes) : outcome (bytes * str) :=
  let com := patch_com com cim in
  let s0_len := Z.min (zlength cim) SIDE0_SIZE in
  let bios_s0_addr := TPA + T0_FILE_OFFSET in
  let bios_s1_addr := TPA + T0_FILE_OFFSET + SIDE0_SIZE + GAP_SIZE in
  let bios_s1_len := Z.max 0 (zlength cim - SIDE0_SIZE) in
  let regions := (bios_s0_addr, s0_len) ::
    (if 0 <? bios_s1_len then [(bios_s1_addr, bios_s1_len)] else []) in
  let expected_sum := Z.land (zsum cim) 65535 in
  validator ← build_validator expected_sum regions;
  let com := set_range 0 (zlength validator) validator com in
  let lines := cpm56_ihex_data TPA validator 32 ++
    map (fun offset => ihex_record 0 (TPA + offset) (takeZ 32 (dropZ offset com)))
      (range_step (length com) T0_FILE_OFFSET (zlength com) 32) ++
    [ihex_record 0 0 []] in
  Ret (com, join [13; 10] lines ++ [13; 10]).

Example validator_length : (v ← build_validator 0 [(17664, 3328); (24320, 100)]; Ret (zlength v)) = Ret 135.
Proof. reflexivity. Qed.

Lemma upto_take n (d : bytes) : 0 <= n -> upto n d = takeZ n d.
Proof. intros H. unfold upto. by rewrite (proj2 (Z.ltb_ge _ _)). Qed.

(** ** The validator's code *)

Lemma land_byte x : is_byte (Z.land x 255).
Proof. apply u8_range. Qed.
#[export] Hint Resolve land_byte : py.

Lemma region_code_bytes r : all_bytes (region_code r).
Proof.
  destruct r as [addr len]. unfold region_code, build_checksum16_loop.
  rewrite !Forall_app, !Forall_cons. split_and!; auto with py; decided.
Qed.

Lemma length_regions rs : length (concat (map region_code rs)) = (18 * length rs)%nat.
Proof.
  induction rs as [|[addr len] rs IH]; [done|]. cbn [map concat length]. rewrite length_app, IH. cbn. lia.
Qed.

(** The code without the two jump placeholders' arithmetic. *)
Definition validator_code (expected_sum : Z) (regions : list (Z * Z)) : list Z :=
  [17; 0; 0] ++ concat (map region_code regions) ++
  [123; 254; Z.land expected_sum 255; 32; 41] ++
  [122; 254; Z.land (Z.shiftr expected_sum 8) 255; 32; 36] ++
  print_code OK_TEXT ++ print_code FAIL_TEXT.

Lemma insert_at {A} (l1 l2 : list A) x y k : k = length l1 -> <[k := y]> (l1 ++ x :: l2) = l1 ++ y :: l2.
Proof. intros ->. rewrite insert_app_r_alt by lia. by rewrite Nat.sub_diag. Qed.

Lemma build_validator_code e rs : build_validator e rs = mk_bytes (validator_code e rs).
Proof.
  unfold build_validator, validator_code. cbv zeta. f_equal. rewrite !(app_assoc [17; 0; 0]).
  set (pre := [17; 0; 0] ++ concat (map region_code rs)).
  set (lo := Z.land e 255). set (hi := Z.land (Z.shiftr e 8) 255).
  rewrite <- !(app_assoc pre). cbn [app].
  replace (length (pre ++ [123; 254; lo; 32; 0]%Z) - 1)%nat with (length pre + 4)%nat
    by (rewrite length_app; cbn [length]; lia).
  replace (length (pre ++ [123; 254; lo; 32; 0; 122; 254; hi; 32; 0]%Z) - 1)%nat with (length pre + 9)%nat
    by (rewrite length_app; cbn [length]; lia).
  rewrite zlength_app. unfold zlength at 1 3.
  match goal with |- context [zlength ?l] => change (zlength l) with 46 end.
  replace (Z.of_nat (length pre) + 46 - (Z.of_nat (length pre + 4) + 1)) with 41 by lia.
  replace (Z.of_nat (length pre) + 46 - (Z.of_nat (length pre + 9) + 1)) with 36 by lia.
  rewrite !insert_app_r. cbn [list_insert insert]. rewrite <- app_assoc. reflexivity.
Qed.

Lemma print_code_bytes t : all_bytes t -> all_bytes (print_code t).
Proof.
  intros H. unfold print_code. apply Forall_app. split; [|decided]. apply Forall_concat, Forall_map.
  eapply Forall_impl; [exact H|]. intros c Hc. rewrite !Forall_cons. split_and!; done || decided.
Qed.

(** The validator exists, its bytes are bytes, and its length is known. *)
Lemma build_validator_ok e rs : exists v, build_validator e rs = Ret v /\ v = validator_code e rs /\
  all_bytes v /\ length v = (99 + 18 * length rs)%nat.
Proof.
  exists (validator_code e rs). rewrite build_validator_code.
  assert (all_bytes (validator_code e rs)) as Hb.
  { unfold validator_code. rewrite !Forall_app, !Forall_cons.
    split_and!; auto with py; try decided; try (by apply print_code_bytes; decided).
    apply Forall_concat, Forall_map, Forall_forall. intros r _. apply region_code_bytes. }
  split_and!; [by apply mk_bytes_ok|done|done|].
  unfold validator_code. rewrite !length_app, length_regions. cbn [length]. 
  change (length (print_code OK_TEXT)) with 36%nat. change (length (print_code FAIL_TEXT)) with 50%nat. lia.
Qed.

(** ** Memory as segments *)

Lemma place_middle a off d (A X B : bytes) : a = (length A + off)%nat -> (off + length d <= length X)%nat ->
  place a d (A ++ X ++ B) = A ++ place off d X ++ B.
Proof.
  intros -> H. rewrite !place_eq. rewrite take_app_add, drop_app_ge by lia.
  replace (length A + off + length d - length A)%nat with (off + length d)%nat by lia.
  rewrite take_app_le, drop_app_le by lia. by rewrite <- !app_assoc.
Qed.

Lemma place_whole d X : length d = length X -> place 0 d X = d.
Proof. intros H. rewrite place_eq. cbn [take app]. rewrite drop_ge by lia. by rewrite app_nil_r. Qed.

Lemma zlength_take (n : Z) (l : bytes) : zlength (takeZ n l) = Z.max 0 (Z.min n (zlength l)).
Proof. unfold zlength. rewrite takeZ_take, length_take. lia. Qed.

Lemma zlength_drop (n : Z) (l : bytes) : 0 <= n -> zlength (dropZ n l) = Z.max 0 (zlength l - n).
Proof. intros H. unfold zlength. rewrite dropZ_drop, length_drop. lia. Qed.

(** Where byte [i] of bios.cim is in the track 0 image. *)
Definition payload_pos (i : nat) : nat := if (i <? 3328)%nat then i else (i + 3328)%nat.

(** The two parts of bios.cim and the regions they are summed in. *)
Definition side0 (cim : bytes) : bytes := takeZ (Z.min (zlength cim) SIDE0_SIZE) cim.
Definition side1 (cim : bytes) : bytes := dropZ SIDE0_SIZE cim.
Definition regions_of (base : Z) (cim : bytes) : list (Z * Z) :=
  (base, Z.min (zlength cim) SIDE0_SIZE) ::
  (if 0 <? Z.max 0 (zlength cim - SIDE0_SIZE)
   then [(base + SIDE0_SIZE + GAP_SIZE, Z.max 0 (zlength cim - SIDE0_SIZE))] else []).

Lemma side_lengths cim : zlength (side0 cim) = Z.min (zlength cim) 3328 /\
  zlength (side1 cim) = Z.max 0 (zlength cim - 3328) /\ side0 cim ++ side1 cim = cim.
Proof.
  unfold side0, side1, SIDE0_SIZE. change (26 * 128) with 3328. pose proof (zlength_pos cim).
  rewrite zlength_take, zlength_drop by lia. split_and!; [lia|lia|].
  rewrite takeZ_take, dropZ_drop. destruct (Z.min_spec (zlength cim) 3328) as [[H1 ->]|[H1 ->]].
  - unfold zlength in *. rewrite take_ge, drop_ge by lia. by rewrite app_nil_r.
  - by rewrite take_drop.
Qed.

Lemma sides_bytes cim : all_bytes cim -> all_bytes (side0 cim) /\ all_bytes (side1 cim).
Proof.
  intros H. unfold side0, side1. rewrite takeZ_take, dropZ_drop. split; [by apply Forall_take|by apply Forall_drop].
Qed.

Lemma length_regions_of base cim : (1 <= length (regions_of base cim) <= 2)%nat.
Proof. unfold regions_of. destruct (0 <? _); cbn; lia. Qed.

Definition t0_layout (cim : bytes) : bytes :=
  place (Z.to_nat 6656) (side1 cim) (place 0 (side0 cim) (repeatZ 13312 0)).

Lemma length_repeatZ n b : length (repeatZ n b) = Z.to_nat n.
Proof. apply length_replicate. Qed.

Lemma sysgen_t0_layout cim : zlength cim <= 9984 -> sysgen_t0 cim = Ret (t0_layout cim).
Proof.
  intros H. unfold sysgen_t0, t0_layout, TOTAL, SIDE1_SIZE, GAP_SIZE, SIDE0_SIZE in *.
  change (26 * 128 + 26 * 128 + 26 * 256) with 13312. change (26 * 128 + 26 * 256) with 9984.
  change (26 * 128 + 26 * 128) with 6656. change (26 * 128) with 3328 in *.
  rewrite (proj2 (Z.ltb_ge _ _)) by done. f_equal.
  destruct (side_lengths cim) as (H0 & H1 & _). unfold side0, side1, SIDE0_SIZE in *. change (26 * 128) with 3328 in *.
  set (s0 := takeZ (Z.min (zlength cim) 3328) cim) in *. set (s1 := dropZ 3328 cim) in *.
  fold (repeatZ 13312 0). pose proof (length_repeatZ 13312 0). pose proof (zlength_pos cim).
  assert (slice_set 0 (Z.to_nat (Z.min (zlength cim) 3328)) s0 (repeatZ 13312 0) = place 0 s0 (repeatZ 13312 0)) as ->.
  { unfold place. f_equal. unfold zlength in *. lia. }
  destruct (Z.ltb_spec 3328 (zlength cim)).
  - unfold place at 2. f_equal. unfold zlength in *. lia.
  - assert (s1 = []) as -> by (apply nil_length_inv; unfold zlength in *; lia).
    rewrite place_nil; [done|]. unfold zlength in *. rewrite length_place; lia.
Qed.

(** ** Loading the HEX file *)

(** Side 0 and side 1, laid over a stretch of zeros, are the layout. *)
Lemma load_layout a cim (A B : bytes) : a = zlength A -> zlength cim <= 9984 ->
  place (Z.to_nat (a + 6656)) (side1 cim) (place (Z.to_nat a) (side0 cim) (A ++ repeatZ 13312 0 ++ B)) =
  A ++ t0_layout cim ++ B.
Proof.
  intros -> H. destruct (side_lengths cim) as (H0 & H1 & _). pose proof (zlength_pos cim).
  pose proof (length_repeatZ 13312 0). unfold t0_layout, zlength in *.
  rewrite (place_middle _ 0) by lia. rewrite (place_middle _ (Z.to_nat 6656)); [done|lia|].
  rewrite length_place; lia.
Qed.

Lemma length_t0_layout cim : zlength cim <= 9984 -> zlength (t0_layout cim) = 13312.
Proof.
  intros H. destruct (side_lengths cim) as (H0 & H1 & _). pose proof (zlength_pos cim).
  pose proof (length_repeatZ 13312 0). unfold t0_layout, zlength in *.
  rewrite !length_place by (rewrite ?length_place by lia; lia). lia.
Qed.

(** Byte [i] of bios.cim in the layout. *)
Lemma t0_lookup cim i : zlength cim <= 9984 -> (i < length cim)%nat ->
  t0_layout cim !! payload_pos i = cim !! i.
Proof.
  intros H Hi. destruct (side_lengths cim) as (H0 & H1 & H2). pose proof (length_repeatZ 13312 0) as Hr.
  unfold zlength in *. rewrite <- H2 at 2. unfold t0_layout, place, payload_pos.
  destruct (Nat.ltb_spec i 3328).
  - rewrite lookup_slice_set_lt; [|lia|].
    + rewrite lookup_slice_set_in by lia. rewrite Nat.sub_0_r. by rewrite lookup_app_l by lia.
    + rewrite length_slice_set by lia. lia.
  - rewrite lookup_slice_set_in; [|rewrite length_slice_set by lia; lia|lia].
    rewrite lookup_app_r by lia. f_equal. lia.
Qed.

(** The lines of the HEX file as blocks. *)
Definition sysgen_blocks (validator cim : bytes) : list (Z * list str * bytes) :=
  let data addr d := (addr, sysgen_ihex_data (length d) addr d 16 0, d) in
  [data COM_BASE validator; data T0_ADDR (side0 cim); data 24320 (side1 cim)].

Lemma sysgen_hex_text cim : zlength cim <= 9984 ->
  exists v ls, build_validator (Z.land (zsum cim) 65535) (regions_of T0_ADDR cim) = Ret v /\
    all_bytes v /\ zlength v <= 135 /\
    ls = concat (map (fun b => snd (fst b)) (sysgen_blocks v cim)) ++ [cpm_eof] /\
    sysgen_hex cim = Ret (join [13; 10] ls ++ [13; 10], join [13] ls ++ [13]).
Proof.
  intros H. destruct (build_validator_ok (Z.land (zsum cim) 65535) (regions_of T0_ADDR cim)) as (v & Hv & _ & Hb & Hl).
  pose proof (length_regions_of T0_ADDR cim). exists v. eexists. split_and!; [done|done|unfold zlength; lia|done|].
  unfold sysgen_hex. rewrite (proj2 (Z.ltb_ge _ _)) by done. fold (regions_of T0_ADDR cim). rewrite Hv.
  cbn [mbind outcome_bind]. fold (side0 cim) (side1 cim). change (T0_ADDR + SIDE0_SIZE + GAP_SIZE) with 24320.
  assert ((if SIDE0_SIZE <? zlength cim then sysgen_ihex_data (length (side1 cim)) 24320 (side1 cim) 16 0 else []) =
          sysgen_ihex_data (length (side1 cim)) 24320 (side1 cim) 16 0) as ->.
  { destruct (Z.ltb_spec SIDE0_SIZE (zlength cim)) as [|Hs]; [done|].
    destruct (side_lengths cim) as (_ & H1 & _). unfold SIDE0_SIZE in Hs. change (26 * 128) with 3328 in Hs.
    assert (side1 cim = []) as -> by (apply nil_length_inv; unfold zlength in *; lia). done. }
  unfold sysgen_blocks. cbn [map concat fst snd]. rewrite app_nil_r, <- !app_assoc. done.
Qed.

Lemma sysgen_blocks_fit v cim base n : all_bytes v -> zlength v <= 135 -> all_bytes cim -> zlength cim <= 9984 ->
  base <= 256 -> 30976 <= base + n ->
  Forall (fun b => block (fst (fst b)) (snd (fst b)) (snd b) /\ base <= fst (fst b) /\
                   fst (fst b) + zlength (snd b) <= base + n) (sysgen_blocks v cim).
Proof.
  intros Hv Hl Hb Hc H1 H2. destruct (side_lengths cim) as (E0 & E1 & _). destruct (sides_bytes cim Hb) as [B0 B1].
  unfold sysgen_blocks, COM_BASE, T0_ADDR. pose proof (zlength_pos cim). pose proof (zlength_pos v).
  rewrite !Forall_cons. cbn [fst snd]. split_and!; try lia; try (apply sysgen_block; (done || lia)). constructor.
Qed.

(** ** mk_cpm56.py *)

Lemma set_range_place a d l : 0 <= a -> set_range a (a + zlength d) d l = place (Z.to_nat a) d l.
Proof. intros H. unfold set_range, place. f_equal. unfold zlength. lia. Qed.

(** The patched image keeps its length and everything before track 0. *)
Lemma patch_com_front com cim : 24064 <= zlength com ->
  zlength (patch_com com cim) = zlength com /\
  take (Z.to_nat T0_FILE_OFFSET) (patch_com com cim) = take (Z.to_nat T0_FILE_OFFSET) com.
Proof.
  intros Hl. assert (Hset : forall a d l, 17408 <= a -> a + zlength d <= zlength l ->
    zlength (set_range a (a + zlength d) d l) = zlength l /\
    take (Z.to_nat 17408) (set_range a (a + zlength d) d l) = take (Z.to_nat 17408) l).
  { intros a d l H1 H2. rewrite set_range_place by lia. unfold zlength in *. pose proof (Zle_0_nat (length d)).
    rewrite length_place by lia. split; [done|].
    rewrite place_eq, take_app_le by (rewrite length_take; lia). rewrite take_take. f_equal. lia. }
  destruct (side_lengths cim) as (E0 & E1 & _). pose proof (zlength_pos cim).
  unfold patch_com, T0_FILE_OFFSET, LOADP, TPA, GAP_SIZE, SIDE1_SIZE, SIDE0_SIZE in *.
  change (2304 - 256 + 15360) with 17408. change (26 * 128) with 3328. change (26 * 256) with 6656.
  change (17408 + 3328) with 20736. change (20736 + 3328) with 24064.
  unfold side0, SIDE0_SIZE in E0. change (26 * 128) with 3328 in E0.
  set (s0 := takeZ (Z.min (zlength cim) 3328) cim) in *. rewrite <- E0.
  destruct (Hset 17408 s0 com) as [L1 T1]; [lia|lia|].
  set (com1 := set_range 17408 (17408 + zlength s0) s0 com) in *.
  assert (zlength (repeatZ 3328 0) = 3328) as Er by (unfold zlength; rewrite length_repeatZ; lia).
  destruct (Hset 20736 (repeatZ 3328 0) com1) as [L2 T2]; [lia|lia|]. rewrite Er in L2, T2. change (20736 + 3328) with 24064 in *.
  fold (repeatZ 3328 0). set (com2 := set_range 20736 24064 (repeatZ 3328 0) com1) in *.
  destruct (3328 <? zlength cim); [|split; [lia|by rewrite T2, T1]]. rewrite L2, L1.
  set (s1 := dropZ 3328 cim). set (e := Z.min (24064 + zlength s1) (zlength com)).
  pose proof (zlength_pos s1). rewrite (upto_take (e - 24064)) by lia.
  assert (zlength (takeZ (e - 24064) s1) = e - 24064) as Et by (rewrite zlength_take; lia).
  destruct (Hset 24064 (takeZ (e - 24064) s1) com2) as [L3 T3]; [lia|lia|]. rewrite Et in L3, T3.
  replace (24064 + (e - 24064)) with e in * by lia.
  set (com3 := set_range 24064 e (takeZ (e - 24064) s1) com2) in *. rewrite L3, L2, L1.
  destruct (Z.ltb_spec e (Z.min (24064 + 6656) (zlength com))) as [Hz|]; [|split; [lia|by rewrite T3, T2, T1]].
  set (z := Z.min (24064 + 6656) (zlength com)) in *.
  assert (zlength (repeatZ (z - e) 0) = z - e) as Ez by (unfold zlength; rewrite length_repeatZ; lia).
  destruct (Hset e (repeatZ (z - e) 0) com3) as [L4 T4]; [lia|lia|]. rewrite Ez in L4, T4.
  replace (e + (z - e)) with z in * by lia. fold (repeatZ (z - e) 0). split; [by rewrite L4, L3, L2|by rewrite T4, T3, T2, T1].
Qed.

Lemma place_take_drop a d (l : bytes) : (length d <= a)%nat -> (a <= length l)%nat ->
  take a (place 0 d l) = place 0 d (take a l) /\ drop a (place 0 d l) = drop a l.
Proof.
  intros H1 H2. pose proof (place_middle 0 0 d [] (take a l) (drop a l) eq_refl) as H.
  cbn [app] in H. rewrite take_drop in H. rewrite H by (rewrite length_take; lia).
  assert (length (place 0 d (take a l)) = a) as E by (rewrite length_place; rewrite length_take; lia).
  split; [by apply take_app_length'|by apply drop_app_length'].
Qed.

(** The tail of a file is a block of its own. *)
Lemma tail_block com : 17408 <= zlength com -> zlength com <= 65280 -> all_bytes com ->
  block 17664 (map (fun offset => ihex_record 0 (TPA + offset) (takeZ 32 (dropZ offset com)))
    (range_step (length com) T0_FILE_OFFSET (zlength com) 32)) (drop (Z.to_nat T0_FILE_OFFSET) com).
Proof.
  intros H1 H2 H3. unfold TPA. change T0_FILE_OFFSET with 17408.
  assert (0 <= 256 /\ 256 + zlength com <= 65536) as Ha by lia.
  rewrite (map_pieces 256 32 com ltac:(lia) Ha H3) by (try lia; intros; by apply ihex_record_line).
  rewrite <- dropZ_drop. change 17664 with (256 + 17408).
  apply (stepped_block 256 32 com ltac:(lia) Ha H3); [lia|]. unfold zlength. lia.
Qed.

Lemma place_all_bytes off d l : all_bytes d -> all_bytes l -> all_bytes (place off d l).
Proof. apply slice_set_all. Qed.

Lemma patch_com_bytes com cim : all_bytes com -> all_bytes cim -> all_bytes (patch_com com cim).
Proof.
  intros H1 H2. unfold patch_com, set_range, upto.
  repeat match goal with |- context [if ?c then _ else _] => destruct c end;
    repeat (apply slice_set_all; rewrite ?takeZ_take, ?dropZ_drop;
            [first [by apply zeros_all|by apply Forall_take|by apply Forall_take, Forall_drop]|]); done.
Qed.

(** ** Properties *)

(** What mk_sysgen_hex.py and mk_sysgen_t0.py write, and what loading it gives. *)
Lemma sysgen_hex_loads cim base (M Q : bytes) :
  all_bytes cim -> base <= 256 -> base + zlength M = T0_ADDR -> zlength cim <= 9984 ->
  exists t0 v crlf cr,
    sysgen_t0 cim = Ret t0 /\ zlength t0 = 13312 /\
    (forall i, (i < length cim)%nat -> t0 !! payload_pos i = cim !! i) /\
    build_validator (u16 (zsum cim)) (regions_of T0_ADDR cim) = Ret v /\
    sysgen_hex cim = Ret (crlf, cr) /\
    forall text, text = crlf \/ text = cr ->
      apply_hex base (M ++ repeatZ 13312 0 ++ Q) [text] = Ret (place (Z.to_nat (256 - base)) v M ++ t0 ++ Q).
Proof.
  intros Hb Hbase HM H. destruct (sysgen_hex_text cim H) as (v & ls & Hv & Hvb & Hvl & Hls & Htext).
  exists (t0_layout cim), v, (join [13; 10] ls ++ [13; 10]), (join [13] ls ++ [13]).
  split_and!; [by apply sysgen_t0_layout|by apply length_t0_layout|by intros i Hi; apply t0_lookup|done|done|].
  intros text Ht. assert (zlength (repeatZ 13312 0) = 13312) as Er by (unfold zlength; rewrite length_repeatZ; lia).
  change T0_ADDR with 17664 in HM. pose proof (zlength_pos Q). pose proof (zlength_pos v).
  pose proof (sysgen_blocks_fit v cim base (zlength (M ++ repeatZ 13312 0 ++ Q)) Hvb Hvl Hb H Hbase
    ltac:(rewrite !zlength_app; lia)) as Hfit.
  assert (exists sep, newline sep /\ text = join sep ls ++ sep) as (sep & Hsep & ->).
  { destruct Ht as [-> | ->]; [exists [13; 10]; split; [by left|done]|exists [13]; split; [by right; left|done]]. }
  rewrite Hls, blocks_text by (done || by right). f_equal. unfold sysgen_blocks, laid, COM_BASE, T0_ADDR.
  cbn [foldl fst snd]. rewrite <- (app_nil_l M), <- app_assoc at 1. cbn [app].
  pose proof (place_middle (Z.to_nat (256 - base)) (Z.to_nat (256 - base)) v [] M (repeatZ 13312 0 ++ Q)) as Hp.
  cbn [app length] in Hp. rewrite Hp by (unfold zlength in *; lia).
  replace (24320 - base) with (17664 - base + 6656) by lia.
  rewrite load_layout; [done| |done]. unfold zlength in *. rewrite length_place by lia. lia.
Qed.

(** The SYSGEN HEX file loads as the track 0 image.  For a bios.cim of at
    most 9984 bytes, both texts of mk_sysgen_hex.py (CR LF and CR), loaded into
    memory that is zero from 4500h for 13312 bytes, put the validator at 0100h and
    exactly the image of mk_sysgen_t0.py at 4500h, and touch nothing else; the
    image is side 0, the gap of zeros and side 1.  A larger bios.cim makes both
    scripts end with status 1. *)
Lemma sysgen_hex_loads_track0 cim base (M Q : bytes) :
  all_bytes cim -> base <= 256 -> base + zlength M = T0_ADDR ->
  (zlength cim <= 9984 ->
    exists t0 v crlf cr,
      sysgen_t0 cim = Ret t0 /\ zlength t0 = 13312 /\
      (forall i, (i < length cim)%nat -> t0 !! payload_pos i = cim !! i) /\
      build_validator (u16 (zsum cim)) (regions_of T0_ADDR cim) = Ret v /\
      sysgen_hex cim = Ret (crlf, cr) /\
      forall text, text = crlf \/ text = cr ->
        apply_hex base (M ++ repeatZ 13312 0 ++ Q) [text] = Ret (place (Z.to_nat (256 - base)) v M ++ t0 ++ Q)) /\
  (9984 < zlength cim -> sysgen_hex cim = Raise (SystemExit 1) /\ sysgen_t0 cim = Raise (SystemExit 1)).
Proof.
  intros Hb Hbase HM. split; [by apply sysgen_hex_loads|].
  intros H. unfold sysgen_hex, sysgen_t0. change (SIDE0_SIZE + SIDE1_SIZE) with 9984. by rewrite (proj2 (Z.ltb_lt _ _)).
Qed.

(** Byte [i] of bios.cim in the patched image. *)
Lemma patch_com_lookup com cim i : 24064 <= zlength com -> 20736 + zlength cim <= zlength com -> (i < length cim)%nat ->
  patch_com com cim !! (Z.to_nat 17408 + payload_pos i)%nat = cim !! i.
Proof.
  intros Hl Hf Hi. destruct (side_lengths cim) as (E0 & E1 & Ec). pose proof (zlength_pos cim).
  transitivity ((side0 cim ++ side1 cim) !! i); [|by rewrite Ec]. unfold payload_pos, patch_com, T0_FILE_OFFSET, LOADP, TPA, GAP_SIZE, SIDE1_SIZE.
  fold (side0 cim) (side1 cim). unfold SIDE0_SIZE.
  change (2304 - 256 + 15360) with 17408. change (26 * 128) with 3328. change (26 * 256) with 6656.
  change (17408 + 3328) with 20736. change (20736 + 3328) with 24064. fold (repeatZ 3328 0).
  pose proof (length_repeatZ 3328 0) as Hr. set (s0 := side0 cim) in *. set (s1 := side1 cim) in *.
  rewrite <- E0. rewrite set_range_place by lia. set (com1 := place (Z.to_nat 17408) s0 com).
  assert (length com1 = length com) as L1 by (unfold com1, zlength in *; rewrite length_place; lia).
  assert (set_range 20736 24064 (repeatZ 3328 0) com1 = place (Z.to_nat 20736) (repeatZ 3328 0) com1) as ->.
  { by rewrite <- set_range_place by lia. }
  set (com2 := place (Z.to_nat 20736) (repeatZ 3328 0) com1).
  assert (length com2 = length com) as L2 by (unfold com2, zlength in *; rewrite length_place; lia).
  assert (Hlow : forall j, (j < Z.to_nat 20736)%nat -> com2 !! j = com1 !! j).
  { intros j Hj. unfold com2, place. rewrite lookup_slice_set_lt; [done|lia|unfold zlength in *; lia]. }
  destruct (Z.ltb_spec 3328 (zlength cim)) as [Hbig|Hsmall].
  2: { rewrite (proj2 (Nat.ltb_lt _ _)) by (unfold zlength in *; lia).
       rewrite Hlow by (unfold zlength in *; lia). unfold com1, place.
       rewrite lookup_slice_set_in by (unfold zlength in *; lia). rewrite lookup_app_l by (unfold zlength in *; lia).
       f_equal. lia. }
  replace (Z.min (24064 + zlength s1) (zlength com2)) with (24064 + zlength s1)
    by (unfold zlength in *; rewrite L2; lia).
  replace (24064 + zlength s1 - 24064) with (zlength s1) by lia.
  assert (upto (zlength s1) s1 = s1) as -> by (rewrite upto_take, takeZ_take by lia; apply take_ge; unfold zlength; lia).
  rewrite set_range_place by lia. set (com3 := place (Z.to_nat 24064) s1 com2).
  assert (length com3 = length com) as L3 by (unfold com3, zlength in *; rewrite length_place; lia).
  assert (Hval : com3 !! (Z.to_nat 17408 + if (i <? 3328)%nat then i else (i + 3328)%nat)%nat = (s0 ++ s1) !! i).
  { unfold com3, place. destruct (Nat.ltb_spec i 3328).
    - rewrite lookup_slice_set_lt; [|lia|unfold zlength in *; lia]. rewrite Hlow by lia. unfold com1, place.
      rewrite lookup_slice_set_in by (unfold zlength in *; lia). rewrite lookup_app_l by (unfold zlength in *; lia).
      f_equal. lia.
    - rewrite lookup_slice_set_in by (unfold zlength in *; lia). rewrite lookup_app_r by (unfold zlength in *; lia).
      f_equal. unfold zlength in *. lia. }
  destruct (_ <? _); [|done]. unfold set_range. rewrite <- Hval.
  apply lookup_slice_set_lt; [|unfold zlength in *; lia].
  destruct (Nat.ltb_spec i 3328); unfold zlength in *; lia.
Qed.

(** The patched CPM56.COM and its HEX file agree.  From an original .COM that
    reaches to the end of the gap and fits in memory, mk_cpm56.py writes a .COM of
    the same length, which starts with the validator for bios.cim, is the
    original between it and track 0, and has bios.cim in track 0's two sides when
    the original reaches far enough for it; and the HEX file, laid over the
    original .COM as MLOAD does, gives exactly the written .COM. *)
Lemma cpm56_com_and_hex_agree com cim :
  all_bytes com -> all_bytes cim -> 24064 <= zlength com -> zlength com <= 65280 ->
  exists v com' hex,
    build_validator (u16 (zsum cim)) (regions_of T0_ADDR cim) = Ret v /\
    cpm56 com cim = Ret (com', hex) /\
    zlength com' = zlength com /\ take (Z.to_nat 17408) com' = place 0 v (take (Z.to_nat 17408) com) /\
    (20736 + zlength cim <= zlength com -> forall i, (i < length cim)%nat ->
       com' !! (Z.to_nat 17408 + payload_pos i)%nat = cim !! i) /\
    apply_hex 256 com [hex] = Ret com'.
Proof.
  intros Hcom Hcim Hl Hu.
  destruct (build_validator_ok (u16 (zsum cim)) (regions_of T0_ADDR cim)) as (v & Hv & _ & Hvb & Hvl).
  pose proof (length_regions_of T0_ADDR cim). destruct (patch_com_front com cim Hl) as [Lp Tp].
  change T0_FILE_OFFSET with 17408 in Tp. set (p := patch_com com cim) in *.
  assert (set_range 0 (zlength v) v p = place 0 v p) as Eset
    by (rewrite <- (set_range_place 0) by lia; by rewrite Z.add_0_l).
  assert (length (place 0 v p) = length com) as Lf by (unfold zlength in *; rewrite length_place; lia).
  destruct (place_take_drop (Z.to_nat 17408) v p) as [Tf Df]; [lia|unfold zlength in *; lia|].
  exists v, (place 0 v p). eexists. split_and!; [done| | | | |].
  - unfold cpm56. change (TPA + T0_FILE_OFFSET) with T0_ADDR.
    change (Z.land (zsum cim) 65535) with (u16 (zsum cim)). fold (regions_of T0_ADDR cim). rewrite Hv. cbn [mbind outcome_bind]. fold p. rewrite Eset. reflexivity.
  - unfold zlength. by rewrite Lf.
  - by rewrite Tf, Tp.
  - intros Hf i Hi. rewrite <- (patch_com_lookup com cim i Hl Hf Hi). fold p. unfold place.
    apply lookup_slice_set_ge; unfold zlength in *; try lia; unfold payload_pos; destruct (i <? 3328)%nat; lia.
  - pose proof (blocks_text [13; 10] cpm_eof
      [(TPA, cpm56_ihex_data TPA v 32, v);
       (17664, map (fun offset => ihex_record 0 (TPA + offset) (takeZ 32 (dropZ offset (place 0 v p))))
          (range_step (length (place 0 v p)) T0_FILE_OFFSET (zlength (place 0 v p)) 32),
        drop (Z.to_nat T0_FILE_OFFSET) (place 0 v p))] 256 com ltac:(by left) ltac:(by right)) as Hbt.
    cbn [map concat fst snd] in Hbt. rewrite app_nil_r, <- app_assoc in Hbt.
    change (ihex_record 0 0 []) with cpm_eof. rewrite Hbt; clear Hbt.
    + cbn [foldl laid fst snd]. f_equal. unfold laid. cbn [fst snd]. unfold TPA. rewrite Z.sub_diag.
      change (17664 - 256) with 17408. change T0_FILE_OFFSET with 17408. change (Z.to_nat 0) with 0%nat.
      rewrite place_eq. destruct (place_take_drop (Z.to_nat 17408) v com) as [Tc _]; [lia|unfold zlength in *; lia|].
      rewrite Tc, <- Tp, <- Tf.
      rewrite (drop_ge (place 0 v com)).
      * by rewrite app_nil_r, take_drop.
      * rewrite length_drop, Lf. unfold zlength in *. rewrite length_place; lia.
    + assert (all_bytes (place 0 v p)) as Hpb by (apply place_all_bytes; [done|by apply patch_com_bytes]).
      rewrite !Forall_cons. cbn [fst snd]. change T0_FILE_OFFSET with 17408. unfold TPA.
      assert (zlength (drop (Z.to_nat 17408) (place 0 v p)) = zlength com - 17408) as Ed
        by (unfold zlength in *; rewrite length_drop, Lf; lia).
      pose proof (zlength_pos v).
      split_and!; try lia; [apply cpm56_block; [lia|unfold zlength in *; lia|done]|unfold zlength in *; lia| |constructor].
      apply (tail_block (place 0 v p)); [unfold zlength in *; lia|unfold zlength in *; lia|done].
Qed.

(** C14: the images for SYSGEN.  For a bios.cim of at most 9984 bytes, both texts of
    mk_sysgen_hex.py (CR LF and CR), loaded into memory that is zero from 4500h for
    13312 bytes, put the validator at 0100h and exactly the image of
    mk_sysgen_t0.py at 4500h, and touch nothing else; the image is side 0, the gap
    of zeros and side 1; a larger bios.cim makes both scripts end with status 1.
    From an original .COM that reaches to the end of the gap and fits in memory,
    mk_cpm56.py writes a .COM of the same length, which starts with the validator
    for bios.cim, is the original between it and track 0, and has bios.cim in track
    0's two sides when the original reaches far enough for it; and its HEX file,
    laid over the original .COM as MLOAD does, gives exactly the written .COM. *)
Theorem system_images_are_written :
  (forall cim base (M Q : bytes),
  all_bytes cim -> base <= 256 -> base + zlength M = T0_ADDR ->
  (zlength cim <= 9984 ->
    exists t0 v crlf cr,
      sysgen_t0 cim = Ret t0 /\ zlength t0 = 13312 /\
      (forall i, (i < length cim)%nat -> t0 !! payload_pos i = cim !! i) /\
      build_validator (u16 (zsum cim)) (regions_of T0_ADDR cim) = Ret v /\
      sysgen_hex cim = Ret (crlf, cr) /\
      forall text, text = crlf \/ text = cr ->
        apply_hex base (M ++ repeatZ 13312 0 ++ Q) [text] = Ret (place (Z.to_nat (256 - base)) v M ++ t0 ++ Q)) /\
  (9984 < zlength cim -> sysgen_hex cim = Raise (SystemExit 1) /\ sysgen_t0 cim = Raise (SystemExit 1))) /\
  (forall com cim,
  all_bytes com -> all_bytes cim -> 24064 <= zlength com -> zlength com <= 65280 ->
  exists v com' hex,
    build_validator (u16 (zsum cim)) (regions_of T0_ADDR cim) = Ret v /\
    cpm56 com cim = Ret (com', hex) /\
    zlength com' = zlength com /\ take (Z.to_nat 17408) com' = place 0 v (take (Z.to_nat 17408) com) /\
    (20736 + zlength cim <= zlength com -> forall i, (i < length cim)%nat ->
       com' !! (Z.to_nat 17408 + payload_pos i)%nat = cim !! i) /\
    apply_hex 256 com [hex] = Ret com').
Proof. split; [exact sysgen_hex_loads_track0|exact cpm56_com_and_hex_agree]. Qed.

Lemma system_images_are_written_witness :
  (exists t0 v crlf cr, sysgen_t0 [243; 49] = Ret t0 /\ zlength t0 = 13312 /\
    sysgen_hex [243; 49] = Ret (crlf, cr) /\
    apply_hex 256 (repeatZ 17408 0 ++ repeatZ 13312 0 ++ []) [cr] =
      Ret (place (Z.to_nat (256 - 256)) v (repeatZ 17408 0) ++ t0 ++ [])) /\
  (exists com' hex, cpm56 (repeatZ 30720 201) [243; 49] = Ret (com', hex) /\
    zlength com' = zlength (repeatZ 30720 201) /\ com' !! (Z.to_nat 17408 + 1)%nat = Some 49 /\
    apply_hex 256 (repeatZ 30720 201) [hex] = Ret com').
Proof.
  split.
  { destruct (proj1 ((proj1 system_images_are_written) [243; 49] 256 (repeatZ 17408 0) [] ltac:(decided) ltac:(lia)
    ltac:(unfold zlength; rewrite length_repeatZ; reflexivity)) ltac:(vm_compute; discriminate))
    as (t0 & v & crlf & cr & H1 & H2 & _ & _ & H3 & H4).
  exists t0, v, crlf, cr. split_and!; [exact H1|exact H2|exact H3|]. apply H4. by right. }
  { assert (zlength (repeatZ 30720 201) = 30720) as E by (unfold zlength; rewrite length_repeatZ; reflexivity).
  destruct ((proj2 system_images_are_written) (repeatZ 30720 201) [243; 49]
    ltac:(apply Forall_replicate; unfold is_byte; lia) ltac:(decided) ltac:(rewrite E; lia) ltac:(rewrite E; lia))
    as (v & com' & hex & _ & H1 & H2 & _ & H3 & H4).
  exists com', hex. split_and!; [exact H1|exact H2| |exact H4].
  apply (H3 ltac:(rewrite E; vm_compute; discriminate) 1%nat ltac:(cbn; lia)). }
Defined.
