(* ===== verification/Z80.v ===== *)
(** * The generated validator, run.

    mk_sysgen_hex.py and mk_cpm56.py write Z80 code as bytes ([build_validator]).
    This file runs it: [step] is the documented meaning of the instructions the
    two scripts name in their comments, with memory as a function from addresses
    to bytes that the code does not write.  A call to address 5 is CP/M's BDOS:
    function 2 prints the character in E, and what the call leaves in the
    registers and flags is the parameter [bdos]. *)

From S2P Require Import Prelude Imd Hex Sysgen.
#[local] Open Scope Z_scope.

(** ** The machine *)

Record cpu := Cpu {
  rA : Z; rD : Z; rE : Z;
  rBC : Z; rHL : Z;
  zf : bool; cf : bool;
  pc : Z;
  printed : str
}.

Inductive result := Running (s : cpu) | Returned (text : str) | Stuck.

Section Machine.
Context (bdos : cpu -> cpu) (mem : Z -> Z).

(** The target of a relative jump whose operand is at [p + 1]. *)
Definition relative (p : Z) : Z :=
  let d := mem (u16 (p + 1)) in u16 (p + 2 + (if d <? 128 then d else d - 256)).

Definition exec (op : Z) (s : cpu) : result :=
  let p := pc s in
  let n := mem (u16 (p + 1)) in
  let nn := mem (u16 (p + 1)) + 256 * mem (u16 (p + 2)) in
  let (a, d, e, bc, hl, z, c, _, out) := s in
  let next k := u16 (p + k) in
  match op with
  | 17 => Running (Cpu a (u8 (Z.shiftr nn 8)) (u8 nn) bc hl z c (next 3) out)
  | 33 => Running (Cpu a d e bc nn z c (next 3) out)
  | 1 => Running (Cpu a d e nn hl z c (next 3) out)
  | 126 => Running (Cpu (mem hl) d e bc hl z c (next 1) out)
  | 131 => Running (Cpu (u8 (a + e)) d e bc hl (u8 (a + e) =? 0) (255 <? a + e) (next 1) out)
  | 95 => Running (Cpu a d a bc hl z c (next 1) out)
  | 48 => Running (Cpu a d e bc hl z c (if c then next 2 else relative p) out)
  | 20 => Running (Cpu a (u8 (d + 1)) e bc hl (u8 (d + 1) =? 0) c (next 1) out)
  | 35 => Running (Cpu a d e bc (u16 (hl + 1)) z c (next 1) out)
  | 11 => Running (Cpu a d e (u16 (bc - 1)) hl z c (next 1) out)
  | 120 => Running (Cpu (u8 (Z.shiftr bc 8)) d e bc hl z c (next 1) out)
  | 177 => let a := Z.lor a (u8 bc) in Running (Cpu a d e bc hl (a =? 0) false (next 1) out)
  | 32 => Running (Cpu a d e bc hl z c (if z then next 2 else relative p) out)
  | 123 => Running (Cpu e d e bc hl z c (next 1) out)
  | 122 => Running (Cpu d d e bc hl z c (next 1) out)
  | 254 => Running (Cpu a d e bc hl (a =? n) (a <? n) (next 2) out)
  | 30 => Running (Cpu a d n bc hl z c (next 2) out)
  | 14 => Running (Cpu a d e (256 * Z.shiftr bc 8 + n) hl z c (next 2) out)
  | 205 =>
      if nn =? 5 then
        let r := bdos s in
        Running (Cpu (rA r) (rD r) (rE r) (rBC r) (rHL r) (zf r) (cf r) (next 3)
                     (if u8 bc =? 2 then out ++ [e] else out))
      else Stuck
  | 201 => Returned out
  | _ => Stuck
  end.

Definition step (s : cpu) : result := exec (mem (pc s)) s.

Fixpoint run (fuel : nat) (s : cpu) : result :=
  match fuel with
  | O => Running s
  | S fuel => match step s with Running s' => run fuel s' | r => r end
  end.

(** [s] becomes [s'] in [k] instructions. *)
Definition goes (k : nat) (s s' : cpu) : Prop := forall fuel, run (k + fuel) s = run fuel s'.

Lemma goes_refl s : goes 0 s s.
Proof. intros fuel. done. Qed.

Lemma goes_trans j k s1 s2 s3 : goes j s1 s2 -> goes k s2 s3 -> goes (j + k) s1 s3.
Proof. intros H1 H2 fuel. rewrite <- Nat.add_assoc, H1. apply H2. Qed.

Lemma goes_step k s s1 s2 : step s = Running s1 -> goes k s1 s2 -> goes (S k) s s2.
Proof. intros H1 H2 fuel. cbn. rewrite H1. apply H2. Qed.

(** [code] is in memory at [p]. *)
Fixpoint code_at (p : Z) (code : list Z) : Prop :=
  match code with [] => True | b :: rest => mem p = b /\ code_at (p + 1) rest end.

Lemma code_at_app p c1 c2 : code_at p (c1 ++ c2) <-> code_at p c1 /\ code_at (p + zlength c1) c2.
Proof.
  revert p. induction c1 as [|b c1 IH]; intros p; cbn [code_at app].
  - unfold zlength. cbn. rewrite Z.add_0_r. tauto.
  - rewrite IH. unfold zlength. cbn [length]. rewrite Nat2Z.inj_succ.
    replace (p + 1 + Z.of_nat (length c1)) with (p + Z.succ (Z.of_nat (length c1))) by lia. tauto.
Qed.

Lemma code_at_nth p code i b : code_at p code -> code !! i = Some b -> mem (p + Z.of_nat i) = b.
Proof.
  revert p i. induction code as [|x code IH]; intros p [|i] H Hi; try done; destruct H as [Hb Hr].
  - injection Hi as ->. by rewrite Z.add_0_r.
  - rewrite <- (IH (p + 1) i Hr Hi). f_equal. lia.
Qed.

Lemma goes_exec k op s s1 s2 : mem (pc s) = op -> exec op s = Running s1 -> goes k s1 s2 -> goes (S k) s s2.
Proof. intros <- H. by apply goes_step. Qed.

Lemma u16_small x : 0 <= x < 65536 -> u16 x = x.
Proof. intros H. rewrite u16_mod. by apply Z.mod_small. Qed.

Lemma next_small p a b c : a + b = c -> 0 <= p + c < 65536 -> u16 (p + a + b) = p + c.
Proof. intros <- H. rewrite <- Z.add_assoc. by apply u16_small. Qed.

(** Where the jump at offset [i] of the code goes. *)
Lemma relative_to p code i dsp t : code_at p code -> code !! S i = Some dsp ->
  Z.of_nat i + 2 + (if dsp <? 128 then dsp else dsp - 256) = t ->
  0 <= p + Z.of_nat i + 1 < 65536 -> 0 <= p + t < 65536 -> relative (p + Z.of_nat i) = p + t.
Proof.
  intros Hc Hi <- Hr Ht. unfold relative. rewrite (u16_small (p + Z.of_nat i + 1)) by lia.
  pose proof (code_at_nth _ _ _ _ Hc Hi) as H. replace (p + Z.of_nat i + 1) with (p + Z.of_nat (S i)) by lia.
  rewrite H, u16_small; lia.
Qed.

Ltac jump Hc i t :=
  let k := eval vm_compute in (Z.of_nat i) in
  let F := fresh in
  pose proof (relative_to _ _ i _ t Hc eq_refl eq_refl) as F; change (Z.of_nat i) with k in F;
  rewrite F by lia; clear F.

(** Addresses in the program, as an offset from its start. *)
Ltac addresses :=
  repeat match goal with
  | |- context [u16 (?p + ?a + ?b)] =>
      let c := eval vm_compute in (a + b) in
      rewrite (next_small p a b c) by (first [reflexivity | lia])
  end.

(** One instruction of the code [Hc] puts in memory, the [i]-th byte of it. *)
Ltac ins Hc i :=
  let k := eval vm_compute in (Z.of_nat i) in
  let F := fresh in
  pose proof (code_at_nth _ _ i _ Hc eq_refl) as F; change (Z.of_nat i) with k in F;
  eapply goes_exec; [exact F|unfold exec; cbn [pc]; reflexivity|]; clear F;
  cbn [rA rD rE rBC rHL zf cf printed]; addresses.

(** The value of the [i]-th byte of the code, an operand. *)
Ltac operand Hc i :=
  let k := eval vm_compute in (Z.of_nat i) in
  let F := fresh in
  pose proof (code_at_nth _ _ i _ Hc eq_refl) as F; change (Z.of_nat i) with k in F;
  rewrite ?F; clear F.

Hypothesis bytes_in_memory : forall a, is_byte (mem a).

Lemma or_zero x : 0 <= x < 65536 -> (Z.lor (u8 (Z.shiftr x 8)) (u8 x) =? 0) = (x =? 0).
Proof.
  intros H. rewrite !u8_mod, Z.shiftr_div_pow2 by lia. change (2 ^ 8) with 256.
  destruct (Z.eqb_spec x 0) as [->|Hx]; [done|]. apply Z.eqb_neq. rewrite Z.lor_eq_0_iff. Z.div_mod_to_equations. lia.
Qed.

Lemma sum_step d e b : is_byte d -> is_byte e -> is_byte b ->
  (if 255 <? b + e then u8 (d + 1) else d) * 256 + u8 (b + e) = u16 (d * 256 + e + b).
Proof.
  unfold is_byte. intros Hd He Hb. rewrite u16_mod, !u8_mod. destruct (Z.ltb_spec 255 (b + e)); Z.div_mod_to_equations; lia.
Qed.

(** Once through the loop. *)
Lemma loop_body p a d e bc hl z c out :
  0 <= p -> p + 12 < 65536 -> code_at p build_checksum16_loop -> is_byte d -> is_byte e ->
  exists k a' d' e', (k <= 10)%nat /\ is_byte d' /\ is_byte e' /\
    d' * 256 + e' = u16 (d * 256 + e + mem hl) /\
    let bc' := u16 (bc - 1) in
    goes k (Cpu a d e bc hl z c (p + 0) out)
           (Cpu a' d' e' bc' (u16 (hl + 1)) (bc' =? 0) false (p + if bc' =? 0 then 12 else 0) out).
Proof.
  intros Hp0 Hp Hc Hd He. pose proof (bytes_in_memory hl) as Hb. cbv zeta.
  set (bc' := u16 (bc - 1)).
  assert (0 <= bc' < 65536) as Hbc by (unfold bc'; rewrite u16_mod; apply Z.mod_pos_bound; lia).
  exists (if (255 <? mem hl + e)%Z then 10 else 9)%nat, (Z.lor (u8 (Z.shiftr bc' 8)) (u8 bc')),
    (if 255 <? mem hl + e then u8 (d + 1) else d), (u8 (mem hl + e)).
  split_and!; [destruct (255 <? mem hl + e); lia|destruct (255 <? mem hl + e); [apply u8_range|done]
              |apply u8_range|by apply sum_step|].
  rewrite <- (or_zero bc' Hbc).
  destruct (255 <? mem hl + e) eqn:Hcf.
  - ins Hc 0%nat. ins Hc 1%nat. ins Hc 2%nat. rewrite Hcf. ins Hc 3%nat. ins Hc 5%nat. ins Hc 6%nat. ins Hc 7%nat.
    fold bc'. ins Hc 8%nat. ins Hc 9%nat. ins Hc 10%nat. jump Hc 10%nat 0.
    destruct (_ =? 0); apply goes_refl.
  - ins Hc 0%nat. ins Hc 1%nat. ins Hc 2%nat. rewrite Hcf. ins Hc 3%nat. jump Hc 3%nat 6. ins Hc 6%nat. ins Hc 7%nat.
    fold bc'. ins Hc 8%nat. ins Hc 9%nat. ins Hc 10%nat. jump Hc 10%nat 0.
    destruct (_ =? 0); apply goes_refl.
Qed.

(** The sum of [n] bytes from address [a] on. *)
Fixpoint sum_from (n : nat) (a : Z) : Z :=
  match n with O => 0 | S n => mem a + sum_from n (u16 (a + 1)) end.

Lemma loop_goes p out n : 0 <= p -> p + 12 < 65536 -> code_at p build_checksum16_loop -> Z.of_nat n < 65536 ->
  forall a d e hl z c, is_byte d -> is_byte e ->
  exists k a' d' e' hl' c', (k <= 10 * S n)%nat /\ is_byte d' /\ is_byte e' /\
    d' * 256 + e' = u16 (d * 256 + e + sum_from (S n) hl) /\
    goes k (Cpu a d e (u16 (Z.of_nat (S n))) hl z c (p + 0) out) (Cpu a' d' e' 0 hl' true c' (p + 12) out).
Proof.
  intros Hp0 Hp Hc. induction n as [|n IH]; intros Hn a d e hl z c Hd He;
    match goal with |- context [u16 (Z.of_nat ?m)] => set (bc := u16 (Z.of_nat m)) end;
    destruct (loop_body p a d e bc hl z c out Hp0 Hp Hc Hd He) as (k & a1 & d1 & e1 & Hk & Hd1 & He1 & Hs & Hg).
  - change (u16 (bc - 1)) with 0 in Hg. cbn [Z.eqb] in Hg.
    exists k, a1, d1, e1, (u16 (hl + 1)), false. split_and!; [lia|done|done| |done].
    rewrite Hs. cbn [sum_from]. by rewrite Z.add_0_r.
  - assert (u16 (bc - 1) = u16 (Z.of_nat (S n))) as Hbc.
    { unfold bc. unfold Z.sub. rewrite u16_add_l. f_equal. lia. }
    rewrite Hbc in Hg. cbv zeta in Hg.
    assert ((u16 (Z.of_nat (S n)) =? 0) = false) as E by (apply Z.eqb_neq; rewrite u16_small; lia).
    rewrite E in Hg.
    destruct (IH ltac:(lia) a1 d1 e1 (u16 (hl + 1)) false false Hd1 He1) as (k2 & a2 & d2 & e2 & hl2 & c2 & Hk2 & Hd2 & He2 & Hs2 & Hg2).
    exists (k + k2)%nat, a2, d2, e2, hl2, c2. split_and!; [lia|done|done| |by eapply goes_trans].
    rewrite Hs2, Hs, u16_add_l. f_equal. cbn [sum_from]. lia.
Qed.

Lemma word_of x : Z.land x 255 + 256 * Z.land (Z.shiftr x 8) 255 = u16 x.
Proof.
  fold (u8 x) (u8 (Z.shiftr x 8)). rewrite !u8_mod, u16_mod, Z.shiftr_div_pow2 by lia. change (2 ^ 8) with 256.
  Z.div_mod_to_equations. lia.
Qed.

(** The bytes a region's loop reads: a count of 0 is 65536. *)
Definition span (len : Z) : Z := if u16 len =? 0 then 65536 else u16 len.
Definition region_sum (r : Z * Z) : Z := sum_from (Z.to_nat (span r.2)) (u16 r.1).

Lemma span_range len : 1 <= span len <= 65536 /\ u16 (span len) = u16 len.
Proof.
  unfold span. assert (0 <= u16 len < 65536) as H by (rewrite u16_mod; apply Z.mod_pos_bound; lia).
  destruct (Z.eqb_spec (u16 len) 0) as [E|E]; [rewrite E; split; [lia|reflexivity]|].
  split; [lia|]. by apply u16_small.
Qed.

Lemma region_goes p out r a d e bc hl z c :
  0 <= p -> p + 18 < 65536 -> code_at p (region_code r) -> is_byte d -> is_byte e ->
  exists k a' d' e' hl' c', (k <= 2 + 10 * Z.to_nat (span r.2))%nat /\ is_byte d' /\ is_byte e' /\
    d' * 256 + e' = u16 (d * 256 + e + region_sum r) /\
    goes k (Cpu a d e bc hl z c (p + 0) out) (Cpu a' d' e' 0 hl' true c' (p + 18 + 0) out).
Proof.
  intros Hp0 Hp Hc Hd He. destruct r as [addr len]. unfold region_sum. cbn [fst snd].
  destruct (span_range len) as [Hs Hu]. assert (exists n, Z.to_nat (span len) = S n) as [n Hn] by (exists (Z.to_nat (span len) - 1)%nat; lia).
  pose proof Hc as Hl. unfold region_code in Hl. rewrite !code_at_app in Hl. destruct Hl as (_ & _ & Hl).
  change (p + zlength [33; Z.land addr 255; Z.land (Z.shiftr addr 8) 255] + zlength [1; Z.land len 255; Z.land (Z.shiftr len 8) 255]) with (p + 3 + 3) in Hl.
  replace (p + 3 + 3) with (p + 6) in Hl by lia.
  destruct (loop_goes (p + 6) out n ltac:(lia) ltac:(lia) Hl ltac:(lia) a d e (u16 addr) z c Hd He)
    as (k & a' & d' & e' & hl' & c' & Hk & Hd' & He' & Hsum & Hg).
  exists (2 + k)%nat, a', d', e', hl', c'. rewrite Hn. split_and!; [lia|done|done|done|].
  ins Hc 0%nat. operand Hc 1%nat. operand Hc 2%nat. rewrite word_of.
  ins Hc 3%nat. operand Hc 4%nat. operand Hc 5%nat. rewrite word_of.
  replace (p + 18 + 0) with (p + 6 + 12) by lia. replace (p + 6) with (p + 6 + 0) at 1 by lia.
  rewrite <- Hu. replace (span len) with (Z.of_nat (S n)) by lia. exact Hg.
Qed.

Definition regions_sum (rs : list (Z * Z)) : Z := zsum (map region_sum rs).
Definition regions_steps (rs : list (Z * Z)) : nat := list_sum (map (fun r => 2 + 10 * Z.to_nat (span r.2))%nat rs).

Lemma regions_go out rs : forall p a d e bc hl z c,
  0 <= p -> p + 18 * zlength rs < 65536 -> code_at p (concat (map region_code rs)) -> is_byte d -> is_byte e ->
  exists k a' d' e' bc' hl' z' c', (k <= regions_steps rs)%nat /\ is_byte d' /\ is_byte e' /\
    d' * 256 + e' = u16 (d * 256 + e + regions_sum rs) /\
    goes k (Cpu a d e bc hl z c (p + 0) out) (Cpu a' d' e' bc' hl' z' c' (p + 18 * zlength rs + 0) out).
Proof.
  induction rs as [|r rs IH]; intros p a d e bc hl z c Hp0 Hp Hc Hd He.
  - exists 0%nat, a, d, e, bc, hl, z, c. unfold is_byte in *. split_and!; [lia|lia|lia|lia|lia| |].
    + unfold regions_sum. cbn. rewrite u16_small; lia.
    + unfold zlength. cbn [length]. replace (p + 18 * Z.of_nat 0 + 0) with (p + 0) by lia. apply goes_refl.
  - cbn [map concat] in Hc. apply code_at_app in Hc as [Hr Hc].
    assert (zlength (region_code r) = 18) as E by (by destruct r). rewrite E in Hc.
    assert (zlength (r :: rs) = 1 + zlength rs) as El by (unfold zlength; cbn [length]; lia). rewrite El in *.
    pose proof (zlength_pos rs).
    destruct (region_goes p out r a d e bc hl z c Hp0 ltac:(lia) Hr Hd He)
      as (k1 & a1 & d1 & e1 & hl1 & c1 & Hk1 & Hd1 & He1 & Hs1 & Hg1).
    destruct (IH (p + 18) a1 d1 e1 0 hl1 true c1 ltac:(lia) ltac:(lia) Hc Hd1 He1)
      as (k2 & a2 & d2 & e2 & bc2 & hl2 & z2 & c2 & Hk2 & Hd2 & He2 & Hs2 & Hg2).
    exists (k1 + k2)%nat, a2, d2, e2, bc2, hl2, z2, c2. split_and!; [|done|done| |].
    + unfold regions_steps in *. cbn [map list_sum foldr]. unfold list_sum in *. lia.
    + rewrite Hs2, Hs1, u16_add_l. f_equal. unfold regions_sum. cbn [map]. rewrite zsum_cons. lia.
    + replace (p + 18 * (1 + zlength rs) + 0) with (p + 18 + 18 * zlength rs + 0) by lia.
      by eapply goes_trans.
Qed.

Lemma low_two x : u8 (256 * x + 2) = 2.
Proof. rewrite u8_mod. Z.div_mod_to_equations. lia. Qed.

Lemma print_runs text : forall p a d e bc hl z c out,
  0 <= p -> p + 7 * zlength text < 65535 -> code_at p (print_code text) ->
  forall fuel, run (3 * length text + S fuel) (Cpu a d e bc hl z c (p + 0) out) = Returned (out ++ text).
Proof.
  induction text as [|ch text IH]; intros p a d e bc hl z c out Hp0 Hp Hc fuel.
  - cbn [length Nat.mul Nat.add]. cbn [run]. unfold step. cbn [pc]. destruct Hc as [Hc _].
    rewrite Z.add_0_r, Hc. cbn [exec]. by rewrite app_nil_r.
  - assert (zlength (ch :: text) = 1 + zlength text) as El by (unfold zlength; cbn [length]; lia).
    rewrite El in Hp. pose proof (zlength_pos text).
    change (print_code (ch :: text)) with ([30; ch; 14; 2; 205; 5; 0] ++ print_code text) in Hc.
    apply code_at_app in Hc as [Hc Hn]. change (zlength [30; ch; 14; 2; 205; 5; 0]) with 7 in Hn.
    assert (Hg : exists s', goes 3 (Cpu a d e bc hl z c (p + 0) out) s' /\ pc s' = p + 7 + 0 /\ printed s' = out ++ [ch]).
    { eexists. split; [|shelve]. ins Hc 0%nat. operand Hc 1%nat. ins Hc 2%nat. operand Hc 3%nat.
      eapply goes_exec; [exact (code_at_nth _ _ 4%nat _ Hc eq_refl)|unfold exec; cbn [pc]|apply goes_refl].
      change (Z.of_nat 4) with 4. addresses. operand Hc 5%nat. operand Hc 6%nat. change (5 + 256 * 0 =? 5) with true.
      cbn [rBC]. rewrite low_two. reflexivity.
      Unshelve. cbn [pc printed]. split; [lia|done]. }
    destruct Hg as ([a' d' e' bc' hl' z' c' pc' out'] & Hg & Hpc & Ho). cbn [pc printed] in Hpc, Ho. subst pc' out'.
    replace (3 * length (ch :: text) + S fuel)%nat with (3 + (3 * length text + S fuel))%nat by (cbn [length]; lia).
    rewrite Hg, (IH (p + 7)) by (done || lia). by rewrite <- app_assoc.
Qed.

Lemma halves_equal d e x y : is_byte d -> is_byte e -> d * 256 + e = u16 x ->
  (e =? Z.land y 255) && (d =? Z.land (Z.shiftr y 8) 255) = (u16 x =? u16 y).
Proof.
  intros Hd He <-. fold (u8 y) (u8 (Z.shiftr y 8)).
  rewrite !u8_mod, u16_mod, Z.shiftr_div_pow2 by lia. change (2 ^ 8) with 256. unfold is_byte in *.
  destruct (Z.eqb_spec e (y mod 256)), (Z.eqb_spec d ((y / 256) mod 256)), (Z.eqb_spec (d * 256 + e) (y mod 65536));
    Z.div_mod_to_equations; cbn; try done; lia.
Qed.

Definition verdict (good : bool) : str := if good then OK_TEXT else FAIL_TEXT.

(** The comparison and the message. *)
Lemma verdict_runs q expected a d e bc hl z c out fuel :
  0 <= q -> q + 96 < 65536 -> is_byte d -> is_byte e ->
  code_at q [123; 254; Z.land expected 255; 32; 41; 122; 254; Z.land (Z.shiftr expected 8) 255; 32; 36] ->
  code_at (q + 10) (print_code OK_TEXT) -> code_at (q + 46) (print_code FAIL_TEXT) ->
  (28 <= fuel)%nat -> 
  run fuel (Cpu a d e bc hl z c (q + 0) out) =
    Returned (out ++ verdict ((e =? Z.land expected 255) && (d =? Z.land (Z.shiftr expected 8) 255))).
Proof.
  intros Hq0 Hq Hd He Hc Hok Hfail Hf.
  destruct (Z.eqb_spec e (Z.land expected 255)) as [El|El]; [destruct (Z.eqb_spec d (Z.land (Z.shiftr expected 8) 255)) as [Eh|Eh]|].
  all: cbn [andb verdict].
  - assert (Hg : exists s', goes 6 (Cpu a d e bc hl z c (q + 0) out) s' /\ pc s' = q + 10 + 0 /\ printed s' = out).
    { eexists. split; [|shelve]. ins Hc 0%nat. ins Hc 1%nat. operand Hc 2%nat. rewrite (proj2 (Z.eqb_eq e _) El).
      ins Hc 3%nat. ins Hc 5%nat. ins Hc 6%nat. operand Hc 7%nat. rewrite (proj2 (Z.eqb_eq d _) Eh).
      ins Hc 8%nat. apply goes_refl. Unshelve. cbn [pc printed]. split; [lia|done]. }
    destruct Hg as ([a' d' e' bc' hl' z' c' pc' out'] & Hg & Hpc & Ho). cbn [pc printed] in Hpc, Ho. subst pc' out'.
    replace fuel with (6 + (3 * length OK_TEXT + S (fuel - 22)))%nat by (cbn; lia).
    rewrite Hg. apply print_runs; [lia| |done]. unfold zlength. cbn. lia.
  - assert (Hg : exists s', goes 6 (Cpu a d e bc hl z c (q + 0) out) s' /\ pc s' = q + 46 + 0 /\ printed s' = out).
    { eexists. split; [|shelve]. ins Hc 0%nat. ins Hc 1%nat. operand Hc 2%nat. rewrite (proj2 (Z.eqb_eq e _) El).
      ins Hc 3%nat. ins Hc 5%nat. ins Hc 6%nat. operand Hc 7%nat. rewrite (proj2 (Z.eqb_neq d _) Eh).
      ins Hc 8%nat. jump Hc 8%nat 46. apply goes_refl. Unshelve. cbn [pc printed]. split; [lia|done]. }
    destruct Hg as ([a' d' e' bc' hl' z' c' pc' out'] & Hg & Hpc & Ho). cbn [pc printed] in Hpc, Ho. subst pc' out'.
    replace fuel with (6 + (3 * length FAIL_TEXT + S (fuel - 28)))%nat by (cbn; lia).
    rewrite Hg. apply print_runs; [lia| |done]. unfold zlength. cbn. lia.
  - assert (Hg : exists s', goes 3 (Cpu a d e bc hl z c (q + 0) out) s' /\ pc s' = q + 46 + 0 /\ printed s' = out).
    { eexists. split; [|shelve]. ins Hc 0%nat. ins Hc 1%nat. operand Hc 2%nat. rewrite (proj2 (Z.eqb_neq e _) El).
      ins Hc 3%nat. jump Hc 3%nat 46. apply goes_refl. Unshelve. cbn [pc printed]. split; [lia|done]. }
    destruct Hg as ([a' d' e' bc' hl' z' c' pc' out'] & Hg & Hpc & Ho). cbn [pc printed] in Hpc, Ho. subst pc' out'.
    replace fuel with (3 + (3 * length FAIL_TEXT + S (fuel - 25)))%nat by (cbn; lia).
    rewrite Hg. apply print_runs; [lia| |done]. unfold zlength. cbn. lia.
Qed.

Lemma validator_runs p expected rs s fuel :
  0 <= p -> p + 18 * zlength rs + 99 < 65536 -> code_at p (validator_code expected rs) -> pc s = p ->
  (regions_steps rs + 29 <= fuel)%nat ->
  run fuel s = Returned (printed s ++ verdict (u16 (regions_sum rs) =? u16 expected)).
Proof.
  intros Hp0 Hp Hc Hpc Hf. destruct s as [a d e bc hl z c p' out]. cbn [pc printed] in *. subst p'.
  pose proof (zlength_pos rs). unfold validator_code in Hc.
  apply code_at_app in Hc as [Hc0 Hc]. change (zlength [17; 0; 0]) with 3 in Hc.
  apply code_at_app in Hc as [Hr Hc].
  replace (zlength (concat (map region_code rs))) with (18 * zlength rs) in Hc
    by (unfold zlength; rewrite length_regions; lia).
  set (q := p + 3 + 18 * zlength rs) in *.
  apply code_at_app in Hc as [Hl Hc]. apply code_at_app in Hc as [Hh Hc]. apply code_at_app in Hc as [Hok Hfail].
  assert (Hcmp : code_at q ([123; 254; Z.land expected 255; 32; 41] ++ [122; 254; Z.land (Z.shiftr expected 8) 255; 32; 36]))
    by (apply code_at_app; by split).
  cbn [app] in Hcmp.
  assert (Hg : goes 1 (Cpu a d e bc hl z c (p + 0) out) (Cpu a 0 0 bc hl z c (p + 3 + 0) out)).
  { ins Hc0 0%nat. operand Hc0 1%nat. operand Hc0 2%nat. rewrite (Z.add_0_r (p + 3)). apply goes_refl. }
  destruct (regions_go out rs (p + 3) a 0 0 bc hl z c ltac:(lia) ltac:(lia) Hr ltac:(unfold is_byte; lia) ltac:(unfold is_byte; lia))
    as (k & a2 & d2 & e2 & bc2 & hl2 & z2 & c2 & Hk & Hd2 & He2 & Hs2 & Hg2). fold q in Hg2.
  rewrite <- (Z.add_0_r p). replace fuel with (1 + (k + (fuel - k - 1)))%nat by lia.
  rewrite Hg, Hg2. rewrite (verdict_runs q expected); try done; try lia.
  - f_equal. f_equal. f_equal. by apply halves_equal.
  - replace (q + 10) with (q + 5 + 5) by lia. exact Hok.
  - replace (q + 46) with (q + 5 + 5 + 36) by lia. exact Hfail.
Qed.
End Machine.

(** ** The payload in memory *)

(** [l] is in memory from [p] on. *)
Definition holds (mem : Z -> Z) (p : Z) (l : bytes) : Prop :=
  forall i b, l !! i = Some b -> mem (p + Z.of_nat i) = b.

Lemma holds_code mem p l : holds mem p l -> code_at mem p l.
Proof.
  revert p. induction l as [|b l IH]; intros p H; cbn; [done|]. split.
  - rewrite <- (H 0%nat b eq_refl). f_equal. lia.
  - apply IH. intros i c Hi. rewrite <- (H (S i) c Hi). f_equal. lia.
Qed.

Lemma holds_app mem p l1 l2 : holds mem p (l1 ++ l2) <-> holds mem p l1 /\ holds mem (p + zlength l1) l2.
Proof.
  split.
  - intros H. split; intros i b Hi.
    + apply H. rewrite lookup_app_l; [done|]. by apply lookup_lt_Some in Hi.
    + replace (p + zlength l1 + Z.of_nat i) with (p + Z.of_nat (length l1 + i)) by (unfold zlength; lia).
      apply H. by rewrite lookup_app_r, Nat.add_comm, Nat.add_sub by lia.
  - intros [H1 H2] i b. destruct (Nat.lt_ge_cases i (length l1)).
    + rewrite lookup_app_l by done. apply H1.
    + rewrite lookup_app_r by done. intros Hi. rewrite <- (H2 _ _ Hi). f_equal. unfold zlength. lia.
Qed.

Lemma sum_from_holds mem l : forall p, 0 <= p -> p + zlength l <= 65536 -> holds mem p l ->
  sum_from mem (length l) p = zsum l.
Proof.
  induction l as [|b l IH]; intros p Hp Hl H; [done|]. cbn [length sum_from]. rewrite zsum_cons.
  assert (zlength (b :: l) = 1 + zlength l) as E by (unfold zlength; cbn [length]; lia).
  assert (mem p = b) as -> by (rewrite <- (H 0%nat b eq_refl); f_equal; lia). f_equal.
  destruct l as [|x l]; [done|]. rewrite u16_small.
  - apply IH; [lia|lia|]. intros i c Hi. rewrite <- (H (S i) c Hi). f_equal. lia.
  - unfold zlength in *. cbn [length] in *. lia.
Qed.

Lemma region_sum_holds mem p l : 0 <= p < 65536 -> p + zlength l <= 65536 -> l <> [] -> holds mem p l -> zlength l < 65536 ->
  region_sum mem (p, zlength l) = zsum l /\ span (zlength l) = zlength l.
Proof.
  intros Hp Hl Hne H Hu. unfold region_sum. cbn [fst snd].
  assert (0 < zlength l) by (destruct l; [done|unfold zlength; cbn [length]; lia]).
  assert (span (zlength l) = zlength l) as E.
  { unfold span. rewrite u16_small by lia. by rewrite (proj2 (Z.eqb_neq _ _)) by lia. }
  split; [|done]. rewrite E, u16_small by lia. unfold zlength. rewrite Nat2Z.id. by apply sum_from_holds; [lia|..].
Qed.

(** The payload's two sides are where the regions say. *)
Definition payload_in (mem : Z -> Z) (cim : bytes) : Prop :=
  forall i x, cim !! i = Some x -> mem (T0_ADDR + Z.of_nat (payload_pos i)) = x.

Lemma payload_sum mem cim : cim <> [] -> zlength cim <= 9984 -> payload_in mem cim ->
  regions_sum mem (regions_of T0_ADDR cim) = zsum cim /\
  (regions_steps (regions_of T0_ADDR cim) <= 4 + 10 * length cim)%nat.
Proof.
  intros Hne Hl H. destruct (side_lengths cim) as (E0 & E1 & Ec). pose proof (zlength_pos cim).
  assert (0 < zlength cim) by (destruct cim; [done|unfold zlength; cbn [length]; lia]).
  assert (Hside0 : holds mem T0_ADDR (side0 cim)).
  { intros i b Hi. pose proof (lookup_lt_Some _ _ _ Hi). rewrite <- (H i b).
    - unfold payload_pos. rewrite (proj2 (Nat.ltb_lt _ _)); [done|]. unfold zlength in *. lia.
    - rewrite <- Ec. by rewrite lookup_app_l. }
  destruct (region_sum_holds mem T0_ADDR (side0 cim)) as [S0 P0]; try done.
  { rewrite E0. change T0_ADDR with 17664. lia. }
  { intros E. rewrite E in E0. unfold zlength in E0 at 1. cbn in E0. lia. }
  { lia. }
  unfold regions_of, SIDE0_SIZE. change (26 * 128) with 3328. rewrite E0 in S0, P0.
  destruct (Z.ltb_spec 0 (Z.max 0 (zlength cim - 3328))) as [Hb|Hb].
  - assert (Hside1 : holds mem 24320 (side1 cim)).
    { intros i b Hi. rewrite <- (H (3328 + i)%nat b).
      - f_equal. unfold payload_pos. rewrite (proj2 (Nat.ltb_ge _ _)) by lia. change T0_ADDR with 17664. lia.
      - rewrite <- Ec, lookup_app_r by (unfold zlength in *; lia). rewrite <- Hi. f_equal. unfold zlength in *. lia. }
    destruct (region_sum_holds mem 24320 (side1 cim)) as [S1 P1]; try done.
    { lia. }
    { intros E. rewrite E in E1. unfold zlength in E1 at 1. cbn in E1. lia. }
    { lia. }
    rewrite E1 in S1, P1. change (T0_ADDR + 3328 + GAP_SIZE) with 24320.
    unfold regions_sum, regions_steps. cbn [map snd list_sum foldr]. rewrite P0, P1.
    split; [|unfold list_sum; cbn [foldr]; unfold zlength in *; lia].
    rewrite !zsum_cons, S0, S1. rewrite <- Ec at 3. rewrite zsum_app. cbn [zsum foldr]. lia.
  - unfold regions_sum, regions_steps. cbn [map snd list_sum foldr]. rewrite P0.
    split; [|unfold list_sum; cbn [foldr]; unfold zlength in *; lia].
    rewrite !zsum_cons, S0. rewrite <- Ec at 2. rewrite zsum_app.
    assert (side1 cim = []) as -> by (destruct (side1 cim); [done|unfold zlength in *; cbn [length] in *; lia]).
    cbn [zsum foldr]. lia.
Qed.

Lemma payload_of_image v M t0 Q cim mem : zlength v <= 17408 -> zlength M = 17408 ->
  (forall i, (i < length cim)%nat -> t0 !! payload_pos i = cim !! i) ->
  holds mem 256 (place 0 v M ++ t0 ++ Q) -> payload_in mem cim.
Proof.
  intros Hv HM Ht Hm i x Hx. pose proof (lookup_lt_Some _ _ _ Hx) as Hi. rewrite <- (Ht i Hi) in Hx.
  apply holds_app in Hm as [_ Hm]. replace (256 + zlength (place 0 v M)) with T0_ADDR in Hm.
  2: { unfold zlength in *. rewrite length_place by lia. rewrite HM. reflexivity. }
  apply holds_app in Hm as [Hm _]. by apply Hm.
Qed.

(** The validator at the start of the image. *)
Lemma validator_of_image v M R mem : zlength v <= zlength M ->
  holds mem 256 (place 0 v M ++ R) -> holds mem 256 v.
Proof.
  intros Hv Hm. apply holds_app in Hm as [Hm _]. rewrite place_eq, take_0 in Hm.
  cbn [app] in Hm.
  apply holds_app in Hm as [Hm _]. exact Hm.
Qed.

(** ** Properties *)

Lemma code_judges_memory bdos mem expected regions v s fuel :
  build_validator expected regions = Ret v -> (forall a, is_byte (mem a)) -> holds mem COM_BASE v ->
  zlength regions <= 3600 -> pc s = COM_BASE -> (regions_steps regions + 29 <= fuel)%nat ->
  run bdos mem fuel s =
    Returned (printed s ++ if regions_sum mem regions mod 65536 =? expected mod 65536 then OK_TEXT else FAIL_TEXT).
Proof.
  intros Hv Hb Hm Hn Hpc Hf. destruct (build_validator_ok expected regions) as (v' & Hv' & -> & _).
  rewrite Hv' in Hv. injection Hv as <-. rewrite <- !u16_mod.
  apply (validator_runs bdos mem Hb COM_BASE); try done; [unfold COM_BASE; lia|by apply holds_code].
Qed.

Lemma holds_check mem p l :
  forallb (fun i => mem (p + Z.of_nat i) =? List.nth i l 0) (seq 0 (length l)) = true -> holds mem p l.
Proof.
  intros H i b Hi. rewrite forallb_forall in H. specialize (H i).
  rewrite in_seq in H. pose proof (lookup_lt_Some _ _ _ Hi) as Hl. specialize (H ltac:(lia)). apply Z.eqb_eq in H.
  rewrite H. by apply nth_lookup_Some.
Qed.

Lemma image_checks_itself bdos mem cim M Q text crlf cr image s fuel :
  all_bytes cim -> cim <> [] -> zlength M = 17408 ->
  sysgen_hex cim = Ret (crlf, cr) -> text = crlf \/ text = cr ->
  apply_hex COM_BASE (M ++ repeatZ 13312 0 ++ Q) [text] = Ret image ->
  (forall a, is_byte (mem a)) -> pc s = COM_BASE -> (33 + 10 * length cim <= fuel)%nat ->
  (holds mem COM_BASE image -> run bdos mem fuel s = Returned (printed s ++ OK_TEXT)) /\
  (forall i y, (i < length cim)%nat -> cim !! i <> Some y -> is_byte y ->
     holds mem COM_BASE (<[(Z.to_nat 17408 + payload_pos i)%nat := y]> image) ->
     run bdos mem fuel s = Returned (printed s ++ FAIL_TEXT)).
Proof.
  intros Hcim Hne HM Hhex Htext Hload Hb Hpc Hf.
  assert (Hl : zlength cim <= 9984).
  { destruct (Z.le_gt_cases (zlength cim) 9984) as [|Hbig]; [done|]. unfold sysgen_hex in Hhex.
    change (SIDE0_SIZE + SIDE1_SIZE) with 9984 in Hhex. by rewrite (proj2 (Z.ltb_lt _ _)) in Hhex. }
  destruct (sysgen_hex_loads cim 256 M Q Hcim ltac:(lia) ltac:(rewrite HM; reflexivity) Hl)
    as (t0 & v & crlf' & cr' & _ & Ht0 & Hpos & Hv & Hhex' & Hld).
  rewrite Hhex in Hhex'. injection Hhex' as <- <-. change COM_BASE with 256 in *.
  rewrite (Hld text Htext) in Hload. injection Hload as <-. rewrite Z.sub_diag. change (Z.to_nat 0) with 0%nat.
  destruct (build_validator_ok (u16 (zsum cim)) (regions_of T0_ADDR cim)) as (v' & Hv' & Hcode & _ & Hvl).
  rewrite Hv in Hv'. injection Hv' as <-. pose proof (length_regions_of T0_ADDR cim) as Hr.
  assert (Hv17 : zlength v <= 17408) by (unfold zlength in *; lia).
  assert (Hrun : forall c, zlength c = zlength cim -> payload_in mem c -> holds mem 256 v ->
    run bdos mem fuel s = Returned (printed s ++ verdict (u16 (zsum c) =? u16 (zsum cim)))).
  { intros c Hc Hp Hm.
    destruct (payload_sum mem c ltac:(intros ->; destruct cim; [done|unfold zlength in Hc; cbn in Hc; lia]) ltac:(lia) Hp)
      as [Hsum Hsteps].
    assert (regions_of T0_ADDR c = regions_of T0_ADDR cim) as E by (unfold regions_of; by rewrite Hc).
    rewrite E in Hsum, Hsteps.
    rewrite (validator_runs bdos mem Hb 256 (u16 (zsum cim)) (regions_of T0_ADDR cim)); try done.
    - rewrite Hsum. do 3 f_equal. rewrite !u16_mod. by rewrite Z.mod_mod.
    - unfold zlength in *. lia.
    - rewrite <- Hcode. by apply holds_code.
    - unfold zlength in *. lia. }
  split.
  - intros Hm. rewrite (Hrun cim eq_refl (payload_of_image v M t0 Q cim mem Hv17 HM Hpos Hm)
      (validator_of_image v M (t0 ++ Q) mem ltac:(lia) Hm)). by rewrite Z.eqb_refl.
  - intros i y Hi Hy Hyb Hm. destruct (lookup_lt_is_Some_2 cim i Hi) as [x Hx].
    rewrite insert_app_r_alt, length_place in Hm by (unfold zlength in *; rewrite ?length_place by lia; lia).
    assert (Z.to_nat 17408 + payload_pos i - length M = payload_pos i)%nat as Ei by (unfold zlength in *; lia).
    rewrite Ei, insert_app_l in Hm by (rewrite <- Hpos in Hx by done; by apply lookup_lt_Some in Hx).
    rewrite (Hrun (<[i := y]> cim)).
    + rewrite (zsum_insert _ _ _ _ Hx). assert (x <> y) by congruence.
      assert (is_byte x) by (by apply (proj1 (Forall_forall _ _) Hcim), (list_elem_of_lookup_2 _ i)).
      rewrite (proj2 (Z.eqb_neq _ _)); [done|]. rewrite !u16_mod. unfold is_byte in *.
      Z.div_mod_to_equations. lia.
    + unfold zlength. by rewrite length_insert.
    + apply (payload_of_image v M (<[payload_pos i := y]> t0) Q _ mem Hv17 HM); [|done].
      intros j Hj. rewrite length_insert in Hj. destruct (decide (i = j)) as [<-|Hij].
      * rewrite !list_lookup_insert_eq; [done|done|]. rewrite <- Hpos in Hx by done. by apply lookup_lt_Some in Hx.
      * rewrite !list_lookup_insert_ne; [by apply Hpos|done|]. unfold payload_pos.
        destruct (Nat.ltb_spec i 3328), (Nat.ltb_spec j 3328); lia.
    + apply (validator_of_image v M (<[payload_pos i := y]> t0 ++ Q) mem); [lia|done].
Qed.

(** C15: the code build_validator generates computes the check it stands for.
    Wherever memory holds the code at 0100h, started with any register contents,
    it returns after at most 29 instructions and, for each region, 2 and 10 per
    byte; it has then printed "OK\r\n$" if the sum of the regions' bytes equals the
    expected sum modulo 65536 and "FAIL\r\n$" otherwise.  A region of length 0 counts
    as one of 65536 bytes.  And so the HEX file of mk_sysgen_hex.py, loaded, checks
    itself: load either text over memory that is zero from 4500h for 13312 bytes
    and start at 0100h, and the program prints "OK\r\n$", within 33 instructions and
    10 per payload byte; after a change of any one payload byte in memory it prints
    "FAIL\r\n$". *)
Theorem validator_judges_memory bdos mem s fuel (Hb : forall a, is_byte (mem a)) (Hpc : pc s = COM_BASE) :
  (forall expected regions v,
    build_validator expected regions = Ret v -> holds mem COM_BASE v ->
    zlength regions <= 3600 -> (regions_steps regions + 29 <= fuel)%nat ->
    run bdos mem fuel s =
      Returned (printed s ++ if regions_sum mem regions mod 65536 =? expected mod 65536 then OK_TEXT else FAIL_TEXT)) /\
  (forall cim M Q text crlf cr image,
    all_bytes cim -> cim <> [] -> zlength M = 17408 ->
    sysgen_hex cim = Ret (crlf, cr) -> text = crlf \/ text = cr ->
    apply_hex COM_BASE (M ++ repeatZ 13312 0 ++ Q) [text] = Ret image ->
    (33 + 10 * length cim <= fuel)%nat ->
    (holds mem COM_BASE image -> run bdos mem fuel s = Returned (printed s ++ OK_TEXT)) /\
    (forall i y, (i < length cim)%nat -> cim !! i <> Some y -> is_byte y ->
       holds mem COM_BASE (<[(Z.to_nat 17408 + payload_pos i)%nat := y]> image) ->
       run bdos mem fuel s = Returned (printed s ++ FAIL_TEXT))).
Proof.
  split.
  - intros expected regions v Hv Hm Hn Hf. by apply (code_judges_memory bdos mem expected regions v).
  - intros cim M Q text crlf cr image Hcim Hne HM Hhex Htext Hload Hf.
    by apply (image_checks_itself bdos mem cim M Q text crlf cr image).
Qed.

(** Two regions of a small memory, sum 600, then one too many; and a loaded file. *)
Lemma validator_judges_memory_witness :
  let mem v a := u8 (if a =? 40000 then 255 else if a =? 40001 then 255 else if a =? 50000 then 90
                     else List.nth (Z.to_nat (a - 256)) v 0) in
  let mem' image a := u8 (List.nth (Z.to_nat (a - 256)) image 0) in
  (exists v w, build_validator 600 [(40000, 2); (50000, 1)] = Ret v /\ build_validator 601 [(40000, 2); (50000, 1)] = Ret w /\
    run (fun s => s) (mem v) 100 (Cpu 1 2 3 4 5 true true 256 []) = Returned [79; 75; 13; 10; 36] /\
    run (fun s => s) (mem w) 100 (Cpu 1 2 3 4 5 true true 256 []) = Returned [70; 65; 73; 76; 13; 10; 36]) /\
  (exists crlf cr image, sysgen_hex [243; 49] = Ret (crlf, cr) /\
    apply_hex 256 (repeatZ 17408 0 ++ repeatZ 13312 0 ++ []) [cr] = Ret image /\
    run (fun s => s) (mem' image) 53 (Cpu 0 0 0 0 0 false false 256 []) = Returned [79; 75; 13; 10; 36]).
Proof.
  intros mem mem'. split.
  { eexists _, _. split_and!; [reflexivity|reflexivity| |].
    - match goal with |- run _ (mem ?v) _ _ = _ =>
        rewrite (proj1 (validator_judges_memory (fun s => s) (mem v) (Cpu 1 2 3 4 5 true true 256 []) 100 (fun a => u8_range _) eq_refl) 600 [(40000, 2); (50000, 1)] v) end;
        [reflexivity|reflexivity|by apply holds_check|unfold zlength; cbn; lia|].
      apply Nat.leb_le. reflexivity.
    - match goal with |- run _ (mem ?v) _ _ = _ =>
        rewrite (proj1 (validator_judges_memory (fun s => s) (mem v) (Cpu 1 2 3 4 5 true true 256 []) 100 (fun a => u8_range _) eq_refl) 601 [(40000, 2); (50000, 1)] v) end;
        [reflexivity|reflexivity|by apply holds_check|unfold zlength; cbn; lia|].
      apply Nat.leb_le. reflexivity. }
  assert (zlength (repeatZ 17408 0) = 17408) as E by (unfold zlength; rewrite length_repeatZ; reflexivity).
  destruct (sysgen_hex_loads [243; 49] 256 (repeatZ 17408 0) [] ltac:(decided) ltac:(lia) ltac:(rewrite E; reflexivity)
    ltac:(vm_compute; discriminate)) as (t0 & v & crlf & cr & Ht & _ & _ & Hv & Hhex & Hload).
  eexists crlf, cr, _. split_and!; [exact Hhex|exact (Hload cr ltac:(by right))|].
  destruct (build_validator_ok (u16 (zsum [243; 49])) (regions_of T0_ADDR [243; 49])) as (v' & Hv' & _ & Hvb & _).
  rewrite Hv in Hv'. injection Hv' as <-. rewrite sysgen_t0_layout in Ht by (vm_compute; discriminate). injection Ht as <-.
  refine (proj1 (proj2 (validator_judges_memory (fun s => s) _ (Cpu 0 0 0 0 0 false false 256 []) 53 (fun a => u8_range _) eq_refl)
    [243; 49] (repeatZ 17408 0) [] cr crlf cr _ ltac:(decided) ltac:(done) E Hhex ltac:(by right) (Hload cr ltac:(by right))
    ltac:(cbn; lia)) _).
  intros i b Hi. unfold mem'. replace (Z.to_nat (COM_BASE + Z.of_nat i - 256)) with i by (unfold COM_BASE; lia).
  rewrite (nth_lookup_Some _ _ _ _ Hi). apply u8_small.
  apply list_elem_of_lookup_2 in Hi. revert b Hi. apply Forall_forall, Forall_app. split.
  - apply place_all_bytes; [done|apply zeros_all].
  - apply Forall_app. split; [|done]. unfold t0_layout.
    destruct (sides_bytes [243; 49] ltac:(decided)). by repeat apply place_all_bytes; try apply zeros_all.
Defined.
