(* ===== verification/Stamp.v ===== *)
(** * Serial numbers: cpm/stamp_serial.py.

    The script turns a serial number into six bytes ([parse_serial]) and puts
    them into the CCP and BDOS binaries ([stamp_file]) or into a HEX overlay
    ([emit_hex]).  Texts are ASCII; a file is its contents, or [None] when it cannot be
    read; messages are left out. *)

From S2P Require Import Prelude Imd Hex Text.
#[local] Open Scope Z_scope.

Definition CCP_STAMP_OFFSET : Z := 808.
Definition BDOS_STAMP_OFFSET : Z := 0.
Definition CCP_STAMP_ADDR : Z := 50984.
Definition BDOS_STAMP_ADDR : Z := 52224.
Definition DEFAULT_MFG_LOW : Z := 213.
Definition DEFAULT_VERSION : Z := 22.
Definition DEFAULT_MFG_HIGH : Z := 8.

(** ** parse_serial *)

(** The regular expression of the raw form, [n] groups of it, and its bytes. *)
Fixpoint hex_groups (n : nat) (s : str) : option bytes :=
  match n with
  | O => match s with [] => Some [] | _ => None end
  | S n' =>
      match s with
      | c :: d :: s' =>
          match hexval c, hexval d with
          | Some h, Some l =>
              rest ← hex_groups n' (drop_while (fun c => py_space c || (c =? 44)) s');
              Some (h * 16 + l :: rest)
          | _, _ => None
          end
      | _ => None
      end
  end.

Definition parse_serial (s : str) : outcome bytes :=
  let s := strip_with py_space s in
  match hex_groups 6 s with
  | Some bytes_out => Ret bytes_out
  | None =>
      ms ← match split_on 45 s with
           | [p0] => serial ← int_of p0; Ret (Z.lor (Z.shiftl DEFAULT_MFG_HIGH 8) DEFAULT_MFG_LOW, serial)
           | [p0; p1] => mfg ← int_of p0; serial ← int_of p1; Ret (mfg, serial)
           | [p0; p1; p2] => mfg ← int_of (p0 ++ p1); serial ← int_of p2; Ret (mfg, serial)
           | _ => Raise ValueError
           end;
      let '(mfg, serial) := ms in
      if negb ((0 <=? mfg) && (mfg <=? 65535)) then Raise ValueError
      else if negb ((0 <=? serial) && (serial <=? 16777215)) then Raise ValueError
      else mk_bytes [Z.land mfg 255; DEFAULT_VERSION; Z.land (Z.shiftr mfg 8) 255;
                     Z.land (Z.shiftr serial 16) 255; Z.land (Z.shiftr serial 8) 255; Z.land serial 255]
  end.

(** ** format_stamp *)

Definition display (mfg serial : Z) : str :=
  let mfg_str := decimal mfg in
  match mfg_str with
  | c :: d :: ds => [c] ++ [45] ++ (d :: ds) ++ [45] ++ decimal_width 4 serial
  | _ => mfg_str ++ [45] ++ decimal_width 4 serial
  end.

Definition format_stamp (stamp : bytes) : outcome str :=
  match stamp with
  | [s0; s1; s2; s3; s4; s5] =>
      let mfg := Z.lor (Z.shiftl s2 8) s0 in
      let version := s1 in
      let serial := Z.lor (Z.lor (Z.shiftl s3 16) (Z.shiftl s4 8)) s5 in
      Ret (display mfg serial ++ chars " (version=0x" ++ fmt_hex 2 version ++ chars ", bytes=" ++
           hex_spaced stamp ++ chars ")")
  | _ => Raise ValueError
  end.

(** ** The two routes *)

Definition stamp_record (rtype addr : Z) (data : bytes) : outcome str :=
  h ← mk_bytes [zlength data; Z.land (Z.shiftr addr 8) 255; Z.land addr 255; rtype];
  let raw := h ++ data in
  let checksum := Z.land (- zsum raw) 255 in
  Ret ([58] ++ hex_bytes raw ++ fmt_hex 2 checksum).

(** The text of the HEX file. *)
Definition emit_hex (stamp : bytes) (with_cpm_eof : bool) : outcome str :=
  shown ← format_stamp stamp;
  ccp ← stamp_record 0 CCP_STAMP_ADDR stamp;
  bdos ← stamp_record 0 BDOS_STAMP_ADDR stamp;
  term ← (if with_cpm_eof then stamp_record 0 0 [] else Ret (chars ":00000001FF"));
  let lines := [chars "; RC702 CP/M 2.2 serial stamp overlay";
                chars "; Stamp: " ++ shown;
                chars "; Apply with MLOAD on top of the base CCP+BDOS image.";
                ccp; bdos; term] in
  Ret (join [10] lines ++ [10]).

(** The file's contents afterwards. *)
Definition stamp_file (file : option bytes) (offset : Z) (stamp : bytes) (dry_run : bool) : outcome bytes :=
  match file with
  | None => Raise OSError
  | Some data =>
      let end_ := offset + zlength stamp in
      if zlength data <? end_ then Raise ValueError else
      let old := slice (Z.to_nat offset) (Z.to_nat end_) data in
      if decide (old = stamp) then Ret data
      else
        refuse ← (if forallb (fun b => b =? 0) old then Ret false
                  else v ← index old 1; Ret (negb (v =? DEFAULT_VERSION)));
        if refuse : bool then Raise ValueError
        else if dry_run then Ret data
        else Ret (slice_set (Z.to_nat offset) (Z.to_nat end_) stamp data)
  end.

(** What the program leaves: its exit status and the three files.  A file that
    was not named is [None] inside and out. *)
Record stamped := Stamped { status : Z; ccp_file : option (option bytes); bdos_file : option (option bytes); hex_file : option str }.

(** [if path: try: stamp_file(...) except Exception: return 1]. *)
Definition stamp_named (path : option (option bytes)) (offset : Z) (stamp : bytes) (dry_run : bool)
    : bool * option (option bytes) :=
  match path with
  | None => (true, None)
  | Some file =>
      match stamp_file file offset stamp dry_run with
      | Ret data => (true, Some (Some data))
      | Raise _ => (false, Some file)
      end
  end.

Definition stamp_main (serial : str) (ccp bdos : option (option bytes)) (hex_out dry_run intel : bool) : stamped :=
  match parse_serial serial with
  | Raise _ => Stamped 1 ccp bdos None
  | Ret stamp =>
      let '(ok, ccp) := stamp_named ccp CCP_STAMP_OFFSET stamp dry_run in
      if negb ok then Stamped 1 ccp bdos None else
      let '(ok, bdos) := stamp_named bdos BDOS_STAMP_OFFSET stamp dry_run in
      if negb ok then Stamped 1 ccp bdos None else
      if hex_out then
        match emit_hex stamp (negb intel) with
        | Ret text => Stamped 0 ccp bdos (Some text)
        | Raise _ => Stamped 1 ccp bdos None
        end
      else Stamped 0 ccp bdos None
  end.

Example serial_textual : parse_serial (chars "2-261-2972") = Ret [213; 22; 8; 0; 11; 156].
Proof. reflexivity. Qed.
Example serial_bare : parse_serial (chars " 2972 ") = Ret [213; 22; 8; 0; 11; 156].
Proof. reflexivity. Qed.
Example serial_raw : parse_serial (chars "D5 16,08 00 0b9C") = Ret [213; 22; 8; 0; 11; 156].
Proof. reflexivity. Qed.
Example serial_bad : parse_serial (chars "2-261-99999999") = Raise ValueError /\ parse_serial (chars "a") = Raise ValueError.
Proof. by split. Qed.
Example shown : format_stamp [213; 22; 8; 0; 11; 156] =
  Ret (chars "2-261-2972 (version=0x16, bytes=d5 16 08 00 0b 9c)").
Proof. reflexivity. Qed.

(** ** Texts *)

Lemma digits_no_dash p : digits p -> 45 ∉ p.
Proof. intros H Hin. apply (proj1 (Forall_forall _ _) H) in Hin. done. Qed.

(** A text in the raw form has no dash and at least two digits a group. *)
Lemma hex_groups_chars n : forall s b, hex_groups n s = Some b -> (45 ∉ s) /\ (2 * n <= length s)%nat.
Proof.
  induction n as [|n IH]; intros s b H; cbn [hex_groups] in H.
  - destruct s; [|done]. split; [by apply not_elem_of_nil|cbn; lia].
  - destruct s as [|c [|d s]]; try done.
    destruct (hexval c) eqn:Ec, (hexval d) eqn:Ed; try done.
    destruct (hex_groups n (drop_while _ s)) as [r|] eqn:E; [|done]. apply IH in E as [E1 E2].
    assert (Hdrop : forall l, 45 ∈ l -> 45 ∈ drop_while (fun c => py_space c || (c =? 44)) l).
    { induction l as [|x l IHl]; [done|]. intros Hx. cbn [drop_while].
      destruct (py_space x || (x =? 44)) eqn:Ex; [|done]. apply IHl. apply elem_of_cons in Hx as [<-|]; done. }
    assert (Hlen : forall l : str, (length (drop_while (fun c => py_space c || (c =? 44)%Z) l) <= length l)%nat)
      by (induction l; cbn; [lia|destruct (_ || _); cbn; lia]).
    specialize (Hlen s). split; [|cbn; lia]. rewrite !not_elem_of_cons. split_and!; [by intros <-|by intros <-|].
    intros Hs. by apply E1, Hdrop.
Qed.

(** ** The forms of a serial number *)

Definition stamp_of (mfg serial : Z) : bytes :=
  [mfg mod 256; 22; mfg / 256; serial / 65536; serial / 256 mod 256; serial mod 256].

Lemma stamp_numbers mfg serial : 0 <= mfg < 65536 -> 0 <= serial < 16777216 ->
  (if negb ((0 <=? mfg) && (mfg <=? 65535)) then Raise ValueError
   else if negb ((0 <=? serial) && (serial <=? 16777215)) then Raise ValueError
   else mk_bytes [Z.land mfg 255; DEFAULT_VERSION; Z.land (Z.shiftr mfg 8) 255;
                  Z.land (Z.shiftr serial 16) 255; Z.land (Z.shiftr serial 8) 255; Z.land serial 255])
    = Ret (stamp_of mfg serial).
Proof.
  intros Hm Hs. rewrite !(proj2 (Z.leb_le _ _)) by lia. cbn [andb negb].
  fold (u8 mfg) (u8 (Z.shiftr mfg 8)) (u8 (Z.shiftr serial 16)) (u8 (Z.shiftr serial 8)) (u8 serial).
  rewrite !u8_mod, !Z.shiftr_div_pow2 by lia. change (2 ^ 8) with 256. change (2 ^ 16) with 65536.
  unfold stamp_of. rewrite (Z.mod_small (mfg / 256)), (Z.mod_small (serial / 65536)) by (Z.div_mod_to_equations; lia).
  apply mk_bytes_ok. unfold DEFAULT_VERSION. repeat (apply Forall_cons; split); unfold is_byte; try (Z.div_mod_to_equations; lia).
  constructor.
Qed.

Lemma hex_groups_dash s : 45 ∈ s -> hex_groups 6 s = None.
Proof.
  intros H. destruct (hex_groups 6 s) eqn:E; [|done]. by apply hex_groups_chars in E as [E _].
Qed.

Lemma strip_visible s : s <> [] -> Forall (fun c => py_space c = false) s -> strip_with py_space s = s.
Proof. intros Hn H. destruct s as [|c s]; [done|]. apply Forall_cons in H as [Hc Hs]. by apply strip_clean. Qed.

Lemma digits_visible s : digits s -> Forall (fun c => py_space c = false) s.
Proof. intros H. eapply Forall_impl; [exact H|]. apply digit_not_space. Qed.

(** The textual forms, for numbers given by any digits. *)
Lemma parse_one p : digits p -> p <> [] -> (length p <= 11)%nat -> 0 <= value 0 p < 16777216 ->
  parse_serial p = Ret (stamp_of 2261 (value 0 p)).
Proof.
  intros H Hn Hl Hv. unfold parse_serial. rewrite strip_visible by (done || by apply digits_visible).
  destruct (hex_groups 6 p) eqn:E; [apply hex_groups_chars in E; lia|].
  rewrite split_on_none by (by apply digits_no_dash). rewrite int_of_digits by done. cbn [mbind outcome_bind].
  apply stamp_numbers; [done|done].
Qed.

Lemma two_visible p q : digits p -> digits q -> Forall (fun c => py_space c = false) (p ++ 45 :: q).
Proof. intros Hp Hq. apply Forall_app. split; [by apply digits_visible|]. constructor; [done|]. by apply digits_visible. Qed.

Lemma dash_inside p q : 45 ∈ p ++ 45 :: q.
Proof. apply elem_of_app. right. by left. Qed.

(** Numbers after the text is split: the check of their ranges. *)
Definition numbers (mfg serial : Z) : outcome bytes :=
  if (mfg <? 65536) && (serial <? 16777216) then Ret (stamp_of mfg serial) else Raise ValueError.

Lemma numbers_checked mfg serial : 0 <= mfg -> 0 <= serial ->
  (if negb ((0 <=? mfg) && (mfg <=? 65535)) then Raise ValueError
   else if negb ((0 <=? serial) && (serial <=? 16777215)) then Raise ValueError
   else mk_bytes [Z.land mfg 255; DEFAULT_VERSION; Z.land (Z.shiftr mfg 8) 255;
                  Z.land (Z.shiftr serial 16) 255; Z.land (Z.shiftr serial 8) 255; Z.land serial 255])
    = numbers mfg serial.
Proof.
  intros Hm Hs. unfold numbers. destruct (Z.ltb_spec mfg 65536).
  - destruct (Z.ltb_spec serial 16777216); [by apply stamp_numbers|].
    rewrite (proj2 (Z.leb_gt serial 16777215)) by lia. rewrite andb_false_r. by destruct (negb _).
  - rewrite (proj2 (Z.leb_gt mfg 65535)) by lia. by rewrite andb_false_r.
Qed.

Lemma parse_two p q : digits p -> digits q -> p <> [] -> q <> [] -> 0 <= value 0 p -> 0 <= value 0 q ->
  parse_serial (p ++ 45 :: q) = numbers (value 0 p) (value 0 q).
Proof.
  intros Hp Hq Np Nq Vp Vq. unfold parse_serial.
  rewrite strip_visible by (first [by apply two_visible | by destruct p]). rewrite hex_groups_dash by apply dash_inside.
  rewrite split_on_app, !split_on_none by (by apply digits_no_dash). cbn [app].
  rewrite !int_of_digits by done. cbn [mbind outcome_bind]. by apply numbers_checked.
Qed.

Lemma parse_three c p q : is_digit c = true -> digits p -> digits q -> p <> [] -> q <> [] ->
  0 <= value 0 (c :: p) -> 0 <= value 0 q ->
  parse_serial ([c] ++ [45] ++ p ++ [45] ++ q) = numbers (value 0 (c :: p)) (value 0 q).
Proof.
  intros Hc Hp Hq Np Nq Vp Vq. unfold parse_serial. cbn [app].
  rewrite strip_visible; [|done|].
  2: { constructor; [by apply digit_not_space|]. constructor; [done|]. by apply two_visible. }
  rewrite hex_groups_dash by (right; by left).
  change (c :: 45 :: p ++ 45 :: q) with ([c] ++ 45 :: p ++ 45 :: q).
  assert (digits [c]) as Hd by (by constructor).
  rewrite !split_on_app, !split_on_none by (by apply digits_no_dash). cbn [app].
  rewrite (int_of_digits (c :: p)), (int_of_digits q) by (done || by constructor). cbn [mbind outcome_bind]. by apply numbers_checked.
Qed.

Lemma parse_display mfg serial : 0 <= mfg -> 0 <= serial -> parse_serial (display mfg serial) = numbers mfg serial.
Proof.
  intros Hm Hs. destruct (decimal_ok mfg Hm) as (D & V & N & _). destruct (decimal_width_ok 4 serial Hs) as (D4 & V4 & N4).
  unfold display. destruct (decimal mfg) as [|c [|d ds]] eqn:E; [done| |].
  - change ([c] ++ [45] ++ decimal_width 4 serial) with ([c] ++ 45 :: decimal_width 4 serial).
    rewrite parse_two by (done || lia). by rewrite V, V4.
  - apply Forall_cons in D as [Dc D]. rewrite (parse_three c (d :: ds)) by (done || lia). by rewrite V, V4.
Qed.

(** ** The raw form *)

Lemma hexval_lower d : 0 <= d < 16 -> hexval (hexdig_lower d) = Some d /\ py_space (hexdig_lower d) = false /\ hexdig_lower d <> 44.
Proof.
  intros H. assert (Hd : forall P : Z -> Prop, (forall k, (k < 16)%nat -> P (Z.of_nat k)) -> P d).
  { intros P HP. rewrite <- (Z2Nat.id d) by lia. apply HP. lia. }
  revert H. apply Hd. intros k Hk _. do 16 (destruct k as [|k]; [done|]). lia.
Qed.

Lemma hex_groups_spaced n : forall l, length l = n -> all_bytes l -> hex_groups n (hex_spaced l) = Some l.
Proof.
  induction n as [|n IH]; intros [|b l] Hl Hb; try done.
  apply Forall_cons in Hb as [Hb Hbs]. injection Hl as Hl. destruct (byte_digits b Hb) as [Hh Hlo].
  destruct (hexval_lower _ Hh) as (E1 & _ & _), (hexval_lower _ Hlo) as (E2 & _ & _).
  assert (b / 16 * 16 + b mod 16 = b) as Eb by (Z.div_mod_to_equations; lia).
  specialize (IH l Hl Hbs). destruct l as [|b' l].
  - unfold hex_spaced. cbn [map join hex_groups]. rewrite E1, E2. cbn [drop_while]. destruct n; [|done].
    cbn. by rewrite Eb.
  - change (hex_spaced (b :: b' :: l)) with
      (hexdig_lower (b / 16) :: hexdig_lower (b mod 16) :: 32 :: hex_spaced (b' :: l)).
    cbn [hex_groups]. rewrite E1, E2. cbn [drop_while]. change (py_space 32 || (32 =? 44)) with true. cbn match.
    assert (drop_while (fun c => py_space c || (c =? 44)) (hex_spaced (b' :: l)) = hex_spaced (b' :: l)) as ->.
    { apply Forall_cons in Hbs as [Hb' _]. destruct (byte_digits b' Hb') as [Hh' _].
      destruct (hexval_lower _ Hh') as (_ & S1 & S2).
      assert (exists r, hex_spaced (b' :: l) = hexdig_lower (b' / 16) :: r) as [r ->] by (destruct l; by eexists).
      cbn [drop_while]. by rewrite S1, (proj2 (Z.eqb_neq _ _)). }
    rewrite IH. cbn. by rewrite Eb.
Qed.

Lemma spaced_ends l : l <> [] -> all_bytes l ->
  exists c m d, hex_spaced l = c :: m ++ [d] /\ py_space c = false /\ py_space d = false.
Proof.
  induction l as [|b l IH]; intros Hn H; [done|]. apply Forall_cons in H as [Hb Hl].
  destruct (byte_digits b Hb) as [Hh Hlo].
  destruct (hexval_lower _ Hh) as (_ & S1 & _), (hexval_lower _ Hlo) as (_ & S2 & _).
  destruct l as [|b' l].
  - by exists (hexdig_lower (b / 16)), [], (hexdig_lower (b mod 16)).
  - destruct (IH ltac:(done) Hl) as (c & m & d & E & _ & Hd).
    exists (hexdig_lower (b / 16)), (hexdig_lower (b mod 16) :: 32 :: c :: m), d.
    split_and!; [|done|done].
    change (hex_spaced (b :: b' :: l)) with
      (hexdig_lower (b / 16) :: hexdig_lower (b mod 16) :: 32 :: hex_spaced (b' :: l)). by rewrite E.
Qed.

Lemma strip_ends c m d : py_space c = false -> py_space d = false ->
  strip_with py_space (c :: m ++ [d]) = c :: m ++ [d].
Proof.
  intros Hc Hd. unfold strip_with. rewrite drop_while_false by (by intros x [= <-]).
  unfold rstrip_with. rewrite drop_while_false; [apply rev_involutive|].
  intros x. rewrite app_comm_cons, rev_app_distr. cbn. by intros [= <-].
Qed.

Lemma parse_spaced l : length l = 6%nat -> all_bytes l -> parse_serial (hex_spaced l) = Ret l.
Proof.
  intros Hl Hb. unfold parse_serial. destruct (spaced_ends l ltac:(by intros ->) Hb) as (c & m & d & E & Hc & Hd).
  rewrite E, strip_ends by done. rewrite <- E. by rewrite hex_groups_spaced.
Qed.

(** ** What parse_serial returns *)

Lemma hex_groups_bytes n : forall s b, hex_groups n s = Some b -> length b = n /\ all_bytes b.
Proof.
  induction n as [|n IH]; intros s b H; cbn [hex_groups] in H.
  - destruct s; [|done]. by injection H as <-.
  - destruct s as [|c [|d s]]; try done.
    destruct (hexval c) as [h|] eqn:Ec, (hexval d) as [l|] eqn:Ed; try done.
    destruct (hex_groups n _) as [r|] eqn:E; [|done]. injection H as <-. apply IH in E as [E1 E2].
    split; [cbn; by rewrite E1|]. constructor; [|done].
    assert (Hv : forall x y, hexval x = Some y -> 0 <= y < 16).
    { intros x y. unfold hexval.
      repeat match goal with |- context [if ?b then _ else _] => destruct b eqn:? end; intros [= <-];
        repeat match goal with H : (_ && _)%bool = true |- _ => apply andb_true_iff in H as [?%Z.leb_le ?%Z.leb_le] end; lia. }
    apply Hv in Ec, Ed. unfold is_byte. lia.
Qed.

Lemma parse_serial_bytes s b : parse_serial s = Ret b -> length b = 6%nat /\ all_bytes b.
Proof.
  unfold parse_serial. destruct (hex_groups 6 _) as [r|] eqn:E.
  - intros [= <-]. by apply hex_groups_bytes in E.
  - destruct (match split_on 45 _ with [] => _ | _ => _ end) as [[mfg serial]|]; [|done]. cbn [mbind outcome_bind].
    destruct (negb _); [done|]. destruct (negb _); [done|]. unfold mk_bytes.
    destruct (forallb _ _) eqn:F; [|done]. intros [= <-]. split; [done|].
    apply Forall_forall. intros x Hx. rewrite forallb_forall in F. apply list_elem_of_In, F in Hx.
    unfold is_byteb in Hx. apply andb_true_iff in Hx as [?%Z.leb_le ?%Z.ltb_lt]. unfold is_byte. lia.
Qed.

(** ** Stamping *)

(** The file can take the stamp at [off]: it is there already, the place is empty,
    or it holds another CP/M 2.2 serial number. *)
Definition stampable (stamp data : bytes) (off : Z) : Prop :=
  off + zlength stamp <= zlength data /\
  let old := slice (Z.to_nat off) (Z.to_nat (off + zlength stamp)) data in
  old = stamp \/ Forall (fun b => b = 0) old \/ old !! 1%nat = Some DEFAULT_VERSION.

Lemma slice_length a b (l : bytes) : (a <= b)%nat -> (b <= length l)%nat -> length (slice a b l) = (b - a)%nat.
Proof. intros H1 H2. unfold slice. rewrite length_take, length_drop. lia. Qed.

Lemma place_same a (l : bytes) k : (a + k <= length l)%nat -> place a (slice a (a + k) l) l = l.
Proof.
  intros H. rewrite place_eq, slice_length by lia. unfold slice. replace (a + k - a)%nat with k by lia.
  rewrite <- drop_drop. by rewrite (take_drop k (drop a l)), take_drop.
Qed.

Lemma zeros_forallb (l : bytes) : forallb (fun b => b =? 0) l = true <-> Forall (fun b => b = 0) l.
Proof.
  rewrite forallb_forall, Forall_forall. split; intros H x Hx.
  - by apply Z.eqb_eq, H, list_elem_of_In.
  - apply Z.eqb_eq, H. by apply list_elem_of_In.
Qed.

Lemma stamp_file_stampable stamp data off dry : length stamp = 6%nat -> 0 <= off -> stampable stamp data off ->
  stamp_file (Some data) off stamp dry = Ret (if dry then data else place (Z.to_nat off) stamp data).
Proof.
  intros Hs Ho [Hl H]. cbv zeta in H. unfold stamp_file. rewrite (proj2 (Z.ltb_ge _ _)) by lia.
  set (old := slice (Z.to_nat off) (Z.to_nat (off + zlength stamp)) data) in *.
  assert (Z.to_nat (off + zlength stamp) = Z.to_nat off + length stamp)%nat as E by (unfold zlength in *; lia).
  destruct (decide (old = stamp)) as [Eo|Ne].
  - destruct dry; [done|]. f_equal. rewrite <- Eo at 1. unfold old. rewrite E, place_same; [done|]. unfold zlength in *. lia.
  - rewrite E. fold (place (Z.to_nat off) stamp data). destruct (forallb _ old) eqn:Ez; [by destruct dry|].
    destruct H as [H|[H|H]]; [done|by apply zeros_forallb in H; rewrite H in Ez|].
    rewrite (index_in old 1 DEFAULT_VERSION H). cbn [mbind outcome_bind]. rewrite Z.eqb_refl. by destruct dry.
Qed.

Lemma stamp_file_refused stamp data off dry : length stamp = 6%nat -> 0 <= off -> ~ stampable stamp data off ->
  stamp_file (Some data) off stamp dry = Raise ValueError.
Proof.
  intros Hs Ho H. unfold stamp_file. destruct (Z.ltb_spec (zlength data) (off + zlength stamp)) as [|Hl]; [done|].
  set (old := slice (Z.to_nat off) (Z.to_nat (off + zlength stamp)) data) in *.
  unfold stampable in H. fold old in H. destruct (decide (old = stamp)) as [|Ne]; [tauto|].
  destruct (forallb _ old) eqn:Ez; [apply zeros_forallb in Ez; tauto|].
  assert (length old = 6%nat) as L by (unfold old; rewrite slice_length; unfold zlength in *; lia).
  destruct (lookup_lt_is_Some_2 old 1 ltac:(lia)) as [v Hv]. rewrite (index_in old 1 v Hv). cbn [mbind outcome_bind].
  destruct (Z.eqb_spec v DEFAULT_VERSION) as [->|]; [tauto|done].
Qed.

(** A stamped file can be stamped again, with the same bytes. *)
Lemma restampable stamp data off : length stamp = 6%nat -> 0 <= off -> off + zlength stamp <= zlength data ->
  stampable stamp (place (Z.to_nat off) stamp data) off /\
  place (Z.to_nat off) stamp (place (Z.to_nat off) stamp data) = place (Z.to_nat off) stamp data.
Proof.
  intros Hs Ho Hl. assert (Z.to_nat (off + zlength stamp) = Z.to_nat off + length stamp)%nat as E by (unfold zlength in *; lia).
  assert (slice (Z.to_nat off) (Z.to_nat off + length stamp) (place (Z.to_nat off) stamp data) = stamp) as Hold.
  { unfold slice. rewrite place_eq, drop_app_length', take_app_length'; [done|lia|].
    rewrite length_take. unfold zlength in *. lia. }
  assert (length (place (Z.to_nat off) stamp data) = length data) as Lp by (apply length_place; unfold zlength in *; lia).
  split.
  - split; [unfold zlength in *; lia|]. rewrite E, Hold. by left.
  - rewrite <- Hold at 1. apply place_same. unfold zlength in *. lia.
Qed.

(** ** The overlay file *)

Lemma stamp_record_line rtype addr data : record_ok rtype addr data ->
  stamp_record rtype addr data = Ret (record_line rtype addr data).
Proof.
  intros H. pose proof (record_all_bytes _ _ _ H) as Hb. destruct H as (Hr & Ha & Hd & Hl).
  unfold stamp_record, record_line. destruct (high_byte addr Ha) as [Hh ->]. unfold record_bytes in *. cbv zeta in *.
  apply Forall_app in Hb as [Hb _]. apply Forall_app in Hb as [Hb _].
  rewrite mk_bytes_ok by done. cbn [mbind outcome_bind]. fold (u8 (- zsum ([zlength data; Z.shiftr addr 8; Z.land addr 255; rtype] ++ data))).
  rewrite fmt_hex_2 by apply u8_range. by rewrite <- hex_bytes_app.
Qed.

Lemma comment_skipped l : parse_line (59 :: l) = Ret Skip.
Proof.
  unfold parse_line, strip_with. rewrite drop_while_false by (by intros x [= <-]).
  assert (exists m, rstrip_with py_space (59 :: l) = 59 :: m) as [m ->]; [|done].
  unfold rstrip_with. cbn [rev].
  assert (forall q, exists q', drop_while py_space (q ++ [59]) = q' ++ [59]) as Hq.
  { induction q as [|x q [q' IH]]; cbn [app drop_while].
    - by exists [].
    - destruct (py_space x); [by exists q'|by exists (x :: q)]. }
  destruct (Hq (rev l)) as [q' ->]. rewrite rev_app_distr. by eexists.
Qed.

Lemma printable_clean l : Forall (fun c => 32 <= c) l -> clean l.
Proof.
  intros H. eapply Forall_impl; [exact H|]. intros c Hc. cbn in Hc. unfold line_break. split; [|lia].
  apply orb_false_iff. split; apply andb_false_iff; right; apply Z.leb_gt; lia.
Qed.

Lemma digits_printable l : digits l -> Forall (fun c => 32 <= c) l.
Proof. intros H. eapply Forall_impl; [exact H|]. intros c Hc%is_digit_spec. lia. Qed.

Lemma display_printable mfg serial : 0 <= mfg -> 0 <= serial -> Forall (fun c => 32 <= c) (display mfg serial).
Proof.
  intros Hm Hs. destruct (decimal_ok mfg Hm) as (D & _). destruct (decimal_width_ok 4 serial Hs) as (D4 & _).
  apply digits_printable in D, D4. unfold display.
  destruct (decimal mfg) as [|c [|d ds]]; rewrite ?Forall_app; rewrite ?Forall_cons in *;
    split_and!; try done; try lia; tauto.
Qed.

Lemma spaced_printable l : all_bytes l -> Forall (fun c => 32 <= c) (hex_spaced l).
Proof.
  assert (Hd : forall d, 0 <= d -> 32 <= hexdig_lower d) by (intros d Hd; unfold hexdig_lower; destruct (d <? 10); lia).
  induction 1 as [|b l Hb Hl IH]; [done|]. destruct (byte_digits b Hb).
  assert (32 <= hexdig_lower (b / 16) /\ 32 <= hexdig_lower (b mod 16)) as [? ?] by (split; apply Hd; lia).
  destruct l as [|b' l]; [by repeat constructor|].
  change (hex_spaced (b :: b' :: l)) with
      (hexdig_lower (b / 16) :: hexdig_lower (b mod 16) :: 32 :: hex_spaced (b' :: l)).
  repeat (constructor; [done|]). done.
Qed.

Lemma format_stamp_printable stamp : length stamp = 6%nat -> all_bytes stamp ->
  exists t, format_stamp stamp = Ret t /\ Forall (fun c => 32 <= c) t.
Proof.
  intros Hl Hb. pose proof Hb as Hall. destruct stamp as [|s0 [|s1 [|s2 [|s3 [|s4 [|s5 [|s6 l]]]]]]]; try done.
  eexists. split; [done|]. rewrite !Forall_cons in Hb. destruct Hb as (H0 & H1 & H2 & H3 & H4 & H5 & _). unfold is_byte in *.
  assert (0 <= Z.shiftl s2 8 /\ 0 <= Z.shiftl s3 16 /\ 0 <= Z.shiftl s4 8) as (? & ? & ?)
    by (rewrite !Z.shiftl_nonneg; lia).
  rewrite !Forall_app. split_and!.
  - apply display_printable; rewrite ?Z.lor_nonneg; lia.
  - decided.
  - rewrite fmt_hex_2 by done. apply (hex_bytes_chars (fun c => 32 <= c)); [by constructor|].
    intros d Hd. unfold hexdig. destruct (d <? 10); lia.
  - decided.
  - by apply spaced_printable.
  - decided.
Qed.

Lemma emit_hex_lines stamp with_cpm_eof : length stamp = 6%nat -> all_bytes stamp ->
  exists l1 l2 l3 term, (term = intel_eof \/ term = cpm_eof) /\ clean (59 :: l1) /\ clean (59 :: l2) /\ clean (59 :: l3) /\
    emit_hex stamp with_cpm_eof = Ret (join [10] [59 :: l1; 59 :: l2; 59 :: l3;
      record_line 0 CCP_STAMP_ADDR stamp; record_line 0 BDOS_STAMP_ADDR stamp; term] ++ [10]).
Proof.
  intros Hl Hb. destruct (format_stamp_printable stamp Hl Hb) as (t & Ht & Hp). unfold emit_hex. rewrite Ht.
  assert (Hok : forall a, 0 <= a < 65536 -> record_ok 0 a stamp).
  { intros a Ha. unfold record_ok. split_and!; [unfold is_byte; lia|lia|lia|done|unfold zlength; lia]. }
  rewrite !stamp_record_line by (first [by apply Hok | by unfold record_ok; split_and!]).
  cbn [mbind outcome_bind].
  exists (tail (chars "; RC702 CP/M 2.2 serial stamp overlay")), (tail (chars "; Stamp: ") ++ t),
    (tail (chars "; Apply with MLOAD on top of the base CCP+BDOS image.")), (if with_cpm_eof then cpm_eof else intel_eof).
  split_and!; [destruct with_cpm_eof; [by right|by left]|apply printable_clean; decided| |apply printable_clean; decided|].
  - apply printable_clean. change (59 :: tail (chars "; Stamp: ") ++ t) with (chars "; Stamp: " ++ t).
    apply Forall_app. split; [decided|done].
  - by destruct with_cpm_eof.
Qed.

(** ** Properties *)

(** Serial numbers can be read back.  For any six bytes, format_stamp shows
    the manufacturer's and the disk's number, and parse_serial reads what it shows
    back to the same bytes with version 16h; it reads the bytes written in
    hexadecimal back exactly, and the disk's number alone as Regnecentralen's.
    Numbers beyond 16 and 24 bits are refused. *)
Lemma serials_read_back s0 s1 s2 s3 s4 s5 :
  let stamp := [s0; s1; s2; s3; s4; s5] in
  let mfg := s2 * 256 + s0 in
  let serial := s3 * 65536 + s4 * 256 + s5 in
  all_bytes stamp ->
  (exists rest, format_stamp stamp = Ret (display mfg serial ++ rest)) /\
  parse_serial (display mfg serial) = Ret [s0; DEFAULT_VERSION; s2; s3; s4; s5] /\
  parse_serial (hex_spaced stamp) = Ret stamp /\
  parse_serial (decimal serial) = Ret [DEFAULT_MFG_LOW; DEFAULT_VERSION; DEFAULT_MFG_HIGH; s3; s4; s5] /\
  (forall m n, 0 <= m -> 0 <= n -> 65535 < m \/ 16777215 < n -> parse_serial (display m n) = Raise ValueError).
Proof.
  intros stamp mfg serial Hb. pose proof Hb as Hall. unfold stamp in Hb. rewrite !Forall_cons in Hb.
  destruct Hb as (H0 & H1 & H2 & H3 & H4 & H5 & _). unfold is_byte in *.
  assert (stamp_of mfg serial = [s0; DEFAULT_VERSION; s2; s3; s4; s5]) as Es.
  { unfold stamp_of, DEFAULT_VERSION, mfg, serial. repeat f_equal; Z.div_mod_to_equations; lia. }
  split_and!.
  - eexists. unfold format_stamp, stamp.
    assert (Z.lor (Z.shiftl s2 8) s0 = mfg) as -> by (rewrite Z.lor_comm, lor_shiftl by lia; unfold mfg; lia).
    assert (Z.lor (Z.lor (Z.shiftl s3 16) (Z.shiftl s4 8)) s5 = serial) as ->.
    { rewrite (Z.lor_comm (Z.shiftl s3 16)), (lor_shiftl (Z.shiftl s4 8) s3 16) by
        (try lia; rewrite Z.shiftl_mul_pow2 by lia; lia).
      rewrite Z.shiftl_mul_pow2, Z.lor_comm by lia.
      replace (s4 * 2 ^ 8 + s3 * 2 ^ 16) with (Z.shiftl (s3 * 256 + s4) 8) by (rewrite Z.shiftl_mul_pow2; lia).
      rewrite lor_shiftl by lia. unfold serial. lia. }
    reflexivity.
  - rewrite parse_display by lia. unfold numbers. rewrite !(proj2 (Z.ltb_lt _ _)) by lia. cbn [andb]. by rewrite Es.
  - by apply parse_spaced.
  - destruct (decimal_ok serial ltac:(lia)) as (D & V & N & L). rewrite parse_one; rewrite ?V; try done; try lia.
    f_equal. unfold stamp_of, DEFAULT_MFG_LOW, DEFAULT_VERSION, DEFAULT_MFG_HIGH, serial.
    repeat f_equal; Z.div_mod_to_equations; lia.
  - intros m n Hm Hn Ho. rewrite parse_display by done. unfold numbers.
    destruct (Z.ltb_spec m 65536), (Z.ltb_spec n 16777216); try done; lia.
Qed.

Lemma overlay_applied stamp with_cpm_eof ccp bdos : length stamp = 6%nat -> all_bytes stamp ->
  zlength ccp = 2048 -> 6 <= zlength bdos ->
  exists text, emit_hex stamp with_cpm_eof = Ret text /\
    apply_hex (CCP_STAMP_ADDR - CCP_STAMP_OFFSET) (ccp ++ bdos) [text] =
      Ret (place (Z.to_nat CCP_STAMP_OFFSET) stamp ccp ++ place (Z.to_nat BDOS_STAMP_OFFSET) stamp bdos).
Proof.
  intros Hl Hb Hc Hd. destruct (emit_hex_lines stamp with_cpm_eof Hl Hb) as (l1 & l2 & l3 & term & Ht & C1 & C2 & C3 & E).
  eexists. split; [exact E|]. destruct (terminator term Ht) as (Tc & ts & Hp & Ha).
  assert (Hok : forall a, 0 <= a < 65536 -> record_ok 0 a stamp).
  { intros a Ha'. unfold record_ok. split_and!; [unfold is_byte; lia|lia|lia|done|unfold zlength; lia]. }
  assert (stamp <> []) as Hne by (by intros ->).
  destruct (record_gives _ _ (Hok CCP_STAMP_ADDR ltac:(done)) Hne) as (K1 & P1 & _).
  destruct (record_gives _ _ (Hok BDOS_STAMP_ADDR ltac:(done)) Hne) as (K2 & P2 & _).
  rewrite apply_text by (first [by right; right | by repeat (constructor; [done|])]).
  cbn [parse_lines] in *. rewrite !comment_skipped. cbn [mbind outcome_bind]. rewrite P1, P2. cbn [mbind outcome_bind fst snd] in Hp |- *.
  rewrite Hp. cbn [mbind outcome_bind].
  change (CCP_STAMP_ADDR - CCP_STAMP_OFFSET) with 50176. change CCP_STAMP_ADDR with 50984. change BDOS_STAMP_ADDR with 52224.
  change CCP_STAMP_OFFSET with 808. change BDOS_STAMP_OFFSET with 0. unfold zlength in *.
  rewrite (apply_block 50176 [(50984, stamp)] ((52224, stamp) :: ts) 50984 stamp).
  2: { cbn. split; [done|]. exists []. by rewrite app_nil_r. }
  2: { lia. }
  2: { unfold zlength. rewrite length_app. lia. }
  assert (length (place (Z.to_nat 808) stamp ccp) = length ccp) as Lp by (apply length_place; lia).
  assert (place (Z.to_nat (50984 - 50176)) stamp (ccp ++ bdos) = place (Z.to_nat 808) stamp ccp ++ bdos) as ->.
  { change (50984 - 50176) with 808. rewrite !place_eq, take_app_le, drop_app_le by lia. by rewrite <- !app_assoc. }
  rewrite (apply_block 50176 [(52224, stamp)] ts 52224 stamp).
  2: { cbn. split; [done|]. exists []. by rewrite app_nil_r. }
  2: { lia. }
  2: { unfold zlength. rewrite length_app. lia. }
  rewrite Ha. assert (place (Z.to_nat (52224 - 50176)) stamp (place (Z.to_nat 808) stamp ccp ++ bdos) =
    place (Z.to_nat 808) stamp ccp ++ place (Z.to_nat 0) stamp bdos) as ->; [|done].
  change (52224 - 50176) with 2048. rewrite (place_eq (Z.to_nat 2048)), (place_eq (Z.to_nat 0)).
  rewrite take_app_length', drop_app_ge by lia.
  replace (Z.to_nat 2048 + length stamp - length (place (Z.to_nat 808) stamp ccp))%nat with (Z.to_nat 0 + length stamp)%nat by lia.
  done.
Qed.

(** Stamping and the overlay agree.  For a serial number the script reads, a
    CCP of 2048 bytes and a BDOS that can take it, the run ends with status 0 and
    both files stamped in place; the HEX file it wrote, laid over the unstamped
    CCP and BDOS, gives exactly the stamped ones; a second run changes nothing, and
    a dry run leaves the files alone.  If the BDOS cannot take the stamp the run
    ends with status 1, with the CCP already stamped; if the CCP cannot, with
    nothing written. *)
Lemma stamping_and_overlay_agree serial stamp ccp bdos intel :
  parse_serial serial = Ret stamp -> zlength ccp = 2048 ->
  let ccp' := place (Z.to_nat CCP_STAMP_OFFSET) stamp ccp in
  let bdos' := place (Z.to_nat BDOS_STAMP_OFFSET) stamp bdos in
  let run c b dry := stamp_main serial (Some (Some c)) (Some (Some b)) true dry intel in
  (stampable stamp ccp CCP_STAMP_OFFSET -> stampable stamp bdos BDOS_STAMP_OFFSET ->
    exists text, run ccp bdos false = Stamped 0 (Some (Some ccp')) (Some (Some bdos')) (Some text) /\
      apply_hex (CCP_STAMP_ADDR - CCP_STAMP_OFFSET) (ccp ++ bdos) [text] = Ret (ccp' ++ bdos') /\
      run ccp' bdos' false = Stamped 0 (Some (Some ccp')) (Some (Some bdos')) (Some text) /\
      run ccp bdos true = Stamped 0 (Some (Some ccp)) (Some (Some bdos)) (Some text)) /\
  (stampable stamp ccp CCP_STAMP_OFFSET -> ~ stampable stamp bdos BDOS_STAMP_OFFSET ->
    run ccp bdos false = Stamped 1 (Some (Some ccp')) (Some (Some bdos)) None) /\
  (~ stampable stamp ccp CCP_STAMP_OFFSET ->
    run ccp bdos false = Stamped 1 (Some (Some ccp)) (Some (Some bdos)) None).
Proof.
  intros Hp Hc ccp' bdos' run. destruct (parse_serial_bytes _ _ Hp) as [Hl Hb].
  assert (0 <= CCP_STAMP_OFFSET /\ 0 <= BDOS_STAMP_OFFSET) as [H0 H1] by done.
  unfold run, stamp_main. rewrite Hp. unfold stamp_named. split_and!.
  - intros Sc Sb. destruct (overlay_applied stamp (negb intel) ccp bdos Hl Hb Hc) as (text & Et & Ha).
    { destruct Sb as [Sb _]. unfold BDOS_STAMP_OFFSET, zlength in *. lia. }
    destruct (restampable stamp ccp _ Hl H0 (proj1 Sc)) as [Sc' Ec], (restampable stamp bdos _ Hl H1 (proj1 Sb)) as [Sb' Eb].
    exists text. unfold ccp', bdos'. rewrite !stamp_file_stampable by done. cbn [negb].
    rewrite Ec, Eb, Et. done.
  - intros Sc Sb. rewrite (stamp_file_stampable stamp ccp), stamp_file_refused by done. done.
  - intros Sc. by rewrite stamp_file_refused by done.
Qed.


