(* ===== verification/Spr.v ===== *)
(** * Page-relocatable modules: cpnet/build_snios.py and netboot_server.spr_relocate.

    build_snios.py has zmac assemble SNIOS at two origins a page apart, takes the
    bytes that differ by one as the ones to relocate and packs code and bitmap
    into an SPR file; netboot_server.py loads such a file at a page.  The
    assembler is a parameter, a function from the origin to the bytes; what the
    two programs rely on about it is [PageRelocatable]. *)

From S2P Require Import Prelude Imd Hex.
#[local] Open Scope Z_scope.

(** ** build_snios.py *)

(** The loop that compares the assemblies. *)
Definition bitmap_bits (code_0000 code_0100 : bytes) : list bool :=
  zip_with (fun b0 b1 => b1 - b0 =? 1) code_0000 code_0100.

(** One byte of the bitmap, of the bits from [i] on. *)
Definition bitmap_byte (bits : list bool) (i : Z) : Z :=
  foldl (fun byte j =>
      if (i + j <? zlength bits) && default false (bits !! Z.to_nat (i + j))
      then Z.lor byte (Z.shiftr 128 j) else byte)
    0 [0; 1; 2; 3; 4; 5; 6; 7].

Definition bitmap_bytes (bits : list bool) : bytes :=
  map (bitmap_byte bits) (range_step (length bits) 0 (zlength bits) 8).

(** [while len(combined) % 128 != 0: combined.append(0)]. *)
Fixpoint pad_sector (fuel : nat) (combined : bytes) : bytes :=
  match fuel with
  | O => combined
  | S fuel' => if zlength combined mod 128 =? 0 then combined else pad_sector fuel' (combined ++ [0])
  end.

Definition build_spr (code bitmap : bytes) : bytes :=
  let code_len := zlength code in
  let data_len := 0 in
  let param := replicate 128 0 in
  let param := <[1%nat := Z.land code_len 255]> param in
  let param := <[2%nat := Z.land (Z.shiftr code_len 8) 255]> param in
  let param := <[3%nat := Z.land data_len 255]> param in
  let param := <[4%nat := Z.land (Z.shiftr data_len 8) 255]> param in
  let data_sector := replicate 128 0 in
  let combined := pad_sector 128 (code ++ bitmap) in
  param ++ data_sector ++ combined.

(** The source handed to zmac: without its ORG and .Z80 lines. *)
Fixpoint is_prefix (p s : str) : bool :=
  match p, s with
  | [], _ => true
  | x :: p', y :: s' => (x =? y) && is_prefix p' s'
  | _, [] => false
  end.
Definition snios_body (lines : list str) : list str :=
  filter (fun line => negb (let stripped := upper (strip_with py_space line) in
                            is_prefix (chars "ORG") stripped || is_prefix (chars ".Z80") stripped) = true) lines.

Section Build.
(** [zmac lines org]: the assembled bytes, or [None] when zmac fails. *)
Context (zmac : list str -> Z -> option bytes).

Definition assemble (body : list str) (org : Z) : outcome bytes :=
  match zmac body org with Some data => Ret data | None => Raise (SystemExit 1) end.

(** The SPR file [main] writes for the source's lines. *)
Definition build_snios (lines : list str) : outcome bytes :=
  let body := snios_body lines in
  code_0000 ← assemble body 0;
  code_0100 ← assemble body 256;
  if negb (zlength code_0000 =? zlength code_0100) then Raise (SystemExit 1) else
  Ret (build_spr code_0000 (bitmap_bytes (bitmap_bits code_0000 code_0100))).
End Build.

(** ** netboot_server.py *)

(** [for i in range(code_len)], from [i] on. *)
Fixpoint relocate_from (bitmap : bytes) (base_page : Z) (n i : nat) (code : bytes) : outcome bytes :=
  match n with
  | O => Ret code
  | S n' =>
      b ← index bitmap (Nat.div i 8);
      code' ← (if Z.land (Z.shiftr b (7 - Z.land (Z.of_nat i) 7)) 1 =? 0 then Ret code
               else c ← index code i; store code i (Z.land (c + base_page) 255));
      relocate_from bitmap base_page n' (S i) code'
  end.

Definition spr_relocate (spr_bytes : bytes) (base_addr : Z) : outcome bytes :=
  if negb (Z.land base_addr 255 =? 0) then Raise AssertionError else
  let base_page := Z.land (Z.shiftr base_addr 8) 255 in
  b1 ← index spr_bytes 1; b2 ← index spr_bytes 2;
  let code_len := Z.lor b1 (Z.shiftl b2 8) in
  b4 ← index spr_bytes 4; b5 ← index spr_bytes 5;
  let data_len := Z.lor b4 (Z.shiftl b5 8) in
  let code_off := 128 + 128 in
  let code := takeZ code_len (dropZ code_off spr_bytes) in
  let data := takeZ data_len (dropZ (code_off + code_len) spr_bytes) in
  let bm_off := code_off + code_len + data_len in
  let bitmap := takeZ (code_len / 8) (dropZ bm_off spr_bytes) in
  if negb (zlength bitmap =? code_len / 8) then Raise AssertionError else
  code ← relocate_from bitmap base_page (Z.to_nat code_len) 0 code;
  Ret (code ++ data).

(** Eight bytes of code, the third and the sixth an address's page. *)
Example small_spr :
  let zmac := fun (_ : list str) org => Some [195; 4; org / 256; 205; 0; 1 + org / 256; 201; 0] in
  (spr ← build_snios zmac []; spr_relocate spr 55296) = Ret [195; 4; 216; 205; 0; 217; 201; 0].
Proof. vm_compute. reflexivity. Qed.

(** ** The bitmap *)

Lemma pack_bit (f : Z -> bool) j : 0 <= j < 8 ->
  Z.land (Z.shiftr (foldl (fun byte j => if f j then Z.lor byte (Z.shiftr 128 j) else byte) 0 [0; 1; 2; 3; 4; 5; 6; 7]) (7 - j)) 1
    = if f j then 1 else 0.
Proof.
  intros H. assert (j = 0 \/ j = 1 \/ j = 2 \/ j = 3 \/ j = 4 \/ j = 5 \/ j = 6 \/ j = 7) as Hj by lia. cbn [foldl].
  destruct (f 0) eqn:?, (f 1) eqn:?, (f 2) eqn:?, (f 3) eqn:?, (f 4) eqn:?, (f 5) eqn:?, (f 6) eqn:?, (f 7) eqn:?;
    repeat destruct Hj as [->|Hj]; subst; match goal with E : f ?k = _ |- context [f ?k] => rewrite E end; reflexivity.
Qed.

Lemma range_step_lookup stop step fuel : forall o k, 0 < step -> 0 <= o -> o + Z.of_nat k * step < stop -> (k < fuel)%nat ->
  range_step fuel o stop step !! k = Some (o + Z.of_nat k * step).
Proof.
  induction fuel as [|fuel IH]; intros o k Hs Ho Hk Hf; [lia|]. cbn [range_step].
  rewrite (proj2 (Z.ltb_lt _ _)) by nia. destruct k as [|k]; [cbn; f_equal; lia|].
  cbn [lookup list_lookup]. rewrite IH by lia. f_equal. lia.
Qed.

Lemma map_lookup {A B} (f : A -> B) l k : map f l !! k = f <$> (l !! k).
Proof. revert k. induction l as [|x l IH]; intros [|k]; cbn; done. Qed.

Lemma bitmap_lookup bits k : 8 * Z.of_nat k < zlength bits ->
  bitmap_bytes bits !! k = Some (bitmap_byte bits (8 * Z.of_nat k)).
Proof.
  intros H. unfold bitmap_bytes. rewrite map_lookup, range_step_lookup; try (unfold zlength in *; lia).
  replace (0 + Z.of_nat k * 8) with (8 * Z.of_nat k) by lia. done.
Qed.

Lemma length_bitmap bits : zlength bits / 8 <= zlength (bitmap_bytes bits).
Proof.
  destruct (Z.eq_dec (zlength bits / 8) 0) as [->|Hn]; [apply zlength_pos|].
  pose proof (zlength_pos bits).
  assert (is_Some (bitmap_bytes bits !! Z.to_nat (zlength bits / 8 - 1))) as H1%lookup_lt_is_Some_1.
  { rewrite bitmap_lookup; [done|]. Z.div_mod_to_equations. lia. }
  unfold zlength in *. lia.
Qed.

Lemma bitmap_bit (bits : list bool) i (r : bool) : bits !! i = Some r ->
  exists b, bitmap_bytes bits !! (i / 8)%nat = Some b /\
    Z.land (Z.shiftr b (7 - Z.land (Z.of_nat i) 7)) 1 = if r then 1 else 0.
Proof.
  intros H. pose proof (lookup_lt_Some _ _ _ H) as Hi. pose proof (Nat.div_mod i 8 ltac:(lia)) as Hd.
  pose proof (Nat.mod_upper_bound i 8 ltac:(lia)) as Hm.
  eexists. split; [apply bitmap_lookup; unfold zlength; lia|].
  assert (Z.land (Z.of_nat i) 7 = Z.of_nat (i mod 8)) as ->
    by (change 7 with (Z.ones 3); rewrite Z.land_ones by lia; change (2 ^ 3) with (Z.of_nat 8); by rewrite Nat2Z.inj_mod).
  unfold bitmap_byte. rewrite (pack_bit (fun j => (8 * Z.of_nat (i / 8) + j <? zlength bits) &&
    default false (bits !! Z.to_nat (8 * Z.of_nat (i / 8) + j)))) by lia.
  assert (8 * Z.of_nat (i / 8) + Z.of_nat (i mod 8) = Z.of_nat i) as -> by lia.
  rewrite (proj2 (Z.ltb_lt _ _)) by (unfold zlength; lia). rewrite Nat2Z.id, H. by destruct r.
Qed.

(** ** The file *)

Lemma pad_sector_ok fuel : forall c, (128 - zlength c mod 128) mod 128 <= Z.of_nat fuel ->
  exists k, pad_sector fuel c = c ++ replicate k 0 /\ (128 | zlength (pad_sector fuel c)).
Proof.
  induction fuel as [|fuel IH]; intros c H; cbn [pad_sector].
  - exists 0%nat. rewrite app_nil_r. split; [done|]. apply Z.mod_divide; [lia|].
    pose proof (Z.mod_pos_bound (zlength c) 128 ltac:(lia)). Z.div_mod_to_equations. lia.
  - destruct (Z.eqb_spec (zlength c mod 128) 0) as [E|E].
    + exists 0%nat. rewrite app_nil_r. split; [done|]. by apply Z.mod_divide.
    + destruct (IH (c ++ [0])) as (k & -> & Hk).
      { rewrite zlength_app. change (zlength [0]) with 1. Z.div_mod_to_equations. lia. }
      exists (S k). rewrite <- app_assoc. split; [done|]. by rewrite <- app_assoc in Hk.
Qed.

Lemma spr_fields code bitmap : zlength code < 65536 ->
  let spr := build_spr code bitmap in
  exists k, index spr 1 = Ret (zlength code mod 256) /\ index spr 2 = Ret (zlength code / 256) /\
    index spr 4 = Ret 0 /\ index spr 5 = Ret 0 /\
    dropZ 256 spr = code ++ bitmap ++ replicate k 0 /\ (128 | zlength spr).
Proof.
  intros H spr. unfold spr, build_spr. destruct (pad_sector_ok 128 (code ++ bitmap)) as (k & Ek & Hk).
  { pose proof (Z.mod_pos_bound (128 - zlength (code ++ bitmap) mod 128) 128 ltac:(lia)). lia. }
  rewrite Ek in *. exists k. pose proof (zlength_pos code). split_and!.
  - rewrite <- u8_mod. reflexivity.
  - assert (zlength code / 256 = Z.land (Z.shiftr (zlength code) 8) 255) as ->.
    { fold (u8 (Z.shiftr (zlength code) 8)). rewrite u8_mod, Z.shiftr_div_pow2 by lia. change (2 ^ 8) with 256.
      Z.div_mod_to_equations. lia. }
    reflexivity.
  - reflexivity.
  - reflexivity.
  - rewrite dropZ_drop, app_assoc, drop_app_length' by reflexivity. by rewrite <- app_assoc.
  - rewrite app_assoc, zlength_app. apply Z.divide_add_r; [by exists 2|done].
Qed.

(** ** The loader's loop *)

(** A bitmap that marks the bytes [reloc] says, as far as [n]. *)
Definition marks (bitmap : bytes) (reloc : nat -> bool) (n : nat) : Prop :=
  forall i, (i < n)%nat -> exists b, bitmap !! (i / 8)%nat = Some b /\
    Z.land (Z.shiftr b (7 - Z.land (Z.of_nat i) 7)) 1 = if reloc i then 1 else 0.

Definition relocated (reloc : nat -> bool) (page : Z) (i : nat) (b : Z) : Z := if reloc i then u8 (b + page) else b.

Lemma relocate_from_ok bitmap reloc page n : forall i front rest,
  marks bitmap reloc (i + n) -> length front = i -> length rest = n ->
  relocate_from bitmap page n i (front ++ rest) = Ret (front ++ imap (fun k b => relocated reloc page (i + k) b) rest).
Proof.
  induction n as [|n IH]; intros i front rest Hm Hd Hr.
  - destruct rest; [|done]. reflexivity.
  - destruct rest as [|c rest]; [done|]. injection Hr as Hr. cbn [relocate_from].
    destruct (Hm i ltac:(lia)) as (b & Hb & Hbit). rewrite (index_in _ _ _ Hb). cbn [mbind outcome_bind]. rewrite Hbit.
    assert ((front ++ c :: rest) !! i = Some c) as Hc by (by apply list_lookup_middle).
    assert (Hnext : forall c', relocate_from bitmap page n (S i) (front ++ c' :: rest) =
      Ret (front ++ c' :: imap (fun k b => relocated reloc page (i + S k) b) rest)).
    { intros c'. rewrite (cons_middle c'), app_assoc, (IH (S i)); [|by rewrite Nat.add_succ_comm|rewrite length_app; cbn; lia|done].
      rewrite <- app_assoc. cbn [app]. do 3 f_equal. apply imap_ext. intros k x _. f_equal. lia. }
    cbn [imap]. unfold relocated at 1. rewrite Nat.add_0_r. destruct (reloc i).
    + change (1 =? 0) with false. cbn match. rewrite (index_in _ _ _ Hc). cbn [mbind outcome_bind].
      rewrite store_in; [|apply u8_range|rewrite length_app; cbn; lia]. cbn [mbind outcome_bind].
      rewrite <- Hd at 2. rewrite insert_app_r_alt, Nat.sub_diag by lia. apply Hnext.
    + change (0 =? 0) with true. cbn [mbind outcome_bind]. apply Hnext.
Qed.

(** A bitmap too short for the code. *)
Lemma relocate_from_short bitmap page n : forall i code,
  (i <= 8 * length bitmap)%nat -> (8 * length bitmap < i + n)%nat -> (i + n <= length code)%nat ->
  relocate_from bitmap page n i code = Raise IndexError.
Proof.
  induction n as [|n IH]; intros i code Hi Hn Hc; [lia|]. cbn [relocate_from].
  pose proof (Nat.div_mod i 8 ltac:(lia)) as Hd. pose proof (Nat.mod_upper_bound i 8 ltac:(lia)) as Hm.
  destruct (bitmap !! (i / 8)%nat) as [b|] eqn:Eb.
  2: { assert (index bitmap (i / 8) = Raise IndexError) as -> by (unfold index; by rewrite Eb). done. }
  rewrite (index_in _ _ _ Eb). apply lookup_lt_Some in Eb. cbn [mbind outcome_bind].
  destruct (Z.land _ 1 =? 0).
  - cbn [mbind outcome_bind]. apply IH; lia.
  - destruct (lookup_lt_is_Some_2 code i ltac:(lia)) as [c Hc']. rewrite (index_in _ _ _ Hc'). cbn [mbind outcome_bind].
    rewrite store_in by (apply u8_range || lia). cbn [mbind outcome_bind]. apply IH; rewrite ?length_insert; lia.
Qed.

(** ** Properties *)

(** What the programs rely on about the assembled source: at any page the
    assembler gives the same bytes, except that the page is added to those that
    are an address's high byte. *)
Class PageRelocatable (asm : Z -> option bytes) (code : bytes) (reloc : nat -> bool) : Prop :=
  relocatable : forall page, 0 <= page < 256 -> asm (256 * page) = Some (imap (relocated reloc page) code).

Lemma bits_of_assemblies reloc code : all_bytes code ->
  (forall i, reloc i = true -> code !! i <> Some 255) ->
  forall i, (i < length code)%nat ->
    bitmap_bits (imap (relocated reloc 0) code) (imap (relocated reloc 1) code) !! i = Some (reloc i).
Proof.
  intros Hb H255 i Hi. destruct (lookup_lt_is_Some_2 code i Hi) as [b Hc].
  assert (is_byte b) as Hbb by (by apply (proj1 (Forall_forall _ _) Hb), (list_elem_of_lookup_2 _ i)). unfold is_byte in Hbb.
  unfold bitmap_bits. rewrite lookup_zip_with, !list_lookup_imap, Hc. cbn. f_equal. unfold relocated.
  destruct (reloc i) eqn:E.
  - assert (b <> 255) by (intros ->; by apply (H255 i E)). rewrite !u8_mod, !Z.mod_small by lia. apply Z.eqb_eq. lia.
  - apply Z.eqb_neq. lia.
Qed.

(** What the loader makes of the file before its loop. *)
Lemma spr_loaded code bitmap page : zlength code < 65536 -> zlength code / 8 <= zlength bitmap -> 0 <= page < 256 ->
  spr_relocate (build_spr code bitmap) (256 * page) =
    (code' ← relocate_from (take (length code / 8) bitmap) page (length code) 0 code; Ret (code' ++ [])).
Proof.
  intros Hl Hlb Hp. destruct (spr_fields code bitmap Hl) as (k & F1 & F2 & F4 & F5 & Fd & _).
  cbv zeta in *. set (spr := build_spr code bitmap) in *. pose proof (zlength_pos code).
  unfold spr_relocate. fold (u8 (256 * page)). rewrite u8_mod, Z.mul_comm, Z.mod_mul by lia. cbn [Z.eqb negb].
  fold (u8 (Z.shiftr (page * 256) 8)).
  rewrite Z.shiftr_div_pow2 by lia. change (2 ^ 8) with 256. rewrite Z.div_mul, u8_small by (done || unfold is_byte; lia).
  rewrite F1, F2, F4, F5. cbn [mbind outcome_bind]. change (Z.lor 0 (Z.shiftl 0 8)) with 0. change (128 + 128) with 256.
  assert (Z.lor (zlength code mod 256) (Z.shiftl (zlength code / 256) 8) = zlength code) as ->
    by (rewrite lor_shiftl by (lia || apply Z.mod_pos_bound; lia); change (2 ^ 8) with 256; Z.div_mod_to_equations; lia).
  rewrite Z.add_0_r. rewrite Fd.
  assert (dropZ (256 + zlength code) spr = bitmap ++ replicate k 0) as ->.
  { rewrite dropZ_drop in Fd |- *. replace (Z.to_nat (256 + zlength code)) with (Z.to_nat 256 + length code)%nat by (unfold zlength; lia).
    by rewrite <- drop_drop, Fd, drop_app_length. }
  rewrite !takeZ_take.
  assert (Z.to_nat (zlength code) = length code) as -> by (unfold zlength; lia).
  assert (Z.to_nat (zlength code / 8) = length code / 8)%nat as En
    by (unfold zlength; change 8 with (Z.of_nat 8); rewrite <- Nat2Z.inj_div; lia).
  assert (length code / 8 <= length bitmap)%nat as Hle by (unfold zlength in *; lia).
  rewrite En, take_app_length, take_app_le by done. unfold zlength at 1. rewrite length_take.
  rewrite Nat.min_l by done.
  assert (Z.of_nat (length code / 8) = zlength code / 8) as ->
    by (rewrite <- En, Z2Nat.id; [done|apply Z.div_pos; [apply zlength_pos|lia]]).
  rewrite Z.eqb_refl. reflexivity.
Qed.

(** C17: a built module loads anywhere.  When the source assembles page-relocatably
    to fewer than 64K bytes, none of them an address byte FFh, build_snios.py writes
    a file of whole sectors, and if the code's length is a multiple of 8,
    spr_relocate gives for every page exactly what the assembler gives there.  For
    any other length it raises IndexError, since it reads one bitmap byte too few;
    an address that is not a page's is refused. *)
Theorem built_modules_relocate zmac lines code reloc `{!PageRelocatable (zmac (snios_body lines)) code reloc} page addr :
  all_bytes code -> zlength code < 65536 -> (forall i, reloc i = true -> code !! i <> Some 255) ->
  0 <= page < 256 -> addr mod 256 <> 0 ->
  exists spr, build_snios zmac lines = Ret spr /\ (128 | zlength spr) /\
    (zlength code mod 8 = 0 -> exists there, zmac (snios_body lines) (256 * page) = Some there /\
       spr_relocate spr (256 * page) = Ret there) /\
    (zlength code mod 8 <> 0 -> spr_relocate spr (256 * page) = Raise IndexError) /\
    spr_relocate spr addr = Raise AssertionError.
Proof.
  intros Hb Hl H255 Hp Ha. pose proof PageRelocatable0 as Hasm. unfold PageRelocatable in Hasm.
  pose proof (Hasm 0 ltac:(lia)) as A0. pose proof (Hasm 1 ltac:(lia)) as A1. change (256 * 0) with 0 in A0. change (256 * 1) with 256 in A1.
  set (code0 := imap (relocated reloc 0) code) in *.
  assert (code0 = code) as E0.
  { apply list_eq. intros i. unfold code0. rewrite list_lookup_imap. destruct (code !! i) as [b|] eqn:E; [|done]. cbn. f_equal.
    unfold relocated. destruct (reloc i); [|done]. rewrite Z.add_0_r. apply u8_small.
    by apply (proj1 (Forall_forall _ _) Hb), (list_elem_of_lookup_2 _ i). }
  set (bits := bitmap_bits code0 (imap (relocated reloc 1) code)).
  assert (Hbits : forall i, (i < length code)%nat -> bits !! i = Some (reloc i)) by (by apply bits_of_assemblies).
  assert (zlength bits = zlength code) as Lb.
  { unfold bits, bitmap_bits, zlength. rewrite length_zip_with, !length_imap. f_equal. unfold code0. rewrite length_imap. lia. }
  exists (build_spr code0 (bitmap_bytes bits)).
  destruct (spr_fields code0 (bitmap_bytes bits) ltac:(by rewrite E0)) as (k & _ & _ & _ & _ & _ & F128). rewrite E0 in *.
  pose proof (length_bitmap bits) as Hlb. rewrite Lb in Hlb.
  pose proof (spr_loaded code (bitmap_bytes bits) page Hl Hlb Hp) as Hload.
  assert (Hlen : (length code / 8 <= length (bitmap_bytes bits))%nat).
  { unfold zlength in Hlb. change 8 with (Z.of_nat 8) in Hlb.
    rewrite <- Nat2Z.inj_div in Hlb. lia. }
  pose proof (Nat.div_mod (length code) 8 ltac:(lia)) as Hdm. pose proof (Nat.mod_upper_bound (length code) 8 ltac:(lia)) as Hmu.
  assert (zlength code mod 8 = Z.of_nat (length code mod 8)) as Emod
    by (unfold zlength; change 8 with (Z.of_nat 8); by rewrite Nat2Z.inj_mod).
  split_and!.
  - unfold build_snios, assemble. rewrite A0, A1. cbn [mbind outcome_bind].
    assert ((zlength code =? zlength (imap (relocated reloc 1) code)) = true) as -> by (apply Z.eqb_eq; unfold zlength; by rewrite length_imap).
    unfold bits. by rewrite E0.
  - done.
  - intros H8. eexists. split; [by apply Hasm|]. rewrite Hload.
    rewrite (relocate_from_ok _ reloc page (length code) 0 [] code); [|clear Hload|done|done].
    + cbn [mbind outcome_bind app]. by rewrite app_nil_r.
    + intros i Hi. destruct (bitmap_bit bits i (reloc i) (Hbits i Hi)) as (b & Hbm & Hbit). exists b. split; [|done].
      rewrite lookup_take_lt; [done|]. apply Nat.Div0.div_lt_upper_bound; lia.
  - intros H8. rewrite Hload. rewrite relocate_from_short; [done|rewrite ?length_take; lia..].
  - unfold spr_relocate. fold (u8 addr). rewrite u8_mod. by rewrite (proj2 (Z.eqb_neq _ _)).
Qed.

(** JP 0004h / CALL 0100h / RET / NOP, and the same without the NOP. *)
Lemma built_modules_relocate_witness :
  let zmac n := fun (_ : list str) org => Some (take n [195; 4; u8 (org / 256); 205; 0; u8 (1 + org / 256); 201; 0]) in
  exists spr short, build_snios (zmac 8%nat) [] = Ret spr /\ build_snios (zmac 7%nat) [] = Ret short /\
    spr_relocate spr (256 * 216) = Ret [195; 4; 216; 205; 0; 217; 201; 0] /\
    spr_relocate short (256 * 216) = Raise IndexError.
Proof.
  intros zmac.
  assert (H : forall n, PageRelocatable (zmac n (snios_body [])) (take n [195; 4; 0; 205; 0; 1; 201; 0])
    (fun i => (i =? 2)%nat || (i =? 5)%nat)).
  { intros n page Hp. unfold zmac. rewrite Z.mul_comm, Z.div_mul by lia.
    do 9 (destruct n as [|n]; [cbn; try done; unfold relocated; cbn; by rewrite ?Z.add_0_l|]). done. }
  assert (H255 : forall n i, (i =? 2)%nat || (i =? 5)%nat = true -> take n [195; 4; 0; 205; 0; 1; 201; 0] !! i <> Some 255).
  { intros n i _ E. rewrite lookup_take_Some in E. destruct E as [E _]. apply list_elem_of_lookup_2, list_elem_of_In in E.
    cbn in E. lia. }
  destruct (built_modules_relocate (zmac 8%nat) [] _ _ 216 1 ltac:(decided) ltac:(done) (H255 8%nat) ltac:(lia) ltac:(done))
    as (spr & B & _ & L & _). 
  destruct (built_modules_relocate (zmac 7%nat) [] _ _ 216 1 ltac:(decided) ltac:(done) (H255 7%nat) ltac:(lia) ltac:(done))
    as (short & B' & _ & _ & L' & _).
  destruct (L ltac:(done)) as (there & T & R). injection T as <-.
  exists spr, short. split_and!; [exact B|exact B'|exact R|exact (L' ltac:(done))].
Defined.
