(* ===== verification/Checks.v ===== *)
(** * The build's checks of disks and tables.

    rcbios-in-c/verify_skew.py compares the sector tables in bios.c with the skew
    algorithm ([skew_table], [extract_table]); rcbios-in-c/verify_checksums.py
    computes the sums the BIOS's disk test prints; cpm/verify_against_imd.py
    compares a built CCP and BDOS with track 1 of a disk.  The two readers of the
    disk format are [Imd.Sums] and [Imd.Against]; messages are left out. *)

From S2P Require Import Prelude Imd Hex Text.
#[local] Open Scope Z_scope.

(** ** verify_skew.py *)

Definition FORMATS : list (str * Z * Z) :=
  [(chars "xlt_maxi_128", 26, 6); (chars "xlt_maxi_512", 15, 4);
   (chars "xlt_mini_512", 9, 2); (chars "xlt_identity", 26, 1)].

(** [while cur in table]. *)
Fixpoint next_free (fuel : nat) (table : list Z) (spt cur : Z) : outcome Z :=
  match fuel with
  | O => Raise OutOfFuel
  | S fuel' =>
      if bool_decide (cur ∈ table) then next_free fuel' table spt (if cur <? spt then cur + 1 else 1)
      else Ret cur
  end.

(** [for _ in range(spt)], the last [n] turns. *)
Fixpoint skew_loop (n : nat) (spt skew : Z) (table : list Z) (cur : Z) : outcome (list Z) :=
  match n with
  | O => Ret table
  | S n' =>
      cur ← next_free (Z.to_nat spt) table spt cur;
      skew_loop n' spt skew (table ++ [cur]) ((cur - 1 + skew) mod spt + 1)
  end.

Definition skew_table (spt skew : Z) : outcome (list Z) := skew_loop (Z.to_nat spt) spt skew [] 1.

(** The regular expression, part by part, each giving the text after it. *)
Fixpoint literal (p s : str) : option str :=
  match p, s with
  | [], _ => Some s
  | x :: p', y :: s' => if x =? y then literal p' s' else None
  | _, [] => None
  end.
Definition spaces (s : str) : str := drop_while py_space s.
Definition spaces1 (s : str) : option str :=
  match s with c :: _ => if py_space c then Some (spaces s) else None | [] => None end.
Fixpoint up_to (c : Z) (s : str) : option str :=
  match s with
  | [] => None
  | x :: s' => if x =? c then Some [] else r ← up_to c s'; Some (x :: r)
  end.

Definition table_here (name s : str) : option str :=
  s ← literal (chars "const") s; s ← spaces1 s;
  s ← literal (chars "byte") s; s ← spaces1 s;
  s ← literal name s;
  s ← literal (chars "[") (spaces s); s ← literal (chars "]") (spaces s);
  s ← literal (chars "=") (spaces s); s ← literal (chars "{") (spaces s);
  up_to 125 s.

(** [re.search]. *)
Fixpoint table_body (name s : str) : option str :=
  match table_here name s with
  | Some body => Some body
  | None => match s with [] => None | _ :: s' => table_body name s' end
  end.

(** The two [re.sub] calls. *)
Fixpoint after_comment (s : str) : option str :=
  match s with
  | [] => None
  | c :: s' => match literal (chars "*/") s with Some r => Some r | None => after_comment s' end
  end.
Fixpoint drop_comments (fuel : nat) (s : str) : str :=
  match fuel, s with
  | O, _ | _, [] => s
  | S fuel', c :: s' =>
      match r ← literal (chars "/*") s; after_comment r with
      | Some r => drop_comments fuel' r
      | None => c :: drop_comments fuel' s'
      end
  end.
Fixpoint drop_line_comments (in_comment : bool) (s : str) : str :=
  match s with
  | [] => []
  | c :: s' =>
      if c =? 10 then c :: drop_line_comments false s'
      else if in_comment then drop_line_comments true s'
      else match literal (chars "//") s with
           | Some _ => drop_line_comments true s'
           | None => c :: drop_line_comments false s'
           end
  end.

Fixpoint table_numbers (parts : list str) : outcome (list Z) :=
  match parts with
  | [] => Ret []
  | x :: parts' =>
      match strip_with py_space x with
      | [] => table_numbers parts'
      | x => n ← int_of x; ns ← table_numbers parts'; Ret (n :: ns)
      end
  end.

Definition extract_table (source name : str) : outcome (list Z) :=
  match table_body name source with
  | None => Raise ValueError
  | Some body =>
      let body := drop_comments (length body) body in
      let body := drop_line_comments false body in
      table_numbers (split_on 44 body)
  end.

(** [main] on the text of bios.c: the exit status. *)
Fixpoint count_failures (source : str) (formats : list (str * Z * Z)) (failures : Z) : outcome Z :=
  match formats with
  | [] => Ret failures
  | (name, spt, skew) :: formats' =>
      actual ← extract_table source name;
      expected ← skew_table spt skew;
      count_failures source formats' (if decide (actual = expected) then failures else failures + 1)
  end.
Definition verify_skew (source : str) : outcome Z :=
  failures ← count_failures source FORMATS 0;
  Ret (if failures =? 0 then 0 else 1).

Example skew_of_maxi : skew_table 15 4 = Ret [1; 5; 9; 13; 2; 6; 10; 14; 3; 7; 11; 15; 4; 8; 12].
Proof. reflexivity. Qed.
Example extracted : extract_table (chars "int x; const byte  t [] = { 1, /* two */ 2, 0x3 }; const byte t2[] = {4,5 // six
 , 7,};") (chars "t2") = Ret [4; 5; 7].
Proof. vm_compute. reflexivity. Qed.

(** ** verify_checksums.py *)

Definition TRAN8 : list Z := [1; 5; 9; 13; 2; 6; 10; 14; 3; 7; 11; 15; 4; 8; 12].
Definition TRAN24 : list Z := map Z.of_nat (seq 1 26).

Abbreviation flat := (list (Z * Z * Z * bytes)).

Fixpoint find_sector (sectors : flat) (cyl head sec_id : Z) : option bytes :=
  match sectors with
  | [] => None
  | (c, h, s, d) :: sectors' =>
      if (c =? cyl) && (h =? head) && (s =? sec_id) then Some d else find_sector sectors' cyl head sec_id
  end.

(** One turn of a loop over the records: sum and errors so far. *)
Definition add_record (data : option bytes) (rec_offset : Z) (acc : Z * Z) : Z * Z :=
  let '(cksum, errors) := acc in
  match data with
  | None => (cksum, errors + 1)
  | Some data => (Z.land (cksum + zsum (takeZ 128 (dropZ rec_offset data))) 65535, errors)
  end.

Fixpoint track_cksum_loop (cpm_secs : list Z) (sectors : flat) (trk deblock_shift track0_sectors_per_side : Z)
    (sector_xlate : list Z) (acc : Z * Z) : outcome (Z * Z) :=
  match cpm_secs with
  | [] => Ret acc
  | cpm_sec :: cpm_secs' =>
      let hostbuf_sector := Z.shiftr cpm_sec (deblock_shift - 1) in
      p ← (if hostbuf_sector <? track0_sectors_per_side then
             phys_sec ← index sector_xlate (Z.to_nat hostbuf_sector); Ret (0, phys_sec)
           else
             phys_sec ← index sector_xlate (Z.to_nat (hostbuf_sector - track0_sectors_per_side)); Ret (1, phys_sec));
      let '(side, phys_sec) := p in
      let deblock_mask := Z.shiftl 1 (deblock_shift - 1) - 1 in
      let rec_offset := Z.land cpm_sec deblock_mask * 128 in
      track_cksum_loop cpm_secs' sectors trk deblock_shift track0_sectors_per_side sector_xlate
        (add_record (find_sector sectors trk side phys_sec) rec_offset acc)
  end.

Definition compute_track_cksum (sectors : flat) (trk cpm_sectors_per_track deblock_shift track0_sectors_per_side : Z)
    (sector_xlate : list Z) : outcome (Z * Z) :=
  track_cksum_loop (range_step (Z.to_nat cpm_sectors_per_track) 0 cpm_sectors_per_track 1)
    sectors trk deblock_shift track0_sectors_per_side sector_xlate (0, 0).

(** Track 0's side 1, records 52 to 103. *)
Fixpoint side1_loop (cpm_secs : list Z) (sectors : flat) (acc : Z * Z) : outcome (Z * Z) :=
  match cpm_secs with
  | [] => Ret acc
  | cpm_sec :: cpm_secs' =>
      let hostbuf_sector := Z.shiftr cpm_sec 1 in
      phys_sec ← index TRAN24 (Z.to_nat (hostbuf_sector - 26));
      let rec_offset := Z.land cpm_sec 1 * 128 in
      side1_loop cpm_secs' sectors (add_record (find_sector sectors 0 1 phys_sec) rec_offset acc)
  end.

(** [max(...)] of the cylinders. *)
Fixpoint max_cylinder (sectors : flat) : outcome Z :=
  match sectors with
  | [] => Raise ValueError
  | [(c, _, _, _)] => Ret c
  | (c, _, _, _) :: sectors' => m ← max_cylinder sectors'; Ret (Z.max c m)
  end.

(** The running sum and errors of the disk, and one of its tracks added. *)
Definition add_track (acc t : Z * Z) : Z * Z := (Z.land (fst acc + fst t) 65535, snd acc + snd t).

Fixpoint data_tracks (trks : list Z) (sectors : flat) (acc : Z * Z) : outcome (Z * Z) :=
  match trks with
  | [] => Ret acc
  | trk :: trks' =>
      t ← compute_track_cksum sectors trk 120 3 15 TRAN8;
      data_tracks trks' sectors (add_track acc t)
  end.

Definition compute_checksums (file : bytes) : outcome (Z * Z) :=
  sectors ← Sums.parse_imd file;
  max_cyl ← max_cylinder sectors;
  t0s0 ← compute_track_cksum sectors 0 26 1 26 TRAN24;
  t0s1 ← side1_loop (range_step 52 52 104 1) sectors (0, 0);
  data_tracks (range_step (Z.to_nat max_cyl) 1 (max_cyl + 1) 1) sectors (add_track (add_track (0, 0) t0s0) t0s1).

(** ** verify_against_imd.py *)

Definition XLT (spt : Z) : option (list Z) :=
  if spt =? 15 then Some [1; 5; 9; 13; 2; 6; 10; 14; 3; 7; 11; 15; 4; 8; 12]
  else if spt =? 9 then Some [1; 3; 5; 7; 9; 2; 4; 6; 8]
  else if spt =? 10 then Some [1; 3; 5; 7; 9; 2; 4; 6; 8; 10]
  else None.

(** [{num: data for ...}[id]]: the last sector of a number counts. *)
Fixpoint last_sector (sectors : list (Z * bytes)) (id : Z) : outcome bytes :=
  match sectors with
  | [] => Raise KeyError
  | (n, d) :: sectors' =>
      match last_sector sectors' id with
      | Ret d' => Ret d'
      | Raise e => if n =? id then Ret d else Raise e
      end
  end.

Fixpoint logical_loop (cpms : list Z) (t1 : list raw_track) (spt : Z) (xlt : list Z) (logical : bytes) : outcome bytes :=
  match cpms with
  | [] => Ret logical
  | cpm :: cpms' =>
      let host := Z.shiftr cpm 2 in
      let side := host / spt in
      phys_id ← index xlt (Z.to_nat (host mod spt));
      let offset := Z.land cpm 3 * 128 in
      t ← match t1 !! Z.to_nat side with Some t => Ret t | None => Raise IndexError end;
      d ← last_sector (r_sectors t) phys_id;
      logical_loop cpms' t1 spt xlt (logical ++ takeZ 128 (dropZ offset d))
  end.

Definition by_head (a b : raw_track) : bool := r_head a <=? r_head b.

Definition extract_ccp_bdos_from_imd (file : bytes) (num_cpm_sectors : Z) : outcome bytes :=
  tracks ← Against.parse_imd file;
  let t1 := sort_by by_head (filter (fun t => r_cyl t = 1) tracks) in
  match t1 with
  | [] => Raise ValueError
  | t :: _ =>
      let spt := r_nsect t in
      let sectsize := r_sectsize t in
      match XLT spt with
      | None => Raise ValueError
      | Some xlt =>
          if negb (sectsize =? 512) then Raise ValueError else
          logical_loop (range_step (Z.to_nat num_cpm_sectors) 0 num_cpm_sectors 1) t1 spt xlt []
      end
  end.

Definition differences (a b : bytes) : Z := zlength (filter (fun p => fst p <> snd p) (zip a b)).

(** [main] on the two files: the exit status. *)
Definition verify_against (built imd : bytes) : outcome Z :=
  if zlength built <? 5632 then Ret 1 else
  let built := takeZ 5632 built in
  ref ← extract_ccp_bdos_from_imd imd 44;
  if zlength ref =? 0 then Raise ZeroDivisionError
  else if decide (built = ref) then Ret 0
  else
    let diffs := differences built ref in
    Ret (if diffs <=? 6 then 0 else 1).

(** ** The skew algorithm *)

(** Where [k] steps of the search lead. *)
Definition step_to (spt cur k : Z) : Z := (cur - 1 + k) mod spt + 1.

Lemma step_to_range spt cur k : 0 < spt -> 1 <= step_to spt cur k <= spt.
Proof. intros H. unfold step_to. pose proof (Z.mod_pos_bound (cur - 1 + k) spt H). lia. Qed.

Lemma step_to_next spt cur k : 1 <= cur <= spt ->
  step_to spt (if cur <? spt then cur + 1 else 1) k = step_to spt cur (k + 1).
Proof.
  intros H. unfold step_to. f_equal. destruct (Z.ltb_spec cur spt); [f_equal; lia|].
  replace (cur - 1 + (k + 1)) with (1 - 1 + k + 1 * spt) by lia. by rewrite Z.mod_add by lia.
Qed.

(** The search stops at a free number unless all it passes are taken. *)
Lemma next_free_search spt table n : forall cur, 1 <= cur <= spt ->
  (exists k, 0 <= k < Z.of_nat n /\ (step_to spt cur k ∉ table) /\ next_free n table spt cur = Ret (step_to spt cur k)) \/
  (forall k, 0 <= k < Z.of_nat n -> step_to spt cur k ∈ table).
Proof.
  induction n as [|n IH]; intros cur H; [right; lia|]. cbn [next_free].
  assert (step_to spt cur 0 = cur) as E0 by (unfold step_to; rewrite Z.add_0_r, Z.mod_small by lia; lia).
  case_bool_decide as Hin.
  - assert (1 <= (if cur <? spt then cur + 1 else 1) <= spt) as Hr by (destruct (Z.ltb_spec cur spt); lia).
    destruct (IH _ Hr) as [(k & Hk & Hn & Hs)|Hall].
    + left. exists (k + 1). rewrite step_to_next in Hn, Hs by done. split_and!; [lia|lia|done|done].
    + right. intros k Hk. destruct (Z.eq_dec k 0) as [->|Hk0]; [by rewrite E0|].
      specialize (Hall (k - 1) ltac:(lia)). rewrite step_to_next in Hall by done. by replace (k - 1 + 1) with k in Hall by lia.
  - left. exists 0. rewrite E0. split_and!; [lia|lia|done|done].
Qed.

Lemma next_free_finds spt table cur : 1 <= cur <= spt -> zlength table < spt ->
  exists c, next_free (Z.to_nat spt) table spt cur = Ret c /\ (c ∉ table) /\ 1 <= c <= spt.
Proof.
  intros H Hl. destruct (next_free_search spt table (Z.to_nat spt) cur H) as [(k & Hk & Hn & Hs)|Hall].
  - eexists. split_and!; [exact Hs|done| |]; apply step_to_range; lia.
  - exfalso. assert (NoDup (map (step_to spt cur) (seqZ 0 spt))) as Hnd.
    { apply NoDup_fmap_2_strong; [|apply NoDup_seqZ]. intros a b Ha Hb Hab. apply elem_of_seqZ in Ha, Hb.
      unfold step_to in Hab. assert ((cur - 1 + a) mod spt = (cur - 1 + b) mod spt) as E by lia.
      pose proof (Z.div_mod (cur - 1 + a) spt ltac:(lia)). pose proof (Z.div_mod (cur - 1 + b) spt ltac:(lia)).
      set (q1 := (cur - 1 + a) / spt) in *. set (q2 := (cur - 1 + b) / spt) in *.
      assert (a - b = spt * (q1 - q2)) as Hq by lia. assert (q1 - q2 = 0) as Hq0 by nia. rewrite Hq0 in Hq. lia. }
    assert (map (step_to spt cur) (seqZ 0 spt) ⊆+ table) as Hsub.
    { apply NoDup_submseteq; [done|]. intros x Hx. apply list_elem_of_fmap in Hx as (k & -> & Hk).
      apply elem_of_seqZ in Hk. apply Hall. lia. }
    apply submseteq_length in Hsub. rewrite length_map, length_seqZ in Hsub. unfold zlength in *. lia.
Qed.

Lemma skew_loop_ok spt skew : 1 <= spt -> forall n table cur,
  zlength table + Z.of_nat n = spt -> NoDup table -> Forall (fun c => 1 <= c <= spt) table -> 1 <= cur <= spt ->
  exists t, skew_loop n spt skew table cur = Ret t /\ NoDup t /\ Forall (fun c => 1 <= c <= spt) t /\ zlength t = spt.
Proof.
  intros Hspt n. induction n as [|n IH]; intros table cur Hl Hn Hr Hc; cbn [skew_loop].
  - exists table. split_and!; [done|done|done|lia].
  - destruct (next_free_finds spt table cur Hc ltac:(lia)) as (c & -> & Hfree & Hrange). cbn [mbind outcome_bind].
    apply IH.
    + rewrite zlength_app. change (zlength [c]) with 1. lia.
    + apply NoDup_app. split_and!; [done| |apply NoDup_singleton]. intros x Hx Hx'. apply list_elem_of_singleton in Hx'. by subst x.
    + apply Forall_app. split; [done|]. by constructor.
    + pose proof (Z.mod_pos_bound (c - 1 + skew) spt ltac:(lia)). lia.
Qed.

Lemma skew_table_ok spt skew : 1 <= spt -> exists t, skew_table spt skew = Ret t /\ t ≡ₚ seqZ 1 spt.
Proof.
  intros H. unfold skew_table.
  destruct (skew_loop_ok spt skew H (Z.to_nat spt) [] 1) as (t & Ht & Hn & Hr & Hl);
    [unfold zlength; cbn; lia|constructor|constructor|lia|].
  exists t. split; [exact Ht|]. apply submseteq_length_Permutation.
  - apply NoDup_submseteq; [done|]. intros x Hx. apply elem_of_seqZ. apply (proj1 (Forall_forall _ _) Hr) in Hx. lia.
  - rewrite length_seqZ. unfold zlength in Hl. lia.
Qed.

Lemma count_failures_spec source formats : forall k n, count_failures source formats k = Ret n ->
  k <= n /\ (n = k <-> Forall (fun '(name, spt, skew) => extract_table source name = skew_table spt skew) formats).
Proof.
  induction formats as [|[[name spt] skew] formats IH]; intros k n H; cbn [count_failures] in H.
  - injection H as <-. split; [lia|]. split; [constructor|done].
  - destruct (extract_table source name) as [actual|] eqn:Ea; [|done].
    destruct (skew_table spt skew) as [expected|] eqn:Ee; [|done]. cbn [mbind outcome_bind] in H.
    apply IH in H as [Hk Hiff]. rewrite Forall_cons, Ea, Ee. destruct (decide (actual = expected)) as [->|Hne].
    + split; [done|]. rewrite Hiff. tauto.
    + split; [lia|]. split; [lia|]. intros [[= ->] _]. done.
Qed.

Lemma count_failures_none source formats : forall k,
  Forall (fun '(name, spt, skew) => 1 <= spt /\ extract_table source name = skew_table spt skew) formats ->
  count_failures source formats k = Ret k.
Proof.
  induction formats as [|[[name spt] skew] formats IH]; intros k H; [done|].
  apply Forall_cons in H as [[H1 He] H]. cbn [count_failures]. rewrite He.
  destruct (skew_table_ok spt skew H1) as (t & -> & _). cbn [mbind outcome_bind].
  rewrite decide_True by done. by apply IH.
Qed.

(** ** The extracted system *)

Lemma piece_of_sector (L d : bytes) k : 0 <= k -> takeZ 512 d = takeZ 512 (dropZ (512 * Z.shiftr k 2) L) ->
  takeZ 128 (dropZ (Z.land k 3 * 128) d) = takeZ 128 (dropZ (128 * k) L).
Proof.
  intros Hk H. rewrite !takeZ_take, !dropZ_drop in *. change 3 with (Z.ones 2). rewrite Z.land_ones by lia.
  rewrite Z.shiftr_div_pow2 in H by lia. change (2 ^ 2) with 4 in *.
  set (q := Z.to_nat (k / 4)) in *. set (r := Z.to_nat (k mod 4)).
  assert (r < 4)%nat by (unfold r; pose proof (Z.mod_pos_bound k 4 ltac:(lia)); lia).
  replace (Z.to_nat (k mod 4 * 128)) with (128 * r)%nat by (unfold r; pose proof (Z.mod_pos_bound k 4 ltac:(lia)); lia).
  replace (Z.to_nat (128 * k)) with (Z.to_nat (512 * (k / 4)) + 128 * r)%nat
    by (unfold r; Z.div_mod_to_equations; lia).
  rewrite <- drop_drop. set (M := drop (Z.to_nat (512 * (k / 4))) L) in *.
  assert (Hpre : forall l : bytes, take (Z.to_nat 128) (drop (128 * r) l) = take (Z.to_nat 128) (drop (128 * r) (take (Z.to_nat 512) l))).
  { intros l. rewrite skipn_firstn_comm, take_take. f_equal. lia. }
  by rewrite (Hpre d), (Hpre M), H.
Qed.

(** The sides hold the text [L] of [n] 512-byte sectors, in the order of [xlt]. *)
Definition laid_out (t1 : list raw_track) (spt : Z) (xlt : list Z) (n : Z) (L : bytes) : Prop :=
  forall h, 0 <= h < n -> exists t id d,
    t1 !! Z.to_nat (h / spt) = Some t /\ xlt !! Z.to_nat (h mod spt) = Some id /\
    last_sector (r_sectors t) id = Ret d /\ takeZ 512 d = takeZ 512 (dropZ (512 * h) L).

Lemma logical_loop_ok t1 spt xlt n (L : bytes) : laid_out t1 spt xlt n L -> forall m k,
  k + Z.of_nat m = 4 * n -> 0 <= k ->
  logical_loop (range_step m k (4 * n) 1) t1 spt xlt (takeZ (128 * k) L) = Ret (takeZ (512 * n) L).
Proof.
  intros H m. induction m as [|m IH]; intros k Hk H0; cbn [range_step].
  - cbn [logical_loop]. do 2 f_equal. lia.
  - rewrite (proj2 (Z.ltb_lt _ _)) by lia. cbn [logical_loop].
    destruct (H (Z.shiftr k 2)) as (t & id & d & Ht & Hid & Hd & HL).
    { rewrite Z.shiftr_div_pow2 by lia. change (2 ^ 2) with 4. Z.div_mod_to_equations. lia. }
    rewrite (index_in _ _ _ Hid). cbn [mbind outcome_bind]. rewrite Ht. cbn [mbind outcome_bind]. rewrite Hd.
    cbn [mbind outcome_bind]. rewrite (piece_of_sector L d k H0 HL).
    assert (takeZ (128 * k) L ++ takeZ 128 (dropZ (128 * k) L) = takeZ (128 * (k + 1)) L) as ->; [|by apply IH; lia].
    rewrite !takeZ_take, dropZ_drop, take_take_drop. f_equal. lia.
Qed.

Lemma logical_all t1 spt xlt n L : laid_out t1 spt xlt n L -> 0 <= n -> zlength L = 512 * n ->
  logical_loop (range_step (Z.to_nat (4 * n)) 0 (4 * n) 1) t1 spt xlt [] = Ret L.
Proof.
  intros H Hn Hl. change (@nil Z) with (takeZ 0 (@nil Z)) at 1.
  assert (takeZ 0 (@nil Z) = takeZ (128 * 0) L) as -> by (rewrite !takeZ_take; done).
  rewrite (logical_loop_ok t1 spt xlt n L H) by lia. f_equal. rewrite takeZ_take. apply take_ge. unfold zlength in Hl. lia.
Qed.

(** ** The sum of a data track *)

Section DataTrack.
Context (sectors : flat) (trk : Z) (f : Z -> Z -> bytes).
Hypothesis present : forall side id, side = 0 \/ side = 1 -> 1 <= id <= 15 ->
  find_sector sectors trk side id = Some (f side id) /\ zlength (f side id) = 512.

(** The sector of host sector [h]. *)
Definition host_data (h : Z) : bytes :=
  if h <? 15 then f 0 (List.nth (Z.to_nat h) TRAN8 0) else f 1 (List.nth (Z.to_nat (h - 15)) TRAN8 0).
Definition record_sum (k : Z) : Z := zsum (takeZ 128 (dropZ (Z.land k 3 * 128) (host_data (Z.shiftr k 2)))).

Lemma tran8_lookup i : 0 <= i < 15 -> index TRAN8 (Z.to_nat i) = Ret (List.nth (Z.to_nat i) TRAN8 0) /\
  1 <= List.nth (Z.to_nat i) TRAN8 0 <= 15.
Proof.
  intros H. assert (Z.to_nat i < 15)%nat as Hi by lia. revert Hi. generalize (Z.to_nat i). intros n Hn.
  do 15 (destruct n as [|n]; [split; [reflexivity|cbn; lia]|]). lia.
Qed.

Lemma track_loop_sum l : Forall (fun k => 0 <= k < 120) l -> forall c,
  track_cksum_loop l sectors trk 3 15 TRAN8 (u16 c, 0) = Ret (u16 (c + zsum (map record_sum l)), 0).
Proof.
  induction 1 as [|k l Hk Hl IH]; intros c; cbn [track_cksum_loop map].
  - change (zsum []) with 0. by rewrite Z.add_0_r.
  - change (3 - 1) with 2. change (Z.shiftl 1 2 - 1) with 3.
    assert (0 <= Z.shiftr k 2 < 30) as Hh
      by (rewrite Z.shiftr_div_pow2 by lia; change (2 ^ 2) with 4; Z.div_mod_to_equations; lia).
    assert (Hadd : forall d, host_data (Z.shiftr k 2) = d ->
      add_record (Some d) (Z.land k 3 * 128) (u16 c, 0) = (u16 (c + record_sum k), 0)).
    { intros d <-. unfold add_record, record_sum. f_equal. fold (u16 (u16 c + zsum (takeZ 128 (dropZ (Z.land k 3 * 128) (host_data (Z.shiftr k 2)))))).
      apply u16_add_l. }
    rewrite zsum_cons, Z.add_assoc, <- IH. unfold host_data in Hadd.
    destruct (Z.ltb_spec (Z.shiftr k 2) 15).
    + destruct (tran8_lookup (Z.shiftr k 2)) as [-> Hid]; [lia|]. cbn [mbind outcome_bind].
      destruct (present 0 _ ltac:(lia) Hid) as [-> _]. by rewrite (Hadd _ eq_refl).
    + destruct (tran8_lookup (Z.shiftr k 2 - 15)) as [-> Hid]; [lia|]. cbn [mbind outcome_bind].
      destruct (present 1 _ ltac:(lia) Hid) as [-> _]. by rewrite (Hadd _ eq_refl).
Qed.

Lemma quarters (d : bytes) : zlength d = 512 ->
  zsum (takeZ 128 (dropZ 0 d)) + zsum (takeZ 128 (dropZ 128 d)) + zsum (takeZ 128 (dropZ 256 d)) + zsum (takeZ 128 (dropZ 384 d)) = zsum d.
Proof.
  intros H. rewrite <- !zsum_app. f_equal. rewrite !takeZ_take, !dropZ_drop.
  change (Z.to_nat 256) with (Z.to_nat 128 + Z.to_nat 128)%nat. change (Z.to_nat 384) with (Z.to_nat 128 + Z.to_nat 128 + Z.to_nat 128)%nat.
  change (Z.to_nat 0) with 0%nat. rewrite drop_0, !take_take_drop. apply take_ge. unfold zlength in H. lia.
Qed.

Lemma host_sum h : 0 <= h < 30 ->
  record_sum (4 * h) + record_sum (4 * h + 1) + record_sum (4 * h + 2) + record_sum (4 * h + 3) = zsum (host_data h).
Proof.
  intros H. assert (E : forall j, 0 <= j < 4 -> Z.shiftr (4 * h + j) 2 = h /\ Z.land (4 * h + j) 3 = j).
  { intros j Hj. rewrite Z.shiftr_div_pow2 by lia. change 3 with (Z.ones 2). rewrite Z.land_ones by lia.
    change (2 ^ 2) with 4. split; Z.div_mod_to_equations; lia. }
  unfold record_sum. destruct (E 0 ltac:(lia)) as [E1 E2]. rewrite Z.add_0_r in E1, E2.
  destruct (E 1 ltac:(lia)) as [E3 E4], (E 2 ltac:(lia)) as [E5 E6], (E 3 ltac:(lia)) as [E7 E8].
  rewrite E1, E2, E3, E4, E5, E6, E7, E8. apply quarters. unfold host_data.
  destruct (Z.ltb_spec h 15).
  - destruct (tran8_lookup h) as [_ Hid]; [lia|]. by apply present; [left|].
  - destruct (tran8_lookup (h - 15)) as [_ Hid]; [lia|]. by apply present; [right|].
Qed.

Lemma hosts_sum n : (n <= 30)%nat ->
  zsum (map record_sum (map Z.of_nat (seq 0 (4 * n)))) = zsum (map (fun h => zsum (host_data h)) (map Z.of_nat (seq 0 n))).
Proof.
  induction n as [|n IH]; intros Hn; [done|].
  replace (4 * S n)%nat with (4 * n + 4)%nat by lia. rewrite (seq_app (4 * n) 4), (seq_S n 0), !map_app, !zsum_app, IH by lia. f_equal.
  change (seq (0 + 4 * n) 4) with [4 * n; S (4 * n); S (S (4 * n)); S (S (S (4 * n)))]%nat. cbn [map Nat.add]. rewrite !zsum_cons. change (zsum []) with 0.
  rewrite <- (host_sum (Z.of_nat n)) by lia.
  replace (Z.of_nat (4 * n)) with (4 * Z.of_nat n) by lia. replace (Z.of_nat (S (4 * n))) with (4 * Z.of_nat n + 1) by lia.
  replace (Z.of_nat (S (S (4 * n)))) with (4 * Z.of_nat n + 2) by lia.
  replace (Z.of_nat (S (S (S (4 * n))))) with (4 * Z.of_nat n + 3) by lia. lia.
Qed.

(** The bytes of a side, by sector number. *)
Definition side_sum (side : Z) : Z := zsum (map (fun id => zsum (f side id)) (seqZ 1 15)).

Lemma data_track_cksum :
  compute_track_cksum sectors trk 120 3 15 TRAN8 = Ret (u16 (side_sum 0 + side_sum 1), 0).
Proof.
  unfold compute_track_cksum. change (range_step (Z.to_nat 120) 0 120 1) with (map Z.of_nat (seq 0 120)).
  change 0 with (u16 0) at 1. rewrite track_loop_sum.
  2: { apply Forall_forall. intros x Hx. apply list_elem_of_fmap in Hx as (n & -> & Hn). apply elem_of_seq in Hn. lia. }
  change 120%nat with (4 * 30)%nat. rewrite hosts_sum by lia. rewrite Z.add_0_l. do 3 f_equal.
  change (map (fun h => zsum (host_data h)) (map Z.of_nat (seq 0 30))) with
    (map (fun id => zsum (f 0 id)) TRAN8 ++ map (fun id => zsum (f 1 id)) TRAN8).
  destruct (skew_table_ok 15 4 ltac:(lia)) as (t & Ht & Hp).
  assert (Ret TRAN8 = Ret t) as [= <-] by (rewrite <- Ht; reflexivity).
  assert (Hperm : forall g : Z -> Z, zsum (map g TRAN8) = zsum (map g (seqZ 1 15))).
  { intros g. apply (foldr_permutation eq Z.add 0); [intros; lia|]. by apply Permutation_map. }
  by rewrite zsum_app, !Hperm.
Qed.
End DataTrack.

(** ** Properties *)

(** Skew tables hold every sector once.  For any number of sectors and any
    skew skew_table ends with a permutation of the numbers 1 to that number; the
    tables of verify_checksums.py and verify_against_imd.py are three of them;
    verify_skew.py ends with status 0 exactly when each of bios.c's four tables is
    the algorithm's; and so the sum verify_checksums.py shows for a data track is
    that of all the bytes of its sectors, modulo 65536. *)
Lemma skew_tables_hold_every_sector spt skew source sectors trk f :
  1 <= spt ->
  (forall side id, side = 0 \/ side = 1 -> 1 <= id <= 15 ->
     find_sector sectors trk side id = Some (f side id) /\ zlength (f side id) = 512) ->
  (exists t, skew_table spt skew = Ret t /\ t ≡ₚ seqZ 1 spt) /\
  skew_table 15 4 = Ret TRAN8 /\ skew_table 26 1 = Ret TRAN24 /\
  (forall n xlt, XLT n = Some xlt -> skew_table n (if n =? 15 then 4 else 2) = Ret xlt) /\
  (verify_skew source = Ret 0 <->
     Forall (fun '(name, spt, skew) => extract_table source name = skew_table spt skew) FORMATS) /\
  compute_track_cksum sectors trk 120 3 15 TRAN8 = Ret ((side_sum f 0 + side_sum f 1) mod 65536, 0).
Proof.
  intros H Hf. split_and!.
  - by apply skew_table_ok.
  - reflexivity.
  - vm_compute. reflexivity.
  - intros n xlt. unfold XLT. destruct (Z.eqb_spec n 15) as [->|]; [by intros [= <-]|].
    destruct (Z.eqb_spec n 9) as [->|]; [by intros [= <-]|]. destruct (Z.eqb_spec n 10) as [->|]; [by intros [= <-]|done].
  - unfold verify_skew. split.
    + destruct (count_failures source FORMATS 0) as [n|] eqn:E; [|done]. cbn [mbind outcome_bind].
      destruct (Z.eqb_spec n 0) as [->|]; [|done]. intros _. by apply (count_failures_spec _ _ _ _ E).
    + intros Hall. rewrite count_failures_none; [done|].
      assert (Forall (fun '(_, spt, _) => 1 <= spt) FORMATS) as Hpos by (repeat constructor; lia).
      pose proof (conj Hall Hpos) as Hboth. rewrite <- Forall_and in Hboth.
      eapply Forall_impl; [exact Hboth|]. intros [[name n] s] [He Hn]. by split.
  - rewrite <- u16_mod. by apply data_track_cksum.
Qed.

(** The system on a disk is compared byte by byte.  For a well-formed image
    whose cylinder 1 has a known geometry of 512-byte sectors and holds a system
    of 5632 bytes in skewed order, verify_against_imd.py extracts exactly that
    system, and for a built file of at least 5632 bytes ends with status 0 exactly
    when at most six of its first 5632 bytes differ, wherever they are.  A shorter
    file is refused. *)
Lemma system_on_disk_is_compared header ts t1 side0 rest xlt L built :
  image_ok header ts ->
  t1 = sort_by by_head (filter (fun t => r_cyl t = 1) (map as_raw ts)) -> t1 = side0 :: rest ->
  XLT (r_nsect side0) = Some xlt -> r_sectsize side0 = 512 ->
  zlength L = 5632 -> laid_out t1 (r_nsect side0) xlt 11 L ->
  extract_ccp_bdos_from_imd (image header ts) 44 = Ret L /\
  verify_against built (image header ts) =
    Ret (if (5632 <=? zlength built) && (differences (takeZ 5632 built) L <=? 6) then 0 else 1).
Proof.
  intros Hi Ht1 Hs Hx Hsz HL Hlaid.
  assert (extract_ccp_bdos_from_imd (image header ts) 44 = Ret L) as E.
  { unfold extract_ccp_bdos_from_imd. rewrite against_parses by done. cbn [mbind outcome_bind]. rewrite <- Ht1, Hs, Hx, Hsz.
    change (negb (512 =? 512)) with false. cbn match. rewrite <- Hs. change 44 with (4 * 11).
    by apply logical_all. }
  split; [done|]. unfold verify_against. rewrite E. cbn [mbind outcome_bind]. rewrite HL. change (5632 =? 0) with false.
  destruct (Z.ltb_spec (zlength built) 5632) as [Hb|Hb].
  - by rewrite (proj2 (Z.leb_gt 5632 (zlength built))) by lia.
  - rewrite (proj2 (Z.leb_le 5632 (zlength built))) by lia. cbn [andb]. destruct (decide (takeZ 5632 built = L)) as [->|]; [|done].
    assert (differences L L = 0) as ->; [|done]. unfold differences.
    assert (filter (fun p : Z * Z => p.1 <> p.2) (zip L L) = []) as ->; [|done].
    clear. induction L as [|x L IH]; [done|]. cbn [zip zip_with]. by rewrite filter_cons_False by (cbn; tauto).
Qed.

(** Each sector of side 0 filled with its number. *)
Definition numbered_track : track :=
  Track 5 1 0 2 (seqZ 1 15) None None (map (fun id => (2, [id])) (seqZ 1 15)).

Lemma numbered_track_ok : image_ok [73; 77; 68] [numbered_track].
Proof. split; [set_unfold; lia|]. repeat constructor; try done; try (by vm_compute); try lia. Qed.

(** C20: skew tables and the system on a disk.  For any number of sectors and any skew
    skew_table ends with a permutation of the numbers 1 to that number; the tables
    of verify_checksums.py and verify_against_imd.py are three of them;
    verify_skew.py ends with status 0 exactly when each of bios.c's four tables is
    the algorithm's; and so the sum verify_checksums.py shows for a data track is
    that of all the bytes of its sectors, modulo 65536.  For a well-formed image
    whose cylinder 1 has a known geometry of 512-byte sectors and holds a system of
    5632 bytes in skewed order, verify_against_imd.py extracts exactly that system,
    and for a built file of at least 5632 bytes ends with status 0 exactly when at
    most six of its first 5632 bytes differ, wherever they are; a shorter file is
    refused. *)
Theorem disks_are_checked :
  (forall spt skew source sectors trk f,
  1 <= spt ->
  (forall side id, side = 0 \/ side = 1 -> 1 <= id <= 15 ->
     find_sector sectors trk side id = Some (f side id) /\ zlength (f side id) = 512) ->
  (exists t, skew_table spt skew = Ret t /\ t ≡ₚ seqZ 1 spt) /\
  skew_table 15 4 = Ret TRAN8 /\ skew_table 26 1 = Ret TRAN24 /\
  (forall n xlt, XLT n = Some xlt -> skew_table n (if n =? 15 then 4 else 2) = Ret xlt) /\
  (verify_skew source = Ret 0 <->
     Forall (fun '(name, spt, skew) => extract_table source name = skew_table spt skew) FORMATS) /\
  compute_track_cksum sectors trk 120 3 15 TRAN8 = Ret ((side_sum f 0 + side_sum f 1) mod 65536, 0)) /\
  (forall header ts t1 side0 rest xlt L built,
  image_ok header ts ->
  t1 = sort_by by_head (filter (fun t => r_cyl t = 1) (map as_raw ts)) -> t1 = side0 :: rest ->
  XLT (r_nsect side0) = Some xlt -> r_sectsize side0 = 512 ->
  zlength L = 5632 -> laid_out t1 (r_nsect side0) xlt 11 L ->
  extract_ccp_bdos_from_imd (image header ts) 44 = Ret L /\
  verify_against built (image header ts) =
    Ret (if (5632 <=? zlength built) && (differences (takeZ 5632 built) L <=? 6) then 0 else 1)).
Proof. split; [exact skew_tables_hold_every_sector|exact system_on_disk_is_compared]. Qed.

Lemma disks_are_checked_witness :
  (let sectors := map (fun id => (7, 0, id, repeatZ 512 id)) (seqZ 1 15) ++ map (fun id => (7, 1, id, repeatZ 512 255)) (seqZ 1 15) in
  skew_table 9 2 = Ret [1; 3; 5; 7; 9; 2; 4; 6; 8] /\
  compute_track_cksum sectors 7 120 3 15 TRAN8 = Ret ((512 * 120 + 15 * 512 * 255) mod 65536, 0) /\
  verify_skew (chars "const byte xlt_maxi_128[] = {1,7,13,19,25,5,11,17,23,3,9,15,21,2,8,14,20,26,6,12,18,24,4,10,16,22};
    const byte xlt_maxi_512[] = { 1, 5, 9, 13, 2, 6, 10, 14, 3, 7, 11, 15, 4, 8, 12 };
    const byte xlt_mini_512[] = { 1, 3, 5, 7, 9, /* side 2 */ 2, 4, 6, 8 };
    const byte xlt_identity[] = {1,2,3,4,5,6,7,8,9,10,11,12,13,14,15,16,17,18,19,20,21,22,23,24,25,26};") = Ret 0) /\
  (let L := concat (map (repeatZ 512) (take 11 TRAN8)) in
  extract_ccp_bdos_from_imd (image [73; 77; 68] [numbered_track]) 44 = Ret L /\
  verify_against (repeatZ 6 77 ++ drop 6 L) (image [73; 77; 68] [numbered_track]) = Ret 0 /\
  verify_against (repeatZ 7 77 ++ drop 7 L) (image [73; 77; 68] [numbered_track]) = Ret 1 /\
  verify_against (repeatZ 100 77) (image [73; 77; 68] [numbered_track]) = Ret 1).
Proof.
  split.
  { intros sectors.
  destruct ((proj1 disks_are_checked) 9 2 (chars "const byte xlt_maxi_128[] = {1,7,13,19,25,5,11,17,23,3,9,15,21,2,8,14,20,26,6,12,18,24,4,10,16,22};
    const byte xlt_maxi_512[] = { 1, 5, 9, 13, 2, 6, 10, 14, 3, 7, 11, 15, 4, 8, 12 };
    const byte xlt_mini_512[] = { 1, 3, 5, 7, 9, /* side 2 */ 2, 4, 6, 8 };
    const byte xlt_identity[] = {1,2,3,4,5,6,7,8,9,10,11,12,13,14,15,16,17,18,19,20,21,22,23,24,25,26};")
    sectors 7 (fun side id => repeatZ 512 (if side =? 0 then id else 255)) ltac:(lia)) as (_ & _ & _ & _ & H1 & H2).
  { intros side id Hs Hid.
    assert (id = 1 \/ id = 2 \/ id = 3 \/ id = 4 \/ id = 5 \/ id = 6 \/ id = 7 \/ id = 8 \/ id = 9 \/ id = 10 \/
            id = 11 \/ id = 12 \/ id = 13 \/ id = 14 \/ id = 15) as Hcases by lia.
    destruct Hs as [-> | ->]; repeat destruct Hcases as [-> | Hcases]; subst; split; reflexivity. }
  split_and!; [reflexivity| |].
  - rewrite H2. vm_compute. reflexivity.
  - apply H1. repeat constructor; vm_compute; reflexivity. }
  { intros L.
  assert (Hlaid : laid_out [as_raw numbered_track] 15 TRAN8 11 L).
  { intros h Hh.
    assert (h = 0 \/ h = 1 \/ h = 2 \/ h = 3 \/ h = 4 \/ h = 5 \/ h = 6 \/ h = 7 \/ h = 8 \/ h = 9 \/ h = 10) as Hcases by lia.
    repeat destruct Hcases as [-> | Hcases]; subst; eexists _, _, _; split_and!; vm_compute; reflexivity. }
  pose proof (fun built => (proj2 disks_are_checked) [73; 77; 68] [numbered_track] [as_raw numbered_track] (as_raw numbered_track) []
    TRAN8 L built numbered_track_ok eq_refl eq_refl eq_refl eq_refl ltac:(vm_compute; reflexivity) Hlaid) as H.
  split_and!; [exact (proj1 (H []))| | |]; rewrite (proj2 (H _)); vm_compute; reflexivity. }
Defined.
