(* ===== verification/Sdlc.v ===== *)
(** * SDLC reception: rcbios-in-c/sdlc_receiver.py.

    The receiver samples a line many times a bit, recovers the bits
    ([dpll_bits], or [samples_to_bits]), undoes NRZI ([nrzi_decode]), finds the
    frames between flags and removes the stuffed zeros ([find_frames]), and
    checks each frame's CRC.  Bits are the integers 0 and 1, as in the source.
    The number of samples a bit is whole here, as it is at the default rates
    (1 MHz and 62500 baud), where the source's floating-point times are exact;
    the sweep over fractional rates (auto_decode) and the capture through libftdi
    are left out. *)

From S2P Require Import Prelude Imd Hex.
#[local] Open Scope Z_scope.

(** ** From samples to bits *)

Definition level (rxd_mask b : Z) : Z := if Z.land b rxd_mask =? 0 then 0 else 1.

(** [round(run / sps)]: halves go to the even neighbour. *)
Definition round_ratio (run sps : Z) : Z :=
  let q := run / sps in
  let r := run mod sps in
  if 2 * r <? sps then q
  else if sps <? 2 * r then q + 1
  else if Z.even q then q else q + 1.

Definition MAX_RUN_BITS : Z := 8.

Fixpoint runs_to_bits (rxd_mask sps : Z) (samples : bytes) (prev run : Z) (bits : list Z) : list Z :=
  match samples with
  | [] => bits
  | b :: samples' =>
      let cur := level rxd_mask b in
      if cur =? prev then runs_to_bits rxd_mask sps samples' prev (run + 1) bits
      else
        let n_bits := Z.max 1 (round_ratio run sps) in
        let n_bits := if MAX_RUN_BITS <? n_bits then MAX_RUN_BITS else n_bits in
        runs_to_bits rxd_mask sps samples' cur 1 (bits ++ replicate (Z.to_nat n_bits) prev)
  end.

Definition samples_to_bits (samples : bytes) (rxd_mask sps : Z) : list Z :=
  match samples with
  | [] => []
  | b :: _ => runs_to_bits rxd_mask sps samples (level rxd_mask b) 0 []
  end.

(** [while i < n and (samples[i] & rxd_mask) == prev]. *)
Fixpoint first_transition (rxd_mask prev : Z) (samples : bytes) (i : nat) : nat :=
  match samples with
  | [] => i
  | b :: samples' => if Z.land b rxd_mask =? prev then first_transition rxd_mask prev samples' (S i) else i
  end.

(** [for j in range(idx, stop)]: the sample where the level changes. *)
Fixpoint find_nudge (rxd_mask prev_l : Z) (samples : bytes) (j : nat) : option nat :=
  match samples with
  | [] => None
  | b :: samples' =>
      if level rxd_mask b =? prev_l then find_nudge rxd_mask prev_l samples' (S j) else Some j
  end.

(** The loop of [dpll_bits], with the time [t2] in half samples. *)
Fixpoint dpll_loop (fuel : nat) (samples : bytes) (rxd_mask : Z) (sps t2 : nat) : outcome (list Z) :=
  match fuel with
  | O => Raise OutOfFuel
  | S fuel' =>
      let n := length samples in
      if (t2 <? 2 * n)%nat then
        let idx := (t2 / 2)%nat in
        b ← index samples idx;
        let lvl := level rxd_mask b in
        let stop := Nat.min n ((t2 + sps) / 2 + 1)%nat in
        let t2' := match find_nudge rxd_mask lvl (slice idx stop samples) idx with
                   | Some j => (2 * j + sps)%nat
                   | None => (t2 + 2 * sps)%nat
                   end in
        rest ← dpll_loop fuel' samples rxd_mask sps t2';
        Ret (lvl :: rest)
      else Ret []
  end.

Definition dpll_bits (samples : bytes) (rxd_mask : Z) (sps : nat) : outcome (list Z) :=
  match samples with
  | [] => Ret []
  | b :: _ =>
      let i := first_transition rxd_mask (Z.land b rxd_mask) samples 0 in
      if (length samples <=? i)%nat then Ret []
      else dpll_loop (2 * length samples + 1) samples rxd_mask sps (2 * i + sps)
  end.

Fixpoint nrzi_from (prev : Z) (bits : list Z) : list Z :=
  match bits with
  | [] => []
  | cur :: bits' => (if cur =? prev then 1 else 0) :: nrzi_from cur bits'
  end.
Definition nrzi_decode (bits : list Z) : list Z := nrzi_from 1 bits.

(** The other polarity, in [decode_with]. *)
Fixpoint nrzi_flipped (prev : Z) (bits : list Z) : list Z :=
  match bits with
  | [] => []
  | cur :: bits' => (if cur =? prev then 0 else 1) :: nrzi_flipped cur bits'
  end.

(** ** Frames *)

Definition FLAG : list Z := [0; 1; 1; 1; 1; 1; 1; 0].

(** The positions [i] of the source are the rest of the bits from there on. *)
Fixpoint skip_flags (fuel : nat) (bits : list Z) : list Z :=
  match fuel with
  | O => bits
  | S fuel' => if decide (take 8 bits = FLAG) then skip_flags fuel' (drop 8 bits) else bits
  end.

Fixpoint frame_from (bits : list Z) (ones : Z) (frame_bits : list Z) : list Z * list Z :=
  match bits with
  | [] => (frame_bits, [])
  | b :: bits' =>
      if ones =? 5 then
        if b =? 0 then frame_from bits' 0 frame_bits
        else (take (length frame_bits - 5) frame_bits, bits)
      else frame_from bits' (if b =? 1 then ones + 1 else 0) (frame_bits ++ [b])
  end.

Fixpoint frames_from (fuel : nat) (bits : list Z) : list (list Z) :=
  match fuel with
  | O => []
  | S fuel' =>
      if (8 <? length bits)%nat then
        if decide (take 8 bits = FLAG) then
          let '(frame_bits, rest) := frame_from (skip_flags (length bits) bits) 0 [] in
          (match frame_bits with [] => [] | _ => [frame_bits] end) ++ frames_from fuel' rest
        else frames_from fuel' (tail bits)
      else []
  end.
Definition find_frames (bits : list Z) : list (list Z) := frames_from (S (length bits)) bits.

(** [v |= bits[j + k] << k] for eight bits. *)
Definition byte_of (bits : list Z) : Z :=
  foldl (fun v k => Z.lor v (Z.shiftl (default 0 (bits !! k)) (Z.of_nat k))) 0 (seq 0 8).

Fixpoint bytes_from (n : nat) (bits : list Z) : bytes :=
  match n with
  | O => []
  | S n' => byte_of bits :: bytes_from n' (drop 8 bits)
  end.
Definition bits_to_bytes (bits : list Z) : bytes := bytes_from (length bits / 8) bits.

(** ** The CRC and the verdict *)

Definition crc_bit (crc : Z) : Z :=
  if Z.land crc 1 =? 0 then Z.shiftr crc 1 else Z.lxor (Z.shiftr crc 1) 33800.
Definition crc_byte (crc byte : Z) : Z := Nat.iter 8 crc_bit (Z.lxor crc byte).
Definition crc_ccitt (data : bytes) : Z := Z.lxor (foldl crc_byte 65535 data) 65535.
Definition crc_bytes (data : bytes) : bytes :=
  [Z.land (crc_ccitt data) 255; Z.land (Z.shiftr (crc_ccitt data) 8) 255].

(** One frame's line of the report: its data, received CRC and whether it is
    right; nothing for a frame of less than two bytes. *)
Definition check_frame (fb : list Z) : option (bytes * bytes * bool) :=
  let frame := bits_to_bytes (take (length fb / 8 * 8) fb) in
  if (length frame <? 2)%nat then None else
  let data := take (length frame - 2) frame in
  let crc_rx := drop (length frame - 2) frame in
  Some (data, crc_rx, bool_decide (crc_bytes data = crc_rx)).

Definition decode_with (samples : bytes) (rxd_mask : Z) (sps : nat) (flip_nrzi use_dpll : bool)
    : outcome (list Z * list (list Z)) :=
  bits ← (if use_dpll then dpll_bits samples rxd_mask sps
          else Ret (samples_to_bits samples rxd_mask (Z.of_nat sps)));
  let data_bits := if flip_nrzi then nrzi_flipped 1 bits else nrzi_decode bits in
  Ret (data_bits, find_frames data_bits).

(** [sub in data], and the score of a configuration. *)
Fixpoint occurs_in (sub data : bytes) : bool :=
  bool_decide (take (length sub) data = sub) ||
  match data with [] => false | _ :: data' => occurs_in sub data' end.

Record evaluation := Evaluation {
  crc_ok : Z; ascii_ok : Z; candidates : Z; good_frames : list (bool * bytes * bytes); score : Z }.

Fixpoint judge_frames (expect_ascii : bytes) (frames : list (list Z)) (acc : Z * Z * list (bool * bytes * bytes))
    : Z * Z * list (bool * bytes * bytes) :=
  match frames with
  | [] => acc
  | fb :: frames' =>
      let '(crc_ok, ascii_ok, good) := acc in
      judge_frames expect_ascii frames'
        match check_frame fb with
        | None => acc
        | Some (data_b, crc_rx, ok) =>
            let matches_ascii := match expect_ascii with [] => false | _ => occurs_in expect_ascii data_b end in
            if ok : bool then (crc_ok + 1, ascii_ok, good ++ [(true, data_b, crc_rx)])
            else if matches_ascii then (crc_ok, ascii_ok + 1, good ++ [(false, data_b, crc_rx)])
            else acc
        end
  end.

Definition evaluate_config (samples : bytes) (rxd_mask : Z) (sps : nat) (flip_nrzi : bool) (expect_ascii : bytes)
    : outcome evaluation :=
  r ← decode_with samples rxd_mask sps flip_nrzi true;
  let frames := snd r in
  let '(crc_ok, ascii_ok, good) := judge_frames expect_ascii frames (0, 0, []) in
  Ret (Evaluation crc_ok ascii_ok (zlength frames) good (crc_ok * 1000 + ascii_ok * 10 + zlength frames)).

(** What [main] reports of a recording: every frame's data, CRC and verdict. *)
Definition received (samples : bytes) (rxd_mask : Z) (sps : nat) (use_dpll : bool) : outcome (list (bytes * bytes * bool)) :=
  r ← decode_with samples rxd_mask sps false use_dpll;
  Ret (omap (M:=list) check_frame (snd r)).

Example crc_of_check_string : crc_ccitt (chars "123456789") = 36974.
Proof. vm_compute. reflexivity. Qed.

(** ** The transmitter

    What a Z80-SIO in SDLC mode with NRZI sends, bytes least significant bit
    first: a zero after five ones of data, a flag before, between and after the
    frames, a change of level for a zero. *)
Definition bits_of_byte (b : Z) : list Z := map (fun k => Z.land (Z.shiftr b (Z.of_nat k)) 1) (seq 0 8).
Definition bits_of (data : bytes) : list Z := concat (map bits_of_byte data).

Fixpoint stuff (ones : Z) (bits : list Z) : list Z :=
  match bits with
  | [] => []
  | b :: bits' =>
      if b =? 1 then if ones =? 4 then 1 :: 0 :: stuff 0 bits' else 1 :: stuff (ones + 1) bits'
      else 0 :: stuff 0 bits'
  end.

Definition flags (n : nat) : list Z := concat (replicate n FLAG).

(** Frames, each after a number of flags, and flags at the end. *)
Fixpoint stream (frames : list (nat * bytes)) (last : nat) : list Z :=
  match frames with
  | [] => flags last
  | (gap, data) :: frames' => flags gap ++ stuff 0 (bits_of (data ++ crc_bytes data)) ++ stream frames' last
  end.

Fixpoint nrzi_encode (prev : Z) (bits : list Z) : list Z :=
  match bits with
  | [] => []
  | b :: bits' => let cur := if b =? 1 then prev else 1 - prev in cur :: nrzi_encode cur bits'
  end.

(** A line that is idle at [idle] for [n] bits, then sends [bits]. *)
Definition line (idle : Z) (n : nat) (bits : list Z) : list Z := replicate n idle ++ nrzi_encode idle bits.

(** Samples of a line, [sps] a bit. *)
Definition samples_of (rxd_mask : Z) (sps : nat) (levels : list Z) (samples : bytes) : Prop :=
  map (fun b => Z.land b rxd_mask) samples = concat (map (fun l => replicate sps (l * rxd_mask)) levels).

Definition a_bit (b : Z) : Prop := b = 0 \/ b = 1.

(** ** NRZI *)

Lemma nrzi_round_trip bits : Forall a_bit bits -> forall prev, a_bit prev -> nrzi_from prev (nrzi_encode prev bits) = bits.
Proof.
  induction 1 as [|b bits Hb H IH]; intros prev Hp; [done|]. cbn [nrzi_encode nrzi_from].
  destruct Hb as [-> | ->].
  - change (0 =? 1) with false. cbn match. rewrite IH by (destruct Hp as [-> | ->]; [by right|by left]). f_equal.
    by destruct Hp as [-> | ->].
  - change (1 =? 1) with true. cbn match. rewrite IH by done. by rewrite Z.eqb_refl.
Qed.

(** ** Finding the frames *)

Lemma frame_from_stuffed bits : Forall a_bit bits -> forall ones frame rest, 0 <= ones < 5 ->
  frame_from (stuff ones bits ++ 0 :: 1 :: 1 :: 1 :: 1 :: 1 :: 1 :: rest) ones frame = (frame ++ bits ++ [0], 1 :: rest).
Proof.
  induction 1 as [|b bits Hb H IH]; intros ones frame rest Ho.
  - cbn [stuff app frame_from]. rewrite (proj2 (Z.eqb_neq _ _)) by lia.
    change (0 =? 1) with false. change (1 =? 1) with true. change (1 =? 0) with false. cbn match.
    change (0 =? 5) with false. change (0 + 1 =? 5) with false. change (0 + 1 + 1 =? 5) with false.
    change (0 + 1 + 1 + 1 =? 5) with false. change (0 + 1 + 1 + 1 + 1 =? 5) with false.
    change (0 + 1 + 1 + 1 + 1 + 1 =? 5) with true. cbn match. rewrite <- !app_assoc. cbn [app].
    replace (frame ++ [0; 1; 1; 1; 1; 1]) with ((frame ++ [0]) ++ [1; 1; 1; 1; 1]) by (by rewrite <- app_assoc).
    rewrite take_app_length'; [done|]. rewrite !length_app. cbn. lia.
  - destruct Hb as [-> | ->]; cbn [stuff].
    + change (0 =? 1) with false. cbn [app frame_from]. rewrite (proj2 (Z.eqb_neq _ _)) by lia.
      change (0 =? 1) with false. cbn match. rewrite IH by lia. by rewrite <- app_assoc.
    + change (1 =? 1) with true. cbn match. destruct (Z.eqb_spec ones 4) as [->|Hne].
      * cbn [app frame_from]. change (4 =? 5) with false. change (1 =? 1) with true. cbn match.
        change (4 + 1 =? 5) with true. change (0 =? 0) with true. cbn match. rewrite IH by lia. by rewrite <- app_assoc.
      * cbn [app frame_from]. rewrite (proj2 (Z.eqb_neq _ _)) by lia. change (1 =? 1) with true. cbn match.
        rewrite IH by lia. by rewrite <- app_assoc.
Qed.

Lemma bits_of_byte_bits b : Forall a_bit (bits_of_byte b).
Proof.
  unfold bits_of_byte. apply Forall_forall. intros x Hx. apply list_elem_of_fmap in Hx as (k & -> & _).
  change 1 with (Z.ones 1). rewrite Z.land_ones by lia. pose proof (Z.mod_pos_bound (Z.shiftr b (Z.of_nat k)) (2 ^ 1) ltac:(lia)).
  unfold a_bit. lia.
Qed.

Lemma bits_of_bits data : Forall a_bit (bits_of data).
Proof. apply Forall_concat, Forall_map, Forall_forall. intros b _. apply bits_of_byte_bits. Qed.

Lemma length_bits_of data : length (bits_of data) = (8 * length data)%nat.
Proof. unfold bits_of. induction data as [|b data IH]; [done|]. cbn [map concat]. rewrite length_app, IH. cbn [length]. change (length (bits_of_byte b)) with 8%nat. lia. Qed.

Lemma stuffed_not_flag bits rest : Forall a_bit bits -> (7 <= length bits)%nat -> take 8 (stuff 0 bits ++ rest) <> FLAG.
Proof.
  intros H Hl. do 7 (destruct bits as [|? bits]; [cbn in Hl; lia|]).
  rewrite !Forall_cons in H. destruct H as (H0 & H1 & H2 & H3 & H4 & H5 & H6 & _).
  destruct H0 as [-> | ->]; [|by cbn]. destruct H1 as [-> | ->]; [by cbn|]. destruct H2 as [-> | ->]; [by cbn|].
  destruct H3 as [-> | ->]; [by cbn|]. destruct H4 as [-> | ->]; [by cbn|]. destruct H5 as [-> | ->]; by cbn.
Qed.

Lemma skip_one fuel X : frames_from (S fuel) (1 :: X) = frames_from fuel X.
Proof.
  cbn [frames_from]. destruct (Nat.ltb_spec 8 (length (1 :: X))).
  - destruct (decide (take 8 (1 :: X) = FLAG)) as [E|]; [done|]. reflexivity.
  - destruct fuel; [done|]. cbn [frames_from]. rewrite (proj2 (Nat.ltb_ge _ _)); [done|]. cbn in *. lia.
Qed.

Lemma skip_zero fuel X : frames_from (S fuel) (0 :: 0 :: X) = frames_from fuel (0 :: X).
Proof.
  cbn [frames_from]. destruct (Nat.ltb_spec 8 (length (0 :: 0 :: X))).
  - destruct (decide (take 8 (0 :: 0 :: X) = FLAG)) as [E|]; [done|]. reflexivity.
  - destruct fuel; [done|]. cbn [frames_from]. rewrite (proj2 (Nat.ltb_ge _ _)); [done|]. cbn in *. lia.
Qed.

Lemma skip_flags_all g X fuel : take 8 X <> FLAG -> (g < fuel)%nat -> skip_flags fuel (flags g ++ X) = X.
Proof.
  intros HX. revert fuel. induction g as [|g IH]; intros [|fuel] Hf; try lia; cbn [skip_flags].
  - change (flags 0 ++ X) with X. by rewrite decide_False.
  - change (flags (S g)) with (FLAG ++ flags g). rewrite <- app_assoc.
    change (take 8 (FLAG ++ flags g ++ X)) with FLAG. rewrite decide_True by done.
    change (drop 8 (FLAG ++ flags g ++ X)) with (flags g ++ X). apply IH. lia.
Qed.

Lemma length_flags g : length (flags g) = (8 * g)%nat.
Proof. unfold flags. induction g as [|g IH]; [done|]. cbn [replicate concat]. rewrite length_app, IH. cbn. lia. Qed.

(** The stream, its last flags followed by [R]; and what is behind its first flags. *)
Fixpoint stream_to (frames : list (nat * bytes)) (last : nat) (R : list Z) : list Z :=
  match frames with
  | [] => flags last ++ R
  | (gap, data) :: frames' => flags gap ++ stuff 0 (bits_of (data ++ crc_bytes data)) ++ stream_to frames' last R
  end.
Definition first_gap (frames : list (nat * bytes)) (last : nat) : nat :=
  match frames with [] => last | (gap, _) :: _ => gap end.
Definition behind (frames : list (nat * bytes)) (last : nat) (R : list Z) : list Z :=
  match frames with [] => R | (_, data) :: frames' => stuff 0 (bits_of (data ++ crc_bytes data)) ++ stream_to frames' last R end.

(** A flag without its last zero. *)
Definition OPEN_FLAG : list Z := [0; 1; 1; 1; 1; 1; 1].

Lemma stream_split frames last R : stream_to frames last R = flags (first_gap frames last) ++ behind frames last R.
Proof. by destruct frames as [|[gap data] frames]. Qed.

Lemma stream_is_closed frames last : stream frames last = stream_to frames last [].
Proof. induction frames as [|[gap data] frames IH]; cbn [stream stream_to]; [by rewrite app_nil_r | by rewrite IH]. Qed.

Lemma flags_snoc n : flags (S n) = flags n ++ FLAG.
Proof. induction n as [|n IH]; [done|]. change (flags (S (S n))) with (FLAG ++ flags (S n)). rewrite IH at 1. by rewrite app_assoc. Qed.

Lemma stream_is_open frames last : stream frames (S last) = stream_to frames last OPEN_FLAG ++ [0].
Proof.
  induction frames as [|[gap data] frames IH]; cbn [stream stream_to].
  - rewrite flags_snoc. by rewrite <- app_assoc.
  - rewrite IH. by rewrite !app_assoc.
Qed.

Definition sent (frame : nat * bytes) : list Z := bits_of (snd frame ++ crc_bytes (snd frame)) ++ [0].

Lemma sent_bits data : (16 <= length (bits_of (data ++ crc_bytes data)))%nat.
Proof. rewrite length_bits_of, length_app. cbn. lia. Qed.

(** The frames found in flags without anything behind them are too short to count. *)
Lemma frames_of_flags R g fuel : R = [] \/ R = OPEN_FLAG ->
  exists e, frames_from fuel (flags g ++ R) = e /\ omap (M:=list) check_frame e = [].
Proof.
  intros HR. destruct fuel as [|fuel]; [by exists []|]. cbn [frames_from].
  destruct (Nat.ltb_spec 8 (length (flags g ++ R))) as [Hl|]; [|by exists []].
  destruct g as [|g]; [destruct HR as [-> | ->]; cbn in Hl; lia|].
  rewrite decide_True by done. rewrite skip_flags_all; [|by destruct HR as [-> | ->]|rewrite length_app, length_flags; lia].
  destruct HR as [-> | ->]; eexists; (split; [reflexivity|]); by destruct fuel as [|[|fuel]].
Qed.

Lemma frames_of_stream frames last R : Forall (fun f => (2 <= fst f)%nat) frames ->
  R = [] /\ (1 <= last)%nat \/ R = OPEN_FLAG ->
  forall g fuel, frames = [] \/ (1 <= g)%nat -> (length (flags g ++ behind frames last R) < fuel)%nat ->
    exists e, frames_from fuel (flags g ++ behind frames last R) = map sent frames ++ e /\ omap (M:=list) check_frame e = [].
Proof.
  intros Hg HR. assert (HR' : R = [] \/ R = OPEN_FLAG) by (by destruct HR as [[-> _] | ->]; [left|right]).
  induction frames as [|[gap data] frames IH]; intros g fuel Hfirst Hf; [by apply frames_of_flags|].
  apply Forall_cons in Hg as [Hgap Hg]. destruct Hfirst as [|Hg1]; [done|].
  destruct g as [|g]; [lia|]. destruct fuel as [|fuel]; [lia|]. cbn [behind map] in *.
  set (bits := bits_of (data ++ crc_bytes data)) in *.
  pose proof (sent_bits data) as H16. pose proof (bits_of_bits (data ++ crc_bytes data)) as Hbits. fold bits in H16, Hbits.
  assert (take 8 (stuff 0 bits ++ stream_to frames last R) <> FLAG) as Hnf by (apply stuffed_not_flag; [done|lia]).
  assert (Hlong : (8 < length (flags (S g) ++ stuff 0 bits ++ stream_to frames last R))%nat).
  { rewrite length_app, length_flags, length_app. destruct bits as [|b bits']; [cbn in H16; lia|]. cbn [stuff].
    repeat case_match; cbn; lia. }
  cbn [frames_from]. rewrite (proj2 (Nat.ltb_lt _ _) Hlong).
  rewrite decide_True by done. rewrite skip_flags_all; [|done|rewrite length_app, length_flags; lia].
  assert (Hsent : forall rest e, frames_from fuel (1 :: rest) = map sent frames ++ e ->
    match bits ++ [0] with [] => [] | _ => [bits ++ [0]] end ++ frames_from fuel (1 :: rest)
      = (sent (gap, data) :: map sent frames) ++ e).
  { intros rest e ->. unfold sent at 2. cbn [snd]. fold bits. by destruct bits; [cbn in H16; lia|]. }
  rewrite stream_split. destruct (first_gap frames last) as [|k] eqn:Egap.
  - (* the end is an open flag only *)
    assert (frames = []) as ->.
    { destruct frames as [|[gap' d'] frames']; [done|]. cbn in Egap. apply Forall_cons in Hg as [Hg' _]. cbn in Hg'. lia. }
    cbn in Egap. subst last. destruct HR as [[_ ?] | ->]; [lia|].
    change (flags 0 ++ behind [] 0 OPEN_FLAG) with [0; 1; 1; 1; 1; 1; 1].
    rewrite frame_from_stuffed by (done || lia). cbn [app]. exists []. split; [|done]. apply Hsent. by destruct fuel as [|fuel].
  - change (flags (S k) ++ behind frames last R) with (0 :: 1 :: 1 :: 1 :: 1 :: 1 :: 1 :: 0 :: flags k ++ behind frames last R).
    rewrite frame_from_stuffed by (done || lia). cbn [app].
    assert (exists e, frames_from fuel (1 :: 0 :: flags k ++ behind frames last R) = map sent frames ++ e
              /\ omap (M:=list) check_frame e = []) as (e & He & Hc).
    { rewrite stream_split, Egap in Hf. change (flags (S k)) with (FLAG ++ flags k) in Hf.
      rewrite !length_app, !length_flags in Hf. change (length FLAG) with 8%nat in Hf.
      destruct fuel as [|fuel]; [lia|]. rewrite skip_one.
      destruct k as [|k'].
      - assert (frames = []) as ->.
        { destruct frames as [|[gap' d'] frames']; [done|]. cbn in Egap. apply Forall_cons in Hg as [Hg' _]. cbn in Hg'. lia. }
        exists []. split; [|done]. change (flags 0 ++ behind [] last R) with R.
        destruct HR' as [-> | ->]; [by destruct fuel|]. destruct fuel as [|fuel]; [done|]. unfold OPEN_FLAG. rewrite skip_zero. by destruct fuel.
      - destruct fuel as [|fuel]; [rewrite ?length_app in Hf; cbn in Hf; lia|]. change (flags (S k')) with (0 :: [1; 1; 1; 1; 1; 1; 0] ++ flags k').
        cbn [app]. rewrite skip_zero. apply (IH Hg (S k')); [right; lia|].
        rewrite length_app, length_flags. lia. }
    exists e. split; [|done]. by apply Hsent.
Qed.

(** ** Bytes and CRC *)

Lemma byte_of_bits b rest : is_byte b -> byte_of (bits_of_byte b ++ rest) = b.
Proof.
  intros H. change (byte_of (bits_of_byte b ++ rest)) with (byte_of (bits_of_byte b)).
  assert (forallb (fun k => byte_of (bits_of_byte (Z.of_nat k)) =? Z.of_nat k) (seq 0 256) = true) as Hall by (vm_cast_no_check (eq_refl true)).
  rewrite forallb_forall in Hall. specialize (Hall (Z.to_nat b)). rewrite Z2Nat.id in Hall by (unfold is_byte in H; lia).
  apply Z.eqb_eq, Hall, in_seq. unfold is_byte in H. lia.
Qed.

Lemma bytes_of_bits data : all_bytes data -> bits_to_bytes (bits_of data) = data.
Proof.
  intros H. unfold bits_to_bytes. rewrite length_bits_of, Nat.mul_comm, Nat.div_mul by lia.
  induction H as [|b data Hb H IH]; [done|]. cbn [length bytes_from].
  change (bits_of (b :: data)) with (bits_of_byte b ++ bits_of data).
  rewrite byte_of_bits by done. by rewrite drop_app_length' by done; rewrite IH.
Qed.

Lemma crc_bytes_bytes data : all_bytes (crc_bytes data) /\ length (crc_bytes data) = 2%nat.
Proof. split; [|done]. unfold crc_bytes. repeat constructor; apply u8_range. Qed.

(** A frame as it is found: its last zero is the closing flag's. *)
Lemma check_found data crc : all_bytes data -> all_bytes crc -> length crc = 2%nat ->
  check_frame (bits_of (data ++ crc) ++ [0]) = Some (data, crc, bool_decide (crc_bytes data = crc)).
Proof.
  intros Hd Hc Hl. unfold check_frame. rewrite length_app, length_bits_of. change (length [0]) with 1%nat.
  replace ((8 * length (data ++ crc) + 1) / 8 * 8)%nat with (8 * length (data ++ crc))%nat.
  2: { rewrite (Nat.add_comm _ 1), (Nat.mul_comm 8), Nat.div_add by lia. change (1 / 8)%nat with 0%nat. lia. }
  rewrite take_app_length' by (by rewrite length_bits_of). rewrite bytes_of_bits by (by apply Forall_app).
  rewrite length_app, Hl. rewrite (proj2 (Nat.ltb_ge _ _)) by lia.
  replace (length data + 2 - 2)%nat with (length data) by lia. by rewrite take_app_length, drop_app_length.
Qed.

Definition word (x : Z) : Prop := 0 <= x < 65536.

Lemma lxor_word a b : word a -> word b -> word (Z.lxor a b).
Proof.
  intros Ha Hb. unfold word in *. assert (Z.lxor a b = Z.lxor a b mod 2 ^ 16) as ->; [|by apply Z.mod_pos_bound].
  rewrite <- Z.land_ones by lia. apply Z.bits_inj'. intros n Hn. rewrite Z.land_spec, Z.lxor_spec, Z.testbit_ones_nonneg by lia.
  destruct (Z.ltb_spec n 16); [by rewrite andb_true_r|].
  assert (Hz : forall x, 0 <= x < 65536 -> Z.testbit x n = false).
  { intros x Hx. destruct (Z.eq_dec x 0) as [->|]; [apply Z.testbit_0_l|]. apply Z.bits_above_log2; [lia|].
    apply Z.log2_lt_pow2; [lia|]. apply Z.lt_le_trans with (2 ^ 16); [change (2 ^ 16) with 65536; lia|]. apply Z.pow_le_mono_r; lia. }
  rewrite !Hz by done. done.
Qed.

(** One step of the CRC can be undone. *)
Definition crc_unbit (z : Z) : Z := if z <? 32768 then 2 * z else 2 * Z.lxor z 33800 + 1.

Lemma bit15 z : 0 <= z < 32768 -> Z.testbit z 15 = false.
Proof. intros H. rewrite Z.testbit_odd, Z.shiftr_div_pow2 by lia. by rewrite Z.div_small by (change (2 ^ 15) with 32768; lia). Qed.

Lemma crc_bit_inverse x : word x -> word (crc_bit x) /\ crc_unbit (crc_bit x) = x.
Proof.
  intros H. unfold word in H. unfold crc_bit. assert (Z.land x 1 = x mod 2) as -> by (apply (Z.land_ones x 1); lia).
  rewrite Z.shiftr_div_pow2 by lia. change (2 ^ 1) with 2. set (q := x / 2). assert (Hq : 0 <= q < 32768) by (unfold q; Z.div_mod_to_equations; lia).
  destruct (Z.eqb_spec (x mod 2) 0) as [E|E]; unfold crc_unbit.
  - rewrite (proj2 (Z.ltb_lt q 32768)) by lia. unfold word, q in *. Z.div_mod_to_equations. lia.
  - assert (Hw : word (Z.lxor q 33800)) by (apply lxor_word; unfold word; lia). split; [done|].
    destruct (Z.ltb_spec (Z.lxor q 33800) 32768) as [Hlt|_].
    + exfalso. assert (Hb : Z.testbit (Z.lxor q 33800) 15 = false) by (apply bit15; unfold word in Hw; lia).
      by rewrite Z.lxor_spec, (bit15 q Hq) in Hb.
    + rewrite Z.lxor_assoc, Z.lxor_nilpotent, Z.lxor_0_r. unfold q. Z.div_mod_to_equations. lia.
Qed.

Lemma crc_iter_word n x : word x -> word (Nat.iter n crc_bit x).
Proof. intros H. induction n as [|n IH]; [done|]. by apply crc_bit_inverse. Qed.

Lemma crc_iter_injective n x y : word x -> word y -> Nat.iter n crc_bit x = Nat.iter n crc_bit y -> x = y.
Proof.
  intros Hx Hy. induction n as [|n IH]; [done|]. intros H. apply IH.
  change (crc_bit (Nat.iter n crc_bit x) = crc_bit (Nat.iter n crc_bit y)) in H.
  destruct (crc_bit_inverse _ (crc_iter_word n x Hx)) as [_ <-], (crc_bit_inverse _ (crc_iter_word n y Hy)) as [_ <-].
  by rewrite H.
Qed.

Lemma byte_word b : is_byte b -> word b.
Proof. unfold is_byte, word. lia. Qed.

Lemma crc_byte_word c b : word c -> is_byte b -> word (crc_byte c b).
Proof. intros Hc Hb. apply crc_iter_word, lxor_word; [done|by apply byte_word]. Qed.

Lemma crc_byte_injective c c' b b' : word c -> word c' -> is_byte b -> is_byte b' ->
  crc_byte c b = crc_byte c' b' -> Z.lxor c b = Z.lxor c' b'.
Proof. intros. eapply (crc_iter_injective 8); [| |done]; apply lxor_word; auto using byte_word. Qed.

Lemma lxor_cancel a b c : Z.lxor a b = Z.lxor a c -> b = c.
Proof.
  intros H. apply (f_equal (Z.lxor a)) in H. by rewrite <- !Z.lxor_assoc, Z.lxor_nilpotent, !Z.lxor_0_l in H.
Qed.

Lemma crc_fold_word data : all_bytes data -> forall c, word c -> word (foldl crc_byte c data).
Proof. induction 1; intros c Hc; cbn [foldl]; [done|]. auto using crc_byte_word. Qed.

Lemma crc_fold_injective data : all_bytes data -> forall c c', word c -> word c' ->
  foldl crc_byte c data = foldl crc_byte c' data -> c = c'.
Proof.
  induction 1 as [|b data Hb H IH]; intros c c' Hc Hc' E; cbn [foldl] in E; [done|].
  apply IH in E; [|by apply crc_byte_word..]. apply crc_byte_injective in E; try done.
  rewrite (Z.lxor_comm c), (Z.lxor_comm c') in E. by apply lxor_cancel in E.
Qed.

Lemma crc_damaged data i x y : all_bytes data -> data !! i = Some x -> is_byte y -> x <> y ->
  crc_bytes (<[i := y]> data) <> crc_bytes data.
Proof.
  intros Hd Hx Hy Hne E. assert (crc_ccitt (<[i := y]> data) = crc_ccitt data) as Ec.
  { assert (Hw : forall l, all_bytes l -> word (crc_ccitt l)) by (intros l Hl; apply lxor_word; [apply crc_fold_word; done|done]).
    pose proof (Hw _ Hd) as H1. pose proof (Hw _ (proj2 (conj I (Forall_insert _ _ i y Hd Hy)))) as H2.
    unfold crc_bytes in E. injection E as E1 E2.
    fold (u8 (crc_ccitt (<[i:=y]> data))) (u8 (crc_ccitt data)) in E1.
    fold (u8 (Z.shiftr (crc_ccitt (<[i:=y]> data)) 8)) (u8 (Z.shiftr (crc_ccitt data) 8)) in E2.
    rewrite !u8_mod in E1, E2. rewrite !Z.shiftr_div_pow2 in E2 by lia. change (2 ^ 8) with 256 in E2.
    unfold word in *. Z.div_mod_to_equations. lia. }
  unfold crc_ccitt in Ec. rewrite !(Z.lxor_comm _ 65535) in Ec. apply lxor_cancel in Ec.
  rewrite <- (take_drop_middle data i x Hx) in Ec at 2. rewrite <- (take_drop_middle data i x Hx) in Ec at 1.
  assert (length (take i data) = i) as Hl by (rewrite length_take; apply lookup_lt_Some in Hx; lia).
  rewrite insert_app_r_alt, Hl, Nat.sub_diag in Ec by lia. cbn [list_insert insert] in Ec. rewrite !foldl_app in Ec. cbn [foldl] in Ec.
  assert (is_byte x) by (by apply (proj1 (Forall_forall _ _) Hd), (list_elem_of_lookup_2 _ i)).
  assert (word (foldl crc_byte 65535 (take i data))) as Hw by (apply crc_fold_word; [by apply Forall_take|done]).
  apply crc_fold_injective in Ec; [|by apply Forall_drop|by apply crc_byte_word..].
  apply crc_byte_injective in Ec; try done. by apply lxor_cancel in Ec.
Qed.

(** ** Recovering the bits *)

Lemma concat_replicate_lookup {A} (xs : list A) s c r : (r < s)%nat ->
  concat (map (replicate s) xs) !! (s * c + r)%nat = xs !! c.
Proof.
  intros Hr. revert c. induction xs as [|x xs IH]; intros c; [done|]. cbn [map concat].
  destruct c as [|c].
  - rewrite Nat.mul_0_r, Nat.add_0_l, lookup_app_l by (by rewrite length_replicate). by rewrite lookup_replicate_2.
  - rewrite lookup_app_r by (rewrite length_replicate; nia). rewrite length_replicate.
    replace (s * S c + r - s)%nat with (s * c + r)%nat by nia. apply IH.
Qed.

Lemma length_concat_replicate {A} (xs : list A) s : length (concat (map (replicate s) xs)) = (s * length xs)%nat.
Proof. induction xs as [|x xs IH]; [cbn; lia|]. cbn [map concat length]. rewrite length_app, length_replicate, IH. lia. Qed.

Section Sampling.
Context (mask : Z) (s : nat) (levels samples : list Z).
Hypothesis mask_positive : 0 < mask.
Hypothesis some_samples : (1 <= s)%nat.
Hypothesis levels_are_bits : Forall a_bit levels.
Hypothesis sampled : samples_of mask s levels samples.

Lemma sample_count : length samples = (s * length levels)%nat.
Proof.
  pose proof (f_equal length sampled) as H. rewrite length_map in H. rewrite H, <- (map_map (fun l => l * mask) (replicate s)).
  by rewrite length_concat_replicate, length_map.
Qed.

Lemma sample_level c r l : levels !! c = Some l -> (r < s)%nat ->
  exists b, samples !! (s * c + r)%nat = Some b /\ Z.land b mask = l * mask /\ level mask b = l.
Proof.
  intros Hl Hr. pose proof (f_equal (fun xs => xs !! (s * c + r)%nat) sampled) as H. cbn in H.
  rewrite <- (map_map (fun l => l * mask) (replicate s)), concat_replicate_lookup in H by done.
  change (map (fun b => Z.land b mask) samples) with ((fun b => Z.land b mask) <$> samples) in H.
  change (map (fun l => l * mask) levels) with ((fun l => l * mask) <$> levels) in H.
  rewrite !list_lookup_fmap, Hl in H. destruct (samples !! _) as [b|]; [|done]. injection H as H.
  exists b. split_and!; [done|done|]. unfold level. rewrite H.
  pose proof (proj1 (Forall_forall _ _) levels_are_bits l (list_elem_of_lookup_2 _ _ _ Hl)) as [-> | ->]; [done|].
  rewrite Z.mul_1_l. by rewrite (proj2 (Z.eqb_neq _ _)) by lia.
Qed.

Lemma level_of_sample k b : samples !! k = Some b -> levels !! (k / s)%nat = Some (level mask b).
Proof.
  intros Hk. pose proof (lookup_lt_Some _ _ _ Hk) as Hlt. rewrite sample_count in Hlt.
  pose proof (Nat.div_mod k s ltac:(lia)) as Hd. pose proof (Nat.mod_upper_bound k s ltac:(lia)) as Hm.
  destruct (lookup_lt_is_Some_2 levels (k / s)) as [l Hl]; [by apply Nat.Div0.div_lt_upper_bound|].
  destruct (sample_level _ (k mod s) l Hl Hm) as (b' & Hb' & _ & E). rewrite <- Hd, Hk in Hb'. injection Hb' as <-. by rewrite E.
Qed.

Lemma find_nudge_same l lvl j : Forall (fun b => level mask b = lvl) l -> find_nudge mask lvl l j = None.
Proof. intros H. revert j. induction H as [|b l Hb H IH]; intros j; [done|]. cbn [find_nudge]. by rewrite Hb, Z.eqb_refl. Qed.

Lemma find_nudge_at l b rest lvl j : Forall (fun b => level mask b = lvl) l -> level mask b <> lvl ->
  find_nudge mask lvl (l ++ b :: rest) j = Some (j + length l)%nat.
Proof.
  intros H Hb. revert j. induction H as [|x l Hx H IH]; intros j; cbn [find_nudge app length].
  - rewrite (proj2 (Z.eqb_neq _ _)) by done. f_equal. lia.
  - rewrite Hx, Z.eqb_refl, IH. f_equal. lia.
Qed.

Lemma slice_cell c l a : levels !! c = Some l -> (s * c <= a)%nat ->
  Forall (fun b => level mask b = l) (slice a (s * S c) samples).
Proof.
  intros Hl Ha. apply Forall_lookup. intros i b Hi. unfold slice in Hi. apply lookup_take_Some in Hi as [Hi Hlt].
  rewrite lookup_drop in Hi. destruct (sample_level c (a + i - s * c) l Hl ltac:(nia)) as (b' & Hb' & _ & E).
  replace (s * c + (a + i - s * c))%nat with (a + i)%nat in Hb' by lia. rewrite Hi in Hb'. by injection Hb' as <-.
Qed.

(** The time after a cell is the next cell's middle, nudged or not. *)
Lemma next_middle c l : levels !! c = Some l ->
  let n := length samples in
  let idx := ((2 * (s * c) + s) / 2)%nat in
  let stop := Nat.min n ((2 * (s * c) + s + s) / 2 + 1) in
  match find_nudge mask l (slice idx stop samples) idx with
  | Some j => (2 * j + s)%nat
  | None => (2 * (s * c) + s + 2 * s)%nat
  end = (2 * (s * S c) + s)%nat.
Proof.
  intros Hl n idx stop. pose proof (lookup_lt_Some _ _ _ Hl) as Hc.
  assert (Hidx : (s * c <= idx < s * S c)%nat).
  { unfold idx. rewrite (Nat.mul_comm 2), (Nat.add_comm (s * c * 2)), Nat.div_add by lia.
    pose proof (Nat.div_lt s 2 ltac:(lia) ltac:(lia)). nia. }
  assert (Hn : n = (s * length levels)%nat) by apply sample_count.
  assert (Hstop : stop = Nat.min n (s * S c + 1)).
  { unfold stop. f_equal. replace (2 * (s * c) + s + s)%nat with ((s * S c) * 2)%nat by nia. by rewrite Nat.div_mul by lia. }
  pose proof (slice_cell c l idx Hl ltac:(lia)) as Hcell.
  assert (Hlen : length (slice idx (s * S c) samples) = (s * S c - idx)%nat).
  { unfold slice. rewrite length_take, length_drop. fold n. nia. }
  destruct (levels !! S c) as [l'|] eqn:Hl'.
  - pose proof (lookup_lt_Some _ _ _ Hl') as Hc'.
    destruct (sample_level (S c) 0 l' Hl' ltac:(lia)) as (b & Hb & _ & Eb). rewrite Nat.add_0_r in Hb.
    assert (slice idx stop samples = slice idx (s * S c) samples ++ [b]) as ->.
    { rewrite Hstop, Nat.min_r by nia. unfold slice. replace (s * S c + 1 - idx)%nat with (S (s * S c - idx)) by lia.
      erewrite take_S_r; [done|]. rewrite lookup_drop. replace (idx + (s * S c - idx))%nat with (s * S c)%nat by lia. exact Hb. }
    destruct (Z.eq_dec l' l) as [->|Hne].
    + rewrite find_nudge_same; [nia|]. apply Forall_app. split; [done|]. by constructor.
    + rewrite find_nudge_at by (done || by rewrite Eb). rewrite Hlen. nia.
  - apply lookup_ge_None in Hl'. assert (S c = length levels) as Elast by lia.
    rewrite Hstop, Nat.min_l by nia. replace n with (s * S c)%nat by nia. rewrite find_nudge_same by done. nia.
Qed.

Lemma dpll_loop_ok fuel : forall c, (length levels - c < fuel)%nat ->
  dpll_loop fuel samples mask s (2 * (s * c) + s) = Ret (drop c levels).
Proof.
  induction fuel as [|fuel IH]; intros c Hf; [lia|]. cbn [dpll_loop].
  destruct (levels !! c) as [l|] eqn:Hl.
  - pose proof (lookup_lt_Some _ _ _ Hl) as Hc. rewrite sample_count at 1.
    rewrite (proj2 (Nat.ltb_lt _ _)) by nia.
    assert (Hidx : exists r, ((2 * (s * c) + s) / 2 = s * c + r)%nat /\ (r < s)%nat).
    { exists (s / 2)%nat. rewrite (Nat.mul_comm 2), (Nat.add_comm (s * c * 2)), Nat.div_add by lia.
      split; [lia|]. apply Nat.div_lt; lia. }
    destruct Hidx as (r & Er & Hr). destruct (sample_level c r l Hl Hr) as (b & Hb & _ & Eb).
    rewrite <- Er in Hb. rewrite (index_in _ _ _ Hb). cbn [mbind outcome_bind]. rewrite Eb.
    pose proof (next_middle c l Hl) as Hnext. cbv zeta in Hnext. rewrite Hnext, IH by lia. cbn [mbind outcome_bind].
    by rewrite (drop_S _ _ _ Hl).
  - apply lookup_ge_None in Hl. rewrite (proj2 (Nat.ltb_ge _ _)) by (rewrite sample_count; nia). by rewrite drop_ge.
Qed.
End Sampling.

Lemma first_transition_at mask p A b B : Forall (fun x => Z.land x mask = p) A -> Z.land b mask <> p ->
  forall i, first_transition mask p (A ++ b :: B) i = (i + length A)%nat.
Proof.
  intros HA Hb. induction HA as [|x A Hx HA IH]; intros i; cbn [first_transition app length].
  - rewrite (proj2 (Z.eqb_neq _ _)) by done. lia.
  - rewrite Hx, Z.eqb_refl, IH. lia.
Qed.

(** From an idle line on, the DPLL gives exactly the cells sent. *)
Lemma dpll_line mask s n idle l L samples : 0 < mask -> (1 <= s)%nat -> (1 <= n)%nat ->
  Forall a_bit (replicate n idle ++ l :: L) -> l <> idle ->
  samples_of mask s (replicate n idle ++ l :: L) samples -> dpll_bits samples mask s = Ret (l :: L).
Proof.
  intros Hm Hs Hn Hbits Hl Hsam. set (levels := replicate n idle ++ l :: L) in *.
  pose proof (sample_count mask s levels samples Hsam) as Hcount.
  assert (Hlen : length levels = (n + S (length L))%nat) by (unfold levels; rewrite length_app, length_replicate; done).
  assert (Hidle : forall c, (c < n)%nat -> levels !! c = Some idle)
    by (intros c Hc; unfold levels; rewrite lookup_app_l by (by rewrite length_replicate); by rewrite lookup_replicate_2).
  assert (Hn' : levels !! n = Some l) by (unfold levels; by rewrite list_lookup_middle by (by rewrite length_replicate)).
  destruct (sample_level mask s levels samples Hm Hs Hbits Hsam n 0 l Hn' ltac:(lia)) as (b & Hb & Eb & _). rewrite Nat.add_0_r in Hb.
  destruct (sample_level mask s levels samples Hm Hs Hbits Hsam 0 0 idle (Hidle 0%nat ltac:(lia)) ltac:(lia)) as (b0 & Hb0 & Eb0 & _).
  rewrite Nat.mul_0_r in Hb0. unfold dpll_bits. destruct samples as [|b0' samples']; [done|]. cbn in Hb0. injection Hb0 as ->.
  set (samples := b0 :: samples') in *. rewrite Eb0.
  assert (Hft : first_transition mask (idle * mask) samples 0 = (s * n)%nat).
  { rewrite <- (take_drop_middle samples (s * n) b Hb). rewrite first_transition_at.
    - rewrite length_take. apply lookup_lt_Some in Hb. lia.
    - apply Forall_lookup. intros i x Hx. apply lookup_take_Some in Hx as [Hx Hi].
      pose proof (Nat.div_mod i s ltac:(lia)) as Hd. pose proof (Nat.mod_upper_bound i s ltac:(lia)) as Hmd.
      destruct (sample_level mask s levels samples Hm Hs Hbits Hsam (i / s) (i mod s) idle) as (x' & Hx' & Ex & _); [|done|].
      + apply Hidle. apply Nat.Div0.div_lt_upper_bound. lia.
      + rewrite <- Hd, Hx in Hx'. by injection Hx' as <-.
    - rewrite Eb. intros E. apply Z.mul_reg_r in E; [done|lia]. }
  rewrite Hft. rewrite (proj2 (Nat.leb_gt _ _)) by (rewrite Hcount, Hlen; nia).
  rewrite (dpll_loop_ok mask s levels samples Hm Hs Hbits Hsam) by (rewrite Hcount, Hlen; nia).
  unfold levels. by rewrite drop_app_length' by (by rewrite length_replicate).
Qed.

Lemma stuff_bits bits : Forall a_bit bits -> forall ones, Forall a_bit (stuff ones bits).
Proof.
  induction 1 as [|b bits Hb H IH]; intros ones; [constructor|]. cbn [stuff].
  repeat case_match; repeat constructor; try done; try (by left); by right.
Qed.

Lemma flags_bits g : Forall a_bit (flags g).
Proof. unfold flags. induction g as [|g IH]; [constructor|]. cbn [replicate concat]. apply Forall_app. split; [|done]. repeat constructor; (by left) || by right. Qed.

Lemma stream_to_bits frames last R : Forall a_bit R -> Forall a_bit (stream_to frames last R).
Proof.
  intros HR. induction frames as [|[gap data] frames IH]; cbn [stream_to]; rewrite !Forall_app;
    split_and!; auto using flags_bits, stuff_bits, bits_of_bits.
Qed.

Lemma stream_bits frames last : Forall a_bit (stream frames last).
Proof. rewrite stream_is_closed. by apply stream_to_bits. Qed.

Lemma nrzi_encode_bits bits : forall prev, a_bit prev -> Forall a_bit (nrzi_encode prev bits).
Proof.
  induction bits as [|b bits IH]; intros prev Hp; [constructor|]. cbn [nrzi_encode].
  assert (a_bit (if b =? 1 then prev else 1 - prev)) as H
    by (destruct (b =? 1); [done|]; destruct Hp as [-> | ->]; [by right|by left]).
  constructor; [done|]. by apply IH.
Qed.

(** *** By the length of the runs

    The runs of cells of one level, at most eight of each and the last not at all. *)
Fixpoint cell_runs (prev : Z) (m : nat) (cells : list Z) : list Z :=
  match cells with
  | [] => []
  | c :: cells' => if c =? prev then cell_runs prev (S m) cells' else replicate (Nat.min 8 m) prev ++ cell_runs c 1 cells'
  end.

Lemma runs_same mask sps A B prev run bits : Forall (fun b => level mask b = prev) A ->
  runs_to_bits mask sps (A ++ B) prev run bits = runs_to_bits mask sps B prev (run + zlength A) bits.
Proof.
  intros H. revert run. induction H as [|b A Hb H IH]; intros run; cbn [app runs_to_bits]; [f_equal; unfold zlength; cbn; lia|].
  rewrite Hb, Z.eqb_refl, IH. f_equal. unfold zlength. cbn [length]. lia.
Qed.

Lemma round_whole s m : 0 < s -> round_ratio (s * m) s = m.
Proof. intros H. unfold round_ratio. rewrite (Z.mul_comm s m), Z.div_mul, Z.mod_mul by lia. by rewrite (proj2 (Z.ltb_lt _ _)) by lia. Qed.

Lemma runs_of_cells mask s : 0 < mask -> (1 <= s)%nat -> forall levels samples prev m bits, Forall a_bit levels ->
  samples_of mask s levels samples -> (1 <= m)%nat \/ head levels = Some prev ->
  runs_to_bits mask (Z.of_nat s) samples prev (Z.of_nat (s * m)) bits = bits ++ cell_runs prev m levels.
Proof.
  intros Hm Hs levels. induction levels as [|l levels IH]; intros samples prev m bits Hb Hsam Hfirst.
  { unfold samples_of in Hsam. apply map_eq_nil in Hsam as ->. cbn. by rewrite app_nil_r. }
  apply Forall_cons in Hb as [Hl Hb]. unfold samples_of in Hsam. cbn [map concat] in Hsam.
  apply map_eq_app in Hsam as (A & B & -> & HA & HB).
  assert (Hlen : length A = s) by (apply (f_equal length) in HA; by rewrite length_map, length_replicate in HA).
  assert (Hlev : Forall (fun b => level mask b = l) A).
  { apply Forall_forall. intros b Hin. assert (Z.land b mask = l * mask) as E.
    { assert (In (Z.land b mask) (map (fun b => Z.land b mask) A)) as Hi by (apply (in_map (fun b => Z.land b mask)); by apply list_elem_of_In).
      rewrite HA in Hi. apply list_elem_of_In, elem_of_replicate in Hi as [Hi _]. exact Hi. }
    unfold level. rewrite E. destruct Hl as [-> | ->]; [done|]. rewrite Z.mul_1_l. by rewrite (proj2 (Z.eqb_neq _ _)) by lia. }
  cbn [cell_runs]. destruct (Z.eqb_spec l prev) as [->|Hne].
  - rewrite runs_same by done. replace (Z.of_nat (s * m) + zlength A) with (Z.of_nat (s * S m)) by (unfold zlength; lia).
    apply IH; [done|done|left; lia].
  - destruct Hfirst as [Hm1|E]; [|by injection E]. destruct A as [|a A]; [cbn in Hlen; lia|].
    apply Forall_cons in Hlev as [Ha HA']. cbn [app runs_to_bits]. rewrite Ha, (proj2 (Z.eqb_neq _ _)) by done.
    rewrite runs_same by done. rewrite Nat2Z.inj_mul, round_whole by lia.
    replace (1 + zlength A) with (Z.of_nat (s * 1)) by (unfold zlength; cbn [length] in Hlen; lia).
    rewrite IH; [|done|done|by left]. rewrite <- app_assoc. f_equal. f_equal. f_equal.
    unfold MAX_RUN_BITS. destruct (Z.ltb_spec 8 (Z.max 1 (Z.of_nat m))); lia.
Qed.

Lemma samples_to_bits_cells mask s levels samples : 0 < mask -> (1 <= s)%nat -> Forall a_bit levels ->
  samples_of mask s levels samples -> samples_to_bits samples mask (Z.of_nat s) = cell_runs (default 0 (head levels)) 0 levels.
Proof.
  intros Hm Hs Hb Hsam. unfold samples_to_bits. destruct samples as [|b samples].
  { pose proof (sample_count mask s levels [] Hsam) as E. destruct levels as [|l levels]; [done|]. cbn in E. lia. }
  destruct levels as [|l levels].
  { unfold samples_of in Hsam. done. }
  assert (El : level mask b = l).
  { destruct (sample_level mask s (l :: levels) (b :: samples) Hm Hs Hb Hsam 0 0 l eq_refl ltac:(lia)) as (b' & Hb' & _ & E).
    rewrite Nat.mul_0_r in Hb'. cbn in Hb'. by injection Hb' as <-. }
  rewrite El. pose proof (runs_of_cells mask s Hm Hs (l :: levels) (b :: samples) l 0 [] Hb Hsam ltac:(by right)) as E.
  rewrite Nat.mul_0_r in E. exact E.
Qed.

(** Levels that change at least every eight cells, the first run being [m] long. *)
Fixpoint short_runs (m : nat) (bits : list Z) : Prop :=
  match bits with
  | [] => (m <= 8)%nat
  | b :: bits' => if b =? 1 then short_runs (S m) bits' else (m <= 8)%nat /\ short_runs 1 bits'
  end.

Lemma cell_runs_ok bits : Forall a_bit bits -> forall p m, a_bit p -> (1 <= m)%nat -> short_runs m bits ->
  cell_runs p m (nrzi_encode p (bits ++ [0])) = replicate m p ++ nrzi_encode p bits.
Proof.
  assert (Hne : forall p, a_bit p -> (1 - p =? p) = false) by (by intros p [-> | ->]).
  induction 1 as [|b bits Hb H IH]; intros p m Hp Hm1 Hr; cbn [app nrzi_encode short_runs] in *.
  - change (0 =? 1) with false. cbn match. cbn [cell_runs]. rewrite Hne by done. by rewrite Nat.min_r by lia.
  - destruct Hb as [-> | ->].
    + change (0 =? 1) with false in *. cbn match in *. destruct Hr as [Hm8 Hr]. cbn [cell_runs]. rewrite Hne by done.
      rewrite IH; [|destruct Hp as [-> | ->]; [by right|by left]|lia|done]. by rewrite Nat.min_r by lia.
    + change (1 =? 1) with true in *. cbn match in *. cbn [cell_runs]. rewrite Z.eqb_refl, IH by (done || lia).
      rewrite replicate_S_end, <- app_assoc. done.
Qed.

Lemma cell_runs_idle n p X : cell_runs p 0 (replicate n p ++ X) = cell_runs p n X.
Proof.
  enough (forall k, cell_runs p k (replicate n p ++ X) = cell_runs p (n + k) X) as H by (rewrite H; f_equal; lia).
  induction n as [|n IH]; intros k; [done|]. cbn [replicate app cell_runs]. rewrite Z.eqb_refl, IH. f_equal. lia.
Qed.

Lemma short_flag m Y : (m <= 8)%nat -> short_runs 1 Y -> short_runs m (FLAG ++ Y).
Proof. intros Hm HY. cbn. split; [done|]. split; [lia|done]. Qed.

Lemma short_flags g m Y : (m <= 8)%nat -> (forall k, (k <= 8)%nat -> short_runs k Y) -> short_runs m (flags g ++ Y).
Proof.
  intros Hm HY. revert m Hm. induction g as [|g IH]; intros m Hm; [by apply HY|].
  change (flags (S g)) with (FLAG ++ flags g). rewrite <- app_assoc. apply short_flag; [done|]. apply IH. lia.
Qed.

Lemma short_stuffed bits : Forall a_bit bits -> forall ones Y, 0 <= ones < 5 -> (forall k, (k <= 8)%nat -> short_runs k Y) ->
  short_runs (S (Z.to_nat ones)) (stuff ones bits ++ Y).
Proof.
  induction 1 as [|b bits Hb H IH]; intros ones Y Ho HY; cbn [stuff app]; [apply HY; lia|].
  destruct Hb as [-> | ->].
  - change (0 =? 1) with false. cbn match. cbn [app short_runs]. change (0 =? 1) with false. cbn match. split; [lia|]. apply (IH 0); [lia|done].
  - change (1 =? 1) with true. cbn match. destruct (Z.eqb_spec ones 4) as [->|Hne].
    + cbn [app short_runs]. change (1 =? 1) with true. change (0 =? 1) with false. cbn match. split; [lia|]. apply (IH 0); [lia|done].
    + cbn [app short_runs]. change (1 =? 1) with true. cbn match.
      replace (S (S (Z.to_nat ones))) with (S (Z.to_nat (ones + 1))) by lia. apply IH; [lia|done].
Qed.

Lemma short_stream frames last : Forall (fun f => (1 <= fst f)%nat) frames -> forall m, (m <= 8)%nat -> short_runs m (stream_to frames last OPEN_FLAG).
Proof.
  intros Hg. induction Hg as [|[gap data] frames Hgap Hg IH]; intros m Hm; cbn [stream_to].
  - apply short_flags; [done|]. intros k Hk. cbn. lia.
  - cbn in Hgap. destruct gap as [|gap]; [lia|]. change (flags (S gap)) with (FLAG ++ flags gap). rewrite <- app_assoc.
    apply short_flag; [done|].
    assert (H1 : short_runs 1 (stuff 0 (bits_of (data ++ crc_bytes data)) ++ stream_to frames last OPEN_FLAG))
      by (apply (short_stuffed _ (bits_of_bits _) 0); [lia|exact IH]).
    clear Hgap. induction gap as [|gap IHg]; [exact H1|]. change (flags (S gap)) with (FLAG ++ flags gap). rewrite <- app_assoc.
    apply short_flag; [lia|]. by apply IHg.
Qed.

(** Any number of ones before the flags. *)
Lemma skip_ones k X fuel : frames_from (k + fuel) (replicate k 1 ++ X) = frames_from fuel X.
Proof. induction k as [|k IH]; [done|]. change (replicate (S k) 1 ++ X) with (1 :: replicate k 1 ++ X). cbn [Nat.add]. by rewrite skip_one. Qed.

Lemma nrzi_from_idle k p X : nrzi_from p (replicate k p ++ X) = replicate k 1 ++ nrzi_from p X.
Proof. induction k as [|k IH]; [done|]. cbn [replicate app nrzi_from]. by rewrite Z.eqb_refl, IH. Qed.

Section Decoding.
Context (frames : list (nat * bytes)) (last : nat) (R : list Z).
Hypothesis gaps : Forall (fun f => (2 <= fst f)%nat) frames.
Hypothesis some_frames : frames <> [].
Hypothesis ending : R = [] /\ (1 <= last)%nat \/ R = OPEN_FLAG.

Lemma two_flags : exists g, stream_to frames last R = flags (S (S g)) ++ behind frames last R.
Proof.
  rewrite stream_split. destruct frames as [|[gap data] fs]; [done|]. apply Forall_cons in gaps as [H _]. cbn in *.
  exists (gap - 2)%nat. by replace gap with (S (S (gap - 2))) at 1 by lia.
Qed.

(** The frames behind the flags, when something before them has been skipped or
    has spoiled the first flag. *)
Lemma frames_of_flagged g fuel : (length (flags (S g) ++ behind frames last R) < fuel)%nat ->
  exists e, frames_from fuel (flags (S g) ++ behind frames last R) = map sent frames ++ e /\ omap (M:=list) check_frame e = [].
Proof. intros Hf. apply frames_of_stream; [done|done|right; lia|done]. Qed.

(** A zero and one to seven ones before the flags: six make a false flag. *)
Lemma frames_behind_zero j g : (j <= 7)%nat ->
  exists e, find_frames (0 :: replicate j 1 ++ flags (S (S g)) ++ behind frames last R) = map sent frames ++ e
    /\ omap (M:=list) check_frame e = [].
Proof.
  intros Hj. unfold find_frames. change (flags (S (S g))) with (0 :: 1 :: 1 :: 1 :: 1 :: 1 :: 1 :: 0 :: flags (S g)). cbn [app].
  set (X := flags (S g) ++ behind frames last R) in *.
  assert (HX : forall fuel, (length X < fuel)%nat -> exists e, frames_from fuel X = map sent frames ++ e /\ omap (M:=list) check_frame e = [])
    by (apply frames_of_flagged).
  assert (Hflag : forall fuel, (8 + length X < fuel)%nat -> exists e,
    frames_from fuel (0 :: 1 :: 1 :: 1 :: 1 :: 1 :: 1 :: 0 :: X) = map sent frames ++ e /\ omap (M:=list) check_frame e = []).
  { intros fuel Hf. apply (frames_of_flagged (S g)). change (flags (S (S g))) with (FLAG ++ flags (S g)).
    rewrite <- app_assoc, length_app. fold X. change (length FLAG) with 8%nat. lia. }
  destruct (decide (j = 0%nat)) as [->|H0].
  { cbn [replicate app]. rewrite skip_zero. apply Hflag. cbn [length]. lia. }
  destruct (decide (j = 6%nat)) as [->|H6].
  - cbn [replicate app]. change (0 :: 1 :: 1 :: 1 :: 1 :: 1 :: 1 :: 0 :: 1 :: 1 :: 1 :: 1 :: 1 :: 1 :: 0 :: X)
      with (flags 1 ++ [1; 1; 1; 1; 1; 1; 0] ++ X).
    assert (E : forall fuel, frames_from (S fuel) (flags 1 ++ [1; 1; 1; 1; 1; 1; 0] ++ X) = frames_from fuel (1 :: 0 :: X)).
    { intros fuel. cbn [frames_from]. rewrite (proj2 (Nat.ltb_lt _ _)) by (rewrite !length_app; change (length (flags 1)) with 8%nat; change (length [1; 1; 1; 1; 1; 1; 0]) with 7%nat; lia).
      rewrite decide_True by done. rewrite skip_flags_all; [done|by cbn|rewrite !length_app; change (length (flags 1)) with 8%nat; lia]. }
    rewrite E. rewrite !length_app. change (length (flags 1)) with 8%nat. change (length [1; 1; 1; 1; 1; 1; 0]) with 7%nat.
    change (8 + (7 + length X))%nat with (S (S (13 + length X))). rewrite skip_one.
    assert (Ez : forall fuel, frames_from (S fuel) (0 :: X) = frames_from fuel X).
    { intros fuel. unfold X. change (flags (S g)) with (0 :: [1; 1; 1; 1; 1; 1; 0] ++ flags g). cbn [app]. by rewrite skip_zero. }
    rewrite Ez. apply HX. lia.
  - assert (E : frames_from (S (length (0 :: replicate j 1 ++ 0 :: 1 :: 1 :: 1 :: 1 :: 1 :: 1 :: 0 :: X)))
        (0 :: replicate j 1 ++ 0 :: 1 :: 1 :: 1 :: 1 :: 1 :: 1 :: 0 :: X)
      = frames_from (j + (9 + length X)) (replicate j 1 ++ 0 :: 1 :: 1 :: 1 :: 1 :: 1 :: 1 :: 0 :: X)).
    { replace (length (0 :: replicate j 1 ++ 0 :: 1 :: 1 :: 1 :: 1 :: 1 :: 1 :: 0 :: X)) with (j + (9 + length X))%nat
        by (cbn [length]; rewrite length_app, length_replicate; cbn [length]; lia).
      cbn [frames_from]. rewrite (proj2 (Nat.ltb_lt _ _)) by (cbn [length]; rewrite length_app; cbn [length]; lia).
      rewrite decide_False; [done|]. destruct j as [|[|[|[|[|[|[|[|j]]]]]]]]; by cbn || lia. }
    rewrite E, skip_ones. apply Hflag. lia.
Qed.

(** The frames decoded behind up to eight cells of the idle line. *)
Lemma find_frames_decoded idle k : a_bit idle -> Forall a_bit R -> (k <= 8)%nat ->
  exists e, find_frames (nrzi_decode (replicate k idle ++ nrzi_encode idle (stream_to frames last R))) = map sent frames ++ e
    /\ omap (M:=list) check_frame e = [].
Proof.
  intros Hidle HR Hk. unfold nrzi_decode. destruct two_flags as [g Eg].
  pose proof (stream_to_bits frames last R HR) as Hbits.
  destruct Hidle as [-> | ->].
  - destruct k as [|k].
    + assert (nrzi_from 1 (replicate 0 0 ++ nrzi_encode 0 (stream_to frames last R)) = 1 :: tail (stream_to frames last R)) as ->.
      { rewrite Eg in *. change (flags (S (S g)) ++ behind frames last R) with (0 :: [1; 1; 1; 1; 1; 1; 0] ++ flags (S g) ++ behind frames last R) in *.
        apply Forall_cons in Hbits as [_ Hbits].
        revert Hbits. generalize ([1; 1; 1; 1; 1; 1; 0] ++ flags (S g) ++ behind frames last R). intros Y HY.
        cbn [replicate app nrzi_encode nrzi_from tail]. change (if 0 =? 1 then 0 else 1 - 0) with 1.
        change (if 1 =? 1 then 1 else 0) with 1. f_equal. apply nrzi_round_trip; [exact HY | by right]. }
      rewrite Eg. change (tail (flags (S (S g)) ++ behind frames last R)) with
        (1 :: 1 :: 1 :: 1 :: 1 :: 1 :: 0 :: 0 :: [1; 1; 1; 1; 1; 1; 0] ++ flags g ++ behind frames last R).
      unfold find_frames. cbn [length]. rewrite !skip_one, skip_zero.
      apply (frames_of_flagged g). cbn [length app]. rewrite !length_app, !length_flags. cbn. lia.
    + cbn [replicate app nrzi_from]. change (if 0 =? 1 then 1 else 0) with 0.
      rewrite nrzi_from_idle, nrzi_round_trip by (done || by left). rewrite Eg. apply frames_behind_zero. lia.
  - rewrite nrzi_from_idle, nrzi_round_trip by (done || by right). rewrite Eg. unfold find_frames.
    rewrite length_app, length_replicate. rewrite <- Nat.add_succ_r, skip_ones. apply (frames_of_flagged (S g)). lia.
Qed.
End Decoding.

(** The recovered bits decode to the frames, by either way. *)
Lemma recovered frames last idle n mask sps samples use_dpll :
  Forall (fun f => (2 <= fst f)%nat /\ all_bytes (snd f)) frames -> frames <> [] -> (1 <= last)%nat ->
  a_bit idle -> (1 <= n)%nat -> 0 < mask -> (1 <= sps)%nat ->
  samples_of mask sps (line idle n (stream frames last)) samples ->
  exists db e, decode_with samples mask sps false use_dpll = Ret (db, map sent frames ++ e) /\ omap (M:=list) check_frame e = [].
Proof.
  intros Hf Hne Hlast Hidle Hn Hm Hs Hsam.
  assert (Hg : Forall (fun f : nat * bytes => (2 <= fst f)%nat) frames) by (eapply Forall_impl; [exact Hf|]; by intros f [H _]).
  assert (Hlb : Forall a_bit (line idle n (stream frames last))).
  { apply Forall_app. split; [by apply Forall_replicate|]. by apply nrzi_encode_bits. }
  unfold decode_with. destruct use_dpll.
  - rewrite stream_is_closed in *.
    assert (exists L, nrzi_encode idle (stream_to frames last []) = 1 - idle :: L) as [L EL].
    { destruct (two_flags frames last [] Hg Hne ltac:(by left)) as [g ->]. eexists. reflexivity. }
    unfold line in Hsam, Hlb. rewrite EL in Hsam, Hlb.
    rewrite (dpll_line mask sps n idle (1 - idle) L samples Hm Hs Hn Hlb ltac:(lia) Hsam). cbn [mbind outcome_bind snd].
    rewrite <- EL. destruct (find_frames_decoded frames last [] Hg Hne ltac:(by left) idle 0 Hidle ltac:(done) ltac:(lia)) as (e & He & Hc).
    eexists _, e. by rewrite <- He.
  - destruct last as [|last]; [lia|]. rewrite stream_is_open in *.
    cbn [mbind outcome_bind snd].
    rewrite (samples_to_bits_cells mask sps _ samples Hm Hs Hlb Hsam).
    assert (default 0 (head (line idle n (stream_to frames last OPEN_FLAG ++ [0]))) = idle) as -> by (destruct n; [lia|done]).
    unfold line. rewrite cell_runs_idle.
    destruct (two_flags frames last OPEN_FLAG Hg Hne ltac:(by right)) as [g Eg].
    assert (Hob : Forall a_bit (stream_to frames last OPEN_FLAG)) by (apply stream_to_bits; repeat constructor; (by left) || by right).
    pose proof (short_stream frames last ltac:(eapply Forall_impl; [exact Hg|]; cbn; lia) 8 ltac:(lia)) as Hshort.
    destruct (stream_to frames last OPEN_FLAG) as [|b bits] eqn:Es; [discriminate Eg|].
    assert (b = 0) as -> by (by injection Eg).
    apply Forall_cons in Hob as [_ Hob]. cbn [short_runs] in Hshort. change (0 =? 1) with false in Hshort. cbn match in Hshort. destruct Hshort as [_ Hshort].
    cbn [app nrzi_encode]. change (0 =? 1) with false. cbn match. cbn [cell_runs].
    assert ((1 - idle =? idle) = false) as -> by (by destruct Hidle as [-> | ->]).
    assert (Hidle' : a_bit (1 - idle)) by (destruct Hidle as [-> | ->]; [by right|by left]).
    rewrite cell_runs_ok by (done || lia).
    destruct (find_frames_decoded frames last OPEN_FLAG Hg Hne ltac:(by right) idle (Nat.min 8 n) Hidle
      ltac:(repeat constructor; (by left) || by right) ltac:(lia)) as (e & He & Hc).
    rewrite Es in He. cbn [nrzi_encode] in He. change (0 =? 1) with false in He. cbn match in He.
    eexists _, e. by rewrite <- He.
Qed.

Lemma check_sent frames : Forall (fun f => (2 <= fst f)%nat /\ all_bytes (snd f)) frames ->
  omap (M:=list) check_frame (map sent frames) = map (fun f => (snd f, crc_bytes (snd f), true)) frames.
Proof.
  induction 1 as [|f frames [_ Hb] Hf IH]; [done|]. cbn [map omap list_omap].
  unfold sent at 1. rewrite check_found; [|done|apply crc_bytes_bytes..]. by rewrite bool_decide_eq_true_2, IH.
Qed.

(** ** Properties *)


