(* ===== verification/Screen.v ===== *)
(** * Pictures on the RC702's screen: tools/bitmap2rc700.py.

    The tool turns a monochrome picture into the screen's character codes, as
    blocks of 2 by 3 ([convert_block_mode]) or by the nearest glyph of the two
    character ROMs ([convert_full_mode]), and shows the result as text
    ([screen_to_text]) or as the pixels of a preview ([render_screen_to_image]).
    Scaling the picture to size is Pillow's and numpy's; the pictures here are
    their result, pixels 0 (dark) and 1.  The charset sheet, the test pictures and
    the search for the ROM files are left out. *)

From S2P Require Import Prelude Imd Hex.
#[local] Open Scope Z_scope.

Definition SCREEN_COLS : Z := 80.
Definition SCREEN_ROWS : Z := 24.
Definition CHAR_W : Z := 7.
Definition CHAR_H : Z := 11.
Definition BLOCK_COLS : Z := 2.
Definition BLOCK_ROWS : Z := 3.
Definition BYTES_PER_CHAR : Z := 16.

(** [range(n)]. *)
Definition range (n : Z) : list Z := map Z.of_nat (seq 0 (Z.to_nat n)).
Definition range_from (a b : Z) : list Z := map (fun i => a + i) (range (b - a)).

(** A numpy array of pixels: its shape and [mono[py, px]]. *)
Record picture := Picture { rows : Z; cols : Z; pixel : Z -> Z -> Z }.

(** The dark pixels inside the picture. *)
Definition dark (mono : picture) (py px : Z) : bool :=
  (py <? rows mono) && (px <? cols mono) && (pixel mono py px =? 0).

(** ** The ROMs *)

Definition rom_char_bitmap (rom : bytes) (code : Z) : outcome (list Z) :=
  let offset := code * BYTES_PER_CHAR in
  foldr (fun row rest =>
      byte ← index rom (Z.to_nat (offset + row));
      r ← rest;
      Ret (map (fun col => Z.land (Z.shiftr byte col) 1) (range CHAR_W) ++ r))
    (Ret []) (range CHAR_H).

(** [charset], sorted by code: ROA296 from 20h, ROA327 from A0h, except C0h to
    DFh, which the last loop sets to the ROM's first glyphs. *)
Definition build_charset (rom296 rom327 : bytes) : outcome (list (Z * list Z)) :=
  foldr (fun code rest =>
      bmp ← (if code <? 128 then rom_char_bitmap rom296 code
             else if (192 <=? code) && (code <? 224) then rom_char_bitmap rom327 (code - 192)
             else rom_char_bitmap rom327 (code - 128));
      r ← rest;
      Ret ((code, bmp) :: r))
    (Ret []) (range_from 32 128 ++ range_from 160 256).

(** ** Block mode *)

Definition pattern_to_charcode (pattern : Z) : Z :=
  if pattern <? 32 then 32 + pattern else 96 + (pattern - 32).

Definition block_pattern (mono : picture) (row col : Z) : Z :=
  foldl (fun pattern sub_row =>
      foldl (fun pattern sub_col =>
          let px := col * BLOCK_COLS + sub_col in
          let py := row * BLOCK_ROWS + sub_row in
          if dark mono py px then Z.lor pattern (Z.shiftl 1 (sub_row * 2 + sub_col)) else pattern)
        pattern (range BLOCK_COLS))
    0 (range BLOCK_ROWS).

Definition block_cell (mono : picture) (row col : Z) : Z :=
  if (row =? 0) && (col =? 0) then 132 else pattern_to_charcode (block_pattern mono row col).

Definition convert_block_mode (mono : picture) : list (list Z) :=
  map (fun row => map (block_cell mono row) (range SCREEN_COLS)) (range SCREEN_ROWS).

(** ** Full mode *)

Definition cell_pixels (mono : picture) (row col : Z) : list Z :=
  concat (map (fun dy => map (fun dx =>
    if dark mono (row * CHAR_H + dy) (col * CHAR_W + dx) then 1 else 0) (range CHAR_W)) (range CHAR_H)).

(** [np.sum(np.abs(cell_flat - bmp_flat))]. *)
Definition pixel_difference (cell bmp : list Z) : Z := zsum (zip_with (fun a b => Z.abs (a - b)) cell bmp).

Fixpoint best_match (cell : list Z) (char_list : list (Z * list Z)) (best_code best_diff : Z) : Z :=
  match char_list with
  | [] => best_code
  | (code, bmp) :: char_list' =>
      let diff := pixel_difference cell bmp in
      if diff <? best_diff then
        if diff =? 0 then code else best_match cell char_list' code diff
      else best_match cell char_list' best_code best_diff
  end.

Definition convert_full_mode (mono : picture) (charset : list (Z * list Z)) : list (list Z) :=
  map (fun row => map (fun col => best_match (cell_pixels mono row col) charset 32 (CHAR_H * CHAR_W + 1))
                      (range SCREEN_COLS)) (range SCREEN_ROWS).

(** ** Showing a screen *)

Definition charcode_to_pattern (code : Z) (gpa0_active : bool) : Z :=
  if negb gpa0_active then -1
  else if (32 <=? code) && (code <=? 63) then code - 32
  else if (96 <=? code) && (code <=? 127) then code - 96 + 32
  else -1.

Definition is_attribute (code : Z) : bool := (128 <=? code) && (code <=? 191).
Definition attribute_gpa0 (code : Z) : bool := negb (Z.land code 4 =? 0).

(** The quadrant characters. *)
Definition quadrants : list Z :=
  [32; 9624; 9629; 9600; 9622; 9612; 9630; 9627; 9623; 9626; 9616; 9628; 9604; 9625; 9631; 9608].
Definition bit_of (p m : Z) : bool := negb (Z.land p m =? 0).
Definition quadrant (p : Z) : Z :=
  let upper := bit_of p 1 || bit_of p 4 in
  let upper_r := bit_of p 2 || bit_of p 8 in
  let lower := bit_of p 16 in
  let lower_r := bit_of p 32 in
  let idx := Z.lor (Z.lor (Z.lor (Z.b2z upper) (Z.shiftl (Z.b2z upper_r) 1)) (Z.shiftl (Z.b2z lower) 2)) (Z.shiftl (Z.b2z lower_r) 3) in
  List.nth (Z.to_nat idx) quadrants 0.

Definition preview_char (code : Z) (gpa0 : bool) : Z :=
  let p := charcode_to_pattern code gpa0 in
  if 0 <=? p then quadrant p
  else if (32 <=? code) && (code <=? 126) then code
  else 63.

(** A line of the preview, and whether GPA0 is set after it. *)
Fixpoint text_line (codes : list Z) (gpa0 : bool) : str * bool :=
  match codes with
  | [] => ([], gpa0)
  | code :: codes' =>
      if is_attribute code then
        let '(line, g) := text_line codes' (attribute_gpa0 code) in (32 :: line, g)
      else
        let '(line, g) := text_line codes' gpa0 in (preview_char code gpa0 :: line, g)
  end.
Fixpoint text_lines (screen : list (list Z)) (gpa0 : bool) : list str :=
  match screen with
  | [] => []
  | codes :: screen' => let '(line, g) := text_line codes gpa0 in line :: text_lines screen' g
  end.
Definition screen_to_text (screen : list (list Z)) : str := join [10] (text_lines screen false).

(** The pixels written for a character: position and whether it is lit. *)
Definition glyph_writes (rom : bytes) (code row col scale : Z) : outcome (list (Z * Z * bool)) :=
  let offset := Z.land code 127 * BYTES_PER_CHAR in
  foldr (fun dy rest =>
      byte ← index rom (Z.to_nat (offset + dy));
      r ← rest;
      Ret (concat (map (fun dx =>
             let pixel_on := negb (Z.land (Z.shiftr byte dx) 1 =? 0) in
             concat (map (fun sy => map (fun sx =>
               ((col * CHAR_W + dx) * scale + sx, (row * CHAR_H + dy) * scale + sy, pixel_on)) (range scale)) (range scale)))
           (range CHAR_W)) ++ r))
    (Ret []) (range CHAR_H).

Fixpoint line_writes (rom296 rom327 : bytes) (scale row col : Z) (codes : list Z) (gpa0 : bool)
    : outcome (list (Z * Z * bool) * bool) :=
  match codes with
  | [] => Ret ([], gpa0)
  | code :: codes' =>
      if is_attribute code then line_writes rom296 rom327 scale row (col + 1) codes' (attribute_gpa0 code)
      else
        w ← glyph_writes (if gpa0 then rom327 else rom296) code row col scale;
        r ← line_writes rom296 rom327 scale row (col + 1) codes' gpa0;
        Ret (w ++ fst r, snd r)
  end.

Fixpoint screen_writes (rom296 rom327 : bytes) (scale row : Z) (screen : list (list Z)) (gpa0 : bool)
    : outcome (list (Z * Z * bool)) :=
  match screen with
  | [] => Ret []
  | codes :: screen' =>
      r ← line_writes rom296 rom327 scale row 0 codes gpa0;
      rest ← screen_writes rom296 rom327 scale (row + 1) screen' (snd r);
      Ret (fst r ++ rest)
  end.

(** The preview: the last write to a pixel counts, others stay black. *)
Definition render_screen_to_image (screen : list (list Z)) (rom296 rom327 : bytes) (scale : Z)
    : outcome (gmap (Z * Z) bool) :=
  w ← screen_writes rom296 rom327 scale 0 screen false;
  Ret (list_to_map (rev (map (fun '(px, py, on) => ((px, py), on)) w))).


(** ** Lemmas *)

Lemma elem_of_range x n : x ∈ range n <-> 0 <= x < n.
Proof.
  unfold range. rewrite list_elem_of_In, in_map_iff. split.
  - intros (k & <- & Hk). apply in_seq in Hk. lia.
  - intros H. exists (Z.to_nat x). split; [lia | apply in_seq; lia].
Qed.

Lemma split_product n a b a' b' : 0 <= b < n -> 0 <= b' < n -> a * n + b = a' * n + b' -> a = a' /\ b = b'.
Proof. intros. assert (a = a') by nia. lia. Qed.

Lemma low_bit byte dx : 0 <= dx -> negb (Z.land (Z.shiftr byte dx) 1 =? 0) = Z.testbit byte dx.
Proof.
  intros H. change 1 with (Z.ones 1). rewrite Z.land_ones by lia. change (2 ^ 1) with 2.
  rewrite <- (Z.add_0_l dx) at 2. rewrite <- Z.shiftr_spec, <- Z.bit0_mod by lia. by destruct (Z.testbit _ 0).
Qed.

Lemma low_bit_range byte dx : 0 <= Z.land (Z.shiftr byte dx) 1 <= 1.
Proof.
  pose proof (Z.land_ones (Z.shiftr byte dx) 1 ltac:(lia)) as E. change (Z.ones 1) with 1 in E.
  change (2 ^ 1) with 2 in E. rewrite E. pose proof (Z.mod_pos_bound (Z.shiftr byte dx) 2). lia.
Qed.

(** The rows of a glyph, read one byte each. *)
Lemma rows_of_rom {B} (rom : bytes) (place : Z -> nat) (g : Z -> Z -> list B) l :
  (forall d, d ∈ l -> (place d < length rom)%nat) ->
  foldr (fun d rest => byte ← index rom (place d); r ← rest; Ret (g d byte ++ r)) (Ret []) l
    = Ret (concat (map (fun d => g d (List.nth (place d) rom 0)) l)).
Proof.
  induction l as [|d l IH]; intros H; [done|]. cbn [foldr map concat].
  destruct (lookup_lt_is_Some_2 rom (place d) (H d (list_elem_of_here _ _))) as [b Hb].
  rewrite (index_in _ _ _ Hb), IH by (intros d' ?; apply H; by right). cbn.
  by rewrite (nth_lookup_Some _ _ 0 _ Hb).
Qed.

(** *** Block mode *)

Definition bits6 (b0 b1 b2 b3 b4 b5 : bool) : Z :=
  let add (p : Z) (b : bool) i := if b then Z.lor p (Z.shiftl 1 i) else p in
  add (add (add (add (add (add 0 b0 0) b1 1) b2 2) b3 3) b4 4) b5 5.

Lemma block_pattern_bits mono row col :
  let d r c := dark mono (row * 3 + r) (col * 2 + c) in
  block_pattern mono row col = bits6 (d 0 0) (d 0 1) (d 1 0) (d 1 1) (d 2 0) (d 2 1).
Proof. reflexivity. Qed.

Lemma block_pattern_range mono row col : 0 <= block_pattern mono row col < 64.
Proof.
  rewrite block_pattern_bits.
  generalize (dark mono (row * 3 + 0) (col * 2 + 0)), (dark mono (row * 3 + 0) (col * 2 + 1)),
    (dark mono (row * 3 + 1) (col * 2 + 0)), (dark mono (row * 3 + 1) (col * 2 + 1)),
    (dark mono (row * 3 + 2) (col * 2 + 0)), (dark mono (row * 3 + 2) (col * 2 + 1)).
  intros [] [] [] [] [] []; decided.
Qed.

Lemma block_pattern_bit mono row col sub_row sub_col : 0 <= sub_row < 3 -> 0 <= sub_col < 2 ->
  Z.testbit (block_pattern mono row col) (sub_row * 2 + sub_col) = dark mono (row * 3 + sub_row) (col * 2 + sub_col).
Proof.
  intros Hr Hc. rewrite block_pattern_bits.
  assert (sub_row = 0 \/ sub_row = 1 \/ sub_row = 2) as [-> | [-> | ->]] by lia;
    assert (sub_col = 0 \/ sub_col = 1) as [-> | ->] by lia;
  generalize (dark mono (row * 3 + 0) (col * 2 + 0)), (dark mono (row * 3 + 0) (col * 2 + 1)),
    (dark mono (row * 3 + 1) (col * 2 + 0)), (dark mono (row * 3 + 1) (col * 2 + 1)),
    (dark mono (row * 3 + 2) (col * 2 + 0)), (dark mono (row * 3 + 2) (col * 2 + 1));
  intros [] [] [] [] [] []; reflexivity.
Qed.

Lemma decode_pattern p : 0 <= p < 64 ->
  charcode_to_pattern (pattern_to_charcode p) true = p /\ is_attribute (pattern_to_charcode p) = false.
Proof. intros H. unfold charcode_to_pattern, pattern_to_charcode, is_attribute. cbn [negb]. destruct (Z.ltb_spec p 32); split; repeat case_if; lia. Qed.

Lemma preview_pattern p : 0 <= p < 64 -> preview_char (pattern_to_charcode p) true = quadrant p.
Proof. intros H. unfold preview_char. destruct (decode_pattern p H) as [-> _]. by rewrite (proj2 (Z.leb_le 0 p)) by lia. Qed.

Lemma block_cell_other mono row col : (row, col) <> (0, 0) ->
  block_cell mono row col = pattern_to_charcode (block_pattern mono row col).
Proof. intros H. unfold block_cell. case_if; [|done]. exfalso. apply H. f_equal; lia. Qed.

Lemma block_text_line mono row cols : (forall col, col ∈ cols -> (row, col) <> (0, 0)) ->
  text_line (map (block_cell mono row) cols) true = (map (fun col => quadrant (block_pattern mono row col)) cols, true).
Proof.
  induction cols as [|col cols IH]; intros H; [done|]. cbn [map text_line].
  rewrite (block_cell_other mono row col) by (apply H; constructor).
  destruct (decode_pattern _ (block_pattern_range mono row col)) as [_ ->].
  rewrite IH by (intros c ?; apply H; by right). by rewrite preview_pattern by apply block_pattern_range.
Qed.

Lemma block_text_lines mono rows cols : (forall row, row ∈ rows -> row <> 0) ->
  text_lines (map (fun row => map (block_cell mono row) cols) rows) true
    = map (fun row => map (fun col => quadrant (block_pattern mono row col)) cols) rows.
Proof.
  induction rows as [|row rows IH]; intros H; [done|]. cbn [map text_lines].
  rewrite block_text_line, IH; [done | intros r ?; apply H; by right |].
  intros col _ [= E _]. by apply (H row); [constructor|].
Qed.

Definition block_preview (mono : picture) (row col : Z) : Z :=
  if (row =? 0) && (col =? 0) then 32 else quadrant (block_pattern mono row col).

Lemma block_preview_lines mono :
  text_lines (convert_block_mode mono) false = map (fun row => map (block_preview mono row) (range SCREEN_COLS)) (range SCREEN_ROWS).
Proof.
  unfold convert_block_mode.
  change (range SCREEN_ROWS) with (0 :: tail (range SCREEN_ROWS)).
  set (rs := tail (range SCREEN_ROWS)). set (cs := tail (range SCREEN_COLS)).
  assert (Hr : forall row, row ∈ rs -> row <> 0).
  { assert (F : Forall (fun r => r <> 0) rs) by decided. exact (proj1 (Forall_forall _ _) F). }
  assert (Hc : forall col, col ∈ cs -> col <> 0).
  { assert (F : Forall (fun r => r <> 0) cs) by decided. exact (proj1 (Forall_forall _ _) F). }
  cbn [map text_lines].
  assert (E : text_line (map (block_cell mono 0) (range SCREEN_COLS)) false = (map (block_preview mono 0) (range SCREEN_COLS), true)).
  { change (range SCREEN_COLS) with (0 :: cs). cbn [map text_line]. change (block_cell mono 0 0) with 132.
    change (is_attribute 132) with true. change (attribute_gpa0 132) with true. cbn match.
    rewrite block_text_line by (intros col H [= ?]; by apply (Hc col H)).
    apply (f_equal (fun l => (32 :: l, true))). apply map_ext_in. intros col H. unfold block_preview.
    rewrite (proj2 (Z.eqb_neq col 0)); [by rewrite andb_false_r | apply Hc; by apply list_elem_of_In]. }
  rewrite E. rewrite block_text_lines by done. apply (f_equal (cons _)). apply map_ext_in. intros row H. apply map_ext. intros col. unfold block_preview.
  by rewrite (proj2 (Z.eqb_neq row 0)) by (apply Hr; by apply list_elem_of_In).
Qed.

(** *** Full mode *)

Lemma pixel_difference_nonneg cell bmp : 0 <= pixel_difference cell bmp.
Proof.
  unfold pixel_difference. revert bmp. induction cell as [|a cell IH]; intros [|b bmp]; cbn [zip_with]; try done.
  rewrite zsum_cons. specialize (IH bmp). lia.
Qed.

Definition bits (l : list Z) : Prop := Forall (fun b => 0 <= b <= 1) l.

Lemma pixel_difference_le cell bmp : bits cell -> bits bmp -> pixel_difference cell bmp <= Z.of_nat (length cell).
Proof.
  unfold pixel_difference. intros H. revert bmp. induction H as [|a cell Ha _ IH]; intros bmp Hb; [done|].
  destruct Hb as [|b bmp Hb Hbs]; cbn [zip_with length]; [change (zsum []) with 0; lia|]. rewrite zsum_cons. specialize (IH bmp Hbs). lia.
Qed.

(** The answer is the start's unless something is nearer, and else the first of the nearest. *)
Lemma best_match_nearest cell l bc bd :
  (best_match cell l bc bd = bc /\ Forall (fun e => bd <= pixel_difference cell (snd e)) l) \/
  (exists l1 bmp l2, l = l1 ++ (best_match cell l bc bd, bmp) :: l2 /\ pixel_difference cell bmp < bd /\
     Forall (fun e => pixel_difference cell bmp < pixel_difference cell (snd e)) l1 /\
     Forall (fun e => pixel_difference cell bmp <= pixel_difference cell (snd e)) l2).
Proof.
  revert bc bd. induction l as [|[code bmp] l IH]; intros bc bd; [by left|]. cbn [best_match].
  destruct (Z.ltb_spec (pixel_difference cell bmp) bd) as [Hlt|Hge].
  - right. destruct (Z.eqb_spec (pixel_difference cell bmp) 0) as [H0|H0].
    + exists [], bmp, l. rewrite H0 in *. repeat split; try done.
      apply Forall_forall. intros e _. apply pixel_difference_nonneg.
    + destruct (IH code (pixel_difference cell bmp)) as [[-> Hall]|(l1 & b & l2 & E & Hb & H1 & H2)].
      * exists [], bmp, l. done.
      * exists ((code, bmp) :: l1), b, l2. rewrite E at 1. repeat split; try done; [lia|]. by constructor.
  - destruct (IH bc bd) as [[-> Hall]|(l1 & b & l2 & E & Hb & H1 & H2)].
    + left. split; [done|]. by constructor.
    + right. exists ((code, bmp) :: l1), b, l2. rewrite E at 1. repeat split; try done.
      constructor; [|done]. cbn. lia.
Qed.

Definition glyph (rom : bytes) (code : Z) : list Z :=
  concat (map (fun row => map (fun col => Z.land (Z.shiftr (List.nth (Z.to_nat (code * BYTES_PER_CHAR + row)) rom 0) col) 1)
                              (range CHAR_W)) (range CHAR_H)).

Lemma rom_char_bitmap_glyph rom code : 2048 <= Z.of_nat (length rom) -> 0 <= code < 128 ->
  rom_char_bitmap rom code = Ret (glyph rom code).
Proof.
  intros Hl Hc. unfold rom_char_bitmap, glyph.
  apply (rows_of_rom rom (fun row => Z.to_nat (code * BYTES_PER_CHAR + row))
    (fun _ byte => map (fun col => Z.land (Z.shiftr byte col) 1) (range CHAR_W))).
  intros d Hd%elem_of_range. unfold CHAR_H, BYTES_PER_CHAR in *. lia.
Qed.

Lemma glyph_bits rom code : bits (glyph rom code).
Proof.
  unfold glyph, bits. apply Forall_concat, Forall_forall. intros l (r & -> & _)%list_elem_of_fmap.
  apply Forall_forall. intros b (c & -> & _)%list_elem_of_fmap. apply low_bit_range.
Qed.

Lemma length_cell_pixels mono row col : length (cell_pixels mono row col) = 77%nat.
Proof. reflexivity. Qed.

Lemma cell_pixels_bits mono row col : bits (cell_pixels mono row col).
Proof.
  unfold cell_pixels, bits. apply Forall_concat, Forall_forall. intros l (r & -> & _)%list_elem_of_fmap.
  apply Forall_forall. intros b (c & -> & _)%list_elem_of_fmap. case_if; lia.
Qed.

(** The screen codes and the glyphs they are matched with. *)
Definition code_glyph (rom296 rom327 : bytes) (code : Z) : list Z :=
  if code <? 128 then glyph rom296 code
  else if (192 <=? code) && (code <? 224) then glyph rom327 (code - 192)
  else glyph rom327 (code - 128).
Definition screen_codes : list Z := range_from 32 128 ++ range_from 160 256.

Lemma build_charset_glyphs rom296 rom327 :
  2048 <= Z.of_nat (length rom296) -> 2048 <= Z.of_nat (length rom327) ->
  build_charset rom296 rom327 = Ret (map (fun code => (code, code_glyph rom296 rom327 code)) screen_codes).
Proof.
  intros H1 H2. unfold build_charset. fold screen_codes.
  assert (F : Forall (fun code => 32 <= code < 128 \/ 160 <= code < 256) screen_codes) by decided.
  induction F as [|code codes Hc _ IH]; [done|]. cbn [foldr map]. rewrite IH. unfold code_glyph.
  destruct (Z.ltb_spec code 128); [by rewrite rom_char_bitmap_glyph by lia|].
  destruct ((192 <=? code) && (code <? 224)) eqn:?; by rewrite rom_char_bitmap_glyph by lia.
Qed.

Lemma full_mode_nearest mono rom296 rom327 row col :
  let charset := map (fun code => (code, code_glyph rom296 rom327 code)) screen_codes in
  let cell := cell_pixels mono row col in
  let code := best_match cell charset 32 (CHAR_H * CHAR_W + 1) in
  code ∈ screen_codes /\
  (forall code', code' ∈ screen_codes ->
     pixel_difference cell (code_glyph rom296 rom327 code) <= pixel_difference cell (code_glyph rom296 rom327 code')).
Proof.
  intros charset cell code.
  destruct (best_match_nearest cell charset 32 (CHAR_H * CHAR_W + 1)) as [[_ Hall]|(l1 & bmp & l2 & E & Hb & H1 & H2)].
  - exfalso. assert (Hin : (32, code_glyph rom296 rom327 32) ∈ charset) by (apply list_elem_of_here).
    apply (proj1 (Forall_forall _ _) Hall) in Hin. cbn [snd] in Hin.
    pose proof (pixel_difference_le cell (glyph rom296 32) (cell_pixels_bits mono row col) (glyph_bits rom296 32)) as Hle.
    change (length cell) with 77%nat in Hle. change (code_glyph rom296 rom327 32) with (glyph rom296 32) in Hin.
    unfold CHAR_H, CHAR_W in Hin. lia.
  - fold code in E. assert (Hin : (code, bmp) ∈ charset) by (rewrite E; apply elem_of_app; right; constructor).
    apply list_elem_of_fmap in Hin as (k & [= -> ->] & Hk). split; [done|].
    intros code' H'. assert (Hin' : (code', code_glyph rom296 rom327 code') ∈ charset)
      by (apply list_elem_of_fmap; by exists code').
    rewrite E, elem_of_app, elem_of_cons in Hin'. destruct Hin' as [Hin' | [[= E1 E2] | Hin']].
    + apply (proj1 (Forall_forall _ _) H1) in Hin'. cbn [snd] in Hin'. lia.
    + by rewrite E2.
    + by apply (proj1 (Forall_forall _ _) H2) in Hin'.
Qed.

(** *** The preview *)

(** GPA0 before each position of a line, and after it. *)
Definition next_gpa0 (g : bool) (code : Z) : bool := if is_attribute code then attribute_gpa0 code else g.
Fixpoint gpa0_states (codes : list Z) (g : bool) : list bool :=
  match codes with [] => [] | code :: codes' => g :: gpa0_states codes' (next_gpa0 g code) end.

Definition rom_bit (rom : bytes) (code dy dx : Z) : bool :=
  Z.testbit (List.nth (Z.to_nat (Z.land code 127 * BYTES_PER_CHAR + dy)) rom 0) dx.

Definition lit (rom296 rom327 : bytes) (g : bool) : Z -> Z -> Z -> bool := rom_bit (if g then rom327 else rom296).

(** The pixel [sx], [sy] of the glyph's [dx], [dy], at [row] and [col]. *)
Definition place (scale row col dy dx sy sx : Z) : Z * Z :=
  ((col * CHAR_W + dx) * scale + sx, (row * CHAR_H + dy) * scale + sy).

Definition in_glyph (scale dy dx sy sx : Z) : Prop :=
  0 <= dy < CHAR_H /\ 0 <= dx < CHAR_W /\ 0 <= sy < scale /\ 0 <= sx < scale.

Lemma place_inj scale row col dy dx sy sx row' col' dy' dx' sy' sx' :
  in_glyph scale dy dx sy sx -> in_glyph scale dy' dx' sy' sx' ->
  place scale row col dy dx sy sx = place scale row' col' dy' dx' sy' sx' ->
  row = row' /\ col = col' /\ dy = dy' /\ dx = dx'.
Proof.
  unfold in_glyph, place, CHAR_H, CHAR_W. intros (? & ? & ? & ?) (? & ? & ? & ?) [= Hx Hy].
  apply split_product in Hx as [Hx _]; [|done..]. apply split_product in Hy as [Hy _]; [|done..].
  apply split_product in Hx as [-> ->]; [|done..]. by apply split_product in Hy as [-> ->].
Qed.

Lemma glyph_writes_spec rom code row col scale : 2048 <= Z.of_nat (length rom) ->
  exists w, glyph_writes rom code row col scale = Ret w /\
  forall p on, (p, on) ∈ w <-> exists dy dx sy sx, in_glyph scale dy dx sy sx /\
    p = place scale row col dy dx sy sx /\ on = rom_bit rom code dy dx.
Proof.
  intros Hl. unfold glyph_writes.
  rewrite (rows_of_rom rom (fun dy => Z.to_nat (Z.land code 127 * BYTES_PER_CHAR + dy))
    (fun dy byte => concat (map (fun dx => let pixel_on := negb (Z.land (Z.shiftr byte dx) 1 =? 0) in
       concat (map (fun sy => map (fun sx => ((col * CHAR_W + dx) * scale + sx, (row * CHAR_H + dy) * scale + sy, pixel_on))
         (range scale)) (range scale))) (range CHAR_W)))).
  2: { intros d Hd%elem_of_range. pose proof (land127_range code). unfold CHAR_H, BYTES_PER_CHAR in *. lia. }
  eexists. split; [done|]. intros p on. unfold in_glyph, place, rom_bit. rewrite list_elem_of_In, in_concat. split.
  - intros (l & Hl1 & H1). apply in_map_iff in Hl1 as (dy & <- & Hdy).
    apply in_concat in H1 as (l & Hl2 & H2). apply in_map_iff in Hl2 as (dx & <- & Hdx). cbv zeta in H2.
    apply in_concat in H2 as (l & Hl3 & H3). apply in_map_iff in Hl3 as (sy & <- & Hsy).
    apply in_map_iff in H3 as (sx & [= <- <-] & Hsx).
    apply list_elem_of_In, elem_of_range in Hdy, Hdx, Hsy, Hsx.
    exists dy, dx, sy, sx. rewrite low_bit by lia. done.
  - intros (dy & dx & sy & sx & (Hdy & Hdx & Hsy & Hsx) & -> & ->).
    rewrite <- elem_of_range, list_elem_of_In in Hdy, Hdx, Hsy, Hsx.
    eexists. split; [apply in_map_iff; exists dy; split; [reflexivity | done]|].
    apply in_concat. eexists. split; [apply in_map_iff; exists dx; split; [reflexivity | done]|]. cbv zeta.
    apply in_concat. eexists. split; [apply in_map_iff; exists sy; split; [reflexivity | done]|].
    apply in_map_iff. exists sx. split; [|done].
    rewrite low_bit; [done|]. apply list_elem_of_In, elem_of_range in Hdx. lia.
Qed.

Section preview.
Context (rom296 rom327 : bytes) (scale : Z).
Context (H296 : 2048 <= Z.of_nat (length rom296)) (H327 : 2048 <= Z.of_nat (length rom327)).

Lemma line_writes_spec row codes : forall col g,
  exists w, line_writes rom296 rom327 scale row col codes g = Ret (w, foldl next_gpa0 g codes) /\
  forall p on, (p, on) ∈ w <-> exists i code g' dy dx sy sx,
    codes !! i = Some code /\ gpa0_states codes g !! i = Some g' /\ is_attribute code = false /\
    in_glyph scale dy dx sy sx /\ p = place scale row (col + Z.of_nat i) dy dx sy sx /\ on = lit rom296 rom327 g' code dy dx.
Proof.
  induction codes as [|code codes IH]; intros col g.
  { exists []. split; [done|]. intros p on. split; [by intros ?%elem_of_nil | by intros (i & ? & ? & ? & ? & ? & ? & ? & _)]. }
  cbn [line_writes foldl]. destruct (is_attribute code) eqn:Ha.
  - assert (En : next_gpa0 g code = attribute_gpa0 code) by (unfold next_gpa0; by rewrite Ha).
    destruct (IH (col + 1) (attribute_gpa0 code)) as (w & -> & Hw). exists w.
    split; [by rewrite En|]. intros p on. rewrite Hw. cbn [gpa0_states]. rewrite En. split.
    + intros (i & c & g' & dy & dx & sy & sx & H1 & H2 & H3 & H4 & -> & ->).
      exists (S i), c, g', dy, dx, sy, sx. replace (col + Z.of_nat (S i)) with (col + 1 + Z.of_nat i) by lia. done.
    + intros ([|i] & c & g' & dy & dx & sy & sx & H1 & H2 & H3 & H4 & -> & ->); cbn in H1, H2; [congruence|].
      exists i, c, g', dy, dx, sy, sx. replace (col + Z.of_nat (S i)) with (col + 1 + Z.of_nat i) by lia. done.
  - assert (En : next_gpa0 g code = g) by (unfold next_gpa0; by rewrite Ha).
    destruct (IH (col + 1) g) as (w & E & Hw).
    destruct (glyph_writes_spec (if g then rom327 else rom296) code row col scale) as (w0 & E0 & Hw0); [by destruct g|].
    rewrite E0. cbn [mbind outcome_bind]. rewrite E. cbn [fst snd mbind outcome_bind].
    exists (w0 ++ w). split; [by rewrite En|].
    intros p on. rewrite elem_of_app, Hw0, Hw. cbn [gpa0_states]. rewrite En. split.
    + intros [(dy & dx & sy & sx & H1 & -> & ->) | (i & c & g' & dy & dx & sy & sx & H1 & H2 & H3 & H4 & -> & ->)].
      * exists 0%nat, code, g, dy, dx, sy, sx. by rewrite Z.add_0_r.
      * exists (S i), c, g', dy, dx, sy, sx. replace (col + Z.of_nat (S i)) with (col + 1 + Z.of_nat i) by lia. done.
    + intros ([|i] & c & g' & dy & dx & sy & sx & H1 & H2 & H3 & H4 & -> & ->); cbn in H1, H2.
      * left. injection H1 as ->. injection H2 as ->. exists dy, dx, sy, sx. rewrite Z.add_0_r. done.
      * right. exists i, c, g', dy, dx, sy, sx. replace (col + Z.of_nat (S i)) with (col + 1 + Z.of_nat i) by lia. done.
Qed.

(** GPA0 before each position of a screen. *)
Fixpoint screen_states (screen : list (list Z)) (g : bool) : list (list bool) :=
  match screen with [] => [] | codes :: screen' => gpa0_states codes g :: screen_states screen' (foldl next_gpa0 g codes) end.

(** The code at a position, with GPA0 there. *)
Definition shown_at (screen : list (list Z)) (g : bool) (r c : nat) (code : Z) (g' : bool) : Prop :=
  (exists codes, screen !! r = Some codes /\ codes !! c = Some code) /\
  (exists states, screen_states screen g !! r = Some states /\ states !! c = Some g').

Lemma screen_writes_spec screen : forall row g,
  exists w, screen_writes rom296 rom327 scale row screen g = Ret w /\
  forall p on, (p, on) ∈ w <-> exists r c code g' dy dx sy sx,
    shown_at screen g r c code g' /\ is_attribute code = false /\ in_glyph scale dy dx sy sx /\
    p = place scale (row + Z.of_nat r) (Z.of_nat c) dy dx sy sx /\ on = lit rom296 rom327 g' code dy dx.
Proof.
  unfold shown_at. induction screen as [|codes screen IH]; intros row g.
  { exists []. split; [done|]. intros p on. split; [by intros ?%elem_of_nil | by intros (r & ? & ? & ? & ? & ? & ? & ? & [[? [? _]] _] & _)]. }
  cbn [screen_writes]. destruct (line_writes_spec row codes 0 g) as (w1 & -> & H1). cbn [mbind outcome_bind fst snd].
  destruct (IH (row + 1) (foldl next_gpa0 g codes)) as (w2 & -> & H2). cbn [mbind outcome_bind].
  exists (w1 ++ w2). split; [done|]. intros p on. rewrite elem_of_app, H1, H2. split.
  - intros [(i & c & g' & dy & dx & sy & sx & ? & ? & ? & ? & -> & ->) |
            (r & c & code & g' & dy & dx & sy & sx & [(cs & ? & ?) (st & ? & ?)] & ? & ? & -> & ->)].
    + exists 0%nat, i, c, g', dy, dx, sy, sx. rewrite Z.add_0_r. split; [by split; eexists|]. done.
    + exists (S r), c, code, g', dy, dx, sy, sx. replace (row + Z.of_nat (S r)) with (row + 1 + Z.of_nat r) by lia.
      split; [by split; eexists|]. done.
  - intros ([|r] & c & code & g' & dy & dx & sy & sx & [(cs & Hcs & ?) (st & Hst & ?)] & ? & ? & -> & ->); cbn in Hcs, Hst.
    + left. injection Hcs as <-. injection Hst as <-. exists c, code, g', dy, dx, sy, sx. rewrite Z.add_0_r. done.
    + right. exists r, c, code, g', dy, dx, sy, sx. replace (row + Z.of_nat (S r)) with (row + 1 + Z.of_nat r) by lia.
      split; [by split; eexists|]. done.
Qed.

(** Every pixel of a shown character is its glyph's; nothing else is drawn. *)
Lemma preview_pixels screen : exists img, render_screen_to_image screen rom296 rom327 scale = Ret img /\
  forall p on, img !! p = Some on <-> exists r c code g dy dx sy sx,
    shown_at screen false r c code g /\ is_attribute code = false /\ in_glyph scale dy dx sy sx /\
    p = place scale (Z.of_nat r) (Z.of_nat c) dy dx sy sx /\ on = lit rom296 rom327 g code dy dx.
Proof.
  unfold render_screen_to_image. destruct (screen_writes_spec screen 0 false) as (w & -> & Hw). cbn [mbind outcome_bind].
  eexists. split; [done|]. intros p on.
  assert (Em : map (fun '(px, py, on0) => ((px, py), on0)) w = w).
  { rewrite <- (map_id w) at 2. apply map_ext. by intros [[? ?] ?]. }
  rewrite Em.
  assert (Huniq : forall on', (p, on) ∈ rev w -> (p, on') ∈ rev w -> on = on').
  { intros on'. rewrite !list_elem_of_In, <- !in_rev, <- !list_elem_of_In, !Hw.
    intros (r & c & code & g & dy & dx & sy & sx & [(cs & ? & ?) (st & ? & ?)] & _ & Hin & -> & ->)
           (r' & c' & code' & g' & dy' & dx' & sy' & sx' & [(cs' & ? & ?) (st' & ? & ?)] & _ & Hin' & Hp & ->).
    apply place_inj in Hp as (Er & Ec & -> & ->); [|done..].
    assert (r = r') as <- by lia. assert (c = c') as <- by lia. congruence. }
  transitivity ((p, on) ∈ rev w).
  - split; [apply elem_of_list_to_map_2|]. intros Hin. apply elem_of_list_to_map_1'; [|done]. intros on' H'. by apply Huniq.
  - rewrite list_elem_of_In, <- in_rev, <- list_elem_of_In, Hw. done.
Qed.
End preview.

(** *** Block mode's preview *)

Lemma pattern_code_not_attribute mono row col : (row, col) <> (0, 0) -> is_attribute (block_cell mono row col) = false.
Proof. intros H. rewrite block_cell_other by done. apply decode_pattern, block_pattern_range. Qed.

Lemma gpa0_kept codes i : (forall code, code ∈ codes -> is_attribute code = false) -> (i < length codes)%nat ->
  gpa0_states codes true !! i = Some true /\ foldl next_gpa0 true codes = true.
Proof.
  revert i. induction codes as [|code codes IH]; intros i H Hi; [cbn in Hi; lia|].
  assert (En : next_gpa0 true code = true) by (unfold next_gpa0; by rewrite H by constructor).
  cbn [gpa0_states foldl]. rewrite En. destruct codes as [|c codes]; cbn [length] in Hi.
  - destruct i; [done | lia].
  - destruct i as [|i]; [destruct (IH 0%nat) as [_ ->]; [intros ? ?; apply H; by right | cbn; lia | done]|].
    apply IH; [intros ? ?; apply H; by right | cbn; lia].
Qed.

Lemma block_states mono rows cols i : (forall row, row ∈ rows -> row <> 0) -> (0 < length cols)%nat -> (i < length rows)%nat ->
  exists st, screen_states (map (fun row => map (block_cell mono row) cols) rows) true !! i = Some st /\
    forall j, (j < length cols)%nat -> st !! j = Some true.
Proof.
  intros Hr Hc. revert i. induction rows as [|row rows IH]; intros i Hi; [cbn in Hi; lia|].
  cbn [map screen_states].
  assert (Ha : forall code, code ∈ map (block_cell mono row) cols -> is_attribute code = false).
  { intros code (col & -> & _)%list_elem_of_fmap. apply pattern_code_not_attribute. intros [= E _]. apply (Hr row); [constructor | done]. }
  destruct i as [|i].
  - eexists. split; [reflexivity|]. intros j Hj. apply gpa0_kept; [done|]. by rewrite length_map.
  - assert (Hg : foldl next_gpa0 true (map (block_cell mono row) cols) = true).
    { apply (gpa0_kept _ 0%nat); [done|]. by rewrite length_map. }
    rewrite Hg. apply IH; [intros r ?; apply Hr; by right | cbn in Hi; lia].
Qed.

Lemma range_lookup n i : 0 <= i < n -> range n !! Z.to_nat i = Some i.
Proof.
  intros H. unfold range. rewrite <- (Z2Nat.id i) at 2 by lia.
  change (map Z.of_nat) with (fmap (M := list) Z.of_nat). rewrite list_lookup_fmap, lookup_seq_lt by lia. cbn. done.
Qed.

Lemma block_shown mono row col : 0 <= row < 24 -> 0 <= col < 80 -> (row, col) <> (0, 0) ->
  shown_at (convert_block_mode mono) false (Z.to_nat row) (Z.to_nat col) (block_cell mono row col) true.
Proof.
  intros Hrow Hcol Hne. split.
  { exists (map (block_cell mono row) (range SCREEN_COLS)). unfold convert_block_mode.
    change @map with (fun A B => fmap (M := list) (A := A) (B := B)). cbv beta.
    rewrite !list_lookup_fmap, !range_lookup; done. }
  unfold convert_block_mode.
  assert (Er : range SCREEN_ROWS = 0 :: range_from 1 24) by done.
  assert (Ec : range SCREEN_COLS = 0 :: range_from 1 80) by done.
  assert (Nz : forall n x, x ∈ range_from 1 n -> x <> 0).
  { intros n x (k & -> & Hk%elem_of_range)%list_elem_of_fmap. lia. }
  assert (Ha : forall code, code ∈ map (block_cell mono 0) (range_from 1 80) -> is_attribute code = false).
  { intros code (c & -> & Hc)%list_elem_of_fmap. apply pattern_code_not_attribute. intros [= E]. by apply (Nz 80 c). }
  rewrite Er. cbn [map screen_states].
  assert (El : map (block_cell mono 0) (range SCREEN_COLS) = 132 :: map (block_cell mono 0) (range_from 1 80)) by (by rewrite Ec).
  rewrite El. cbn [gpa0_states foldl]. change (next_gpa0 false 132) with true.
  destruct (gpa0_kept _ 0%nat Ha ltac:(decided)) as [_ ->].
  destruct (decide (row = 0)) as [->|Hr].
  - eexists. split; [reflexivity|]. destruct (Z.to_nat col) as [|j] eqn:Ej; [exfalso; apply Hne; f_equal; lia|]. cbn [lookup list_lookup].
    apply gpa0_kept; [done|]. rewrite length_map. change (length (range_from 1 80)) with 79%nat. lia.
  - destruct (block_states mono (range_from 1 24) (range SCREEN_COLS) (Z.to_nat row - 1)) as (st & Hst & Hall);
      [apply Nz | decided | change (length (range_from 1 24)) with 23%nat; lia|].
    exists st. split; [|apply Hall; change (length (range SCREEN_COLS)) with 80%nat; lia].
    replace (Z.to_nat row) with (S (Z.to_nat row - 1)) by lia. done.
Qed.

(** ** The property *)

(** C19: pictures on the screen say what the picture says.  In block mode every
    cell but the first, which the attribute 84h takes, decodes to a pattern of six
    bits, each set exactly when its pixel is dark; the text preview shows every
    pattern's quadrants; and the pixels of the preview image are, for any ROMs of
    2048 bytes, those of the second ROM's glyphs for the cells.  In full mode every
    cell holds one of the 192 screen codes, whose glyph differs from the picture in
    no more pixels than any other's; but the preview takes the codes A0h to BFh for
    attributes and draws the codes from C0h, while GPA0 is off, from the first
    ROM, where the match was made with the second's. *)
Theorem pictures_are_shown mono rom296 rom327 scale
    (H296 : 2048 <= Z.of_nat (length rom296)) (H327 : 2048 <= Z.of_nat (length rom327)) :
  (forall row col sub_row sub_col, (row, col) <> (0, 0) -> 0 <= sub_row < 3 -> 0 <= sub_col < 2 ->
     let p := charcode_to_pattern (block_cell mono row col) true in
     0 <= p < 64 /\ Z.testbit p (sub_row * 2 + sub_col) = dark mono (row * 3 + sub_row) (col * 2 + sub_col)) /\
  text_lines (convert_block_mode mono) false
    = map (fun row => map (fun col => if (row =? 0) && (col =? 0) then 32
        else quadrant (charcode_to_pattern (block_cell mono row col) true)) (range SCREEN_COLS)) (range SCREEN_ROWS) /\
  (exists img, render_screen_to_image (convert_block_mode mono) rom296 rom327 scale = Ret img /\
     forall row col dy dx sy sx, 0 <= row < 24 -> 0 <= col < 80 -> (row, col) <> (0, 0) ->
       0 <= dy < 11 -> 0 <= dx < 7 -> 0 <= sy < scale -> 0 <= sx < scale ->
       img !! ((col * 7 + dx) * scale + sx, (row * 11 + dy) * scale + sy)
         = Some (rom_bit rom327 (block_cell mono row col) dy dx)) /\
  (exists charset, build_charset rom296 rom327 = Ret charset /\ map fst charset = screen_codes /\
     forall row col, exists bmp, (best_match (cell_pixels mono row col) charset 32 (CHAR_H * CHAR_W + 1), bmp) ∈ charset /\
       forall code' bmp', (code', bmp') ∈ charset ->
         pixel_difference (cell_pixels mono row col) bmp <= pixel_difference (cell_pixels mono row col) bmp') /\
  (forall code g codes, 160 <= code < 192 ->
     line_writes rom296 rom327 scale 0 0 (code :: codes) g = line_writes rom296 rom327 scale 0 1 codes (attribute_gpa0 code)) /\
  (forall code, 192 <= code < 256 ->
     line_writes rom296 rom327 scale 0 0 [code] false = line_writes rom296 rom327 scale 0 0 [code - 128] false).
Proof.
  split; [|split; [|split; [|split; [|split]]]].
  - intros row col sub_row sub_col Hne Hr Hc p. subst p. rewrite block_cell_other by done.
    destruct (decode_pattern _ (block_pattern_range mono row col)) as [-> _].
    split; [apply block_pattern_range | by apply block_pattern_bit].
  - rewrite block_preview_lines. apply map_ext. intros row. apply map_ext. intros col. unfold block_preview.
    destruct ((row =? 0) && (col =? 0)) eqn:E; [done|]. rewrite block_cell_other by (intros [= -> ->]; done).
    by destruct (decode_pattern _ (block_pattern_range mono row col)) as [-> _].
  - destruct (preview_pixels rom296 rom327 scale H296 H327 (convert_block_mode mono)) as (img & Himg & Hp).
    exists img. split; [done|]. intros row col dy dx sy sx Hrow Hcol Hne Hdy Hdx Hsy Hsx. apply Hp.
    exists (Z.to_nat row), (Z.to_nat col), (block_cell mono row col), true, dy, dx, sy, sx.
    split; [by apply block_shown|]. split; [by apply pattern_code_not_attribute|].
    rewrite !Z2Nat.id by lia. done.
  - eexists. split; [by apply build_charset_glyphs|]. split; [rewrite map_map; apply map_id|].
    intros row col. destruct (full_mode_nearest mono rom296 rom327 row col) as [Hin Hmin].
    eexists. split; [apply list_elem_of_fmap; eexists; split; [reflexivity | exact Hin]|].
    intros code' bmp' (k & [= -> ->] & Hk)%list_elem_of_fmap. by apply Hmin.
  - intros code g codes H. cbn [line_writes]. unfold is_attribute at 1.
    rewrite (proj2 (Z.leb_le 128 code)), (proj2 (Z.leb_le code 191)) by lia. done.
  - intros code H. cbn [line_writes]. unfold is_attribute.
    rewrite (proj2 (Z.leb_gt code 191)), (proj2 (Z.leb_gt 128 (code - 128))) by lia.
    rewrite andb_false_r. cbn [andb]. unfold glyph_writes.
    assert (E : Z.land (code - 128) 127 = Z.land code 127).
    { change 127 with (Z.ones 7). rewrite !Z.land_ones by lia. change (2 ^ 7) with 128.
      Z.div_mod_to_equations; lia. }
    by rewrite E.
Qed.

Definition sample_rom : bytes := concat (repeat [1; 2; 4; 8; 16; 32; 64; 127; 1; 0; 85; 0; 0; 0; 0; 0] 128).
Lemma pictures_are_shown_witness :
  let mono := Picture 3 4 (fun py px => (py + px) mod 2) in
  charcode_to_pattern (block_cell mono 0 1) true = 25 /\
  Z.testbit (charcode_to_pattern (block_cell mono 0 1) true) 3 = dark mono 1 3.
Proof.
  intros mono.
  pose proof (pictures_are_shown mono sample_rom sample_rom 2 ltac:(decided) ltac:(decided)) as (H & _).
  specialize (H 0 1 1 1 ltac:(decided) ltac:(decided) ltac:(decided)). destruct H as [_ H].
  split; [vm_compute; reflexivity | exact H].
Defined.
