(* ===== verification/Labels.v ===== *)
(** * Renaming the labels of the 58K BIOS: rcbios/src-58k/rename_labels.py.

    The disassembler's labels are replaced by names in one pass over the source,
    by a regular expression for whole words, outside the parts between single
    quotes ([simultaneous_replace]).  The names for release 1.4 are those of
    release 1.3, with the addresses in the labels shifted
    ([build_rel14_renames]).  Texts are ASCII, where [\b] separates letters, digits
    and underscores from the rest. *)

From S2P Require Import Prelude Imd Hex Text.
#[local] Open Scope Z_scope.

(** ** Dictionaries, in order of insertion *)

Abbreviation dict := (list (str * str)).

Fixpoint dict_get (d : dict) (k : str) : option str :=
  match d with
  | [] => None
  | (k', v) :: d' => if decide (k = k') then Some v else dict_get d' k
  end.

(** [d[k] = v]: a key keeps its place. *)
Fixpoint dict_set (d : dict) (k v : str) : dict :=
  match d with
  | [] => [(k, v)]
  | (k', v') :: d' => if decide (k = k') then (k, v) :: d' else (k', v') :: dict_set d' k v
  end.
Definition dict_update (d d' : dict) : dict := foldl (fun d kv => dict_set d (fst kv) (snd kv)) d d'.

Definition names (l : list (string * string)) : dict := map (fun p => (chars (fst p), chars (snd p))) l.

Definition REL13_RENAMES : dict := names
  [
   ("SECTRAN", "XREAD"); ("READ", "XWRITE"); ("WRITE", "STLIST"); ("LISTST", "SECTRA");
   ("EXIT", "LINSEL"); ("CLOCK", "EXIT"); ("INTFN5", "CLOCK"); ("LINSEL", "RDSTAT");
   ("READS", "WFITR"); ("le0a4h", "INITIO"); ("le12eh", "INITFDC"); ("le139h", "INITLP");
   ("le13ah", "INITWT"); ("le203h", "WBOTE"); ("le234h", "WR5A"); ("le235h", "WR5B");
   ("le237h", "FD0"); ("le289h", "PRMSG"); ("le296h", "BOTERR"); ("le29ch", "BOPLP");
   ("le2b8h", "CLOCK1"); ("le2e9h", "LINSEL_2"); ("sub_e2f1h", "SETSIG"); ("le325h", "BOOT1");
   ("le353h", "RDSEC"); ("le39bh", "GOCPM"); ("le39fh", "PRTFLG"); ("le3a0h", "RDRFLG");
   ("le3a1h", "PTPFLG"); ("le3a2h", "CHARA"); ("le3a3h", "CHARB"); ("le3a4h", "RR0_A");
   ("le3a5h", "RR1_A"); ("le3a6h", "RR0_B"); ("le3a7h", "RR1_B"); ("sub_e3d1h", "READI");
   ("le424h", "TXB"); ("sub_e44ah", "SPECB"); ("sub_e46ah", "EXTSTA"); ("sub_e487h", "SPECA");
   ("le499h", "KEYFLG"); ("le49ah", "PARFLG"); ("le4b6h", "KEYIT"); ("le4cah", "GRAPH");
   ("le4cbh", "LINTEM"); ("sub_e4cdh", "CPLHL"); ("sub_e4d4h", "NEGHL"); ("sub_e4d9h", "TSTLROW");
   ("sub_e4e4h", "CONV"); ("sub_e4eah", "CON1"); ("le4efh", "WP75"); ("le500h", "ROWDN");
   ("le511h", "ROWUP"); ("sub_e522h", "ES0H"); ("le530h", "CHKDC"); ("le536h", "FILL");
   ("le557h", "SCROLL"); ("sub_e584h", "ADDOFF"); ("le588h", "ADDOF1"); ("le596h", "ADDOF2");
   ("sub_e59ch", "CLRBIT"); ("le5abh", "CLRBI1"); ("le5b4h", "MOVUP"); ("le5bah", "MOVUP1");
   ("le5bdh", "MOVUP2"); ("sub_e5c2h", "MOVDWN"); ("le5c8h", "MOVDWN1"); ("le5cbh", "MOVDWN2");
   ("le6b5h", "ESCD1"); ("sub_e6d0h", "ESCC"); ("le6dfh", "ESCC1"); ("le7d9h", "ESCCF1");
   ("le7e1h", "ESCCF2"); ("le7ebh", "ESCCF3"); ("le7f1h", "ESCCF4"); ("le7f6h", "ESCCF5");
   ("sub_e853h", "XYADD"); ("le865h", "XYADD1"); ("le872h", "XYADD2"); ("le88eh", "XYADD3");
   ("sub_e899h", "DISPL"); ("le8b0h", "DISPL1"); ("le8bfh", "DISPL2"); ("le8c5h", "DISPL3");
   ("le8ebh", "DISPL4"); ("le912h", "CONOU1"); ("le920h", "CONOU2"); ("le923h", "CONOU3");
   ("le97dh", "AFB11"); ("le98eh", "AFB12"); ("le99fh", "AFB13"); ("le9abh", "AFB14");
   ("lea7bh", "FDF1"); ("lea9ah", "DPBASE"); ("leabbh", "DPBLK1"); ("leabch", "CPMRBP");
   ("leabdh", "SPTRK"); ("leabeh", "SECMSK"); ("leabfh", "SECSHF"); ("leac0h", "TRANTB");
   ("leac2h", "DTLV"); ("leacah", "SEKDSK"); ("leacbh", "SEKTRK"); ("leacdh", "SEKSEC");
   ("leaceh", "HSTDSK"); ("leacfh", "HSTTRK"); ("lead1h", "HSTSEC"); ("lead2h", "LSTDSK");
   ("lead3h", "LSTTRK"); ("lead4h", "SEKHST"); ("lead5h", "HSTACT"); ("lead6h", "HSTWRT");
   ("lead7h", "UNACNT"); ("lead8h", "UNADSK"); ("lead9h", "UNATRK"); ("leadbh", "UNASEC");
   ("leadch", "UNAMSK"); ("leaddh", "ERFLAG"); ("leadeh", "RSFLAG"); ("leadfh", "READOP");
   ("leae0h", "WRTYPE"); ("leae1h", "DMAADR"); ("leae3h", "HSTBUF"); ("lee19h", "DRNO");
   ("lee1ch", "DSKADH"); ("lee1dh", "ACTRA"); ("lee1eh", "ACSEC"); ("lee1fh", "REPET");
   ("lee20h", "RSTAB"); ("lee21h", "RSTAB1"); ("lee28h", "FL_FLG"); ("lee4dh", "SELD20");
   ("lee64h", "SELN"); ("lee9eh", "RSELD"); ("leeech", "CHKUNA"); ("lef29h", "NOOVF");
   ("lef3bh", "SETMSK"); ("lef41h", "ALLOC"); ("lef4bh", "RWOPER"); ("lef5ah", "RSECS");
   ("lef63h", "SETSH"); ("lef8dh", "NOMATC"); ("lef94h", "FILHST"); ("lefb1h", "MATCH");
   ("lefdbh", "RWMOVE"); ("leffch", "RRWOP"); ("sub_efffh", "TRKCMP"); ("sub_f00bh", "WRTHST");
   ("sub_f011h", "RDHST"); ("sub_f021h", "CHKTRK"); ("sub_f085h", "RECA"); ("sub_f101h", "RFDAT");
   ("sub_f106h", "WFDAT"); ("sub_f10bh", "GFPA"); ("sub_f116h", "FDSTAR"); ("sub_f134h", "FDSTOP");
   ("sub_f13eh", "WAITD"); ("sub_f175h", "FLO4"); ("sub_f1a4h", "FLO6"); ("sub_f1c1h", "FLO7");
   ("sub_f1deh", "RSULT"); ("sub_f1fah", "CLFIT"); ("sub_f210h", "WATIR"); ("sub_f218h", "FLPR");
   ("lf21fh", "FLPR_2"); ("sub_f239h", "FLPW"); ("sub_f2bch", "DUMITR"); ("lf03ch", "SET1");
   ("lf03fh", "SET2"); ("lf067h", "SEEKT"); ("lf097h", "SECRD"); ("lf09ch", "RPSC");
   ("lf0b4h", "SECCH"); ("lf0d7h", "SCR1"); ("lf0e1h", "SECWR"); ("lf0e6h", "RPSW");
   ("lf01bh", "RCHECK"); ("lf141h", "WAIT10"); ("lf161h", "FLO2"); ("lf16bh", "FLO3");
   ("lf1e3h", "RSL1"); ("lf1ech", "RSL2"); ("lf243h", "GNCOM"); ("lf2a1h", "FITX");
   ("lf2b2h", "FIT1"); ("lf2b5h", "FIT2"); ("lf321h", "IVTPAG")
  ]%string.

(** ** Release 1.4 *)

Definition wrong_labels : dict := names
  [
   ("SECTRAN", "XREAD"); ("READ", "XWRITE"); ("WRITE", "STLIST"); ("LISTST", "SECTRA");
   ("EXIT", "LINSEL"); ("CLOCK", "EXIT"); ("INTFN5", "CLOCK"); ("LINSEL", "RDSTAT");
   ("READS", "WFITR")
  ]%string.

Definition shift88 : list (Z * bool * string) :=
  [
   (58521, false, "KEYFLG"); (58522, false, "PARFLG")
  ]%string.

Definition shift110 : list (Z * bool * string) :=
  [
   (58570, false, "GRAPH"); (58571, false, "LINTEM"); (58573, true, "CPLHL");
   (58580, true, "NEGHL"); (58585, true, "TSTLROW"); (58596, true, "CONV"); (58602, true, "CON1");
   (58607, false, "WP75"); (58624, false, "ROWDN"); (58641, false, "ROWUP"); (58658, true, "ES0H");
   (58672, false, "CHKDC"); (58678, false, "FILL"); (58711, false, "SCROLL");
   (58756, true, "ADDOFF"); (58760, false, "ADDOF1"); (58774, false, "ADDOF2");
   (58780, true, "CLRBIT"); (58795, false, "CLRBI1"); (58804, false, "MOVUP");
   (58810, false, "MOVUP1"); (58813, false, "MOVUP2"); (58818, true, "MOVDWN");
   (58824, false, "MOVDWN1"); (58827, false, "MOVDWN2"); (59061, false, "ESCD1");
   (59088, true, "ESCC"); (59103, false, "ESCC1"); (59353, false, "ESCCF1");
   (59361, false, "ESCCF2"); (59371, false, "ESCCF3"); (59377, false, "ESCCF4");
   (59382, false, "ESCCF5"); (59475, true, "XYADD"); (59493, false, "XYADD1");
   (59506, false, "XYADD2"); (59534, false, "XYADD3"); (59545, true, "DISPL");
   (59568, false, "DISPL1"); (59583, false, "DISPL2"); (59589, false, "DISPL3");
   (59627, false, "DISPL4"); (59666, false, "CONOU1"); (59680, false, "CONOU2");
   (59683, false, "CONOU3")
  ]%string.

Definition shift115 : list (Z * bool * string) :=
  [
   (59773, false, "AFB11"); (59790, false, "AFB12"); (59807, false, "AFB13");
   (59819, false, "AFB14"); (60027, false, "FDF1"); (60058, false, "DPBASE");
   (60091, false, "DPBLK1"); (60092, false, "CPMRBP"); (60093, false, "SPTRK");
   (60094, false, "SECMSK"); (60095, false, "SECSHF"); (60096, false, "TRANTB");
   (60098, false, "DTLV"); (60106, false, "SEKDSK"); (60107, false, "SEKTRK");
   (60109, false, "SEKSEC"); (60110, false, "HSTDSK"); (60111, false, "HSTTRK");
   (60113, false, "HSTSEC"); (60114, false, "LSTDSK"); (60115, false, "LSTTRK");
   (60116, false, "SEKHST"); (60117, false, "HSTACT"); (60118, false, "HSTWRT");
   (60119, false, "UNACNT"); (60120, false, "UNADSK"); (60121, false, "UNATRK");
   (60123, false, "UNASEC"); (60124, false, "UNAMSK"); (60125, false, "ERFLAG");
   (60126, false, "RSFLAG"); (60127, false, "READOP"); (60128, false, "WRTYPE");
   (60129, false, "DMAADR"); (60131, false, "HSTBUF"); (60953, false, "DRNO");
   (60956, false, "DSKADH"); (60957, false, "ACTRA"); (60958, false, "ACSEC");
   (60959, false, "REPET"); (60960, false, "RSTAB"); (60961, false, "RSTAB1");
   (60968, false, "FL_FLG")
  ]%string.

Definition shift117 : list (Z * bool * string) :=
  [
   (61005, false, "SELD20"); (61028, false, "SELN"); (61086, false, "RSELD");
   (61164, false, "CHKUNA"); (61225, false, "NOOVF"); (61243, false, "SETMSK");
   (61249, false, "ALLOC"); (61259, false, "RWOPER"); (61274, false, "RSECS");
   (61283, false, "SETSH"); (61325, false, "NOMATC"); (61332, false, "FILHST");
   (61361, false, "MATCH"); (61403, false, "RWMOVE"); (61436, false, "RRWOP");
   (61467, false, "RCHECK"); (61500, false, "SET1"); (61503, false, "SET2");
   (61543, false, "SEEKT"); (61591, false, "SECRD"); (61596, false, "RPSC");
   (61620, false, "SECCH"); (61655, false, "SCR1"); (61665, false, "SECWR");
   (61670, false, "RPSW"); (61761, false, "WAIT10"); (61793, false, "FLO2");
   (61803, false, "FLO3"); (61923, false, "RSL1"); (61932, false, "RSL2"); (62019, false, "GNCOM");
   (61439, true, "TRKCMP"); (61451, true, "WRTHST"); (61457, true, "RDHST");
   (61473, true, "CHKTRK"); (61573, true, "RECA"); (61697, true, "RFDAT"); (61702, true, "WFDAT");
   (61707, true, "GFPA"); (61718, true, "FDSTAR"); (61748, true, "FDSTOP"); (61758, true, "WAITD");
   (61813, true, "FLO4"); (61860, true, "FLO6"); (61889, true, "FLO7"); (61918, true, "RSULT");
   (61946, true, "CLFIT"); (61968, true, "WATIR"); (61976, true, "FLPR"); (61983, false, "FLPR_2");
   (62009, true, "FLPW")
  ]%string.

Definition shift122 : list (Z * bool * string) :=
  [
   (62140, true, "DUMITR")
  ]%string.

Definition isr_direct : dict := names
  [
   ("sub_e46bh", "SPECB"); ("sub_e4a1h", "EXTSTA"); ("sub_e4d4h", "SPECA"); ("le9ech", "AFB11");
   ("le9fdh", "AFB12"); ("lea0eh", "AFB13"); ("lea1ah", "AFB14"); ("lf317h", "FITX");
   ("lf328h", "FIT1"); ("lf32bh", "FIT2")
  ]%string.

(** [s.replace(old, new)] for a non-empty [old]. *)
Fixpoint replace_from (fuel : nat) (old new s : str) : str :=
  match fuel, s with
  | S fuel', c :: s' =>
      if bool_decide (take (length old) s = old) then new ++ replace_from fuel' old new (drop (length old) s)
      else c :: replace_from fuel' old new s'
  | _, _ => s
  end.
Definition replace (old new s : str) : str := replace_from (length s) old new s.

Definition startswith (p s : str) : bool := bool_decide (take (length p) s = p).

(** ['%x' % n]. *)
Definition hex_lower (n : Z) : str := map (fun c => if 65 <=? c then c + 32 else c) (fmt_hex 0 n).

Definition auto_label (addr13 : Z) (is_sub : bool) (shift : Z) : str :=
  let addr14 := addr13 + shift in
  if is_sub then chars "sub_" ++ hex_lower addr14 ++ chars "h" else chars "l" ++ hex_lower addr14 ++ chars "h".

Definition unchanged_prefixes : list str :=
  [chars "le0"; chars "le1"; chars "le2"; chars "le3"; chars "sub_e2"; chars "sub_e3"].

Definition label_address (old : str) : outcome Z :=
  int16 (strip_with (fun c => (c =? 108) || (c =? 104)) (replace (chars "le") (chars "l") (replace (chars "sub_") [] old))).

Definition add_unchanged (renames : dict) : outcome dict :=
  foldl (fun acc kv =>
      renames ← acc;
      if existsb (fun p => startswith p (fst kv)) unchanged_prefixes then
        addr ← label_address (fst kv);
        Ret (if addr <? 58404 then dict_set renames (fst kv) (snd kv) else renames)
      else Ret renames)
    (Ret renames) REL13_RENAMES.

Definition add_shifted (shift_val : Z) (entries : list (Z * bool * string)) (renames : dict) : dict :=
  foldl (fun renames e => dict_set renames (auto_label (fst (fst e)) (snd (fst e)) shift_val) (chars (snd e))) renames entries.

Definition build_rel14_renames : outcome dict :=
  renames ← add_unchanged (dict_update [] wrong_labels);
  let renames := add_shifted 88 shift88 renames in
  let renames := add_shifted 110 shift110 renames in
  let renames := add_shifted 115 shift115 renames in
  let renames := add_shifted 117 shift117 renames in
  let renames := add_shifted 122 shift122 renames in
  Ret (dict_update renames isr_direct).

(** ** Replacing *)

(** What [\w] matches. *)
Definition is_word (c : Z) : bool :=
  ((48 <=? c) && (c <=? 57)) || ((65 <=? c) && (c <=? 90)) || (c =? 95) || ((97 <=? c) && (c <=? 122)).

(** [\b] before [s], when what precedes is a word character or not. *)
Definition boundary (before : bool) (s : str) : bool :=
  xorb before (match s with c :: _ => is_word c | [] => false end).

Definition ends_in_word (k : str) : bool := match last k with Some c => is_word c | None => false end.

(** The alternatives are tried in order; the key found and the rest. *)
Fixpoint match_key (keys : list str) (s : str) : option (str * str) :=
  match keys with
  | [] => None
  | k :: keys' =>
      if startswith k s && boundary (ends_in_word k) (drop (length k) s) then Some (k, drop (length k) s)
      else match_key keys' s
  end.

(** [re.sub] over a text from a position on. *)
Fixpoint sub_labels (fuel : nat) (keys : list str) (mapping : dict) (before : bool) (s : str) : str :=
  match fuel, s with
  | S fuel', c :: s' =>
      match (if boundary before s then match_key keys s else None) with
      | Some (k, rest) => default [] (dict_get mapping k) ++ sub_labels fuel' keys mapping (ends_in_word k) rest
      | None => c :: sub_labels fuel' keys mapping (is_word c) s'
      end
  | _, _ => s
  end.

(** [len(re.findall(r'\b' + key + r'\b', s))]. *)
Fixpoint count_label (fuel : nat) (key : str) (before : bool) (s : str) : Z :=
  match fuel, s with
  | S fuel', c :: s' =>
      match (if boundary before s then match_key [key] s else None) with
      | Some (k, rest) => 1 + count_label fuel' key (ends_in_word k) rest
      | None => count_label fuel' key (is_word c) s'
      end
  | _, _ => 0
  end.

(** Longest first, in the dictionary's order for equal lengths. *)
Definition longest_first (keys : list str) : list str := sort_by (fun a b => (length b <=? length a)%nat) keys.

Definition replace_line (keys : list str) (mapping : dict) (line : str) : str :=
  join [39] (imap (fun i part => if Nat.even i then sub_labels (length part) keys mapping false part else part) (split_on 39 line)).

Definition simultaneous_replace (text : str) (mapping : dict) : str :=
  match mapping with
  | [] => text
  | _ => join [10] (map (replace_line (longest_first (map fst mapping)) mapping) (split_on 10 text))
  end.

(** The text written, the names the warnings list with their counts, and the
    number reported. *)
Definition apply_renames (text : str) (renames : dict) : str * list (str * Z) * Z :=
  let count k t := count_label (length t) k false t in
  let total_before := zsum (map (fun kv => count (fst kv) text) renames) in
  let new_text := simultaneous_replace text renames in
  let counts := map (fun kv => (fst kv, count (fst kv) new_text)) renames in
  let warnings := filter (fun kc => 0 < snd kc) counts in
  (new_text, warnings, total_before - zsum (map snd warnings)).

Example exit_becomes_linsel : apply_renames (chars " CALL EXIT;'EXIT'") REL13_RENAMES = (chars " CALL LINSEL;'EXIT'", [(chars "EXIT", 1); (chars "LINSEL", 1)], 0).
Proof. vm_compute. reflexivity. Qed.
Example rel14_has_188 : fmap length build_rel14_renames = Ret 188%nat.
Proof. vm_compute. reflexivity. Qed.

(** ** Word by word

    The reference: every maximal run of word characters is taken through [f]. *)
Definition flush (f : str -> str) (w : str) : str := match w with [] => [] | _ => f w end.
Fixpoint map_words_from (f : str -> str) (s : str) : str * str :=
  match s with
  | [] => ([], [])
  | c :: s' =>
      let '(w, out) := map_words_from f s' in
      if is_word c then (c :: w, out) else ([], c :: flush f w ++ out)
  end.
Definition map_words (f : str -> str) (s : str) : str := let '(w, out) := map_words_from f s in flush f w ++ out.

Definition renamed (mapping : dict) (w : str) : str := default w (dict_get mapping w).

(** [f] on the parts of every line outside single quotes. *)
Definition on_unquoted (f : str -> str) (text : str) : str :=
  join [10] (map (fun line => join [39] (imap (fun i part => if Nat.even i then f part else part) (split_on 39 line))) (split_on 10 text)).

Definition word (w : str) : Prop := w <> [] /\ Forall (fun c => is_word c = true) w.
Definition no_word_first (s : str) : Prop := match s with c :: _ => is_word c = false | [] => True end.

Lemma map_words_other f c s : is_word c = false -> map_words f (c :: s) = c :: map_words f s.
Proof. intros H. unfold map_words. cbn [map_words_from]. destruct (map_words_from f s) as [w out]. by rewrite H. Qed.

Lemma map_words_from_word f w rest : Forall (fun c => is_word c = true) w -> no_word_first rest ->
  map_words_from f (w ++ rest) = (w, map_words f rest).
Proof.
  intros Hw Hr. induction Hw as [|c w Hc Hw IH]; cbn [app map_words_from].
  - destruct rest as [|c rest]; [done|]. unfold map_words. cbn [map_words_from] in *. destruct (map_words_from f rest) as [w out].
    cbn in Hr. by rewrite Hr.
  - by rewrite IH, Hc.
Qed.

Lemma map_words_word f w rest : word w -> no_word_first rest -> map_words f (w ++ rest) = f w ++ map_words f rest.
Proof.
  intros [Hne Hw] Hr. unfold map_words at 1. rewrite map_words_from_word by done. by destruct w.
Qed.

Lemma split_word s : exists w rest, s = w ++ rest /\ Forall (fun c => is_word c = true) w /\ no_word_first rest.
Proof.
  induction s as [|c s (w & rest & -> & Hw & Hr)]; [by exists [], []|].
  destruct (is_word c) eqn:Hc.
  - exists (c :: w), rest. split_and!; [done|by constructor|done].
  - by exists [], (c :: w ++ rest).
Qed.

(** Texts are built of other characters and of words that end there. *)
Lemma text_ind (P : str -> Prop) :
  P [] -> (forall c s, is_word c = false -> P s -> P (c :: s)) ->
  (forall w rest, word w -> no_word_first rest -> P rest -> P (w ++ rest)) -> forall s, P s.
Proof.
  intros H0 Hc Hw s. remember (length s) as n eqn:En. assert (Hn : (length s <= n)%nat) by lia. clear En. revert s Hn.
  induction n as [|n IH]; intros s Hn; [destruct s; [done|cbn in Hn; lia]|].
  destruct (split_word s) as (w & rest & -> & Hws & Hr). destruct w as [|c w].
  - destruct rest as [|c rest]; [done|]. apply Hc; [done|]. apply IH. cbn in Hn. lia.
  - apply Hw; [done|done|]. apply IH. cbn in Hn. rewrite length_app in Hn. lia.
Qed.

(** ** The regular expression is the reference *)

Lemma word_ends w : word w -> ends_in_word w = true.
Proof.
  intros [Hne Hw]. unfold ends_in_word. destruct (last w) as [c|] eqn:E; [|by apply last_None in E].
  apply last_Some in E as [w' ->]. apply Forall_app in Hw as [_ Hw]. by apply Forall_cons in Hw as [-> _].
Qed.

Lemma key_at k w rest : word k -> word w -> no_word_first rest -> k <> w ->
  startswith k (w ++ rest) && boundary (ends_in_word k) (drop (length k) (w ++ rest)) = false.
Proof.
  intros Hk Hw Hr Hne. rewrite (word_ends k Hk). unfold startswith. case_bool_decide as E; [|done]. cbn [andb].
  destruct Hk as [Hk0 Hk], Hw as [Hw0 Hw]. destruct (decide (length k < length w)%nat) as [Hlt|Hge].
  - rewrite drop_app_le by lia. destruct (drop (length k) w) as [|c d] eqn:Ed.
    { apply (f_equal length) in Ed. rewrite length_drop in Ed. cbn in Ed. lia. }
    cbn. assert (is_word c = true) as ->; [|done]. apply (proj1 (Forall_forall _ _) Hw). rewrite <- (take_drop (length k) w), Ed. set_solver.
  - destruct (decide (length k = length w)) as [El|Hnl].
    { exfalso. apply Hne. rewrite <- E, El. by rewrite take_app_length. }
    exfalso. destruct rest as [|c rest].
    { apply (f_equal length) in E. rewrite app_nil_r, length_take in E. lia. }
    assert (Hc : c ∈ k).
    { rewrite <- E, take_app_ge by lia. destruct (length k - length w)%nat eqn:En; [lia|]. cbn [take]. apply elem_of_app. right. by left. }
    apply (proj1 (Forall_forall _ _) Hk) in Hc. cbn in Hr. congruence.
Qed.

Lemma match_key_word keys w rest : Forall word keys -> word w -> no_word_first rest ->
  match_key keys (w ++ rest) = if decide (w ∈ keys) then Some (w, rest) else None.
Proof.
  intros Hk Hw Hr. induction Hk as [|k keys Hk Hks IH]; [done|]. cbn [match_key].
  destruct (decide (k = w)) as [->|Hne].
  - rewrite (decide_True (P := w ∈ w :: keys)) by (by left). unfold startswith. rewrite take_app_length, drop_app_length, bool_decide_eq_true_2 by done.
    rewrite word_ends by done. destruct rest as [|c rest]; [done|]. cbn in Hr |- *. by rewrite Hr.
  - rewrite key_at by done. rewrite IH. destruct (decide (w ∈ keys)) as [Hin|Hnin].
    + by rewrite decide_True by (by right).
    + rewrite decide_False; [done|]. intros [?|?]%elem_of_cons; [congruence|done].
Qed.

Lemma match_key_other keys c s : Forall word keys -> is_word c = false -> match_key keys (c :: s) = None.
Proof.
  intros Hk Hc. induction Hk as [|k keys [Hk0 Hk] Hks IH]; [done|]. cbn [match_key]. unfold startswith.
  case_bool_decide as E; [|done]. destruct k as [|d k]; [done|]. cbn in E. injection E as -> _.
  apply Forall_cons in Hk as [Hd _]. congruence.
Qed.

Lemma sub_inside fuel keys mapping w rest : Forall (fun c => is_word c = true) w ->
  sub_labels (length w + fuel) keys mapping true (w ++ rest) = w ++ sub_labels fuel keys mapping true rest.
Proof.
  intros Hw. induction Hw as [|c w Hc Hw IH]; [done|]. cbn [length Nat.add app sub_labels].
  assert (boundary true (c :: w ++ rest) = false) as -> by (cbn; by rewrite Hc). by rewrite Hc, IH.
Qed.

Lemma dict_get_none d k : dict_get d k = None <-> k ∉ map fst d.
Proof.
  induction d as [|[k' v] d IH]; cbn [dict_get map fst]; [split; [by intros _ ?%elem_of_nil|done]|].
  rewrite not_elem_of_cons. destruct (decide (k = k')) as [->|Hne]; [split; [intros H; discriminate H|intros [H _]; by destruct H]|]. rewrite IH. split; [intros H; by split|intros [_ H]; exact H].
Qed.

Lemma sub_labels_words keys mapping s : Forall word keys -> (forall k, k ∈ keys <-> k ∈ map fst mapping) ->
  forall fuel before, (length s <= fuel)%nat -> before = false \/ no_word_first s ->
  sub_labels fuel keys mapping before s = map_words (renamed mapping) s.
Proof.
  intros Hk Heq. induction s as [|c s Hc IH|w rest Hw Hr IH] using text_ind; intros fuel before Hf Hb.
  - by destruct fuel.
  - destruct fuel as [|fuel]; [cbn in Hf; lia|]. cbn [sub_labels]. rewrite map_words_other by done.
    rewrite match_key_other by done. rewrite Hc. destruct (boundary before (c :: s)); rewrite IH; (done || (by left) || cbn in Hf; lia).
  - assert (Hw' := Hw). destruct Hw' as [Hw0 Hws]. destruct w as [|c w]; [done|].
    assert (before = false) as ->. { destruct Hb as [|Hb]; [done|]. cbn in Hb. apply Forall_cons in Hws as [Hc _]. congruence. }
    destruct fuel as [|fuel]; [cbn in Hf; lia|]. change ((c :: w) ++ rest) with (c :: (w ++ rest)) at 1. cbn [sub_labels].
    assert (boundary false (c :: w ++ rest) = true) as -> by (apply Forall_cons in Hws as [Hc _]; cbn; by rewrite Hc).
    change (c :: w ++ rest) with ((c :: w) ++ rest). rewrite match_key_word, map_words_word by done.
    rewrite length_app in Hf. cbn [length] in Hf. unfold renamed at 1.
    destruct (decide (c :: w ∈ keys)) as [Hin|Hnin].
    + rewrite word_ends, IH by (done || lia || by right). apply Heq in Hin.
      destruct (dict_get mapping (c :: w)) eqn:E; [done|]. by apply dict_get_none in E.
    + assert (dict_get mapping (c :: w) = None) as -> by (apply dict_get_none; by rewrite <- Heq).
      apply Forall_cons in Hws as [Hc Hws]. rewrite Hc. replace fuel with (length w + (fuel - length w))%nat by lia.
      rewrite sub_inside, IH by (done || lia || by right). done.
Qed.

(** ** Lines and quotes *)

(** A part of a line that is outside quotes. *)
Definition unquoted (part text : str) : Prop :=
  exists line i, line ∈ split_on 10 text /\ split_on 39 line !! i = Some part /\ Nat.even i = true.

Lemma join_map_ext (sep : str) (f g : str -> str) l : (forall x, x ∈ l -> f x = g x) -> join sep (map f l) = join sep (map g l).
Proof. intros H. f_equal. apply map_ext_in. intros x Hx. by apply H, list_elem_of_In. Qed.

Lemma on_unquoted_ext f g text : (forall part, unquoted part text -> f part = g part) -> on_unquoted f text = on_unquoted g text.
Proof.
  intros H. unfold on_unquoted. apply join_map_ext. intros line Hline. f_equal. apply imap_ext. intros i part Hi.
  destruct (Nat.even i) eqn:E; [|done]. apply H. by exists line, i.
Qed.

Lemma on_unquoted_id text : on_unquoted (fun p => p) text = text.
Proof.
  unfold on_unquoted. rewrite <- (join_split 10 text) at 2. f_equal. rewrite <- (map_id (split_on 10 text)) at 2. apply map_ext.
  intros line. rewrite <- (join_split 39 line) at 2. f_equal. apply list_eq. intros i. rewrite list_lookup_imap.
  destruct (split_on 39 line !! i) as [p|]; [|done]. cbn. by destruct (Nat.even i).
Qed.

(** [f] then [g], when [f] adds no line ends and no quotes. *)
Lemma on_unquoted_twice f g text : (forall part, 10 ∉ part -> 39 ∉ part -> (10 ∉ f part) /\ (39 ∉ f part)) ->
  on_unquoted g (on_unquoted f text) = on_unquoted (fun p => g (f p)) text.
Proof.
  intros Hf. destruct (split_on_free 10 text) as [Hl Hne]. unfold on_unquoted.
  set (F := fun line => imap (fun (i : nat) part => if Nat.even i then f part else part) (split_on 39 line)).
  assert (HF : forall line, 10 ∉ line -> Forall (fun p => 39 ∉ p) (F line) /\ Forall (fun p => 10 ∉ p) (F line) /\ F line <> []).
  { intros line Hline. destruct (split_on_free 39 line) as [Hp Hpne].
    assert (Hp10 : Forall (fun p => 10 ∉ p) (split_on 39 line)).
    { clear -Hline. revert Hline. induction line as [|x line IH]; intros H; cbn [split_on]; [repeat constructor; by intros ?%elem_of_nil|].
      apply not_elem_of_cons in H as [Hx H]. specialize (IH H). destruct (x =? 39); [by constructor; [by intros ?%elem_of_nil|]|].
      destruct (split_on 39 line) as [|w ws]; [repeat constructor; by intros [?|?%elem_of_nil]%elem_of_cons|].
      apply Forall_cons in IH as [Hw Hws]. constructor; [by intros [?|?]%elem_of_cons|done]. }
    unfold F. split_and!.
    - apply Forall_lookup. intros i p Hi. rewrite list_lookup_imap in Hi. destruct (split_on 39 line !! i) as [q|] eqn:Eq; [|done].
      injection Hi as <-. pose proof (proj1 (Forall_lookup _ _) Hp i q Eq). pose proof (proj1 (Forall_lookup _ _) Hp10 i q Eq).
      destruct (Nat.even i); [by apply Hf|done].
    - apply Forall_lookup. intros i p Hi. rewrite list_lookup_imap in Hi. destruct (split_on 39 line !! i) as [q|] eqn:Eq; [|done].
      injection Hi as <-. pose proof (proj1 (Forall_lookup _ _) Hp i q Eq). pose proof (proj1 (Forall_lookup _ _) Hp10 i q Eq).
      destruct (Nat.even i); [by apply Hf|done].
    - intros E. apply (f_equal length) in E. rewrite length_imap in E. by destruct (split_on 39 line). }
  rewrite split_join; [|apply Forall_map; eapply Forall_impl; [exact Hl|]; intros line Hline|by destruct (split_on 10 text)].
  - f_equal. rewrite map_map. apply map_ext_in. intros line Hin%list_elem_of_In.
    pose proof (proj1 (Forall_forall _ _) Hl line Hin) as Hline. destruct (HF line Hline) as (H39 & H10 & HFne). fold (F line).
    rewrite split_join by done. f_equal. unfold F. apply list_eq. intros i. rewrite !list_lookup_imap.
    destruct (split_on 39 line !! i) as [p|]; [|done]. cbn. by destruct (Nat.even i).
  - cbn. fold (F line). destruct (HF line Hline) as (H39 & H10 & _). by apply elem_of_join.
Qed.

(** ** Properties *)

Lemma map_words_free f c s : is_word c = false -> (forall w, word w -> c ∉ f w) -> c ∉ s -> c ∉ map_words f s.
Proof.
  intros Hc Hf. induction s as [|x s Hx IH|w rest Hw Hr IH] using text_ind; intros Hs.
  - by intros ?%elem_of_nil.
  - rewrite map_words_other by done. apply not_elem_of_cons in Hs as [Hne Hs]. apply not_elem_of_cons. split; [done|by apply IH].
  - rewrite map_words_word by done. rewrite elem_of_app in Hs |- *. intros [H|H]; [by apply (Hf w)|]. apply IH; [|done]. naive_solver.
Qed.

(** The words of a text. *)
Definition contains_word (w s : str) : Prop :=
  word w /\ exists a b, s = a ++ w ++ b /\ no_word_first b /\ ends_in_word a = false.

Lemma contains_later w c s : is_word c = false -> contains_word w s -> contains_word w (c :: s).
Proof.
  intros Hc (Hw & a & b & -> & Hb & Ha). split; [done|]. exists (c :: a), b. split_and!; [done|done|].
  unfold ends_in_word in *. rewrite last_cons. destruct (last a); done.
Qed.

Lemma contains_behind w w' rest : no_word_first rest -> contains_word w rest -> contains_word w (w' ++ rest).
Proof.
  intros Hr (Hw & a & b & -> & Hb & Ha). split; [done|]. exists (w' ++ a), b. split_and!; [by rewrite <- app_assoc|done|].
  destruct a as [|c a].
  - exfalso. destruct Hw as [Hne Hw]. destruct w as [|c w]; [done|]. cbn in Hr. apply Forall_cons in Hw as [Hc _]. congruence.
  - unfold ends_in_word in *. rewrite last_app. destruct (last (c :: a)) eqn:E; [done|]. by apply last_None in E.
Qed.

(** Words that a second renaming takes back. *)
Lemma map_words_back f g s : (forall w, contains_word w s -> word (f w) /\ g (f w) = w) -> map_words g (map_words f s) = s.
Proof.
  induction s as [|c s Hc IH|w rest Hw Hr IH] using text_ind; intros H.
  - done.
  - rewrite !map_words_other by done. f_equal. apply IH. intros w Hw. apply H. by apply contains_later.
  - destruct (H w) as [Hfw Hg]; [split; [done|]; by exists [], rest|].
    rewrite map_words_word by done. rewrite map_words_word; [|done|].
    + rewrite Hg. f_equal. apply IH. intros w' Hw'. apply H. by apply contains_behind.
    + destruct rest as [|c rest]; [done|]. by rewrite map_words_other.
Qed.

Definition labels_ok (m : dict) : Prop := Forall (fun kv => word (fst kv) /\ word (snd kv)) m.

#[export] Instance word_dec w : Decision (word w).
Proof. unfold word. apply _. Defined.
#[export] Instance labels_ok_dec m : Decision (labels_ok m).
Proof. unfold labels_ok. apply _. Defined.

Lemma dict_get_pair d k v : dict_get d k = Some v -> (k, v) ∈ d.
Proof.
  induction d as [|[k' v'] d IH]; cbn [dict_get]; [done|]. destruct (decide (k = k')) as [->|]; [intros [= ->]; by left|]. intros H. right. by apply IH.
Qed.

Lemma dict_get_nodup d k v : NoDup (map fst d) -> (k, v) ∈ d -> dict_get d k = Some v.
Proof.
  induction d as [|[k' v'] d IH]; intros Hnd Hin; [by apply elem_of_nil in Hin|]. cbn [map fst] in Hnd. apply NoDup_cons in Hnd as [Hni Hnd].
  cbn [dict_get]. apply elem_of_cons in Hin as [[= -> ->]|Hin]; [by rewrite decide_True|].
  rewrite decide_False; [by apply IH|]. intros ->. apply Hni. apply list_elem_of_fmap. by exists (k', v).
Qed.

Lemma renamed_word m w : labels_ok m -> word w -> word (renamed m w).
Proof.
  intros Hm Hw. unfold renamed. destruct (dict_get m w) as [v|] eqn:E; [|done]. apply dict_get_pair in E.
  apply (proj1 (Forall_forall _ _) Hm) in E. by destruct E.
Qed.

Lemma replace_is_words text m : labels_ok m -> simultaneous_replace text m = on_unquoted (map_words (renamed m)) text.
Proof.
  intros Hm.
  assert (m = [] \/ simultaneous_replace text m
    = join [10] (map (replace_line (longest_first (map fst m)) m) (split_on 10 text))) as [->| ->] by (destruct m; [by left|by right]).
  - cbn. rewrite <- (on_unquoted_id text) at 1. apply on_unquoted_ext. intros part _.
    rewrite <- (map_words_back (fun w => w) (fun w => w) part) at 1 by (by intros w [Hw _]).
    rewrite (map_words_back (fun w => w) (fun w => w) part) by (by intros w [Hw _]).
    symmetry. clear. induction part as [|c s Hc IH|w rest Hw Hr IH] using text_ind; [done| |].
    + rewrite map_words_other by done. by rewrite IH.
    + rewrite map_words_word by done. by rewrite IH.
  - unfold on_unquoted. f_equal. apply map_ext. intros line.
    unfold replace_line. f_equal. apply imap_ext. intros i part _. destruct (Nat.even i); [|done].
    apply sub_labels_words; [|intros k; unfold longest_first; by rewrite sort_by_perm|lia|by left].
    apply Forall_forall. intros k Hk. unfold longest_first in Hk. rewrite sort_by_perm in Hk.
    apply list_elem_of_fmap in Hk as (kv' & -> & Hk). by apply (proj1 (Forall_forall _ _) Hm) in Hk as [? _].
Qed.

Definition inverse (m : dict) : dict := map (fun kv => (snd kv, fst kv)) m.

Lemma inverse_ok m : labels_ok m -> labels_ok (inverse m).
Proof. intros H. apply Forall_map. eapply Forall_impl; [exact H|]. by intros [k v] [? ?]. Qed.

Lemma renamed_back m w : NoDup (map snd m) -> (w ∈ map snd m -> w ∈ map fst m) -> renamed (inverse m) (renamed m w) = w.
Proof.
  intros Hv Hw. unfold renamed. assert (Hi : map fst (inverse m) = map snd m) by (unfold inverse; rewrite map_map; done).
  destruct (dict_get m w) as [v|] eqn:E; cbn [from_option id].
  - apply dict_get_pair in E. rewrite (dict_get_nodup (inverse m) v w); [done|by rewrite Hi|].
    apply list_elem_of_fmap. by exists (w, v).
  - assert (dict_get (inverse m) w = None) as ->; [|done]. apply dict_get_none. rewrite Hi. intros Hin. apply Hw in Hin.
    by apply dict_get_none in E.
Qed.

(** ** The mapping of release 1.4

    The shifts as [build_rel14_renames]' docstring lists them, by the address in release
    1.3; between the ranges lie the rewritten interrupt routines. *)
Definition shift_at (addr : Z) : option Z :=
  if (0xE080 <=? addr) && (addr <=? 0xE423) then Some 0
  else if (0xE499 <=? addr) && (addr <=? 0xE4B5) then Some 88
  else if (0xE4CA <=? addr) && (addr <=? 0xE92B) then Some 110
  else if (0xE9B2 <=? addr) && (addr <=? 0xEE28) then Some 115
  else if (0xEE29 <=? addr) && (addr <=? 0xF28F) then Some 117
  else if 0xF2BC <=? addr then Some 122
  else None.

(** A disassembler's label: whether of a routine, and its address. *)
Definition label_parts (k : str) : option (bool * Z) :=
  let parts sub body := match int16 (removelast body) with Ret a => Some (sub, a) | Raise _ => None end in
  if startswith (chars "sub_") k then parts true (drop 4 k) else if startswith (chars "l") k then parts false (drop 1 k) else None.

(** Where a label of release 1.3 and its name go: names stay, addresses move. *)
Definition moved_label (kv : str * str) : option (str * str) :=
  match label_parts (fst kv) with
  | None => Some kv
  | Some (sub, addr) => s ← shift_at addr; Some (auto_label addr sub s, snd kv)
  end.

(** Four labels of the display's interrupt routine, which lies in no range. *)
Definition strays : dict := map (fun e => (auto_label (fst e) false 115, chars (snd e))) [(0xE97D, "AFB11"); (0xE98E, "AFB12"); (0xE99F, "AFB13"); (0xE9AB, "AFB14")]%string.

Definition rel14_entries : dict := filter (fun kv => snd kv <> chars "IVTPAG") (omap moved_label REL13_RENAMES) ++ isr_direct ++ strays.

Lemma rel14_is_shifted : exists rel14, build_rel14_renames = Ret rel14 /\ forall kv, kv ∈ rel14 <-> kv ∈ rel14_entries.
Proof.
  destruct build_rel14_renames as [rel14|] eqn:E; [|by vm_compute in E]. exists rel14. split; [done|].
  assert (rel14 = default [] (match build_rel14_renames with Ret d => Some d | _ => None end)) as -> by (by rewrite E). clear E. intros kv. split; revert kv; apply Forall_forall; decided.
Qed.

(** C21: labels are renamed word by word and can be renamed back.  For a mapping
    between words, the single pass over the longest-first alternatives replaces
    exactly the whole words that are keys, outside single quotes, and nothing
    else.  If the new names are distinct and those already in the text are
    themselves replaced, renaming with the inverse mapping restores the text.
    Release 1.3's mapping is such a mapping.  Release 1.4's, which always is built, holds
    exactly these: the program's own names as in release 1.3, the disassembler's labels
    of release 1.3 at addresses moved by the shift the docstring has for them, but
    IVTPAG's, the ten labels found by hand, and four strays; so it gives the names AFB11
    to AFB14 to two labels each and lacks three names of release 1.3.  Names that the mapping both replaces and introduces make the
    check afterwards warn and count too few, and make a second run rename what
    the first has written. *)
Theorem labels_are_renamed text m (Hm : labels_ok m) :
  simultaneous_replace text m = on_unquoted (map_words (renamed m)) text /\
  (NoDup (map snd m) ->
   (forall part w, unquoted part text -> contains_word w part -> w ∈ map snd m -> w ∈ map fst m) ->
   simultaneous_replace (simultaneous_replace text m) (inverse m) = text) /\
  (labels_ok REL13_RENAMES /\ NoDup (map fst REL13_RENAMES) /\ NoDup (map snd REL13_RENAMES)) /\
  (exists rel14, build_rel14_renames = Ret rel14 /\ labels_ok rel14 /\ NoDup (map fst rel14) /\
     filter (fun v => (1 < length (filter (fun kv => snd kv = v) rel14))%nat) (map snd rel14)
       = map chars ["AFB11"; "AFB12"; "AFB13"; "AFB14"; "AFB11"; "AFB12"; "AFB13"; "AFB14"]%string /\
     (forall kv, kv ∈ rel14 <-> kv ∈ rel14_entries) /\
     filter (fun v => v ∉ map snd rel14) (map snd REL13_RENAMES) = map chars ["TXB"; "KEYIT"; "IVTPAG"]%string) /\
  apply_renames (chars "CLOCK") REL13_RENAMES = (chars "EXIT", [(chars "EXIT", 1)], 0) /\
  simultaneous_replace (simultaneous_replace (chars "CLOCK") REL13_RENAMES) REL13_RENAMES = chars "LINSEL".
Proof.
  split; [by apply replace_is_words|]. split.
  - intros Hv Htext. rewrite (replace_is_words text m Hm), replace_is_words by (by apply inverse_ok). rewrite on_unquoted_twice.
    + rewrite <- (on_unquoted_id text) at 2. apply on_unquoted_ext. intros part Hpart. apply map_words_back. intros w Hw.
      split; [apply renamed_word; [done|by destruct Hw]|]. apply renamed_back; [done|]. by apply (Htext part).
    + assert (Hfree : forall c w, is_word c = false -> word w -> c ∉ renamed m w).
      { intros c w Hc Hw Hin. destruct (renamed_word m w Hm Hw) as [_ Hall]. apply (proj1 (Forall_forall _ _) Hall) in Hin. congruence. }
      intros part H10 H39. split; apply map_words_free; auto.
  - split; [split_and!; decided|]. split; [|split; vm_compute; reflexivity].
    destruct build_rel14_renames as [rel14|] eqn:E; [|by vm_compute in E]. exists rel14. split; [done|].
    assert (rel14 = default [] (match build_rel14_renames with Ret d => Some d | _ => None end)) as -> by (by rewrite E).
    split_and!; [decided|decided|vm_compute; reflexivity| |vm_compute; reflexivity].
    destruct rel14_is_shifted as (d & Ed & Hd). rewrite Ed. exact Hd.
Qed.

Lemma labels_are_renamed_witness :
  simultaneous_replace (simultaneous_replace (chars "le30ch: CALL sub_e2f1h ; 'EXIT' of le289h_x") REL13_RENAMES) (inverse REL13_RENAMES)
    = chars "le30ch: CALL sub_e2f1h ; 'EXIT' of le289h_x".
Proof.
  apply (labels_are_renamed (chars "le30ch: CALL sub_e2f1h ; 'EXIT' of le289h_x") REL13_RENAMES ltac:(decided)); [decided|].
  intros part w (line & i & Hline & Hi & Hev) (Hw & a & b & -> & _) Hin. exfalso. revert Hin.
  assert (Hsub : forall v, v ∈ map snd REL13_RENAMES -> forallb (fun p => negb (existsb (fun k => startswith v (drop k p)) (seq 0 (length p)))) [chars "le30ch: CALL sub_e2f1h ; "; chars " of le289h_x"] = true).
  { assert (F : Forall (fun v => forallb (fun p => negb (existsb (fun k => startswith v (drop k p)) (seq 0 (length p)))) [chars "le30ch: CALL sub_e2f1h ; "; chars " of le289h_x"] = true) (map snd REL13_RENAMES)) by decided.
    exact (proj1 (Forall_forall _ _) F). }
  intros Hin. specialize (Hsub w Hin).
  assert (Hl : split_on 10 (chars "le30ch: CALL sub_e2f1h ; 'EXIT' of le289h_x") = [chars "le30ch: CALL sub_e2f1h ; 'EXIT' of le289h_x"]) by reflexivity.
  rewrite Hl in Hline. apply list_elem_of_singleton in Hline as ->.
  assert (Hp : split_on 39 (chars "le30ch: CALL sub_e2f1h ; 'EXIT' of le289h_x") = [chars "le30ch: CALL sub_e2f1h ; "; chars "EXIT"; chars " of le289h_x"]) by reflexivity.
  rewrite Hp in Hi.
  assert (Hpart : a ++ w ++ b ∈ [chars "le30ch: CALL sub_e2f1h ; "; chars " of le289h_x"]).
  { destruct i as [|[|[|i]]]; cbn in Hi; [injection Hi as <-; by left|done|injection Hi as <-; right; by left|done]. }
  rewrite forallb_forall in Hsub. specialize (Hsub _ (proj1 (list_elem_of_In _ _) Hpart)).
  apply negb_true_iff in Hsub. assert (existsb (fun k => startswith w (drop k (a ++ w ++ b))) (seq 0 (length (a ++ w ++ b))) = true) as Ht; [|congruence].
  apply existsb_exists. exists (length a). split.
  - apply in_seq. rewrite !length_app. destruct Hw as [Hne _]. destruct w; [done|]. cbn [length]. lia.
  - unfold startswith. rewrite drop_app_length, take_app_length. by apply bool_decide_eq_true_2.
Defined.
