(* ===== verification/Verify.v ===== *)
(** * Comparing an assembled BIOS with a reference: rcbios/verify_bios.py,
    verify_58k.py, verify_rc702e.py, verify_rc703.py and extract_bios.py.

    The scripts read the assembler's HEX file into a dictionary
    ([hex_to_bin]) and compare it with the bytes of a memory dump:
    verify_bios.py by position, leaving out what changes at run time, the others
    by address, wherever the HEX file has a byte.  extract_bios.py cuts the
    reference out of a dump.  File contents go in and the exit status comes out;
    the texts printed and the check that the files exist are left out, and so are
    negative offsets on the command line. *)

From S2P Require Import Prelude Imd Hex Text.
#[local] Open Scope Z_scope.

(** ** hex_to_bin *)

(** The bytes of a data record, by address. *)
Definition data_bytes (line : str) (addr count : Z) (data : gmap Z Z) : outcome (gmap Z Z) :=
  foldl (fun acc i =>
      d ← acc;
      v ← int16 (slice (9 + i * 2) (11 + i * 2) line);
      Ret (<[addr + Z.of_nat i := v]> d))
    (Ret data) (seq 0 (Z.to_nat count)).

(** One line: the dictionary after it, and whether it ends the file. *)
Definition hex_line (line : str) (data : gmap Z Z) : outcome (gmap Z Z * bool) :=
  let line := strip_with py_space line in
  match line with
  | 58 :: _ =>
      count ← int16 (slice 1 3 line);
      addr ← int16 (slice 3 7 line);
      rtype ← int16 (slice 7 9 line);
      if rtype =? 0 then d ← data_bytes line addr count data; Ret (d, false)
      else Ret (data, rtype =? 1)
  | _ => Ret (data, false)
  end.

Fixpoint hex_lines (lines : list str) (data : gmap Z Z) : outcome (gmap Z Z) :=
  match lines with
  | [] => Ret data
  | line :: lines' =>
      r ← hex_line line data;
      if snd r : bool then Ret (fst r) else hex_lines lines' (fst r)
  end.

(** The dictionary of the three scripts that compare by address. *)
Definition hex_dict (file : str) : outcome (gmap Z Z) := hex_lines (split_on 10 (universal_newlines file)) ∅.

(** verify_bios.py's [hex_to_bin]: from the lowest address to the highest, zero
    where the file says nothing, and the lowest address. *)
Definition dict_min (d : gmap Z Z) : Z := match map fst (map_to_list d) with [] => 0 | a :: l => foldr Z.min a l end.
Definition dict_max (d : gmap Z Z) : Z := match map fst (map_to_list d) with [] => 0 | a :: l => foldr Z.max a l end.

Definition hex_to_bin (file : str) : outcome (bytes * Z) :=
  data ← hex_dict file;
  if decide (data = ∅) then Ret ([], 0) else
  let min_addr := dict_min data in
  let max_addr := dict_max data in
  if bool_decide (map_Forall (fun _ v => is_byte v) data) then
    Ret (map (fun k => default 0 (data !! (min_addr + k))) (seqZ 0 (max_addr - min_addr + 1)), min_addr)
  else Raise ValueError.

(** ** Comparing by address *)

(** The loop over [range(compare_len)]: bytes compared and differences. *)
Definition compare_at (base : Z) (hex_data : gmap Z Z) (ref : bytes) : Z * Z :=
  foldl (fun acc i =>
      match hex_data !! (base + Z.of_nat i) with
      | Some v => (fst acc + 1, if v =? default 0 (ref !! i) then snd acc else snd acc + 1)
      | None => acc
      end)
    (0, 0) (seq 0 (length ref)).

Definition status_of (r : Z * Z) : Z := if snd r =? 0 then 0 else 1.

Definition verify_58k (hexfile : str) (ref : bytes) : outcome Z :=
  d ← hex_dict hexfile; Ret (status_of (compare_at 57472 d ref)).

Definition verify_rc702e (hexfile : str) (ref : bytes) (mode : str) : outcome Z :=
  d ← hex_dict hexfile;
  if decide (mode = chars "--mini") then Ret (status_of (compare_at 55040 d ref))
  else if decide (mode = chars "--qd") then Ret (status_of (compare_at 54400 d ref))
  else Ret 1.

Definition verify_rc703 (hexfile : str) (ref : bytes) (mode : str) : outcome Z :=
  d ← hex_dict hexfile;
  let compared := if decide (mode = chars "--code") then takeZ 5504 ref else ref in
  Ret (status_of (compare_at 54400 d compared)).

(** ** verify_bios.py *)

Definition find_runtime_offsets : list Z :=
  [52; 53] ++ map (fun i => 55 + Z.of_nat i) (seq 0 16) ++ [71] ++ [649; 650; 651; 652].

(** [bios.find(pattern, pos)]. *)
Fixpoint find_from (pattern l : bytes) (pos : nat) : option nat :=
  if bool_decide (take (length pattern) l = pattern) then Some pos
  else match l with [] => None | _ :: l' => find_from pattern l' (S pos) end.
Definition find_bytes (pattern l : bytes) (pos : nat) : option nat :=
  if (length l <? pos)%nat then None else find_from pattern (drop pos l) pos.

Definition EI_RETI : bytes := [251; 237; 77].

(** The position of DUMITR; the DPBASE table is the 112 bytes before it. *)
Fixpoint find_dumitr (fuel : nat) (bios : bytes) (bios_base : Z) (pos : nat) : option nat :=
  match fuel with
  | O => None
  | S fuel' =>
      match find_bytes EI_RETI bios pos with
      | None => None
      | Some p =>
          let after := (p + 3)%nat in
          let boundary := Z.land (bios_base + Z.of_nat after + 255) (Z.lnot 255) in
          let pad_len := Z.to_nat (boundary - (bios_base + Z.of_nat after)) in
          if (after + pad_len <=? length bios)%nat && forallb (fun b => b =? 0) (slice after (after + pad_len) bios)
          then Some p
          else find_dumitr fuel' bios bios_base (S p)
      end
  end.
Definition find_dpbase_offset (bios : bytes) (bios_base : Z) : option nat := find_dumitr (S (length bios)) bios bios_base 0.

Inductive verdict : Set := Same | InRuntime | InDpbase | Padding | Different.
#[export] Instance verdict_eq_dec : EqDecision verdict.
Proof. solve_decision. Defined.

(** What the comparison makes of position [i]. *)
Definition judge (bios ref : bytes) (dumitr : option nat) (compare_len i : nat) : verdict :=
  let b := default 0 (bios !! i) in
  let r := default 0 (ref !! i) in
  if b =? r then Same
  else if bool_decide (Z.of_nat i ∈ find_runtime_offsets) then InRuntime
  else if match dumitr with
          | Some p => (0 <=? Z.of_nat p - 112) && (Z.of_nat p - 112 <=? Z.of_nat i) && (i <? p)%nat
          | None => false
          end then InDpbase
  else if match dumitr with
          | Some p =>
              let pad_start := Z.of_nat p + 3 in
              let pad_end := Z.land (pad_start + 255) (Z.lnot 255) in
              (pad_start <=? Z.of_nat i) && (Z.of_nat i <? Z.min pad_end (Z.of_nat compare_len))
          | None => false
          end then Padding
  else if (b =? 0) && negb (r =? 0) then Padding
  else Different.

(** The exit status; [bios_offset] and [ref_offset] from the command line. *)
Definition compare_bios (hexfile : str) (ref_full : bytes) (bios_offset ref_offset : nat) : outcome Z :=
  binary ← hex_to_bin hexfile;
  let ref := drop ref_offset ref_full in
  let bios := drop bios_offset (fst binary) in
  let compare_len := Nat.min (length bios) (length ref) in
  if (compare_len =? 0)%nat then Ret 1 else
  let bios_base := if (bios_offset =? Z.to_nat 1408)%nat then 55808 else 57856 in
  let dumitr := find_dpbase_offset bios bios_base in
  if forallb (fun i => negb (bool_decide (judge bios ref dumitr compare_len i = Different))) (seq 0 compare_len)
  then Ret 0 else Ret 1.

(** ** extract_bios.py *)

Definition DISPLAY_BUFFER : Z := 63488.

(** [while end > base and d[end - 1] == 0], in at most [fuel] steps. *)
Fixpoint trim_end (fuel : nat) (d : bytes) (base end_ : Z) : outcome Z :=
  match fuel with
  | O => Ret end_
  | S fuel' =>
      if base <? end_ then
        b ← index d (Z.to_nat (end_ - 1));
        if b =? 0 then trim_end fuel' d base (end_ - 1) else Ret end_
      else Ret end_
  end.

Definition extract_bios (d : bytes) (base : Z) : outcome bytes :=
  end_ ← trim_end (Z.to_nat (DISPLAY_BUFFER - base)) d base DISPLAY_BUFFER;
  Ret (takeZ (end_ - base) (dropZ base d)).

Example verify_small :
  verify_58k (to_hex [1; 2; 3] 57472) [1; 2; 3; 4] = Ret 0 /\ verify_58k (to_hex [1; 2; 3] 57472) [1; 9; 3; 4] = Ret 1.
Proof. vm_compute. done. Qed.


(** ** Lemmas *)

(** [data] stored from [addr] on, and records stored in order. *)
Fixpoint laid_at (addr : Z) (data : bytes) (m : gmap Z Z) : gmap Z Z :=
  match data with [] => m | b :: data' => laid_at (addr + 1) data' (<[addr := b]> m) end.
Definition laid_records (rs : list (Z * bytes)) (m : gmap Z Z) : gmap Z Z := foldl (fun m r => laid_at (fst r) (snd r) m) m rs.

Lemma hex_bytes_slice a n l : slice (1 + 2 * a) (1 + 2 * a + 2 * n) (58 :: hex_bytes l) = hex_bytes (take n (drop a l)).
Proof.
  unfold slice. replace (1 + 2 * a + 2 * n - (1 + 2 * a))%nat with (2 * n)%nat by lia. change (drop (1 + 2 * a) (58 :: hex_bytes l)) with (drop (2 * a) (hex_bytes l)).
  revert l. induction a as [|a IH]; intros l.
  - change (2 * 0)%nat with 0%nat. rewrite !drop_0. revert l. induction n as [|n IH]; intros l; [done|]. destruct l as [|b l]; [done|].
    replace (2 * S n)%nat with (S (S (2 * n))) by lia. unfold hex_bytes in *. cbn [map concat app take]. rewrite IH. done.
  - destruct l as [|b l]; [change (hex_bytes []) with (@nil Z); by rewrite !drop_nil, !take_nil|]. replace (2 * S a)%nat with (S (S (2 * a))) by lia.
    unfold hex_bytes in *. cbn [map concat app drop]. apply IH.
Qed.

Lemma int16_byte b : is_byte b -> int16 (hex_bytes [b]) = Ret b.
Proof. intros H. rewrite int16_bytes; [done|by constructor|done]. Qed.

Lemma data_bytes_ok line addr data m : all_bytes data ->
  (forall i b, data !! i = Some b -> slice (9 + i * 2) (11 + i * 2) line = hex_bytes [b]) ->
  data_bytes line addr (zlength data) m = Ret (laid_at addr data m).
Proof.
  intros Hd Hs. unfold data_bytes, zlength. rewrite Nat2Z.id.
  enough (forall k d m, all_bytes d -> (forall i b, d !! i = Some b -> slice (9 + (k + i) * 2) (11 + (k + i) * 2) line = hex_bytes [b]) ->
    foldl (fun acc i => d ← acc; v ← int16 (slice (9 + i * 2) (11 + i * 2) line); Ret (<[addr + Z.of_nat i := v]> d))
      (Ret m) (seq k (length d)) = Ret (laid_at (addr + Z.of_nat k) d m)) as H.
  { rewrite (H 0%nat data m Hd Hs). by rewrite Z.add_0_r. }
  clear. intros k d. revert k. induction d as [|b d IH]; intros k m Hd Hs; [done|]. apply Forall_cons in Hd as [Hb Hd].
  cbn [length seq foldl mbind outcome_bind laid_at]. pose proof (Hs 0%nat b eq_refl) as H0. rewrite Nat.add_0_r in H0. rewrite H0.
  rewrite int16_byte by done. cbn [mbind outcome_bind].
  rewrite (IH (S k)); [by replace (addr + Z.of_nat (S k)) with (addr + Z.of_nat k + 1) by lia|done|].
  intros i x Hi. specialize (Hs (S i) x Hi). by replace (S k + i)%nat with (k + S i)%nat by lia.
Qed.

Lemma hex_line_record t addr data m : record_ok t addr data ->
  hex_line (record_line t addr data) m = Ret (if t =? 0 then (laid_at addr data m, false) else (m, t =? 1)).
Proof.
  intros H. pose proof (record_all_bytes _ _ _ H) as Hb. destruct H as (Hr & Ha & Hd & Hl). unfold hex_line, record_line.
  rewrite strip_clean; [|done|].
  2: { apply hex_bytes_chars; [done|]. intros d Hd'. by apply hexval_hexdig. }
  set (body := record_bytes t addr data) in *.
  assert (Hbody : body = [zlength data; Z.shiftr addr 8; Z.land addr 255; t] ++ data ++ [u8 (- zsum ([zlength data; Z.shiftr addr 8; Z.land addr 255; t] ++ data))])
    by (unfold body, record_bytes; by rewrite <- app_assoc).
  rewrite (hex_bytes_slice 0 1), (hex_bytes_slice 1 2), (hex_bytes_slice 3 1).
  assert (take 1 (drop 0 body) = [zlength data] /\ take 2 (drop 1 body) = [Z.shiftr addr 8; Z.land addr 255] /\ take 1 (drop 3 body) = [t])
    as (-> & -> & ->) by (rewrite Hbody; done).
  pose proof (high_byte addr Ha) as [Hh _].
  assert (Hn : is_byte (zlength data)) by (pose proof (zlength_pos data); unfold is_byte; lia).
  rewrite (int16_byte (zlength data) Hn), (int16_byte t Hr).
  rewrite int16_bytes; [|by repeat constructor; try apply Hh; apply u8_range|done]. cbn [foldl mbind outcome_bind]. rewrite Z.mul_0_l, Z.add_0_l.
  assert (Z.shiftr addr 8 * 256 + Z.land addr 255 = addr) as ->.
  { pose proof (lor_address addr Ha) as E. rewrite Z.lor_comm, lor_shiftl in E by first [done|apply u8_range]. change (2 ^ 8) with 256 in E. rewrite Z.add_comm. exact E. }
  destruct (t =? 0); [|done]. rewrite data_bytes_ok; [done|done|]. intros i b Hi.
  replace (9 + i * 2)%nat with (1 + 2 * (4 + i))%nat by lia. replace (11 + i * 2)%nat with (1 + 2 * (4 + i) + 2 * 1)%nat by lia.
  rewrite hex_bytes_slice. f_equal. rewrite Hbody. change (drop (4 + i) ([zlength data; Z.shiftr addr 8; Z.land addr 255; t] ++ ?x)) with (drop i x).
  pose proof (lookup_lt_Some _ _ _ Hi). rewrite drop_app_le by lia. by rewrite (drop_S _ _ _ Hi).
Qed.

Definition data_records (rs : list (Z * bytes)) : Prop := Forall (fun r => record_ok 0 (fst r) (snd r)) rs.

(** A file of data records, the terminator and anything after it. *)
Definition hex_file (sep : str) (rs : list (Z * bytes)) (more : list str) : str :=
  join sep (map (fun r => record_line 0 (fst r) (snd r)) rs ++ [intel_eof] ++ more) ++ sep.

Lemma hex_dict_file sep rs more : newline sep -> data_records rs -> Forall clean more ->
  hex_dict (hex_file sep rs more) = Ret (laid_records rs ∅).
Proof.
  intros Hs Hr Hm. unfold hex_dict, hex_file.
  assert (Hc : Forall clean (map (fun r => record_line 0 (fst r) (snd r)) rs ++ [intel_eof] ++ more)).
  { rewrite !Forall_app. split_and!; [|repeat constructor; decided|done]. apply Forall_map. eapply Forall_impl; [exact Hr|].
    intros r H. by apply record_clean. }
  destruct (map (fun r => record_line 0 (fst r) (snd r)) rs ++ [intel_eof] ++ more) as [|l ls] eqn:E; [by destruct rs|].
  rewrite split_lines by done. rewrite <- E. clear E l ls Hc. generalize (∅ : gmap Z Z). rewrite <- app_assoc.
  induction Hr as [|[a d] rs Hr Hrs IH]; intros m; cbn [map app hex_lines].
  - assert (hex_line intel_eof m = Ret (m, true)) as -> by reflexivity. done.
  - rewrite hex_line_record by done. cbn [mbind outcome_bind fst snd]. change (0 =? 0) with true. cbn [fst snd]. apply IH.
Qed.

(** *** Comparing *)

Definition mismatch (base : Z) (d : gmap Z Z) (ref : bytes) (i : nat) : Prop :=
  exists v, d !! (base + Z.of_nat i) = Some v /\ v <> default 0 (ref !! i).

Lemma compare_at_agree base d ref : status_of (compare_at base d ref) = 0 <->
  forall i b v, ref !! i = Some b -> d !! (base + Z.of_nat i) = Some v -> v = b.
Proof.
  unfold compare_at.
  assert (H : forall l acc, 0 <= snd acc ->
    let r := foldl (fun acc i => match d !! (base + Z.of_nat i) with
      | Some v => (fst acc + 1, if v =? default 0 (ref !! i) then snd acc else snd acc + 1) | None => acc end) acc l in
    0 <= snd r /\ (snd r = 0 <-> snd acc = 0 /\ forall i, i ∈ l -> ~ mismatch base d ref i)).
  { intros l. induction l as [|i l IH]; intros acc Ha; cbn [foldl].
    - split; [done|]. split; [intros H; split; [done|by intros i ?%elem_of_nil]|by intros [? _]].
    - unfold mismatch at 1. destruct (d !! (base + Z.of_nat i)) as [v|] eqn:E.
      + destruct (Z.eqb_spec v (default 0 (ref !! i))) as [Ev|Ev].
        * destruct (IH (fst acc + 1, snd acc) Ha) as [H1 H2]. split; [done|]. rewrite H2. cbn [snd].
          split; intros [H3 H4]; (split; [done|]); intros j Hj; [apply elem_of_cons in Hj as [->|Hj]|]; try (by apply H4; try right).
          intros (w & Hw & Hne). rewrite E in Hw. injection Hw as <-. done.
        * destruct (IH (fst acc + 1, snd acc + 1) ltac:(cbn; lia)) as [H1 H2]. split; [done|]. rewrite H2. cbn [snd].
          split; intros [H3 H4]; [lia|]. exfalso. apply (H4 i); [by left|]. by exists v.
      + destruct (IH acc Ha) as [H1 H2]. split; [done|]. rewrite H2.
        split; intros [H3 H4]; (split; [done|]); intros j Hj; [apply elem_of_cons in Hj as [->|Hj]|]; try (by apply H4; try right).
        intros (w & Hw & _). congruence. }
  destruct (H (seq 0 (length ref)) (0, 0) ltac:(done)) as [H1 H2]. cbn zeta in *.
  set (r := foldl _ _ _) in *. unfold status_of. destruct (Z.eqb_spec (snd r) 0) as [E|E].
  - split; [|done]. intros _ i b v Hb Hv. apply H2 in E as [_ E]. destruct (Z.eq_dec v b) as [|Hne]; [done|]. exfalso.
    apply (E i). { rewrite list_elem_of_In, in_seq. apply lookup_lt_Some in Hb. lia. } exists v. by rewrite Hb.
  - split; [done|]. intros Hall. exfalso. apply E, H2. split; [done|]. intros i Hi (v & Hv & Hne).
    rewrite list_elem_of_In, in_seq in Hi. destruct (lookup_lt_is_Some_2 ref i ltac:(lia)) as [b Hb]. rewrite Hb in Hne.
    apply Hne. by apply (Hall i b v).
Qed.

(** *** The extremes of the addresses *)

Lemma foldr_min_spec a l : Forall (fun x => foldr Z.min a l <= x) (a :: l) /\ foldr Z.min a l ∈ a :: l.
Proof.
  induction l as [|b l [IH1 IH2]]; [split; [by repeat constructor|by left]|]. cbn [foldr]. apply Forall_cons in IH1 as [Ha IH1]. split.
  - repeat constructor; [lia|lia|]. eapply Forall_impl; [exact IH1|]. cbn. lia.
  - apply elem_of_cons in IH2. destruct (Z.min_spec b (foldr Z.min a l)) as [[_ ->]|[_ ->]]; [right; by left|]. destruct IH2 as [->|?]; [by left|]. right; by right.
Qed.

Lemma foldr_max_spec a l : Forall (fun x => x <= foldr Z.max a l) (a :: l).
Proof.
  induction l as [|b l IH]; [by repeat constructor|]. cbn [foldr]. apply Forall_cons in IH as [Ha IH].
  repeat constructor; [lia|lia|]. eapply Forall_impl; [exact IH|]. cbn. lia.
Qed.

Lemma dict_bounds d k v : d !! k = Some v -> dict_min d <= k <= dict_max d.
Proof.
  intros Hk. apply elem_of_map_to_list in Hk.
  assert (Hin : k ∈ map fst (map_to_list d)) by (apply list_elem_of_fmap; by exists (k, v)).
  unfold dict_min, dict_max. destruct (map fst (map_to_list d)) as [|a l]; [by apply elem_of_nil in Hin|].
  destruct (foldr_min_spec a l) as [Hmin _]. pose proof (foldr_max_spec a l) as Hmax.
  split; [by apply (proj1 (Forall_forall _ _) Hmin)|by apply (proj1 (Forall_forall _ _) Hmax)].
Qed.

Lemma laid_at_bytes addr data m : all_bytes data -> map_Forall (fun _ v => is_byte v) m -> map_Forall (fun _ v => is_byte v) (laid_at addr data m).
Proof.
  intros Hd. revert addr m. induction Hd as [|b data Hb Hd IH]; intros addr m Hm; [done|]. cbn [laid_at]. apply IH. by apply map_Forall_insert_2.
Qed.

Lemma laid_records_bytes rs m : data_records rs -> map_Forall (fun _ v => is_byte v) m -> map_Forall (fun _ v => is_byte v) (laid_records rs m).
Proof.
  intros Hr. revert m. induction Hr as [|r rs (_ & _ & Hd & _) Hr IH]; intros m Hm; [done|]. unfold laid_records in *. cbn [foldl].
  apply IH. by apply laid_at_bytes.
Qed.

(** [hex_to_bin]: every byte of the file at its place, zeros between. *)
Lemma hex_to_bin_file sep rs more : newline sep -> data_records rs -> Forall clean more -> laid_records rs ∅ <> ∅ ->
  exists l a, hex_to_bin (hex_file sep rs more) = Ret (l, a) /\
    (forall k v, laid_records rs ∅ !! k = Some v -> a <= k /\ l !! Z.to_nat (k - a) = Some v) /\
    (forall i b, l !! i = Some b -> b = default 0 (laid_records rs ∅ !! (a + Z.of_nat i))).
Proof.
  intros Hs Hr Hm Hne. unfold hex_to_bin. rewrite hex_dict_file by done. cbn [mbind outcome_bind].
  set (d := laid_records rs ∅) in *. rewrite decide_False by done.
  rewrite bool_decide_eq_true_2 by (apply laid_records_bytes; [done|apply map_Forall_empty]).
  eexists _, _. split; [done|]. set (f := fun k => default 0 (d !! (dict_min d + k))).
  assert (Hl : forall i, (map f (seqZ 0 (dict_max d - dict_min d + 1))) !! i
    = if decide (Z.of_nat i < dict_max d - dict_min d + 1) then Some (f (Z.of_nat i)) else None).
  { intros i. change (map f (seqZ 0 (dict_max d - dict_min d + 1))) with (f <$> seqZ 0 (dict_max d - dict_min d + 1)). rewrite list_lookup_fmap.
    destruct (decide _) as [H|H].
    - rewrite lookup_seqZ_lt by lia. cbn. by rewrite Z.add_0_l.
    - by rewrite lookup_seqZ_ge by lia. }
  split.
  - intros k v Hk. destruct (dict_bounds d k v Hk) as [H1 H2]. split; [done|]. rewrite Hl, decide_True by lia.
    unfold f. rewrite Z2Nat.id by lia. replace (dict_min d + (k - dict_min d)) with k by lia. by rewrite Hk.
  - intros i b. rewrite Hl. destruct (decide _); [|done]. by intros [= <-].
Qed.

(** *** DUMITR *)

Definition dumitr_at (bios : bytes) (bios_base : Z) (p : nat) : bool :=
  let after := (p + 3)%nat in
  let boundary := Z.land (bios_base + Z.of_nat after + 255) (Z.lnot 255) in
  let pad_len := Z.to_nat (boundary - (bios_base + Z.of_nat after)) in
  bool_decide (take 3 (drop p bios) = EI_RETI) &&
  ((after + pad_len <=? length bios)%nat && forallb (fun b => b =? 0) (slice after (after + pad_len) bios)).

Lemma find_from_first l pos :
  match find_from EI_RETI l pos with
  | Some p => exists k, p = (pos + k)%nat /\ (k < length l)%nat /\ take 3 (drop k l) = EI_RETI /\ forall j, (j < k)%nat -> take 3 (drop j l) <> EI_RETI
  | None => forall j, take 3 (drop j l) <> EI_RETI
  end.
Proof.
  revert pos. induction l as [|b l IH]; intros pos; cbn [find_from].
  - rewrite bool_decide_eq_false_2 by done. intros j. by rewrite drop_nil.
  - change (length EI_RETI) with 3%nat. case_bool_decide as E.
    + exists 0%nat. split_and!; [lia|cbn; lia|done|intros j Hj; lia].
    + specialize (IH (S pos)). destruct (find_from EI_RETI l (S pos)) as [p|].
      * destruct IH as (k & -> & Hk & Ht & Hf). exists (S k). split_and!; [lia|cbn; lia|done|].
        intros [|j] Hj; [done|]. apply Hf. lia.
      * intros [|j]; [done|]. apply IH.
Qed.

Lemma find_bytes_first bios pos : (pos <= length bios)%nat ->
  match find_bytes EI_RETI bios pos with
  | Some p => (pos <= p < length bios)%nat /\ take 3 (drop p bios) = EI_RETI /\ forall j, (pos <= j < p)%nat -> take 3 (drop j bios) <> EI_RETI
  | None => forall j, (pos <= j)%nat -> take 3 (drop j bios) <> EI_RETI
  end.
Proof.
  intros Hp. unfold find_bytes. rewrite (proj2 (Nat.ltb_ge _ _)) by lia. pose proof (find_from_first (drop pos bios) pos) as H.
  destruct (find_from EI_RETI (drop pos bios) pos) as [p|].
  - destruct H as (k & -> & Hk & Ht & Hf). rewrite length_drop in Hk. rewrite drop_drop in Ht. split_and!; [lia|lia|done|].
    intros j Hj E. apply (Hf (j - pos)%nat); [lia|]. rewrite drop_drop. by replace (pos + (j - pos))%nat with j by lia.
  - intros j Hj E. apply (H (j - pos)%nat). rewrite drop_drop. by replace (pos + (j - pos))%nat with j by lia.
Qed.

(** The search ends with the first DUMITR that is followed by the padding. *)
Lemma find_dumitr_first bios base fuel : forall pos, (length bios < fuel + pos)%nat -> (pos <= length bios)%nat ->
  match find_dumitr fuel bios base pos with
  | Some p => dumitr_at bios base p = true /\ forall q, (pos <= q < p)%nat -> dumitr_at bios base q = false
  | None => forall q, (pos <= q)%nat -> dumitr_at bios base q = false
  end.
Proof.
  induction fuel as [|fuel IH]; intros pos Hf Hp; [lia|]. cbn [find_dumitr]. pose proof (find_bytes_first bios pos Hp) as H.
  assert (Hno : forall q, take 3 (drop q bios) <> EI_RETI -> dumitr_at bios base q = false)
    by (intros q Hq; unfold dumitr_at; by rewrite bool_decide_eq_false_2).
  destruct (find_bytes EI_RETI bios pos) as [p|]; [|intros q Hq; by apply Hno, H].
  destruct H as (Hpp & Ht & Hfirst). destruct (_ && _) eqn:E.
  - split; [unfold dumitr_at; rewrite bool_decide_eq_true_2 by done; exact E|]. intros q Hq. by apply Hno, Hfirst.
  - assert (Hpn : dumitr_at bios base p = false) by (unfold dumitr_at; rewrite bool_decide_eq_true_2 by done; exact E).
    specialize (IH (S p) ltac:(lia) ltac:(lia)). destruct (find_dumitr fuel bios base (S p)) as [p'|].
    + destruct IH as [H1 H2]. split; [done|]. intros q Hq. destruct (decide (q < p)%nat); [apply Hno, Hfirst; lia|].
      destruct (decide (q = p)) as [->|]; [done|]. apply H2. lia.
    + intros q Hq. destruct (decide (q < p)%nat); [apply Hno, Hfirst; lia|]. destruct (decide (q = p)) as [->|]; [done|]. apply IH. lia.
Qed.

Lemma dumitr_iff bios base p : find_dpbase_offset bios base = Some p <->
  dumitr_at bios base p = true /\ forall q, (q < p)%nat -> dumitr_at bios base q = false.
Proof.
  pose proof (find_dumitr_first bios base (S (length bios)) 0 ltac:(lia) ltac:(lia)) as H. unfold find_dpbase_offset.
  destruct (find_dumitr (S (length bios)) bios base 0) as [p'|].
  - destruct H as [H1 H2]. split.
    + intros [= <-]. split; [done|]. intros q Hq. apply H2. lia.
    + intros [H3 H4]. f_equal. destruct (Nat.lt_trichotomy p p') as [Hl|[->|Hl]]; [|done|].
      * rewrite H2 in H3 by lia. done.
      * rewrite H4 in H1 by lia. done.
  - split; [done|]. intros [H3 _]. rewrite H in H3 by lia. done.
Qed.

Definition excused (dumitr : option nat) (i : nat) : Prop :=
  exists p, dumitr = Some p /\ ((Z.of_nat p - 112 <= Z.of_nat i < Z.of_nat p /\ 112 <= Z.of_nat p) \/
    Z.of_nat p + 3 <= Z.of_nat i < Z.land (Z.of_nat p + 3 + 255) (Z.lnot 255)).

Lemma judge_ok bios ref dumitr n i b x : (i < n)%nat -> bios !! i = Some b -> ref !! i = Some x ->
  judge bios ref dumitr n i <> Different <-> b = x \/ b = 0 \/ Z.of_nat i ∈ find_runtime_offsets \/ excused dumitr i.
Proof.
  intros Hi Hb Hx. unfold judge. rewrite Hb, Hx. cbn [from_option id]. unfold excused.
  destruct (Z.eqb_spec b x) as [->|Hbx]; [by split; [left|]|].
  case_bool_decide as Hr; [by split; [right; right; left|]|].
  destruct dumitr as [p|].
  - destruct ((0 <=? Z.of_nat p - 112) && (Z.of_nat p - 112 <=? Z.of_nat i) && (i <? p)%nat) eqn:E1.
    { split; [intros _|done]. right; right; right. exists p. split; [done|]. left.
      rewrite !andb_true_iff, !Z.leb_le, Nat.ltb_lt in E1. lia. }
    destruct ((Z.of_nat p + 3 <=? Z.of_nat i) && (Z.of_nat i <? Z.min (Z.land (Z.of_nat p + 3 + 255) (Z.lnot 255)) (Z.of_nat n))) eqn:E2.
    { split; [intros _|done]. right; right; right. exists p. split; [done|]. right.
      rewrite andb_true_iff, Z.leb_le, Z.ltb_lt in E2. lia. }
    destruct (Z.eqb_spec b 0) as [->|H0]; cbn [andb].
    { rewrite (proj2 (Z.eqb_neq x 0)) by lia. split; [by right; left|done]. }
    split; [done|]. apply not_true_iff_false in E1, E2. rewrite !andb_true_iff, !Z.leb_le, Nat.ltb_lt in E1. rewrite andb_true_iff, Z.leb_le, Z.ltb_lt in E2.
    intros [?|[?|[?|(q & [= <-] & [Hq|Hq])]]]; [done..| |]; exfalso; [apply E1|apply E2]; lia.
  - destruct (Z.eqb_spec b 0) as [->|H0]; cbn [andb].
    { rewrite (proj2 (Z.eqb_neq x 0)) by lia. split; [by right; left|done]. }
    split; [done|]. intros [?|[?|[?|(q & [=] & _)]]]; done.
Qed.

Lemma judged_zero bios ref dumitr : let n := Nat.min (length bios) (length ref) in
  (if (n =? 0)%nat then Ret 1 else
   if forallb (fun i => negb (bool_decide (judge bios ref dumitr n i = Different))) (seq 0 n) then Ret 0 else Ret 1) = Ret 0 <->
  n <> 0%nat /\ forall i b x, (i < n)%nat -> bios !! i = Some b -> ref !! i = Some x ->
    b = x \/ b = 0 \/ Z.of_nat i ∈ find_runtime_offsets \/ excused dumitr i.
Proof.
  intros n. destruct (Nat.eqb_spec n 0) as [E|E]; [by split; [|intros [? _]]|].
  destruct (forallb _ _) eqn:F.
  - split; [intros _; split; [done|]|done]. intros i b x Hi Hb Hx. rewrite forallb_forall in F. specialize (F i ltac:(apply in_seq; lia)).
    apply negb_true_iff, bool_decide_eq_false in F. by apply (judge_ok bios ref dumitr n i b x).
  - split; [done|]. intros [_ Hall]. exfalso. apply not_true_iff_false in F. apply F, forallb_forall. intros i Hi%in_seq.
    apply negb_true_iff, bool_decide_eq_false.
    destruct (lookup_lt_is_Some_2 bios i ltac:(unfold n in *; lia)) as [b Hb], (lookup_lt_is_Some_2 ref i ltac:(unfold n in *; lia)) as [x Hx].
    apply (judge_ok bios ref dumitr n i b x ltac:(lia) Hb Hx). apply (Hall i b x); [lia|done|done].
Qed.

(** *** Trimming *)

Lemma trim_end_ok d base fuel : forall e, (Z.to_nat (e - base) <= fuel)%nat -> 0 <= base -> e <= zlength d ->
  exists e', trim_end fuel d base e = Ret e' /\ (base <= e -> base <= e' <= e) /\
    (forall k, e' <= k < e -> d !! Z.to_nat k = Some 0) /\ (base < e' -> d !! Z.to_nat (e' - 1) <> Some 0).
Proof.
  induction fuel as [|fuel IH]; intros e Hf Hb He; cbn [trim_end].
  - exists e. split_and!; [done|lia|lia|lia].
  - destruct (Z.ltb_spec base e) as [Hlt|Hge].
    + destruct (lookup_lt_is_Some_2 d (Z.to_nat (e - 1))) as [b Hd]; [unfold zlength in He; lia|].
      rewrite (index_in _ _ _ Hd). cbn [mbind outcome_bind]. destruct (Z.eqb_spec b 0) as [->|Hne].
      * destruct (IH (e - 1)) as (e' & -> & H1 & H2 & H3); [lia..|]. exists e'. split_and!; [done|lia| |done].
        intros k Hk. destruct (Z.eq_dec k (e - 1)) as [->|]; [done|]. apply H2. lia.
      * exists e. split_and!; [done|lia|lia|]. intros _ E. congruence.
    + exists e. split_and!; [done|lia|lia|lia].
Qed.

(** ** Properties *)

(** C22: what a matching BIOS is.  The dictionary of a HEX file of data records, with
    any line ends and anything after the terminator, holds each record's bytes at
    its addresses, a later record's over an earlier one's; verify_bios.py's binary
    holds them from the lowest address on, with zeros between.  The scripts that
    compare by address end with status 0 exactly when every byte the file has for an
    address of the reference is the reference's; so a file without any such byte
    matches every reference.  verify_bios.py ends with status 0 exactly when there
    is something to compare and every byte is the reference's, or at a run-time
    position, in the 112 bytes before DUMITR, in the padding behind it, or a zero,
    whatever the reference has there; DUMITR is the first EI, RETI followed by
    zeros up to a multiple of 256.  extract_bios.py takes the dump's bytes from the
    base to the last that is not zero before the display buffer. *)
Theorem matching_bios sep rs more bios_offset ref_offset ref dump base :
  newline sep -> data_records rs -> Forall clean more -> 0 <= base <= DISPLAY_BUFFER -> DISPLAY_BUFFER <= zlength dump ->
  let d := laid_records rs ∅ in
  let file := hex_file sep rs more in
  let agrees b r := forall i x v, r !! i = Some x -> d !! (b + Z.of_nat i) = Some v -> v = x in
  hex_dict file = Ret d /\
  (d <> ∅ -> exists l a, hex_to_bin file = Ret (l, a) /\
     (forall k v, d !! k = Some v -> a <= k /\ l !! Z.to_nat (k - a) = Some v) /\
     (forall i b, l !! i = Some b -> b = default 0 (d !! (a + Z.of_nat i)))) /\
  ((verify_58k file ref = Ret 0 <-> agrees 57472 ref) /\
   (verify_rc702e file ref (chars "--mini") = Ret 0 <-> agrees 55040 ref) /\
   (verify_rc702e file ref (chars "--qd") = Ret 0 <-> agrees 54400 ref) /\
   (verify_rc703 file ref (chars "--full") = Ret 0 <-> agrees 54400 ref) /\
   (verify_rc703 file ref (chars "--code") = Ret 0 <-> agrees 54400 (takeZ 5504 ref)) /\
   verify_58k (hex_file sep [] more) ref = Ret 0) /\
  (forall l a, hex_to_bin file = Ret (l, a) ->
     let bios := drop bios_offset l in
     let r := drop ref_offset ref in
     let n := Nat.min (length bios) (length r) in
     let dumitr := find_dpbase_offset bios (if (bios_offset =? Z.to_nat 1408)%nat then 55808 else 57856) in
     compare_bios file ref bios_offset ref_offset = Ret 0 <->
     n <> 0%nat /\ forall i b x, (i < n)%nat -> bios !! i = Some b -> r !! i = Some x ->
       b = x \/ b = 0 \/ Z.of_nat i ∈ find_runtime_offsets \/
       exists p, dumitr = Some p /\ ((Z.of_nat p - 112 <= Z.of_nat i < Z.of_nat p /\ 112 <= Z.of_nat p) \/
         Z.of_nat p + 3 <= Z.of_nat i < Z.land (Z.of_nat p + 3 + 255) (Z.lnot 255))) /\
  (forall bios b p, find_dpbase_offset bios b = Some p <->
     dumitr_at bios b p = true /\ forall q, (q < p)%nat -> dumitr_at bios b q = false) /\
  (exists n, extract_bios dump base = Ret (takeZ n (dropZ base dump)) /\ 0 <= n <= DISPLAY_BUFFER - base /\
     (forall k, base + n <= k < DISPLAY_BUFFER -> dump !! Z.to_nat k = Some 0) /\
     (0 < n -> dump !! Z.to_nat (base + n - 1) <> Some 0)).
Proof.
  intros Hs Hr Hm Hb Hd d file agrees. pose proof (hex_dict_file sep rs more Hs Hr Hm) as Hdict.
  assert (Hst : forall b r, Ret (A := Z) (status_of (compare_at b d r)) = Ret 0 <-> agrees b r)
    by (intros b r; unfold agrees; rewrite <- compare_at_agree; split; [by intros [= ->]|by intros ->]).
  split_and!.
  - done.
  - intros Hne. by apply hex_to_bin_file.
  - unfold verify_58k. fold file in Hdict. rewrite Hdict. apply Hst.
  - unfold verify_rc702e. fold file in Hdict. rewrite Hdict. apply Hst.
  - unfold verify_rc702e. fold file in Hdict. rewrite Hdict. apply Hst.
  - unfold verify_rc703. fold file in Hdict. rewrite Hdict. apply Hst.
  - unfold verify_rc703. fold file in Hdict. rewrite Hdict. apply Hst.
  - unfold verify_58k. rewrite (hex_dict_file sep [] more Hs ltac:(constructor) Hm). cbn [mbind outcome_bind]. f_equal.
    apply compare_at_agree. intros i b v _ Hv. change (laid_records [] ∅) with (∅ : gmap Z Z) in Hv. by rewrite lookup_empty in Hv.
  - intros l a Hbin. cbv zeta. unfold compare_bios. rewrite Hbin. cbn [mbind outcome_bind fst]. apply judged_zero.
  - intros bios b p. apply dumitr_iff.
  - unfold extract_bios. destruct (trim_end_ok dump base (Z.to_nat (DISPLAY_BUFFER - base)) DISPLAY_BUFFER) as (e & -> & H1 & H2 & H3); [lia|lia|lia|].
    exists (e - base). split; [done|]. specialize (H1 ltac:(lia)). split; [lia|]. split.
    + intros k Hk. apply H2. lia.
    + intros Hn. replace (base + (e - base) - 1) with (e - 1) by lia. apply H3. lia.
Qed.

Lemma matching_bios_witness :
  verify_58k (hex_file [13; 10] [(57472, [243; 49]); (57474, [128])] []) [243; 49; 128] = Ret 0 /\
  compare_bios (hex_file [13; 10] [(57472, [243; 49]); (57474, [128])] []) [243; 49; 128] 0 0 = Ret 0.
Proof.
  pose proof (matching_bios [13; 10] [(57472, [243; 49]); (57474, [128])] [] 0 0 [243; 49; 128] (repeatZ 63488 0) 57472
    ltac:(by left) ltac:(decided) ltac:(constructor) ltac:(decided)
    ltac:(unfold zlength, repeatZ; rewrite length_replicate; unfold DISPLAY_BUFFER; lia)) as (_ & _ & (H58 & _) & Hc & _). split.
  - apply H58. intros i x v Hx Hv. destruct i as [|[|[|i]]]; vm_compute in Hx, Hv; congruence.
  - destruct (hex_to_bin (hex_file [13; 10] [(57472, [243; 49]); (57474, [128])] [])) as [[l a]|e] eqn:E; [|by vm_compute in E].
    apply (Hc l a eq_refl). assert (l = [243; 49; 128]) as -> by (vm_compute in E; congruence).
    split; [done|]. intros i b x Hi Hb Hx. left. rewrite drop_0 in Hb. change (drop 0 [243; 49; 128]) with [243; 49; 128] in Hx. congruence.
Defined.
