(* ===== verification/CpmDisk.v ===== *)
(** * Files of a CP/M mini disk: cpnos-rom/e_drive_seed/extract_polypascal.py.

    The script takes the tracks of an IMD image ([Imd.Raw.parse_imd]), puts the
    sectors of the data tracks into logical order ([linearize]), reads the
    directory ([parse_dir]) and writes every file ([extract]).  Files come out as
    the writes in their order; on the host a later write to the same name
    replaces an earlier one ([host_files]). *)

From S2P Require Import Prelude Imd.
#[local] Open Scope Z_scope.

Definition SKEW : list nat := [0; 2; 4; 6; 8; 1; 3; 5; 7]%nat.
Definition DIRBLK_SIZE : Z := 2048.
Definition BS : Z := 2048.

(** ** linearize *)

(** [{sn: data for (sn, data) in sectors}[num]]: the last of that number. *)
Fixpoint by_secnum (sectors : list (Z * bytes)) (num : Z) : outcome bytes :=
  match sectors with
  | [] => Raise KeyError
  | (sn, data) :: sectors' =>
      match by_secnum sectors' num with
      | Ret d => Ret d
      | Raise e => if sn =? num then Ret data else Raise e
      end
  end.

Fixpoint physical (sectors : list (Z * bytes)) (nums : list Z) : outcome (list bytes) :=
  match nums with
  | [] => Ret []
  | i :: nums' => d ← by_secnum sectors (i + 1); r ← physical sectors nums'; Ret (d :: r)
  end.

Definition logical (phys : list bytes) : list bytes := map (fun i => List.nth i phys []) SKEW.

Fixpoint linearize (tracks : list raw_track) : outcome bytes :=
  match tracks with
  | [] => Ret []
  | t :: tracks' =>
      if r_cyl t <? 2 then linearize tracks' else
      if negb (r_sectsize t =? 512) || negb (r_nsect t =? 9) then Raise (SystemExit 1) else
      phys ← physical (r_sectors t) [0; 1; 2; 3; 4; 5; 6; 7; 8];
      rest ← linearize tracks';
      Ret (concat (logical phys) ++ rest)
  end.

(** ** parse_dir *)

(** [c.isalnum() or c in '$-_'] of what [decode] gives. *)
Definition keep_char (c : Z) : bool :=
  ((48 <=? c) && (c <=? 57)) || ((65 <=? c) && (c <=? 90)) || ((97 <=? c) && (c <=? 122)) ||
  (c =? 36) || (c =? 45) || (c =? 95).

(** User, name and extension. *)
Definition file_key : Type := Z * str * str.
(** Extent number, record count and blocks. *)
Definition extent : Type := Z * (Z * list Z).

Definition field (a b : nat) (e : bytes) : str := rstrip_with py_space (decode_ascii (slice a b e)).

(** One turn of the loop over the directory: what it stores. *)
Definition dir_entry (e : bytes) : outcome (option (file_key * extent)) :=
  e0 ← index e 0;
  if (e0 =? 229) || (15 <? e0) then Ret None else
  let name := field 1 9 e in
  let ext := field 9 12 e in
  match name with
  | [] => Ret None
  | _ =>
      let name := List.filter keep_char name in
      let ext := List.filter keep_char ext in
      ex_lo ← index e 12;
      rc ← index e 15;
      let alloc := List.filter (fun b => negb (b =? 0)) (slice 16 32 e) in
      Ret (Some ((e0, name, ext), (ex_lo, (rc, alloc))))
  end.

(** [files.setdefault(key, {})[ex_lo] = (rc, alloc)]. *)
Fixpoint set_extent (extents : list extent) (x : extent) : list extent :=
  match extents with
  | [] => [x]
  | y :: extents' => if fst y =? fst x then x :: extents' else y :: set_extent extents' x
  end.
Fixpoint add_extent (files : list (file_key * list extent)) (k : file_key) (x : extent) : list (file_key * list extent) :=
  match files with
  | [] => [(k, [x])]
  | (k', extents) :: files' =>
      if decide (k = k') then (k', set_extent extents x) :: files' else (k', extents) :: add_extent files' k x
  end.

(** The slots of the directory. *)
Definition slots (linear : bytes) : list bytes :=
  map (fun i => slice (32 * i) (32 * i + 32) linear) (seq 0 (Z.to_nat DIRBLK_SIZE / 32)).

Fixpoint read_slots (es : list bytes) (files : list (file_key * list extent)) : outcome (list (file_key * list extent)) :=
  match es with
  | [] => Ret files
  | e :: es' =>
      r ← dir_entry e;
      read_slots es' match r with Some (k, x) => add_extent files k x | None => files end
  end.

Definition parse_dir (linear : bytes) : outcome (list (file_key * list extent)) := read_slots (slots linear) [].

(** ** extract *)

(** The order of the tuples [sorted] sees. *)
Definition key_le (a b : file_key * list extent) : bool :=
  let '((u, n, e), _) := a in
  let '((u', n', e'), _) := b in
  if u <? u' then true else if u' <? u then false
  else if decide (n = n') then str_leb e e' else str_leb n n'.

Definition out_name (k : file_key) : str :=
  let '(_, name, ext) := k in match ext with [] => name | _ => name ++ [46] ++ ext end.

Definition block (linear : bytes) (b : Z) : bytes := takeZ BS (dropZ (b * BS) linear).

(** A file's content from its extents in order. *)
Definition file_content (linear : bytes) (extents : list extent) : bytes :=
  let in_order := sort_by by_number extents in
  let all_blocks := concat (map (fun x => snd (snd x)) in_order) in
  let '(last_ex, last_rc) := match last in_order with Some (ex, (rc, _)) => (ex, rc) | None => (0, 0) end in
  takeZ (last_ex * 16384 + last_rc * 128) (concat (map (block linear) all_blocks)).

Definition extract (linear : bytes) : outcome (list (str * bytes)) :=
  files ← parse_dir linear;
  Ret (map (fun f => (out_name (fst f), file_content linear (snd f))) (sort_by key_le files)).

Definition host_files (writes : list (str * bytes)) : gmap str bytes := foldl (fun m w => <[fst w := snd w]> m) ∅ writes.

Definition extract_polypascal (imd : bytes) : outcome (list (str * bytes)) :=
  tracks ← Imd.Raw.parse_imd imd;
  linear ← linearize tracks;
  extract linear.

(** ** Disks as CP/M writes them

    A slot of the directory is unused or describes an extent of a file: user,
    name and type, extent number, record count and block numbers.  [s1] and
    [s2] are the two bytes the script does not read. *)
Inductive slot : Type :=
| Unused (e : bytes)
| Used (k : file_key) (s1 s2 : Z) (x : extent).

Definition slot_bytes (s : slot) : bytes :=
  match s with
  | Unused e => e
  | Used (u, n, e) s1 s2 (ex, (rc, bl)) =>
      u :: ljust 8 32 n ++ ljust 3 32 e ++ [ex; s1; s2; rc] ++ ljust 16 0 bl
  end.

(** Letters, digits, [$], [-] and [_]. *)
Definition plain (s : str) : Prop := Forall (fun c => keep_char c = true) s.
Definition key_ok (k : file_key) : Prop :=
  let '(u, n, e) := k in
  0 <= u <= 15 /\ plain n /\ plain e /\ (0 < length n <= 8)%nat /\ (length e <= 3)%nat.
Definition slot_ok (s : slot) : Prop :=
  match s with
  | Unused e => exists e0, e !! 0%nat = Some e0 /\ (e0 = 229 \/ 15 < e0)
  | Used k _ _ (_, (_, bl)) => key_ok k /\ Forall (fun b => 0 < b) bl /\ (length bl <= 16)%nat
  end.

(** The extents of a file among the slots, in the order of the slots. *)
Definition extents_in (k : file_key) (ss : list slot) : list extent :=
  omap (fun s => match s with Used k' _ _ x => if decide (k' = k) then Some x else None | Unused _ => None end) ss.

(** How CP/M describes [recs] records of 128 bytes in the blocks [bl]: a slot
    holds 16 blocks, which are two logical extents of 128 records. *)
Fixpoint extents_from (n : nat) (i recs : Z) (bl : list Z) : list extent :=
  match n with
  | O => [(2 * i + (if 128 <? recs then 1 else 0), (if 128 <? recs then recs - 128 else recs, bl))]
  | S n' => (2 * i + 1, (128, take 16 bl)) :: extents_from n' (i + 1) (recs - 256) (drop 16 bl)
  end.
Definition file_extents (recs : Z) (bl : list Z) : list extent :=
  extents_from (Z.to_nat ((recs - 1) / 256)) 0 recs bl.

Record cpm_file : Type := CpmFile { f_key : file_key; f_blocks : list Z; f_data : bytes }.

(** The blocks lie on the disk, and byte [i] of the file is byte [i mod 2048] of
    its block number [i / 2048]. *)
Definition holds (linear : bytes) (bl : list Z) (data : bytes) : Prop :=
  Forall (fun b => 0 <= b /\ (b + 1) * BS <= zlength linear) bl /\
  forall i x, data !! i = Some x ->
    exists b, bl !! (i / Z.to_nat BS)%nat = Some b /\ linear !! (Z.to_nat (b * BS) + i mod Z.to_nat BS)%nat = Some x.

Record file_on (linear : bytes) (ss : list slot) (f : cpm_file) : Prop := FileOn {
  on_records : (128 | zlength (f_data f));
  on_slots : extents_in (f_key f) ss ≡ₚ file_extents (zlength (f_data f) / 128) (f_blocks f);
  on_blocks : holds linear (f_blocks f) (f_data f) }.

Record disk_ok (linear : bytes) (ss : list slot) (files : list cpm_file) : Prop := DiskOk {
  disk_slots : slots linear = map slot_bytes ss;
  disk_slots_ok : Forall slot_ok ss;
  disk_files : Forall (file_on linear ss) files;
  disk_keys : NoDup (map f_key files);
  disk_all : forall k s1 s2 x, Used k s1 s2 x ∈ ss -> k ∈ map f_key files }.

(** A data track holds nine pieces of 512 bytes; piece [i] is in the sector whose
    number is one more than [SKEW[i]], wherever that sector is on the track. *)
Definition data_track (t : track) (pieces : list bytes) : Prop :=
  t_size t = 512 /\ t_nsect t = 9 /\ length pieces = 9%nat /\
  sectors_of t ≡ₚ zip (map (fun s => Z.of_nat s + 1) SKEW) pieces.

(** The tracks of an image and what its data tracks hold, in the order of the
    file. *)
Inductive area : list track -> bytes -> Prop :=
| area_nil : area [] []
| area_system t ts l : t_cyl t < 2 -> area ts l -> area (t :: ts) l
| area_data t ts pieces l : 2 <= t_cyl t -> data_track t pieces -> area ts l -> area (t :: ts) (concat pieces ++ l).

(** ** The directory *)

Lemma field_plain a b (l1 l2 : bytes) n s : plain s ->
  a = length l1 -> (length s <= n)%nat -> b = (a + n)%nat ->
  field a b (l1 ++ ljust n 32 s ++ l2) = s.
Proof.
  intros Hp Ha Hs Hb. unfold field. rewrite slice_app_exact; [|done|subst; unfold ljust; rewrite length_app, length_replicate; lia].
  assert (decode_ascii (ljust n 32 s) = ljust n 32 s) as ->.
  { unfold decode_ascii, ljust. rewrite map_app. f_equal.
    - rewrite <- (map_id s) at 2. apply map_ext_in. intros c Hc%list_elem_of_In.
      pose proof (proj1 (Forall_forall _ _) Hp c Hc) as H. unfold keep_char in H.
      case_match; [done|]. rewrite !orb_true_iff, !andb_true_iff in H. lia.
    - induction (n - length s)%nat as [|m IH]; [done|]. cbn [replicate map]. by rewrite IH. }
  apply rstrip_with_pad; [done|]. intros c Hc%last_Some_elem_of.
  pose proof (proj1 (Forall_forall _ _) Hp c Hc) as H. unfold keep_char, py_space in *.
  rewrite !orb_true_iff, !andb_true_iff in H. apply not_true_iff_false. rewrite orb_true_iff, !andb_true_iff. lia.
Qed.

Lemma filter_all (f : Z -> bool) l : Forall (fun c => f c = true) l -> List.filter f l = l.
Proof. induction 1 as [|c l Hc Hl IH]; [done|]. cbn. by rewrite Hc, IH. Qed.

Lemma filter_blocks n l : Forall (fun b => 0 < b) l -> List.filter (fun b => negb (b =? 0)) (ljust n 0 l) = l.
Proof.
  intros H. unfold ljust. rewrite List.filter_app, filter_all.
  - transitivity (l ++ []); [|apply app_nil_r]. f_equal. induction (n - length l)%nat as [|m IH]; [done|exact IH].
  - eapply Forall_impl; [exact H|]. intros b Hb. cbn in *. apply negb_true_iff, Z.eqb_neq. lia.
Qed.

Lemma dir_entry_slot s : slot_ok s ->
  dir_entry (slot_bytes s) = Ret match s with Used k _ _ x => Some (k, x) | Unused _ => None end.
Proof.
  destruct s as [e|[[u n] e] s1 s2 [ex [rc bl]]]; cbn [slot_ok slot_bytes].
  - intros (e0 & He & H). unfold dir_entry. rewrite (index_in _ _ _ He). mred.
    destruct (Z.eqb_spec e0 229), (Z.ltb_spec 15 e0); cbn [orb]; [done..|]. lia.
  - intros ((Hu & Hn & He & Ln & Le) & Hb & Lb). set (d := u :: _).
    assert (Ex : d = [u] ++ ljust 8 32 n ++ ljust 3 32 e ++ [ex; s1; s2; rc] ++ ljust 16 0 bl) by done.
    assert (Ey : d = ([u] ++ ljust 8 32 n) ++ ljust 3 32 e ++ [ex; s1; s2; rc] ++ ljust 16 0 bl) by (by rewrite Ex, <- app_assoc).
    assert (Ez : d = ([u] ++ ljust 8 32 n ++ ljust 3 32 e) ++ [ex; s1; s2; rc] ++ ljust 16 0 bl) by (by rewrite Ex, <- !app_assoc).
    assert (Ew : d = ([u] ++ ljust 8 32 n ++ ljust 3 32 e ++ [ex; s1; s2; rc]) ++ ljust 16 0 bl ++ []) by (by rewrite Ex, app_nil_r, <- !app_assoc).
    assert (L8 : length (ljust 8 32 n) = 8%nat) by (unfold ljust; rewrite length_app, length_replicate; lia).
    assert (L3 : length (ljust 3 32 e) = 3%nat) by (unfold ljust; rewrite length_app, length_replicate; lia).
    assert (L16 : length (ljust 16 0 bl) = 16%nat) by (unfold ljust; rewrite length_app, length_replicate; lia).
    unfold dir_entry. rewrite (index_in d 0 u) by done. mred.
    destruct (Z.eqb_spec u 229), (Z.ltb_spec 15 u); cbn [orb]; try lia.
    assert (field 1 9 d = n) as -> by (rewrite Ex; by apply field_plain; try lia).
    assert (field 9 12 d = e) as ->.
    { rewrite Ey. apply field_plain; try done; rewrite ?length_app, ?L8; done. }
    destruct n as [|c n]; [cbn in Ln; lia|]. rewrite !filter_all by done.
    assert (Hd : forall i, (i < 4)%nat -> d !! (12 + i)%nat = [ex; s1; s2; rc] !! i).
    { intros i Hi. rewrite Ez, lookup_app_r by (rewrite !length_app, L8, L3; cbn; lia).
      rewrite !length_app, L8, L3. cbn [length]. rewrite lookup_app_l by (cbn; lia). f_equal. lia. }
    rewrite (index_in d 12 ex) by (apply (Hd 0%nat); lia). mred.
    rewrite (index_in d 15 rc) by (apply (Hd 3%nat); lia). mred.
    assert (slice 16 32 d = ljust 16 0 bl) as ->.
    { rewrite Ew. apply slice_app_exact; rewrite !length_app, ?L8, ?L3, ?L16; done. }
    by rewrite filter_blocks.
Qed.

Definition enter (files : list (file_key * list extent)) (s : slot) : list (file_key * list extent) :=
  match s with Used k _ _ x => add_extent files k x | Unused _ => files end.

Lemma read_slots_entered ss : forall files, Forall slot_ok ss ->
  read_slots (map slot_bytes ss) files = Ret (foldl enter files ss).
Proof.
  induction ss as [|s ss IH]; intros files Hs; [done|]. apply Forall_cons in Hs as [H Hs].
  cbn [map read_slots foldl]. rewrite dir_entry_slot by done. mred. destruct s; by rewrite IH.
Qed.

Lemma set_extent_new xs x : fst x ∉ map fst xs -> set_extent xs x = xs ++ [x].
Proof.
  induction xs as [|y xs IH]; cbn [set_extent map]; intros Hx; [done|].
  rewrite not_elem_of_cons in Hx. destruct Hx as [Hy Hx].
  rewrite (proj2 (Z.eqb_neq _ _)) by auto. by rewrite IH.
Qed.

Lemma add_extent_fst files k x k' :
  k' ∈ map fst (add_extent files k x) <-> k' = k \/ k' ∈ map fst files.
Proof.
  induction files as [|[k0 xs0] files IH]; cbn [add_extent map fst].
  { rewrite elem_of_cons. set_solver. }
  destruct (decide (k = k0)) as [->|Hk]; cbn [map fst]; rewrite !elem_of_cons; [tauto|]. rewrite IH. tauto.
Qed.

Lemma add_extent_nodup files k x : NoDup (map fst files) -> NoDup (map fst (add_extent files k x)).
Proof.
  induction files as [|[k0 xs0] files IH]; cbn [add_extent map fst]; intros H.
  { constructor; [set_solver|constructor]. }
  apply NoDup_cons in H as [H0 H]. destruct (decide (k = k0)) as [->|Hk]; cbn [map fst]; [by constructor|].
  constructor; [|by apply IH]. rewrite add_extent_fst. intros [E|E]; congruence.
Qed.

Definition extents_of (files : list (file_key * list extent)) (k : file_key) : list extent :=
  from_option snd [] (List.find (fun f => bool_decide (fst f = k)) files).

Lemma add_extent_of files k x k' :
  extents_of (add_extent files k x) k' = if decide (k = k') then set_extent (extents_of files k) x else extents_of files k'.
Proof.
  unfold extents_of. induction files as [|[k0 xs0] files IH]; cbn [add_extent List.find fst from_option].
  { destruct (decide (k = k')) as [->|Hk]; [by rewrite bool_decide_true|by rewrite bool_decide_false]. }
  destruct (decide (k = k0)) as [->|Hk]; cbn [List.find fst].
  - rewrite (bool_decide_true (k0 = k0)) by done. destruct (decide (k0 = k')) as [->|Hk']; [by rewrite !bool_decide_true|].
    by rewrite !bool_decide_false.
  - rewrite (bool_decide_false (k0 = k)) by auto. destruct (decide (k0 = k')) as [->|Hk'].
    + rewrite bool_decide_true by done. by rewrite decide_False by auto.
    + rewrite bool_decide_false by done. rewrite IH. by destruct (decide (k = k')).
Qed.

Lemma extents_of_in files k : NoDup (map fst files) -> forall xs, (k, xs) ∈ files -> extents_of files k = xs.
Proof.
  unfold extents_of. induction files as [|[k0 xs0] files IH]; cbn [map fst]; intros H xs Hx; [by apply elem_of_nil in Hx|].
  apply NoDup_cons in H as [H0 H]. cbn [List.find fst]. apply elem_of_cons in Hx as [[= <- <-]|Hx].
  - by rewrite bool_decide_true.
  - rewrite bool_decide_false; [by apply IH|]. intros ->. apply H0. apply list_elem_of_fmap. by exists (k, xs).
Qed.

Lemma extents_of_key files k : k ∈ map fst files -> (k, extents_of files k) ∈ files.
Proof.
  unfold extents_of. induction files as [|[k0 xs0] files IH]; cbn [map fst]; intros H; [by apply elem_of_nil in H|].
  cbn [List.find fst]. destruct (decide (k0 = k)) as [->|Hk].
  - rewrite bool_decide_true by done. cbn. apply list_elem_of_here.
  - rewrite bool_decide_false by done. apply elem_of_cons. right. apply IH. apply elem_of_cons in H as [->|H]; done.
Qed.

Lemma extents_in_snoc k ss s : extents_in k (ss ++ [s]) =
  extents_in k ss ++ match s with Used k' _ _ x => if decide (k' = k) then [x] else [] | Unused _ => [] end.
Proof.
  unfold extents_in. rewrite omap_app. f_equal. destruct s as [e|k' s1 s2 x]; [done|]. cbn. by destruct (decide (k' = k)).
Qed.

Lemma entered_of ss : (forall k, NoDup (map fst (extents_in k ss))) ->
  forall k, extents_of (foldl enter [] ss) k = extents_in k ss.
Proof.
  induction ss as [|s ss IH] using rev_ind; intros H k; [done|].
  assert (H' : forall k, NoDup (map fst (extents_in k ss))).
  { intros k0. specialize (H k0). rewrite extents_in_snoc, map_app in H. by apply NoDup_app in H as [H _]. }
  rewrite foldl_app, extents_in_snoc. cbn [foldl enter]. destruct s as [e|k' s1 s2 x]; cbn [enter]; [by rewrite app_nil_r, IH|].
  rewrite add_extent_of, !IH by done. destruct (decide (k' = k)) as [->|Hk]; [|by rewrite app_nil_r].
  apply set_extent_new. specialize (H k). rewrite extents_in_snoc, decide_True, map_app in H by done.
  apply NoDup_app in H as (_ & H & _). intros Hx. apply (H _ Hx). apply list_elem_of_here.
Qed.

Lemma entered_keys ss k : k ∈ map fst (foldl enter [] ss) <-> exists s1 s2 x, Used k s1 s2 x ∈ ss.
Proof.
  induction ss as [|s ss IH] using rev_ind.
  { split; [by intros H%elem_of_nil|]. by intros (s1 & s2 & x & H%elem_of_nil). }
  rewrite foldl_app. cbn [foldl enter]. transitivity (k ∈ map fst (foldl enter [] ss) \/ exists s1 s2 x, s = Used k s1 s2 x).
  - destruct s as [e|k' s1 s2 x]; cbn [enter].
    + split; [tauto|]. intros [H|(s1 & s2 & x & H)]; done.
    + rewrite add_extent_fst. split; [intros [->|H]; [right; eauto|tauto]|].
      intros [H|(s1' & s2' & x' & [= -> -> -> ->])]; tauto.
  - rewrite IH. setoid_rewrite elem_of_app. setoid_rewrite list_elem_of_singleton. split.
    + intros [(s1 & s2 & x & H)|(s1 & s2 & x & ->)]; eauto 8.
    + intros (s1 & s2 & x & [H|<-]); eauto 8.
Qed.

Lemma entered_nodup ss : NoDup (map fst (foldl enter [] ss)).
Proof.
  induction ss as [|s ss IH] using rev_ind; [constructor|].
  rewrite foldl_app. cbn [foldl enter]. destruct s; cbn [enter]; [done|]. by apply add_extent_nodup.
Qed.

(** ** Extents and blocks *)

Lemma extents_from_ge n : forall i recs bl, Forall (fun x => 2 * i <= fst x) (extents_from n i recs bl).
Proof.
  induction n as [|n IH]; intros i recs bl; cbn [extents_from]; constructor; try constructor; cbn [fst].
  - destruct (128 <? recs); lia.
  - lia.
  - eapply Forall_impl; [apply IH|]. cbn. intros x Hx. lia.
Qed.

Lemma extents_from_sorted n : forall i recs bl, StronglySorted before (extents_from n i recs bl).
Proof.
  induction n as [|n IH]; intros i recs bl; cbn [extents_from]; constructor; try constructor; [apply IH|].
  eapply Forall_impl; [apply extents_from_ge|]. unfold before. cbn [fst]. intros x Hx. cbn in Hx. lia.
Qed.

Lemma extents_from_blocks n : forall i recs bl, concat (map (fun x => snd (snd x)) (extents_from n i recs bl)) = bl.
Proof.
  induction n as [|n IH]; intros i recs bl; cbn [extents_from map concat snd]; [apply app_nil_r|].
  rewrite IH. apply take_drop.
Qed.

Lemma extents_from_last n : forall i recs bl, exists ex rc b,
  @last (Z * (Z * list Z)) (extents_from n i recs bl) = Some (ex, (rc, b)) /\ ex * 16384 + rc * 128 = (256 * i + recs) * 128.
Proof.
  induction n as [|n IH]; intros i recs bl; cbn [extents_from].
  { eexists _, _, _. split; [reflexivity|]. destruct (128 <? recs); lia. }
  destruct (IH (i + 1) (recs - 256) (drop 16 bl)) as (ex & rc & b & E & H). exists ex, rc, b.
  rewrite last_cons, E. split; [done|]. lia.
Qed.

Lemma concat_lookup {A} m (ls : list (list A)) : (0 < m)%nat -> Forall (fun l => length l = m) ls ->
  forall i, concat ls !! i = ls !! (i / m)%nat ≫= fun l => l !! (i mod m)%nat.
Proof.
  intros Hm. induction 1 as [|l ls Hl Hls IH]; intros i; [done|]. cbn [concat].
  destruct (decide (i < m)%nat) as [Hi|Hi].
  - rewrite lookup_app_l by lia. by rewrite Nat.div_small, Nat.mod_small.
  - rewrite lookup_app_r, Hl, IH by lia.
    remember (i - m)%nat as j eqn:Ej. assert (i = j + 1 * m)%nat as -> by lia.
    rewrite Nat.div_add, Nat.Div0.mod_add by lia. by rewrite Nat.add_1_r.
Qed.

Lemma holds_content linear bl data : holds linear bl data ->
  takeZ (zlength data) (concat (map (block linear) bl)) = data.
Proof.
  intros [Hb Hd]. rewrite takeZ_take. unfold zlength at 1. rewrite Nat2Z.id. apply list_eq. intros i.
  destruct (data !! i) as [x|] eqn:E.
  2:{ apply lookup_ge_None in E. by rewrite lookup_take_ge. }
  destruct (Hd _ _ E) as (b & Eb & Ex). apply lookup_lt_Some in E. rewrite lookup_take by done.
  rewrite decide_True by done.
  rewrite (concat_lookup (Z.to_nat BS)); [|vm_compute; lia|].
  - rewrite list_lookup_fmap, Eb. cbn [fmap option_fmap option_map mbind option_bind].
    unfold block. rewrite takeZ_take, dropZ_drop, lookup_take, lookup_drop.
    rewrite decide_True; [done|]. apply Nat.mod_upper_bound. vm_compute. lia.
  - apply Forall_fmap. eapply Forall_impl; [exact Hb|]. intros b' [H1 H2]. cbn.
    unfold block. rewrite takeZ_take, dropZ_drop, length_take, length_drop. unfold zlength, BS in *. lia.
Qed.

Lemma extents_content linear ss f : file_on linear ss f -> file_content linear (extents_in (f_key f) ss) = f_data f.
Proof.
  intros [[r Hr] Hs Hb]. unfold file_content. cbv zeta.
  assert (sort_by by_number (extents_in (f_key f) ss) = file_extents (zlength (f_data f) / 128) (f_blocks f)) as ->.
  { pose proof (extents_from_sorted (Z.to_nat ((zlength (f_data f) / 128 - 1) / 256)) 0
      (zlength (f_data f) / 128) (f_blocks f)) as H.
    apply sorted_same; [|exact H|by rewrite sort_by_perm].
    apply sort_by_sorted. rewrite Hs. by apply sorted_nodup. }
  unfold file_extents. rewrite extents_from_blocks.
  destruct (extents_from_last (Z.to_nat ((zlength (f_data f) / 128 - 1) / 256)) 0
    (zlength (f_data f) / 128) (f_blocks f)) as (ex & rc & b & -> & ->).
  rewrite Hr, Z.div_mul by done. replace ((256 * 0 + r) * 128) with (zlength (f_data f)) by lia.
  by apply holds_content.
Qed.

(** ** Tracks *)

Lemma by_secnum_in l n d : NoDup (map fst l) -> (n, d) ∈ l -> by_secnum l n = Ret d.
Proof.
  induction l as [|[n' d'] l IH]; cbn [map fst]; intros H Hin; [by apply elem_of_nil in Hin|].
  apply NoDup_cons in H as [Hn H]. cbn [by_secnum].
  apply elem_of_cons in Hin as [[= <- <-]|Hin]; [|by rewrite IH].
  destruct (by_secnum l n) as [d'|e] eqn:E; [|by rewrite Z.eqb_refl].
  exfalso. apply Hn. clear IH H Hn. induction l as [|[n1 d1] l IH]; [done|]. cbn [by_secnum] in E. cbn [map fst].
  destruct (by_secnum l n) as [d2|e]; [apply elem_of_cons; right; by apply IH|].
  destruct (Z.eqb_spec n1 n) as [->|]; [apply list_elem_of_here|done].
Qed.

Lemma data_track_pieces t pieces : data_track t pieces ->
  exists phys, physical (sectors_of t) [0; 1; 2; 3; 4; 5; 6; 7; 8] = Ret phys /\ logical phys = pieces.
Proof.
  intros (_ & _ & L & P).
  assert (forall n d, (n, d) ∈ zip (map (fun s => Z.of_nat s + 1) SKEW) pieces -> by_secnum (sectors_of t) n = Ret d) as H.
  { intros n d Hin. apply by_secnum_in; [|by rewrite P].
    rewrite P. assert (map fst (zip (map (fun s => Z.of_nat s + 1) SKEW) pieces) = map (fun s => Z.of_nat s + 1) SKEW) as ->.
    { by apply fst_zip; rewrite L. }
    decided. }
  destruct pieces as [|p0 [|p1 [|p2 [|p3 [|p4 [|p5 [|p6 [|p7 [|p8 [|? ?]]]]]]]]]]; try done. clear L P.
  assert (E : forall i d, (i + 1, d) ∈ zip (map (fun s => Z.of_nat s + 1) SKEW) [p0; p1; p2; p3; p4; p5; p6; p7; p8] ->
    forall nums r, physical (sectors_of t) nums = Ret r -> physical (sectors_of t) (i :: nums) = Ret (d :: r)).
  { intros i d Hin nums r Hr. cbn [physical]. rewrite (H _ _ Hin). mred. by rewrite Hr. }
  exists [p0; p5; p1; p6; p2; p7; p3; p8; p4]. split; [|reflexivity].
  do 9 (apply E; [cbn; rewrite !elem_of_cons; eauto 20|]). reflexivity.
Qed.

Lemma linearize_area ts l : area ts l -> linearize (map as_raw ts) = Ret l.
Proof.
  induction 1 as [|t ts l Ht H IH|t ts pieces l Ht Hp H IH]; [done| |]; cbn [map linearize as_raw r_cyl r_sectsize r_nsect r_sectors].
  - by rewrite (proj2 (Z.ltb_lt _ _)).
  - rewrite (proj2 (Z.ltb_ge _ _)) by done. pose proof Hp as (-> & -> & _). cbn [negb orb Z.eqb Pos.eqb].
    destruct (data_track_pieces _ _ Hp) as (phys & -> & E). mred. by rewrite IH, E.
Qed.

Lemma linearize_geometry ts l t rest : area ts l -> 2 <= t_cyl t -> ~ (t_size t = 512 /\ t_nsect t = 9) ->
  linearize (map as_raw (ts ++ t :: rest)) = Raise (SystemExit 1).
Proof.
  intros Ha Ht Hg.
  induction Ha as [|t0 ts l Ht0 H IH|t0 ts pieces l Ht0 Hp H IH]; cbn [app map linearize as_raw r_cyl r_sectsize r_nsect r_sectors].
  - rewrite (proj2 (Z.ltb_ge _ _)) by done.
    destruct (Z.eqb_spec (t_size t) 512), (Z.eqb_spec (t_nsect t) 9); cbn [negb orb]; [tauto|done..].
  - by rewrite (proj2 (Z.ltb_lt _ _)).
  - rewrite (proj2 (Z.ltb_ge _ _)) by done. pose proof Hp as (-> & -> & _). cbn [negb orb Z.eqb Pos.eqb].
    destruct (data_track_pieces _ _ Hp) as (phys & -> & E). mred. by rewrite IH.
Qed.

(** ** The files *)

Lemma file_extents_nonempty recs bl : file_extents recs bl <> [].
Proof. unfold file_extents. by destruct (Z.to_nat _). Qed.

Lemma extents_in_used k ss x : x ∈ extents_in k ss -> exists s1 s2, Used k s1 s2 x ∈ ss.
Proof.
  unfold extents_in. intros (s & Hs & E)%list_elem_of_omap. destruct s as [e|k' s1 s2 y]; [done|].
  destruct (decide (k' = k)) as [->|]; [|done]. injection E as ->. eauto.
Qed.

Section Disk.
Context (linear : bytes) (ss : list slot) (files : list cpm_file) (D : disk_ok linear ss files).

Lemma file_of f : f ∈ files -> file_on linear ss f.
Proof. apply (proj1 (Forall_forall _ _) (disk_files _ _ _ D)). Qed.

Lemma extent_numbers k : NoDup (map fst (extents_in k ss)).
Proof.
  destruct (extents_in k ss) as [|x xs] eqn:E; [constructor|]. rewrite <- E.
  destruct (extents_in_used k ss x) as (s1 & s2 & Hu); [rewrite E; apply list_elem_of_here|].
  apply (disk_all _ _ _ D) in Hu. apply list_elem_of_fmap in Hu as (f & -> & Hf).
  rewrite (on_slots _ _ _ (file_of f Hf)). apply sorted_nodup, extents_from_sorted.
Qed.

Lemma directory_files : foldl enter [] ss ≡ₚ map (fun f => (f_key f, extents_in (f_key f) ss)) files.
Proof.
  assert (N : NoDup (map fst (foldl enter [] ss))) by apply entered_nodup.
  apply NoDup_Permutation.
  - by apply NoDup_fmap_1 in N.
  - apply (NoDup_fmap_1 fst). rewrite <- list_fmap_compose. exact (disk_keys _ _ _ D).
  - intros [k xs]. split.
    + rewrite list_elem_of_fmap. intros H. pose proof (extents_of_in _ k N xs H) as <-. rewrite entered_of by apply extent_numbers.
      assert (k ∈ map fst (foldl enter [] ss)) as Hk by (apply list_elem_of_fmap; eexists; split; [|exact H]; done).
      apply entered_keys in Hk as (s1 & s2 & x & Hk). apply (disk_all _ _ _ D), list_elem_of_fmap in Hk as (f & -> & Hf).
      by exists f.
    + intros (f & [= -> ->] & Hf)%list_elem_of_fmap. rewrite <- entered_of by apply extent_numbers. apply extents_of_key, entered_keys.
      destruct (extents_in (f_key f) ss) as [|x xs'] eqn:E.
      * pose proof (on_slots _ _ _ (file_of f Hf)) as P. rewrite E in P.
        by apply Permutation_nil, file_extents_nonempty in P.
      * destruct (extents_in_used (f_key f) ss x) as (s1 & s2 & Hu); [rewrite E; apply list_elem_of_here|]. eauto.
Qed.

Lemma extract_files : exists outs, extract linear = Ret outs /\ outs ≡ₚ map (fun f => (out_name (f_key f), f_data f)) files.
Proof.
  unfold extract, parse_dir. rewrite (disk_slots _ _ _ D), read_slots_entered by apply (disk_slots_ok _ _ _ D). mred.
  eexists. split; [reflexivity|]. rewrite sort_by_perm, directory_files, map_map. cbn [fst snd].
  match goal with |- ?a ≡ₚ ?b => enough (a = b) as E by (rewrite E; reflexivity) end.
  apply map_ext_in. intros f Hf%list_elem_of_In. by rewrite (extents_content _ _ _ (file_of f Hf)).
Qed.
End Disk.

Lemma host_files_in outs n d : NoDup (map fst outs) -> (n, d) ∈ outs -> host_files outs !! n = Some d.
Proof.
  unfold host_files. induction outs as [|[n' d'] outs IH] using rev_ind; intros N Hin; [by apply elem_of_nil in Hin|].
  rewrite foldl_app. cbn [foldl fst snd]. rewrite map_app in N. apply NoDup_app in N as (N & Hn & _).
  apply elem_of_app in Hin as [Hin|[= -> ->]%list_elem_of_singleton]; [|by rewrite lookup_insert_eq].
  rewrite lookup_insert_ne; [by apply IH|]. intros ->. apply (Hn n); [|apply list_elem_of_here].
  apply list_elem_of_fmap. by exists (n, d).
Qed.

(** C23: the files of a CP/M disk come out of its IMD image.  Take any image whose
    data tracks (from cylinder 2 on) hold nine sectors of 512 bytes at the places
    the skew table gives them, in any order on the track and stored in any of
    the forms IMD has, and on them a CP/M directory and files: every file split
    into extents of 16 blocks of 2048 bytes, its slots anywhere in the
    directory, its blocks anywhere on the disk.  The script writes exactly these
    files, each under its name and with all of its bytes and no others; when no
    two names are equal, every file is on the host afterwards.  At the first
    data track of another shape the script stops with exit status 1 instead. *)
Theorem disk_files_are_extracted header ts l :
  image_ok header ts -> area ts l ->
  (forall ss files, disk_ok l ss files ->
     exists outs, extract_polypascal (image header ts) = Ret outs /\
       outs ≡ₚ map (fun f => (out_name (f_key f), f_data f)) files /\
       (NoDup (map (fun f => out_name (f_key f)) files) ->
        forall f, f ∈ files -> host_files outs !! out_name (f_key f) = Some (f_data f))) /\
  (forall t rest, track_ok t -> Forall track_ok rest -> 2 <= t_cyl t -> ~ (t_size t = 512 /\ t_nsect t = 9) ->
     extract_polypascal (image header (ts ++ t :: rest)) = Raise (SystemExit 1)).
Proof.
  intros Hi Ha. split.
  - intros ss files D. destruct (extract_files l ss files D) as (outs & E & P). exists outs.
    unfold extract_polypascal. rewrite raw_parses by done. mred. rewrite (linearize_area _ _ Ha). mred.
    split; [done|]. split; [done|]. intros N f Hf. apply host_files_in.
    + rewrite P, map_map. exact N.
    + rewrite P. apply list_elem_of_fmap. by exists f.
  - intros t rest Ht Hrest Hc Hg. unfold extract_polypascal. rewrite raw_parses.
    + mred. by rewrite (linearize_geometry _ _ _ _ Ha).
    + destruct Hi as [H1 H2]. split; [done|]. apply Forall_app. by split; [|constructor].
Qed.

(** A disk of one track with a file of two records in block 1, described by the
    second slot. *)
Definition sample_key : file_key := (0, [72; 73], [67; 79; 77]).
Definition sample_slots : list slot :=
  Unused (repeatZ 32 229) :: Used sample_key 0 0 (0, (2, [1])) :: replicate 62 (Unused (repeatZ 32 229)).
Definition sample_track : track :=
  Track 5 2 0 2 [1; 2; 3; 4; 5; 6; 7; 8; 9] None None
    [(1, repeatZ 32 229 ++ slot_bytes (Used sample_key 0 0 (0, (2, [1]))) ++ repeatZ 448 229); (2, [229]); (2, [229]); (2, [229]);
     (2, [229]); (2, [229]); (2, [229]); (2, [229]); (2, [65])].
Definition sample_pieces : list bytes :=
  [snd (1, repeatZ 32 229 ++ slot_bytes (Used sample_key 0 0 (0, (2, [1]))) ++ repeatZ 448 229);
   repeatZ 512 229; repeatZ 512 229; repeatZ 512 229; repeatZ 512 65; repeatZ 512 229; repeatZ 512 229; repeatZ 512 229; repeatZ 512 229].
Definition sample_file : cpm_file := CpmFile sample_key [1] (repeatZ 256 65).

Lemma sample_disk : disk_ok (concat sample_pieces ++ []) sample_slots [sample_file].
Proof.
  split.
  - vm_compute. reflexivity.
  - unfold sample_slots. constructor; [|constructor; [|apply Forall_replicate]].
    + exists 229. split; [reflexivity|by left].
    + cbn. split; [|split; [by repeat constructor|lia]]. split; [lia|].
      split; [by repeat constructor|]. split; [by repeat constructor|]. lia.
    + exists 229. split; [reflexivity|by left].
  - constructor; [|constructor]. split.
    + exists 2. reflexivity.
    + vm_compute. reflexivity.
    + split; [repeat constructor; vm_compute; congruence|]. intros i x Hx. exists 1.
      assert (i < 256)%nat as Hi by (apply lookup_lt_Some in Hx; exact Hx).
      rewrite Nat.div_small, Nat.mod_small by (vm_compute; lia). split; [reflexivity|].
      change (f_data sample_file) with (take 256 (drop (Z.to_nat (1 * BS)) (concat sample_pieces ++ []))) in Hx.
      rewrite lookup_take, lookup_drop, decide_True in Hx by done. exact Hx.
  - cbn. constructor; [set_solver|constructor].
  - unfold sample_slots. intros k s1 s2 x Hx. apply elem_of_cons in Hx as [Hx|Hx]; [done|].
    apply elem_of_cons in Hx as [[= -> _ _ _]|Hx]; [apply list_elem_of_here|].
    by apply elem_of_replicate in Hx as [? _].
Qed.

Lemma physical_order (p0 p1 p2 p3 p4 p5 p6 p7 p8 : bytes) :
  zip [1; 2; 3; 4; 5; 6; 7; 8; 9] [p0; p5; p1; p6; p2; p7; p3; p8; p4] ≡ₚ
  zip (map (fun s => Z.of_nat s + 1) SKEW) [p0; p1; p2; p3; p4; p5; p6; p7; p8].
Proof. apply NoDup_Permutation; [apply (NoDup_fmap_1 fst); decided..|]. intros [n d]. cbn. rewrite !elem_of_cons. tauto. Qed.

Lemma sample_area : area [sample_track] (concat sample_pieces ++ []).
Proof.
  apply area_data; [cbn; lia| |constructor]. split; [reflexivity|]. split; [reflexivity|]. split; [reflexivity|].
  exact (physical_order _ _ _ _ _ _ _ _ _).
Qed.

Lemma sample_image : image_ok [73] [sample_track].
Proof. split; [intros H%list_elem_of_singleton; discriminate H|]. constructor; [|constructor]. split; try done; by repeat constructor. Qed.

Lemma disk_files_are_extracted_witness :
  (exists outs, extract_polypascal (image [73] [sample_track]) = Ret outs /\
     host_files outs !! [72; 73; 46; 67; 79; 77] = Some (repeatZ 256 65)) /\
  extract_polypascal (image [73] ([sample_track] ++ [Track 5 3 0 1 [1] None None [(2, [229])]])) = Raise (SystemExit 1).
Proof.
  split.
  - destruct (proj1 (disk_files_are_extracted [73] [sample_track] _ sample_image sample_area) sample_slots [sample_file] sample_disk)
      as (outs & E & _ & H). exists outs. split; [exact E|].
    exact (H (NoDup_singleton _) sample_file (list_elem_of_here _ _)).
  - apply (proj2 (disk_files_are_extracted [73] [sample_track] _ sample_image sample_area)); [|constructor|cbn; lia|].
    + split; try done; by repeat constructor.
    + intros [H _]. discriminate H.
Defined.
