(* ===== verification/Disasm.v ===== *)
(** * Disassembling the BIOSes: the six mkbios scripts of rcbios.

    src-rc703/mkbios.py and mkbios_rel10.py, src-rc702e/mkbios_e201.py and
    mkbios_e220.py, src-58k/mkbios_rel13.py and mkbios_rel14.py write a file of
    blocks and one of symbols for the disassembler, run it, and turn its output
    into source for the assembler.  The tables of each script are in a Module of its
    own; the functions, which five of the scripts share word for word, are defined
    once ([blocks], [symbols_text], [convert_to_zmac]).  mkbios.py cuts its blocks
    off at the end of the code ([rel12_blocks]).  The disassembler is a parameter:
    from the image, the address it starts at and the two files to a listing, or to
    nothing when it fails.  Its listings are ASCII.  The comments of the tables,
    which no script uses, the messages and the names of the files are left out. *)

From S2P Require Import Prelude Imd Hex Text Labels.
#[local] Open Scope Z_scope.

Inductive dtype : Set := Bytes | Words | Text.
Inductive btype : Set := Code | ByteData | WordData.
#[export] Instance btype_eq_dec : EqDecision btype.
Proof. solve_decision. Defined.

Record region : Type := Region { g_start : Z; g_end : Z; g_type : dtype; g_label : str }.
Definition regions (l : list (Z * Z * dtype * string)) : list region :=
  map (fun '(a, b, t, s) => Region a b t (chars s)) l.
Definition labels (l : list (Z * string)) : list (Z * str) := map (fun '(a, s) => (a, chars s)) l.

(** ** The tables *)

Module Rel12.
Definition ORG : Z := 0xD480.
Definition DATA_REGIONS : list region := regions
  [
   (0xD6EE, 0xD6FC, Bytes, "RC763TAB"); (0xD7B3, 0xD7B5, Bytes, "JMPPAD1");
   (0xD7B6, 0xD7B6, Bytes, "MAXDSK"); (0xD7B7, 0xD7C6, Bytes, "ALVINI"); (0xD7C7, 0xD7C8, Bytes, "JMPPAD2");
   (0xD7C9, 0xD7C9, Bytes, "RETZ"); (0xD7DF, 0xD7F0, Bytes, "SCRNDATA");
   (0xD7F1, 0xD7F2, Bytes, "ERRMSG_PRE"); (0xD7F3, 0xD80C, Text, "ERRMSG");
   (0xD80D, 0xD80D, Bytes, "SIGNON_FF"); (0xD80E, 0xD833, Text, "SIGNON"); (0xD834, 0xD834, Bytes, "WAITFF");
   (0xD835, 0xD83C, Text, "WAITMSG"); (0xD83D, 0xD83D, Bytes, "CFGFF"); (0xD83E, 0xD860, Text, "CFGERR");
   (0xDE91, 0xDEC1, Words, "DPBINIT"); (0xE736, 0xE749, Bytes, "SKEW_QD");
   (0xE74A, 0xE758, Bytes, "SKEW_MAXI"); (0xE759, 0xE772, Bytes, "SKEW_SEQ");
   (0xE773, 0xE782, Words, "DPB_QD1"); (0xE783, 0xE792, Words, "DPB_QD2");
   (0xE793, 0xE7A2, Words, "DPB_QD3"); (0xE7A3, 0xE7B2, Words, "DPB_MAXI");
   (0xE7B3, 0xE7C2, Words, "DPB_HD1"); (0xE7C3, 0xE7D2, Words, "DPB_HD2");
   (0xE7D3, 0xE7E2, Words, "DPB_HD3"); (0xE7E3, 0xE7F2, Words, "DPB_HD4"); (0xE7F3, 0xE97F, Bytes, "DPBASE");
   (0xE980, 0xE99F, Words, "INTVEC"); (0xE9A0, 0xE9FF, Bytes, "HDCFG")
  ]%string.
Definition CODE_LABELS : list (Z * str) := labels
  [
   (0xD480, "START"); (0xD500, "SIOINIT"); (0xD55F, "FDCWAIT"); (0xD580, "CLRSCR"); (0xD5A7, "INITCRT");
   (0xD5D4, "CLRVARS"); (0xD608, "INITDONE"); (0xD612, "BOOTSTART"); (0xD621, "FDCPOLL");
   (0xD680, "CFGCOPY"); (0xD697, "CFGCHECK"); (0xD6FD, "CFGPROC"); (0xD712, "INITDPBASE");
   (0xD746, "GOCPM1"); (0xD749, "INITCFG2"); (0xD764, "NOCFG"); (0xD780, "JMPTAB"); (0xD7CA, "EXTJMP");
   (0xDA00, "GOCPM"); (0xDA33, "IOBYTE"); (0xDA36, "CONSTAT"); (0xDA3A, "CONOUT_SER");
   (0xDA5F, "CONIN_INIT"); (0xDA79, "CONIN_RD"); (0xDA7D, "LIST_OUT"); (0xDA8D, "READER_IN");
   (0xDAB2, "ISR_SIO_BT"); (0xDACB, "ISR_SIO_BE"); (0xDAE4, "ISR_SIO_BR"); (0xDAF9, "ISR_SIO_BS");
   (0xDB16, "ISR_SIO_AT"); (0xDB2F, "ISR_SIO_AE"); (0xDB48, "ISR_SIO_AR"); (0xDB62, "ISR_SIO_AS");
   (0xDB89, "DSPY_NEG"); (0xDB93, "DSPY_INC"); (0xDB98, "DSPY_CHECK"); (0xDBA3, "DSPY_XLAT");
   (0xDBAE, "DSPY_CRT"); (0xDBBF, "DSPY_DOWN"); (0xDBD0, "DSPY_UP"); (0xDBE1, "DSPY_HOME");
   (0xDBF4, "DSPY_CLR"); (0xDC15, "DSPY_SCRL"); (0xDC42, "DSPY_DIV8"); (0xDC56, "DSPY_SETBIT");
   (0xDC68, "DSPY_LDIR"); (0xDC6E, "DSPY_LDDR"); (0xDC74, "DSPY_BELL"); (0xDC77, "DSPY_ATTR");
   (0xDC80, "DSPY_NOP"); (0xDC81, "DSPY_CR"); (0xDC89, "DSPY_CLEAR"); (0xDCB4, "LISTDATA");
   (0xDCBA, "LIST_ENTRY"); (0xDCFD, "READER_ENTRY"); (0xDD0D, "PUNCH_ENTRY"); (0xDB9F, "BOOT");
   (0xDBE7, "WBOOT"); (0xD861, "PRTMSG"); (0xD86D, "CRTADDR"); (0xD875, "SETCRTPOS"); (0xD890, "HALT");
   (0xD898, "SETWARM"); (0xD8A5, "CLOCK"); (0xD8BB, "LINSEL"); (0xD8FE, "SIOWR"); (0xD905, "SETEXITHL");
   (0xD916, "RSTEXITHL"); (0xD91F, "WBOOT_ENTRY"); (0xDFBD, "ISR_CRT"); (0xDFEF, "CRT_CURSOR");
   (0xE042, "SELDSK_ENTRY"); (0xE0DE, "GETDPB"); (0xE0EB, "SETTRK_ENTRY"); (0xE0F1, "SETSEC_ENTRY");
   (0xE0F7, "SETDMA_ENTRY"); (0xE0FD, "SECTRAN_ENTRY"); (0xE100, "READ_ENTRY"); (0xE208, "CONOUT_ENTRY");
   (0xE283, "READ_HD"); (0xE290, "WRITE_HD"); (0xE2C2, "SELDSK_MAIN"); (0xE325, "DISK_READ");
   (0xE36F, "DISK_WRITE"); (0xE399, "MOTOR_CTL"); (0xE3B7, "MOTOR_OFF"); (0xE3C1, "TIMER_SET");
   (0xE3CD, "FLUSH"); (0xE420, "FDC_RQMWAIT"); (0xE42A, "FDC_DIORQM"); (0xE434, "FDC_RECAL");
   (0xE455, "FDC_SEEK"); (0xE46F, "FDC_RDID"); (0xE48C, "FDC_WRCMD"); (0xE4A6, "FDC_RESULT");
   (0xE4C2, "FDC_CLRINT"); (0xE4E0, "DMA_FDCRD"); (0xE501, "DMA_FDCWR"); (0xE558, "ISR_FDC");
   (0xE589, "HD_RECAL"); (0xE5A4, "HD_WRITE_OP"); (0xE5BF, "HD_CHECK"); (0xE619, "HD_SETUP");
   (0xE64C, "HOME_MAIN"); (0xE65E, "HD_SYNC"); (0xE66E, "HD_CLRINT"); (0xE68F, "DMA_HDRD");
   (0xE699, "DMA_HDWR"); (0xE6BA, "HD_CMD"); (0xE6CD, "HD_CMD2"); (0xE700, "ISR_HD");
   (0xEC2B, "CONST_ENTRY"); (0xEC2F, "CONIN_ENTRY")
  ]%string.
Definition VAR_LABELS : list (Z * str) := labels
  [
   (0xDCAD, "SIOBFLG"); (0xDCAE, "SIOAFLG"); (0xDCAF, "SIOADATA"); (0xDCB0, "SIOADATA2");
   (0xDCB1, "SIOBDATA"); (0xDCB2, "SIOBSTAT"); (0xDCB3, "SIOASTAT"); (0xDCB4, "SIOBEXT");
   (0xDCB5, "SIOAEXT"); (0xEE80, "ENDPRG"); (0xF36E, "CDISK"); (0xF371, "SEKTRK"); (0xF374, "SEKHEAD");
   (0xF376, "SEKSEC"); (0xF378, "HSTDSK"); (0xF379, "HSTTRK"); (0xF37B, "HSTSEC"); (0xF37D, "HSTACT");
   (0xF37E, "HSTWRT"); (0xF381, "UNACNT"); (0xF386, "ERFLAG"); (0xF387, "WRTYPE"); (0xF38A, "DMAADR");
   (0xF38E, "DSKTYPE"); (0xF390, "MAXDSK2"); (0xF391, "DRIVESEL"); (0xF392, "DMABASE"); (0xF396, "RETRYCNT");
   (0xF3A0, "HDSTAT"); (0xF3A1, "HDCNT"); (0xF3A3, "SAVSP"); (0xF3A5, "FDCINT"); (0xF3A6, "FDCINT2");
   (0xF3A7, "FDCINIT"); (0xF3A8, "DSKCFG"); (0xF3A9, "HDPRESENT"); (0xF500, "ATTRBUF"); (0xF5F0, "ATTREND");
   (0xF620, "ISRSTACK"); (0xF680, "CONVTAB"); (0xF800, "SCREENBUF"); (0xFFCF, "SCRNEND"); (0xFFD1, "CURX");
   (0xFFD2, "CURY"); (0xFFD4, "CURROW"); (0xFFD5, "ATTRPTR"); (0xFFD7, "ESCSTATE"); (0xFFD8, "CURSAVE");
   (0xFFDA, "CURCHAR"); (0xFFDB, "ATTRMODE"); (0xFFDC, "ATTRPTR2"); (0xFFDE, "ESCBUF"); (0xFFDF, "TIMER1");
   (0xFFE1, "TIMER2"); (0xFFE3, "TIMER3"); (0xFFE5, "WARMJP"); (0xFFE7, "MOTORTIMER"); (0xFFFC, "RTCCNT")
  ]%string.
Definition header : list str :=
  [
   chars "; RC703 CP/M 2.2 BIOS " ++ [8212] ++ chars " disassembly from rel.1.2 reference binary";
   chars "; Assembled with: zmac -z --dri -DREL12 src-rc703/BIOS.MAC";
   chars ";";
   chars "; Supports conditional assembly:";
   chars ";   -DREL12  - rel.1.2 (primary reference, QD format)";
   chars ";   -DRELTFJ - rel.TFj (identical code, different signon)";
   chars ";   -DREL10  - rel.1.0 (MAXI format, older code)";
   [];
   [9] ++ chars ".Z80";
   [];
   chars "; Signon string (conditional)";
   chars "IFDEF" ++ [9] ++ chars "REL12";
   chars "SIGVER" ++ [9] ++ chars "MACRO";
   [9] ++ chars "DB" ++ [9] ++ chars "'1.2'";
   [9] ++ chars "ENDM";
   chars "ENDIF";
   chars "IFDEF" ++ [9] ++ chars "RELTFJ";
   chars "SIGVER" ++ [9] ++ chars "MACRO";
   [9] ++ chars "DB" ++ [9] ++ chars "'TFj'";
   [9] ++ chars "ENDM";
   chars "ENDIF";
   []
  ].
Definition blocks_title : str := chars "; z80dasm block definitions for RC703 BIOS" ++ [10] ++ [10].
Definition symbols_title : str := chars "; z80dasm symbols for RC703 BIOS" ++ [10] ++ [10].
End Rel12.

Module Rel10.
Definition ORG : Z := 0xD480.
Definition BINSIZE : Z := 9344.
Definition DATA_REGIONS : list region := regions
  [
   (0xD7B3, 0xD7B5, Bytes, "JMPPAD1"); (0xD7B6, 0xD7B6, Bytes, "MAXDSK"); (0xD7B7, 0xD7C6, Bytes, "ALVINI");
   (0xD7C7, 0xD7C8, Bytes, "JMPPAD2"); (0xD7C9, 0xD7C9, Bytes, "RETZ"); (0xD7DC, 0xD7F0, Bytes, "SCRNDATA");
   (0xD7F1, 0xD7F2, Bytes, "ERRMSG_PRE"); (0xD7F3, 0xD80C, Text, "ERRMSG");
   (0xD80D, 0xD80D, Bytes, "SIGNON_FF"); (0xD80E, 0xD834, Text, "SIGNON"); (0xD835, 0xD835, Bytes, "WAITFF");
   (0xD836, 0xD83D, Text, "WAITMSG"); (0xD83E, 0xD83E, Bytes, "CFGFF"); (0xD83F, 0xD861, Text, "CFGERR");
   (0xDE8C, 0xDEBC, Words, "DPBINIT"); (0xE73C, 0xE755, Bytes, "SKEW_T0");
   (0xE756, 0xE764, Bytes, "SKEW_MAXI"); (0xE765, 0xE76E, Bytes, "SKEW_10");
   (0xE76F, 0xE788, Bytes, "SKEW_SEQ"); (0xE789, 0xE797, Words, "DPB_FM1");
   (0xE798, 0xE7A6, Words, "DPB_MFM1"); (0xE7A7, 0xE7B5, Words, "DPB_FM2");
   (0xE7B6, 0xE7C4, Words, "DPB_MFM2"); (0xE7C5, 0xE7D3, Words, "DPB_HD1");
   (0xE7D4, 0xE7E2, Words, "DPB_HD2"); (0xE7E3, 0xE7F1, Words, "DPB_HD3");
   (0xE7F2, 0xE800, Words, "DPB_HD4"); (0xE801, 0xE80F, Words, "DPB_HD5"); (0xE810, 0xE97F, Bytes, "DPBASE");
   (0xE980, 0xE99F, Words, "INTVEC"); (0xE9A0, 0xE9FF, Bytes, "HDCFG"); (0xEA00, 0xF8FF, Bytes, "TAIL")
  ]%string.
Definition CODE_LABELS : list (Z * str) := labels
  [
   (0xD480, "START"); (0xD780, "JMPTAB"); (0xD7CA, "EXTJMP"); (0xDB9A, "BOOT"); (0xDBE2, "WBOOT");
   (0xE203, "CONOUT_ENTRY"); (0xDCB5, "LIST_ENTRY"); (0xDD08, "PUNCH_ENTRY"); (0xDCF8, "READER_ENTRY");
   (0xE648, "HOME_MAIN"); (0xE2BD, "SELDSK_ENTRY"); (0xE366, "SETTRK_ENTRY"); (0xE36C, "SETSEC_ENTRY");
   (0xE372, "SETDMA_ENTRY"); (0xE37B, "SECTRAN_ENTRY"); (0xE38F, "READ_ENTRY"); (0xDCB1, "WRITE_ENTRY");
   (0xE378, "LISTST_ENTRY"); (0xE744, "EXTFN0"); (0xDCF4, "EXTFN1"); (0xDB3C, "EXTFN2"); (0xDB19, "EXTFN3");
   (0xDB26, "EXTFN4"); (0xE953, "EXTFN5"); (0xEC2B, "CONST_ENTRY"); (0xEC2F, "CONIN_ENTRY")
  ]%string.
Definition VAR_LABELS : list (Z * str) := labels
  [
   (0xF36E, "CDISK"); (0xF500, "ATTRBUF"); (0xF620, "ISRSTACK"); (0xF680, "CONVTAB"); (0xF800, "SCREENBUF");
   (0xFFCF, "SCRNEND"); (0xFFD1, "CURX"); (0xFFD2, "CURY"); (0xFFDF, "TIMER1"); (0xFFE1, "TIMER2");
   (0xFFE3, "TIMER3"); (0xFFE5, "WARMJP"); (0xFFE7, "MOTORTIMER"); (0xFFFC, "RTCCNT")
  ]%string.
Definition header : list str :=
  [
   chars "; RC703 CP/M 2.2 BIOS rel.1.0 " ++ [8212] ++ chars " disassembly from extracted binary";
   chars "; Assembled with: zmac -z --dri -DREL10 src-rc703/BIOS_REL10.MAC";
   chars ";";
   chars "; RC703 MAXI format (8-inch multi-density):";
   chars ";   - Track 0 Side 0: FM, 26 sectors x 128 bytes";
   chars ";   - Track 0 Side 1: MFM, 26 sectors x 256 bytes";
   chars ";   - Tracks 1-76: MFM, 15 sectors x 512 bytes";
   chars ";";
   chars "; Differences from rel.1.2:";
   chars ";   - No LINSEL timing fix (6 bytes shorter)";
   chars ";   - No RC763 HD identification table";
   chars ";   - 6 extended BIOS entries (not 7)";
   chars ";   - MAXI-format DPBs instead of QD";
   chars ";   - Tail: COMAL-80 residual data (not VERIFY utility)";
   [];
   [9] ++ chars ".Z80";
   []
  ].
Definition blocks_title : str := chars "; z80dasm block definitions for RC703 rel.1.0 BIOS" ++ [10] ++ [10].
Definition symbols_title : str := chars "; z80dasm symbols for RC703 rel.1.0 BIOS" ++ [10] ++ [10].
End Rel10.

Module E201.
Definition ORG : Z := 0xD700.
Definition BINSIZE : Z := 5504.
Definition DATA_REGIONS : list region := regions
  [
   (0xD950, 0xD95B, Text, "STR_RAMDISK"); (0xD95C, 0xD96E, Text, "STR_NOTINST");
   (0xD96F, 0xD977, Text, "STR_NOTUSED"); (0xD978, 0xD98B, Text, "STR_WAITING");
   (0xD98C, 0xD99E, Text, "STR_BOOTQ"); (0xD99F, 0xD9AB, Text, "STR_CLOCK");
   (0xD9AC, 0xD9C3, Text, "STR_TIMEINIT"); (0xDA33, 0xDA49, Bytes, "JTVARS");
   (0xDA5F, 0xDA61, Bytes, "JTGAP"); (0xDA6E, 0xDA6F, Bytes, "JTPAD"); (0xDA70, 0xDA77, Bytes, "ERRPRE");
   (0xDA78, 0xDA92, Text, "ERRMSG"); (0xDA93, 0xDAB5, Text, "SIGNON"); (0xE717, 0xE7AC, Bytes, "DPBTAB");
   (0xE7AD, 0xE82D, Bytes, "DPBASE"); (0xE82E, 0xE8BD, Bytes, "DPHINIT"); (0xE8BE, 0xE91D, Bytes, "WKSP1");
   (0xE91E, 0xE97E, Bytes, "DSKCFG"); (0xE97F, 0xE9AD, Bytes, "WKSP2"); (0xE9AE, 0xEA07, Bytes, "DPHDATA");
   (0xEA08, 0xEA21, Bytes, "SKEW_MAXI26"); (0xEA22, 0xEA30, Bytes, "SKEW_MAXI15");
   (0xEA31, 0xEA3A, Bytes, "SKEW_QD10A"); (0xEA3B, 0xEA54, Bytes, "SKEW_SEQ26");
   (0xEA55, 0xEA5E, Bytes, "SKEW_QD10B"); (0xEA62, 0xEBFB, Bytes, "WKSP3");
   (0xEBFC, 0xEC1B, Words, "INTVEC"); (0xEC1C, 0xEC27, Bytes, "IVTDATA"); (0xEC78, 0xEC7F, Bytes, "TRAILING")
  ]%string.
Definition CODE_LABELS : list (Z * str) := labels
  [
   (0xD700, "START"); (0xD73E, "INITCONT"); (0xD821, "INIT2"); (0xD87A, "INIT3"); (0xD91D, "INIT4");
   (0xD936, "INIT5"); (0xD9C4, "INIT6"); (0xDA00, "JMPTAB"); (0xDA4A, "INTJP0"); (0xDA4D, "INTJP1");
   (0xDA50, "INTJP2"); (0xDA53, "INTJP3"); (0xDA56, "INTJP4"); (0xDA59, "INTJP5"); (0xDA5C, "INTJP6");
   (0xDA62, "INTJP7"); (0xDA65, "INTJP8"); (0xDA68, "INTJP9"); (0xDA6B, "INTJP10"); (0xDAB6, "PRTMSG");
   (0xDAC2, "PRTLOOP"); (0xDAD8, "HALT"); (0xDAE5, "SETWARM"); (0xDAFB, "CLOCK"); (0xDB1E, "SIOWR");
   (0xDB22, "LINSEL"); (0xDB63, "BOOTCHK"); (0xDB6A, "BOOT"); (0xDB73, "BOOTMSG"); (0xDB83, "WBOOT");
   (0xDBB5, "WBOOT2"); (0xDC05, "CONSTAT2"); (0xDC67, "LISTST"); (0xDC6B, "LIST"); (0xDC8E, "PUNCH2");
   (0xDC92, "READER2"); (0xDCA7, "CONOUT_INT"); (0xDCAB, "READER"); (0xDCD2, "PUNCH"); (0xDCF5, "ISR_SIO0");
   (0xDDD7, "DSPY_START"); (0xDDDE, "DSPY_NEG"); (0xDDE3, "DSPY_INC"); (0xDDEE, "DSPY_CHECK");
   (0xDDF4, "DSPY_XLAT"); (0xDDF9, "DSPY_CRT"); (0xDE0A, "DSPY_DOWN"); (0xDE1A, "DSPY_UP");
   (0xDE2A, "DSPY_HOME"); (0xDE38, "DSPY_CLR"); (0xDE3D, "DSPY_SCRL"); (0xDE4B, "DSPY_SCRL2");
   (0xDE74, "DSPY_DIV8"); (0xDE7A, "DSPY_SETBIT"); (0xDF1B, "ISR_CRT"); (0xDFBC, "CRT_CURSOR");
   (0xDFFC, "ISR_FDC"); (0xE013, "CONOUT_DISP"); (0xE056, "CONOUT_PROC"); (0xE08A, "CONOUT_CLOCK");
   (0xE096, "CONOUT"); (0xE0D6, "ISR_MAIN"); (0xE135, "CONOUT_END"); (0xE1C5, "SELDSK_PRE");
   (0xE1D5, "SELDSK"); (0xE2A3, "SELDSK_RET"); (0xE2A7, "SELDSK_DPB"); (0xE2B4, "SETTRK");
   (0xE2B9, "SETSEC"); (0xE2BE, "SETDMA"); (0xE2C3, "SECTRAN"); (0xE2C6, "READ"); (0xE2DA, "WRITE");
   (0xE366, "DISKIO"); (0xE41D, "DISKRD"); (0xE43F, "DISKWR"); (0xE4FF, "FDCWAIT"); (0xE51E, "FDCRESULT");
   (0xE523, "FDCRESULT2"); (0xE528, "FDCREAD"); (0xE536, "FDCWRITE"); (0xE554, "FDCSEEK"); (0xE55F, "HOME");
   (0xE591, "FDCRECAL"); (0xE59A, "FDCCMD"); (0xE5A3, "FDCDMA_RD"); (0xE5C3, "FDCDMA_WR");
   (0xE5CF, "FDCMOTOR"); (0xE5EC, "MOTOROFF"); (0xE608, "MOTORTIMER"); (0xE622, "FLUSH");
   (0xE629, "RAMDISK"); (0xE636, "RAMDISK_RD"); (0xE63D, "RAMDISK_WR"); (0xE65E, "RAMDISK_DMA");
   (0xE667, "RAMDISK_IO"); (0xE6D3, "RAMDISK_END"); (0xE6E2, "RAMDISK_INT"); (0xE6E6, "RAMDISK_INT2");
   (0xE6FF, "RAMDISK_RET"); (0xE716, "CODE_END"); (0xEA5F, "ISR_DEFAULT"); (0xEC28, "CONST");
   (0xEC2C, "CONIN")
  ]%string.
Definition VAR_LABELS : list (Z * str) := labels
  [
   (0xF36E, "CDISK"); (0xF3A5, "FDCINT"); (0xF49A, "RAMDSTAT"); (0xF4CA, "SIOFLG"); (0xF4CC, "SIOFLG2");
   (0xF500, "ATTRBUF"); (0xF5F0, "ATTREND"); (0xF620, "ISRSTACK"); (0xF680, "CONVTAB"); (0xF700, "CONVTAB2");
   (0xF800, "SCREENBUF"); (0xFFCF, "SCRNEND"); (0xFFD1, "CURX"); (0xFFD2, "CURY"); (0xFFDF, "TIMER1");
   (0xFFE1, "TIMER2"); (0xFFE5, "WARMJP"); (0xFFE7, "MOTORTIMER")
  ]%string.
Definition header : list str :=
  [
   chars "; RC702E CP/M 2.2 BIOS rel.2.01 " ++ [8212] ++ chars " disassembly from extracted binary";
   chars "; Assembled with: zmac -z --dri -DREL201 src-rc702e/BIOS_E201.MAC";
   chars ";";
   chars "; RC702E-specific features:";
   chars ";   - RAM disk support (ports E6/E7)";
   chars ";   - Clock display (Danish format)";
   chars ";   - No hard disk support";
   chars ";   - 10 DPBs (MINI, MAXI, QD, RAM disk variants)";
   [];
   [9] ++ chars ".Z80";
   []
  ].
Definition blocks_title : str := chars "; z80dasm block definitions for RC702E rel.2.01 BIOS" ++ [10] ++ [10].
Definition symbols_title : str := chars "; z80dasm symbols for RC702E rel.2.01 BIOS" ++ [10] ++ [10].
End E201.

Module E220.
Definition ORG : Z := 0xD480.
Definition BINSIZE : Z := 9600.
Definition DATA_REGIONS : list region := regions
  [
   (0xD7B3, 0xD7C9, Bytes, "JTVARS"); (0xD7DF, 0xD7E1, Bytes, "JTGAP1"); (0xD7EE, 0xD7F2, Bytes, "JTGAP2");
   (0xD7F3, 0xD806, Text, "ERRMSG"); (0xD807, 0xD82A, Text, "SIGNON"); (0xE460, 0xE6BE, Bytes, "DISKTAB");
   (0xE975, 0xE97F, Bytes, "IVTPAD"); (0xE980, 0xE99F, Words, "INTVEC"); (0xE9A0, 0xE9FF, Bytes, "IVTDATA");
   (0xEA00, 0xF9FF, Bytes, "VERIFY")
  ]%string.
Definition CODE_LABELS : list (Z * str) := labels
  [
   (0xD480, "START"); (0xD780, "JMPTAB"); (0xD7CA, "INTJP0"); (0xD7CD, "INTJP1"); (0xD7D0, "INTJP2");
   (0xD7D3, "INTJP3"); (0xD7D6, "INTJP4"); (0xD7D9, "INTJP5"); (0xD7DC, "INTJP6"); (0xD7E2, "INTJP7");
   (0xD7E5, "INTJP8"); (0xD7E8, "INTJP9"); (0xD7EB, "INTJP10"); (0xD82B, "PRTMSG"); (0xD846, "PRTJP");
   (0xD849, "HALT"); (0xD856, "SETWARM"); (0xD869, "CLOCK_FN"); (0xD88D, "SIOWR"); (0xDAC5, "CONSTAT2");
   (0xDAD2, "INTFN1"); (0xDAE8, "INTFN2"); (0xDB0B, "SIOWR2"); (0xDB0F, "LINSEL"); (0xDB71, "BOOT");
   (0xDB8D, "WBOOT"); (0xDC5E, "LISTST"); (0xDC62, "LIST"); (0xDC85, "PUNCH2"); (0xDC89, "READER2");
   (0xDC9E, "CONOUT_INT"); (0xDCA2, "READER"); (0xDCC9, "PUNCH"); (0xDCEC, "ISR_SIO0");
   (0xDE73, "DSPY_START"); (0xDEE0, "DSPY_CHECK"); (0xDEEB, "DSPY_XLAT"); (0xDEF0, "DSPY_CRT");
   (0xDF01, "DSPY_DOWN"); (0xDF11, "DSPY_UP"); (0xDF21, "DSPY_HOME"); (0xDF2F, "DSPY_CLR");
   (0xDFA4, "DSPY_SCRL"); (0xE009, "ISR_CRT"); (0xE049, "CRT_CURSOR"); (0xE05E, "ISR_FDC");
   (0xE071, "CONOUT"); (0xE0B1, "ISR_MAIN"); (0xE1A8, "SELDSK"); (0xE280, "SETTRK"); (0xE285, "SETSEC");
   (0xE28A, "SETDMA"); (0xE28F, "SECTRAN"); (0xE292, "READ"); (0xE2A6, "WRITE"); (0xE529, "HOME");
   (0xE55C, "FDCRESULT"); (0xE574, "FDCDMA_RD"); (0xE594, "FDCDMA_WR"); (0xE5E4, "RAMDISK");
   (0xE674, "ISR_RAMD"); (0xE6BF, "DPBINIT"); (0xEC28, "CONST"); (0xEC2C, "CONIN"); (0xEC61, "ISR_DEFAULT")
  ]%string.
Definition VAR_LABELS : list (Z * str) := labels
  [
   (0xF36E, "CDISK"); (0xF49A, "RAMDSTAT"); (0xF4AA, "WARMJP2"); (0xF4CA, "SIOFLG"); (0xF4CC, "SIOFLG2");
   (0xF500, "ATTRBUF"); (0xF620, "ISRSTACK"); (0xF680, "CONVTAB"); (0xF700, "CONVTAB2");
   (0xF800, "SCREENBUF"); (0xFFCF, "SCRNEND"); (0xFFD1, "CURX"); (0xFFD2, "CURY"); (0xFFDF, "TIMER1");
   (0xFFE1, "TIMER2"); (0xFFE5, "WARMJP"); (0xFFE7, "MOTORTIMER"); (0xFFFC, "RTCCNT")
  ]%string.
Definition header : list str :=
  [
   chars "; RC702E CP/M 2.2 BIOS rel.2.20 " ++ [8212] ++ chars " disassembly from extracted binary";
   chars "; Assembled with: zmac -z --dri -DREL220 src-rc702e/BIOS_E220.MAC";
   chars ";";
   chars "; RC702E-specific features:";
   chars ";   - RAM disk support (ports EE/EF, DMA-based)";
   chars ";   - Clock display (Danish format)";
   chars ";   - No hard disk support";
   chars ";   - 10 DPBs (MINI, MAXI, QD, RAM disk variants)";
   chars ";   - Embedded VERIFY/BLOCKS.BAD utility (4096 bytes)";
   chars ";";
   chars "; RC703 QD disk format (ORG D480, JT at D780)";
   [];
   [9] ++ chars ".Z80";
   []
  ].
Definition blocks_title : str := chars "; z80dasm block definitions for RC702E rel.2.20 BIOS" ++ [10] ++ [10].
Definition symbols_title : str := chars "; z80dasm symbols for RC702E rel.2.20 BIOS" ++ [10] ++ [10].
End E220.

Module Rel13.
Definition ORG : Z := 0xE080.
Definition BINSIZE : Z := 5248.
Definition DATA_REGIONS : list region := regions
  [
   (0xE1BD, 0xE1FF, Bytes, "INITPAD"); (0xE233, 0xE249, Bytes, "EXTCFG"); (0xE259, 0xE25B, Bytes, "MSGPAD");
   (0xE25C, 0xE273, Text, "ERRMSG"); (0xE274, 0xE289, Text, "SIGNON"); (0xE7FC, 0xE83B, Words, "INTVEC");
   (0xE9B2, 0xE9CB, Bytes, "SKEW_T0"); (0xE9CC, 0xE9DA, Bytes, "SKEW_MAXI");
   (0xE9DB, 0xE9E3, Bytes, "SKEW_MINI"); (0xE9E4, 0xE9FD, Bytes, "SKEW_SEQ");
   (0xE9FE, 0xEA0C, Words, "DPB_FM1"); (0xEA0D, 0xEA1B, Words, "DPB_MFM1");
   (0xEA1C, 0xEA2A, Words, "DPB_FM2"); (0xEA2B, 0xEA39, Words, "DPB_MFM2");
   (0xEA3A, 0xEAB9, Bytes, "DSKCFG"); (0xEABA, 0xEE14, Bytes, "WORKSPACE");
   (0xF2BF, 0xF2FF, Bytes, "WORKSPACE2"); (0xF4BF, 0xF4FF, Bytes, "TRAILING")
  ]%string.
Definition CODE_LABELS : list (Z * str) := labels
  [
   (0xE080, "START"); (0xE200, "JMPTAB"); (0xE24A, "INTJP"); (0xE2F8, "BOOT"); (0xE328, "WBOOT");
   (0xE49B, "CONST"); (0xE49F, "CONIN"); (0xE8F3, "CONOUT"); (0xE3AC, "LIST"); (0xE3FF, "PUNCH");
   (0xE3EF, "READER"); (0xF14A, "HOME"); (0xEE29, "SELDSK"); (0xEEA3, "SETTRK"); (0xEEA9, "SETSEC");
   (0xEEAE, "SETDMA"); (0xEEB4, "SECTRA"); (0xEEB7, "XREAD"); (0xEEC7, "XWRITE"); (0xE3A8, "STLIST");
   (0xF201, "WFITR"); (0xE3EB, "RDSTAT"); (0xE2C0, "LINSEL"); (0xE29F, "EXIT"); (0xE2AC, "CLOCK")
  ]%string.
Definition VAR_LABELS : list (Z * str) := labels
  [
   (0xF500, "ATTRBUF"); (0xF620, "ISRSTACK"); (0xF680, "CONVTAB"); (0xF800, "SCREENBUF");
   (0xFFCF, "SCRNEND"); (0xFFD1, "CURX"); (0xFFD2, "CURY"); (0xFFDF, "TIMER1"); (0xFFE1, "TIMER2");
   (0xFFE5, "WARMJP"); (0xFFE7, "MOTORTIMER"); (0xFFFC, "RTCCNT")
  ]%string.
Definition header : list str :=
  [
   chars "; 58K CP/M 2.2 BIOS rel.1.3 " ++ [8212] ++ chars " disassembly from extracted binary";
   chars "; Assembled with: zmac -z --dri -DREL13 src-58k/BIOS_58K.MAC";
   chars ";";
   chars "; 58K family (no hard disk support, 4864 bytes code):";
   chars ";   - ORG E080 (boot entry at Track 0 offset 0x0380)";
   chars ";   - BIOS JT at E200, no extended BIOS JP entries";
   chars ";   - ISR save: EX AF,AF'/EXX (compact, pre-rel.1.4)";
   chars ";   - Same strings and DPBs as rel.1.4";
   chars ";   - IVT page at F300 (F400 in rel.1.4)";
   [];
   [9] ++ chars ".Z80";
   []
  ].
Definition blocks_title : str := chars "; z80dasm block definitions for 58K rel.1.3 BIOS" ++ [10] ++ [10].
Definition symbols_title : str := chars "; z80dasm symbols for 58K rel.1.3 BIOS" ++ [10] ++ [10].
End Rel13.

Module Rel14.
Definition ORG : Z := 0xE080.
Definition BINSIZE : Z := 5248.
Definition DATA_REGIONS : list region := regions
  [
   (0xE1BD, 0xE1FF, Bytes, "INITPAD"); (0xE233, 0xE249, Bytes, "EXTCFG"); (0xE259, 0xE25B, Bytes, "MSGPAD");
   (0xE25C, 0xE273, Text, "ERRMSG"); (0xE274, 0xE289, Text, "SIGNON"); (0xE86A, 0xE8A9, Words, "INTVEC");
   (0xEA25, 0xEA3E, Bytes, "SKEW_T0"); (0xEA3F, 0xEA4D, Bytes, "SKEW_MAXI");
   (0xEA4E, 0xEA56, Bytes, "SKEW_MINI"); (0xEA57, 0xEA70, Bytes, "SKEW_SEQ");
   (0xEA71, 0xEA7F, Words, "DPB_FM1"); (0xEA80, 0xEA8E, Words, "DPB_MFM1");
   (0xEA8F, 0xEA9D, Words, "DPB_FM2"); (0xEA9E, 0xEAAC, Words, "DPB_MFM2");
   (0xEAAD, 0xEB2C, Bytes, "DSKCFG"); (0xEB2D, 0xEE87, Bytes, "WORKSPACE");
   (0xF339, 0xF3FF, Bytes, "WORKSPACE2")
  ]%string.
Definition CODE_LABELS : list (Z * str) := labels
  [
   (0xE080, "START"); (0xE200, "JMPTAB"); (0xE24A, "INTJP"); (0xE2F8, "BOOT"); (0xE328, "WBOOT");
   (0xE4F3, "CONST"); (0xE4F7, "CONIN"); (0xE961, "CONOUT"); (0xE3AC, "LIST"); (0xE3FF, "PUNCH");
   (0xE3EF, "READER"); (0xF1BF, "HOME"); (0xEE9E, "SELDSK"); (0xEF18, "SETTRK"); (0xEF1E, "SETSEC");
   (0xEF23, "SETDMA"); (0xEF29, "SECTRA"); (0xEF2C, "XREAD"); (0xEF3C, "XWRITE"); (0xE3A8, "STLIST");
   (0xF276, "WFITR"); (0xE3EB, "RDSTAT"); (0xE2C0, "LINSEL"); (0xE29F, "EXIT"); (0xE2AC, "CLOCK")
  ]%string.
Definition VAR_LABELS : list (Z * str) := labels
  [
   (0xEE9C, "SAVESP"); (0xF500, "ATTRBUF"); (0xF620, "ISRSTACK"); (0xF680, "CONVTAB"); (0xF800, "SCREENBUF");
   (0xFFCF, "SCRNEND"); (0xFFD1, "CURX"); (0xFFD2, "CURY"); (0xFFDF, "TIMER1"); (0xFFE1, "TIMER2");
   (0xFFE5, "WARMJP"); (0xFFE7, "MOTORTIMER"); (0xFFFC, "RTCCNT")
  ]%string.
Definition header : list str :=
  [
   chars "; 58K CP/M 2.2 BIOS rel.1.4 " ++ [8212] ++ chars " disassembly from extracted binary";
   chars "; Assembled with: zmac -z --dri -DREL14 src-58k/BIOS_58K_14.MAC";
   chars ";";
   chars "; 58K family (no hard disk support, 4864 bytes code):";
   chars ";   - ORG E080 (boot entry at Track 0 offset 0x0380)";
   chars ";   - BIOS JT at E200, no extended BIOS JP entries";
   chars ";   - ISR save: LD (SAVESP),SP / LD SP,ISRSTACK / PUSH-POP";
   chars ";   - Same strings and DPBs as rel.1.3";
   chars ";   - IVT page at F400 (F300 in rel.1.3)";
   chars ";   - SAVESP variable at EE9C shared by all 12 ISRs";
   [];
   [9] ++ chars ".Z80";
   []
  ].
Definition blocks_title : str := chars "; z80dasm block definitions for 58K rel.1.4 BIOS" ++ [10] ++ [10].
Definition symbols_title : str := chars "; z80dasm symbols for 58K rel.1.4 BIOS" ++ [10] ++ [10].
End Rel14.

(** What distinguishes the scripts; [s_code] is the size of the code for
    mkbios.py, which cuts its blocks off there. *)
Record script : Type := Script {
  s_org : Z; s_code : option Z; s_regions : list region; s_code_labels : list (Z * str);
  s_var_labels : list (Z * str); s_header : list str; s_blocks_title : str; s_symbols_title : str }.

Definition rel12 : script :=
  Script Rel12.ORG (Some 0x1580) Rel12.DATA_REGIONS Rel12.CODE_LABELS Rel12.VAR_LABELS Rel12.header Rel12.blocks_title Rel12.symbols_title.
Definition rel10 : script :=
  Script Rel10.ORG None Rel10.DATA_REGIONS Rel10.CODE_LABELS Rel10.VAR_LABELS Rel10.header Rel10.blocks_title Rel10.symbols_title.
Definition e201 : script :=
  Script E201.ORG None E201.DATA_REGIONS E201.CODE_LABELS E201.VAR_LABELS E201.header E201.blocks_title E201.symbols_title.
Definition e220 : script :=
  Script E220.ORG None E220.DATA_REGIONS E220.CODE_LABELS E220.VAR_LABELS E220.header E220.blocks_title E220.symbols_title.
Definition rel13 : script :=
  Script Rel13.ORG None Rel13.DATA_REGIONS Rel13.CODE_LABELS Rel13.VAR_LABELS Rel13.header Rel13.blocks_title Rel13.symbols_title.
Definition rel14 : script :=
  Script Rel14.ORG None Rel14.DATA_REGIONS Rel14.CODE_LABELS Rel14.VAR_LABELS Rel14.header Rel14.blocks_title Rel14.symbols_title.
Definition scripts : list script := [rel12; rel10; e201; e220; rel13; rel14].

(** ** create_blocks_file *)

Record blk : Type := Blk { b_start : Z; b_end : Z; b_type : btype; b_label : option str }.

Definition block_type (t : dtype) : btype := match t with Words => WordData | _ => ByteData end.

(** [sorted(DATA_REGIONS, key=lambda r: r[0])]. *)
Definition by_start (l : list region) : list region := sort_by (fun a b => g_start a <=? g_start b) l.

Definition gap (pos stop : Z) : list blk := if pos <? stop then [Blk pos (stop - 1) Code None] else [].

Fixpoint blocks_from (pos : Z) (rs : list region) (stop : Z) : list blk :=
  match rs with
  | [] => gap pos stop
  | r :: rs' =>
      gap pos (g_start r) ++ Blk (g_start r) (g_end r) (block_type (g_type r)) (Some (g_label r)) :: blocks_from (g_end r + 1) rs' stop
  end.

(** mkbios.py: no region past the code, whose end is [code_end]; the rest of the
    image, up to [stop], is data. *)
Definition tail_blocks (pos code_end stop : Z) : list blk :=
  gap pos code_end ++ (if code_end <? stop then [Blk code_end (stop - 1) ByteData None] else []).
Fixpoint rel12_blocks (pos : Z) (rs : list region) (code_end stop : Z) : list blk :=
  match rs with
  | [] => tail_blocks pos code_end stop
  | r :: rs' =>
      if code_end <=? g_start r then tail_blocks pos code_end stop else
      gap pos (g_start r) ++
      Blk (g_start r) (Z.min (g_end r) (code_end - 1)) (block_type (g_type r)) None :: rel12_blocks (g_end r + 1) rs' code_end stop
  end.

Definition blocks (s : script) (len : Z) : list blk :=
  match s_code s with
  | Some size => rel12_blocks (s_org s) (by_start (s_regions s)) (s_org s + size) (s_org s + len)
  | None => blocks_from (s_org s) (by_start (s_regions s)) (s_org s + len)
  end.

Definition block_name (s : script) (i : nat) (b : blk) : str :=
  match s_code s with
  | None => match b_label b with Some l => lower l | None => chars "code" ++ decimal_width 3 (Z.of_nat i) end
  | Some _ =>
      match List.find (fun r => g_start r =? b_start b) (s_regions s) with
      | Some r => lower (g_label r)
      | None => chars (if decide (b_type b = Code) then "code" else "blk") ++ decimal_width 3 (Z.of_nat i)
      end
  end.

Definition type_name (t : btype) : str :=
  chars match t with Code => "code" | ByteData => "bytedata" | WordData => "worddata" end.

Definition block_line (s : script) (i : nat) (b : blk) : str :=
  block_name s i b ++ chars ":" ++ [9] ++ chars "start 0x" ++ fmt_hex 4 (b_start b) ++ chars " end 0x" ++ fmt_hex 4 (b_end b + 1) ++
  chars " type " ++ type_name (b_type b) ++ [10].

Definition blocks_text (s : script) (len : Z) : str := s_blocks_title s ++ concat (imap (block_line s) (blocks s len)).

(** ** create_symbols_file *)

Definition update (m : gmap Z str) (l : list (Z * str)) : gmap Z str := foldl (fun m al => <[fst al := snd al]> m) m l.

Definition all_labels (s : script) : gmap Z str :=
  update (update (update ∅ (s_code_labels s)) (s_var_labels s)) (map (fun r => (g_start r, g_label r)) (s_regions s)).

Definition symbols (s : script) : list (Z * str) := sort_by by_number (map_to_list (all_labels s)).

Definition symbol_line (al : Z * str) : str :=
  snd al ++ chars ":" ++ [9] ++ chars "equ" ++ [9] ++ chars "0x" ++ fmt_hex 4 (fst al) ++ [10].

Definition symbols_text (s : script) : str := s_symbols_title s ++ concat (map symbol_line (symbols s)).

(** ** convert_to_zmac *)

Definition header_line (line : str) : bool := startswith [59] line || bool_decide (line = []).

Fixpoint skip_header (lines : list str) : list str :=
  match lines with
  | [] => []
  | line :: lines' => if header_line line then skip_header lines' else lines
  end.

(** [re.sub(r'\bold\b', new, line)]. *)
Definition sub_word (old new line : str) : str := sub_labels (length line) [old] [(old, new)] false line.

Definition convert_line (line : str) : str :=
  let line := if startswith (chars "org ") (strip_with py_space line) then replace (chars "org ") (chars "ORG ") line else line in
  let line := sub_word (chars "defb") (chars "DB") line in
  sub_word (chars "defw") (chars "DW") line.

Definition convert_to_zmac (s : script) (asm : str) : str :=
  let lines := map (rstrip_with py_space) (readlines asm) in
  join [10] (s_header s ++ map convert_line (skip_header lines)) ++ [10].

(** ** main *)

Section Main.
Context (z80dasm : bytes -> Z -> str -> str -> option str).

(** The symbol file, the block file and the source, which is not written when the
    disassembler fails. *)
Definition mkbios (s : script) (data : bytes) : str * str * outcome str :=
  let syms := symbols_text s in
  let blks := blocks_text s (zlength data) in
  (syms, blks, match z80dasm data (s_org s) syms blks with
               | Some asm => Ret (convert_to_zmac s asm)
               | None => Raise (SystemExit 1)
               end).
End Main.

(** ** The blocks tile the image *)

Inductive tiles : Z -> list blk -> Z -> Prop :=
| tiles_nil p : tiles p [] p
| tiles_cons b bs q : b_start b <= b_end b -> tiles (b_end b + 1) bs q -> tiles (b_start b) (b :: bs) q.

Definition covers (b : blk) (a : Z) : Prop := b_start b <= a <= b_end b.

(** Regions in order that do not overlap. *)
Fixpoint ordered (pos : Z) (rs : list region) : bool :=
  match rs with
  | [] => true
  | r :: rs' => (pos <=? g_start r) && (g_start r <=? g_end r) && ordered (g_end r + 1) rs'
  end.

Fixpoint end_from (pos : Z) (rs : list region) : Z := match rs with [] => pos | r :: rs' => end_from (g_end r + 1) rs' end.

(** What the regions say of an address. *)
Definition type_in (rs : list region) (a : Z) : btype :=
  match List.find (fun r => (g_start r <=? a) && (a <=? g_end r)) rs with Some r => block_type (g_type r) | None => Code end.

Lemma tiles_app p l1 q l2 r : tiles p l1 q -> tiles q l2 r -> tiles p (l1 ++ l2) r.
Proof. induction 1; [done|]. intros H2. constructor; auto. Qed.

Lemma tiles_gap p q : p <= q -> tiles p (gap p q) q.
Proof.
  intros H. unfold gap. destruct (Z.ltb_spec p q).
  - apply (tiles_cons (Blk p (q - 1) Code None)); cbn; [lia|]. replace (q - 1 + 1) with q by lia. constructor.
  - replace q with p by lia. constructor.
Qed.

Lemma tiles_le p bs q : tiles p bs q -> p <= q.
Proof. induction 1; lia. Qed.

Lemma tiles_in p bs q b : tiles p bs q -> b ∈ bs -> p <= b_start b /\ b_end b < q.
Proof.
  intros H. induction H as [|b0 bs q Hb H IH]; intros Hin; [by apply elem_of_nil in Hin|].
  pose proof (tiles_le _ _ _ H). apply elem_of_cons in Hin as [->|Hin]; [lia|]. specialize (IH Hin). lia.
Qed.

Lemma tiles_one p bs q a : tiles p bs q -> p <= a < q ->
  exists i b, bs !! i = Some b /\ covers b a /\ forall j b', bs !! j = Some b' -> covers b' a -> j = i.
Proof.
  intros H. induction H as [|b bs q Hb H IH]; intros Ha; [lia|]. destruct (decide (a <= b_end b)) as [Hle|Hgt].
  - exists 0%nat, b. split; [done|]. split; [unfold covers; lia|]. intros [|j] b' Hj Hc; [done|].
    change (bs !! j = Some b') in Hj. apply list_elem_of_lookup_2 in Hj. pose proof (tiles_in _ _ _ _ H Hj). unfold covers in Hc. lia.
  - destruct IH as (i & b1 & Hi & Hc & Hu); [lia|]. exists (S i), b1. split; [done|]. split; [done|].
    intros [|j] b' Hj Hc'; [injection Hj as <-; unfold covers in Hc'; lia|]. f_equal. by apply (Hu j b').
Qed.

Lemma ordered_later pos rs : ordered pos rs = true -> forall r, r ∈ rs -> pos <= g_start r.
Proof.
  revert pos. induction rs as [|r0 rs IH]; intros pos H r Hr; [by apply elem_of_nil in Hr|]. cbn [ordered] in H.
  rewrite !andb_true_iff, !Z.leb_le in H. apply elem_of_cons in Hr as [->|Hr]; [lia|].
  destruct H as [H1 H2]. specialize (IH _ H2 r Hr). lia.
Qed.

Lemma type_before pos rs a : ordered pos rs = true -> a < pos -> type_in rs a = Code.
Proof.
  intros H Ha. unfold type_in. destruct (List.find _ rs) as [r|] eqn:E; [|done].
  apply find_some in E as [Hr%list_elem_of_In E]. pose proof (ordered_later _ _ H r Hr).
  rewrite andb_true_iff, !Z.leb_le in E. lia.
Qed.

Lemma type_cons r rs a : type_in (r :: rs) a =
  if (g_start r <=? a) && (a <=? g_end r) then block_type (g_type r) else type_in rs a.
Proof. unfold type_in. cbn [List.find]. by destruct ((g_start r <=? a) && (a <=? g_end r)). Qed.

Lemma blocks_tile stop rs : forall pos, ordered pos rs = true ->
  tiles pos (blocks_from pos rs stop) (Z.max stop (end_from pos rs)).
Proof.
  induction rs as [|r rs IH]; intros pos H; cbn [blocks_from end_from].
  - destruct (Z.le_gt_cases pos stop).
    + replace (Z.max stop pos) with stop by lia. by apply tiles_gap.
    + replace (Z.max stop pos) with pos by lia. unfold gap. rewrite (proj2 (Z.ltb_ge _ _)) by lia. constructor.
  - cbn [ordered] in H. rewrite !andb_true_iff, !Z.leb_le in H. destruct H as [[H1 H2] H3].
    apply (tiles_app _ _ (g_start r)); [by apply tiles_gap|].
    apply (tiles_cons (Blk (g_start r) (g_end r) (block_type (g_type r)) (Some (g_label r)))); cbn; [done|]. by apply IH.
Qed.

Lemma gap_covers p q b a : b ∈ gap p q -> covers b a -> b_type b = Code /\ p <= a < q.
Proof.
  unfold gap, covers. destruct (p <? q); [|by intros ?%elem_of_nil]. intros ->%list_elem_of_singleton. cbn. intros H.
  split; [done|lia].
Qed.

Lemma blocks_types stop rs : forall pos, ordered pos rs = true ->
  forall b a, b ∈ blocks_from pos rs stop -> covers b a -> b_type b = type_in rs a.
Proof.
  induction rs as [|r rs IH]; intros pos H b a Hb Hc; cbn [blocks_from] in Hb.
  - by apply (gap_covers _ _ _ _ Hb) in Hc as [-> _].
  - pose proof H as H0. cbn [ordered] in H. rewrite !andb_true_iff, !Z.leb_le in H. destruct H as [[H1 H2] H3].
    rewrite type_cons. apply elem_of_app in Hb as [Hb|Hb].
    + destruct (gap_covers _ _ _ _ Hb Hc) as [-> Ha]. rewrite (proj2 (Z.leb_gt (g_start r) a)) by lia. cbn [andb].
      symmetry. apply (type_before (g_end r + 1)); [done|lia].
    + apply elem_of_cons in Hb as [->|Hb].
      * unfold covers in Hc. cbn in Hc |- *. by rewrite !(proj2 (Z.leb_le _ _)) by lia.
      * pose proof (tiles_in _ _ _ _ (blocks_tile stop rs _ H3) Hb) as [Hs _]. unfold covers in Hc.
        rewrite (proj2 (Z.leb_gt a (g_end r))) by lia. rewrite andb_false_r. by apply (IH _ H3).
Qed.

Lemma rel12_tile code_end stop rs : forall pos, ordered pos rs = true ->
  tiles (Z.min pos code_end) (rel12_blocks pos rs code_end stop) (Z.max code_end stop).
Proof.
  assert (Ht : forall pos, tiles (Z.min pos code_end) (tail_blocks pos code_end stop) (Z.max code_end stop)).
  { intros pos. unfold tail_blocks. apply (tiles_app _ _ code_end).
    - destruct (Z.le_gt_cases pos code_end).
      + rewrite Z.min_l by done. by apply tiles_gap.
      + rewrite Z.min_r by lia. unfold gap. rewrite (proj2 (Z.ltb_ge _ _)) by lia. constructor.
    - destruct (Z.ltb_spec code_end stop).
      + rewrite Z.max_r by lia. apply (tiles_cons (Blk code_end (stop - 1) ByteData None)); cbn; [lia|].
        replace (stop - 1 + 1) with stop by lia. constructor.
      + rewrite Z.max_l by done. constructor. }
  induction rs as [|r rs IH]; intros pos H; cbn [rel12_blocks]; [apply Ht|].
  cbn [ordered] in H. rewrite !andb_true_iff, !Z.leb_le in H. destruct H as [[H1 H2] H3].
  destruct (Z.leb_spec code_end (g_start r)); [apply Ht|]. rewrite Z.min_l by lia.
  apply (tiles_app _ _ (g_start r)); [by apply tiles_gap|].
  apply (tiles_cons (Blk (g_start r) (Z.min (g_end r) (code_end - 1)) (block_type (g_type r)) None)); cbn; [lia|].
  replace (Z.min (g_end r) (code_end - 1) + 1) with (Z.min (g_end r + 1) code_end) by lia. by apply IH.
Qed.

Lemma rel12_types code_end stop rs : forall pos, ordered pos rs = true ->
  forall b a, b ∈ rel12_blocks pos rs code_end stop -> covers b a ->
  b_type b = if code_end <=? a then ByteData else type_in rs a.
Proof.
  assert (Ht : forall pos b a, b ∈ tail_blocks pos code_end stop -> covers b a ->
    (a < code_end /\ b_type b = Code) \/ (code_end <= a /\ b_type b = ByteData)).
  { intros pos b a [Hb|Hb]%elem_of_app Hc; [left; apply (gap_covers _ _ _ _ Hb) in Hc as [-> ?]; split; [lia|done]|].
    destruct (code_end <? stop); [|by apply elem_of_nil in Hb]. apply list_elem_of_singleton in Hb as ->.
    right. unfold covers in Hc. cbn in *. split; [lia|done]. }
  induction rs as [|r rs IH]; intros pos H b a Hb Hc; cbn [rel12_blocks] in Hb.
  - destruct (Ht _ _ _ Hb Hc) as [[Ha ->]|[Ha ->]]; destruct (Z.leb_spec code_end a); (done || lia).
  - pose proof H as H0. cbn [ordered] in H. rewrite !andb_true_iff, !Z.leb_le in H. destruct H as [[H1 H2] H3].
    destruct (Z.leb_spec code_end (g_start r)).
    { destruct (Ht _ _ _ Hb Hc) as [[Ha ->]|[Ha ->]]; destruct (Z.leb_spec code_end a); try done; try lia. symmetry. apply (type_before (g_start r)); [|lia].
      cbn [ordered]. by rewrite Z.leb_refl, (proj2 (Z.leb_le _ _)). }
    rewrite type_cons. apply elem_of_app in Hb as [Hb|Hb].
    + destruct (gap_covers _ _ _ _ Hb Hc) as [-> Ha]. rewrite (proj2 (Z.leb_gt code_end a)) by lia.
      rewrite (proj2 (Z.leb_gt (g_start r) a)) by lia. cbn [andb]. symmetry. apply (type_before (g_end r + 1)); [done|lia].
    + apply elem_of_cons in Hb as [->|Hb].
      * unfold covers in Hc. cbn in Hc |- *. rewrite (proj2 (Z.leb_gt code_end a)) by lia.
        by rewrite !(proj2 (Z.leb_le _ _)) by lia.
      * pose proof (tiles_in _ _ _ _ (rel12_tile code_end stop rs _ H3) Hb) as [Hs _]. unfold covers in Hc.
        rewrite (IH _ H3 b a Hb Hc). destruct (Z.leb_spec code_end a); [done|].
        rewrite (proj2 (Z.leb_gt a (g_end r))) by lia. by rewrite andb_false_r.
Qed.

(** What a script's tables say of an address of its image. *)
Definition type_at (s : script) (a : Z) : btype :=
  match s_code s with
  | Some size => if s_org s + size <=? a then ByteData else type_in (by_start (s_regions s)) a
  | None => type_in (by_start (s_regions s)) a
  end.

Definition tables_ok (s : script) : bool :=
  ordered (s_org s) (by_start (s_regions s)) && match s_code s with Some size => 0 <=? size | None => true end.

(** Where the tables end. *)
Definition tables_end (s : script) : Z :=
  match s_code s with Some size => s_org s + size | None => end_from (s_org s) (by_start (s_regions s)) end.

Lemma blocks_ok s len : tables_ok s = true -> 0 <= len ->
  tiles (s_org s) (blocks s len) (Z.max (s_org s + len) (tables_end s)) /\
  forall b a, b ∈ blocks s len -> covers b a -> b_type b = type_at s a.
Proof.
  unfold tables_ok, blocks, type_at, tables_end. intros [Ho Hc]%andb_true_iff Hl. destruct (s_code s) as [size|].
  - apply Z.leb_le in Hc. rewrite Z.max_comm. split.
    + rewrite <- (Z.min_l (s_org s) (s_org s + size)) at 1 by lia. by apply rel12_tile.
    + by apply rel12_types.
  - split; [by apply blocks_tile|by apply blocks_types].
Qed.

Lemma scripts_ok : Forall (fun s => tables_ok s = true) scripts.
Proof. decided. Qed.

(** ** Symbols *)

Definition assoc (l : list (Z * str)) (a : Z) : option str := snd <$> List.find (fun al => fst al =? a) l.

(** A region's name goes before a variable's, and that before a code label. *)
Definition label_at (s : script) (a : Z) : option str :=
  match assoc (map (fun r => (g_start r, g_label r)) (s_regions s)) a with
  | Some l => Some l
  | None => match assoc (s_var_labels s) a with Some l => Some l | None => assoc (s_code_labels s) a end
  end.

Lemma assoc_none l a : a ∉ map fst l -> assoc l a = None.
Proof.
  unfold assoc. induction l as [|[a' v] l IH]; [done|]. cbn [map fst List.find]. intros [Hne H]%not_elem_of_cons.
  rewrite (proj2 (Z.eqb_neq _ _)) by auto. by apply IH.
Qed.

Lemma update_assoc l a : NoDup (map fst l) -> forall m, update m l !! a = match assoc l a with Some v => Some v | None => m !! a end.
Proof.
  unfold update. induction l as [|[a' v] l IH]; intros H m; [done|]. cbn [map fst] in H. apply NoDup_cons in H as [Hn H].
  cbn [foldl fst snd]. rewrite IH by done. unfold assoc at 2. cbn [List.find fst]. destruct (Z.eqb_spec a' a) as [->|Hne].
  - by rewrite assoc_none, lookup_insert_eq.
  - fold (assoc l a). destruct (assoc l a); [done|]. by rewrite lookup_insert_ne.
Qed.

Definition unique_keys (s : script) : Prop :=
  NoDup (map fst (s_code_labels s)) /\ NoDup (map fst (s_var_labels s)) /\
  NoDup (map fst (map (fun r => (g_start r, g_label r)) (s_regions s))).

#[export] Instance unique_keys_dec s : Decision (unique_keys s).
Proof. unfold unique_keys. apply _. Defined.

Lemma scripts_keys : Forall unique_keys scripts.
Proof. decided. Qed.

Lemma symbols_sorted s : StronglySorted before (symbols s).
Proof. apply sort_by_sorted. apply NoDup_fst_map_to_list. Qed.

Lemma symbols_in s a l : s ∈ scripts -> (a, l) ∈ symbols s <-> label_at s a = Some l.
Proof.
  intros Hs. unfold symbols. rewrite sort_by_perm, elem_of_map_to_list.
  destruct (proj1 (Forall_forall _ _) scripts_keys s Hs) as (H1 & H2 & H3).
  unfold all_labels, label_at. rewrite !update_assoc by done.
  destruct (assoc (map _ _) a); [done|]. destruct (assoc (s_var_labels s) a); [done|].
  by destruct (assoc (s_code_labels s) a).
Qed.

(** Names that stand at two addresses, and labels of code that the tables declare
    to be data. *)
Definition repeated (l : list str) : list str := filter (fun n => (1 < length (filter (fun n' => n' = n) l))%nat) l.
Definition labels_in_data (s : script) : list str :=
  map snd (filter (fun al => type_at s (fst al) <> Code) (s_code_labels s)).

(** The size each script expects of its image; mkbios.py's is that of the code. *)
Definition images : list (script * Z) :=
  [(rel12, 0x1580); (rel10, Rel10.BINSIZE); (e201, E201.BINSIZE); (e220, E220.BINSIZE); (rel13, Rel13.BINSIZE); (rel14, Rel14.BINSIZE)].

Lemma images_ok : Forall (fun '(s, size) => tables_ok s = true /\ 0 <= size /\ tables_end s <= s_org s + size) images.
Proof. repeat constructor; vm_compute; congruence. Qed.

(** What the disassembler is told.  For each of the six scripts and an image of
    any length, every byte of the image lies in exactly one block, whose type is
    what the tables say of its address; when the image has at least the expected
    size no block reaches past it.  The symbol file lists the addresses in order,
    each once, under the name of its region, else of its variable, else of its code
    label.  Names are distinct, except that MOTORTIMER stands at two addresses in
    release 2.01 of the RC702E; in three scripts labels of code (the entries CONST
    and CONIN among them) lie in what the tables declare to be data. *)
Lemma disassembler_input :
  (forall s len a, s ∈ scripts -> s_org s <= a < s_org s + len ->
     exists i b, blocks s len !! i = Some b /\ covers b a /\ b_type b = type_at s a /\
       forall j b', blocks s len !! j = Some b' -> covers b' a -> j = i) /\
  (forall s size len b, (s, size) ∈ images -> size <= len -> b ∈ blocks s len ->
     s_org s <= b_start b /\ b_end b < s_org s + len) /\
  (forall s, s ∈ scripts -> StronglySorted before (symbols s) /\ forall a l, (a, l) ∈ symbols s <-> label_at s a = Some l) /\
  map (fun s => repeated (map snd (symbols s))) scripts = [[]; []; [chars "MOTORTIMER"; chars "MOTORTIMER"]; []; []; []] /\
  map labels_in_data scripts = map (map chars)
    [["CONST_ENTRY"; "CONIN_ENTRY"]; ["EXTFN0"; "EXTFN5"; "CONST_ENTRY"; "CONIN_ENTRY"]; [];
     ["HOME"; "FDCRESULT"; "FDCDMA_RD"; "FDCDMA_WR"; "RAMDISK"; "ISR_RAMD"; "CONST"; "CONIN"; "ISR_DEFAULT"]; []; []]%string.
Proof.
  split_and!; [| |by split; [apply symbols_sorted|intros; apply symbols_in]|vm_compute; reflexivity|vm_compute; reflexivity].
  - intros s len a Hs Ha. destruct (blocks_ok s len (proj1 (Forall_forall _ _) scripts_ok s Hs)) as [Ht Hty]; [lia|].
    destruct (tiles_one _ _ _ a Ht) as (i & b & Hi & Hc & Hu); [lia|]. exists i, b.
    split; [done|]. split; [done|]. split; [|done]. apply Hty; [|done]. by apply list_elem_of_lookup_2 in Hi.
  - intros s size len b Hs Hl Hb. destruct (proj1 (Forall_forall _ _) images_ok _ Hs) as (Ho & H0 & He).
    destruct (blocks_ok s len Ho) as [Ht _]; [lia|]. destruct (tiles_in _ _ _ _ Ht Hb). lia.
Qed.

(** ** The source *)

Lemma first_after_words f s : no_word_first s -> no_word_first (map_words f s).
Proof. destruct s as [|c s]; [done|]. intros H. by rewrite map_words_other. Qed.

Lemma map_words_twice f g s : (forall w, word w -> word (f w)) -> map_words g (map_words f s) = map_words (fun w => g (f w)) s.
Proof.
  intros Hf. induction s as [|c s Hc IH|w rest Hw Hr IH] using text_ind; [done| |].
  - rewrite !map_words_other by done. by rewrite IH.
  - rewrite map_words_word by done. rewrite map_words_word by auto using first_after_words.
    rewrite map_words_word by done. by rewrite IH.
Qed.

Lemma map_words_ext f g s : (forall w, word w -> f w = g w) -> map_words f s = map_words g s.
Proof.
  intros Hf. induction s as [|c s Hc IH|w rest Hw Hr IH] using text_ind; [done| |].
  - rewrite !map_words_other by done. by rewrite IH.
  - rewrite !map_words_word by done. by rewrite IH, Hf.
Qed.

Lemma map_words_keep f s : (forall w, word w -> f w = w) -> map_words f s = s.
Proof.
  intros Hf. induction s as [|c s Hc IH|w rest Hw Hr IH] using text_ind; [done| |].
  - rewrite map_words_other by done. by rewrite IH.
  - rewrite map_words_word by done. by rewrite IH, Hf.
Qed.

Lemma sub_word_words old new line : word old -> sub_word old new line = map_words (renamed [(old, new)]) line.
Proof.
  intros Ho. unfold sub_word. apply sub_labels_words; [constructor; [done|constructor]|done|lia|by left].
Qed.

(** The assembler's names for the disassembler's directives. *)
Definition directives : list (str * str) := [(chars "defb", chars "DB"); (chars "defw", chars "DW")].

(** A line, its [org] in capitals. *)
Definition org_line (line : str) : str :=
  if startswith (chars "org ") (strip_with py_space line) then replace (chars "org ") (chars "ORG ") line else line.

Lemma directives_renamed w : renamed [(chars "defw", chars "DW")] (renamed [(chars "defb", chars "DB")] w) = renamed directives w.
Proof.
  unfold renamed, directives. cbn [dict_get]. destruct (decide (w = chars "defb")) as [->|]; [reflexivity|].
  cbn [from_option id]. by destruct (decide (w = chars "defw")).
Qed.

Lemma directives_ok : labels_ok directives.
Proof. decided. Qed.

Lemma convert_line_words line : convert_line line = map_words (renamed directives) (org_line line).
Proof.
  unfold convert_line, org_line. cbv zeta. rewrite !sub_word_words by decided.
  rewrite map_words_twice; [apply map_words_ext; intros w _; apply directives_renamed|].
  intros w Hw. apply renamed_word; [decided|done].
Qed.

Lemma directives_gone line old new : (old, new) ∈ directives -> sub_word old new (convert_line line) = convert_line line.
Proof.
  intros H. assert (Ho : word old) by (apply (proj1 (Forall_forall _ _) directives_ok) in H; by destruct H).
  rewrite sub_word_words, convert_line_words by done. rewrite map_words_twice
    by (intros w Hw; apply renamed_word; [apply directives_ok|done]).
  apply map_words_ext. intros w _. unfold renamed, directives in *.
  rewrite !elem_of_cons in H. destruct H as [[= -> ->]|[[= -> ->]|H%elem_of_nil]]; [| |done];
    cbn [dict_get]; destruct (decide (w = chars "defb")) as [->|]; try reflexivity;
    destruct (decide (w = chars "defw")) as [->|]; try reflexivity; cbn [from_option id]; by rewrite decide_False.
Qed.

Lemma skip_header_ok hdr line body : Forall (fun l => header_line l = true) hdr -> header_line line = false ->
  skip_header (hdr ++ line :: body) = line :: body.
Proof.
  intros Hh Hl. induction Hh as [|l hdr Hh' Hh IH]; cbn [app skip_header]; [by rewrite Hl|by rewrite Hh'].
Qed.

(** The source that is written.  Whatever the disassembler, a script hands it
    the image, its address and the two files; when it fails the script ends with
    status 1.  Of a listing, whose lines up to the first other one are comments or
    empty, the source has the script's own header and then every further line in
    order, without blanks at its end, with the words defb and defw, and no part of
    another word, replaced by DB and DW, and with org in capitals; no word is left
    that a second run would replace. *)
Lemma sources_are_converted z80dasm s data :
  let '(syms, blks, source) := mkbios z80dasm s data in
  syms = s_symbols_title s ++ concat (map symbol_line (symbols s)) /\
  blks = s_blocks_title s ++ concat (imap (block_line s) (blocks s (zlength data))) /\
  (z80dasm data (s_org s) syms blks = None -> source = Raise (SystemExit 1)) /\
  (forall hdr line body, Forall clean (hdr ++ line :: body) ->
     Forall (fun l => header_line (rstrip_with py_space l) = true) hdr -> header_line (rstrip_with py_space line) = false ->
     z80dasm data (s_org s) syms blks = Some (listing (hdr ++ line :: body)) ->
     source = Ret (listing (s_header s ++
       map (fun l => map_words (renamed directives) (org_line (rstrip_with py_space l))) (line :: body)))) /\
  (forall l old new, (old, new) ∈ directives -> sub_word old new (convert_line l) = convert_line l).
Proof.
  unfold mkbios. split_and!; [done|done| | |apply directives_gone].
  - by intros ->.
  - intros hdr line body Hc Hh Hl ->. unfold convert_to_zmac. cbv zeta.
    rewrite readlines_listing by (by destruct hdr). rewrite map_app. cbn [map].
    rewrite skip_header_ok; [|by apply Forall_map|done].
    unfold listing. do 3 f_equal. cbn [map]. rewrite convert_line_words, map_map. do 2 f_equal. apply map_ext.
    intros l. apply convert_line_words.
Qed.

(** C24: the disassembler's input and what becomes of its output.  For each of the six
    scripts and an image of any length, every byte of the image lies in exactly one
    block, whose type is what the tables say of its address, and for an image of the
    expected size no block reaches past it.  The symbol file lists the addresses in
    order, each once, under the name of its region, else of its variable, else of its
    code label.  Names are distinct, except that MOTORTIMER stands at two addresses in
    release 2.01 of the RC702E; in three scripts labels of code (the entries CONST and
    CONIN among them) lie in what the tables declare to be data.  Whatever the
    disassembler, it gets the image, its address and the two files; when it fails the
    script ends with status 1.  Of a listing, whose lines up to the first other one are
    comments or empty, the source has the script's own header and then every further
    line in order, without blanks at its end, with the words defb and defw, and no part
    of another word, replaced by DB and DW, and with org in capitals; no word is left
    that a second run would replace. *)
Theorem systems_are_disassembled :
  ((forall s len a, s ∈ scripts -> s_org s <= a < s_org s + len ->
     exists i b, blocks s len !! i = Some b /\ covers b a /\ b_type b = type_at s a /\
       forall j b', blocks s len !! j = Some b' -> covers b' a -> j = i) /\
  (forall s size len b, (s, size) ∈ images -> size <= len -> b ∈ blocks s len ->
     s_org s <= b_start b /\ b_end b < s_org s + len) /\
  (forall s, s ∈ scripts -> StronglySorted before (symbols s) /\ forall a l, (a, l) ∈ symbols s <-> label_at s a = Some l) /\
  map (fun s => repeated (map snd (symbols s))) scripts = [[]; []; [chars "MOTORTIMER"; chars "MOTORTIMER"]; []; []; []] /\
  map labels_in_data scripts = map (map chars)
    [["CONST_ENTRY"; "CONIN_ENTRY"]; ["EXTFN0"; "EXTFN5"; "CONST_ENTRY"; "CONIN_ENTRY"]; [];
     ["HOME"; "FDCRESULT"; "FDCDMA_RD"; "FDCDMA_WR"; "RAMDISK"; "ISR_RAMD"; "CONST"; "CONIN"; "ISR_DEFAULT"]; []; []]%string) /\
  (forall z80dasm s data,
  let '(syms, blks, source) := mkbios z80dasm s data in
  syms = s_symbols_title s ++ concat (map symbol_line (symbols s)) /\
  blks = s_blocks_title s ++ concat (imap (block_line s) (blocks s (zlength data))) /\
  (z80dasm data (s_org s) syms blks = None -> source = Raise (SystemExit 1)) /\
  (forall hdr line body, Forall clean (hdr ++ line :: body) ->
     Forall (fun l => header_line (rstrip_with py_space l) = true) hdr -> header_line (rstrip_with py_space line) = false ->
     z80dasm data (s_org s) syms blks = Some (listing (hdr ++ line :: body)) ->
     source = Ret (listing (s_header s ++
       map (fun l => map_words (renamed directives) (org_line (rstrip_with py_space l))) (line :: body)))) /\
  (forall l old new, (old, new) ∈ directives -> sub_word old new (convert_line l) = convert_line l)).
Proof. split; [exact disassembler_input|exact sources_are_converted]. Qed.

Lemma systems_are_disassembled_witness :
  ((exists i b, blocks rel14 5248 !! i = Some b /\ covers b 0xE200 /\ b_type b = Code) /\
  label_at rel12 0xDCB4 = Some (chars "SIOBEXT")) /\
  (snd (mkbios (fun _ _ _ _ => Some (listing [chars "; z80dasm"; []; chars "x: defb 'A' ;defbx  "])) rel14 [0; 1]) =
    Ret (listing (s_header rel14 ++ [chars "x: DB 'A' ;defbx"])) /\
  snd (mkbios (fun _ _ _ _ => None) rel14 [0; 1]) = Raise (SystemExit 1)).
Proof.
  split.
  { split.
  - destruct (proj1 (proj1 systems_are_disassembled) rel14 5248 0xE200) as (i & b & Hi & Hc & Ht & _);
      [unfold scripts; rewrite !elem_of_cons; tauto|vm_compute; split; congruence|].
    exists i, b. split; [exact Hi|]. split; [exact Hc|]. rewrite Ht. vm_compute. reflexivity.
  - apply (proj1 (proj2 (proj2 (proj1 systems_are_disassembled))) rel12); [apply list_elem_of_here|].
    apply list_elem_of_In. assert (existsb (fun al => bool_decide (al = (0xDCB4, chars "SIOBEXT"))) (symbols rel12) = true) as H
      by (vm_compute; reflexivity).
    apply existsb_exists in H as (al & Hal & E). apply bool_decide_eq_true in E as ->. exact Hal. }
  { split.
  - exact (proj1 (proj2 (proj2 (proj2 ((proj2 systems_are_disassembled)
      (fun _ _ _ _ => Some (listing [chars "; z80dasm"; []; chars "x: defb 'A' ;defbx  "])) rel14 [0; 1]))))
      [chars "; z80dasm"; []] (chars "x: defb 'A' ;defbx  ") [] ltac:(decided) ltac:(decided) ltac:(reflexivity) ltac:(reflexivity)).
  - exact (proj1 (proj2 (proj2 ((proj2 systems_are_disassembled) (fun _ _ _ _ => None) rel14 [0; 1]))) eq_refl). }
Defined.
