(* ===== verification/ConvTables.v ===== *)
(** * Character conversion tables: rcbios/sw1711_files/extract_conv_tables.py.

    CONFI.COM holds seven tables of three times 128 bytes.  The script cuts them out
    ([extract_tables]) and writes each for three translators: as DB lines for the
    macro assembler ([write_mac_file]), as an include file for z88dk
    ([write_z88dk_inc]) and as the inside of a C initialiser ([write_c_header]).
    The Markdown report is in [Report]; messages are left out.  Comments that are None in
    the source have no entry in the lists here. *)

From S2P Require Import Prelude Imd Hex Text Labels.
#[local] Open Scope Z_scope.

Definition LANGUAGES : list string := ["Danish"; "Swedish"; "German"; "UK_ASCII"; "US_ASCII"; "French"; "Library"]%string.
Definition TABLE_OFFSET : Z := 0x0EF5.
Definition TABLE_SIZE : Z := 384.

Record table : Type := Table { t_name : str; t_output : bytes; t_input : bytes; t_semigraphic : bytes }.

Definition all_of (t : table) : bytes := t_output t ++ t_input t ++ t_semigraphic t.

Fixpoint tables_from (data : bytes) (i : Z) (langs : list string) : outcome (list table) :=
  match langs with
  | [] => Ret []
  | lang :: langs' =>
      let raw := takeZ TABLE_SIZE (dropZ (TABLE_OFFSET + i * TABLE_SIZE) data) in
      if negb (zlength raw =? TABLE_SIZE) then Raise ValueError else
      rest ← tables_from data (i + 1) langs';
      Ret (Table (chars lang) (slice 0 128 raw) (slice 128 256 raw) (slice 256 384 raw) :: rest)
  end.

Definition extract_tables (data : bytes) : outcome (list table) := tables_from data 0 LANGUAGES.

Definition identity_map : bytes := seqZ 0 128.

(** ** The comments *)

Definition dquote : string := String (Ascii.ascii_of_nat 34) EmptyString.
Definition comments (l : list (Z * string)) : list (Z * str) := map (fun '(k, s) => (k, chars s)) l.

Definition OUTPUT_COMMENTS : list (Z * str) := comments
  [
   (0, "not used"); (1, "A-CTRL"); (3, "C-CTRL"); (4, "D-CTRL"); (5, "<--"); (6, "F-CTRL"); (7, "G-CTRL");
   (8, "H-CTRL"); (9, "-->"); (10, "DOWN ARROW"); (11, "K-CTRL"); (12, "CLEAR"); (13, "LEFT KNEE, M-CTRL, CR");
   (14, "N-CTRL"); (18, "B-CTRL"); (19, "S-CTRL"); (24, "X-CTRL"); (26, "UP ARROW, Z-CTRL"); (27, "ESCAPE");
   (32, "SPACE"); (33, "!"); (34, dquote); (35, "# (PARAGRAPH)"); (36, "$"); (37, "%"); (38, "&"); (39, "'");
   (40, "("); (41, ")"); (42, "*"); (43, "+"); (44, ","); (45, "- (MINUS)"); (46, "."); (47, "/"); (48, "0");
   (49, "1"); (50, "2"); (51, "3"); (52, "4"); (53, "5"); (54, "6"); (55, "7"); (56, "8"); (57, "9");
   (58, ":"); (59, ";"); (60, "<"); (61, "="); (62, ">"); (63, "?"); (64, "@"); (65, "A"); (66, "B");
   (67, "C"); (68, "D"); (69, "E"); (70, "F"); (71, "G"); (72, "H"); (73, "I"); (74, "J"); (75, "K");
   (76, "L"); (77, "M"); (78, "N"); (79, "O"); (80, "P"); (81, "Q"); (82, "R"); (83, "S"); (84, "T");
   (85, "U"); (86, "V"); (87, "W"); (88, "X"); (89, "Y"); (90, "Z"); (91, "["); (92, "\"); (93, "]");
   (94, "^"); (95, "_"); (96, "`"); (97, "a"); (98, "b"); (99, "c"); (100, "d"); (101, "e"); (102, "f");
   (103, "g"); (104, "h"); (105, "i"); (106, "j"); (107, "k"); (108, "l"); (109, "m"); (110, "n"); (111, "o");
   (112, "p"); (113, "q"); (114, "r"); (115, "s"); (116, "t"); (117, "u"); (118, "v"); (119, "w"); (120, "x");
   (121, "y"); (122, "z"); (123, "{"); (124, "|"); (125, "}"); (126, "~"); (127, "RUBOUT")
  ]%string.

Definition INPUT_COMMENTS : list (Z * str) := comments
  [
   (1, "A-CTRL"); (2, "B-CTRL"); (3, "C-CTRL"); (4, "D-CTRL"); (5, "E-CTRL"); (6, "F-CTRL"); (7, "G-CTRL");
   (8, "H-CTRL"); (9, "I-CTRL"); (10, "J-CTRL"); (11, "K-CTRL"); (12, "L-CTRL"); (13, "M-CTRL, CR");
   (14, "N-CTRL"); (15, "O-CTRL"); (16, "P-CTRL"); (17, "Q-CTRL"); (18, "R-CTRL"); (19, "S-CTRL");
   (20, "T-CTRL"); (21, "U-CTRL"); (22, "V-CTRL"); (23, "W-CTRL"); (24, "X-CTRL"); (25, "Y-CTRL");
   (26, "Z-CTRL"); (27, "ESC"); (30, "ERA EOLN"); (31, "ERA EOS"); (32, "SPACE"); (33, "!"); (34, dquote);
   (35, "#"); (36, "$"); (37, "%"); (38, "&"); (39, "'"); (40, "("); (41, ")"); (42, "*"); (43, "+");
   (44, ","); (45, "-"); (46, "."); (47, "/"); (48, "0"); (49, "1"); (50, "2"); (51, "3"); (52, "4");
   (53, "5"); (54, "6"); (55, "7"); (56, "8"); (57, "9"); (58, ":"); (59, ";"); (60, "<"); (61, "=");
   (62, ">"); (63, "?"); (64, "@"); (65, "A"); (66, "B"); (67, "C"); (68, "D"); (69, "E"); (70, "F");
   (71, "G"); (72, "H"); (73, "I"); (74, "J"); (75, "K"); (76, "L"); (77, "M"); (78, "N"); (79, "O");
   (80, "P"); (81, "Q"); (82, "R"); (83, "S"); (84, "T"); (85, "U"); (86, "V"); (87, "W"); (88, "X");
   (89, "Y"); (90, "Z"); (91, "["); (92, "\"); (93, "]"); (94, "^"); (95, "_"); (96, "`"); (97, "a");
   (98, "b"); (99, "c"); (100, "d"); (101, "e"); (102, "f"); (103, "g"); (104, "h"); (105, "i"); (106, "j");
   (107, "k"); (108, "l"); (109, "m"); (110, "n"); (111, "o"); (112, "p"); (113, "q"); (114, "r"); (115, "s");
   (116, "t"); (117, "u"); (118, "v"); (119, "w"); (120, "x"); (121, "y"); (122, "z"); (123, "{"); (124, "|");
   (125, "}"); (126, "~"); (127, "RUBOUT")
  ]%string.

Definition INPUT_UPPER_COMMENTS : list (Z * str) := comments
  [
   (129, "HOME"); (131, "PA1"); (132, "PA2"); (133, "LEFT TAB"); (136, "LEFT ARROW"); (137, "RIGHT TAB");
   (138, "DOWN ARROW"); (139, "PA3"); (140, "CLEAR"); (141, "CR"); (142, "PA4"); (144, "PA5");
   (148, "SHIFT PA1"); (149, "SHIFT PA2"); (152, "RIGHT ARROW"); (153, "SHIFT PA3"); (154, "UP ARROW");
   (155, "SHIFT ESCAPE"); (156, "SHIFT PA4"); (158, "SHIFT PA5"); (160, "SPACE"); (161, "1 (NUMPAD)");
   (162, "2"); (163, "3"); (164, "4"); (165, "5"); (166, "6"); (167, "7"); (168, "8"); (169, "9"); (171, "0");
   (172, "-"); (174, "."); (175, "SHIFT PF4"); (176, "0"); (177, "1"); (178, "2"); (179, "3"); (180, "4");
   (181, "5"); (182, "6"); (183, "7"); (184, "8"); (185, "9"); (187, "0"); (188, "-"); (190, ".");
   (191, "PF4"); (192, "SHIFT HOME"); (193, "PF7"); (197, "SHIFT LEFT TAB"); (198, "PF3");
   (200, "SHIFT LEFT ARROW"); (201, "SHIFT RIGHT TAB"); (202, "SHIFT DOWN ARROW"); (203, "PF5"); (204, "PF6");
   (208, "PF2"); (210, "PF8"); (214, "PF1"); (216, "SHIFT RIGHT ARROW"); (218, "SHIFT UP ARROW");
   (223, "0 (NUL)"); (225, "SHIFT PF7"); (230, "SHIFT PF3"); (235, "SHIFT PF5"); (236, "SHIFT PF6");
   (240, "SHIFT PF2"); (242, "SHIFT PF8"); (246, "SHIFT PF1"); (255, "SHIFT RUBOUT")
  ]%string.

Definition comment_of (cs : list (Z * str)) (position : Z) : option str := snd <$> List.find (fun c => fst c =? position) cs.

(** ** The writers *)

(** [f'{n:3d}'] of a non-negative number. *)
Definition pad3 (n : Z) : str := let d := decimal n in replicate (3 - length d) 32 ++ d.

Definition line (l : str) : str := l ++ [10].

Definition format_db (value position : Z) (cs : list (Z * str)) : str :=
  match comment_of cs position with
  | Some c => line ([9] ++ chars "DB" ++ [9] ++ pad3 value ++ chars ";" ++ [9; 9] ++ pad3 position ++ chars ":" ++ [9; 9] ++ c)
  | None => line ([9] ++ chars "DB" ++ [9] ++ pad3 value ++ chars ";" ++ [9; 9] ++ pad3 position ++ chars ":")
  end.

Definition page_break : str := [10; 9] ++ chars "PAGE" ++ [10; 10].

(** The lines of one of the tables: [base] is the position of its first byte, and
    after the bytes [breaks] counts from there a page ends. *)
Definition db_lines (values : bytes) (base : Z) (cs : list (Z * str)) (breaks : list Z) : str :=
  concat (imap (fun i v => format_db v (base + Z.of_nat i) cs ++
    (if decide (base + Z.of_nat i ∈ breaks) then page_break else [])) values).

Definition mac_name (t : table) : str := map (fun c => if c =? 95 then 32 else c) (upper (t_name t)).

Definition write_mac_file (t : table) : str :=
  line ([9] ++ chars "TITLE" ++ [9] ++ chars "OUTPUT CONVERSION TABLE") ++
  line (chars "; SUBTTL" ++ [9] ++ mac_name t) ++
  line ([9] ++ chars "PAGE") ++ line [] ++
  line (chars ";              ASCII          OUTPUT            COMMENT") ++
  db_lines (t_output t) 0 OUTPUT_COMMENTS [35; 73; 83; 111; 124] ++
  line [] ++ line ([9] ++ chars "; TITLE INPUT CONVERSION TABLE") ++
  line ([9] ++ chars "; SUBTTL " ++ mac_name t) ++
  line [] ++ line ([9] ++ chars "PAGE") ++ line [] ++
  line (chars ";             ASCII     INPUT" ++ [9; 9] ++ chars "COMMENT") ++
  db_lines (t_input t) 0 INPUT_COMMENTS [35; 73; 83; 111; 124] ++
  db_lines (t_semigraphic t) 128 INPUT_UPPER_COMMENTS [149; 185; 222; 245] ++
  line [].

Definition hex0x (b : Z) : str := chars "0x" ++ fmt_hex 2 b.

(** [range(start, end, 8)]: the rows of eight bytes. *)
Definition rows (start end_ : nat) (l : bytes) : list (nat * bytes) :=
  map (fun k => (start + 8 * k, slice (start + 8 * k) (start + 8 * k + 8) l)%nat) (seq 0 ((end_ - start) / 8)).

Definition sections_inc : list (string * nat * nat) :=
  [("outcon[128]: output conversion (character -> display)", 0, 128);
   ("inconv lower[128]: input conversion (keyboard -> internal)", 128, 256);
   ("inconv upper[128]: extended keyboard / semigraphic", 256, 384)]%string%nat.

Definition inc_row (r : nat * bytes) : str :=
  line (chars "    defb " ++ join [44] (map hex0x (snd r)) ++ chars " ; " ++ fmt_hex 0 (Z.of_nat (fst r) / 16) ++ chars "x").

Definition write_z88dk_inc (t : table) : str :=
  line (chars "; " ++ t_name t ++ chars " character conversion tables for RC702") ++
  line (chars "; Generated from CONFI.COM by extract_conv_tables.py") ++
  line (chars "; 384 bytes: outcon[128] + inconv[128] + extended/semigraphic[128]") ++ line [] ++
  concat (map (fun '(label, a, b) =>
    line (chars "    ; --- " ++ chars label ++ chars " ---") ++ concat (map inc_row (rows a b (all_of t))) ++ line []) sections_inc).

Definition sections_c : list (string * nat * nat) :=
  [("outcon[128]: output conversion", 0, 128);
   ("inconv lower[128]: input conversion", 128, 256);
   ("inconv upper[128]: extended keyboard / semigraphic", 256, 384)]%string%nat.

Definition c_row (r : nat * bytes) : str :=
  line (chars "    " ++ join [44; 32] (map hex0x (snd r)) ++ (if (fst r + 8 <? 384)%nat then [44] else [])).

Definition write_c_header (t : table) : str :=
  line (chars "/* " ++ t_name t ++ chars " character conversion tables for RC702") ++
  line (chars " * Generated from CONFI.COM by extract_conv_tables.py") ++
  line (chars " * 384 bytes: outcon[128] + inconv[128] + extended/semigraphic[128] */") ++
  concat (map (fun '(label, a, b) =>
    line [] ++ line (chars "    /* " ++ chars label ++ chars " */") ++ concat (map c_row (rows a b (all_of t)))) sections_c).

(** ** main *)

Definition MAC_FILENAMES : list (string * string) :=
  [("Danish", "DANISH.MAC"); ("Swedish", "SWEDISH.MAC"); ("German", "GERMAN.MAC"); ("UK_ASCII", "UK_ASCII.MAC");
   ("US_ASCII", "US_ASCII.MAC"); ("French", "FRENCH.MAC"); ("Library", "LIBRARY.MAC")]%string.

Definition mac_filename (name : str) : outcome str :=
  match List.find (fun p => bool_decide (chars (fst p) = name)) MAC_FILENAMES with
  | Some p => Ret (chars (snd p))
  | None => Raise KeyError
  end.

Fixpoint mac_files (ts : list table) : outcome (list (str * str)) :=
  match ts with
  | [] => Ret []
  | t :: ts' => n ← mac_filename (t_name t); rest ← mac_files ts'; Ret ((n, write_mac_file t) :: rest)
  end.

(** The files written: the binary file, and by name those in the [--mac-dir]
    directory, if there is one, and in rcbios-in-c, if that exists. *)
Definition extract_conv_tables (data : bytes) (mac_dir inc_dir : bool) : outcome (bytes * list (str * str) * list (str * str)) :=
  tables ← extract_tables data;
  match tables with
  | [] => Raise IndexError
  | danish :: _ =>
      if negb (bool_decide (t_output danish = identity_map)) then Raise AssertionError else
      if negb (bool_decide (t_input danish = identity_map)) then Raise AssertionError else
      let bin := concat (map all_of tables) in
      if negb mac_dir then Ret (bin, [], []) else
      macs ← mac_files tables;
      let incs := map (fun t => (lower (t_name t) ++ chars "_tables.inc", write_z88dk_inc t)) tables in
      let hs := map (fun t => (lower (t_name t) ++ chars "_tables.h", write_c_header t)) tables in
      Ret (bin, macs, if inc_dir then incs ++ hs else [])
  end.

(** ** The translators' view

    What the three translators take from a text: the operand of a DB line up to the
    semicolon, the operands of a defb line, and the numbers between the commas of
    the lines outside the C comments. *)
Definition before (c : Z) (s : str) : str := match split_on c s with p :: _ => p | [] => [] end.

Fixpoint int16_list (ps : list str) : outcome bytes :=
  match ps with
  | [] => Ret []
  | p :: ps' => v ← int16 p; r ← int16_list ps'; Ret (v :: r)
  end.

Definition read_db (l : str) : outcome bytes :=
  if startswith ([9] ++ chars "DB" ++ [9]) l then v ← int_of (before 59 (drop 4 l)); Ret [v] else Ret [].

Definition read_defb (l : str) : outcome bytes :=
  if startswith (chars "    defb ") l then int16_list (split_on 44 (before 59 (drop 9 l))) else Ret [].

Fixpoint read_all (f : str -> outcome bytes) (ls : list str) : outcome bytes :=
  match ls with
  | [] => Ret []
  | l :: ls' => a ← f l; b ← read_all f ls'; Ret (a ++ b)
  end.

Definition mac_bytes (text : str) : outcome bytes := read_all read_db (split_on 10 text).
Definition inc_bytes (text : str) : outcome bytes := read_all read_defb (split_on 10 text).

Definition c_rows (text : str) : str := concat (filter (fun l => startswith (chars "    0x") l = true) (split_on 10 text)).
Definition c_bytes (text : str) : outcome bytes := int16_list (split_on 44 (c_rows text)).

(** ** Lines *)

Lemma split_piece c l rest : c ∉ l -> split_on c (l ++ c :: rest) = l :: split_on c rest.
Proof. intros H. by rewrite split_on_app, split_on_none. Qed.

Lemma split_line l rest : 10 ∉ l -> split_on 10 (line l ++ rest) = l :: split_on 10 rest.
Proof. unfold line. rewrite <- app_assoc. apply split_piece. Qed.

(** A text whose lines give [bs], whatever comes after it. *)
Definition gives (f : str -> outcome bytes) (text bs : str) : Prop :=
  forall rest, read_all f (split_on 10 (text ++ rest)) = (b ← read_all f (split_on 10 rest); Ret (bs ++ b)).

Lemma gives_nil f : gives f [] [].
Proof. intros rest. cbn [app]. by destruct (read_all f (split_on 10 rest)). Qed.

Lemma gives_eq f text b b' : b = b' -> gives f text b -> gives f text b'.
Proof. by intros ->. Qed.

Lemma gives_app f t1 b1 t2 b2 : gives f t1 b1 -> gives f t2 b2 -> gives f (t1 ++ t2) (b1 ++ b2).
Proof.
  intros H1 H2 rest. rewrite <- app_assoc, H1, H2. destruct (read_all f (split_on 10 rest)); [|done]. mred.
  by rewrite app_assoc.
Qed.

Lemma gives_line f l bs : 10 ∉ l -> f l = Ret bs -> gives f (line l) bs.
Proof. intros Hl Hf rest. rewrite split_line by done. cbn [read_all]. by rewrite Hf. Qed.

Lemma gives_concat {A} f (g : A -> str) (h : A -> bytes) xs : (forall x, x ∈ xs -> gives f (g x) (h x)) ->
  gives f (concat (map g xs)) (concat (map h xs)).
Proof.
  induction xs as [|x xs IH]; intros H; [apply gives_nil|]. cbn [map concat]. apply gives_app.
  - apply H, list_elem_of_here.
  - apply IH. intros y Hy. apply H. by apply elem_of_cons; right.
Qed.

Lemma gives_read f text bs : gives f text bs -> f [] = Ret [] -> read_all f (split_on 10 text) = Ret bs.
Proof. intros H Hf. rewrite <- (app_nil_r text), H. cbn. rewrite Hf. mred. by rewrite app_nil_r. Qed.

(** ** Numbers *)

Definition number_ok (v : Z) : Prop :=
  int_of (pad3 v) = Ret v /\ (59 ∉ pad3 v) /\ (10 ∉ pad3 v) /\
  (59 ∉ hex0x v) /\ (44 ∉ hex0x v) /\ (10 ∉ hex0x v) /\
  int16 (hex0x v) = Ret v /\ int16 (hex0x v ++ [32]) = Ret v /\ int16 (32 :: hex0x v) = Ret v /\
  int16 (chars "    " ++ hex0x v) = Ret v /\ (10 ∉ fmt_hex 0 v).

#[export] Instance number_ok_dec v : Decision (number_ok v).
Proof. unfold number_ok. apply _. Defined.

Lemma numbers_ok : Forall number_ok (seqZ 0 384).
Proof. decided. Qed.

Lemma number v : 0 <= v < 384 -> number_ok v.
Proof. intros H. apply (proj1 (Forall_forall _ _) numbers_ok). apply elem_of_seqZ. lia. Qed.

Lemma byte_number v : is_byte v -> number_ok v.
Proof. intros [H1 H2]. apply number. lia. Qed.

(** ** DB lines *)

Lemma before_at c l rest : c ∉ l -> before c (l ++ c :: rest) = l.
Proof. intros H. unfold before. by rewrite split_piece. Qed.

Lemma read_db_line v rest : is_byte v -> read_db ([9] ++ chars "DB" ++ [9] ++ pad3 v ++ chars ";" ++ rest) = Ret [v].
Proof.
  intros (Hv & H59 & _)%byte_number. unfold read_db. change (drop 4 _) with (pad3 v ++ 59 :: rest).
  assert (startswith ([9] ++ chars "DB" ++ [9]) ([9] ++ chars "DB" ++ [9] ++ pad3 v ++ chars ";" ++ rest) = true) as ->
    by (unfold startswith; by apply bool_decide_eq_true).
  rewrite before_at by done. by rewrite Hv.
Qed.

Definition comments_ok (cs : list (Z * str)) : Prop := Forall (fun c => 10 ∉ snd c) cs.

Lemma comment_lists_ok : comments_ok OUTPUT_COMMENTS /\ comments_ok INPUT_COMMENTS /\ comments_ok INPUT_UPPER_COMMENTS.
Proof. unfold comments_ok. split_and!; decided. Qed.

Lemma comment_of_in cs p c : comments_ok cs -> comment_of cs p = Some c -> 10 ∉ c.
Proof.
  unfold comment_of. intros H E. destruct (List.find _ cs) as [x|] eqn:Ef; [|done]. injection E as <-.
  apply find_some in Ef as [Hx _]. by apply (proj1 (Forall_forall _ _) H), list_elem_of_In.
Qed.

Lemma format_db_gives v p cs : is_byte v -> 0 <= p < 384 -> comments_ok cs -> gives read_db (format_db v p cs) [v].
Proof.
  intros Hv Hp Hc. pose proof (byte_number v Hv) as (_ & _ & Hv10 & _). pose proof (number p Hp) as (_ & _ & Hp10 & _).
  unfold format_db. destruct (comment_of cs p) as [c|] eqn:E.
  - apply (comment_of_in _ _ _ Hc) in E. apply gives_line; [|by apply read_db_line].
    rewrite !not_elem_of_app. split_and!; try done; decided.
  - apply gives_line; [|by apply read_db_line]. rewrite !not_elem_of_app. split_and!; try done; decided.
Qed.

Lemma page_break_gives : gives read_db page_break [].
Proof.
  change page_break with (line [] ++ line ([9] ++ chars "PAGE") ++ line []).
  apply (gives_app _ _ [] _ []); [by apply gives_line; [decided|]|].
  apply (gives_app _ _ [] _ []); apply gives_line; done || decided.
Qed.

Lemma db_lines_gives values base cs breaks : all_bytes values -> 0 <= base -> base + zlength values <= 384 -> comments_ok cs ->
  gives read_db (db_lines values base cs breaks) values.
Proof.
  unfold db_lines. intros Hv Hb Hl Hc. revert base Hb Hl. induction Hv as [|v values Hv0 Hv IH]; intros base Hb Hl; [apply gives_nil|].
  rewrite imap_cons. cbn [concat]. rewrite zlength_cons in Hl. pose proof (zlength_pos values).
  change (v :: values) with ([v] ++ values). apply gives_app.
  - rewrite <- (app_nil_r [v]). apply gives_app; [apply format_db_gives; done || lia|].
    destruct (decide _); [apply page_break_gives|apply gives_nil].
  - specialize (IH (base + 1) ltac:(lia) ltac:(lia)). 
    match goal with |- gives _ (concat ?a) _ => match type of IH with gives _ (concat ?b) _ => enough (a = b) as -> by exact IH end end.
    apply imap_ext. intros i x _. cbn. by replace (base + Z.of_nat (S i)) with (base + 1 + Z.of_nat i) by lia.
Qed.

Record table_ok (t : table) : Prop := TableOk {
  ok_name : t_name t ∈ map chars LANGUAGES;
  ok_output : all_bytes (t_output t) /\ length (t_output t) = 128%nat;
  ok_input : all_bytes (t_input t) /\ length (t_input t) = 128%nat;
  ok_semigraphic : all_bytes (t_semigraphic t) /\ length (t_semigraphic t) = 128%nat }.

Lemma names_ok t : table_ok t -> (10 ∉ t_name t) /\ (10 ∉ mac_name t).
Proof.
  intros [H _ _ _]. unfold mac_name. revert H. generalize (t_name t). intros n.
  assert (F : Forall (fun n => (10 ∉ n) /\ 10 ∉ map (fun c => if c =? 95 then 32 else c) (upper n)) (map chars LANGUAGES)) by decided.
  apply (proj1 (Forall_forall _ _) F).
Qed.

Lemma plain_line f l text bs : 10 ∉ l -> f l = Ret [] -> gives f text bs -> gives f (line l ++ text) bs.
Proof. intros H1 H2 H3. change bs with ([] ++ bs). apply gives_app; [by apply gives_line|done]. Qed.

Ltac plain := apply plain_line; [try decided; rewrite !not_elem_of_app; split_and!; done || decided|reflexivity|].

Lemma mac_file_gives t : table_ok t -> gives read_db (write_mac_file t) (all_of t).
Proof.
  intros H. destruct (names_ok t H) as [_ Hn]. destruct H as [_ [Ho Lo] [Hi Li] [Hs Ls]].
  destruct comment_lists_ok as (C1 & C2 & C3). unfold write_mac_file, all_of. do 5 plain.
  apply gives_app; [apply db_lines_gives; unfold zlength; done || lia|]. do 7 plain.
  apply gives_app; [apply db_lines_gives; unfold zlength; done || lia|].
  rewrite <- (app_nil_r (t_semigraphic t)) at 2. apply gives_app; [apply db_lines_gives; unfold zlength; done || lia|].
  apply gives_line; [decided|done].
Qed.

(** ** Rows of eight *)

Lemma rows_concat n (l : bytes) : forall k, concat (map (fun i => slice (8 * i) (8 * i + 8) l) (seq k n)) = slice (8 * k) (8 * (k + n)) l.
Proof.
  induction n as [|n IH]; intros k; cbn [seq map concat].
  - unfold slice. replace (8 * (k + 0) - 8 * k)%nat with 0%nat by lia. done.
  - rewrite IH. unfold slice. replace (8 * k + 8 - 8 * k)%nat with 8%nat by lia.
    replace (8 * (S k + n) - 8 * S k)%nat with (8 * n)%nat by lia. replace (8 * (k + S n) - 8 * k)%nat with (8 + 8 * n)%nat by lia.
    replace (8 * S k)%nat with (8 * k + 8)%nat by lia. rewrite <- drop_drop, take_take_drop. done.
Qed.

Lemma rows_of_table t : table_ok t ->
  concat (map snd (rows 0 384 (all_of t))) = all_of t /\
  rows 0 384 (all_of t) = rows 0 128 (all_of t) ++ rows 128 256 (all_of t) ++ rows 256 384 (all_of t).
Proof.
  intros [_ [_ Lo] [_ Li] [_ Ls]]. split; [|reflexivity].
  unfold rows. rewrite map_map. cbn [snd].
  assert (E : map (fun k => slice (0 + 8 * k) (0 + 8 * k + 8) (all_of t)) (seq 0 ((384 - 0) / 8)) =
    map (fun k => slice (8 * k) (8 * k + 8) (all_of t)) (seq 0 48)) by reflexivity.
  rewrite E, rows_concat. unfold slice. rewrite drop_0. apply take_ge. unfold all_of. rewrite !length_app. lia.
Qed.

Lemma row_in r t : table_ok t -> r ∈ rows 0 384 (all_of t) -> all_bytes (snd r) /\ length (snd r) = 8%nat /\ (fst r < 384)%nat.
Proof.
  intros [_ [Ho Lo] [Hi Li] [Hs Ls]] (k & -> & Hk)%list_elem_of_fmap. apply elem_of_seq in Hk.
  change ((384 - 0) / 8)%nat with 48%nat in Hk. cbn [fst snd]. split.
  - apply slice_all. unfold all_of. by repeat apply Forall_app_2.
  - split; [|lia]. rewrite length_slice. unfold all_of. rewrite !length_app. lia.
Qed.

(** ** The include file *)

Lemma hexes_free c bs : all_bytes bs -> c = 10 \/ c = 59 -> c ∉ join [44] (map hex0x bs).
Proof.
  intros Hb Hc. apply elem_of_join; [destruct Hc; lia|]. apply Forall_map. eapply Forall_impl; [exact Hb|].
  intros v (_ & _ & _ & H59 & _ & H10 & _)%byte_number. by destruct Hc as [->| ->].
Qed.

Lemma hexes_read bs : all_bytes bs -> bs <> [] -> int16_list (split_on 44 (join [44] (map hex0x bs) ++ [32])) = Ret bs.
Proof.
  induction 1 as [|v bs Hv Hb IH]; intros Hne; [done|]. apply byte_number in Hv as (_ & _ & _ & _ & H44 & _ & H & Hsp & _).
  destruct bs as [|w bs].
  - cbn [map join]. rewrite split_on_none by (rewrite not_elem_of_app; split; [done|decided]). cbn [int16_list]. by rewrite Hsp.
  - change (join [44] (map hex0x (v :: w :: bs))) with (hex0x v ++ 44 :: join [44] (map hex0x (w :: bs))).
    rewrite <- app_assoc. change ((44 :: ?a) ++ ?b) with (44 :: (a ++ b)). rewrite split_piece by done.
    cbn [int16_list]. rewrite H. mred. by rewrite IH.
Qed.

Lemma inc_row_gives r : all_bytes (snd r) -> snd r <> [] -> (fst r < 384)%nat -> gives read_defb (inc_row r) (snd r).
Proof.
  intros Hb Hne Hr. set (hi := fmt_hex 0 (Z.of_nat (fst r) / 16)).
  assert (10 ∉ hi) as Hhi.
  { apply (number (Z.of_nat (fst r) / 16)). split; [apply Z.div_pos; lia|]. apply Z.div_lt_upper_bound; lia. }
  unfold inc_row. fold hi. apply gives_line.
  - rewrite !not_elem_of_app. split_and!; try decided; [by apply hexes_free; [|left]|done].
  - unfold read_defb. set (l := chars "    defb " ++ _).
    assert (startswith (chars "    defb ") l = true) as -> by (unfold startswith; by apply bool_decide_eq_true).
    change (drop 9 l) with (join [44] (map hex0x (snd r)) ++ [32] ++ 59 :: 32 :: hi ++ chars "x").
    rewrite app_assoc, before_at; [by apply hexes_read|].
    rewrite not_elem_of_app. split; [by apply hexes_free; [|right]|decided].
Qed.

Lemma inc_rows_give t a b : table_ok t -> (forall r, r ∈ rows a b (all_of t) -> r ∈ rows 0 384 (all_of t)) ->
  gives read_defb (concat (map inc_row (rows a b (all_of t)))) (concat (map snd (rows a b (all_of t)))).
Proof.
  intros Ht Hin. apply gives_concat. intros r Hr. destruct (row_in r t Ht (Hin r Hr)) as (Hb & Hl & Hf).
  apply inc_row_gives; [done| |done]. by destruct (snd r).
Qed.

Definition inc_section (t : table) (label : string) (a b : nat) : str :=
  line (chars "    ; --- " ++ chars label ++ chars " ---") ++ concat (map inc_row (rows a b (all_of t))) ++ line [].

Lemma inc_section_gives t label a b : table_ok t -> 10 ∉ chars label ->
  (forall r, r ∈ rows a b (all_of t) -> r ∈ rows 0 384 (all_of t)) ->
  gives read_defb (inc_section t label a b) (concat (map snd (rows a b (all_of t)))).
Proof.
  intros Ht Hl Hin. unfold inc_section. apply plain_line; [|reflexivity|].
  - rewrite !not_elem_of_app. split_and!; [decided|done|decided].
  - rewrite <- (app_nil_r (concat (map snd _))). apply gives_app; [by apply inc_rows_give|].
    apply gives_line; [decided|reflexivity].
Qed.

Lemma table_rows t : table_ok t ->
  all_of t = concat (map snd (rows 0 128 (all_of t))) ++ concat (map snd (rows 128 256 (all_of t))) ++ concat (map snd (rows 256 384 (all_of t))).
Proof.
  intros H. destruct (rows_of_table t H) as [Hr Hs]. rewrite <- Hr at 1. by rewrite Hs, !map_app, !concat_app.
Qed.

Lemma inc_file_gives t : table_ok t -> gives read_defb (write_z88dk_inc t) (all_of t).
Proof.
  intros H. destruct (names_ok t H) as [Hn _]. destruct (rows_of_table t H) as [_ Hs].
  assert (Hin : forall r, r ∈ rows 0 128 (all_of t) \/ r ∈ rows 128 256 (all_of t) \/ r ∈ rows 256 384 (all_of t) ->
    r ∈ rows 0 384 (all_of t)) by (intros r Hr; rewrite Hs, !elem_of_app; exact Hr).
  unfold write_z88dk_inc. do 4 plain.
  match goal with |- gives _ ?text _ => change text with
    (inc_section t "outcon[128]: output conversion (character -> display)" 0 128 ++
     inc_section t "inconv lower[128]: input conversion (keyboard -> internal)" 128 256 ++
     inc_section t "inconv upper[128]: extended keyboard / semigraphic" 256 384 ++ []) end.
  rewrite app_nil_r. apply (gives_eq _ _ _ _ (eq_sym (table_rows t H))).
  apply gives_app; [apply inc_section_gives; [done|decided|auto]|].
  apply gives_app; (apply inc_section_gives; [done|decided|auto]).
Qed.

(** ** The C header *)

(** A text whose rows are [x], whatever comes after it. *)
Definition shows (text x : str) : Prop := forall rest, c_rows (text ++ rest) = x ++ c_rows rest.

Lemma shows_app t1 x1 t2 x2 : shows t1 x1 -> shows t2 x2 -> shows (t1 ++ t2) (x1 ++ x2).
Proof. intros H1 H2 rest. by rewrite <- app_assoc, H1, H2, app_assoc. Qed.

Lemma shows_line l : 10 ∉ l -> shows (line l) (if startswith (chars "    0x") l then l else []).
Proof.
  intros H rest. unfold c_rows. rewrite split_line by done. rewrite filter_cons.
  destruct (startswith (chars "    0x") l); [by rewrite decide_True|by rewrite decide_False].
Qed.

Lemma shows_other l text x : 10 ∉ l -> startswith (chars "    0x") l = false -> shows text x -> shows (line l ++ text) x.
Proof.
  intros H1 H2 H3. change x with ([] ++ x). apply shows_app; [|done]. pose proof (shows_line l H1) as H. by rewrite H2 in H.
Qed.

Lemma shows_concat {A} (g h : A -> str) xs : (forall x, x ∈ xs -> shows (g x) (h x)) -> shows (concat (map g xs)) (concat (map h xs)).
Proof.
  induction xs as [|x xs IH]; intros H; [by intros rest|]. cbn [map concat]. apply shows_app.
  - apply H, list_elem_of_here.
  - apply IH. intros y Hy. apply H. by apply elem_of_cons; right.
Qed.

Definition c_text (r : nat * bytes) : str := chars "    " ++ join [44; 32] (map hex0x (snd r)).

Lemma c_row_shows r : all_bytes (snd r) -> snd r <> [] ->
  shows (c_row r) (c_text r ++ if (fst r + 8 <? 384)%nat then [44] else []).
Proof.
  intros Hb Hne. unfold c_row, c_text. rewrite <- app_assoc. set (l := chars "    " ++ _).
  assert (Hs : startswith (chars "    0x") l = true).
  { unfold startswith. apply bool_decide_eq_true. unfold l. destruct (snd r) as [|v [|w bs]]; done. }
  assert (10 ∉ l) as Hl.
  { unfold l. rewrite !not_elem_of_app. split_and!; [decided| |destruct (_ <? _)%nat; decided].
    clear -Hb. induction Hb as [|v bs Hv Hb IH]; [decided|]. apply byte_number in Hv as (_ & _ & _ & _ & _ & H10 & _).
    destruct bs as [|w bs]; [done|]. change (10 ∉ hex0x v ++ [44; 32] ++ join [44; 32] (map hex0x (w :: bs))).
    rewrite !not_elem_of_app. split_and!; [done|decided|done]. }
  pose proof (shows_line l Hl) as H. by rewrite Hs in H.
Qed.

(** The pieces between the commas. *)
Definition piece_of (p : str) (v : Z) : Prop := (44 ∉ p) /\ int16 p = Ret v.

Lemma pieces_read ps vs : Forall2 piece_of ps vs -> ps <> [] -> int16_list (split_on 44 (join [44] ps)) = Ret vs.
Proof.
  induction 1 as [|p v ps vs [Hp Hv] H IH]; intros Hne; [done|]. destruct ps as [|q ps].
  - inversion H. cbn [join]. rewrite split_on_none by done. cbn [int16_list]. by rewrite Hv.
  - change (join [44] (p :: q :: ps)) with (p ++ 44 :: join [44] (q :: ps)). rewrite split_piece by done.
    cbn [int16_list]. rewrite Hv. mred. by rewrite IH.
Qed.

Definition row_pieces (bs : bytes) : list str :=
  match bs with [] => [] | v :: bs' => (chars "    " ++ hex0x v) :: map (fun w => 32 :: hex0x w) bs' end.

Lemma join_pieces v bs : forall pre, pre ++ join [44; 32] (map hex0x (v :: bs)) = join [44] ((pre ++ hex0x v) :: map (fun w => 32 :: hex0x w) bs).
Proof.
  revert v. induction bs as [|w bs IH]; intros v pre; [done|].
  change (join [44; 32] (map hex0x (v :: w :: bs))) with (hex0x v ++ [44] ++ [32] ++ join [44; 32] (map hex0x (w :: bs))).
  rewrite (IH w [32]). rewrite app_assoc. done.
Qed.

Lemma row_pieces_ok bs : all_bytes bs -> Forall2 piece_of (row_pieces bs) bs.
Proof.
  destruct 1 as [|v bs Hv Hb]; cbn [row_pieces]; constructor.
  - apply byte_number in Hv as (_ & _ & _ & _ & H44 & _ & _ & _ & _ & H4 & _). split; [|done].
    rewrite not_elem_of_app. split; [decided|done].
  - induction Hb as [|w bs Hw Hb IH]; cbn [map]; constructor; [|done].
    apply byte_number in Hw as (_ & _ & _ & _ & H44 & _ & _ & _ & H1 & _). split; [|done].
    rewrite not_elem_of_cons. split; [lia|done].
Qed.

Lemma join_app (p q : list str) : p <> [] -> q <> [] -> join [44] (p ++ q) = join [44] p ++ [44] ++ join [44] q.
Proof.
  intros Hp Hq. induction p as [|x p IH]; [done|]. destruct p as [|y p].
  - destruct q; done.
  - change (join [44] ((x :: y :: p) ++ q)) with (x ++ [44] ++ join [44] ((y :: p) ++ q)). rewrite IH by done.
    change (join [44] (x :: y :: p)) with (x ++ [44] ++ join [44] (y :: p)). by rewrite <- !app_assoc.
Qed.

(** Rows with commas between them. *)
Lemma rows_read (front : list (nat * bytes)) r : Forall (fun r => all_bytes (snd r) /\ snd r <> []) (front ++ [r]) ->
  int16_list (split_on 44 (concat (map (fun r => c_text r ++ [44]) front) ++ c_text r)) = Ret (concat (map snd (front ++ [r]))).
Proof.
  intros H.
  assert (E : forall r, snd r <> [] -> c_text r = join [44] (row_pieces (snd r))).
  { intros [k [|v bs]] Hne; [done|]. unfold c_text. cbn [snd]. by rewrite join_pieces. }
  assert (concat (map (fun r => c_text r ++ [44]) front) ++ c_text r = join [44] (concat (map (fun r => row_pieces (snd r)) (front ++ [r])))
    /\ concat (map (fun r => row_pieces (snd r)) (front ++ [r])) <> []) as [-> Hne].
  { induction front as [|r0 front IH].
    - apply Forall_cons in H as [[_ H] _]. cbn [map concat app]. rewrite E, app_nil_r by done. split; [done|]. by destruct (snd r).
    - cbn [app] in H. apply Forall_cons in H as [[_ H0] H]. destruct (IH H) as [IH1 IH2]. cbn [map concat app].
      assert (row_pieces (snd r0) <> []) as Hp by (by destruct (snd r0)).
      rewrite join_app by done. rewrite <- IH1, E, <- !app_assoc by done. split; [done|].
      intros [? _]%app_nil. done. }
  apply pieces_read; [|done]. clear Hne E. induction (front ++ [r]) as [|r0 rs IH]; [constructor|].
  apply Forall_cons in H as [[H0 _] H]. cbn [map concat]. apply Forall2_app; [by apply row_pieces_ok|by apply IH].
Qed.

Definition c_section (t : table) (label : string) (a b : nat) : str :=
  line [] ++ line (chars "    /* " ++ chars label ++ chars " */") ++ concat (map c_row (rows a b (all_of t))).

Definition c_shown (rs : list (nat * bytes)) : str := concat (map (fun r => c_text r ++ (if (fst r + 8 <? 384)%nat then [44] else [])) rs).

Lemma c_section_shows t label a b : table_ok t -> 10 ∉ chars label ->
  (forall r, r ∈ rows a b (all_of t) -> r ∈ rows 0 384 (all_of t)) ->
  shows (c_section t label a b) (c_shown (rows a b (all_of t))).
Proof.
  intros Ht Hl Hin. unfold c_section. apply shows_other; [decided|reflexivity|]. apply shows_other; [|reflexivity|].
  - rewrite !not_elem_of_app. split_and!; [decided|done|decided].
  - apply shows_concat. intros r Hr. destruct (row_in r t Ht (Hin r Hr)) as (Hb & H8 & _). apply c_row_shows; [done|]. by destruct (snd r).
Qed.

Lemma c_file_shows t : table_ok t -> shows (write_c_header t) (c_shown (rows 0 384 (all_of t))).
Proof.
  intros H. destruct (names_ok t H) as [Hn _]. destruct (rows_of_table t H) as [_ Hs].
  assert (Hin : forall r, r ∈ rows 0 128 (all_of t) \/ r ∈ rows 128 256 (all_of t) \/ r ∈ rows 256 384 (all_of t) ->
    r ∈ rows 0 384 (all_of t)) by (intros r Hr; rewrite Hs, !elem_of_app; exact Hr).
  assert (c_shown (rows 0 384 (all_of t)) =
    c_shown (rows 0 128 (all_of t)) ++ c_shown (rows 128 256 (all_of t)) ++ c_shown (rows 256 384 (all_of t))) as ->
    by (unfold c_shown; by rewrite Hs, !map_app, !concat_app).
  unfold write_c_header. do 3 (apply shows_other; [try decided; rewrite !not_elem_of_app; split_and!; done || decided|reflexivity|]).
  match goal with |- shows ?text _ => change text with
    (c_section t "outcon[128]: output conversion" 0 128 ++ c_section t "inconv lower[128]: input conversion" 128 256 ++
     c_section t "inconv upper[128]: extended keyboard / semigraphic" 256 384 ++ []) end.
  rewrite app_nil_r. apply shows_app; [apply c_section_shows; [done|decided|auto]|].
  apply shows_app; (apply c_section_shows; [done|decided|auto]).
Qed.

Lemma c_file_bytes t : table_ok t -> c_bytes (write_c_header t) = Ret (all_of t).
Proof.
  intros H. destruct (rows_of_table t H) as [Hr _]. unfold c_bytes.
  rewrite <- (app_nil_r (write_c_header t)), (c_file_shows t H []). change (c_rows []) with (@nil Z). rewrite app_nil_r.
  set (f := fun k => (0 + 8 * k, slice (0 + 8 * k) (0 + 8 * k + 8) (all_of t))%nat).
  assert (E : rows 0 384 (all_of t) = map f (seq 0 47) ++ [f 47%nat]) by reflexivity.
  assert (Hall : Forall (fun r => all_bytes (snd r) /\ snd r <> []) (map f (seq 0 47) ++ [f 47%nat])).
  { rewrite <- E. apply Forall_forall. intros r Hin. destruct (row_in r t H Hin) as (Hb & H8 & _). split; [done|]. by destruct (snd r). }
  pose proof (rows_read _ _ Hall) as R. rewrite <- E, Hr in R. rewrite <- R. do 2 f_equal. unfold c_shown. rewrite E, map_app, concat_app.
  cbn [map concat]. rewrite app_nil_r. unfold f at 3. cbn [fst]. rewrite app_nil_r. f_equal.
Qed.

(** ** The file *)

Definition raw_table (data : bytes) (i : Z) : bytes := takeZ TABLE_SIZE (dropZ (TABLE_OFFSET + i * TABLE_SIZE) data).

Definition cut_table (data : bytes) (i : Z) (lang : string) : table :=
  let raw := raw_table data i in Table (chars lang) (slice 0 128 raw) (slice 128 256 raw) (slice 256 384 raw).

Fixpoint cuts (data : bytes) (i : Z) (langs : list string) : list table :=
  match langs with [] => [] | lang :: langs' => cut_table data i lang :: cuts data (i + 1) langs' end.

Lemma raw_length data i : 0 <= i -> zlength (raw_table data i) = Z.min TABLE_SIZE (Z.max 0 (zlength data - (TABLE_OFFSET + i * TABLE_SIZE))).
Proof.
  intros Hi. unfold raw_table. rewrite takeZ_take, dropZ_drop. unfold zlength. rewrite length_take, length_drop.
  unfold TABLE_SIZE, TABLE_OFFSET. lia.
Qed.

Lemma tables_cut data langs : forall i, 0 <= i -> TABLE_OFFSET + (i + zlength langs) * TABLE_SIZE <= zlength data ->
  tables_from data i langs = Ret (cuts data i langs).
Proof.
  induction langs as [|lang langs IH]; intros i Hi Hl; [done|]. rewrite zlength_cons in Hl. pose proof (zlength_pos langs).
  cbn [tables_from cuts]. fold (raw_table data i). rewrite raw_length by done.
  assert (Z.min TABLE_SIZE (Z.max 0 (zlength data - (TABLE_OFFSET + i * TABLE_SIZE))) = TABLE_SIZE) as -> by (unfold TABLE_SIZE in *; lia).
  rewrite Z.eqb_refl. cbn [negb]. by rewrite IH by lia.
Qed.

Lemma tables_short data langs : forall i, 0 <= i -> langs <> [] -> zlength data < TABLE_OFFSET + (i + zlength langs) * TABLE_SIZE ->
  tables_from data i langs = Raise ValueError.
Proof.
  induction langs as [|lang langs IH]; intros i Hi Hne Hl; [done|]. rewrite zlength_cons in Hl. pose proof (zlength_pos langs).
  cbn [tables_from]. fold (raw_table data i). rewrite raw_length by done.
  destruct (Z.eqb_spec (Z.min TABLE_SIZE (Z.max 0 (zlength data - (TABLE_OFFSET + i * TABLE_SIZE)))) TABLE_SIZE) as [E|]; [|done].
  cbn [negb]. destruct langs as [|l langs].
  - rewrite zlength_nil in Hl. unfold TABLE_SIZE in *. lia.
  - rewrite IH; [done|lia|done|lia].
Qed.

Lemma cut_ok data i lang : all_bytes data -> 0 <= i -> TABLE_OFFSET + (i + 1) * TABLE_SIZE <= zlength data -> lang ∈ LANGUAGES ->
  table_ok (cut_table data i lang) /\ all_of (cut_table data i lang) = raw_table data i.
Proof.
  intros Hb Hi Hl Hlang. pose proof (raw_length data i Hi) as L. unfold TABLE_SIZE, zlength in L, Hl.
  assert (Hr : all_bytes (raw_table data i)) by (unfold raw_table; rewrite takeZ_take, dropZ_drop; by apply Forall_take, Forall_drop).
  assert (length (raw_table data i) = 384%nat) as L' by lia. split.
  - split; cbn [cut_table t_name t_output t_input t_semigraphic].
    + apply list_elem_of_fmap. by exists lang.
    + split; [by apply slice_all|]. rewrite length_slice. lia.
    + split; [by apply slice_all|]. rewrite length_slice. lia.
    + split; [by apply slice_all|]. rewrite length_slice. lia.
  - unfold all_of, cut_table. cbn [t_output t_input t_semigraphic]. unfold slice. rewrite drop_0.
    change (128 - 0)%nat with 128%nat. change (256 - 128)%nat with 128%nat. change (384 - 256)%nat with 128%nat.
    rewrite app_assoc, take_take_drop. change (128 + 128)%nat with 256%nat. rewrite take_take_drop. apply take_ge. lia.
Qed.

Lemma cuts_concat data langs : all_bytes data -> (forall l, l ∈ langs -> l ∈ LANGUAGES) ->
  forall i, 0 <= i -> TABLE_OFFSET + (i + zlength langs) * TABLE_SIZE <= zlength data ->
  concat (map all_of (cuts data i langs)) = takeZ (zlength langs * TABLE_SIZE) (dropZ (TABLE_OFFSET + i * TABLE_SIZE) data).
Proof.
  intros Hb. induction langs as [|lang langs IH]; intros Hin i Hi Hl.
  - rewrite (zlength_nil (A := string)). cbn [map concat cuts]. by rewrite takeZ_take.
  - rewrite zlength_cons in *. pose proof (zlength_pos langs). cbn [cuts map concat].
    rewrite (proj2 (cut_ok data i lang Hb Hi ltac:(unfold TABLE_SIZE in *; lia) (Hin _ (list_elem_of_here _ _)))).
    rewrite IH; [|intros l Hl'; apply Hin; by apply elem_of_cons; right|lia|lia].
    unfold raw_table. rewrite !takeZ_take, !dropZ_drop.
    replace (Z.to_nat (TABLE_OFFSET + (i + 1) * TABLE_SIZE)) with (Z.to_nat (TABLE_OFFSET + i * TABLE_SIZE) + Z.to_nat TABLE_SIZE)%nat
      by (unfold TABLE_OFFSET, TABLE_SIZE; lia).
    replace (Z.to_nat ((1 + zlength langs) * TABLE_SIZE)) with (Z.to_nat TABLE_SIZE + Z.to_nat (zlength langs * TABLE_SIZE))%nat
      by (unfold TABLE_SIZE; lia).
    rewrite <- drop_drop. apply take_take_drop.
Qed.

Lemma cuts_all (P : table -> bytes -> Prop) data langs : all_bytes data -> (forall l, l ∈ langs -> l ∈ LANGUAGES) ->
  (forall t, table_ok t -> P t (all_of t)) ->
  forall i, 0 <= i -> TABLE_OFFSET + (i + zlength langs) * TABLE_SIZE <= zlength data ->
  Forall2 (fun t k => P t (raw_table data k)) (cuts data i langs) (seqZ i (zlength langs)).
Proof.
  intros Hb. induction langs as [|lang langs IH]; intros Hin HP i Hi Hl; [constructor|].
  rewrite zlength_cons in *. pose proof (zlength_pos langs). rewrite seqZ_cons by lia. cbn [cuts].
  destruct (cut_ok data i lang Hb Hi ltac:(unfold TABLE_SIZE in *; lia) (Hin _ (list_elem_of_here _ _))) as [Hok Hall].
  constructor; [rewrite <- Hall; by apply HP|].
  replace (Z.pred (1 + zlength langs)) with (zlength langs) by lia. replace (Z.succ i) with (i + 1) by lia.
  apply IH; [intros l Hl'; apply Hin; by apply elem_of_cons; right|done|lia|lia].
Qed.

(** The conversion tables.  A CONFI.COM that is too short for seven tables
    raises [ValueError], one whose first table does not map every code to itself
    [AssertionError], before anything is written.  Of any other one the binary file
    is the 2688 bytes from 0EF5h on, and each of the 21 generated texts, read the
    way its translator reads it, has exactly the 384 bytes of its table in order:
    the DB lines, the defb lines, and the C initialiser with its commas. *)
Lemma conversion_tables_are_written data (Hb : all_bytes data) :
  let danish := slice 0 128 (raw_table data 0) ++ slice 128 256 (raw_table data 0) in
  (zlength data < TABLE_OFFSET + 7 * TABLE_SIZE ->
     forall m i, extract_conv_tables data m i = Raise ValueError) /\
  (TABLE_OFFSET + 7 * TABLE_SIZE <= zlength data ->
     (danish <> identity_map ++ identity_map -> forall m i, extract_conv_tables data m i = Raise AssertionError) /\
     (danish = identity_map ++ identity_map ->
        exists macs incs hs,
          extract_conv_tables data true true = Ret (takeZ (7 * TABLE_SIZE) (dropZ TABLE_OFFSET data), macs, incs ++ hs) /\
          map fst macs = map (fun p => chars (snd p)) MAC_FILENAMES /\
          Forall2 (fun f k => mac_bytes (snd f) = Ret (raw_table data k)) macs (seqZ 0 7) /\
          Forall2 (fun f k => inc_bytes (snd f) = Ret (raw_table data k)) incs (seqZ 0 7) /\
          Forall2 (fun f k => c_bytes (snd f) = Ret (raw_table data k)) hs (seqZ 0 7))).
Proof.
  intros danish. assert (Hin : forall l, l ∈ LANGUAGES -> l ∈ LANGUAGES) by done. split; [|intros Hl; split].
  - intros Hl m i. unfold extract_conv_tables, extract_tables. by rewrite tables_short.
  - intros Hd m i. unfold extract_conv_tables, extract_tables. rewrite tables_cut by done. mred.
    change (cuts data 0 LANGUAGES) with (cut_table data 0 "Danish" :: cuts data 1 (tail LANGUAGES)). cbn match.
    cbn [cut_table t_output t_input]. case_bool_decide as E1; [|done]. case_bool_decide as E2; [|done].
    exfalso. apply Hd. unfold danish. by rewrite E1, E2.
  - intros Hd. unfold extract_conv_tables, extract_tables. rewrite tables_cut by done. mred.
    change (cuts data 0 LANGUAGES) with (cut_table data 0 "Danish" :: cuts data 1 (tail LANGUAGES)) at 1. cbn match.
    apply app_inj_1 in Hd as [E1 E2].
    2:{ rewrite length_slice. pose proof (raw_length data 0 ltac:(lia)) as L. unfold zlength, TABLE_SIZE, TABLE_OFFSET in *.
        change (length identity_map) with 128%nat. lia. }
    cbn [cut_table t_output t_input]. rewrite !bool_decide_true by done. cbn [negb].
    exists (map (fun t => (default [] (match mac_filename (t_name t) with Ret n => Some n | _ => None end), write_mac_file t)) (cuts data 0 LANGUAGES)),
      (map (fun t => (lower (t_name t) ++ chars "_tables.inc", write_z88dk_inc t)) (cuts data 0 LANGUAGES)),
      (map (fun t => (lower (t_name t) ++ chars "_tables.h", write_c_header t)) (cuts data 0 LANGUAGES)).
    rewrite (cuts_concat data LANGUAGES Hb Hin 0) by done.
    split; [reflexivity|]. split; [reflexivity|].
    assert (H2 : forall (g : table -> str * str) (rd : str -> outcome bytes), (forall t, table_ok t -> rd (snd (g t)) = Ret (all_of t)) ->
      Forall2 (fun f k => rd (snd f) = Ret (raw_table data k)) (map g (cuts data 0 LANGUAGES)) (seqZ 0 7)).
    { intros g rd Hg. apply Forall2_fmap_l. by apply (cuts_all (fun t b => rd (snd (g t)) = Ret b) data LANGUAGES). }
    split_and!; apply H2; intros t Ht; cbn [snd].
    + apply (gives_read read_db); [by apply mac_file_gives|reflexivity].
    + apply (gives_read read_defb); [by apply inc_file_gives|reflexivity].
    + by apply c_file_bytes.
Qed.

Definition sample_confi : bytes := repeatZ TABLE_OFFSET 0 ++ identity_map ++ identity_map ++ repeatZ 2432 7.

Lemma sample_confi_ok : all_bytes sample_confi.
Proof.
  unfold sample_confi, repeatZ. apply Forall_app_2; [by apply Forall_replicate|].
  apply Forall_app_2; [decided|]. apply Forall_app_2; [decided|by apply Forall_replicate].
Qed.
