(* ===== verification/Report.v ===== *)
(** * The report on the conversion tables: write_markdown of extract_conv_tables.py.

    The report as its lines ([md_lines]) and as the text of the file ([write_markdown]),
    with what a reader takes from it: the bytes of the dump ([dump_bytes]) and the
    positions and values of the rows of differences ([rows_read]).  Texts are code points,
    some of them outside ASCII. *)

From S2P Require Import Prelude Imd Hex Text Labels Verify ConvTables.
#[local] Open Scope Z_scope.

(** ** The report *)

Definition char_repr (b : Z) : str := if (0x20 <=? b) && (b <=? 0x7E) then [b] else hex0x b.

(** The positions at which two tables of 128 bytes differ, with both values. *)
Definition format_diffs (table identity : bytes) : list (Z * Z * Z) :=
  omap (fun i => match identity !! i, table !! i with
    | Some o, Some m => if m =? o then None else Some (Z.of_nat i, o, m)
    | _, _ => None
    end) (seq 0 128).

Definition md_head : list str := [
  chars "# RC702 Character Conversion Tables";
  [];
  chars "Extracted from CONFI.COM (SW1711-I8 disk image).";
  [];
  chars "## Overview";
  [];
  chars "The RC702 CRT controller uses a character ROM (ROA296) with Danish national";
  chars "characters as the native character set. The keyboard also produces Danish";
  chars "codes natively. For other languages, CONFI.COM installs conversion tables";
  chars "into the BIOS at address 0xF680 (3 " ++ [215] ++ chars " 128 = 384 bytes).";
  [];
  chars "Each table has three 128-byte sub-tables:";
  [];
  chars "| Offset | Purpose | Direction |";
  chars "|--------|---------|-----------|";
  chars "| +0x00  | Output conversion | Application char " ++ [8594] ++ chars " CRT ROM position |";
  chars "| +0x80  | Input conversion  | Keyboard code " ++ [8594] ++ chars " application char |";
  chars "| +0x100 | Semigraphic map   | Semigraphic character mapping (ROA327) |";
  [];
  chars "The Danish table is the identity map (no conversion needed).";
  [];
  chars "## Summary";
  [];
  chars "| # | Language | Output diffs | Input diffs | Semigfx diffs |";
  chars "|---|----------|-------------|-------------|---------------|"].

Definition md_national : list str := [
  chars "## RC702 National Character Positions";
  [];
  chars "The following ASCII positions are used for national characters in the";
  chars "RC702 CRT ROM (ROA296). These are the positions that differ between";
  chars "language tables:";
  [];
  chars "| Hex  | ASCII | Danish (ROM) | Notes |";
  chars "|------|-------|-------------|-------|"].

Definition national_positions : list Z := [0x23; 0x40; 0x5B; 0x5C; 0x5D; 0x5E; 0x60; 0x7B; 0x7C; 0x7D; 0x7E].
Definition danish_names : list (Z * str) := [
  (0x23, chars "#"); (0x40, chars "@" ++ [8594; 196] ++ chars " (strstreg-A)"); (0x5B, chars "[" ++ [8594; 198]); (0x5C, chars "\" ++ [8594; 216]);
  (0x5D, chars "]" ++ [8594; 197]); (0x5E, chars "^"); (0x60, chars "`" ++ [8594; 228]); (0x7B, chars "{" ++ [8594; 230]);
  (0x7C, chars "|" ++ [8594; 248]); (0x7D, chars "}" ++ [8594; 229]); (0x7E, chars "~" ++ [8594; 252])].
Definition national_row (pos : Z) : str :=
  chars "| " ++ hex0x pos ++ chars " | " ++ [pos] ++ chars " | " ++ default [pos] (comment_of danish_names pos) ++ chars " | |".

Definition count_of {A} (l : list A) : str := decimal (Z.of_nat (length l)).
Definition summary_row (i : nat) (t : table) : str :=
  chars "| " ++ decimal (Z.of_nat i) ++ chars " | " ++ t_name t ++ chars " | " ++ count_of (format_diffs (t_output t) identity_map) ++ chars " | " ++
  count_of (format_diffs (t_input t) identity_map) ++ chars " | " ++ count_of (format_diffs (t_semigraphic t) identity_map) ++ chars " |".

Definition diff_row (d : Z * Z * Z) : str :=
  let '(pos, orig, mapped) := d in
  chars "| " ++ hex0x pos ++ chars " (" ++ char_repr orig ++ chars ") | " ++ hex0x orig ++ chars " | " ++ hex0x mapped ++ chars " (" ++ char_repr mapped ++ chars ") | |".

Definition conversion_part (title what : string) (diffs : list (Z * Z * Z)) : list str :=
  [chars "### " ++ chars title ++ chars " (" ++ count_of diffs ++ chars " differences)"; []] ++
  match diffs with
  | [] => [chars "Identity map " ++ [8212] ++ chars " no conversion."; []]
  | _ => [chars what; []; chars "| Position | Identity | Mapped to | Notes |"; chars "|----------|----------|-----------|-------|"] ++ map diff_row diffs ++ [[]]
  end.

Definition semigraphic_part (diffs : list (Z * Z * Z)) : list str :=
  [chars "### Semigraphic map (" ++ count_of diffs ++ chars " differences)"; []] ++
  match diffs with
  | [] => [chars "Identity map."; []]
  | _ => [chars "Maps character codes to semigraphic ROM (ROA327) positions.";
          count_of diffs ++ chars " positions differ from identity (semigraphic ROM";
          chars "has its own character layout). See `conversion_tables.bin` for raw data."; []]
  end.

Definition language_part (i : nat) (t : table) : list str :=
  [chars "## " ++ decimal (Z.of_nat i) ++ chars ". " ++ t_name t; []] ++
  conversion_part "Output conversion" "Maps application character codes to CRT ROM positions." (format_diffs (t_output t) identity_map) ++
  conversion_part "Input conversion" "Maps keyboard scan codes to application character codes." (format_diffs (t_input t) identity_map) ++
  semigraphic_part (format_diffs (t_semigraphic t) identity_map).

(** A row of the dump: its bytes from [start] on. *)
Definition dump_row (all_bytes : bytes) (start : nat) : str :=
  let l := slice start (start + 16) all_bytes in
  chars "  " ++ fmt_hex 4 (Z.of_nat start) ++ chars ": " ++ join [32] (map (fmt_hex 2) l) ++ chars "  " ++
  map (fun b => if (0x20 <=? b) && (b <=? 0x7E) then b else 46) l.

Definition dump_block (all_bytes : bytes) (s : string * nat) : list str :=
  [chars "**" ++ chars (fst s) ++ chars "** (+0x" ++ fmt_hex 2 (Z.of_nat (snd s)) ++ chars "):"; chars "```"] ++
  map (fun row => dump_row all_bytes (snd s + row * 16)%nat) (seq 0 8) ++ [chars "```"; []].

Definition dump_part (t : table) : list str :=
  [chars "### " ++ t_name t; []] ++ concat (map (dump_block (all_of t)) [("Output", 0); ("Input", 128); ("Semigraphic", 256)]%string%nat).

Definition md_lines (tables : list table) : list str :=
  md_head ++ imap summary_row tables ++ [[]] ++
  md_national ++ map national_row national_positions ++ [[]] ++
  concat (imap language_part tables) ++
  [chars "## Raw Table Data"; []; chars "Full hex dump of each table (384 bytes = 3 " ++ [215] ++ chars " 128)."; []] ++
  concat (map dump_part tables).

Definition write_markdown (tables : list table) : str := concat (map line (md_lines tables)).

(** ** The reader's view *)

(** The sixteen bytes of a row of the dump, which begins with two blanks. *)
Definition read_dump (l : str) : outcome bytes :=
  if startswith [32; 32] l then int16_list (split_on 32 (take 47 (drop 8 l))) else Ret [].
Definition dump_bytes (text : str) : outcome bytes := read_all read_dump (split_on 10 text).

(** The position and the value of a row of differences. *)
Definition read_row (l : str) : option (Z * Z) :=
  if negb (startswith (chars "| 0x") l && bool_decide (l !! 7%nat = Some 40)) then None else
  let shown := if bool_decide (l !! 9%nat = Some 41) then 1%nat else 4%nat in
  match int16 (take 2 (drop 4 l)), int16 (take 2 (drop (8 + shown + 13) l)) with
  | Ret p, Ret m => Some (p, m)
  | _, _ => None
  end.
Definition rows_read (text : str) : list (Z * Z) := omap read_row (split_on 10 text).

Definition changes (table : bytes) : list (Z * Z) := map (fun d => (fst (fst d), snd d)) (format_diffs table identity_map).
Definition patched (l : bytes) (c : list (Z * Z)) : bytes := foldl (fun l p => <[Z.to_nat (fst p) := snd p]> l) l c.

(** The bars of a line, which part the cells of a Markdown table. *)
Definition bars (l : str) : Z := Z.of_nat (length (filter (fun c => c = 124) l)).

(** ** Lines and what they tell *)

Lemma read_all_app f a b : read_all f (a ++ b) = (x ← read_all f a; y ← read_all f b; Ret (x ++ y)).
Proof.
  induction a as [|l a IH]; [cbn [app read_all]; by mred; destruct (read_all f b)|]. cbn [app read_all]. rewrite IH.
  destruct (f l); [|done]. mred. destruct (read_all f a); [|done]. mred. destruct (read_all f b); [|done]. mred. by rewrite app_assoc.
Qed.

Lemma report_lines ls : Forall (fun l => 10 ∉ l) ls -> split_on 10 (concat (map line ls)) = ls ++ [[]].
Proof. induction 1 as [|l ls Hl Hls IH]; [done|]. cbn [map concat]. by rewrite split_line, IH. Qed.

(** Lines that are lines, with the bytes of the dump and the rows in them. *)
Definition tells (ls : list str) (bs : bytes) (rs : list (Z * Z)) : Prop :=
  Forall (fun l => 10 ∉ l) ls /\ read_all read_dump ls = Ret bs /\ omap read_row ls = rs.

Lemma tells_app a b b1 b2 r1 r2 : tells a b1 r1 -> tells b b2 r2 -> tells (a ++ b) (b1 ++ b2) (r1 ++ r2).
Proof.
  intros (H1 & H2 & H3) (H4 & H5 & H6). split_and!; [by apply Forall_app|rewrite read_all_app, H2, H5; by mred|].
  by rewrite omap_app, H3, H6.
Qed.

Lemma tells_cons l ls b1 b2 r1 r2 : tells [l] b1 r1 -> tells ls b2 r2 -> tells (l :: ls) (b1 ++ b2) (r1 ++ r2).
Proof. apply (tells_app [l]). Qed.

Lemma tells_concat {A} (g : A -> list str) (h : A -> bytes) (k : A -> list (Z * Z)) l :
  Forall (fun x => tells (g x) (h x) (k x)) l -> tells (concat (map g l)) (concat (map h l)) (concat (map k l)).
Proof. induction 1 as [|x l Hx Hl IH]; [done|]. cbn [map concat]. by apply tells_app. Qed.

Lemma tells_imap {A} (g : nat -> A -> list str) (h : A -> bytes) (k : A -> list (Z * Z)) l :
  Forall (fun x => forall i, tells (g i x) (h x) (k x)) l -> tells (concat (imap g l)) (concat (map h l)) (concat (map k l)).
Proof.
  intros H. revert g H. induction l as [|x l IH]; intros g H; [done|]. apply Forall_cons in H as [Hx Hl]. cbn [imap map concat].
  apply tells_app; [by apply Hx|]. apply (IH (g ∘ S)). eapply Forall_impl; [exact Hl|]. intros y Hy i. apply (Hy (S i)).
Qed.

Lemma tells_text ls bs rs : tells ls bs rs -> dump_bytes (concat (map line ls)) = Ret bs /\ rows_read (concat (map line ls)) = rs.
Proof.
  intros (H1 & H2 & H3). unfold dump_bytes, rows_read. rewrite report_lines by done. rewrite read_all_app, H2, omap_app, H3. split.
  - change (read_all read_dump [[]]) with (Ret (A := bytes) []). mred. by rewrite app_nil_r.
  - change (omap read_row [[]]) with (@nil (Z * Z)). by rewrite app_nil_r.
Qed.

(** A line that says nothing: empty, or by its first character. *)
Lemma starts_not c d p l : c <> d -> startswith (c :: p) (d :: l) = false.
Proof. intros H. apply bool_decide_eq_false. intros E. cbn in E. congruence. Qed.

Lemma silent c l : 10 ∉ c :: l -> c <> 32 -> c <> 124 -> tells [c :: l] [] [].
Proof.
  intros Hn H1 H2. split_and!; [by constructor| |].
  - cbn [read_all]. unfold read_dump. by rewrite starts_not.
  - cbn [omap list_omap]. unfold read_row. change (chars "| 0x") with [124; 32; 48; 120]. by rewrite starts_not.
Qed.

Lemma silent_nil : tells [[]] [] [].
Proof. split_and!; [constructor; [decided|done]|done|done]. Qed.

Lemma silent_cons l ls b r : tells [l] [] [] -> tells ls b r -> tells (l :: ls) b r.
Proof. apply tells_cons. Qed.

Lemma no_newline s : Forall (fun c => 10 < c) s -> 10 ∉ s.
Proof. intros H Hin. apply (proj1 (Forall_forall _ _) H) in Hin. lia. Qed.

Lemma decimal_line n : 10 ∉ decimal (Z.of_nat n).
Proof.
  apply no_newline. destruct (decimal_ok (Z.of_nat n) ltac:(lia)) as (D & _). eapply Forall_impl; [exact D|]. cbv beta. unfold is_digit. lia.
Qed.

Lemma hex0x_line b : is_byte b -> 10 ∉ hex0x b.
Proof. intros (_ & _ & _ & _ & _ & H & _)%byte_number. exact H. Qed.

Lemma repr_line b : is_byte b -> 10 ∉ char_repr b.
Proof. intros H. unfold char_repr. destruct (Z.leb_spec 32 b), (Z.leb_spec b 126); cbn [andb]; try by apply hex0x_line. apply no_newline. by repeat constructor; lia. Qed.

(** The characters of all literals. *)
Ltac spell := repeat match goal with |- context [chars ?s] => let v := eval vm_compute in (chars s) in change (chars s) with v end.
Ltac no_newlines := rewrite ?not_elem_of_app; split_and!; try (apply decimal_line || apply hex0x_line || apply repr_line); try done; try decided.

Definition quiet (s : string) : bool :=
  match chars s with c :: l => negb (c =? 32) && negb (c =? 124) && bool_decide (10 ∉ c :: l) | [] => false end.

Lemma silent_text s l : quiet s = true -> 10 ∉ l -> tells [chars s ++ l] [] [].
Proof.
  unfold quiet. destruct (chars s) as [|c q]; [done|]. intros [[H1 H2]%andb_true_iff H3%bool_decide_eq_true]%andb_true_iff Hl.
  apply (silent c (q ++ l)); [|lia|lia]. change (c :: q ++ l) with ((c :: q) ++ l). by rewrite not_elem_of_app.
Qed.
Ltac quietly_said := apply silent_text; [vm_compute; reflexivity|no_newlines].

(** ** The parts of the report *)

Lemma constant_lines ls : bool_decide (Forall (fun l => 10 ∉ l) ls) = true -> read_all read_dump ls = Ret [] -> omap read_row ls = [] -> tells ls [] [].
Proof. intros H1%bool_decide_eq_true H2 H3. by split_and!. Qed.

Lemma head_tells : tells md_head [] [] /\ tells md_national [] [] /\ tells (map national_row national_positions) [] [].
Proof. split_and!; apply constant_lines; by vm_compute. Qed.

Lemma summary_shape i t : exists r, summary_row i t = 124 :: 32 :: decimal (Z.of_nat i) ++ chars " | " ++ r.
Proof. by eexists. Qed.

Lemma summary_tells i t : table_ok t -> tells [summary_row i t] [] [].
Proof.
  intros [Hn _]%names_ok. assert (Hl : 10 ∉ summary_row i t) by (unfold summary_row, count_of; no_newlines).
  destruct (summary_shape i t) as [r E]. rewrite E in *. clear E. split_and!; [by constructor| |].
  - cbn [read_all]. unfold read_dump. by rewrite starts_not.
  - cbn [omap list_omap]. unfold read_row. assert (startswith (chars "| 0x") (124 :: 32 :: decimal (Z.of_nat i) ++ chars " | " ++ r) = false) as ->; [|done].
    apply bool_decide_eq_false. destruct (decimal_ok (Z.of_nat i) ltac:(lia)) as (D & _ & Hne & _). clear Hl.
    destruct (decimal (Z.of_nat i)) as [|c [|d q]]; [done| |]; cbn; intros [=]; subst. apply Forall_cons in D as [_ [D _]%Forall_cons]. done.
Qed.

(** ** Differences *)

Definition diff_ok (d : Z * Z * Z) : Prop := fst (fst d) = snd (fst d) /\ 0 <= snd (fst d) < 128 /\ is_byte (snd d).

Lemma identity_at i o : identity_map !! i = Some o -> o = Z.of_nat i /\ 0 <= o < 128.
Proof. unfold identity_map. intros (-> & H)%lookup_seqZ. lia. Qed.

Lemma diffs_ok t : all_bytes t -> Forall diff_ok (format_diffs t identity_map).
Proof.
  intros Hb. unfold format_diffs. apply Forall_forall. intros d (i & Hi & Hd)%list_elem_of_omap.
  destruct (identity_map !! i) as [o|] eqn:Eo; [|done]. destruct (t !! i) as [m|] eqn:Em; [|done]. destruct (m =? o); [done|].
  injection Hd as <-. apply identity_at in Eo as [-> Ho]. by split_and!; [|cbn; lia|cbn; lia|apply (Forall_lookup_1 _ _ _ _ Hb Em)].
Qed.

Lemma hex_read b : is_byte b -> exists c d, fmt_hex 2 b = [c; d] /\ int16 [c; d] = Ret b.
Proof. intros Hb. rewrite fmt_hex_2 by done. eexists _, _. split; [reflexivity|]. by apply int16_byte. Qed.

Lemma read_diff_row d : diff_ok d -> read_row (diff_row d) = Some (fst (fst d), snd d).
Proof.
  destruct d as [[p o] m]. intros (E & Ho & Hm). cbn [fst snd] in *. subst p. assert (Hb : is_byte o) by (unfold is_byte; lia).
  unfold diff_row, hex0x. destruct (hex_read o Hb) as (c & d & Eo & Ro), (hex_read m Hm) as (c' & d' & Em & Rm).
  unfold read_row, char_repr, hex0x. rewrite Eo, Em. spell.
  destruct ((32 <=? o) && (o <=? 126)); unfold startswith; cbn -[int16]; repeat (case_bool_decide; try congruence); cbn -[int16]; by rewrite Ro, Rm.
Qed.

Lemma diff_row_line d : diff_ok d -> 10 ∉ diff_row d.
Proof.
  destruct d as [[p o] m]. intros (E & Ho & Hm). cbn [fst snd] in *. subst p. assert (Hb : is_byte o) by (unfold is_byte; lia).
  unfold diff_row. no_newlines.
Qed.

Lemma diff_row_tells d : diff_ok d -> tells [diff_row d] [] [(fst (fst d), snd d)].
Proof.
  intros H. split_and!; [constructor; [by apply diff_row_line|done]| |cbn; by rewrite read_diff_row].
  destruct d as [[p o] m]. cbn [read_all]. unfold read_dump, diff_row. change (chars "| ") with [124; 32]. cbn [app]. by rewrite starts_not.
Qed.

Lemma rows_tell ds : Forall diff_ok ds -> tells (map diff_row ds) [] (map (fun d => (fst (fst d), snd d)) ds).
Proof.
  induction 1 as [|d ds Hd Hds IH]; [done|]. apply (tells_cons _ _ [] [] [_] _ (diff_row_tells d Hd) IH).
Qed.

Lemma conversion_tells title what ds : Forall diff_ok ds -> 10 ∉ chars title -> quiet what = true ->
  tells (conversion_part title what ds) [] (map (fun d => (fst (fst d), snd d)) ds).
Proof.
  intros Hd Ht Hw. unfold conversion_part. apply (tells_app _ _ [] [] [] _).
  { apply silent_cons; [|apply silent_nil]. unfold count_of. by quietly_said. }
  destruct ds as [|d ds]; [apply constant_lines; by vm_compute|]. apply (tells_app _ _ [] [] [] _).
  { apply silent_cons; [rewrite <- (app_nil_r (chars what)); by apply silent_text; [|decided]|]. apply constant_lines; by vm_compute. }
  pose proof (tells_app _ _ _ _ _ _ (rows_tell _ Hd) silent_nil) as H. by rewrite !app_nil_r in H.
Qed.

Lemma number_tells n l : 10 ∉ l -> tells [decimal (Z.of_nat n) ++ l] [] [].
Proof.
  intros Hl. pose proof (decimal_line n) as Hn. destruct (decimal_ok (Z.of_nat n) ltac:(lia)) as (D & _ & Hne & _).
  destruct (decimal (Z.of_nat n)) as [|c r]; [done|]. apply Forall_cons in D as [D _]. unfold is_digit in D.
  apply (silent c (r ++ l)); [|lia|lia]. change (c :: r ++ l) with ((c :: r) ++ l). by rewrite not_elem_of_app.
Qed.

Lemma semigraphic_head {A} (ds : list A) : tells [chars "### Semigraphic map (" ++ count_of ds ++ chars " differences)"; []] [] [].
Proof. apply silent_cons; [|apply silent_nil]. unfold count_of. by quietly_said. Qed.

Lemma semigraphic_count {A} (ds : list A) : tells [count_of ds ++ chars " positions differ from identity (semigraphic ROM"] [] [].
Proof. apply number_tells. decided. Qed.

Lemma semigraphic_tells ds : tells (semigraphic_part ds) [] [].
Proof.
  unfold semigraphic_part. apply (tells_app _ _ [] [] [] []); [apply semigraphic_head|].
  destruct ds as [|d ds]; [apply constant_lines; by vm_compute|]. apply silent_cons; [apply constant_lines; by vm_compute|].
  apply silent_cons; [apply semigraphic_count|apply constant_lines; by vm_compute].
Qed.

Lemma conversion_changes title what t : all_bytes t -> 10 ∉ chars title -> quiet what = true ->
  tells (conversion_part title what (format_diffs t identity_map)) [] (changes t).
Proof. intros Hb Ht Hw. unfold changes. apply conversion_tells; [by apply diffs_ok|done|done]. Qed.

Lemma language_head i t : table_ok t -> tells [chars "## " ++ decimal (Z.of_nat i) ++ chars ". " ++ t_name t; []] [] [].
Proof. intros [Hn _]%names_ok. apply silent_cons; [|apply silent_nil]. by quietly_said. Qed.

Lemma titles_quiet : (10 ∉ chars "Output conversion") /\ (10 ∉ chars "Input conversion") /\
  quiet "Maps application character codes to CRT ROM positions." = true /\ quiet "Maps keyboard scan codes to application character codes." = true.
Proof. split_and!; [decided|decided|by vm_compute|by vm_compute]. Qed.

Lemma language_tells t : table_ok t -> forall i, tells (language_part i t) [] (changes (t_output t) ++ changes (t_input t)).
Proof.
  intros Ht i. destruct titles_quiet as (T1 & T2 & Q1 & Q2). pose proof (language_head i t Ht) as H0.
  pose proof (conversion_changes _ _ _ (proj1 (ok_output t Ht)) T1 Q1) as H1. pose proof (conversion_changes _ _ _ (proj1 (ok_input t Ht)) T2 Q2) as H2.
  pose proof (semigraphic_tells (format_diffs (t_semigraphic t) identity_map)) as H3.
  unfold language_part. revert H0 H1 H2 H3. generalize (changes (t_output t)) (changes (t_input t)).
  match goal with |- context [tells (?a ++ ?b ++ ?c ++ ?d) _ _] => generalize a b c d end.
  intros a b c d r1 r2 H0 H1 H2 H3. rewrite <- (app_nil_r r2).
  apply (tells_app _ _ [] [] [] _ H0), (tells_app _ _ [] [] _ _ H1), (tells_app _ _ [] [] _ _ H2 H3).
Qed.

(** ** The dump *)

Lemma hex_unbroken b : is_byte b -> (32 ∉ fmt_hex 2 b) /\ (10 ∉ fmt_hex 2 b).
Proof.
  intros H. assert (F : Forall (fun b => (32 ∉ fmt_hex 2 b) /\ (10 ∉ fmt_hex 2 b)) (seqZ 0 256)) by decided.
  apply (proj1 (Forall_forall _ _) F), elem_of_seqZ. unfold is_byte in H. lia.
Qed.

Lemma hex_pairs bs rest : all_bytes bs -> bs <> [] -> take (3 * length bs - 1) (join [32] (map (fmt_hex 2) bs) ++ rest) = join [32] (map (fmt_hex 2) bs).
Proof.
  intros Hb Hne. assert (E : length (join [32] (map (fmt_hex 2) bs)) = (3 * length bs - 1)%nat).
  { induction Hb as [|b bs H Hb IH]; [done|]. destruct (hex_read b H) as (c & d & E & _). destruct bs as [|b' bs]; [change (join [32] (map (fmt_hex 2) [b])) with (fmt_hex 2 b); by rewrite E|].
    change (join [32] (map (fmt_hex 2) (b :: b' :: bs))) with (fmt_hex 2 b ++ [32] ++ join [32] (map (fmt_hex 2) (b' :: bs))).
    rewrite E, !length_app, IH by done. cbn [length]. lia. }
  rewrite <- E. apply take_app_length.
Qed.

Lemma hex_pairs_read bs : all_bytes bs -> bs <> [] -> int16_list (split_on 32 (join [32] (map (fmt_hex 2) bs))) = Ret bs.
Proof.
  induction 1 as [|b bs H Hb IH]; intros Hne; [done|]. destruct (hex_read b H) as (c & d & E & R).
  pose proof (hex_unbroken b H) as [Hs _].
  destruct bs as [|b' bs]; [change (join [32] (map (fmt_hex 2) [b])) with (fmt_hex 2 b); rewrite split_on_none by done; rewrite E; cbn [int16_list]; by rewrite R|].
  change (join [32] (map (fmt_hex 2) (b :: b' :: bs))) with (fmt_hex 2 b ++ 32 :: join [32] (map (fmt_hex 2) (b' :: bs))).
  rewrite split_piece by done. cbn [int16_list]. rewrite E, R. mred. by rewrite IH.
Qed.

Definition row_starts : list nat := concat (map (fun s => map (fun row => s + row * 16)%nat (seq 0 8)) [0; 128; 256]%nat).

Definition start_ok (start : nat) : Prop := exists a b c d, fmt_hex 4 (Z.of_nat start) = [a; b; c; d] /\ (10 ∉ [a; b; c; d]).

Lemma starts_ok : Forall start_ok row_starts.
Proof. repeat (constructor; [eexists _, _, _, _; split; [vm_compute; reflexivity|decided]|]). constructor. Qed.

Lemma dump_row_tells l start : all_bytes l -> (start + 16 <= length l)%nat -> start_ok start -> tells [dump_row l start] (slice start (start + 16) l) [].
Proof.
  intros Hb Hl (a & b & c & d & E & Hn). unfold dump_row. rewrite E. clear E.
  assert (Hs : all_bytes (slice start (start + 16) l)) by by apply slice_all.
  assert (L : length (slice start (start + 16) l) = 16%nat) by (rewrite length_slice; lia). revert Hs L. generalize (slice start (start + 16) l). intros s Hs L.
  assert (Hne : s <> []) by by destruct s. set (tail := map (fun b => if (0x20 <=? b) && (b <=? 0x7E) then b else 46) s). assert (Ht : 10 ∉ tail).
  { intros (x & E & _)%list_elem_of_fmap. destruct (Z.leb_spec 32 x), (Z.leb_spec x 126); cbn in E; lia. }
  assert (Hj : 10 ∉ join [32] (map (fmt_hex 2) s)).
  { apply elem_of_join; [lia|]. apply Forall_map. eapply Forall_impl; [exact Hs|]. intros x Hx. by apply hex_unbroken. }
  pose proof (hex_pairs s (chars "  " ++ tail) Hs Hne) as Hp. rewrite L in Hp. split_and!.
  - constructor; [|done]. by no_newlines.
  - cbn [read_all]. assert (read_dump (chars "  " ++ [a; b; c; d] ++ chars ": " ++ join [32] (map (fmt_hex 2) s) ++ chars "  " ++ tail) = Ret s) as ->.
    + unfold read_dump. assert (startswith [32; 32] (chars "  " ++ [a; b; c; d] ++ chars ": " ++ join [32] (map (fmt_hex 2) s) ++ chars "  " ++ tail) = true) as -> by by apply bool_decide_eq_true.
      change (drop 8 _) with (join [32] (map (fmt_hex 2) s) ++ chars "  " ++ tail). change 47%nat with (3 * 16 - 1)%nat. rewrite Hp. by apply hex_pairs_read.
    + mred. by rewrite app_nil_r.
  - cbn [omap list_omap]. unfold read_row. change (chars "| 0x") with [124; 32; 48; 120]. change (chars "  ") with [32; 32]. cbn [app]. by rewrite starts_not.
Qed.

Lemma tells_map {A} (g : A -> str) (h : A -> bytes) l : Forall (fun x => tells [g x] (h x) []) l -> tells (map g l) (concat (map h l)) [].
Proof. induction 1 as [|x l Hx Hl IH]; [done|]. cbn [map concat]. apply (tells_cons _ _ _ _ [] [] Hx IH). Qed.

Lemma slices_concat {A} (l : list A) a n m : concat (map (fun k => slice (a + k * n) (a + k * n + n) l) (seq 0 m)) = slice a (a + m * n) l.
Proof.
  induction m as [|m IH]; [unfold slice; by replace (a + 0 * n - a)%nat with 0%nat by lia|].
  rewrite seq_S, map_app, concat_app, IH. cbn [map concat]. rewrite app_nil_r. unfold slice.
  replace (a + m * n - a)%nat with (m * n)%nat by lia. replace (a + (0 + m) * n + n - (a + (0 + m) * n))%nat with n by lia.
  replace (a + S m * n - a)%nat with (m * n + n)%nat by lia. rewrite <- drop_drop. apply take_take_drop.
Qed.

Lemma block_tells l (s : string * nat) : all_bytes l -> length l = 384%nat -> s ∈ [("Output", 0); ("Input", 128); ("Semigraphic", 256)]%string%nat ->
  tells (dump_block l s) (slice (snd s) (snd s + 128) l) [].
Proof.
  intros Hb Hl Hs. unfold dump_block.
  assert (Hh : tells [chars "**" ++ chars (fst s) ++ chars "** (+0x" ++ fmt_hex 2 (Z.of_nat (snd s)) ++ chars "):"; chars "```"] [] []).
  { clear Hl Hb. revert s Hs. apply Forall_forall. repeat (constructor; [apply constant_lines; by vm_compute|]). constructor. }
  assert (Ht : tells [chars "```"; []] [] []) by (apply constant_lines; by vm_compute).
  assert (Hr : tells (map (fun row => dump_row l (snd s + row * 16)%nat) (seq 0 8)) (slice (snd s) (snd s + 128) l) []).
  { change 128%nat with (8 * 16)%nat. rewrite <- slices_concat. apply tells_map, Forall_forall. intros k Hk%elem_of_seq.
    assert (He : start_ok (snd s + k * 16)%nat /\ (snd s + 128 <= 384)%nat).
    { split; [apply (proj1 (Forall_forall _ _) starts_ok); unfold row_starts|].
      - apply list_elem_of_In, in_concat. exists (map (fun row => snd s + row * 16)%nat (seq 0 8)). split.
        + apply (in_map (fun s => map (fun row => s + row * 16)%nat (seq 0 8))). clear - Hs. revert s Hs. apply Forall_forall. repeat (constructor; [cbn; tauto|]). constructor.
        + apply (in_map (fun row => snd s + row * 16)%nat), in_seq. lia.
      - clear - Hs. revert s Hs. apply Forall_forall. repeat (constructor; [cbn; lia|]). constructor. }
    destruct He as [He1 He2]. apply dump_row_tells; [done|lia|done]. }
  rewrite <- (app_nil_r (slice _ _ _)). apply (tells_app _ _ [] _ [] [] Hh), (tells_app _ _ _ [] [] [] Hr Ht).
Qed.

Lemma part_tells t : table_ok t -> tells (dump_part t) (all_of t) [].
Proof.
  intros Ht. pose proof (names_ok t Ht) as [Hn _]. destruct Ht as [_ [Ho Lo] [Hi Li] [Hs Ls]]. unfold dump_part.
  assert (Hb : all_bytes (all_of t)) by (unfold all_of; by repeat apply Forall_app_2).
  assert (Hl : length (all_of t) = 384%nat) by (unfold all_of; rewrite !length_app; lia).
  assert (Hh : tells [chars "### " ++ t_name t; []] [] []) by (apply silent_cons; [apply silent_text; [by vm_compute|exact Hn]|apply silent_nil]).
  assert (Hd : tells (concat (map (dump_block (all_of t)) [("Output", 0); ("Input", 128); ("Semigraphic", 256)]%string%nat)) (all_of t) []).
  { replace (all_of t) with (concat (map (fun s => slice (snd s) (snd s + 128) (all_of t)) [("Output", 0); ("Input", 128); ("Semigraphic", 256)]%string%nat)) at 2.
    - apply (tells_concat _ _ (fun _ => [])), Forall_forall. intros s. by apply block_tells.
    - cbn [map concat snd]. pose proof (slices_concat (all_of t) 0 128 3) as E. unfold slice at 2 in E. rewrite drop_0, take_ge in E by lia. exact E. }
  apply (tells_app _ _ [] _ [] _ Hh Hd).
Qed.

(** ** The differences make the table *)

Lemma patched_diffs t n : length t = 128%nat -> (n <= 128)%nat ->
  let c := map (fun d => (fst (fst d), snd d)) (omap (fun i => match identity_map !! i, t !! i with
    | Some o, Some m => if m =? o then None else Some (Z.of_nat i, o, m)
    | _, _ => None
    end) (seq 0 n)) in
  patched identity_map c = take n t ++ drop n identity_map.
Proof.
  intros Ht. induction n as [|n IH]; intros Hn; [by rewrite drop_0|]. cbv zeta in *. rewrite seq_S, omap_app, map_app. unfold patched in *. rewrite foldl_app, IH by lia. clear IH.
  change (0 + n)%nat with n. cbn [omap list_omap]. destruct (lookup_lt_is_Some_2 t n) as [m Em]; [lia|].
  destruct (lookup_lt_is_Some_2 identity_map n) as [o Eo]; [change (length identity_map) with 128%nat; lia|]. rewrite Em, Eo.
  rewrite (take_S_r _ _ _ Em), <- app_assoc, (drop_S _ _ _ Eo). assert (L : length (take n t) = n) by (rewrite length_take; lia).
  destruct (Z.eqb_spec m o) as [->|Hne]; cbn [map foldl fst snd]; [done|]. rewrite Nat2Z.id.
  replace n with (length (take n t) + 0)%nat at 1 by lia. by rewrite insert_app_r.
Qed.

Lemma patched_changes t : length t = 128%nat -> patched identity_map (changes t) = t.
Proof.
  intros Ht. unfold changes, format_diffs. rewrite (patched_diffs t 128 Ht ltac:(lia)). rewrite take_ge by lia.
  change (drop 128 identity_map) with (@nil Z). apply app_nil_r.
Qed.

(** ** The whole report *)

Lemma tells_rows {A} (g : nat -> A -> str) l : Forall (fun x => forall i, tells [g i x] [] []) l -> tells (imap g l) [] [].
Proof.
  intros H. revert g H. induction l as [|x l IH]; intros g H; [done|]. apply Forall_cons in H as [Hx Hl]. cbn [imap].
  apply (tells_cons _ _ [] [] [] []); [apply Hx|]. apply (IH (g ∘ S)). eapply Forall_impl; [exact Hl|]. intros y Hy i. apply (Hy (S i)).
Qed.

Lemma report_tells ts : Forall table_ok ts ->
  tells (md_lines ts) (concat (map all_of ts)) (concat (map (fun t => changes (t_output t) ++ changes (t_input t)) ts)).
Proof.
  intros Ht. destruct head_tells as (H1 & H2 & H3). unfold md_lines.
  assert (Hs : tells (imap summary_row ts) [] []) by (apply tells_rows; eapply Forall_impl; [exact Ht|]; intros t H i; by apply summary_tells).
  assert (Hc : tells [chars "## Raw Table Data"; []; chars "Full hex dump of each table (384 bytes = 3 " ++ [215] ++ chars " 128)."; []] [] []) by (apply constant_lines; by vm_compute).
  assert (Hl : tells (concat (imap language_part ts)) (concat (map (fun _ => []) ts)) (concat (map (fun t => changes (t_output t) ++ changes (t_input t)) ts))).
  { apply tells_imap. eapply Forall_impl; [exact Ht|]. intros t H i. by apply language_tells. }
  assert (Hd : tells (concat (map dump_part ts)) (concat (map all_of ts)) (concat (map (fun _ => []) ts))).
  { apply tells_concat. eapply Forall_impl; [exact Ht|]. intros t H. by apply part_tells. }
  assert (En : forall B, concat (map (fun _ : table => @nil B) ts) = []) by (intros B; clear; by induction ts).
  rewrite En in Hl, Hd. revert H1 H2 H3 Hs Hc Hl Hd. pose proof silent_nil as H0.
  generalize (concat (map (fun t => changes (t_output t) ++ changes (t_input t)) ts)) (concat (map all_of ts)).
  match goal with |- context [tells (?a ++ ?b ++ _ ++ ?c ++ ?d ++ _ ++ ?e ++ ?f ++ ?g) _ _] => generalize a b c d e f g end.
  intros a b c d e f g rs bs Ha Hc Hd Hb Hf He Hg. rewrite <- (app_nil_r rs).
  apply (tells_app _ _ [] _ [] _ Ha), (tells_app _ _ [] _ [] _ Hb), (tells_app _ _ [] _ [] _ H0), (tells_app _ _ [] _ [] _ Hc), (tells_app _ _ [] _ [] _ Hd),
    (tells_app _ _ [] _ [] _ H0), (tells_app _ _ [] _ _ _ He), (tells_app _ _ [] _ [] _ Hf), Hg.
Qed.

Lemma bars_app a b : bars (a ++ b) = bars a + bars b.
Proof. unfold bars. rewrite filter_app, length_app. lia. Qed.

Definition bar_ok (b : Z) : Prop := bars (hex0x b) = 0 /\ bars (char_repr b) = if b =? 124 then 1 else 0.

Lemma bars_ok b : is_byte b -> bar_ok b.
Proof.
  intros H. assert (F : Forall bar_ok (seqZ 0 256)) by (unfold bar_ok; decided). apply (proj1 (Forall_forall _ _) F), elem_of_seqZ. unfold is_byte in H. lia.
Qed.

Lemma diff_row_bars o m : 0 <= o < 128 -> is_byte m -> bars (diff_row (o, o, m)) = 5 + (if o =? 124 then 1 else 0) + (if m =? 124 then 1 else 0).
Proof.
  intros Ho Hm. destruct (bars_ok o ltac:(unfold is_byte; lia)) as [H1 H2], (bars_ok m Hm) as [H3 H4]. unfold diff_row. rewrite !bars_app, H1, H2, H3, H4.
  spell. change (bars [124; 32]) with 1. change (bars [32; 40]) with 0. change (bars [41; 32; 124; 32]) with 1. change (bars [32; 124; 32]) with 1. change (bars [41; 32; 124; 32; 124]) with 2. lia.
Qed.

Lemma cuts_ok data langs : all_bytes data -> (forall l, l ∈ langs -> l ∈ LANGUAGES) -> forall i, 0 <= i ->
  TABLE_OFFSET + (i + zlength langs) * TABLE_SIZE <= zlength data -> Forall table_ok (cuts data i langs).
Proof.
  intros Hb. induction langs as [|lang langs IH]; intros Hin i Hi Hl; [constructor|]. rewrite zlength_cons in Hl. pose proof (zlength_pos langs). constructor.
  - apply cut_ok; [done|done|unfold TABLE_SIZE in *; lia|apply Hin, list_elem_of_here].
  - apply IH; [intros l H'; apply Hin; by apply elem_of_cons; right|lia|lia].
Qed.

(** C25: the conversion tables.  A CONFI.COM that is too short for seven tables
    raises [ValueError], one whose first table does not map every code to itself
    [AssertionError], before anything is written.  Of any other one the binary file is the
    2688 bytes from 0EF5h on, and each of the 21 generated texts, read the way its
    translator reads it, has exactly the 384 bytes of its table in order: the DB lines, the
    defb lines, and the C initialiser with its commas.  The report's dump, read line by
    line, has the same 2688 bytes, and its rows of differences, read back, are for each
    table the positions and values that, put into the identity, make the output and the
    input table.  A row has the five bars of its table's head only when neither the
    character nor the one it is mapped to is a bar, and so in the table of national
    characters. *)
Theorem conversion_tables_are_written_and_reported data (Hb : all_bytes data) :
  (let danish := slice 0 128 (raw_table data 0) ++ slice 128 256 (raw_table data 0) in
  (zlength data < TABLE_OFFSET + 7 * TABLE_SIZE ->
     forall m i, extract_conv_tables data m i = Raise ValueError) /\
  (TABLE_OFFSET + 7 * TABLE_SIZE <= zlength data ->
     (danish <> identity_map ++ identity_map -> forall m i, extract_conv_tables data m i = Raise AssertionError) /\
     (danish = identity_map ++ identity_map ->
        exists macs incs hs,
          extract_conv_tables data true true = Ret (takeZ (7 * TABLE_SIZE) (dropZ TABLE_OFFSET data), macs, incs ++ hs) /\
          map fst macs = map (fun p => chars (snd p)) MAC_FILENAMES /\
          Forall2 (fun f k => mac_bytes (snd f) = Ret (raw_table data k)) macs (seqZ 0 7) /\
          Forall2 (fun f k => inc_bytes (snd f) = Ret (raw_table data k)) incs (seqZ 0 7) /\
          Forall2 (fun f k => c_bytes (snd f) = Ret (raw_table data k)) hs (seqZ 0 7)))) /\
  (TABLE_OFFSET + 7 * TABLE_SIZE <= zlength data -> exists ts, extract_tables data = Ret ts /\
     dump_bytes (write_markdown ts) = Ret (takeZ (7 * TABLE_SIZE) (dropZ TABLE_OFFSET data)) /\
     rows_read (write_markdown ts) = concat (map (fun t => changes (t_output t) ++ changes (t_input t)) ts) /\
     Forall (fun t => patched identity_map (changes (t_output t)) = t_output t /\ patched identity_map (changes (t_input t)) = t_input t) ts) /\
  (forall o m, 0 <= o < 128 -> is_byte m -> bars (diff_row (o, o, m)) = 5 + (if o =? 124 then 1 else 0) + (if m =? 124 then 1 else 0)) /\
  map (fun p => bars (national_row p)) national_positions = [5; 5; 5; 5; 5; 5; 5; 5; 7; 5; 5].
Proof.
  split; [by apply conversion_tables_are_written|]. split_and!; [|exact diff_row_bars|by vm_compute].
  intros Hl. assert (Hin : forall l, l ∈ LANGUAGES -> l ∈ LANGUAGES) by done. exists (cuts data 0 LANGUAGES).
  assert (Ht : Forall table_ok (cuts data 0 LANGUAGES)) by by apply cuts_ok.
  pose proof (tells_text _ _ _ (report_tells _ Ht)) as [Hd Hr]. split; [by apply tables_cut|].
  unfold write_markdown. rewrite Hd, Hr, (cuts_concat data LANGUAGES Hb Hin 0) by done. split_and!; [reflexivity|reflexivity|].
  eapply Forall_impl; [exact Ht|]. intros t [_ [_ Lo] [_ Li] _]. split; by apply patched_changes.
Qed.

Lemma conversion_tables_are_written_and_reported_witness :
  (forall m i, extract_conv_tables [1; 2; 3] m i = Raise ValueError) /\
  (exists macs rest, extract_conv_tables sample_confi true true = Ret (takeZ 2688 (dropZ 3829 sample_confi), macs, rest) /\
    (mac_bytes ∘ snd) <$> head macs = Some (Ret (identity_map ++ identity_map ++ repeatZ 128 7))) /\
  (exists ts, extract_tables sample_confi = Ret ts /\ dump_bytes (write_markdown ts) = Ret (takeZ 2688 (dropZ 3829 sample_confi))) /\
  bars (diff_row (124, 124, 65)) = 6.
Proof.
  split_and!.
  - exact (proj1 (proj1 (conversion_tables_are_written_and_reported [1; 2; 3] ltac:(decided))) ltac:(by vm_compute)).
  - destruct (proj2 (proj2 (proj1 (conversion_tables_are_written_and_reported sample_confi sample_confi_ok)) ltac:(by vm_compute)) ltac:(by vm_compute))
      as (macs & incs & hs & E & _ & H & _). exists macs, (incs ++ hs). split; [exact E|].
    inversion H as [|m k macs' ks Hm]. subst. cbn. f_equal. rewrite Hm. vm_compute. reflexivity.
  - destruct (proj1 (proj2 (conversion_tables_are_written_and_reported sample_confi sample_confi_ok)) ltac:(by vm_compute)) as (ts & E & H & _).
    exists ts. split; [exact E|exact H].
  - exact (proj1 (proj2 (proj2 (conversion_tables_are_written_and_reported [] ltac:(decided)))) 124 65 ltac:(lia) ltac:(unfold is_byte; lia)).
Defined.
