(* ===== verification/Trace.v ===== *)
(** * Recorded CP/NET traffic: cpnos-rom/testutil/sio_tee.py and cpnet_decode.py.

    sio_tee.py writes the bytes of both directions of the line with their times into
    a log; [parse_log] reads them back, and [decode_stream] finds the messages.  The
    clock's readings are the numbers the log shows, hundredths of a millisecond, and
    [parse_log] keeps a time as the decimal number it read, not the nearest float.
    The sockets and the threads' turns (the order of the chunks is an argument), and
    the layout of the report, are left out. *)

From S2P Require Import Prelude Wire Framing Imd Hex Text.
#[local] Open Scope Z_scope.

(** [M>] and [<M]. *)
Inductive direction : Set := FromMame | ToMame.
#[export] Instance direction_eq_dec : EqDecision direction.
Proof. solve_decision. Defined.

Definition opposite (d : direction) : direction := match d with FromMame => ToMame | ToMame => FromMame end.

Section Decode.
Context {T : Type}.

(** A control character, or a message with the times of its first and last byte. *)
Inductive msg : Type :=
| Control (t : T) (d : direction) (c : Z)
| Message (t : option T) (d : direction) (hdr dat ck : bytes) (t_end : T).

(** The bytes collected in one direction and when they began. *)
Record side : Type := Side { buf : bytes; start : option T }.

Definition sides : Type := side * side.
Definition side_of (s : sides) (d : direction) : side := match d with FromMame => fst s | ToMame => snd s end.
Definition set_side (s : sides) (d : direction) (x : side) : sides :=
  match d with FromMame => (x, snd s) | ToMame => (fst s, x) end.

(** [l.index(x)], if [x] is in it. *)
Fixpoint position (x : Z) (l : bytes) : option nat :=
  match l with
  | [] => None
  | y :: l' => if y =? x then Some 0%nat else S <$> position x l'
  end.

(** The parts of a complete frame: an ETX behind the first STX, and two more bytes. *)
Definition frame_of (b : bytes) : option (bytes * bytes * bytes) :=
  match position STX b with
  | None => None
  | Some stx_at =>
      match position ETX (drop (stx_at + 1) b) with
      | None => None
      | Some k =>
          let etx_at := (stx_at + 1 + k)%nat in
          if (etx_at + 3 <=? length b)%nat
          then Some (slice 1 stx_at b, slice (stx_at + 1) etx_at b, slice (etx_at + 1) (etx_at + 3) b)
          else None
      end
  end.

(** One event: the states after it and the messages it adds. *)
Definition event (s : sides) (e : T * direction * Z) : sides * list msg :=
  let '(t, d, b) := e in
  let st := side_of s d in
  match buf st with
  | [] =>
      if (b =? ENQ) || (b =? ACK) || (b =? NAK) then (s, [Control t d b])
      else if b =? SOH then (set_side s d (Side [SOH] (Some t)), [])
      else (s, [])
  | _ =>
      let buf' := buf st ++ [b] in
      match frame_of buf' with
      | Some (hdr, dat, ck) => (set_side s d (Side [] None), [Message (start st) d hdr dat ck t])
      | None => (set_side s d (Side buf' (start st)), [])
      end
  end.

Fixpoint decode_from (s : sides) (events : list (T * direction * Z)) : list msg :=
  match events with
  | [] => []
  | e :: events' => let '(s', ms) := event s e in ms ++ decode_from s' events'
  end.


Definition decode_stream (events : list (T * direction * Z)) : list msg := decode_from (Side [] None, Side [] None) events.
End Decode.
Arguments msg : clear implicits.
Arguments side : clear implicits.
Arguments sides : clear implicits.

(** ** The log *)

Definition label (d : direction) : str := match d with FromMame => chars "M>" | ToMame => chars "<M" end.

Definition rjust (w : nat) (s : str) : str := replicate (w - length s) 32 ++ s.

(** [f'{t_ms:9.2f}'] without and with the padding, [t] in hundredths. *)
Definition fixed2 (t : Z) : str := decimal (t / 100) ++ [46] ++ decimal_width 2 (t mod 100).
Definition t_ms (t : Z) : str := rjust 9 (fixed2 t).

Definition ascii_repr (b : Z) : Z := if (32 <=? b) && (b <? 127) then b else 46.

Definition log_line (n : Z) (d : direction) (t b : Z) : str :=
  t_ms t ++ [32] ++ label d ++ [32] ++ rjust 5 (decimal n) ++ [32] ++ fmt_hex 2 b ++ chars " (" ++ [ascii_repr b] ++ chars ")".

(** [counters]: how many bytes each direction has had. *)
Definition counters : Type := Z * Z.
Definition count (c : counters) (d : direction) : Z := match d with FromMame => fst c | ToMame => snd c end.
Definition counted (c : counters) (d : direction) : counters :=
  match d with FromMame => (fst c + 1, snd c) | ToMame => (fst c, snd c + 1) end.

(** A chunk under the lock, each byte with the time it is logged. *)
Fixpoint pump_chunk (c : counters) (d : direction) (chunk : list (Z * Z)) : counters * list str :=
  match chunk with
  | [] => (c, [])
  | (t, b) :: chunk' =>
      let c' := counted c d in
      let '(c'', ls) := pump_chunk c' d chunk' in (c'', log_line (count c' d) d t b :: ls)
  end.

Fixpoint pump_chunks (c : counters) (chunks : list (direction * list (Z * Z))) : counters * list str :=
  match chunks with
  | [] => (c, [])
  | (d, chunk) :: chunks' =>
      let '(c', ls) := pump_chunk c d chunk in
      let '(c'', ls') := pump_chunks c' chunks' in (c'', ls ++ ls')
  end.

Definition tee_log (chunks : list (direction * list (Z * Z))) : str :=
  let '(c, ls) := pump_chunks (0, 0) chunks in
  listing (chars "# sio_tee streaming log  t_ms dir n hex (ascii)" :: ls ++
    [chars "# closed  M>" ++ decimal (count c FromMame) ++ chars " bytes  <M" ++ decimal (count c ToMame) ++ chars " bytes"]).

(** ** Reading it

    [LINE_RE]: its parts share no characters with what follows them, so no part
    is ever given back. *)
Definition time_char (c : Z) : bool := is_digit c || (c =? 46).

Definition many (f : Z -> bool) (s : str) : option (str * str) :=
  match take_while f s with [] => None | a => Some (a, drop_while f s) end.

Definition match_direction (s : str) : option (direction * str) :=
  match s with
  | 77 :: 62 :: s' => Some (FromMame, s')
  | 60 :: 77 :: s' => Some (ToMame, s')
  | _ => None
  end.

Definition match_line (line : str) : option (str * direction * Z) :=
  '(num, s) ← many time_char (drop_while py_space line);
  '(_, s) ← many py_space s;
  '(d, s) ← match_direction s;
  '(_, s) ← many py_space s;
  '(_, s) ← many is_digit s;
  '(_, s) ← many py_space s;
  match s with
  | h :: l :: _ => h' ← hexval h; l' ← hexval l; Some (num, d, h' * 16 + l')
  | _ => None
  end.

(** [float] of digits and dots: the number without its dot, and how many of its
    digits stand behind it. *)
Definition float_of (s : str) : outcome (Z * nat) :=
  match split_on 46 s with
  | [a] => match a with [] => Raise ValueError | ds => Ret (value 0 ds, 0%nat) end
  | [a; b] => match a ++ b with [] => Raise ValueError | ds => Ret (value 0 ds, length b) end
  | _ => Raise ValueError
  end.

Fixpoint parse_lines (lines : list str) : outcome (list (Z * nat * direction * Z)) :=
  match lines with
  | [] => Ret []
  | line :: lines' =>
      match match_line line with
      | None => parse_lines lines'
      | Some (num, d, b) => t ← float_of num; out ← parse_lines lines'; Ret ((t, d, b) :: out)
      end
  end.

Definition parse_log (file : str) : outcome (list (Z * nat * direction * Z)) := parse_lines (readlines file).

(** ** Lines written and read *)

Lemma many_app f a r : a <> [] -> Forall (fun c => f c = true) a -> (forall c, head r = Some c -> f c = false) ->
  many f (a ++ r) = Some (a, r).
Proof. intros Hne Ha Hr. unfold many. destruct (take_drop_while f a r Ha Hr) as [-> ->]. by destruct a. Qed.

Lemma rjust_spaces w s r : (forall c, head s = Some c -> py_space c = false) -> s <> [] -> drop_while py_space (rjust w s ++ r) = s ++ r.
Proof.
  intros Hs Hne. unfold rjust. rewrite <- app_assoc, drop_while_replicate by done.
  apply drop_while_false. destruct s as [|c s]; [done|]. intros x [= <-]. by apply Hs.
Qed.

Lemma many_spaces w s r : (forall c, head s = Some c -> py_space c = false) -> s <> [] ->
  many py_space (32 :: rjust w s ++ r) = Some (32 :: replicate (w - length s) 32, s ++ r).
Proof.
  intros Hs Hne. unfold rjust. rewrite <- app_assoc.
  change (32 :: replicate (w - length s) 32 ++ s ++ r) with ((32 :: replicate (w - length s) 32) ++ s ++ r).
  apply many_app; [done|constructor; [done|by apply Forall_replicate]|]. by destruct s.
Qed.

Lemma many_space c r : py_space c = false -> many py_space (32 :: c :: r) = Some ([32], c :: r).
Proof. intros H. exact (many_spaces 0 [c] r ltac:(by intros ? [= <-]) ltac:(done)). Qed.

Lemma digits_head s r c : digits s -> s <> [] -> head (s ++ r) = Some c -> is_digit c = true.
Proof. intros Hs Hne. destruct s as [|x s]; [done|]. apply Forall_cons in Hs as [H _]. by intros [= <-]. Qed.

Lemma fixed2_ok t : 0 <= t ->
  Forall (fun c => time_char c = true) (fixed2 t) /\ (forall c r, head (fixed2 t ++ r) = Some c -> py_space c = false) /\
  fixed2 t <> [] /\ float_of (fixed2 t) = Ret (t, 2%nat).
Proof.
  intros Ht. unfold fixed2. assert (0 <= t / 100) as Hd by (apply Z.div_pos; lia).
  assert (0 <= t mod 100 < 100) as Hm by (apply Z.mod_pos_bound; lia).
  destruct (decimal_ok _ Hd) as (D1 & V1 & N1 & _). destruct (decimal_width_ok 2 _ (proj1 Hm)) as (D2 & V2 & N2).
  assert (L2 : length (decimal_width 2 (t mod 100)) = 2%nat).
  { assert (F : Forall (fun n => length (decimal_width 2 n) = 2%nat) (seqZ 0 100)) by decided.
    apply (proj1 (Forall_forall _ _) F). apply elem_of_seqZ. lia. }
  assert (S : forall s, digits s -> 46 ∉ s).
  { intros s Hs H. by apply (proj1 (Forall_forall _ _) Hs) in H. }
  split_and!.
  - assert (T : forall c, is_digit c = true -> time_char c = true) by (intros c Hc; unfold time_char; by rewrite Hc).
    apply Forall_app_2; [eapply Forall_impl; [exact D1|exact T]|]. constructor; [done|]. eapply Forall_impl; [exact D2|exact T].
  - intros c r H. rewrite <- app_assoc in H. apply digit_not_space. exact (digits_head _ _ _ D1 N1 H).
  - by destruct (decimal (t / 100)).
  - unfold float_of. change ([46] ++ ?x) with (46 :: x). rewrite split_on_app, !split_on_none by auto. cbn [app]. rewrite L2.
    destruct (decimal (t / 100) ++ _) as [|c l] eqn:E; [by destruct (decimal (t / 100))|]. rewrite <- E. do 2 f_equal.
    rewrite value_app, V1, value_from, V2, L2. change (10 ^ Z.of_nat 2) with 100. pose proof (Z.div_mod t 100 ltac:(lia)). lia.
Qed.

Lemma match_log_line n d t b : 0 <= t -> 0 <= n -> is_byte b -> match_line (log_line n d t b) = Some (fixed2 t, d, b).
Proof.
  intros Ht Hn Hb. destruct (fixed2_ok t Ht) as (F1 & F2 & F3 & _). destruct (decimal_ok n Hn) as (D & _ & N & _).
  unfold match_line, log_line, t_ms. rewrite rjust_spaces; [|intros c H; apply (F2 c []); by rewrite app_nil_r|done].
  cbn [app]. rewrite many_app by (done || by intros c [= <-]). cbn [mbind option_bind].
  assert (E : forall r, many py_space (32 :: label d ++ r) = Some ([32], label d ++ r)) by (intros r; destruct d; by apply many_space).
  rewrite E. cbn [mbind option_bind].
  assert (E' : forall r, match_direction (label d ++ r) = Some (d, r)) by (intros r; by destruct d). rewrite E'. cbn [mbind option_bind].
  rewrite many_spaces; [|intros c H; apply digit_not_space; eapply (digits_head _ [] c D N); by rewrite app_nil_r|done]. cbn [mbind option_bind].
  rewrite many_app by (done || by intros c [= <-]). cbn [mbind option_bind].
  rewrite fmt_hex_2 by done. unfold hex_bytes. cbn [map concat app].
  destruct (byte_digits b Hb) as [H1 H2]. destruct (hexval_hexdig _ H1) as (X1 & _ & S1 & _), (hexval_hexdig _ H2) as (X2 & _).
  rewrite many_space by done. cbn [mbind option_bind]. rewrite X1, X2. cbn [mbind option_bind].
  do 2 f_equal. pose proof (Z.div_mod b 16 ltac:(lia)). lia.
Qed.

Lemma log_line_clean n d t b : 0 <= t -> 0 <= n -> is_byte b -> clean (log_line n d t b).
Proof.
  intros Ht Hn Hb. destruct (fixed2_ok t Ht) as (F1 & _). destruct (decimal_ok n Hn) as (D & _).
  assert (T : forall c, time_char c = true -> line_break c = false /\ c <> 13).
  { intros c [H%is_digit_spec|H%Z.eqb_eq]%orb_true_iff; unfold line_break; split; lia. }
  assert (C : forall w s, clean s -> clean (rjust w s)).
  { intros w s Hs. apply Forall_app. split; [|done]. apply Forall_replicate. by split. }
  unfold log_line, clean. rewrite !Forall_app. split_and!; try (by repeat constructor).
  - apply C. eapply Forall_impl; [exact F1|]. exact T.
  - destruct d; by repeat constructor.
  - apply C. eapply Forall_impl; [exact D|]. intros c H. apply T. unfold time_char. cbn beta in H. by rewrite H.
  - rewrite fmt_hex_2 by done. destruct (byte_digits b Hb) as [H1 H2]. unfold hex_bytes. cbn [map concat app].
    destruct (hexval_hexdig _ H1) as (_ & _ & _ & X1 & Y1 & _), (hexval_hexdig _ H2) as (_ & _ & _ & X2 & Y2 & _). by repeat constructor.
  - constructor; [|constructor]. unfold ascii_repr. destruct (Z.leb_spec 32 b), (Z.ltb_spec b 127); unfold line_break; cbn; split; try done; lia.
Qed.

(** What a log records: each byte with its time and direction. *)
Definition chunk_events (d : direction) (chunk : list (Z * Z)) : list (Z * nat * direction * Z) :=
  map (fun tb => (fst tb, 2%nat, d, snd tb)) chunk.
Definition log_events (chunks : list (direction * list (Z * Z))) : list (Z * nat * direction * Z) :=
  concat (map (fun c => chunk_events (fst c) (snd c)) chunks).

Definition timed_byte (tb : Z * Z) : Prop := 0 <= fst tb /\ is_byte (snd tb).

(** Log lines that are read as the events. *)
Definition read_as (ls : list str) (es : list (Z * nat * direction * Z)) : Prop :=
  Forall clean ls /\ forall rest, parse_lines (ls ++ rest) = (out ← parse_lines rest; Ret (es ++ out)).

Lemma read_as_app ls es ls' es' : read_as ls es -> read_as ls' es' -> read_as (ls ++ ls') (es ++ es').
Proof.
  intros [C R] [C' R']. split; [by apply Forall_app_2|]. intros rest. rewrite <- app_assoc, R, R'.
  destruct (parse_lines rest); cbn; [by rewrite app_assoc|done].
Qed.

Lemma read_as_nil : read_as [] [].
Proof. split; [done|]. intros rest. cbn [app]. by destruct (parse_lines rest). Qed.

Lemma read_as_line n d t b : 0 <= n -> timed_byte (t, b) -> read_as [log_line n d t b] [(t, 2%nat, d, b)].
Proof.
  intros Hn [Ht Hb]. split; [repeat constructor; by apply log_line_clean|]. intros rest. cbn [app parse_lines fst snd].
  rewrite match_log_line by done. destruct (fixed2_ok t Ht) as (_ & _ & _ & ->). cbn [mbind outcome_bind]. by destruct (parse_lines rest).
Qed.

Definition counts_ok (c : counters) : Prop := 0 <= fst c /\ 0 <= snd c.

Lemma counted_ok c d : counts_ok c -> counts_ok (counted c d) /\ 0 <= count (counted c d) d.
Proof. unfold counts_ok. destruct d; cbn; lia. Qed.

Lemma chunk_read d chunk : Forall timed_byte chunk -> forall c, counts_ok c ->
  let '(c', ls) := pump_chunk c d chunk in counts_ok c' /\ read_as ls (chunk_events d chunk).
Proof.
  induction 1 as [|[t b] chunk Htb _ IH]; intros c Hc; cbn [pump_chunk]; [split; [done|apply read_as_nil]|].
  destruct (counted_ok c d Hc) as [Hc' Hn]. specialize (IH _ Hc'). destruct (pump_chunk (counted c d) d chunk) as [c'' ls].
  destruct IH as [H1 H2]. split; [done|]. exact (read_as_app _ _ _ _ (read_as_line _ d t b Hn Htb) H2).
Qed.

Lemma chunks_read chunks : Forall (fun c => Forall timed_byte (snd c)) chunks -> forall c, counts_ok c ->
  let '(c', ls) := pump_chunks c chunks in counts_ok c' /\ read_as ls (log_events chunks).
Proof.
  induction 1 as [|[d chunk] chunks Hch _ IH]; intros c Hc; cbn [pump_chunks]; [split; [done|apply read_as_nil]|].
  pose proof (chunk_read d chunk Hch c Hc) as H. destruct (pump_chunk c d chunk) as [c' ls]. destruct H as [H1 H2].
  specialize (IH c' H1). destruct (pump_chunks c' chunks) as [c'' ls']. destruct IH as [H3 H4].
  split; [done|]. by apply (read_as_app _ (chunk_events d chunk)).
Qed.

Lemma log_reads_back chunks : Forall (fun c => Forall timed_byte (snd c)) chunks ->
  parse_log (tee_log chunks) = Ret (log_events chunks).
Proof.
  intros H. unfold parse_log, tee_log. pose proof (chunks_read chunks H (0, 0) ltac:(by split)) as R.
  destruct (pump_chunks (0, 0) chunks) as [c ls]. destruct R as [[H1 H2] [C R]].
  assert (D : forall n, 0 <= n -> clean (decimal n)).
  { intros n Hn. destruct (decimal_ok n Hn) as (D & _). eapply Forall_impl; [exact D|]. intros x Hx%is_digit_spec.
    unfold line_break. split; [|lia]. destruct (Z.leb_spec 10 x), (Z.leb_spec x 13), (Z.leb_spec 28 x), (Z.leb_spec x 30); done || lia. }
  rewrite readlines_listing; [|done|].
  - cbn [parse_lines app]. change (match_line (chars _)) with (@None (str * direction * Z)). cbn match. rewrite R.
    set (l := chars "# closed  M>" ++ _). cbn [parse_lines]. change (match_line l) with (@None (str * direction * Z)).
    cbn. by rewrite app_nil_r.
  - constructor; [by repeat constructor|]. apply Forall_app_2; [done|]. constructor; [|constructor].
    unfold clean. rewrite !Forall_app. split_and!; try (by repeat constructor); by apply D.
Qed.

(** ** Without the times *)

Inductive shown : Set := Sign (d : direction) (c : Z) | Frame (d : direction) (hdr dat ck : bytes).

Definition show {T} (m : msg T) : shown :=
  match m with Control _ d c => Sign d c | Message _ d hdr dat ck _ => Frame d hdr dat ck end.
Definition bytes_of {T} (e : T * direction * Z) : direction * Z := (snd (fst e), snd e).

Definition buffers : Type := bytes * bytes.
Definition buf_of (s : buffers) (d : direction) : bytes := match d with FromMame => fst s | ToMame => snd s end.
Definition set_buf (s : buffers) (d : direction) (b : bytes) : buffers :=
  match d with FromMame => (b, snd s) | ToMame => (fst s, b) end.

Definition see (s : buffers) (e : direction * Z) : buffers * list shown :=
  let '(d, b) := e in
  match buf_of s d with
  | [] =>
      if (b =? ENQ) || (b =? ACK) || (b =? NAK) then (s, [Sign d b])
      else if b =? SOH then (set_buf s d [SOH], [])
      else (s, [])
  | x :: l =>
      match frame_of ((x :: l) ++ [b]) with
      | Some (hdr, dat, ck) => (set_buf s d [], [Frame d hdr dat ck])
      | None => (set_buf s d ((x :: l) ++ [b]), [])
      end
  end.

Fixpoint see_all (s : buffers) (es : list (direction * Z)) : list shown :=
  match es with [] => [] | e :: es' => let '(s', ms) := see s e in ms ++ see_all s' es' end.

Definition forget {T} (s : sides T) : buffers := (buf (fst s), buf (snd s)).

Lemma event_seen {T} (s : sides T) e : let '(s', ms) := event s e in see (forget s) (bytes_of e) = (forget s', map show ms).
Proof.
  destruct e as [[t d] b], s as [[b1 t1] [b2 t2]]. unfold event, see, bytes_of, forget. cbn [fst snd].
  destruct d; cbn [side_of buf_of fst snd buf].
  - destruct b1 as [|x l]; [destruct ((b =? ENQ) || (b =? ACK) || (b =? NAK)); [done|by destruct (b =? SOH)]|].
    by destruct (frame_of ((x :: l) ++ [b])) as [[[hdr dat] ck]|].
  - destruct b2 as [|x l]; [destruct ((b =? ENQ) || (b =? ACK) || (b =? NAK)); [done|by destruct (b =? SOH)]|].
    by destruct (frame_of ((x :: l) ++ [b])) as [[[hdr dat] ck]|].
Qed.

Lemma decode_seen {T} es : forall s : sides T, map show (decode_from s es) = see_all (forget s) (map bytes_of es).
Proof.
  induction es as [|e es IH]; intros s; [done|]. cbn [decode_from map see_all].
  pose proof (event_seen s e) as H. destruct (event s e) as [s' ms]. rewrite H, map_app. by rewrite IH.
Qed.

(** ** Frames on the line

    What the recorder sees of a conversation that one end holds, [d] being the
    direction in which that end sends, and what is to be shown of a frame. *)
Definition seen (d : direction) (a : act) : direction * Z := match a with Out b => (d, b) | In b => (opposite d, b) end.

Definition frame_seen (f : direction * bytes * bytes) : list (direction * Z) :=
  let '(d, hdr, payload) := f in map (seen d) (sender_script hdr payload).

Definition frame_shown (f : direction * bytes * bytes) : list shown :=
  let '(d, hdr, payload) := f in
  [Sign d ENQ; Sign (opposite d) ACK; Sign (opposite d) ACK;
   Frame d (hdr ++ [hcs_of hdr]) payload [cks_of payload; EOT]; Sign (opposite d) ACK].

(** No byte of the header block is STX and none of the payload ETX. *)
Definition plain_frame (f : direction * bytes * bytes) : Prop :=
  let '(_, hdr, payload) := f in (STX ∉ hdr ++ [hcs_of hdr]) /\ (ETX ∉ payload).

Lemma position_none x l : x ∉ l -> position x l = None.
Proof.
  induction l as [|y l IH]; [done|]. intros [Hy H]%not_elem_of_cons. cbn [position].
  rewrite (proj2 (Z.eqb_neq y x)) by auto. by rewrite IH.
Qed.

Lemma position_at x l r : x ∉ l -> position x (l ++ x :: r) = Some (length l).
Proof.
  induction l as [|y l IH]; cbn [app position length]; [by rewrite Z.eqb_refl|]. intros [Hy H]%not_elem_of_cons.
  rewrite (proj2 (Z.eqb_neq y x)) by auto. by rewrite IH.
Qed.

Lemma no_frame_yet l : STX ∉ l -> frame_of (SOH :: l) = None.
Proof. intros H. unfold frame_of. rewrite position_none; [done|]. apply not_elem_of_cons. by split. Qed.

Lemma frame_behind h r : STX ∉ h -> frame_of (SOH :: h ++ STX :: r) =
  match position ETX r with
  | Some k => if (k + 3 <=? length r)%nat then Some (h, take k r, slice (k + 1) (k + 3) r) else None
  | None => None
  end.
Proof.
  intros H. unfold frame_of. change (SOH :: h ++ STX :: r) with ((SOH :: h) ++ STX :: r).
  rewrite position_at by (apply not_elem_of_cons; by split). cbn [length].
  assert (E : drop (S (length h) + 1) ((SOH :: h) ++ STX :: r) = r).
  { rewrite Nat.add_1_r. cbn [drop app]. rewrite drop_app_ge by lia. by replace (S (length h) - length h)%nat with 1%nat by lia. }
  rewrite E. destruct (position ETX r) as [k|]; [|done]. cbv zeta. rewrite length_app. cbn [length].
  replace (S (length h) + 1 + k + 3 <=? S (length h) + S (length r))%nat with (k + 3 <=? length r)%nat
    by (destruct (Nat.leb_spec (k + 3) (length r)), (Nat.leb_spec (S (length h) + 1 + k + 3) (S (length h) + S (length r))); done || lia).
  destruct (k + 3 <=? length r)%nat; [|done]. do 2 f_equal; [f_equal|].
  - unfold slice. cbn [drop app]. replace (S (length h) - 1)%nat with (length h) by lia. apply take_app_length.
  - unfold slice. rewrite E. by replace (S (length h) + 1 + k - (S (length h) + 1))%nat with k by lia.
  - unfold slice. replace (S (length h) + 1 + k + 1)%nat with (S (length h) + 1 + (k + 1))%nat by lia.
    rewrite <- drop_drop, E. f_equal. lia.
Qed.

Lemma buf_set s d b : buf_of (set_buf s d b) d = b.
Proof. by destruct d. Qed.

Lemma buf_other s d b : buf_of (set_buf s d b) (opposite d) = buf_of s (opposite d).
Proof. by destruct d. Qed.

Lemma set_set s d b b' : set_buf (set_buf s d b) d b' = set_buf s d b'.
Proof. by destruct d. Qed.

Lemma see_collect s d l rest : forall b, b <> [] -> (forall k, (0 < k <= length l)%nat -> frame_of (b ++ take k l) = None) ->
  see_all (set_buf s d b) (map (pair d) l ++ rest) = see_all (set_buf s d (b ++ l)) rest.
Proof.
  induction l as [|c l IH]; intros b Hb H; cbn [map app see_all]; [by rewrite app_nil_r|].
  unfold see. rewrite buf_set. destruct b as [|x b]; [done|].
  pose proof (H 1%nat ltac:(cbn; lia)) as H1. cbn [take] in H1. rewrite take_0 in H1. rewrite H1, set_set. cbn [app].
  change (x :: b ++ [c]) with ((x :: b) ++ [c]). rewrite IH; [by rewrite <- app_assoc|by destruct b|].
  intros k Hk. rewrite <- app_assoc. apply (H (S k)). cbn [length]. lia.
Qed.

Lemma see_sign s d c rest : buf_of s d = [] -> c = ENQ \/ c = ACK -> see_all s ((d, c) :: rest) = Sign d c :: see_all s rest.
Proof. intros H Hc. cbn [see_all]. unfold see. rewrite H. by destruct Hc as [->| ->]. Qed.

Lemma seen_out d l : map (seen d) (map Out l) = map (pair d) l.
Proof. by rewrite map_map. Qed.

Lemma frame_is_shown f rest : plain_frame f -> see_all ([], []) (frame_seen f ++ rest) = frame_shown f ++ see_all ([], []) rest.
Proof.
  destruct f as [[d hdr] payload]. intros [H2 H3]. unfold frame_seen, frame_shown.
  set (h := hdr ++ [hcs_of hdr]). set (r := payload ++ [ETX; cks_of payload]).
  assert (E : map (seen d) (sender_script hdr payload) =
    (d, ENQ) :: (opposite d, ACK) :: (d, SOH) :: map (pair d) h ++ (opposite d, ACK) :: map (pair d) (STX :: r) ++ [(d, EOT); (opposite d, ACK)]).
  { rewrite sender_script_eq. unfold h, r. cbn [map seen app]. rewrite !map_app. cbn [map seen]. rewrite !map_app, !seen_out.
    cbn [map seen app]. rewrite <- !app_assoc. cbn [app]. done. }
  rewrite E. cbn [app].
  assert (I : forall d, buf_of ([], []) d = []) by (by intros []).
  rewrite see_sign, see_sign by auto. cbn [see_all]. unfold see at 1. rewrite I. cbn [Z.eqb orb]. cbn match.
  change ((SOH =? ENQ) || (SOH =? ACK) || (SOH =? NAK)) with false. change (SOH =? SOH) with true. cbn match.
  rewrite <- app_assoc, see_collect; [|done|].
  2:{ intros k _. apply no_frame_yet. intros Hin. apply H2. apply elem_of_take in Hin as (i & Hin & _). by apply list_elem_of_lookup_2 in Hin. }
  cbn [app]. rewrite see_sign by (rewrite ?buf_other; auto). cbn [app].
  change (map (pair d) (STX :: r)) with ((d, STX) :: map (pair d) r).
  change ((d, STX) :: map (pair d) r) with (map (pair d) (STX :: r)). rewrite <- app_assoc, see_collect; [|done|].
  2:{ intros [|k] Hk; [lia|]. change (take (S k) (STX :: r)) with (STX :: take k r). cbn [length] in Hk. cbn [app].
      rewrite frame_behind by done. unfold r in *. rewrite length_app in Hk. cbn [length] in Hk.
      destruct (decide (k <= length payload)%nat) as [Hle|Hgt].
      - rewrite take_app_le by done. rewrite position_none; [done|]. intros Hin. apply H3.
        apply elem_of_take in Hin as (i & Hin & _). by apply list_elem_of_lookup_2 in Hin.
      - rewrite take_app_ge by lia. destruct (k - length payload)%nat as [|m] eqn:Em; [lia|]. cbn [take].
        rewrite position_at by done. rewrite (proj2 (Nat.leb_gt _ _)); [done|]. rewrite length_app. cbn [length]. rewrite length_take. cbn [length]. lia. }
  cbn [app see_all]. unfold see at 1. rewrite buf_set. cbn [app].
  change ((SOH :: h ++ STX :: r) ++ [EOT]) with (SOH :: (h ++ STX :: r) ++ [EOT]). rewrite <- app_assoc. cbn [app].
  rewrite frame_behind by done. unfold r at 1 2 3 4. rewrite <- app_assoc. cbn [app]. rewrite position_at by done.
  rewrite (proj2 (Nat.leb_le _ _)) by (rewrite length_app; cbn [length]; lia). cbn [app].
  rewrite set_set. rewrite take_app_length.
  replace (slice (length payload + 1) (length payload + 3) (payload ++ [ETX; cks_of payload; EOT])) with [cks_of payload; EOT].
  - assert (set_buf ([], []) d [] = ([], [])) as -> by (by destruct d). do 4 f_equal.
    exact (see_sign ([], []) (opposite d) ACK rest (I _) (or_intror eq_refl)).
  - unfold slice. rewrite drop_app_ge by lia. replace (length payload + 1 - length payload)%nat with 1%nat by lia. cbn [drop].
    rewrite take_ge; [done|cbn; lia].
Qed.

Lemma frames_are_shown fs : Forall plain_frame fs -> see_all ([], []) (concat (map frame_seen fs)) = concat (map frame_shown fs).
Proof.
  induction 1 as [|f fs Hf _ IH]; [done|]. cbn [map concat]. by rewrite frame_is_shown, IH.
Qed.

(** A request from node 2: its SID is the value of STX. *)
Definition from_node_2 : direction * bytes * bytes := (FromMame, [0; 0; 2; 14; 0], [0]).

(** A payload of two bytes, the first of the value of ETX. *)
Definition with_etx : direction * bytes * bytes := (ToMame, [1; 112; 0; 14; 1], [3; 65]).

Definition at_times (es : list (direction * Z)) : list (nat * direction * Z) :=
  imap (fun i e => (i, fst e, snd e)) es.

(** C26: recorded conversations are shown.  What sio_tee.py writes of the bytes that
    pass it, in whatever chunks and at whatever times, is read back from the log
    byte for byte with its time and direction.  When the bytes of both directions
    are those of whole conversations (ENQ, header block, data block, EOT and the
    answers between them, as the frame layer sends and acknowledges them), none of
    them with the value of STX in the header block or of ETX in the payload, the
    messages found are exactly each frame's control characters and one message with
    its header block, its payload, and the checksum and EOT bytes.  The condition is
    needed: the request of a node with number 2 is shown with a header of two bytes
    and a payload that begins in the header, and a payload with a byte 3 is cut
    there, with the rest of the block lost. *)
Theorem recorded_frames_are_decoded chunks fs : Forall (fun c => Forall timed_byte (snd c)) chunks ->
  (forall T (events : list (T * direction * Z)),
    map bytes_of events = concat (map frame_seen fs) -> Forall plain_frame fs ->
    map show (decode_stream events) = concat (map frame_shown fs))
  /\ parse_log (tee_log chunks) = Ret (log_events chunks)
  /\ map show (decode_stream (at_times (frame_seen from_node_2))) =
     [Sign FromMame ENQ; Sign ToMame ACK; Sign ToMame ACK;
      Frame FromMame [0; 0] [14; 0; hcs_of [0; 0; 2; 14; 0]; STX; 0] [cks_of [0]; EOT]; Sign ToMame ACK]
  /\ map show (decode_stream (at_times (frame_seen with_etx))) =
     [Sign ToMame ENQ; Sign FromMame ACK; Sign FromMame ACK;
      Frame ToMame [1; 112; 0; 14; 1; hcs_of [1; 112; 0; 14; 1]] [] [65; ETX]; Sign FromMame ACK].
Proof.
  intros Hc. split_and!; [|by apply log_reads_back|by vm_compute|by vm_compute].
  intros T events He Hf. unfold decode_stream. rewrite decode_seen, He. by apply frames_are_shown.
Qed.

(** A request and its answer, recorded in the chunks the two ends send. *)
Definition exchange_frames : list (direction * bytes * bytes) :=
  [(FromMame, [0; 0; 112; 14; 0], [0]); (ToMame, [1; 112; 0; 14; 1], [7; 65])].

Definition exchange_chunks : list (direction * list (Z * Z)) :=
  [(FromMame, [(1200, 5)]); (ToMame, [(1310, 6)]); (FromMame, [(1400, 1); (1401, 0); (1402, 0)]);
   (FromMame, [(1500, 112); (1501, 14); (1502, 0); (1503, hcs_of [0; 0; 112; 14; 0])]); (ToMame, [(1611, 6)]);
   (FromMame, [(1700, 2); (1701, 0); (1702, 3); (1703, cks_of [0]); (1704, 4)]); (ToMame, [(1800, 6); (123456, 5)]);
   (FromMame, [(123500, 6)]);
   (ToMame, [(123600, 1); (123601, 1); (123602, 112); (123603, 0); (123604, 14); (123605, 1); (123606, hcs_of [1; 112; 0; 14; 1])]);
   (FromMame, [(123700, 6)]);
   (ToMame, [(123800, 2); (123801, 7); (123802, 65); (123803, 3); (123804, cks_of [7; 65]); (123805, 4)]); (FromMame, [(123900, 6)])].

Lemma recorded_frames_are_decoded_witness :
  Forall (fun c => Forall timed_byte (snd c)) exchange_chunks /\ Forall plain_frame exchange_frames
  /\ parse_log (tee_log exchange_chunks) = Ret (log_events exchange_chunks)
  /\ map bytes_of (log_events exchange_chunks) = concat (map frame_seen exchange_frames)
  /\ map show (decode_stream (log_events exchange_chunks)) = concat (map frame_shown exchange_frames).
Proof.
  assert (H1 : Forall (fun c => Forall timed_byte (snd c)) exchange_chunks) by (repeat constructor; done).
  assert (H2 : Forall plain_frame exchange_frames).
  { repeat constructor; vm_compute; intros H; repeat (apply elem_of_cons in H as [H|H]; [done|]); by apply elem_of_nil in H. }
  assert (H3 : map bytes_of (log_events exchange_chunks) = concat (map frame_seen exchange_frames)) by (by vm_compute).
  destruct (recorded_frames_are_decoded exchange_chunks exchange_frames H1) as (R & L & _).
  split_and!; [exact H1|exact H2|exact L|exact H3|exact (R _ _ H3 H2)].
Defined.
