(* ===== verification/CpnosBuild.v ===== *)
(** * Building cpnos: patch_payload_checksum.py, stamp_cpnos.py, dri_split.py and
    build_loader.py under cpnos-rom.

    Each script is a function from the bytes of its input files to those of its
    output.  The clock, git and the printed reports are left out.  The program
    build_loader.py writes is run on a machine whose [step] is the documented
    meaning of the instructions the script's comments name. *)

From S2P Require Import Prelude Imd Hex Text Sysgen Z80 Netboot.
#[local] Open Scope Z_scope.

(** ** patch_payload_checksum.py *)

Definition MAGIC : Z := 51966.

(** The loop of [word_sum], for an even number of bytes. *)
Fixpoint word_total (data : bytes) : Z :=
  match data with
  | lo :: hi :: data' => Z.lor lo (Z.shiftl hi 8) + word_total data'
  | _ => 0
  end.

Definition word_sum (data : bytes) : outcome Z :=
  if negb (zlength data mod 2 =? 0) then Raise ValueError else Ret (u16 (word_total data)).

(** The exit status and the file afterwards. *)
Definition patch_payload_checksum (data : bytes) : outcome (Z * bytes) :=
  if (zlength data <? 4) || negb (zlength data mod 2 =? 0) then Ret (1, data) else
  let correction_offset := zlength data - 2 in
  body_sum ← word_sum (takeZ correction_offset data);
  let correction := u16 (MAGIC - body_sum) in
  let patched := <[Z.to_nat (correction_offset + 1) := u8 (Z.shiftr correction 8)]>
                   (<[Z.to_nat correction_offset := u8 correction]> data) in
  new_total ← word_sum patched;
  if negb (new_total =? MAGIC) then Ret (1, data) else Ret (0, patched).

(** ** stamp_cpnos.py *)

Definition LEN : nat := 24.

(** [data[-LEN:] = payload]; the text is the argument or the clock's and git's. *)
Definition stamp_text (stamp : str) : bytes := ljust (LEN - 1) 32 (take (LEN - 1) (encode_replace stamp)).

Definition stamp_cpnos (data : bytes) (stamp : str) : outcome bytes :=
  if (length data <? LEN)%nat then Raise (SystemExit 1) else
  let payload := stamp_text stamp ++ [0] in
  Ret (take (length data - LEN) data ++ payload).

(** ** dri_split.py *)

(** The loop of [split_line], from a state of [in_str] and [buf]. *)
Fixpoint split_from (in_str : bool) (buf : str) (line : str) : list str :=
  match line with
  | [] => [buf]
  | c :: line' =>
      if (c =? 39) && negb in_str then split_from true (buf ++ [c]) line'
      else if (c =? 39) && in_str then split_from false (buf ++ [c]) line'
      else if (c =? 33) && negb in_str then buf :: split_from in_str [] line'
      else split_from in_str (buf ++ [c]) line'
  end.

Definition split_line (line : str) : list str := split_from false [] line.

Definition split_raw (raw : str) : list str :=
  match split_line raw with
  | [_] => [raw]
  | p :: ps => rstrip_with py_space p :: map (fun p => 9 :: strip_with py_space p) ps
  | [] => []
  end.

Definition dri_split (file : str) : bytes :=
  let src := universal_newlines file in
  let out_lines := concat (map split_raw (split_on 10 src)) in
  join [13; 10] out_lines ++ [13; 10].

(** ** build_loader.py *)

Definition stub : bytes :=
  [243; 33; 3; 1; 17; 0; 0; 1; 0; 8; 237; 176; 33; 3; 9; 17; 0; 32; 1; 0; 8; 237; 176; 195; 0; 0].

Definition build_loader (prom0 prom1 : bytes) : outcome bytes :=
  if negb (zlength prom0 =? 2048) || negb (zlength prom1 =? 2048) then Raise (SystemExit 1) else
  let com := [195; 3; 17] ++ prom0 ++ prom1 in
  if negb (zlength com =? 4099) then Raise AssertionError else Ret (com ++ stub).

(** ** The checksum word *)

Lemma word_total_app a b : Nat.Even (length a) -> word_total (a ++ b) = word_total a + word_total b.
Proof.
  intros [k Hk]. revert a Hk. induction k as [|k IH]; intros [|x [|y a]] Hk; cbn in Hk; try lia; [done|].
  cbn [app word_total]. rewrite IH by lia. lia.
Qed.

Lemma zlength_even {A} (l : list A) : zlength l mod 2 = 0 <-> Nat.Even (length l).
Proof.
  unfold zlength. split.
  - intros H. exists (Z.to_nat (Z.of_nat (length l) / 2)). pose proof (Z.div_mod (Z.of_nat (length l)) 2). lia.
  - intros [k ->]. rewrite Nat2Z.inj_mul. change (Z.of_nat 2) with 2. rewrite Z.mul_comm. by apply Z.mod_mul.
Qed.

Lemma word_sum_even l : Nat.Even (length l) -> word_sum l = Ret (u16 (word_total l)).
Proof. intros H%zlength_even. unfold word_sum. by rewrite H. Qed.

Definition last_word (x : Z) : bytes := [u8 x; u8 (Z.shiftr x 8)].

Lemma last_word_total x : word_total (last_word x) = u16 x.
Proof.
  cbn [word_total last_word]. rewrite Z.add_0_r. pose proof (u8_range x) as H.
  rewrite lor_shiftl by (unfold is_byte in *; lia). rewrite !u8_mod, u16_mod, Z.shiftr_div_pow2 by lia.
  change (2 ^ 8) with 256. Z.div_mod_to_equations. lia.
Qed.

Definition patched_file (body : bytes) : bytes := body ++ last_word (u16 (MAGIC - u16 (word_total body))).

Lemma patched_sum body : Nat.Even (length body) -> u16 (word_total (patched_file body)) = MAGIC.
Proof.
  intros H. unfold patched_file. rewrite word_total_app, last_word_total by done.
  rewrite !u16_mod. change MAGIC with 51966. Z.div_mod_to_equations. lia.
Qed.

Lemma insert_last_two (body : bytes) x y a b :
  <[Z.to_nat (zlength body + 1) := b]> (<[Z.to_nat (zlength body) := a]> (body ++ [x; y])) = body ++ [a; b].
Proof.
  unfold zlength. replace (Z.to_nat (Z.of_nat (length body))) with (length body + 0)%nat by lia.
  replace (Z.to_nat (Z.of_nat (length body) + 1)) with (length body + 1)%nat by lia. by rewrite !insert_app_r.
Qed.

Lemma patch_ok body x y : Nat.Even (length body) -> body <> [] ->
  patch_payload_checksum (body ++ [x; y]) = Ret (0, patched_file body).
Proof.
  intros He Hne. unfold patch_payload_checksum.
  assert (El : zlength (body ++ [x; y]) = zlength body + 2) by (unfold zlength; rewrite length_app; cbn; lia).
  rewrite El. pose proof (proj2 (zlength_even body) He) as Hm.
  assert (2 <= zlength body). { destruct He as [k Hk]. unfold zlength. destruct body; [done|cbn in *; lia]. }
  replace ((zlength body + 2) mod 2) with 0 by (Z.div_mod_to_equations; lia).
  rewrite (proj2 (Z.ltb_ge _ _)) by lia. cbn [negb orb Z.eqb]. replace (zlength body + 2 - 2) with (zlength body) by lia.
  assert (T : takeZ (zlength body) (body ++ [x; y]) = body).
  { rewrite takeZ_take. unfold zlength. by rewrite Nat2Z.id, take_app_length. }
  rewrite T, word_sum_even by done.
  cbn [mbind outcome_bind]. cbv zeta. rewrite insert_last_two. fold (last_word (u16 (MAGIC - u16 (word_total body)))). fold (patched_file body).
  rewrite word_sum_even.
  2: { unfold patched_file. rewrite length_app. cbn. destruct He as [k ->]. exists (k + 1)%nat. lia. }
  cbn [mbind outcome_bind]. by rewrite patched_sum.
Qed.

Lemma patch_refused data : (length data < 4)%nat \/ ~ Nat.Even (length data) -> patch_payload_checksum data = Ret (1, data).
Proof.
  intros H. unfold patch_payload_checksum. destruct (Z.ltb_spec (zlength data) 4) as [|Hl]; [done|].
  destruct (Z.eqb_spec (zlength data mod 2) 0) as [E|]; [|done]. apply zlength_even in E. unfold zlength in *. destruct H; [lia|done].
Qed.

Lemma even_split (data : bytes) : Nat.Even (length data) -> (4 <= length data)%nat ->
  exists body x y, data = body ++ [x; y] /\ Nat.Even (length body) /\ body <> [].
Proof.
  intros [k Hk] Hl. destruct (@exists_last _ data) as (d & y & ->); [intros ->; cbn in Hl; lia|].
  rewrite length_app in Hk, Hl. cbn in Hk, Hl.
  destruct (@exists_last _ d) as (body & x & ->); [intros ->; cbn in *; lia|].
  rewrite length_app in Hk, Hl. cbn in Hk, Hl. exists body, x, y. rewrite <- app_assoc. split_and!; [done|exists (k - 1)%nat; lia|].
  intros ->. cbn in *. lia.
Qed.

(** ** Statements *)

(** No exclamation mark stands outside quotes, from a state of [in_str]; and the
    state afterwards. *)
Fixpoint whole (q : bool) (l : str) : bool :=
  match l with
  | [] => true
  | c :: l' => if c =? 39 then whole (negb q) l' else if (c =? 33) && negb q then false else whole q l'
  end.
Fixpoint quoted (q : bool) (l : str) : bool :=
  match l with
  | [] => q
  | c :: l' => quoted (if c =? 39 then negb q else q) l'
  end.

(** Statements as a line may hold them: whole, and only the last may end inside
    quotes. *)
Fixpoint statements (q : bool) (ps : list str) : Prop :=
  match ps with
  | [] => False
  | [p] => whole q p = true
  | p :: ps' => whole q p = true /\ quoted q p = false /\ statements false ps'
  end.

Lemma split_step q buf c l :
  split_from q buf (c :: l) =
  if c =? 39 then split_from (negb q) (buf ++ [c]) l
  else if (c =? 33) && negb q then buf :: split_from false [] l else split_from q (buf ++ [c]) l.
Proof. cbn [split_from]. by destruct (c =? 39), q, (c =? 33). Qed.

Lemma split_whole l : forall q buf, whole q l = true -> split_from q buf l = [buf ++ l].
Proof.
  induction l as [|c l IH]; intros q buf; [by rewrite app_nil_r|]. rewrite split_step. cbn [whole].
  destruct (c =? 39); [intros H; rewrite IH by done; by rewrite <- app_assoc|].
  destruct ((c =? 33) && negb q); [done|]. intros H. rewrite IH by done. by rewrite <- app_assoc.
Qed.

Lemma split_first a l : forall q buf, whole q a = true -> quoted q a = false ->
  split_from q buf (a ++ 33 :: l) = (buf ++ a) :: split_from false [] l.
Proof.
  induction a as [|c a IH]; intros q buf Hw Hq.
  - cbn in Hq. subst q. cbn [app]. by rewrite split_step, app_nil_r.
  - cbn [app]. rewrite split_step. cbn [whole quoted] in *.
    destruct (c =? 39); [rewrite IH by done; by rewrite <- app_assoc|].
    destruct ((c =? 33) && negb q); [done|]. rewrite IH by done. by rewrite <- app_assoc.
Qed.

Lemma split_joined ps : forall q buf p, statements q (p :: ps) -> split_from q buf (join [33] (p :: ps)) = (buf ++ p) :: ps.
Proof.
  induction ps as [|p' ps IH]; intros q buf p H.
  - cbn [join]. by apply split_whole.
  - destruct H as (H1 & H2 & H3). change (join [33] (p :: p' :: ps)) with (p ++ 33 :: join [33] (p' :: ps)).
    rewrite split_first by done. by rewrite (IH false []).
Qed.

Lemma split_parts l : forall q buf, exists p ps,
  split_from q buf l = (buf ++ p) :: ps /\ join [33] (p :: ps) = l /\ statements q (p :: ps).
Proof.
  induction l as [|c l IH]; intros q buf.
  - exists [], []. by rewrite app_nil_r.
  - rewrite split_step. destruct ((c =? 33) && negb q) eqn:E.
    + apply andb_true_iff in E as [->%Z.eqb_eq Hq]. change (33 =? 39) with false. cbn match. destruct q; [done|].
      destruct (IH false []) as (p & ps & -> & Hj & Hs). exists [], (p :: ps). rewrite app_nil_r. split_and!; [done|by rewrite <- Hj|done].
    + set (q' := if c =? 39 then negb q else q).
      destruct (IH q' (buf ++ [c])) as (p & ps & Hp & Hj & Hs). exists (c :: p), ps. split_and!.
      * rewrite <- app_assoc in Hp. unfold q' in Hp. by destruct (c =? 39).
      * rewrite <- Hj. by destruct ps.
      * unfold q' in Hs. destruct ps as [|p' ps]; cbn [statements whole quoted] in *; rewrite E; by destruct (c =? 39).
Qed.

Lemma split_line_spec line ps : split_line line = ps <-> statements false ps /\ join [33] ps = line.
Proof.
  split.
  - intros <-. destruct (split_parts line false []) as (p & ps & H & Hj & Hs). unfold split_line. by rewrite H.
  - intros [Hs <-]. destruct ps as [|p ps]; [done|]. by apply (split_joined ps false []).
Qed.

Lemma whole_app a b : forall q, whole q (a ++ b) = true -> whole q a = true.
Proof.
  induction a as [|c a IH]; intros q; [done|]. cbn [app whole].
  destruct (c =? 39); [apply IH|]. destruct ((c =? 33) && negb q); [done|apply IH].
Qed.

Lemma rstrip_prefix f l : exists r, l = rstrip_with f l ++ r.
Proof.
  unfold rstrip_with. destruct (drop_while_suffix f (rev l)) as (k & -> & _). exists (rev (take k (rev l))).
  by rewrite <- rev_app_distr, take_drop, rev_involutive.
Qed.

Lemma whole_rstrip l : whole false l = true -> whole false (rstrip_with py_space l) = true.
Proof. destruct (rstrip_prefix py_space l) as [r E]. rewrite E at 1. apply whole_app. Qed.

Lemma whole_spaces l : whole false (drop_while py_space l) = whole false l.
Proof.
  induction l as [|c l IH]; [done|]. cbn [drop_while whole]. destruct (py_space c) eqn:E; [|done]. rewrite IH.
  destruct (Z.eqb_spec c 39) as [->|]; [done|]. by destruct (Z.eqb_spec c 33) as [->|].
Qed.

Lemma statements_whole ps : forall q, statements q ps -> Forall (fun p => whole false p = true) (tail ps) /\ (q = false -> Forall (fun p => whole false p = true) ps).
Proof.
  induction ps as [|p ps IH]; intros q H; [done|]. destruct ps as [|p' ps].
  - split; [constructor|]. intros ->. by constructor.
  - destruct H as (H1 & H2 & H3). destruct (IH false H3) as [_ IH2]. split; [by apply IH2|]. intros ->. constructor; auto.
Qed.

(** Every line written is one statement. *)
Lemma split_raw_whole raw : Forall (fun l => split_line l = [l]) (split_raw raw).
Proof.
  assert (W : forall l, whole false l = true -> split_line l = [l]) by (intros l H; by apply (split_whole l false [])).
  unfold split_raw. destruct (split_line raw) as [|p ps] eqn:E; [constructor|].
  pose proof (proj1 (split_line_spec _ _) E) as [Hs Hj]. destruct (statements_whole _ _ Hs) as [_ F]. specialize (F eq_refl).
  destruct ps as [|p' ps]; [constructor; [|constructor]; cbn [join] in Hj; by subst|].
  apply Forall_cons in F as [F1 F2]. constructor; [by apply W, whole_rstrip|].
  apply Forall_fmap. eapply Forall_impl; [exact F2|]. intros l Hl. cbn beta. apply W. cbn [whole].
  unfold strip_with. change (9 =? 39) with false. change (9 =? 33) with false. cbn [andb]. apply whole_rstrip. by rewrite whole_spaces.
Qed.

Lemma clean_rstrip f l : clean l -> clean (rstrip_with f l).
Proof. intros H. destruct (rstrip_prefix f l) as [r E]. rewrite E in H. by apply Forall_app in H as [H _]. Qed.

Lemma clean_strip f l : clean l -> clean (strip_with f l).
Proof. intros H. apply clean_rstrip. destruct (drop_while_suffix f l) as (k & -> & _). by apply Forall_drop. Qed.

Lemma clean_parts l : clean l -> Forall clean (split_line l).
Proof.
  intros H. destruct (proj1 (split_line_spec l _) eq_refl) as [_ Hj]. rewrite <- Hj in H. clear Hj. revert H.
  generalize (split_line l) as ps. induction ps as [|p [|p' ps] IH]; [constructor|by constructor|].
  change (join [33] (p :: p' :: ps)) with (p ++ [33] ++ join [33] (p' :: ps)).
  intros [H1 [_ H2]%Forall_app]%Forall_app. constructor; auto.
Qed.

Lemma clean_split_raw raw : clean raw -> Forall clean (split_raw raw).
Proof.
  intros H. pose proof (clean_parts raw H) as F. unfold split_raw. destruct (split_line raw) as [|p [|p' ps]]; [constructor|by constructor|].
  apply Forall_cons in F as [F1 F2]. constructor; [by apply clean_rstrip|]. apply Forall_fmap.
  eapply Forall_impl; [exact F2|]. intros l Hl. constructor; [by split|by apply clean_strip].
Qed.

(** The file written, read again in text mode. *)
Lemma dri_split_lines sep l ls : newline sep -> Forall clean (l :: ls) ->
  split_on 10 (universal_newlines (dri_split (join sep (l :: ls) ++ sep))) = concat (map split_raw (l :: ls)) ++ [[]; []].
Proof.
  intros Hs Hc. unfold dri_split. rewrite (split_lines sep l ls Hs Hc), map_app, concat_app. change (concat (map split_raw [[]])) with [@nil Z].
  set (L := concat (map split_raw (l :: ls))).
  assert (F : Forall clean (L ++ [[]])).
  { apply Forall_app_2; [|by repeat constructor]. apply Forall_concat, Forall_fmap. eapply Forall_impl; [exact Hc|]. apply clean_split_raw. }
  destruct (L ++ [[]]) as [|x xs] eqn:E; [by destruct L|].
  rewrite (split_lines [13; 10] x xs) by (done || by left). rewrite <- E. by rewrite <- app_assoc.
Qed.

(** ** The loader, run *)

Record z80 := Zcpu { z_pc : Z; z_hl : Z; z_de : Z; z_bc : Z; z_iff : bool; ram : Z -> Z }.

Definition poke (m : Z -> Z) (a v : Z) : Z -> Z := fun x => if x =? a then v else m x.

(** DI, LD HL/DE/BC with a number, LDIR (one transfer, and again while BC is not
    0), and JP. *)
Definition z_step (s : z80) : option z80 :=
  let '(Zcpu pc hl de bc iff m) := s in
  let nn := m (u16 (pc + 1)) + 256 * m (u16 (pc + 2)) in
  match m pc with
  | 243 => Some (Zcpu (u16 (pc + 1)) hl de bc false m)
  | 33 => Some (Zcpu (u16 (pc + 3)) nn de bc iff m)
  | 17 => Some (Zcpu (u16 (pc + 3)) hl nn bc iff m)
  | 1 => Some (Zcpu (u16 (pc + 3)) hl de nn iff m)
  | 195 => Some (Zcpu nn hl de bc iff m)
  | 237 =>
      if m (u16 (pc + 1)) =? 176 then
        let bc' := u16 (bc - 1) in
        Some (Zcpu (if bc' =? 0 then u16 (pc + 2) else pc) (u16 (hl + 1)) (u16 (de + 1)) bc' iff (poke m de (m hl)))
      else None
  | _ => None
  end.

Fixpoint z_run (n : nat) (s : z80) : option z80 :=
  match n with O => Some s | S n => s' ← z_step s; z_run n s' end.

Lemma z_run_app a b s s' : z_run a s = Some s' -> z_run (a + b) s = z_run b s'.
Proof.
  revert s. induction a as [|a IH]; intros s; cbn; [by intros [= <-]|]. destruct (z_step s); cbn; [apply IH|done].
Qed.

(** [n] bytes of [m] moved from [src] to [dst]. *)
Definition moved (m m' : Z -> Z) (src dst n : Z) : Prop :=
  forall a, m' a = if (dst <=? a) && (a <? dst + n) then m (a - dst + src) else m a.

Lemma ldir_runs n : forall pc src dst iff m,
  let k := Z.of_nat (S n) in
  0 <= pc -> pc + 2 < 65536 -> 0 <= src -> src + k < 65536 -> 0 <= dst -> dst + k < 65536 ->
  m pc = 237 -> m (pc + 1) = 176 -> dst + k <= pc \/ pc + 2 <= dst -> dst <= src \/ src + k <= dst ->
  exists m', z_run (S n) (Zcpu pc src dst k iff m) = Some (Zcpu (pc + 2) (src + k) (dst + k) 0 iff m') /\ moved m m' src dst k.
Proof.
  induction n as [|n IH]; intros pc src dst iff m k Hp1 Hp2 Hs1 Hs2 Hd1 Hd2 H1 H2 Hc Ho.
  - exists (poke m dst (m src)). split.
    + cbn [z_run]. unfold z_step. rewrite H1, (u16_small (pc + 1)), H2 by lia. change (176 =? 176) with true. cbn match.
      change (u16 (k - 1)) with 0. cbn [Z.eqb mbind option_bind]. by rewrite !u16_small by lia.
    + intros a. unfold poke. change k with 1. destruct (Z.eqb_spec a dst) as [->|Hne].
      * rewrite (proj2 (Z.leb_le _ _)), (proj2 (Z.ltb_lt _ _)) by lia. cbn [andb]. f_equal. lia.
      * destruct (Z.leb_spec dst a), (Z.ltb_spec a (dst + 1)); cbn [andb]; done || lia.
  - set (m1 := poke m dst (m src)).
    destruct (IH pc (src + 1) (dst + 1) iff m1) as (m' & Hr & Hm).
    1-6: lia.
    { unfold m1, poke. by rewrite (proj2 (Z.eqb_neq _ _)) by lia. }
    { unfold m1, poke. by rewrite (proj2 (Z.eqb_neq _ _)) by lia. }
    1,2: lia.
    exists m'. split.
    + change (z_run (S (S n)) ?s) with (s' ← z_step s; z_run (S n) s'). unfold z_step at 1.
      rewrite H1, (u16_small (pc + 1)), H2 by lia. change (176 =? 176) with true. cbn match.
      replace (u16 (k - 1)) with (Z.of_nat (S n)) by (rewrite u16_small; lia).
      rewrite (proj2 (Z.eqb_neq (Z.of_nat (S n)) 0)) by lia. cbn [mbind option_bind]. rewrite !u16_small by lia. fold m1. rewrite Hr.
      do 2 f_equal; lia.
    + intros a. rewrite Hm. unfold m1, poke.
      destruct (Z.leb_spec (dst + 1) a), (Z.ltb_spec a (dst + 1 + Z.of_nat (S n))), (Z.leb_spec dst a), (Z.ltb_spec a (dst + k));
        cbn [andb]; try lia; try (rewrite (proj2 (Z.eqb_neq _ _)) by lia; first [done|f_equal; lia]).
      destruct (Z.eqb_spec a dst) as [->|]; [f_equal; lia|lia].
Qed.

Section Instructions.
Context (pc hl de bc : Z) (iff : bool) (m : Z -> Z).
Hypothesis in_memory : 0 <= pc < 65533.

Lemma step_di : m pc = 243 -> z_step (Zcpu pc hl de bc iff m) = Some (Zcpu (pc + 1) hl de bc false m).
Proof. intros H. unfold z_step. rewrite H, u16_small by lia. done. Qed.

Lemma step_word lo hi : m (pc + 1) = lo -> m (pc + 2) = hi ->
  let nn := lo + 256 * hi in
  (m pc = 33 -> z_step (Zcpu pc hl de bc iff m) = Some (Zcpu (pc + 3) nn de bc iff m)) /\
  (m pc = 17 -> z_step (Zcpu pc hl de bc iff m) = Some (Zcpu (pc + 3) hl nn bc iff m)) /\
  (m pc = 1 -> z_step (Zcpu pc hl de bc iff m) = Some (Zcpu (pc + 3) hl de nn iff m)) /\
  (m pc = 195 -> z_step (Zcpu pc hl de bc iff m) = Some (Zcpu nn hl de bc iff m)).
Proof.
  intros <- <-. cbv zeta. unfold z_step. rewrite !(u16_small (pc + 1)), !(u16_small (pc + 2)), !(u16_small (pc + 3)) by lia.
  by split_and!; intros ->.
Qed.
End Instructions.

Lemma z_run_step n s s1 s' : z_step s = Some s1 -> z_run n s1 = Some s' -> z_run (S n) s = Some s'.
Proof. intros H. cbn [z_run]. by rewrite H. Qed.

(** The three loads and the LDIR of one block, at [p]. *)
Lemma block_moves p sl sh dl dh src dst hl de bc iff m n :
  0 <= p -> p + 11 < 65536 -> holds m p [33; sl; sh; 17; dl; dh; 1; 0; 8; 237; 176] ->
  src = sl + 256 * sh -> dst = dl + 256 * dh -> n = Z.of_nat 2048 ->
  0 <= src -> src + n < 65536 -> 0 <= dst -> dst + n < 65536 -> dst + n <= p \/ p + 11 <= dst -> dst <= src \/ src + n <= dst ->
  exists m', z_run 2051 (Zcpu p hl de bc iff m) = Some (Zcpu (p + 11) (src + n) (dst + n) 0 iff m') /\ moved m m' src dst n.
Proof.
  intros Hp1 Hp2 H -> -> -> Hs1 Hs2 Hd1 Hd2 Hc Ho.
  assert (B : forall i x, [33; sl; sh; 17; dl; dh; 1; 0; 8; 237; 176] !! i = Some x -> m (p + Z.of_nat i) = x) by (intros i x; apply H).
  destruct (ldir_runs (Z.to_nat 2047) (p + 9) (sl + 256 * sh) (dl + 256 * dh) iff m) as (m' & Hr & Hm).
  1-6: lia.
  { exact (B 9%nat _ eq_refl). }
  { replace (p + 9 + 1) with (p + Z.of_nat 10) by lia. exact (B 10%nat _ eq_refl). }
  1,2: lia.
  exists m'. split; [|exact Hm].
  pose proof (B 0%nat _ eq_refl) as B0. pose proof (B 1%nat _ eq_refl) as B1. pose proof (B 2%nat _ eq_refl) as B2.
  pose proof (B 3%nat _ eq_refl) as B3. pose proof (B 4%nat _ eq_refl) as B4. pose proof (B 5%nat _ eq_refl) as B5.
  pose proof (B 6%nat _ eq_refl) as B6. pose proof (B 7%nat _ eq_refl) as B7. pose proof (B 8%nat _ eq_refl) as B8.
  replace (p + Z.of_nat 0) with p in B0 by lia.
  eapply z_run_step; [by apply (proj1 (step_word p hl de bc iff m ltac:(lia) sl sh B1 B2))|].
  replace (p + Z.of_nat 4) with (p + 3 + 1) in B4 by lia. replace (p + Z.of_nat 5) with (p + 3 + 2) in B5 by lia.
  eapply z_run_step; [by apply (proj1 (proj2 (step_word (p + 3) _ de bc iff m ltac:(lia) dl dh B4 B5)))|].
  replace (p + Z.of_nat 6) with (p + 3 + 3) in B6 by lia.
  replace (p + Z.of_nat 7) with (p + 3 + 3 + 1) in B7 by lia. replace (p + Z.of_nat 8) with (p + 3 + 3 + 2) in B8 by lia.
  eapply z_run_step; [by apply (proj1 (proj2 (proj2 (step_word (p + 3 + 3) _ _ bc iff m ltac:(lia) 0 8 B7 B8))))|].
  replace (p + 3 + 3 + 3) with (p + 9) by lia. replace (p + 11) with (p + 9 + 2) by lia. exact Hr.
Qed.

Lemma moved_holds m m' src dst n p l : moved m m' src dst n -> p + zlength l <= dst \/ dst + n <= p -> holds m p l -> holds m' p l.
Proof.
  intros Hm Hd H i b Hi. rewrite Hm. pose proof (lookup_lt_Some _ _ _ Hi). unfold zlength in Hd.
  destruct (Z.leb_spec dst (p + Z.of_nat i)), (Z.ltb_spec (p + Z.of_nat i) (dst + n)); cbn [andb]; try lia; by apply H.
Qed.

Lemma holds_cut m p a b : holds m p (a ++ b) -> holds m p a /\ holds m (p + zlength a) b.
Proof.
  intros H. split.
  - intros i x Hi. apply H. by apply lookup_app_l_Some.
  - intros i x Hi. replace (p + zlength a + Z.of_nat i) with (p + Z.of_nat (length a + i)) by (unfold zlength; lia).
    apply H. rewrite lookup_app_r by lia. by replace (length a + i - length a)%nat with i by lia.
Qed.

(** Memory after the program: the two images, and the rest as before. *)
Definition cold_boot (m : Z -> Z) (prom0 prom1 : bytes) (a : Z) : Z :=
  if (0 <=? a) && (a <? 2048) then List.nth (Z.to_nat a) prom0 0
  else if (8192 <=? a) && (a <? 10240) then List.nth (Z.to_nat (a - 8192)) prom1 0
  else m a.

Definition loader_steps : nat := 1 + (1 + (2051 + (2051 + 1))).

Lemma loader_runs prom0 prom1 com m hl de bc iff : build_loader prom0 prom1 = Ret com -> holds m 256 com ->
  exists m', z_run loader_steps (Zcpu 256 hl de bc iff m) = Some (Zcpu 0 4355 10240 0 false m') /\
    forall a, m' a = cold_boot m prom0 prom1 a.
Proof.
  unfold build_loader. destruct (Z.eqb_spec (zlength prom0) 2048) as [L0|], (Z.eqb_spec (zlength prom1) 2048) as [L1|]; try done.
  cbn [negb orb]. cbv zeta.
  assert (E : zlength ([195; 3; 17] ++ prom0 ++ prom1) = 4099) by (unfold zlength in *; rewrite !length_app; cbn [length]; lia).
  rewrite E. intros Hcom H. assert (com = ([195; 3; 17] ++ prom0 ++ prom1) ++ stub) as -> by (cbn in Hcom; by injection Hcom as <-). apply holds_cut in H as [H Hstub]. rewrite E in Hstub.
  apply holds_cut in H as [Hjp H]. apply holds_cut in H as [Hp0 Hp1]. rewrite L0 in Hp1.
  change (256 + zlength [195; 3; 17]) with 259 in *. change (259 + 2048) with 2307 in Hp1. change (256 + 4099) with 4355 in Hstub.
  change stub with ([243] ++ [33; 3; 1; 17; 0; 0; 1; 0; 8; 237; 176] ++ [33; 3; 9; 17; 0; 32; 1; 0; 8; 237; 176] ++ [195; 0; 0]) in Hstub.
  apply holds_cut in Hstub as [Hdi Hstub]. apply holds_cut in Hstub as [Hb0 Hstub].
  change (4355 + zlength [243]) with 4356 in *. change (4356 + zlength _) with 4367 in Hstub.
  destruct (block_moves 4356 3 1 0 0 259 0 hl de bc false m 2048) as (m1 & R1 & M1); try done || lia.
  apply (moved_holds _ _ _ _ _ _ _ M1) in Hstub; [|right; lia]. apply holds_cut in Hstub as [Hb1 Hend].
  change (4367 + zlength _) with 4378 in Hend.
  apply (moved_holds _ _ _ _ _ _ _ M1) in Hp1; [|right; lia].
  destruct (block_moves 4367 3 9 0 32 2307 8192 (259 + 2048) (0 + 2048) 0 false m1 2048) as (m2 & R2 & M2); try done || lia.
  apply (moved_holds _ _ _ _ _ _ _ M2) in Hend; [|left; unfold zlength; cbn; lia].
  exists m2. split.
  - eapply z_run_step; [apply (step_word 256 hl de bc iff m ltac:(lia) 3 17); [exact (Hjp 1%nat _ eq_refl)|exact (Hjp 2%nat _ eq_refl)|exact (Hjp 0%nat _ eq_refl)]|].
    change (3 + 256 * 17) with 4355. eapply z_run_step; [apply step_di; [lia|exact (Hdi 0%nat _ eq_refl)]|].
    change (4355 + 1) with 4356. rewrite (z_run_app 2051 _ _ _ R1). change (4356 + 11) with 4367. rewrite (z_run_app 2051 _ _ _ R2).
    change (4367 + 11) with 4378. eapply z_run_step; [|done].
    apply (step_word 4378 _ _ _ _ m2 ltac:(lia) 0 0); [exact (Hend 1%nat _ eq_refl)|exact (Hend 2%nat _ eq_refl)|exact (Hend 0%nat _ eq_refl)].
  - intros a. rewrite M2. unfold cold_boot.
    assert (N : forall l i, (i < length l)%nat -> l !! i = Some (List.nth i l 0)).
    { intros l i Hi. destruct (lookup_lt_is_Some_2 l i Hi) as [x Hx]. rewrite Hx. f_equal. symmetry. by apply nth_lookup_Some. }
    unfold zlength in L0, L1.
    destruct (Z.leb_spec 8192 a) as [Ha|Ha], (Z.ltb_spec a (8192 + 2048)) as [Hb|Hb]; cbn [andb].
    + rewrite (proj2 (Z.ltb_ge a 2048)), andb_false_r, (proj2 (Z.ltb_lt a 10240)) by lia. cbn [andb].
      rewrite <- (Hp1 _ _ (N prom1 (Z.to_nat (a - 8192)) ltac:(lia))). f_equal. lia.
    + rewrite M1, (proj2 (Z.ltb_ge a 10240)) by lia. rewrite (proj2 (Z.ltb_ge a (0 + 2048))), (proj2 (Z.ltb_ge a 2048)), !andb_false_r by lia. done.
    + rewrite M1. change (0 + 2048) with 2048. destruct (Z.leb_spec 0 a), (Z.ltb_spec a 2048); cbn [andb]; try done.
      rewrite <- (Hp0 _ _ (N prom0 (Z.to_nat a) ltac:(lia))). f_equal. lia.
    + lia.
Qed.

(** ** Properties *)

Lemma word_value lo hi : is_byte lo -> Z.lor lo (Z.shiftl hi 8) = lo + hi * 256.
Proof. intros H. rewrite lor_shiftl by (unfold is_byte in H; lia). done. Qed.

Definition weight (i : nat) : Z := if Nat.even i then 1 else 256.

Lemma word_total_changed l : forall i x y, Nat.Even (length l) -> all_bytes l -> is_byte y -> l !! i = Some x ->
  word_total (<[i := y]> l) = word_total l + (y - x) * weight i.
Proof.
  assert (P : forall k (l : bytes), length l = (2 * k)%nat -> forall i x y, all_bytes l -> is_byte y -> l !! i = Some x ->
    word_total (<[i := y]> l) = word_total l + (y - x) * weight i).
  { induction k as [|k IH]; intros [|a [|b l']] Hk i x y Hl Hy Hx; cbn in Hk; try lia; [done|].
    apply Forall_cons in Hl as [Ha [Hb Hl]%Forall_cons].
    destruct i as [|[|i]]; cbn [lookup list_lookup] in Hx.
    - injection Hx as ->. change (<[0%nat := y]> (x :: b :: l')) with (y :: b :: l'). cbn [word_total].
      rewrite !word_value by done. change (weight 0) with 1. lia.
    - injection Hx as ->. change (<[1%nat := y]> (a :: x :: l')) with (a :: y :: l'). cbn [word_total].
      rewrite !word_value by done. change (weight 1) with 256. lia.
    - change (<[S (S i) := y]> (a :: b :: l')) with (a :: b :: <[i := y]> l'). cbn [word_total].
      rewrite (IH l' ltac:(lia) i x y Hl Hy Hx). change (weight (S (S i))) with (weight i). lia. }
  intros i x y [k Hk]. by apply (P k).
Qed.

Lemma changed_sum l i x y : Nat.Even (length l) -> all_bytes l -> is_byte y -> l !! i = Some x -> x <> y ->
  u16 (word_total (<[i := y]> l)) <> u16 (word_total l).
Proof.
  intros He Hl Hy Hx Hne. rewrite (word_total_changed l i x y) by done.
  pose proof (all_bytes_lookup _ _ _ Hl Hx) as Hb. unfold is_byte in *. rewrite !u16_mod. unfold weight.
  destruct (Nat.even i); Z.div_mod_to_equations; lia.
Qed.

Lemma even_patched body : Nat.Even (length body) -> Nat.Even (length (patched_file body)).
Proof. intros [k Hk]. unfold patched_file. rewrite length_app, Hk. exists (k + 1)%nat. cbn. lia. Qed.

Lemma patched_bytes body : all_bytes body -> all_bytes (patched_file body).
Proof. intros H. apply Forall_app_2; [done|]. repeat constructor; apply u8_range. Qed.

Lemma stamp_length stamp : length (stamp_text stamp) = (LEN - 1)%nat.
Proof. unfold stamp_text. rewrite length_ljust, length_take. lia. Qed.

(** The files of cpnos.  A payload of an even number of bytes, at least 4, is
    written back with its last word replaced so that its words sum to CAFEh modulo
    65536, all other bytes as they were; patching it again changes nothing, and a
    change of any one byte changes the sum; any other payload is refused with
    status 1 and left alone.  A stamped program is the program with its last 24
    bytes replaced by the text, cut or filled with blanks to 23 characters, and a
    zero, whatever stood there; a shorter program ends the script with status 1. *)
Lemma cpnos_files_are_marked (data : bytes) (Hb : all_bytes data) :
  (if (length data <? 4)%nat || Nat.odd (length data) then patch_payload_checksum data = Ret (1, data) else
   exists out, patch_payload_checksum data = Ret (0, out) /\ length out = length data /\
     take (length data - 2) out = take (length data - 2) data /\
     word_sum out = Ret MAGIC /\ patch_payload_checksum out = Ret (0, out) /\
     forall i x y, out !! i = Some x -> is_byte y -> x <> y -> word_sum (<[i := y]> out) <> Ret MAGIC)
  /\ forall stamp, stamp_cpnos data stamp =
       if (length data <? 24)%nat then Raise (SystemExit 1)
       else Ret (take (length data - 24) data ++ take 23 (encode_replace stamp) ++ replicate (23 - length stamp) 32 ++ [0]).
Proof.
  split.
  - destruct ((length data <? 4)%nat || Nat.odd (length data)) eqn:E.
    + apply patch_refused. apply orb_true_iff in E as [H%Nat.ltb_lt|H]; [by left|right]. intros He%Nat.even_spec.
      by rewrite <- Nat.negb_even, He in H.
    + apply orb_false_iff in E as [H1%Nat.ltb_ge H2]. rewrite <- Nat.negb_even in H2. apply negb_false_iff, Nat.even_spec in H2.
      destruct (even_split data H2 H1) as (body & x & y & -> & He & Hne). exists (patched_file body).
      pose proof (even_patched body He) as Hp. apply Forall_app in Hb as [Hb _]. pose proof (patched_bytes body Hb).
      rewrite !length_app. replace (length body + length [x; y] - 2)%nat with (length body) by (cbn; lia). split_and!.
      * by apply patch_ok.
      * unfold patched_file. by rewrite length_app.
      * unfold patched_file. by rewrite !take_app_length.
      * by rewrite word_sum_even, patched_sum.
      * unfold patched_file at 1. by apply patch_ok.
      * intros i a b Hi Hbb Hab. rewrite word_sum_even by (by rewrite length_insert). intros [= Hs].
        rewrite <- (patched_sum body He) in Hs. by apply (changed_sum (patched_file body) i a b) in Hs.
  - intros stamp. unfold stamp_cpnos. change LEN with 24%nat. destruct (length data <? 24)%nat; [done|]. do 2 f_equal.
    unfold stamp_text, ljust. change (LEN - 1)%nat with 23%nat. rewrite length_take, <- app_assoc.
    unfold encode_replace. rewrite length_map. do 2 f_equal. replace (23 - 23 `min` length stamp)%nat with (23 - length stamp)%nat by lia. done.
Qed.

(** The sources are split into statements.  The parts of a line are the only
    way to write it as whole statements joined by exclamation marks, none of them
    with a mark outside quotes and only the last possibly ending inside quotes.
    The file written, read in text mode, has for each line of the source, whatever
    its line ends, the line itself when it is one statement, otherwise the first
    statement without the blanks at its end and each further one on a line of its
    own behind a tab; every line is one statement, and one empty line is added at
    the end.  An apostrophe in a comment hides the marks behind it. *)
Lemma sources_are_split sep l ls (Hs : newline sep) (Hc : Forall clean (l :: ls)) :
  (forall line ps, split_line line = ps <-> statements false ps /\ join [33] ps = line)
  /\ split_on 10 (universal_newlines (dri_split (join sep (l :: ls) ++ sep))) = concat (map split_raw (l :: ls)) ++ [[]; []]
  /\ (forall raw, Forall (fun p => split_line p = [p]) (split_raw raw) /\
       match split_line raw with
       | p :: (_ :: _) as ps => split_raw raw = rstrip_with py_space p :: map (fun p => 9 :: strip_with py_space p) ps
       | _ => split_raw raw = [raw]
       end)
  /\ split_raw (chars "nosub:  ;no file! call x") = [chars "nosub:  ;no file"; 9 :: chars "call x"]
  /\ split_raw (chars "nosub:  ;don't! call x") = [chars "nosub:  ;don't! call x"].
Proof.
  split_and!; [exact split_line_spec|by apply dri_split_lines| |by vm_compute|by vm_compute].
  intros raw. split; [apply split_raw_whole|]. unfold split_raw. destruct (split_parts raw false []) as (p & ps & E & _).
  unfold split_line. rewrite E. by destruct ps.
Qed.

(** Cpnos is prepared.  A payload of an even number of bytes, at least 4, is
    written back with its last word replaced so that its words sum to CAFEh modulo
    65536, all other bytes as they were; patching it again changes nothing, and a
    change of any one byte changes the sum; any other payload is refused with
    status 1 and left alone.  A stamped program is the program with its last 24
    bytes replaced by the text, cut or filled with blanks to 23 characters, and a
    zero, whatever stood there; a shorter program ends the script with status 1.
    Its sources are split into statements: the parts of a line are the only
    way to write it as whole statements joined by exclamation marks, none of them
    with a mark outside quotes and only the last possibly ending inside quotes.
    The file written, read in text mode, has for each line of the source, whatever
    its line ends, the line itself when it is one statement, otherwise the first
    statement without the blanks at its end and each further one on a line of its
    own behind a tab; every line is one statement, and one empty line is added at
    the end.  An apostrophe in a comment hides the marks behind it. *)
Lemma cpnos_sources_are_prepared :
  (forall (data : bytes) (Hb : all_bytes data),
  (if (length data <? 4)%nat || Nat.odd (length data) then patch_payload_checksum data = Ret (1, data) else
   exists out, patch_payload_checksum data = Ret (0, out) /\ length out = length data /\
     take (length data - 2) out = take (length data - 2) data /\
     word_sum out = Ret MAGIC /\ patch_payload_checksum out = Ret (0, out) /\
     forall i x y, out !! i = Some x -> is_byte y -> x <> y -> word_sum (<[i := y]> out) <> Ret MAGIC)
  /\ forall stamp, stamp_cpnos data stamp =
       if (length data <? 24)%nat then Raise (SystemExit 1)
       else Ret (take (length data - 24) data ++ take 23 (encode_replace stamp) ++ replicate (23 - length stamp) 32 ++ [0])) /\
  (forall sep l ls (Hs : newline sep) (Hc : Forall clean (l :: ls)),
  (forall line ps, split_line line = ps <-> statements false ps /\ join [33] ps = line)
  /\ split_on 10 (universal_newlines (dri_split (join sep (l :: ls) ++ sep))) = concat (map split_raw (l :: ls)) ++ [[]; []]
  /\ (forall raw, Forall (fun p => split_line p = [p]) (split_raw raw) /\
       match split_line raw with
       | p :: (_ :: _) as ps => split_raw raw = rstrip_with py_space p :: map (fun p => 9 :: strip_with py_space p) ps
       | _ => split_raw raw = [raw]
       end)
  /\ split_raw (chars "nosub:  ;no file! call x") = [chars "nosub:  ;no file"; 9 :: chars "call x"]
  /\ split_raw (chars "nosub:  ;don't! call x") = [chars "nosub:  ;don't! call x"]).
Proof. split; [exact cpnos_files_are_marked|exact sources_are_split]. Qed.

(** The loader starts cpnos as a reset would.  Two images of 2048 bytes are
    accepted and nothing else; wherever the file written for them is in memory at
    0100h, the program started there with any registers runs 4105 steps, an LDIR's
    transfers counted singly, and is then at address 0 with interrupts off, the
    first image in memory from 0000h, the second from 2000h, and every other
    address unchanged, although the first block is moved over the program itself. *)
Lemma loader_recreates_the_proms prom0 prom1 com :
  build_loader prom0 prom1 = Ret com ->
  zlength prom0 = 2048 /\ zlength prom1 = 2048 /\
  forall m hl de bc iff, holds m 256 com ->
    exists s, z_run loader_steps (Zcpu 256 hl de bc iff m) = Some s /\
      z_pc s = 0 /\ z_iff s = false /\ forall a, ram s a = cold_boot m prom0 prom1 a.
Proof.
  intros H. split_and!.
  1,2: revert H; unfold build_loader; destruct (Z.eqb_spec (zlength prom0) 2048), (Z.eqb_spec (zlength prom1) 2048); done.
  intros m hl de bc iff Hm. destruct (loader_runs prom0 prom1 com m hl de bc iff H Hm) as (m' & Hr & Hm').
  by exists (Zcpu 0 4355 10240 0 false m').
Qed.

(** C27: cpnos is built.  The loader: two images of 2048 bytes are accepted and nothing
    else; wherever the file written for them is in memory at 0100h, the program started
    there with any registers runs 4105 steps and is then at address 0, interrupts off,
    the images in memory from 0000h and 2000h and all else unchanged, although the first
    block is moved over the program itself.  Payloads of a good size are written back
    with only the last word replaced, so that their words sum to CAFEh, and any change of
    one byte then shows; stamped programs differ in their last 24 bytes only; bad sizes
    end with status 1.  The parts of a source line are the only way to write it as whole
    statements joined by marks outside quotes, and the file written has, whatever the line
    ends, each of them on a line of its own, one-statement lines unchanged; an apostrophe
    in a comment hides the marks behind it. *)
Theorem cpnos_is_built :
  (forall prom0 prom1 com,
  build_loader prom0 prom1 = Ret com ->
  zlength prom0 = 2048 /\ zlength prom1 = 2048 /\
  forall m hl de bc iff, holds m 256 com ->
    exists s, z_run loader_steps (Zcpu 256 hl de bc iff m) = Some s /\
      z_pc s = 0 /\ z_iff s = false /\ forall a, ram s a = cold_boot m prom0 prom1 a) /\
  ((forall (data : bytes) (Hb : all_bytes data),
  (if (length data <? 4)%nat || Nat.odd (length data) then patch_payload_checksum data = Ret (1, data) else
   exists out, patch_payload_checksum data = Ret (0, out) /\ length out = length data /\
     take (length data - 2) out = take (length data - 2) data /\
     word_sum out = Ret MAGIC /\ patch_payload_checksum out = Ret (0, out) /\
     forall i x y, out !! i = Some x -> is_byte y -> x <> y -> word_sum (<[i := y]> out) <> Ret MAGIC)
  /\ forall stamp, stamp_cpnos data stamp =
       if (length data <? 24)%nat then Raise (SystemExit 1)
       else Ret (take (length data - 24) data ++ take 23 (encode_replace stamp) ++ replicate (23 - length stamp) 32 ++ [0])) /\
  (forall sep l ls (Hs : newline sep) (Hc : Forall clean (l :: ls)),
  (forall line ps, split_line line = ps <-> statements false ps /\ join [33] ps = line)
  /\ split_on 10 (universal_newlines (dri_split (join sep (l :: ls) ++ sep))) = concat (map split_raw (l :: ls)) ++ [[]; []]
  /\ (forall raw, Forall (fun p => split_line p = [p]) (split_raw raw) /\
       match split_line raw with
       | p :: (_ :: _) as ps => split_raw raw = rstrip_with py_space p :: map (fun p => 9 :: strip_with py_space p) ps
       | _ => split_raw raw = [raw]
       end)
  /\ split_raw (chars "nosub:  ;no file! call x") = [chars "nosub:  ;no file"; 9 :: chars "call x"]
  /\ split_raw (chars "nosub:  ;don't! call x") = [chars "nosub:  ;don't! call x"])).
Proof. split; [exact loader_recreates_the_proms|exact cpnos_sources_are_prepared]. Qed.

Lemma cpnos_is_built_witness :
  (exists com, build_loader (repeatZ 2048 201) (repeatZ 2048 7) = Ret com /\
  exists s, z_run loader_steps (Zcpu 256 1 2 3 true (fun a => List.nth (Z.to_nat (a - 256)) com 0)) = Some s /\
    z_pc s = 0 /\ ram s 300 = 201 /\ ram s 8192 = 7) /\
  ((all_bytes [1; 2; 3; 4; 5; 6] /\
  (exists out, patch_payload_checksum [1; 2; 3; 4; 5; 6] = Ret (0, out) /\ out = [1; 2; 3; 4; 250; 196]) /\
  stamp_cpnos (replicate 30 26) (chars "2026-05-01 ab12") = Ret (replicate 6 26 ++ chars "2026-05-01 ab12" ++ replicate 8 32 ++ [0])) /\
  (newline [13; 10] /\ Forall clean [chars "start: xra a! ret"; chars "cpi '!'"] /\
  split_on 10 (universal_newlines (dri_split (join [13; 10] [chars "start: xra a! ret"; chars "cpi '!'"] ++ [13; 10]))) =
    [chars "start: xra a"; 9 :: chars "ret"; chars "cpi '!'"; []; []])).
Proof.
  split.
  { assert (E : zlength (repeatZ 2048 201) = 2048) by (unfold zlength; rewrite length_repeatZ; done).
  eexists. split; [unfold build_loader; reflexivity|].
  match goal with |- context [List.nth _ ?c 0] => set (com := c) end.
  destruct ((proj1 cpnos_is_built) (repeatZ 2048 201) (repeatZ 2048 7) com eq_refl) as (_ & _ & H).
  destruct (H (fun a => List.nth (Z.to_nat (a - 256)) com 0) 1 2 3 true) as (s & Hr & Hpc & _ & Hm).
  { intros i b Hi. replace (Z.to_nat (256 + Z.of_nat i - 256)) with i by lia. by apply nth_lookup_Some. }
  exists s. split_and!; [exact Hr|exact Hpc| |]; rewrite Hm; reflexivity. }
  { split.
  { split_and!; [by decided| |].
  - destruct ((proj1 (proj2 cpnos_is_built)) [1; 2; 3; 4; 5; 6] ltac:(by decided)) as [(out & H & _) _].
    exists out. split; [exact H|]. vm_compute in H. by injection H as <-.
  - exact (proj2 ((proj1 (proj2 cpnos_is_built)) (replicate 30 26) ltac:(by decided)) (chars "2026-05-01 ab12")). }
  { assert (H1 : newline [13; 10]) by (by left).
  assert (H2 : Forall clean [chars "start: xra a! ret"; chars "cpi '!'"]) by (unfold clean; by decided).
  split_and!; [exact H1|exact H2|].
  exact (proj1 (proj2 ((proj2 (proj2 cpnos_is_built)) [13; 10] (chars "start: xra a! ret") [chars "cpi '!'"] H1 H2))). } }
Defined.
