(* ===== verification/Gdb.v ===== *)
(** * The debugger clients: rcbios-in-c/gdb_trace.py and gdb_bgstar.py.

    Both talk to MAME's GDB stub over a socket, in packets; their class GdbClient is
    the same text up to the printed lines.  The stub is not code of the repository:
    it is the parameter [react], what it does with one write of the client, and
    [Stub] states what the remote protocol promises of it.  What arrives is cut into
    pieces of any sizes.  Each wait receives at most [turns] times.  Packets are
    ASCII; the waits by [time.sleep] and the printed trace of the connection are left
    out.  The tracers on top of the client are in Tracer.v and Bgstar.v. *)

From S2P Require Import Prelude Imd Hex Text.
#[local] Open Scope Z_scope.

(** [f'{n:x}'] and [data.hex()]. *)
Definition hex_number (n : Z) : str := map lower1 (fmt_hex 0 n).
Definition hex_of (data : bytes) : str := concat (map (fun b => [hexdig_lower (b / 16); hexdig_lower (b mod 16)]) data).

(** [_checksum], and the packet around [data]. *)
Definition checksum (data : str) : Z := u8 (zsum data).
Definition packet (data : str) : bytes := 36 :: data ++ 35 :: hex_of [checksum data].

(** Before and after the first [c]. *)
Fixpoint cut (c : Z) (s : str) : option (str * str) :=
  match s with
  | [] => None
  | d :: s' => if d =? c then Some ([], s') else '(a, b) ← cut c s'; Some (d :: a, b)
  end.

(** The first whole packet of [buf], and what is behind it. *)
Definition packet_in (buf : bytes) : option (str * bytes) :=
  '(_, s) ← cut 36 buf;
  '(payload, s) ← cut 35 s;
  match s with _ :: _ :: rest => Some (payload, rest) | _ => None end.

Definition names : list str :=
  map chars ["AF"; "BC"; "DE"; "HL"; "AF'"; "BC'"; "DE'"; "HL'"; "IX"; "IY"; "SP"; "PC"]%string.

Definition OK : str := chars "OK".
Definition starts_E (s : str) : bool := match s with 69 :: _ => true | _ => false end.

(** [sub in s], and what is before and after its first occurrence. *)
Fixpoint contains (sub s : str) : bool :=
  bool_decide (take (length sub) s = sub) || match s with [] => false | _ :: s' => contains sub s' end.
Fixpoint cut_at (sub s : str) : option (str * str) :=
  if decide (take (length sub) s = sub) then Some ([], drop (length sub) s)
  else match s with [] => None | c :: s' => '(a, b) ← cut_at sub s'; Some (c :: a, b) end.

(** The address of a symbol in the text of bios.map. *)
Definition map_value (line : str) : outcome Z :=
  match cut_at (chars "= $") line with
  | Some (_, after) =>
      let piece := match cut_at (chars "= $") after with Some (a, _) => a | None => after end in
      match take_while (fun c => negb (py_space c)) (drop_while py_space piece) with
      | [] => Raise IndexError
      | word => int16 word
      end
  | None => Raise IndexError
  end.

Fixpoint find_symbol (symbol : str) (lines : list str) : outcome Z :=
  match lines with
  | [] => Raise ValueError
  | line :: lines' =>
      if contains (symbol ++ [32]) line && contains (chars "= $") line then map_value line
      else find_symbol symbol lines'
  end.
Definition read_map_addr (symbol file : str) : outcome Z := find_symbol symbol (readlines file).

Section Client.
Context {St : Type} (react : St -> bytes -> St * bytes) (turns : nat).

(** The stub, what it has sent and the client has not received, the sizes it
    arrives in, whether the stub has gone, and [self.buf]. *)
Record gdb : Type := Gdb { stub : St; incoming : bytes; sizes : list nat; closed : bool; buf : bytes }.

Definition set_buf (b : bytes) (g : gdb) : gdb := Gdb (stub g) (incoming g) (sizes g) (closed g) b.

(** [sock.recv(n)] with the socket's timeout. *)
Definition recv (n : nat) : stM gdb bytes := fun g =>
  match incoming g with
  | [] => (if closed g then Ret [] else Raise TimeoutError, g)
  | inc =>
      let k := match sizes g with [] => n | z :: _ => Nat.min n (S z) end in
      (Ret (take k inc), Gdb (stub g) (drop k inc) (tail (sizes g)) (closed g) (buf g))
  end.

(** [sock.sendall]: the first writes after the stub has gone are lost. *)
Definition sendall (bs : bytes) : stM gdb unit := fun g =>
  if closed g then (Ret tt, g) else
  let '(s', out) := react (stub g) bs in
  (Ret tt, Gdb s' (incoming g ++ out) (sizes g) (closed g) (buf g)).

Fixpoint await_ack (fuel : nat) (pkt : bytes) : stM gdb unit :=
  match fuel with
  | O => raise OutOfFuel
  | S fuel =>
      ch ← recv 1;
      if decide (ch = [43]) then mret tt
      else if decide (ch = [45]) then sendall pkt;; await_ack fuel pkt
      else await_ack fuel pkt
  end.

Definition send_packet (data : str) : stM gdb unit := sendall (packet data);; await_ack turns (packet data).

Definition send_ack : stM gdb unit := sendall [43].

Fixpoint recv_packet_from (fuel : nat) : stM gdb str :=
  match fuel with
  | O => raise OutOfFuel
  | S fuel =>
      chunk ← recv (Z.to_nat 4096);
      match chunk with
      | [] => raise ConnectionError
      | _ =>
          g ← get;
          let b := buf g ++ chunk in
          match packet_in b with
          | Some (payload, rest) => modify (set_buf rest);; send_ack;; mret payload
          | None => modify (set_buf b);; recv_packet_from fuel
          end
      end
  end.

Definition recv_packet : stM gdb str := recv_packet_from turns.
Definition recv_stop : stM gdb str := recv_packet.
Definition interrupt : stM gdb unit := sendall [3].

Definition request (data : str) : stM gdb str := send_packet data;; recv_packet.

(** The loop of [_fetch_target_xml]. *)
Fixpoint fetch_from (fuel : nat) (offset : Z) (xml : str) : stM gdb str :=
  match fuel with
  | O => raise OutOfFuel
  | S fuel =>
      resp ← request (chars "qXfer:features:read:target.xml:" ++ hex_number offset ++ chars ",fff");
      match resp with
      | [] => mret xml
      | kind :: data =>
          if kind =? 69 then mret xml
          else if kind =? 108 then mret (xml ++ data)
          else fetch_from fuel (offset + zlength resp - 1) (xml ++ data)
      end
  end.
Definition fetch_target_xml : stM gdb str := fetch_from turns 0 [].

Definition set_breakpoint (addr : Z) : stM gdb bool :=
  resp ← request (chars "Z0," ++ hex_number addr ++ chars ",1"); mret (bool_decide (resp = OK)).
Definition remove_breakpoint (addr : Z) : stM gdb bool :=
  resp ← request (chars "z0," ++ hex_number addr ++ chars ",1"); mret (bool_decide (resp = OK)).

Definition cont : stM gdb unit := send_packet (chars "c").
Definition step : stM gdb str := send_packet (chars "s");; recv_stop.

(** The registers an answer has, low byte first. *)
Fixpoint regs_of (ns : list str) (resp : str) : outcome (list (str * Z)) :=
  match ns with
  | [] => Ret []
  | name :: ns' =>
      match take 4 resp with
      | [a; b; c; d] =>
          lo ← int16 [a; b]; hi ← int16 [c; d];
          rest ← regs_of ns' (drop 4 resp);
          Ret ((name, Z.lor (Z.shiftl hi 8) lo) :: rest)
      | _ => regs_of ns' (drop 4 resp)
      end
  end.

Definition read_regs : stM gdb (list (str * Z)) :=
  resp ← request (chars "g");
  if starts_E resp then mret [] else lift (regs_of names resp).

Definition read_request (addr n : Z) : str := chars "m" ++ hex_number addr ++ chars "," ++ hex_number n.
Definition write_request (addr : Z) (data : bytes) : str :=
  chars "M" ++ hex_number addr ++ chars "," ++ hex_number (zlength data) ++ chars ":" ++ hex_of data.

Definition read_mem (addr n : Z) : stM gdb bytes :=
  resp ← request (read_request addr n);
  if starts_E resp then mret [] else lift (fromhex resp).

Definition write_mem (addr : Z) (data : bytes) : stM gdb bool :=
  resp ← request (write_request addr data); mret (bool_decide (resp = OK)).

Definition read_byte (addr : Z) : stM gdb Z :=
  b ← read_mem addr 1; mret (match b with [] => 0 | x :: _ => x end).
Definition read_word (addr : Z) : stM gdb Z :=
  b ← read_mem addr 2; mret (match b with [lo; hi] => Z.lor (Z.shiftl hi 8) lo | _ => 0 end).
Definition write_byte (addr val : Z) : stM gdb bool := write_mem addr [u8 val].

(** [__init__]. *)
Definition connect : stM gdb (list (str * Z)) :=
  send_ack;;
  request (chars "qSupported:xmlRegisters=i386");;
  request (chars "?");;
  fetch_target_xml;;
  send_packet (chars "c");;
  interrupt;;
  recv_stop;;
  read_regs.

(** ** Keys, screen and map *)

Definition KBBUF : Z := 56355.
Definition KBHEAD : Z := 56371.

(** BiosTracer.inject_keys. *)
Fixpoint put_keys (text : str) (head : Z) : stM gdb Z :=
  match text with
  | [] => mret head
  | ch :: text' => write_byte (KBBUF + head) ch;; put_keys text' ((head + 1) mod 16)
  end.
Definition inject_keys (text : str) : stM gdb unit :=
  head ← read_byte KBHEAD;
  head ← put_keys text head;
  write_byte KBHEAD head;;
  mret tt.

(** gdb_bgstar.py's, for the addresses it reads from the map. *)
Definition inject_key (kbbuf kbhead ch : Z) : stM gdb unit :=
  head ← read_byte kbhead;
  write_byte (kbbuf + head) ch;;
  write_byte kbhead ((head + 1) mod 16);;
  mret tt.
Fixpoint inject_string (kbbuf kbhead : Z) (s : str) : stM gdb unit :=
  match s with
  | [] => mret tt
  | ch :: s' => inject_key kbbuf kbhead ch;; inject_string kbbuf kbhead s'
  end.

Definition SCREEN_BASE : Z := 63488.
Definition printable (b : Z) : Z := if (32 <=? b) && (b <? 127) then b else 32.

Definition read_screen_line (row : Z) : stM gdb str :=
  data ← read_mem (SCREEN_BASE + row * 80) 80;
  mret (rstrip_with py_space (map printable data)).

Definition screen_has (text : str) : stM gdb bool :=
  data ← read_mem SCREEN_BASE (80 * 25);
  mret (contains text (map printable data)).

Definition at_prompt : stM gdb bool :=
  curx ← read_byte 65489;
  cursy ← read_byte 65492;
  if negb (curx =? 2) then mret false else
  let row_addr := 63488 + cursy * 80 in
  a ← read_byte row_addr;
  if negb (a =? 65) then mret false else
  b ← read_byte (row_addr + 1); mret (b =? 62).
End Client.

Arguments gdb : clear implicits.
Arguments Gdb {St}.

(** ** What the remote protocol promises

    [memory] is the target's memory, [registers] its twelve register pairs.
    Acknowledgements are not answered; a request is acknowledged, and its answer
    follows in a packet. *)
Definition low_first (words : list Z) : bytes := concat (map (fun w => [u8 w; u8 (Z.shiftr w 8)]) words).

Class Stub {St} (react : St -> bytes -> St * bytes) (memory : St -> Z -> Z) (registers : St -> list Z) : Prop := {
  registers_words : forall s, length (registers s) = 12%nat /\ Forall (fun w => 0 <= w < 65536) (registers s);
  stub_regs : forall s, react s (packet (chars "g")) = (s, 43 :: packet (hex_of (low_first (registers s))));
  memory_bytes : forall s a, is_byte (memory s a);
  stub_acked : forall s, react s [43] = (s, []);
  stub_reads : forall s a n, 0 <= a -> 0 <= n -> a + n <= 65536 ->
    react s (packet (read_request a n)) =
      (s, 43 :: packet (hex_of (map (memory s) (seqZ a n))));
  stub_writes : forall s a data, 0 <= a -> all_bytes data -> a + zlength data <= 65536 ->
    exists s', react s (packet (write_request a data)) = (s', 43 :: packet OK) /\
      forall x, memory s' x = if (a <=? x) && (x <? a + zlength data) then List.nth (Z.to_nat (x - a)) data 0 else memory s x
}.

(** ** Packets *)

Lemma cut_found c a b : c ∉ a -> cut c (a ++ c :: b) = Some (a, b).
Proof.
  induction a as [|d a IH]; cbn [app cut]; [by rewrite Z.eqb_refl|]. intros [Hd H]%not_elem_of_cons.
  rewrite (proj2 (Z.eqb_neq d c)) by auto. by rewrite IH.
Qed.

Lemma cut_none c a : c ∉ a -> cut c a = None.
Proof.
  induction a as [|d a IH]; [done|]. intros [Hd H]%not_elem_of_cons. cbn [cut].
  rewrite (proj2 (Z.eqb_neq d c)) by auto. by rewrite IH.
Qed.

Lemma packet_in_whole data rest : 35 ∉ data -> packet_in (packet data ++ rest) = Some (data, rest).
Proof.
  intros H. unfold packet_in, packet. cbn [app cut]. change (36 =? 36) with true. cbn [mbind option_bind].
  rewrite <- app_assoc. cbn [app]. by rewrite cut_found.
Qed.

Lemma length_packet data : length (packet data) = (length data + 4)%nat.
Proof. unfold packet, hex_of. cbn [length map concat app]. rewrite length_app. cbn [length]. lia. Qed.

Lemma packet_in_part data k : 35 ∉ data -> (k < length (packet data))%nat -> packet_in (take k (packet data)) = None.
Proof.
  intros H Hk. rewrite length_packet in Hk. unfold packet_in, packet. destruct k as [|k]; [done|]. cbn [take cut].
  change (36 =? 36) with true. cbn [mbind option_bind].
  destruct (decide (k <= length data)%nat) as [Hle|Hgt].
  - rewrite take_app_le by done. rewrite cut_none; [done|]. intros Hin. apply H.
    apply elem_of_take in Hin as (i & Hi & _). by apply list_elem_of_lookup_2 in Hi.
  - rewrite take_app_ge by lia. destruct (k - length data)%nat as [|m] eqn:Em; [lia|]. cbn [take]. rewrite cut_found by done.
    cbn [mbind option_bind hex_of map concat app]. destruct m as [|[|m]]; [done|done|lia].
Qed.

(** ** Text of numbers *)

Lemma hexdig_lower_ok d : 0 <= d < 16 -> hexval (hexdig_lower d) = Some d /\ c_space (hexdig_lower d) = false /\
  hexdig_lower d <> 35 /\ hexdig_lower d <> 69.
Proof.
  intros H. assert (Forall (fun d => hexval (hexdig_lower d) = Some d /\ c_space (hexdig_lower d) = false /\
    hexdig_lower d <> 35 /\ hexdig_lower d <> 69) (seqZ 0 16)) as F by decided.
  apply (proj1 (Forall_forall _ _) F), elem_of_seqZ. lia.
Qed.

Lemma hex_of_free l : all_bytes l -> (35 ∉ hex_of l) /\ starts_E (hex_of l) = false /\ length (hex_of l) = (2 * length l)%nat.
Proof.
  induction 1 as [|b l Hb Hl (IH1 & _ & IH3)]; [split_and!; [by intros ?%elem_of_nil|done|done]|].
  destruct (byte_digits b Hb) as [D1 D2]. destruct (hexdig_lower_ok _ D1) as (_ & _ & H1 & H1'), (hexdig_lower_ok _ D2) as (_ & _ & H2 & _).
  change (hex_of (b :: l)) with (hexdig_lower (b / 16) :: hexdig_lower (b mod 16) :: hex_of l). split_and!.
  - rewrite !elem_of_cons. by intros [?|[?|?]].
  - unfold starts_E. set (h := hexdig_lower (b / 16)) in *. clearbody h. destruct h as [|p|p]; try done.
    do 7 (destruct p as [p|p|]; try done).
  - cbn [length]. lia.
Qed.

Lemma fromhex_of l : all_bytes l -> fromhex (hex_of l) = Ret l.
Proof.
  induction 1 as [|b l Hb Hl IH]; [done|].
  change (hex_of (b :: l)) with (hexdig_lower (b / 16) :: hexdig_lower (b mod 16) :: hex_of l). cbn [fromhex].
  destruct (byte_digits b Hb) as [D1 D2]. destruct (hexdig_lower_ok _ D1) as (E1 & E2 & _), (hexdig_lower_ok _ D2) as (E3 & _).
  rewrite E2, E1, E3, IH. cbn [mbind outcome_bind]. do 2 f_equal. pose proof (Z.div_mod b 16 ltac:(lia)). lia.
Qed.

(** ** The client against a stub *)

Section Served.
Context {St : Type} (react : St -> bytes -> St * bytes) (memory : St -> Z -> Z) (registers : St -> list Z) `{!Stub react memory registers} (turns : nat).

(** Nothing is under way. *)
Definition idle (s : St) (sz : list nat) : gdb St := Gdb s [] sz false [].

(** [m], started between two exchanges at [s], returns [a] and leaves the stub at [s']. *)
Definition does {A} (m : stM (gdb St) A) (s : St) (a : A) (s' : St) : Prop :=
  forall sz, exists sz', m (idle s sz) = (Ret a, idle s' sz').

Lemma does_ret {A} (a : A) s : does (mret a) s a s.
Proof. intros sz. by exists sz. Qed.

Lemma does_bind {A B} (m : stM (gdb St) A) (f : A -> stM (gdb St) B) s a s' b s'' :
  does m s a s' -> does (f a) s' b s'' -> does (m ≫= f) s b s''.
Proof.
  intros Hm Hf sz. destruct (Hm sz) as [sz1 E1]. destruct (Hf sz1) as [sz2 E2]. exists sz2.
  unfold mbind, stM_bind. by rewrite E1.
Qed.

Lemma await_ack_ok fuel pkt s r sz b : (0 < fuel)%nat -> exists sz',
  await_ack react fuel pkt (Gdb s (43 :: r) sz false b) = (Ret tt, Gdb s r sz' false b).
Proof.
  intros Hf. destruct fuel as [|fuel]; [lia|]. exists (tail sz). cbn [await_ack]. unfold mbind, stM_bind, recv. cbn [incoming sizes].
  assert (E : match sz with [] => 1%nat | z :: _ => (1 `min` S z)%nat end = 1%nat) by (destruct sz; lia). by rewrite E.
Qed.

Lemma recv_packet_ok data : 35 ∉ data -> forall fuel s b inc sz,
  b ++ inc = packet data -> inc <> [] -> (length inc <= fuel)%nat ->
  exists sz', recv_packet_from react fuel (Gdb s inc sz false b) = (Ret data, idle s sz').
Proof.
  intros Hd. induction fuel as [|fuel IH]; intros s b inc sz Hp Hne Hf; [destruct inc; [done|cbn in Hf; lia]|].
  cbn [recv_packet_from]. unfold mbind, stM_bind, recv, get. cbn [incoming sizes stub closed buf].
  set (k := match sz with [] => Z.to_nat 4096 | z :: _ => (Z.to_nat 4096 `min` S z)%nat end).
  assert (Hk : (0 < k)%nat) by (unfold k; destruct sz; lia).
  destruct inc as [|x inc]; [done|]. set (i := x :: inc) in *. cbn match.
  assert (Hc : take k i <> []) by (unfold i; destruct k; [lia|done]).
  destruct (take k i) as [|c chunk] eqn:Et; [done|]. rewrite <- Et. rewrite <- (take_drop k i) in Hp.
  destruct (drop k i) as [|y rest] eqn:Edr; cbn [buf].
  - rewrite app_nil_r in Hp. rewrite Hp. pose proof (packet_in_whole data [] Hd) as Hw. rewrite app_nil_r in Hw. rewrite Hw.
    unfold modify, set_buf, send_ack, sendall. cbn [closed stub incoming sizes buf]. rewrite stub_acked.
    cbn [app]. by exists (tail sz).
  - assert (Hb : b ++ take k i = take (length b + length (take k i)) (packet data)).
    { rewrite <- Hp, app_assoc. rewrite <- length_app, take_app_length. done. }
    assert (Hn : packet_in (b ++ take k i) = None).
    { rewrite Hb. apply packet_in_part; [done|]. rewrite <- Hp, !length_app. cbn [length]. lia. }
    rewrite Hn.
    unfold modify, set_buf. cbn [closed stub incoming sizes buf]. apply IH; [by rewrite <- app_assoc|done|].
    rewrite <- Edr, length_drop. destruct k; [lia|]. unfold i in *. cbn [length] in *. lia.
Qed.

Lemma request_ok q a s s' : react s (packet q) = (s', 43 :: packet a) -> 35 ∉ a -> (length a + 4 <= turns)%nat ->
  does (request react turns q) s a s'.
Proof.
  intros Hr Ha Ht sz. unfold request, send_packet, idle. unfold mbind, stM_bind, sendall. cbn [closed stub incoming sizes buf].
  rewrite Hr. cbn [app]. destruct (await_ack_ok turns (packet q) s' (packet a) sz [] ltac:(lia)) as [sz1 ->].
  apply recv_packet_ok; [done|done|done|]. rewrite length_packet. lia.
Qed.

Lemma read_mem_ok s a n : 0 <= a -> 0 <= n -> a + n <= 65536 -> (2 * Z.to_nat n + 4 <= turns)%nat ->
  does (read_mem react turns a n) s (map (memory s) (seqZ a n)) s.
Proof.
  intros Ha Hn Hs Ht.
  assert (Hb : all_bytes (map (memory s) (seqZ a n))) by (apply Forall_fmap, Forall_true; intros x; apply memory_bytes).
  destruct (hex_of_free _ Hb) as (H1 & H2 & H3). unfold read_mem. eapply does_bind.
  - apply (request_ok _ _ s s (stub_reads s a n Ha Hn Hs) H1). rewrite H3, length_map, length_seqZ. lia.
  - cbv beta. rewrite H2, fromhex_of by done. intros sz. by exists sz.
Qed.

Lemma write_mem_ok s a data : 0 <= a -> all_bytes data -> a + zlength data <= 65536 -> (6 <= turns)%nat ->
  exists s', does (write_mem react turns a data) s true s' /\
    forall x, memory s' x = if (a <=? x) && (x <? a + zlength data) then List.nth (Z.to_nat (x - a)) data 0 else memory s x.
Proof.
  intros Ha Hd Hs Ht. destruct (stub_writes s a data Ha Hd Hs) as (s' & Hr & Hm). exists s'. split; [|done].
  unfold write_mem. eapply does_bind; [apply (request_ok _ _ s s' Hr); [|cbn; lia]|].
  - vm_compute. by intros [?|[?|?%elem_of_nil]%elem_of_cons]%elem_of_cons.
  - apply does_ret.
Qed.

Lemma read_byte_ok s a : 0 <= a < 65536 -> (6 <= turns)%nat -> does (read_byte react turns a) s (memory s a) s.
Proof.
  intros Ha Ht. unfold read_byte. eapply does_bind; [apply read_mem_ok; lia|]. cbn. apply does_ret.
Qed.

Lemma write_byte_ok s a v : 0 <= a < 65536 -> (6 <= turns)%nat ->
  exists s', does (write_byte react turns a v) s true s' /\ forall x, memory s' x = if x =? a then u8 v else memory s x.
Proof.
  intros Ha Ht. destruct (write_mem_ok s a [u8 v]) as (s' & Hd & Hm); [lia|by apply Forall_singleton, u8_range|unfold zlength; cbn; lia|done|].
  exists s'. split; [done|]. intros x. rewrite Hm. change (zlength [u8 v]) with 1.
  destruct (Z.leb_spec a x), (Z.ltb_spec x (a + 1)), (Z.eqb_spec x a); cbn [andb]; try lia; [|done..].
  subst. by rewrite Z.sub_diag.
Qed.

Lemma words_bytes ws : all_bytes (low_first ws) /\ length (low_first ws) = (2 * length ws)%nat.
Proof.
  induction ws as [|w ws [IH1 IH2]]; [by split|]. change (low_first (w :: ws)) with (u8 w :: u8 (Z.shiftr w 8) :: low_first ws).
  split; [apply Forall_cons; split; [apply u8_range|apply Forall_cons; split; [apply u8_range|done]]|cbn [length]; lia].
Qed.

Lemma int16_low_byte b : is_byte b -> int16 [hexdig_lower (b / 16); hexdig_lower (b mod 16)] = Ret b.
Proof.
  intros H. assert (F : Forall (fun b => int16 [hexdig_lower (b / 16); hexdig_lower (b mod 16)] = Ret b) (seqZ 0 256)) by decided.
  apply (proj1 (Forall_forall _ _) F), elem_of_seqZ. unfold is_byte in H. lia.
Qed.

Lemma regs_of_words ns : forall ws, length ws = length ns -> Forall (fun w => 0 <= w < 65536) ws ->
  regs_of ns (hex_of (low_first ws)) = Ret (zip ns ws).
Proof.
  induction ns as [|name ns IH]; intros [|w ws] Hl Hw; try done. apply Forall_cons in Hw as [Hw Hws].
  change (low_first (w :: ws)) with (u8 w :: u8 (Z.shiftr w 8) :: low_first ws).
  set (lo := u8 w). set (hi := u8 (Z.shiftr w 8)).
  change (hex_of (lo :: hi :: low_first ws)) with ([hexdig_lower (lo / 16); hexdig_lower (lo mod 16); hexdig_lower (hi / 16); hexdig_lower (hi mod 16)] ++ hex_of (low_first ws)).
  cbn [regs_of zip zip_with]. rewrite take_app_length', drop_app_length' by done.
  rewrite !int16_low_byte by apply u8_range. cbn [mbind outcome_bind]. rewrite IH by (done || by injection Hl). cbn [mbind outcome_bind].
  do 3 f_equal. rewrite Z.lor_comm, lor_shiftl by (pose proof (u8_range w); unfold is_byte, lo in *; lia).
  unfold lo, hi. rewrite !u8_mod, Z.shiftr_div_pow2 by lia. change (2 ^ 8) with 256. Z.div_mod_to_equations. lia.
Qed.

Lemma read_regs_ok s : (52 <= turns)%nat -> does (read_regs react turns) s (zip names (registers s)) s.
Proof.
  intros Ht. destruct (registers_words s) as [Hl Hw]. destruct (words_bytes (registers s)) as [Hb Hlen].
  destruct (hex_of_free _ Hb) as (H1 & H2 & H3). unfold read_regs. eapply does_bind.
  - apply (request_ok _ _ s s (stub_regs s) H1). lia.
  - cbv beta. rewrite H2, regs_of_words by done. intros sz. by exists sz.
Qed.

(** ** Keys *)

(** The ring buffer with [text] put in from [h] on. *)
Definition ring (kbbuf h : Z) (text : str) (m : Z -> Z) (x : Z) : Z :=
  if (kbbuf <=? x) && (x <? kbbuf + 16) then
    match text !! Z.to_nat ((x - kbbuf - h) mod 16) with Some c => u8 c | None => m x end
  else m x.

Lemma ring_cons kbbuf h c text m m' x : 0 <= h < 16 -> (length text <= 15)%nat ->
  (forall y, m' y = if y =? kbbuf + h then u8 c else m y) ->
  ring kbbuf ((h + 1) mod 16) text m' x = ring kbbuf h (c :: text) m x.
Proof.
  intros Hh Hl Hm. unfold ring.
  destruct (Z.leb_spec kbbuf x), (Z.ltb_spec x (kbbuf + 16)); cbn [andb]; rewrite ?Hm;
    try (rewrite (proj2 (Z.eqb_neq x (kbbuf + h))) by lia; done).
  destruct (Z.eqb_spec x (kbbuf + h)) as [->|Hne].
  - replace ((kbbuf + h - kbbuf - h) mod 16) with 0 by (Z.div_mod_to_equations; lia). cbn [lookup list_lookup Z.to_nat].
    rewrite lookup_ge_None_2; [done|]. Z.div_mod_to_equations. lia.
  - replace (Z.to_nat ((x - kbbuf - h) mod 16)) with (S (Z.to_nat ((x - kbbuf - (h + 1) mod 16) mod 16))) by (Z.div_mod_to_equations; lia).
    done.
Qed.

Lemma ring_same kbbuf h text m m' x : (forall y, m' y = m y) -> ring kbbuf h text m' x = ring kbbuf h text m x.
Proof. intros H. unfold ring. by rewrite H. Qed.

Lemma put_keys_ok text : forall s h, 0 <= h < 16 -> (length text <= 16)%nat -> (6 <= turns)%nat ->
  exists s', does (put_keys react turns text h) s ((h + zlength text) mod 16) s' /\
    forall x, memory s' x = ring KBBUF h text (memory s) x.
Proof.
  induction text as [|c text IH]; intros s h Hh Hl Ht.
  - exists s. split; [|intros x; unfold ring; by destruct (_ && _)]. cbn [put_keys].
    replace ((h + zlength (@nil Z)) mod 16) with h by (unfold zlength; cbn [length]; Z.div_mod_to_equations; lia). apply does_ret.
  - cbn [length] in Hl. destruct (write_byte_ok s (KBBUF + h) c) as (s1 & D1 & M1); [unfold KBBUF; lia|done|].
    destruct (IH s1 ((h + 1) mod 16)) as (s2 & D2 & M2); [apply Z.mod_pos_bound; lia|lia|done|].
    exists s2. split.
    + cbn [put_keys]. eapply does_bind; [exact D1|]. cbv beta.
      replace ((h + zlength (c :: text)) mod 16) with (((h + 1) mod 16 + zlength text) mod 16); [exact D2|].
      unfold zlength. cbn [length]. Z.div_mod_to_equations. lia.
    + intros x. rewrite M2. by apply ring_cons; [|lia|].
Qed.

(** Memory after the keys of [text]. *)
Definition keyed (kbbuf kbhead : Z) (text : str) (m : Z -> Z) (x : Z) : Z :=
  if x =? kbhead then (m kbhead + zlength text) mod 16 else ring kbbuf (m kbhead) text m x.

Lemma inject_keys_ok text s : 0 <= memory s KBHEAD < 16 -> (length text <= 16)%nat -> (6 <= turns)%nat ->
  exists s', does (inject_keys react turns text) s tt s' /\ forall x, memory s' x = keyed KBBUF KBHEAD text (memory s) x.
Proof.
  intros Hh Hl Ht. destruct (put_keys_ok text s (memory s KBHEAD) Hh Hl Ht) as (s1 & D1 & M1).
  set (h' := (memory s KBHEAD + zlength text) mod 16) in *. assert (0 <= h' < 16) by (apply Z.mod_pos_bound; lia).
  destruct (write_byte_ok s1 KBHEAD h') as (s2 & D2 & M2); [unfold KBHEAD; lia|done|]. exists s2. split.
  - unfold inject_keys. eapply does_bind; [apply read_byte_ok; [unfold KBHEAD; lia|done]|]. cbv beta.
    eapply does_bind; [exact D1|]. cbv beta. eapply does_bind; [exact D2|]. apply does_ret.
  - intros x. rewrite M2. unfold keyed. destruct (x =? KBHEAD); [|apply M1]. apply u8_small. unfold is_byte. lia.
Qed.

Lemma inject_string_ok kbbuf kbhead text : 0 <= kbbuf -> kbbuf + 16 <= 65536 -> 0 <= kbhead < 65536 ->
  kbhead < kbbuf \/ kbbuf + 16 <= kbhead -> (6 <= turns)%nat -> (length text <= 16)%nat ->
  forall s, 0 <= memory s kbhead < 16 ->
  exists s', does (inject_string react turns kbbuf kbhead text) s tt s' /\
    forall x, memory s' x = keyed kbbuf kbhead text (memory s) x.
Proof.
  intros Hb1 Hb2 Hh Hd Ht. induction text as [|c text IH]; intros Hl s Hs.
  - exists s. split; [apply does_ret|]. intros x. unfold keyed, ring. destruct (Z.eqb_spec x kbhead) as [->|]; [|by destruct (_ && _)].
    unfold zlength. cbn [length]. Z.div_mod_to_equations. lia.
  - cbn [length] in Hl. set (h := memory s kbhead) in *. assert (0 <= (h + 1) mod 16 < 16) by (apply Z.mod_pos_bound; lia).
    destruct (write_byte_ok s (kbbuf + h) c) as (s1 & D1 & M1); [lia|done|].
    destruct (write_byte_ok s1 kbhead ((h + 1) mod 16)) as (s2 & D2 & M2); [lia|done|].
    assert (Hk : memory s2 kbhead = (h + 1) mod 16) by (rewrite M2, Z.eqb_refl; apply u8_small; unfold is_byte; lia).
    destruct (IH ltac:(lia) s2) as (s3 & D3 & M3); [by rewrite Hk|]. exists s3. split.
    + cbn [inject_string]. eapply does_bind; [|exact D3]. unfold inject_key.
      eapply does_bind; [by apply read_byte_ok|]. cbv beta. fold h. eapply does_bind; [exact D1|]. eapply does_bind; [exact D2|]. apply does_ret.
    + intros x. rewrite M3. unfold keyed. rewrite Hk. destruct (Z.eqb_spec x kbhead) as [->|Hx].
      * fold h. unfold zlength. cbn [length]. Z.div_mod_to_equations. lia.
      * fold h. rewrite <- (ring_cons kbbuf h c text (memory s) (memory s1) x) by (done || lia).
        unfold ring. rewrite M2, (proj2 (Z.eqb_neq x kbhead)) by done. done.
Qed.

(** ** The screen *)

(** Character [i] of the screen in memory. *)
Definition shown (m : Z -> Z) (i : Z) : Z := printable (m (SCREEN_BASE + i)).

Lemma read_screen_line_ok s row : 0 <= row < 25 -> (164 <= turns)%nat ->
  does (read_screen_line react turns row) s (rstrip_with py_space (map (shown (memory s)) (seqZ (row * 80) 80))) s.
Proof.
  intros Hr Ht. unfold read_screen_line. eapply does_bind; [apply read_mem_ok; unfold SCREEN_BASE; lia|]. cbv beta.
  replace (map (shown (memory s)) (seqZ (row * 80) 80)) with (map printable (map (memory s) (seqZ (SCREEN_BASE + row * 80) 80))); [apply does_ret|].
  rewrite map_map. unfold seqZ. rewrite !map_map. apply map_ext. intros i. unfold shown. do 2 f_equal. lia.
Qed.

Lemma at_prompt_ok s : (6 <= turns)%nat -> memory s 65492 < 25 ->
  does (at_prompt react turns) s
    (let row := 63488 + memory s 65492 * 80 in (memory s 65489 =? 2) && ((memory s row =? 65) && (memory s (row + 1) =? 62))) s.
Proof.
  intros Ht Hr. pose proof (memory_bytes s 65492) as Hb. unfold is_byte in Hb. unfold at_prompt.
  eapply does_bind; [by apply read_byte_ok|]. eapply does_bind; [by apply read_byte_ok|]. cbv beta zeta.
  destruct (memory s 65489 =? 2); [|apply does_ret]. cbn [negb]. eapply does_bind; [apply read_byte_ok; lia|]. cbv beta.
  destruct (_ =? 65); [|apply does_ret]. cbn [negb]. eapply does_bind; [apply read_byte_ok; lia|]. apply does_ret.
Qed.

(** ** What goes wrong *)

(** Two packets that arrive together: the second stays in [self.buf], and is taken
    for the answer to the next request. *)
Lemma stale_packet s q q' : 35 ∉ q -> 35 ∉ q' -> (length q + length q' + 8 <= Z.to_nat 4096)%nat -> (0 < turns)%nat ->
  recv_stop react turns (Gdb s (packet q ++ packet q') [] false []) = (Ret q, Gdb s [] [] false (packet q')).
Proof.
  intros Hq Hq' Hl Ht. unfold recv_stop, recv_packet. destruct turns as [|fuel]; [lia|]. cbn [recv_packet_from].
  pose proof (packet_in_whole q (packet q') Hq) as Hw.
  assert (Hlen : (length (packet q ++ packet q') <= Z.to_nat 4096)%nat) by (rewrite length_app, !length_packet; lia).
  destruct (packet q ++ packet q') as [|x r] eqn:E; [done|].
  unfold mbind, stM_bind, recv, get. cbn [incoming sizes stub closed buf].
  rewrite take_ge, drop_ge by done. cbn [app buf]. rewrite Hw.
  unfold modify, set_buf, send_ack, sendall. cbn [closed stub incoming sizes buf]. rewrite stub_acked.
  done.
Qed.

Lemma stale_answer s sz q a n : 35 ∉ q -> 0 <= a -> 0 <= n -> a + n <= 65536 -> (0 < turns)%nat ->
  fst (read_mem react turns a n (Gdb s [] sz false (packet q))) = if starts_E q then Ret [] else fromhex q.
Proof.
  intros Hq Ha Hn Hs Ht. unfold read_mem, request, send_packet. unfold mbind at 1 2 3, stM_bind, sendall. cbn [closed stub incoming sizes buf].
  rewrite stub_reads by done. cbn [app]. set (p := packet (hex_of _)).
  destruct (await_ack_ok turns (packet (read_request a n)) s p sz (packet q) Ht) as [sz1 ->].
  unfold recv_packet. destruct turns as [|fuel]; [lia|]. cbn [recv_packet_from].
  unfold mbind, stM_bind, recv, get. cbn [incoming sizes stub closed buf].
  set (k := match sz1 with [] => Z.to_nat 4096 | z :: _ => (Z.to_nat 4096 `min` S z)%nat end).
  assert (Hk : (0 < k)%nat) by (unfold k; destruct sz1; lia).
  destruct p as [|x r] eqn:E; [by unfold packet in E|]. rewrite <- E. destruct (take k p) as [|y c] eqn:Et.
  { rewrite E in Et. destruct k; [lia|done]. }
  cbn [buf]. rewrite packet_in_whole by done.
  unfold modify, set_buf, send_ack, sendall. cbn [closed stub incoming sizes buf]. rewrite stub_acked.
  unfold mret, stM_ret. by destruct (starts_E q).
Qed.

(** After the stub has gone, the wait for its acknowledgement never ends. *)
Lemma await_closed fuel pkt s sz b : await_ack react fuel pkt (Gdb s [] sz true b) = (Raise OutOfFuel, Gdb s [] sz true b).
Proof. induction fuel as [|fuel IH]; [done|]. cbn [await_ack]. unfold mbind, stM_bind, recv. cbn [incoming closed]. exact IH. Qed.
End Served.

(** ** A stub *)

Definition number (s : str) : Z := foldl (fun acc c => acc * 16 + default 0 (hexval c)) 0 s.

Lemma digits_number fuel : forall n, 0 <= n < 16 ^ Z.of_nat fuel ->
  number (map lower1 (fmt_digits fuel n [])) = n /\ Forall (fun c => c <> 35 /\ c <> 44 /\ c <> 58) (map lower1 (fmt_digits fuel n [])).
Proof.
  assert (A : forall fuel n acc, fmt_digits fuel n acc = fmt_digits fuel n [] ++ acc).
  { clear. induction fuel as [|fuel IH]; intros n acc; [done|]. cbn [fmt_digits]. destruct (_ =? 0); [done|].
    rewrite IH, (IH _ [_]). by rewrite <- app_assoc. }
  assert (D : forall d, 0 <= d < 16 -> hexval (lower1 (hexdig d)) = Some d /\ lower1 (hexdig d) <> 35 /\ lower1 (hexdig d) <> 44 /\ lower1 (hexdig d) <> 58).
  { intros d Hd. assert (F : Forall (fun d => hexval (lower1 (hexdig d)) = Some d /\ lower1 (hexdig d) <> 35 /\ lower1 (hexdig d) <> 44 /\ lower1 (hexdig d) <> 58) (seqZ 0 16)) by decided.
    apply (proj1 (Forall_forall _ _) F), elem_of_seqZ. lia. }
  induction fuel as [|fuel IH]; intros n Hn; [cbn in Hn; by replace n with 0 by lia|].
  rewrite Nat2Z.inj_succ, Z.pow_succ_r in Hn by lia. cbn [fmt_digits].
  assert (0 <= n mod 16 < 16) as Hm by (apply Z.mod_pos_bound; lia). destruct (D _ Hm) as (V & C).
  destruct (Z.eqb_spec (n / 16) 0) as [E|E].
  - cbn [map]. split; [|by constructor]. unfold number. cbn [foldl]. rewrite V. cbn. Z.div_mod_to_equations. lia.
  - destruct (IH (n / 16)) as [IH1 IH2]; [Z.div_mod_to_equations; lia|]. rewrite A, map_app. split; [|apply Forall_app_2; [done|by constructor]].
    unfold number in *. rewrite foldl_app, IH1. cbn [map foldl]. rewrite V. cbn. Z.div_mod_to_equations. lia.
Qed.

Lemma hex_number_ok n : 0 <= n -> number (hex_number n) = n /\ Forall (fun c => c <> 35 /\ c <> 44 /\ c <> 58) (hex_number n).
Proof.
  intros H. unfold hex_number, fmt_hex. cbn [Nat.sub replicate app]. apply digits_number. split; [done|].
  rewrite Nat2Z.inj_succ, Z2Nat.id by apply Z.log2_nonneg. destruct (Z.eq_dec n 0) as [->|Hn]; [done|].
  pose proof (Z.log2_spec n ltac:(lia)). pose proof (Z.pow_le_mono_l 2 16 (Z.succ (Z.log2 n)) ltac:(lia)). lia.
Qed.

Lemma hex_number_free n c : 0 <= n -> c = 35 \/ c = 44 \/ c = 58 -> c ∉ hex_number n.
Proof. intros Hn Hc Hin. apply hex_number_ok in Hn as [_ F]. apply (proj1 (Forall_forall _ _) F) in Hin. lia. Qed.

(** The memory is a function from addresses, of which the low bytes count. *)
Definition demo_memory (s : Z -> Z) (a : Z) : Z := u8 (s a).
Definition demo_registers (s : Z -> Z) : list Z := [1; 258; 3; 4; 5; 6; 7; 8; 9; 10; 62208; 55840].

Definition demo_read (s : Z -> Z) (r : bytes) : option ((Z -> Z) * bytes) :=
  '(a, r) ← cut 44 r; '(n, _) ← cut 35 r;
  Some (s, 43 :: packet (hex_of (map (demo_memory s) (seqZ (number a) (number n))))).

Definition demo_write (s : Z -> Z) (r : bytes) : option ((Z -> Z) * bytes) :=
  '(a, r) ← cut 44 r; '(n, r) ← cut 58 r; '(d, _) ← cut 35 r;
  match fromhex d with
  | Ret data => Some (fun x => if (number a <=? x) && (x <? number a + zlength data) then List.nth (Z.to_nat (x - number a)) data 0 else s x, 43 :: packet OK)
  | Raise _ => None
  end.

Definition demo_react (s : Z -> Z) (p : bytes) : (Z -> Z) * bytes :=
  match p with
  | [43] => (s, [])
  | 36 :: 103 :: _ => (s, 43 :: packet (hex_of (low_first (demo_registers s))))
  | 36 :: 109 :: r => default (s, 43 :: packet []) (demo_read s r)
  | 36 :: 77 :: r => default (s, 43 :: packet []) (demo_write s r)
  | _ => (s, 43 :: packet [])
  end.

#[export] Instance demo_stub : Stub demo_react demo_memory demo_registers.
Proof.
  split.
  - intros s. split; [done|]. repeat constructor; lia.
  - done.
  - intros s a. apply u8_range.
  - done.
  - intros s a n Ha Hn Hs. unfold packet, read_request.
    change (chars "m" ++ hex_number a ++ chars "," ++ hex_number n) with (109 :: hex_number a ++ 44 :: hex_number n).
    cbn [demo_react]. unfold demo_read. cbn [app]. rewrite <- app_assoc. cbn [app]. rewrite cut_found by (apply hex_number_free; auto).
    cbn [mbind option_bind]. rewrite cut_found by (apply hex_number_free; auto). cbn [mbind option_bind default].
    destruct (hex_number_ok a Ha) as [-> _], (hex_number_ok n Hn) as [-> _]. done.
  - intros s a data Ha Hd Hs. unfold packet, write_request. pose proof (zlength_pos data) as Hz.
    change (chars "M" ++ hex_number a ++ chars "," ++ hex_number (zlength data) ++ chars ":" ++ hex_of data)
      with (77 :: hex_number a ++ 44 :: hex_number (zlength data) ++ 58 :: hex_of data).
    cbn [demo_react]. unfold demo_write. cbn [app]. rewrite <- app_assoc. cbn [app]. rewrite cut_found by (apply hex_number_free; auto).
    cbn [mbind option_bind]. rewrite <- app_assoc. cbn [app]. rewrite cut_found by (apply hex_number_free; auto). cbn [mbind option_bind].
    destruct (hex_of_free data Hd) as (H35 & _). rewrite cut_found by done. cbn [mbind option_bind].
    rewrite fromhex_of by done. cbn [default]. eexists. split; [done|]. intros x. cbv beta. unfold demo_memory.
    destruct (hex_number_ok a Ha) as [-> _]. destruct (Z.leb_spec a x), (Z.ltb_spec x (a + zlength data)); cbn [andb]; try done.
    apply u8_small. unfold zlength in *. destruct (lookup_lt_is_Some_2 data (Z.to_nat (x - a)) ltac:(lia)) as [b Hb].
    rewrite (nth_lookup_Some _ _ _ _ Hb). by apply (all_bytes_lookup data (Z.to_nat (x - a))).
Qed.

(** ** Properties *)

(** A map file in which another symbol ends in the one asked for. *)
Definition example_map : str := listing [chars "_old_displ = $1234 ; const"; chars "_displ     = $E1F0 ; addr"; chars "_specc     = $E2A4 ; addr"].

(** C28: the clients read and write the target.  Of any stub that keeps the
    protocol, whatever the pieces its answers arrive in, once nothing is under way
    and with enough turns for the answer: [read_regs] gives the twelve register
    pairs under their names and [read_mem] the bytes asked for, [write_mem] answers
    true and changes exactly the bytes written; a screen line is the text of its row
    without the blanks at its end, and [at_prompt] tells whether the cursor is
    behind "A>".  At most 16 keys, put in by either client, stand in the ring from
    its head on, the head behind them, and nothing else in memory changes.  But a
    stop packet that arrived together with another stays behind and is taken for the
    answer to the next request; after the stub has gone a request waits forever; and
    the address of a symbol may be that of an earlier one that ends in its name. *)
Theorem debuggers_reach_the_target {St} react memory registers `{!Stub (St := St) react memory registers} turns s (Ht : (6 <= turns)%nat) :
  ((52 <= turns)%nat -> does (read_regs react turns) s (zip names (registers s)) s)
  /\ (forall a n, 0 <= a -> 0 <= n -> a + n <= 65536 -> (2 * Z.to_nat n + 4 <= turns)%nat ->
       does (read_mem react turns a n) s (map (memory s) (seqZ a n)) s)
  /\ (forall a data, 0 <= a -> all_bytes data -> a + zlength data <= 65536 ->
       exists s', does (write_mem react turns a data) s true s' /\
         forall x, memory s' x = if (a <=? x) && (x <? a + zlength data) then List.nth (Z.to_nat (x - a)) data 0 else memory s x)
  /\ (forall row, 0 <= row < 25 -> (164 <= turns)%nat ->
       does (read_screen_line react turns row) s (rstrip_with py_space (map (shown (memory s)) (seqZ (row * 80) 80))) s)
  /\ (memory s 65492 < 25 -> does (at_prompt react turns) s
       (let row := 63488 + memory s 65492 * 80 in (memory s 65489 =? 2) && ((memory s row =? 65) && (memory s (row + 1) =? 62))) s)
  /\ (forall text, (length text <= 16)%nat ->
       (0 <= memory s KBHEAD < 16 -> exists s', does (inject_keys react turns text) s tt s' /\
          forall x, memory s' x = keyed KBBUF KBHEAD text (memory s) x) /\
       (forall kbbuf kbhead, 0 <= kbbuf -> kbbuf + 16 <= 65536 -> 0 <= kbhead < 65536 -> kbhead < kbbuf \/ kbbuf + 16 <= kbhead ->
          0 <= memory s kbhead < 16 -> exists s', does (inject_string react turns kbbuf kbhead text) s tt s' /\
            forall x, memory s' x = keyed kbbuf kbhead text (memory s) x))
  /\ (forall q q' sz a n, 35 ∉ q -> 35 ∉ q' -> (length q + length q' + 8 <= Z.to_nat 4096)%nat -> 0 <= a -> 0 <= n -> a + n <= 65536 ->
       recv_stop react turns (Gdb s (packet q ++ packet q') [] false []) = (Ret q, Gdb s [] [] false (packet q')) /\
       fst (read_mem react turns a n (Gdb s [] sz false (packet q'))) = if starts_E q' then Ret [] else fromhex q')
  /\ (forall data sz b, fst (send_packet react turns data (Gdb s [] sz true b)) = Raise OutOfFuel)
  /\ read_map_addr (chars "_specc") example_map = Ret 58020 /\ read_map_addr (chars "_displ") example_map = Ret 4660.
Proof.
  split_and!.
  - by apply (read_regs_ok react memory registers).
  - intros. by apply (read_mem_ok react memory registers).
  - intros. by apply (write_mem_ok react memory registers).
  - intros. by apply (read_screen_line_ok react memory registers).
  - intros. by apply (at_prompt_ok react memory registers).
  - intros text Hl. split; intros; [by apply (inject_keys_ok react memory registers)|by apply (inject_string_ok react memory registers)].
  - intros q q' sz a n Hq Hq' Hl Ha Hn Hs. split; [by apply (stale_packet react memory registers); try lia|by apply (stale_answer react memory registers); try lia].
  - intros data sz b. unfold send_packet. unfold mbind, stM_bind, sendall. cbn [closed]. by rewrite await_closed.
  - by vm_compute.
  - by vm_compute.
Qed.

(** Keys on a target whose ring is nearly full, and a stale stop packet. *)
Lemma debuggers_reach_the_target_witness :
  let s := fun a : Z => if a =? KBHEAD then 15 else 7 in
  (exists s' sz', inject_keys demo_react 6 (chars "DI") (idle s []) = (Ret tt, idle s' sz') /\
     demo_memory s' 56370 = 68 /\ demo_memory s' 56355 = 73 /\ demo_memory s' KBHEAD = 1 /\ demo_memory s' 56356 = 7) /\
  fst (read_mem demo_react 6 256 1 (Gdb s [] [] false (packet (chars "T05")))) = Raise ValueError.
Proof.
  intros s. assert (Ht : (6 <= 6)%nat) by lia.
  destruct (debuggers_reach_the_target demo_react demo_memory demo_registers 6 s Ht) as (_ & _ & _ & _ & _ & K & P & _). split.
  - destruct (proj1 (K (chars "DI") ltac:(cbn; lia)) ltac:(split; [discriminate|reflexivity])) as (s' & D & M). destruct (D []) as [sz' E].
    exists s', sz'. split_and!; [exact E|rewrite M; reflexivity..].
  - refine (proj2 (P (chars "T05") (chars "T05") [] 256 1 _ _ _ _ _ _)); [| |cbn; lia|lia..];
      vm_compute; by intros [?|[?|[?|?%elem_of_nil]%elem_of_cons]%elem_of_cons]%elem_of_cons.
Defined.
