(* ===== verification/Listing.v ===== *)
(** * Listings after the disassembler: rcbios/defb2str.py and rcbios/portnames.py.

    Both rewrite the lines of a z80dasm listing in place: single bytes become DB
    lines with strings, port numbers become names with EQU lines.  Lines are what
    [f.readlines()] gives, the line end included; texts are ASCII. *)

From S2P Require Import Prelude Imd Hex Text Labels.
#[local] Open Scope Z_scope.

(** ** defb2str.py *)

(** The byte of a line [re.match(r'\t(?:defb|DB) 0([0-9a-fA-F]{2})h\s*;', line)]
    matches. *)
Definition after (p s : str) : option str := if startswith p s then Some (drop (length p) s) else None.

Definition hex_pair (s : str) : option (Z * str) :=
  match s with
  | 48 :: h :: l :: 104 :: s' => h' ← hexval h; l' ← hexval l; Some (h' * 16 + l', s')
  | _ => None
  end.

Definition byte_line (line : str) : option Z :=
  s ← (match after (9 :: chars "defb ") line with Some s => Some s | None => after (9 :: chars "DB ") line end);
  '(b, s) ← hex_pair s;
  match drop_while py_space s with 59 :: _ => Some b | _ => None end.

Definition in_string (b : Z) : bool := (32 <=? b) && (b <=? 126) && negb (b =? 39).

(** [cur] and [best]. *)
Fixpoint run_from (cur best : Z) (l : bytes) : Z :=
  match l with
  | [] => best
  | b :: l' => if in_string b then run_from (cur + 1) (Z.max best (cur + 1)) l' else run_from 0 best l'
  end.
Definition longest_printable_run (l : bytes) : Z := run_from 0 0 l.

(** [parts], [acc] being [str_acc]. *)
Definition quoted_part (acc : str) : list str := match acc with [] => [] | _ => [[39] ++ acc ++ [39]] end.
Fixpoint parts_from (acc : str) (l : bytes) : list str :=
  match l with
  | [] => quoted_part acc
  | b :: l' =>
      if in_string b then parts_from (acc ++ [b]) l'
      else quoted_part acc ++ [[48] ++ fmt_hex 2 b ++ [104]] ++ parts_from [] l'
  end.
Definition format_db (l : bytes) : str := 9 :: chars "DB " ++ join [44] (parts_from [] l) ++ [10].

(** The byte lines at the head, each with its byte, and what follows. *)
Fixpoint run_of (lines : list str) : list (Z * str) * list str :=
  match lines with
  | [] => ([], [])
  | line :: lines' =>
      match byte_line line with
      | Some b => let '(run, rest) := run_of lines' in ((b, line) :: run, rest)
      | None => ([], lines)
      end
  end.

Definition show_chunk (chunk : list (Z * str)) : list str :=
  if 4 <=? longest_printable_run (map fst chunk) then [format_db (map fst chunk)] else map snd chunk.

Fixpoint show_chunks (fuel : nat) (run : list (Z * str)) : list str :=
  match fuel, run with
  | S fuel, _ :: _ => show_chunk (take 48 run) ++ show_chunks fuel (drop 48 run)
  | _, _ => []
  end.

Definition show_run (run : list (Z * str)) : list str :=
  if 4 <=? longest_printable_run (map fst run) then show_chunks (length run) run else map snd run.

Fixpoint collapse_from (fuel : nat) (lines : list str) : list str :=
  match fuel, lines with
  | S fuel, line :: lines' =>
      match run_of lines with
      | ([], _) => line :: collapse_from fuel lines'
      | (run, rest) => show_run run ++ collapse_from fuel rest
      end
  | _, _ => []
  end.
Definition collapse_defb_strings (lines : list str) : list str := collapse_from (length lines) lines.

(** ** portnames.py *)

Definition PORTS : list (Z * str) :=
  map (fun p => (fst p, chars (snd p)))
   [(0, "DSPLD"); (1, "DSPLC"); (4, "FDC"); (5, "FDD"); (8, "SIOAD"); (9, "SIOBD"); (10, "SIOAC"); (11, "SIOBC");
    (12, "CTCCH0"); (13, "CTCCH1"); (14, "CTCCH2"); (15, "CTCCH3"); (16, "PIOAD"); (17, "PIOBD"); (18, "PIOAC"); (19, "PIOBC");
    (20, "SW1"); (28, "BELL"); (240, "DMAAD0"); (241, "DMACN0"); (242, "DMAAD1"); (243, "DMACN1"); (244, "DMAAD2");
    (245, "DMACN2"); (246, "DMAAD3"); (247, "DMACN3"); (248, "DMAC"); (250, "DMAMAS"); (251, "DMAMOD"); (252, "DMACBC")]%string.

Fixpoint port_name (ports : list (Z * str)) (n : Z) : option str :=
  match ports with
  | [] => None
  | (p, name) :: ports' => if p =? n then Some name else port_name ports' n
  end.

Definition PORT_EQUS : list str :=
  map (fun p => snd p ++ chars ":" ++ [9] ++ chars "equ 0" ++ map lower1 (fmt_hex 2 (fst p)) ++ chars "h") PORTS.

(** A lower-case hexadecimal digit. *)
Definition low_digit (c : Z) : bool := ((48 <=? c) && (c <=? 57)) || ((97 <=? c) && (c <=? 102)).

(** [port_re] at the beginning of [s]: group 1, the port, and the rest, which
    begins with group 3. *)
Definition port_match (s : str) : option (str * Z * str) :=
  let read (g : str) :=
    r ← after g s;
    match r with
    | 48 :: h :: l :: 104 :: 41 :: r' =>
        if low_digit h && low_digit l then h' ← hexval h; l' ← hexval l; Some (g, h' * 16 + l', 41 :: r') else None
    | _ => None
    end in
  match read (9 :: chars "in a,(") with Some m => Some m | None => read (9 :: chars "out (") end.

(** [port_re.search]: the text before the match too. *)
Fixpoint port_search (s : str) : option (str * (str * Z * str)) :=
  match port_match s with
  | Some m => Some ([], m)
  | None => match s with [] => None | c :: s' => '(a, m) ← port_search s'; Some (c :: a, m) end
  end.

Definition name_port (line : str) : str :=
  match port_search line with
  | Some (before, (group1, port_num, rest)) =>
      match port_name PORTS port_num with Some name => before ++ group1 ++ name ++ rest | None => line end
  | None => line
  end.

Definition is_org (line : str) : bool := startswith (chars "org ") (strip_with py_space line).

Fixpoint replace_from (equs_inserted : bool) (lines : list str) : list str :=
  match lines with
  | [] => []
  | line :: lines' =>
      if negb equs_inserted && is_org line then
        line :: [10] :: map (fun eq => eq ++ [10]) PORT_EQUS ++ replace_from true lines'
      else name_port line :: replace_from equs_inserted lines'
  end.
Definition replace_ports (lines : list str) : list str := replace_from false lines.

(** ** What the assembler reads

    The bytes of a line of strings and numbers, whichever word introduces it. *)
Fixpoint until_quote (s : str) : option (bytes * str) :=
  match s with
  | [] => None
  | c :: s' => if c =? 39 then Some ([], s') else '(a, r) ← until_quote s'; Some (c :: a, r)
  end.

Definition item (s : str) : option (bytes * str) :=
  match s with
  | 39 :: s' => until_quote s'
  | _ => '(b, r) ← hex_pair s; Some ([b], r)
  end.

Definition ends_line (s : str) : bool := match drop_while py_space s with [] => true | c :: _ => c =? 59 end.

Fixpoint items (fuel : nat) (s : str) : option bytes :=
  match fuel with
  | O => None
  | S fuel =>
      '(bs, r) ← item s;
      match r with
      | 44 :: r' => bs' ← items fuel r'; Some (bs ++ bs')
      | _ => if ends_line r then Some bs else None
      end
  end.

Definition data_of (line : str) : option bytes :=
  s ← (match after (9 :: chars "defb ") line with Some s => Some s | None => after (9 :: chars "DB ") line end);
  items (S (length s)) s.

(** A listing as the assembler sees it: its bytes, and the other lines between. *)
Definition seen (lines : list str) : list (str + Z) :=
  concat (map (fun l => match data_of l with Some bs => map inr bs | None => [inl l] end) lines).

Lemma seen_app a b : seen (a ++ b) = seen a ++ seen b.
Proof. unfold seen. by rewrite map_app, concat_app. Qed.

Lemma hexval_range c d : hexval c = Some d -> 0 <= d < 16.
Proof.
  unfold hexval. destruct (Z.leb_spec 48 c), (Z.leb_spec c 57), (Z.leb_spec 65 c), (Z.leb_spec c 70), (Z.leb_spec 97 c), (Z.leb_spec c 102);
    cbn [andb]; intros [= <-]; lia.
Qed.

Lemma hex_pair_byte s b r : hex_pair s = Some (b, r) -> is_byte b.
Proof.
  unfold hex_pair, is_byte. intros H. repeat case_match; try done. subst.
  apply bind_Some in H as (h & E1 & H). apply bind_Some in H as (l & E2 & H). injection H as <- <-.
  apply hexval_range in E1, E2. lia.
Qed.

Lemma byte_line_data line b : byte_line line = Some b -> data_of line = Some [b] /\ is_byte b.
Proof.
  unfold byte_line, data_of. intros H.
  destruct (match after (9 :: chars "defb ") line with Some s => Some s | None => _ end) as [s|]; [|done].
  cbn [mbind option_bind] in *. destruct (hex_pair s) as [[x r]|] eqn:E; [|done]. cbn [mbind option_bind] in H.
  destruct (drop_while py_space r) as [|c r'] eqn:Er; [done|]. destruct (decide (c = 59)) as [->|Hc]; [|by repeat case_match].
  injection H as ->. split; [|by eapply hex_pair_byte].
  cbn [items]. assert (Hi : item s = Some ([b], r)) by (unfold item; rewrite E; unfold hex_pair in E; by repeat case_match).
  rewrite Hi. cbn [mbind option_bind]. unfold ends_line. rewrite Er.
  destruct r as [|d r]; [done|]. destruct (decide (d = 44)) as [->|Hd]; [done|]. by repeat case_match.
Qed.

Lemma until_quote_found a r : Forall (fun c => in_string c = true) a -> until_quote (a ++ 39 :: r) = Some (a, r).
Proof.
  induction 1 as [|c a Hc Ha IH]; [done|]. cbn [app until_quote]. unfold in_string in Hc.
  destruct (Z.eqb_spec c 39) as [->|]; [done|]. by rewrite IH.
Qed.

Lemma item_number b r : is_byte b -> item (48 :: fmt_hex 2 b ++ 104 :: r) = Some ([b], r).
Proof.
  intros Hb. rewrite fmt_hex_2 by done. unfold hex_bytes. cbn [map concat app]. unfold item, hex_pair.
  destruct (byte_digits b Hb) as [H1 H2]. destruct (hexval_hexdig _ H1) as (-> & _), (hexval_hexdig _ H2) as (-> & _).
  cbn [mbind option_bind]. do 4 f_equal. pose proof (Z.div_mod b 16 ltac:(lia)). lia.
Qed.

(** One part in front of others. *)
Lemma items_part fuel p ps bs bs' : (forall r, item (p ++ r) = Some (bs, r)) ->
  (ps = [] -> bs' = []) -> (ps <> [] -> items fuel (join [44] ps ++ [10]) = Some bs') ->
  items (S fuel) (join [44] (p :: ps) ++ [10]) = Some (bs ++ bs').
Proof.
  intros Hp Hn Hs. destruct ps as [|q ps].
  - cbn [join items]. rewrite Hp. cbn [mbind option_bind]. by rewrite Hn, app_nil_r.
  - change (join [44] (p :: q :: ps)) with (p ++ 44 :: join [44] (q :: ps)). rewrite <- app_assoc. cbn [items]. rewrite Hp.
    cbn [mbind option_bind app]. by rewrite Hs.
Qed.

Lemma parts_read l : forall acc fuel, all_bytes l -> Forall (fun c => in_string c = true) acc ->
  (length (parts_from acc l) <= fuel)%nat -> acc ++ l <> [] ->
  parts_from acc l <> [] /\ items fuel (join [44] (parts_from acc l) ++ [10]) = Some (acc ++ l).
Proof.
  assert (Q : forall acc r, Forall (fun c => in_string c = true) acc -> item (([39] ++ acc ++ [39]) ++ r) = Some (acc, r)).
  { intros acc r Ha. rewrite <- !app_assoc. cbn [app item]. by apply until_quote_found. }
  induction l as [|b l IH]; intros acc fuel Hl Ha Hf Hne; cbn [parts_from] in *.
  - rewrite app_nil_r in *. destruct acc as [|c acc]; [done|]. cbn [quoted_part] in *. split; [done|].
    destruct fuel as [|fuel]; [cbn in Hf; lia|]. rewrite <- (app_nil_r (c :: acc)) at 2. apply items_part; [|done|done]. intros r. exact (Q (c :: acc) r Ha).
  - apply Forall_cons in Hl as [Hb Hl]. destruct (in_string b) eqn:E.
    + destruct (IH (acc ++ [b]) fuel Hl) as [H1 H2]; [apply Forall_app_2; [done|by constructor]|done|by destruct acc|].
      split; [done|]. rewrite H2. by rewrite <- app_assoc.
    + assert (P : forall fuel, (S (length (parts_from [] l)) <= fuel)%nat ->
        items fuel (join [44] (([48] ++ fmt_hex 2 b ++ [104]) :: parts_from [] l) ++ [10]) = Some (b :: l)).
      { intros [|f] Hf'; [lia|]. change (b :: l) with ([b] ++ l). apply items_part.
        - intros r. rewrite <- !app_assoc. cbn [app]. by apply item_number.
        - intros Hp. destruct l as [|x l']; [done|]. by destruct (IH [] (length (parts_from [] (x :: l'))) Hl ltac:(done) ltac:(done) ltac:(done)) as [H _].
        - intros Hp. apply IH; [done|done|lia|]. cbn [app]. by intros ->. }
      destruct acc as [|c acc]; cbn [quoted_part app] in *; (split; [done|]); [apply P; cbn [length] in Hf; lia|].
      destruct fuel as [|fuel]; [cbn in Hf; lia|]. change (c :: acc ++ b :: l) with ((c :: acc) ++ b :: l).
      apply items_part; [intros r; exact (Q (c :: acc) r Ha)|done|]. intros _. apply P. cbn [length] in Hf. lia.
Qed.

Lemma format_db_data l : all_bytes l -> l <> [] -> data_of (format_db l) = Some l.
Proof.
  intros Hl Hne. unfold data_of, format_db. change (9 :: chars "DB " ++ ?x) with (chars "	DB " ++ x).
  set (x := join [44] (parts_from [] l) ++ [10]).
  change (after (9 :: chars "defb ") (chars "	DB " ++ x)) with (@None str). change (after (9 :: chars "DB ") (chars "	DB " ++ x)) with (Some x).
  cbn [mbind option_bind]. destruct (parts_read l [] (S (length x)) Hl ltac:(done)) as [_ H]; [|done|done].
  assert (J : forall ps : list str, Forall (fun p => p <> []) ps -> (length ps <= length (join [44%Z] ps))%nat).
  { induction ps as [|p [|q ps] IHp]; intros Hp; [done| |].
    - apply Forall_cons in Hp as [Hp _]. destruct p; [done|cbn; lia].
    - apply Forall_cons in Hp as [_ Hp]. change (join [44] (p :: q :: ps)) with (p ++ 44 :: join [44] (q :: ps)).
      rewrite length_app. cbn [length]. specialize (IHp Hp). cbn [length] in IHp. lia. }
  assert (N : forall l acc, Forall (fun p => p <> []) (parts_from acc l)).
  { assert (Nq : forall acc, Forall (fun p => p <> []) (quoted_part acc)) by (intros [|c acc]; repeat constructor; done).
    intros l'. induction l' as [|b l' IH]; intros acc; cbn [parts_from]; [apply Nq|]. destruct (in_string b); [done|].
    apply Forall_app_2; [apply Nq|]. by constructor. }
  specialize (J _ (N l [])). unfold x. rewrite length_app. lia.
Qed.

(** ** The bytes are kept *)

Lemma run_of_spec lines : let '(run, rest) := run_of lines in
  lines = map snd run ++ rest /\ Forall (fun p => byte_line (snd p) = Some (fst p)) run /\
  (length run + length rest = length lines)%nat.
Proof.
  induction lines as [|line lines IH]; [done|]. cbn [run_of]. destruct (byte_line line) as [b|] eqn:E; [|by split_and!].
  destruct (run_of lines) as [run rest]. destruct IH as (-> & H & L). split_and!; [done|by constructor|cbn [length]; lia].
Qed.

Lemma seen_bytes run : Forall (fun p => byte_line (snd p) = Some (fst p)) run ->
  seen (map snd run) = map inr (map fst run) /\ all_bytes (map fst run).
Proof.
  induction 1 as [|[b line] run H Hr [IH1 IH2]]; [by split|]. cbn [map fst snd] in *. destruct (byte_line_data line b H) as [Hd Hb].
  split; [|by constructor]. change (seen (line :: map snd run)) with ((match data_of line with Some bs => map inr bs | None => [inl line] end) ++ seen (map snd run)).
  by rewrite Hd, IH1.
Qed.

Lemma seen_chunk chunk : Forall (fun p => byte_line (snd p) = Some (fst p)) chunk -> seen (show_chunk chunk) = seen (map snd chunk).
Proof.
  intros H. destruct (seen_bytes chunk H) as [E Hb]. unfold show_chunk. destruct (Z.leb_spec 4 (longest_printable_run (map fst chunk))); [|done].
  rewrite E. unfold seen. cbn [map concat]. rewrite format_db_data; [by rewrite app_nil_r|done|].
  destruct chunk; [cbn in *; lia|done].
Qed.

Lemma seen_chunks fuel : forall run, (length run <= fuel)%nat -> Forall (fun p => byte_line (snd p) = Some (fst p)) run ->
  seen (show_chunks fuel run) = seen (map snd run).
Proof.
  induction fuel as [|fuel IH]; intros [|p run] Hf H; try done; [cbn in Hf; lia|].
  change (show_chunks (S fuel) (p :: run)) with (show_chunk (take 48 (p :: run)) ++ show_chunks fuel (drop 48 (p :: run))).
  rewrite seen_app, seen_chunk by (by apply Forall_take). rewrite IH; [|rewrite length_drop; cbn [length] in *; lia|by apply Forall_drop].
  rewrite <- seen_app, <- map_app. by rewrite take_drop.
Qed.

Lemma seen_collapse fuel : forall lines, (length lines <= fuel)%nat -> seen (collapse_from fuel lines) = seen lines.
Proof.
  induction fuel as [|fuel IH]; intros [|line lines] Hf; try done; [cbn in Hf; lia|]. cbn [collapse_from].
  pose proof (run_of_spec (line :: lines)) as R. destruct (run_of (line :: lines)) as [run rest]. destruct R as (E & H & L).
  destruct run as [|p run].
  - change (seen ([line] ++ collapse_from fuel lines) = seen ([line] ++ lines)). rewrite !seen_app, IH; [done|cbn in Hf; lia].
  - rewrite E, !seen_app, IH by (cbn [length] in *; lia). f_equal. unfold show_run.
    destruct (4 <=? _); [by apply seen_chunks|done].
Qed.

(** ** Names for ports *)

(** A port as the disassembler writes it, and the EQU line of a name. *)
Definition port_literal (n : Z) : str := chars "0" ++ map lower1 (fmt_hex 2 n) ++ chars "h".
Definition equ_line (p : Z * str) : str := snd p ++ chars ":" ++ [9] ++ chars "equ " ++ port_literal (fst p) ++ [10].

Lemma equ_lines : map (fun eq => eq ++ [10]) PORT_EQUS = map equ_line PORTS.
Proof. by vm_compute. Qed.

Lemma low_literal h l h' l' : low_digit h = true -> low_digit l = true -> hexval h = Some h' -> hexval l = Some l' ->
  port_literal (h' * 16 + l') = [48; h; l; 104].
Proof.
  intros Hh Hl Vh Vl. pose proof (hexval_range _ _ Vh) as Rh. pose proof (hexval_range _ _ Vl) as Rl. unfold port_literal.
  rewrite fmt_hex_2 by (unfold is_byte; lia). unfold hex_bytes. cbn [map concat app].
  replace ((h' * 16 + l') / 16) with h' by (Z.div_mod_to_equations; lia). replace ((h' * 16 + l') mod 16) with l' by (Z.div_mod_to_equations; lia).
  assert (C : forall c d, low_digit c = true -> hexval c = Some d -> lower1 (hexdig d) = c).
  { intros c d Hc Hd. assert (F : Forall (fun c => low_digit c = true -> forall d, hexval c = Some d -> lower1 (hexdig d) = c) (seqZ 48 55)).
    { repeat (apply Forall_cons; split; [intros Hlow d0 E; try discriminate Hlow; vm_compute in E; injection E as <-; reflexivity|]). constructor. }
    assert (Hr : 48 <= c < 103).
    { unfold low_digit in Hc. apply orb_true_iff in Hc as [[? ?]%andb_true_iff|[? ?]%andb_true_iff]; lia. }
    apply (proj1 (Forall_forall _ _) F c); [apply elem_of_seqZ; lia|done|done]. }
  by rewrite (C h h'), (C l l').
Qed.

Lemma startswith_app p s : startswith p s = true -> s = p ++ drop (length p) s.
Proof. unfold startswith. intros H%bool_decide_eq_true. rewrite <- (take_drop (length p) s) at 1. by rewrite H. Qed.

Lemma port_match_text s g n r : port_match s = Some (g, n, r) -> s = g ++ port_literal n ++ r.
Proof.
  unfold port_match.
  assert (A : forall g0, (r ← after g0 s;
      match r with
      | 48 :: h :: l :: 104 :: 41 :: r' =>
          if low_digit h && low_digit l then h' ← hexval h; l' ← hexval l; Some (g0, h' * 16 + l', 41 :: r') else None
      | _ => None
      end) = Some (g, n, r) -> s = g ++ port_literal n ++ r).
  { intros g0 H. unfold after in H. destruct (startswith g0 s) eqn:E; [|done]. apply startswith_app in E. cbn [mbind option_bind] in H.
    rewrite E. repeat case_match; try done. subst.
    match goal with L : low_digit _ && low_digit _ = true |- _ => apply andb_true_iff in L as [L1 L2] end.
    apply bind_Some in H as (h' & V1 & H). apply bind_Some in H as (l' & V2 & H). injection H as <- <- <-.
    by rewrite (low_literal _ _ _ _ L1 L2 V1 V2). }
  destruct (_ ≫= _) as [m|] eqn:E1; [intros [= ->]; by apply (A (9 :: chars "in a,("))|]. apply (A (9 :: chars "out (")).
Qed.

Lemma port_search_text s : forall b g n r, port_search s = Some (b, (g, n, r)) -> s = b ++ g ++ port_literal n ++ r.
Proof.
  assert (A : forall s b g n r, port_match s = Some (g, n, r) -> Some (@nil Z, (g, n, r)) = Some (b, (g, n, r)) -> s = b ++ g ++ port_literal n ++ r).
  { intros s' b g n r H [= <-]. by apply port_match_text. }
  induction s as [|c s IH]; intros b g n r H; cbn [port_search] in H.
  - destruct (port_match []) as [[[g' n'] r']|] eqn:E; [|done]. injection H as <- <- <- <-. by apply (A [] []).
  - destruct (port_match (c :: s)) as [[[g' n'] r']|] eqn:E.
    + injection H as <- <- <- <-. by apply (A (c :: s) []).
    + apply bind_Some in H as ([a m] & E' & H). injection H as <- ->. cbn [app]. f_equal. by apply IH.
Qed.

Lemma port_name_in ports n name : port_name ports n = Some name -> (n, name) ∈ ports.
Proof.
  induction ports as [|[p m] ports IH]; [done|]. cbn [port_name]. destruct (Z.eqb_spec p n) as [->|].
  - intros [= ->]. apply list_elem_of_here.
  - intros H. apply elem_of_cons. right. by apply IH.
Qed.

Lemma name_port_text line : name_port line = line \/ exists before g n name rest,
  (n, name) ∈ PORTS /\ line = before ++ g ++ port_literal n ++ rest /\ name_port line = before ++ g ++ name ++ rest.
Proof.
  unfold name_port. destruct (port_search line) as [[b [[g n] r]]|] eqn:E; [|by left].
  destruct (port_name PORTS n) as [name|] eqn:En; [|by left]. right. exists b, g, n, name, r.
  split_and!; [by apply port_name_in|by apply port_search_text|done].
Qed.

Lemma replace_from_map lines b : b = true \/ Forall (fun l => is_org l = false) lines -> replace_from b lines = map name_port lines.
Proof.
  induction lines as [|line lines IH]; intros H; [done|]. cbn [replace_from map].
  assert (E : negb b && is_org line = false) by (destruct H as [->|[-> _]%Forall_cons]; [done|by rewrite andb_false_r]).
  rewrite E, IH; [done|]. destruct H as [H|[_ H]%Forall_cons]; auto.
Qed.

(** ** Properties *)

(** C29: the listings say the same as before.  What the assembler reads of the lines
    defb2str.py writes, all bytes in their places between the other lines, is what
    it reads of the lines it was given, whatever they are.  portnames.py inserts,
    behind the first org line only, an empty line and one EQU line for each of its
    ports, whose numbers and names are all different; every other line is kept, or
    has one port number, exactly as the name's EQU line defines it, replaced by the
    name.  In a file without an org line the names are used but never defined. *)
Theorem listings_are_kept lines :
  seen (collapse_defb_strings lines) = seen lines
  /\ (forall pre org post, lines = pre ++ org :: post -> Forall (fun l => is_org l = false) pre -> is_org org = true ->
       replace_ports lines = map name_port pre ++ org :: [10] :: map equ_line PORTS ++ map name_port post)
  /\ (Forall (fun l => is_org l = false) lines -> replace_ports lines = map name_port lines)
  /\ (forall line, name_port line = line \/ exists before g n name rest,
       (n, name) ∈ PORTS /\ line = before ++ g ++ port_literal n ++ rest /\ name_port line = before ++ g ++ name ++ rest)
  /\ NoDup (map fst PORTS) /\ NoDup (map snd PORTS).
Proof.
  split_and!.
  - by apply seen_collapse.
  - intros pre org post -> Hpre Horg. unfold replace_ports. induction Hpre as [|l pre Hl Hpre IH]; cbn [app replace_from map].
    + rewrite Horg. cbn [negb andb]. rewrite equ_lines, replace_from_map by auto. done.
    + rewrite Hl. cbn [negb andb]. by rewrite IH.
  - intros H. apply replace_from_map. by right.
  - apply name_port_text.
  - apply (bool_decide_unpack _). by vm_compute.
  - apply (bool_decide_unpack _). by vm_compute.
Qed.

Lemma listings_are_kept_witness :
  let org := 9 :: chars "org 00000h" ++ [10] in
  let ins := 9 :: chars "out (005h)" in
  let lines := [org; ins ++ chars ",a"; 9 :: chars "defb 048h	;H"] in
  Forall (fun l => is_org l = false) [] /\ is_org org = true /\
  replace_ports lines = org :: [10] :: map equ_line PORTS ++ [9 :: chars "out (FDD),a"; 9 :: chars "defb 048h	;H"].
Proof.
  intros org ins lines. assert (H1 : Forall (fun l => is_org l = false) []) by constructor.
  assert (H2 : is_org org = true) by (by vm_compute). split_and!; [exact H1|exact H2|].
  exact (proj1 (proj2 (listings_are_kept lines)) [] org [ins ++ chars ",a"; 9 :: chars "defb 048h	;H"] eq_refl H1 H2).
Defined.
