(* ===== verification/DiffBios.v ===== *)
(** * Two BIOS releases, compared instruction by instruction: rcbios/diff_bios.py.

    [diff_bios] is what main finds in the two reference binaries, as the numbers and
    bytes it prints; the bytes it prints without comparing them, and the layout of
    the report, are left out. *)

From S2P Require Import Prelude Verify.
#[local] Open Scope Z_scope.

Definition BASE : Z := 55808.

(** ** Lengths of instructions *)

Definition single_byte : list Z :=
  [0x00; 0x02; 0x03; 0x04; 0x05; 0x07; 0x08; 0x09; 0x0A; 0x0B; 0x0C; 0x0D; 0x0F;
   0x12; 0x13; 0x14; 0x15; 0x17; 0x19; 0x1A; 0x1B; 0x1C; 0x1D; 0x1F;
   0x23; 0x24; 0x25; 0x27; 0x29; 0x2B; 0x2C; 0x2D; 0x2F;
   0x33; 0x34; 0x35; 0x37; 0x39; 0x3B; 0x3C; 0x3D; 0x3F]
  ++ seqZ 0x40 128 ++
  [0xC0; 0xC1; 0xC5; 0xC8; 0xC9; 0xD0; 0xD1; 0xD5; 0xD8; 0xD9;
   0xE0; 0xE1; 0xE3; 0xE5; 0xE8; 0xE9; 0xEB; 0xF0; 0xF1; 0xF3;
   0xF5; 0xF8; 0xF9; 0xFB].

Definition two_byte : list Z :=
  [0x06; 0x0E; 0x10; 0x16; 0x18; 0x1E; 0x20; 0x26; 0x28; 0x2E;
   0x30; 0x36; 0x38; 0x3E; 0xC6; 0xCE; 0xD3; 0xD6; 0xDB; 0xDE; 0xE6; 0xEE; 0xF6; 0xFE].

Definition mem (x : Z) (l : list Z) : bool := existsb (Z.eqb x) l.

(** The length the code at the head of the list has. *)
Definition z80_insn_len (code : bytes) : nat :=
  match code with
  | [] => 1
  | b :: code' =>
      if (b =? 0xCB) || (b =? 0xED) then
        match code' with
        | [] => 2
        | b2 :: _ => if (b =? 0xED) && ((Z.land b2 0xCF =? 0x43) || (Z.land b2 0xCF =? 0x4B)) then 4 else 2
        end
      else if (b =? 0xDD) || (b =? 0xFD) then
        match code' with
        | [] => 2
        | b2 :: _ =>
            if b2 =? 0xCB then 4
            else if mem b2 [0x22; 0x2A; 0x36] then 4 else if b2 =? 0x21 then 3 else 2
        end
      else if mem b single_byte then 1
      else if mem b two_byte then 2
      else if Z.land b 0xC7 =? 0xC7 then 1
      else 3
  end.

(** ** The walk *)

(** [bs[i] | (bs[i + 1] << 8)]. *)
Definition word_at (bs : bytes) (i : nat) : outcome Z :=
  lo ← index bs i; hi ← index bs (S i); Ret (Z.lor lo (Z.shiftl hi 8)).

(** The two addresses of instructions of equal length [len] and opcode, if they
    have one. *)
Definition addresses (len : nat) (b21 b22 : bytes) : outcome (option (Z * Z)) :=
  if (len =? 3)%nat then
    a21 ← word_at b21 1; a22 ← word_at b22 1; Ret (Some (a21, a22))
  else if (len =? 4)%nat && bool_decide (take 1 b21 = [0xED]) && bool_decide (take 2 b21 = take 2 b22) then
    a21 ← word_at b21 2; a22 ← word_at b22 2; Ret (Some (a21, a22))
  else Ret None.

Inductive kind : Set := Identical | Propagated | Genuine.

(** Code addresses move with the code; addresses of variables, from EE80h on, by
    anything from 1 to 63. *)
Definition moved (shift a21 a22 : Z) : bool :=
  (a22 - a21 =? shift) || ((0xEE80 <=? a21) && (0 <? a22 - a21) && (a22 - a21 <? 64)).

Definition judge_pair (shift : Z) (len21 len22 : nat) (b21 b22 : bytes) : outcome kind :=
  if bool_decide (b21 = b22) then Ret Identical
  else if (len21 =? len22)%nat && (3 <=? len21)%nat && bool_decide (take 1 b21 = take 1 b22) then
    a ← addresses len21 b21 b22;
    match a with
    | Some (a21, a22) => Ret (if moved shift a21 a22 then Propagated else Genuine)
    | None => Ret Genuine
    end
  else Ret Genuine.

Record found : Type := Found { identical_count : Z; addr_prop_count : Z; genuine_diffs : list (nat * nat * bytes * bytes); ends : nat * nat }.

Definition counted (k : kind) (p21 p22 : nat) (b21 b22 : bytes) (f : found) : found :=
  match k with
  | Identical => Found (identical_count f + 1) (addr_prop_count f) (genuine_diffs f) (ends f)
  | Propagated => Found (identical_count f) (addr_prop_count f + 1) (genuine_diffs f) (ends f)
  | Genuine => Found (identical_count f) (addr_prop_count f) ((p21, p22, b21, b22) :: genuine_diffs f) (ends f)
  end.

Section Walk.
Context (ref21 ref22 : bytes) (end21 end22 : nat).

Fixpoint walk (fuel : nat) (p21 p22 : nat) : outcome found :=
  if negb ((p21 <? end21)%nat && (p22 <? end22)%nat) then Ret (Found 0 0 [] (p21, p22)) else
  match fuel with
  | O => Raise OutOfFuel
  | S fuel =>
      let len21 := z80_insn_len (drop p21 ref21) in
      let len22 := z80_insn_len (drop p22 ref22) in
      let b21 := take len21 (drop p21 ref21) in
      let b22 := take len22 (drop p22 ref22) in
      k ← judge_pair (Z.of_nat p22 - Z.of_nat p21) len21 len22 b21 b22;
      f ← walk fuel (p21 + len21) (p22 + len22);
      Ret (counted k p21 p22 b21 b22 f)
  end.
End Walk.

(** ** main *)

Definition find (pattern ref : bytes) (start : nat) : Z :=
  match find_bytes pattern ref start with Some p => Z.of_nat p | None => -1 end.

(** The jump at offset [i]: [assert] of both opcodes, and the two addresses. *)
Definition jump_at (ref21 ref22 : bytes) (i : nat) : outcome (Z * Z) :=
  o21 ← index ref21 i;
  if negb (o21 =? 0xC3) then Raise AssertionError else
  o22 ← index ref22 i;
  if negb (o22 =? 0xC3) then Raise AssertionError else
  a21 ← word_at ref21 (S i); a22 ← word_at ref22 (S i);
  Ret (a21, a22).

Fixpoint jumps_from (ref21 ref22 : bytes) (i : nat) (labels : list str) : outcome (list (str * Z * Z)) :=
  match labels with
  | [] => Ret []
  | label :: labels' =>
      '(a21, a22) ← jump_at ref21 ref22 i;
      rest ← jumps_from ref21 ref22 (i + 3) labels';
      Ret ((label, a21, a22) :: rest)
  end.

Definition JUMPS : list str :=
  map chars ["BOOT"; "WBOOT"; "CONST"; "CONIN"; "CONOUT"; "LIST"; "PUNCH"; "READER"; "HOME"; "SELD"; "SETT"; "SETS"; "SETD"; "XREAD"; "XWRITE"; "STLIST"]%string.
Definition names : list str := map chars ["WFITR"; "READS"; "LINSEL"; "EXIT"; "CLOCK"; "HRDFMT"]%string.

(** The places at which the files differ, with both bytes. *)
Fixpoint differing (ref21 ref22 : bytes) (d21 d22 : nat) (places : list nat) : outcome (list (nat * Z * Z)) :=
  match places with
  | [] => Ret []
  | i :: places' =>
      x ← index ref21 (d21 + i); y ← index ref22 (d22 + i);
      rest ← differing ref21 ref22 d21 d22 places';
      Ret (if x =? y then rest else (i, x, y) :: rest)
  end.

(** [all(ref[pos + j] == 0 for j in ...)]. *)
Fixpoint all_zero (ref : bytes) (pos n : nat) : outcome bool :=
  match n with
  | O => Ret true
  | S n => b ← index ref pos; if b =? 0 then all_zero ref (S pos) n else Ret false
  end.

(** The instructions in PAD1 of the second file, each with its position. *)
Fixpoint pad1_from (fuel : nat) (ref22 : bytes) (pos : nat) : outcome (list (nat * bytes)) :=
  match fuel with
  | O => Raise OutOfFuel
  | S fuel =>
      if (pos <? 0x6F)%nat then
        b ← index ref22 pos;
        z ← (if b =? 0 then all_zero ref22 pos (Nat.min 3 (0x6F - pos)) else Ret false);
        if (z : bool) then Ret [] else
        let len := z80_insn_len (drop pos ref22) in
        rest ← pad1_from fuel ref22 (pos + len);
        Ret ((pos, take len (drop pos ref22)) :: rest)
      else Ret []
  end.

Definition hderr_str : bytes := chars "Cannot read configuration record".
Definition tran0 : bytes := [1; 7; 13; 19; 25; 5; 11; 17].
Definition dpbase (ref : bytes) : Z :=
  let dumitr := find EI_RETI ref (Z.to_nat 0x1000) in if 0 <? dumitr then dumitr - 112 else zlength ref.

Definition MODULES : list (Z * Z * str) :=
  map (fun m => (fst m, chars (snd m)))
   [((0x00E1, 0x01C1), "CPMBOOT (code)"); ((0x0280, 0x0300), "SIO"); ((0x0300, 0x0700), "DISPLAY"); ((0x0700, 0x0930), "FLOPPY");
    ((0x0930, 0x0B30), "HARDDSK"); ((0x0B30, 0x1178), "DISKTAB")]%string.
Fixpoint module_of (ms : list (Z * Z * str)) (off : Z) : str :=
  match ms with
  | [] => chars "UNKNOWN"
  | (mstart, mend, mname) :: ms' => if (mstart <=? off) && (off <? mend) then mname else module_of ms' off
  end.

Record report : Type := Report {
  signon_ends : Z * Z;
  jump_table : list (str * Z * Z);
  variables : list (nat * Z * Z);
  extended_entries : list (str * Z * Z);
  pad1 : list (nat * bytes);
  hderr_ends : Z * Z;
  message_diffs : list (nat * Z * Z);
  dpbases : Z * Z;
  code : found;
  modules : list str;
  table_diffs : option (Z * list (nat * Z * Z))
}.

Definition diff_bios (ref21 ref22 : bytes) : outcome report :=
  let signons := (find (chars "rel.2.1") ref21 0 + 7, find (chars "rel. 2.2") ref22 0 + 8) in
  jumps ← jumps_from ref21 ref22 0 JUMPS;
  vars ← differing ref21 ref22 0 0 (seq 0x30 (0x48 - 0x30));
  extended ← jumps_from ref21 ref22 0x4A names;
  pads ← pad1_from 20 ref22 0x5C;
  let hderr_end21 := find hderr_str ref21 0 + zlength hderr_str + 3 in
  let hderr_end22 := find hderr_str ref22 0 + zlength hderr_str + 3 in
  msgs ← differing ref21 ref22 0 0 (seq 0x71 (Z.to_nat (Z.min hderr_end21 hderr_end22) - 0x71));
  let dpbase21 := dpbase ref21 in
  let dpbase22 := dpbase ref22 in
  f ← walk ref21 ref22 (Z.to_nat dpbase21) (Z.to_nat dpbase22) (S (Z.to_nat dpbase21)) (Z.to_nat hderr_end21) (Z.to_nat hderr_end22);
  let mods := map (fun d => module_of MODULES (Z.of_nat (fst (fst (fst d))))) (genuine_diffs f) in
  let tran0_21 := find tran0 ref21 0 in
  let tran0_22 := find tran0 ref22 0 in
  tables ← (if (0 <=? tran0_21) && (0 <=? tran0_22) then
              diffs ← differing ref21 ref22 (Z.to_nat tran0_21) (Z.to_nat tran0_22)
                        (seq 0 (Z.to_nat (Z.min (dpbase21 - tran0_21) (dpbase22 - tran0_22))));
              Ret (Some (tran0_22 - tran0_21, diffs))
            else Ret None);
  Ret (Report signons jumps vars extended pads (hderr_end21, hderr_end22) msgs (dpbase21, dpbase22) f mods tables).

(** ** The documented lengths *)

(** By the fields of the opcode: bits 7-6, 5-3 and 2-0. *)
Definition insn_length (op : Z) : nat :=
  let x := Z.shiftr op 6 in let y := Z.land (Z.shiftr op 3) 7 in let z := Z.land op 7 in
  let q := Z.land y 1 in
  if x =? 0 then
    if z =? 0 then if y <? 2 then 1 else 2
    else if z =? 1 then if q =? 0 then 3 else 1
    else if z =? 2 then if y <? 4 then 1 else 3
    else if z =? 6 then 2 else 1
  else if x =? 3 then
    if z =? 2 then 3
    else if z =? 3 then if y =? 0 then 3 else if (y =? 2) || (y =? 3) then 2 else 1
    else if z =? 4 then 3
    else if z =? 5 then if y =? 1 then 3 else 1
    else if z =? 6 then 2 else 1
  else 1.

(** Instructions with IX: those that name it, and those with an operand in memory,
    which have a displacement. *)
Definition index_length (op : Z) : option nat :=
  if mem op [0x09; 0x19; 0x29; 0x39; 0x23; 0x2B; 0xE1; 0xE3; 0xE5; 0xE9; 0xF9] then Some 2%nat
  else if mem op [0x21; 0x22; 0x2A; 0x36; 0xCB] then Some 4%nat
  else if mem op [0x34; 0x35] || ((0x46 <=? op) && (op <? 0xC0) && (Z.land op 7 =? 6) && negb (op =? 0x76))
          || ((0x70 <=? op) && (op <? 0x78) && negb (op =? 0x76)) then Some 3%nat
  else None.

(** Those the script takes for shorter ones. *)
Definition too_short (op : Z) : bool := bool_decide (index_length op = Some 3%nat) || (op =? 0x21).

Definition prefix (op : Z) : bool := mem op [0xCB; 0xDD; 0xED; 0xFD].

Lemma unprefixed_lengths : Forall (fun op => prefix op = true \/ z80_insn_len [op] = insn_length op) (seqZ 0 256).
Proof. apply (bool_decide_unpack _). by vm_compute. Qed.

Lemma index_lengths : Forall (fun op => forall n, index_length op = Some n -> (z80_insn_len [0xDD; op] = n <-> too_short op = false)) (seqZ 0 256).
Proof.
  assert (F : Forall (fun op => match index_length op with Some n => Bool.eqb (bool_decide (z80_insn_len [0xDD; op] = n)) (negb (too_short op)) | None => true end = true) (seqZ 0 256)).
  { apply (bool_decide_unpack _). by vm_compute. }
  eapply Forall_impl; [exact F|]. cbv beta. intros op H n E. rewrite E in H. apply Bool.eqb_prop in H. destruct (too_short op); cbn [negb] in H.
  - apply bool_decide_eq_false in H. by split.
  - by apply bool_decide_eq_true in H.
Qed.

Lemma in_bytes b : is_byte b -> b ∈ seqZ 0 256.
Proof. intros H. apply elem_of_seqZ. unfold is_byte in H. lia. Qed.

Lemma lengths_documented op rest : is_byte op -> prefix op = false -> z80_insn_len (op :: rest) = insn_length op.
Proof.
  intros Hb Hp. destruct (proj1 (Forall_forall _ _) unprefixed_lengths op (in_bytes op Hb)) as [H|H]; [by rewrite H in Hp|].
  rewrite <- H. unfold prefix, mem in Hp. cbn [existsb] in Hp.
  apply orb_false_iff in Hp as [P1 Hp]. apply orb_false_iff in Hp as [P2 Hp]. apply orb_false_iff in Hp as [P3 Hp]. apply orb_false_iff in Hp as [P4 _].
  cbn [z80_insn_len]. by rewrite P1, P2, P3, P4.
Qed.

Lemma insn_len_bounds code : (1 <= z80_insn_len code <= 4)%nat.
Proof. unfold z80_insn_len. repeat case_match; lia. Qed.

(** ** The walk ends *)

Lemma word_at_in bs i : (S i < length bs)%nat -> exists w, word_at bs i = Ret w.
Proof.
  intros H. destruct (lookup_lt_is_Some_2 bs i ltac:(lia)) as [x Hx], (lookup_lt_is_Some_2 bs (S i) H) as [y Hy].
  unfold word_at. rewrite (index_in _ _ _ Hx), (index_in _ _ _ Hy). by eexists.
Qed.

Lemma judge_total shift len21 len22 b21 b22 : length b21 = len21 -> length b22 = len22 -> exists k, judge_pair shift len21 len22 b21 b22 = Ret k.
Proof.
  intros H1 H2. unfold judge_pair. case_bool_decide; [by eexists|]. destruct (_ && _) eqn:E; [|by eexists].
  apply andb_true_iff in E as [[->%Nat.eqb_eq _]%andb_true_iff _]. unfold addresses.
  destruct (Nat.eqb_spec len22 3) as [->|].
  { destruct (word_at_in b21 1 ltac:(lia)) as [w ->], (word_at_in b22 1 ltac:(lia)) as [w' ->]. by eexists. }
  destruct (Nat.eqb_spec len22 4) as [->|]; [|by eexists]. cbn [andb]. destruct (_ && _); [|by eexists].
  destruct (word_at_in b21 2 ltac:(lia)) as [w ->], (word_at_in b22 2 ltac:(lia)) as [w' ->]. by eexists.
Qed.

Section Walked.
Context (ref21 ref22 : bytes) (end21 end22 : nat).

Lemma walk_total fuel : (end21 + 3 <= length ref21)%nat -> (end22 + 3 <= length ref22)%nat ->
  forall p21 p22, (end21 < fuel + p21)%nat -> exists f, walk ref21 ref22 end21 end22 fuel p21 p22 = Ret f.
Proof.
  intros H1 H2. induction fuel as [|fuel IH]; intros p21 p22 Hf; cbn [walk].
  - rewrite (proj2 (Nat.ltb_ge p21 end21)) by lia. by eexists.
  - destruct (Nat.ltb_spec p21 end21), (Nat.ltb_spec p22 end22); cbn [negb andb]; try (by eexists). cbv zeta.
    set (l1 := z80_insn_len (drop p21 ref21)). set (l2 := z80_insn_len (drop p22 ref22)).
    pose proof (insn_len_bounds (drop p21 ref21)) as B1. pose proof (insn_len_bounds (drop p22 ref22)) as B2. fold l1 in B1. fold l2 in B2.
    destruct (judge_total (Z.of_nat p22 - Z.of_nat p21) l1 l2 (take l1 (drop p21 ref21)) (take l2 (drop p22 ref22))) as [k ->].
    1,2: rewrite length_take, length_drop; lia.
    cbn [mbind outcome_bind]. destruct (IH (p21 + l1)%nat (p22 + l2)%nat ltac:(lia)) as [f ->]. by eexists.
Qed.

(** ** What no genuine difference means *)

Definition address_of (b : bytes) (a : Z) : Prop :=
  (length b = 3%nat /\ word_at b 1 = Ret a) \/ (length b = 4%nat /\ take 1 b = [0xED] /\ word_at b 2 = Ret a).

(** Two instructions that differ at most by an address that moved. *)
Definition relocated (shift : Z) (p : bytes * bytes) : Prop :=
  length (fst p) = length (snd p) /\
  (fst p = snd p \/ take 1 (fst p) = take 1 (snd p) /\
    exists a21 a22, address_of (fst p) a21 /\ address_of (snd p) a22 /\
      (a22 = a21 + shift \/ 0xEE80 <= a21 /\ 0 < a22 - a21 < 64)).

Lemma moved_by shift a21 a22 : moved shift a21 a22 = true -> a22 = a21 + shift \/ 0xEE80 <= a21 /\ 0 < a22 - a21 < 64.
Proof. unfold moved. lia. Qed.

(** How many of the pairs are equal. *)
Definition equal_pairs (ps : list (bytes * bytes)) : Z := zlength (filter (fun p => fst p = snd p) ps).

Lemma judge_relocated shift len21 len22 b21 b22 k : length b21 = len21 -> length b22 = len22 ->
  judge_pair shift len21 len22 b21 b22 = Ret k -> k <> Genuine -> relocated shift (b21, b22).
Proof.
  intros H1 H2 H Hk. unfold judge_pair in H. unfold relocated. cbn [fst snd].
  case_bool_decide as E; [subst b22; by split; [|left]|]. destruct (_ && _) eqn:C; [|by injection H as <-].
  apply andb_true_iff in C as [[C1%Nat.eqb_eq _]%andb_true_iff C3%bool_decide_eq_true]. split; [lia|]. right. split; [done|].
  unfold addresses in H. destruct (Nat.eqb_spec len21 3) as [E3|E3].
  - destruct (word_at b21 1) as [a21|] eqn:W1; [|done]. cbn [mbind outcome_bind] in H.
    destruct (word_at b22 1) as [a22|] eqn:W2; [|done]. cbn [mbind outcome_bind] in H.
    destruct (moved shift a21 a22) eqn:M; [|by injection H as <-]. exists a21, a22. split_and!; [left; split; [lia|done]|left; split; [lia|done]|by apply moved_by].
  - destruct (Nat.eqb_spec len21 4) as [E4|E4]; [|by injection H as <-]. cbn [andb] in H.
    destruct (_ && _) eqn:C in H; [|by injection H as <-]. apply andb_true_iff in C as [C4%bool_decide_eq_true _].
    destruct (word_at b21 2) as [a21|] eqn:W1; [|done]. cbn [mbind outcome_bind] in H.
    destruct (word_at b22 2) as [a22|] eqn:W2; [|done]. cbn [mbind outcome_bind] in H.
    destruct (moved shift a21 a22) eqn:M; [|by injection H as <-]. exists a21, a22.
    split_and!; [right; split_and!; [lia|done|done]|right; split_and!; [lia|by rewrite <- C3|done]|by apply moved_by].
Qed.

Lemma judge_identical shift len21 len22 b21 b22 k : judge_pair shift len21 len22 b21 b22 = Ret k -> (k = Identical <-> b21 = b22).
Proof.
  unfold judge_pair. case_bool_decide as E; [by intros [= <-]|]. intros H. split; [intros ->|done].
  destruct (_ && _); [|done]. destruct (addresses _ _ _) as [[[a21 a22]|]|]; cbn [mbind outcome_bind] in H; [by destruct (moved _ _ _)|done|done].
Qed.

Lemma equal_pairs_cons p ps : equal_pairs (p :: ps) = (if decide (fst p = snd p) then 1 else 0) + equal_pairs ps.
Proof. unfold equal_pairs, zlength. rewrite filter_cons. case_decide; cbn [length]; lia. Qed.

Lemma walk_relocated fuel : (end21 + 3 <= length ref21)%nat -> (end22 + 3 <= length ref22)%nat ->
  forall p21 p22 f, walk ref21 ref22 end21 end22 fuel p21 p22 = Ret f -> genuine_diffs f = [] ->
  exists ps, Forall (relocated (Z.of_nat p22 - Z.of_nat p21)) ps /\
    drop p21 ref21 = concat (map fst ps) ++ drop (fst (ends f)) ref21 /\
    drop p22 ref22 = concat (map snd ps) ++ drop (snd (ends f)) ref22 /\
    (end21 <= fst (ends f) \/ end22 <= snd (ends f))%nat /\
    identical_count f = equal_pairs ps /\ addr_prop_count f = zlength ps - equal_pairs ps.
Proof.
  intros H1 H2. induction fuel as [|fuel IH]; intros p21 p22 f H Hg; cbn [walk] in H;
    destruct (Nat.ltb_spec p21 end21) as [L1|L1], (Nat.ltb_spec p22 end22) as [L2|L2]; cbn [negb andb] in H; try done;
    try (injection H as <-; exists []; unfold equal_pairs; cbn; split_and!; try done; lia).
  cbv zeta in H. set (l1 := z80_insn_len (drop p21 ref21)) in *. set (l2 := z80_insn_len (drop p22 ref22)) in *.
  pose proof (insn_len_bounds (drop p21 ref21)) as B1. pose proof (insn_len_bounds (drop p22 ref22)) as B2. fold l1 in B1. fold l2 in B2.
  set (b1 := take l1 (drop p21 ref21)) in *. set (b2 := take l2 (drop p22 ref22)) in *.
  assert (Len1 : length b1 = l1) by (unfold b1; rewrite length_take, length_drop; lia).
  assert (Len2 : length b2 = l2) by (unfold b2; rewrite length_take, length_drop; lia).
  destruct (judge_pair _ _ _ b1 b2) as [k|] eqn:J; [|done]. cbn [mbind outcome_bind] in H.
  destruct (walk _ _ _ _ fuel (p21 + l1) (p22 + l2)) as [f'|] eqn:W; [|done]. injection H as <-.
  assert (Hk : k <> Genuine) by (by intros ->). assert (Hg' : genuine_diffs f' = []) by (by destruct k).
  pose proof (judge_relocated _ _ _ _ _ _ Len1 Len2 J Hk) as R.
  destruct (IH _ _ _ W Hg') as (ps & Hps & D1 & D2 & He & Hc1 & Hc2). exists ((b1, b2) :: ps).
  assert (Hl : l1 = l2) by (destruct R as [R _]; cbn [fst snd] in R; lia).
  replace (Z.of_nat (p22 + l2) - Z.of_nat (p21 + l1)) with (Z.of_nat p22 - Z.of_nat p21) in Hps by lia.
  assert (Ee : ends (counted k p21 p22 b1 b2 f') = ends f') by (by destruct k). rewrite Ee. cbn [map concat fst snd].
  split_and!; [by constructor| | |done| |].
  - rewrite <- app_assoc, <- D1, <- drop_drop. unfold b1. by rewrite take_drop.
  - rewrite <- app_assoc, <- D2, <- drop_drop. unfold b2. by rewrite take_drop.
  - rewrite equal_pairs_cons. cbn [fst snd]. pose proof (judge_identical _ _ _ _ _ _ J) as Ji.
    destruct k; cbn [counted identical_count]; [rewrite decide_True by (by apply Ji); lia| |done].
    rewrite decide_False by (intros E%Ji; done). lia.
  - rewrite equal_pairs_cons. cbn [fst snd]. pose proof (judge_identical _ _ _ _ _ _ J) as Ji.
    assert (zlength ((b1, b2) :: ps) = 1 + zlength ps) as -> by (unfold zlength; cbn [length]; lia).
    destruct k; cbn [counted addr_prop_count]; [rewrite decide_True by (by apply Ji); lia| |done].
    rewrite decide_False by (intros E%Ji; done). lia.
Qed.
End Walked.

Lemma walk_same ref e fuel : forall p f, walk ref ref e e fuel p p = Ret f -> genuine_diffs f = [] /\ addr_prop_count f = 0.
Proof.
  induction fuel as [|fuel IH]; intros p f H; cbn [walk] in H; destruct (Nat.ltb_spec p e); cbn [negb andb] in H; try done; try (by injection H as <-).
  cbv zeta in H. unfold judge_pair in H. rewrite bool_decide_eq_true_2 in H by done. cbn [mbind outcome_bind] in H.
  destruct (walk _ _ _ _ fuel _ _) as [f'|] eqn:W; [|done]. injection H as <-. by apply IH in W.
Qed.

(** An AF (XOR A) put in front of four instructions. *)
Definition old_code : bytes := [0x3E; 1; 6; 2; 0x0E; 3; 0xC9; 0; 0; 0].
Definition new_code : bytes := 0xAF :: old_code.

Lemma len_cb x rest : z80_insn_len (0xCB :: x :: rest) = 2%nat.
Proof. done. Qed.

Lemma len_ed x rest : is_byte x -> z80_insn_len (0xED :: x :: rest) = if mem x [0x43; 0x4B; 0x53; 0x5B; 0x63; 0x6B; 0x73; 0x7B] then 4%nat else 2%nat.
Proof.
  intros Hx. assert (F : Forall (fun x => z80_insn_len [0xED; x] = if mem x [0x43; 0x4B; 0x53; 0x5B; 0x63; 0x6B; 0x73; 0x7B] then 4%nat else 2%nat) (seqZ 0 256)).
  { apply (bool_decide_unpack _). by vm_compute. }
  by apply (proj1 (Forall_forall _ _) F), in_bytes.
Qed.

Lemma len_index p x rest n : p = 0xDD \/ p = 0xFD -> is_byte x -> index_length x = Some n ->
  (z80_insn_len (p :: x :: rest) = n <-> too_short x = false).
Proof. intros [->| ->] Hx; exact (proj1 (Forall_forall _ _) index_lengths x (in_bytes x Hx) n). Qed.

(** C30: two releases are compared.  [z80_insn_len] is the documented length of
    every instruction without an index prefix; of the documented ones with one it is
    wrong, too short, exactly for LD IX,nn and those with a displacement but LD
    (IX+d),n and the CB group.  The walk ends for any two files that reach three bytes
    beyond its ends.  When it reports no genuine difference, what it walked in both
    files is the same instructions one by one, equal or with the same opcode and an
    address that moved with the code or, from EE80h on, by 1 to 63, the shift being
    the one it started with; the numbers it counts are those of the equal and of the
    moved instructions.  A file compared with itself shows nothing.  In an example with an
    instruction inserted in front, all four instructions behind it are reported: the walk
    compares pairwise on and does not find its way back there. *)
Theorem releases_are_compared ref21 ref22 end21 end22 p21 p22 :
  (end21 + 3 <= length ref21)%nat -> (end22 + 3 <= length ref22)%nat ->
  (forall op rest, is_byte op -> prefix op = false -> z80_insn_len (op :: rest) = insn_length op)
  /\ (forall x rest, is_byte x -> z80_insn_len (0xCB :: x :: rest) = 2%nat /\
       z80_insn_len (0xED :: x :: rest) = if mem x [0x43; 0x4B; 0x53; 0x5B; 0x63; 0x6B; 0x73; 0x7B] then 4%nat else 2%nat)
  /\ (forall p x rest n, p = 0xDD \/ p = 0xFD -> is_byte x -> index_length x = Some n ->
       (z80_insn_len (p :: x :: rest) = n <-> too_short x = false))
  /\ (exists f, walk ref21 ref22 end21 end22 (S end21) p21 p22 = Ret f /\
       (genuine_diffs f = [] ->
        exists ps, Forall (relocated (Z.of_nat p22 - Z.of_nat p21)) ps /\
          drop p21 ref21 = concat (map fst ps) ++ drop (fst (ends f)) ref21 /\
          drop p22 ref22 = concat (map snd ps) ++ drop (snd (ends f)) ref22 /\
          (end21 <= fst (ends f) \/ end22 <= snd (ends f))%nat /\
          identical_count f = equal_pairs ps /\ addr_prop_count f = zlength ps - equal_pairs ps))
  /\ (exists f, walk ref21 ref21 end21 end21 (S end21) p21 p21 = Ret f /\ genuine_diffs f = [] /\ addr_prop_count f = 0)
  /\ walk old_code new_code 7 8 8 0 0 =
       Ret (Found 0 0 [(0%nat, 0%nat, [0x3E; 1], [0xAF]); (2%nat, 1%nat, [6; 2], [0x3E; 1]); (4%nat, 3%nat, [0x0E; 3], [6; 2]);
                       (6%nat, 5%nat, [0xC9], [0x0E; 3])] (7%nat, 7%nat)).
Proof.
  intros H1 H2. split_and!.
  - apply lengths_documented.
  - intros x rest Hx. split; [apply len_cb|by apply len_ed].
  - apply len_index.
  - destruct (walk_total ref21 ref22 end21 end22 (S end21) H1 H2 p21 p22 ltac:(lia)) as [f Hf]. exists f. split; [done|].
    intros Hg. by apply (walk_relocated ref21 ref22 end21 end22 (S end21) H1 H2).
  - destruct (walk_total ref21 ref21 end21 end21 (S end21) H1 H1 p21 p21 ltac:(lia)) as [f Hf]. exists f. split; [done|].
    by apply (walk_same ref21 end21 (S end21) p21).
  - by vm_compute.
Qed.

(** A call whose target moved by the two bytes inserted in front. *)
Lemma releases_are_compared_witness :
  let ref21 := [0xCD; 0x10; 0xDA; 0x21; 0x80; 0xEE; 0xC9; 0; 0; 0] in
  let ref22 := [1; 2; 0xCD; 0x12; 0xDA; 0x21; 0x85; 0xEE; 0xC9; 0; 0; 0] in
  exists f ps, walk ref21 ref22 7 9 8 0 2 = Ret f /\ Forall (relocated 2) ps /\
    drop 2 ref22 = concat (map snd ps) ++ drop (snd (ends f)) ref22 /\ zlength ps = 3.
Proof.
  intros ref21 ref22.
  destruct (releases_are_compared ref21 ref22 7 9 0 2 ltac:(cbn; lia) ltac:(cbn; lia)) as (_ & _ & _ & (f & Hf & H) & _).
  assert (E : walk ref21 ref22 7 9 8 0 2 = Ret (Found 1 2 [] (7%nat, 9%nat))) by (by vm_compute).
  rewrite E in Hf. injection Hf as <-. destruct (H eq_refl) as (ps & Hp & _ & D & _ & L1 & L2).
  exists (Found 1 2 [] (7%nat, 9%nat)), ps. split_and!; [exact E|exact Hp|exact D|].
  change (1 = equal_pairs ps) in L1. change (2 = zlength ps - equal_pairs ps) in L2. lia.
Defined.
