(* ===== verification/Confi.v ===== *)
(** * The listing of CONFI.COM: rcbios/sw1711_files/annotate_confi.py.

    The script shows the data part of the configuration program as source for an
    assembler: its strings decoded ([decode_string]) and as DB lines, its menus and
    buffers as DS lines, its tables of baud rates.  [annotate_confi] is the lines it
    prints, encoded in UTF-8, or the exception; what it printed before an exception is
    left out.  The tables COMMENTS and DATA_REGIONS, which nothing uses, are left out. *)

From S2P Require Import Prelude Imd Hex Text Labels Verify ConvTables.
#[local] Open Scope Z_scope.

Definition LABELS : list (Z * string) :=
  [
   (0x0100, "entry"); (0x0110, "drive_select"); (0x013A, "drive_ok"); (0x013F, "main_sequence");
   (0x015F, "exit_warmboot"); (0x0162, "main_menu"); (0x0176, ".jt_main"); (0x0182, "submenu_terminal");
   (0x0196, ".jt_terminal"); (0x01A0, "submenu_printer"); (0x01B4, ".jt_printer"); (0x01BE, "stopbits_sioa");
   (0x01C4, "stopbits_siob"); (0x01CA, "stopbits_common"); (0x01EB, "parity_sioa"); (0x01F1, "parity_siob");
   (0x01F7, "parity_common"); (0x0216, "baudrate_sioa"); (0x022B, "prog_ctc_ch0"); (0x0235, "baudrate_siob");
   (0x024A, "prog_ctc_ch1"); (0x0254, "baudrate_menu"); (0x0275, "prog_sio_a"); (0x0281, "prog_sio_b");
   (0x028D, "txbits_sioa"); (0x029A, "rxbits_sioa"); (0x02A1, "txbits_siob"); (0x02AE, "rxbits_siob_ret");
   (0x02AF, "txbits_common"); (0x02DA, "rxbits_common"); (0x0302, "submenu_conversion"); (0x0329, "copy_conv_to_bios");
   (0x0340, "submenu_cursor"); (0x0354, ".jt_cursor"); (0x0358, "cursor_format"); (0x037E, "prog_crt");
   (0x039F, "cursor_addressing"); (0x03B6, "submenu_motor"); (0x03DC, "save_config"); (0x03E2, "disk_rw_sector");
   (0x03F6, "disk_rw_config"); (0x0487, "mul10"); (0x048E, "mul100"); (0x0497, "div50"); (0x04A7, "print_decimal");
   (0x04C4, "print_digit"); (0x04E7, "menu_handler"); (0x0567, "input_buf"); (0x0568, "input_count");
   (0x0569, "input_data"); (0x0573, "jt_dispatch"); (0x057C, "print_string"); (0x05B7, "handle_xy");
   (0x05D9, "disk_error"); (0x05E4, "str_banner"); (0x061C, "str_drive_prompt"); (0x064B, "str_disk_error");
   (0x0659, "str_main_menu"); (0x0709, "str_terminal_menu"); (0x0803, "str_cursor_format"); (0x088A, "str_conversion");
   (0x0928, "str_stopbits"); (0x097B, "str_parity"); (0x09C4, "str_baudrate"); (0x0AC7, "str_printer_menu");
   (0x0B5F, "str_illegal"); (0x0B75, "str_txbits"); (0x0BE6, "str_rxbits"); (0x0C4F, "str_cursor_menu");
   (0x0C9D, "str_addressing"); (0x0CE6, "str_motor_header"); (0x0CDA, "str_choice"); (0x0D26, "str_motor_range");
   (0x0D5E, "drive_num"); (0x0D5F, "wr4_clock_tab"); (0x0D6A, "ctc_div_tab"); (0x0D75, "dma_buf_sec2");
   (0x0D76, "ctc_a_div"); (0x0D78, "ctc_b_div"); (0x0D7D, "sio_a_cfg"); (0x0D7F, "sio_a_wr4"); (0x0D81, "sio_a_wr3");
   (0x0D83, "sio_a_wr5"); (0x0D86, "sio_b_cfg"); (0x0D8A, "sio_b_wr4"); (0x0D8C, "sio_b_wr3"); (0x0D8E, "sio_b_wr5");
   (0x0D95, "crt_params"); (0x0D98, "crt_cursor"); (0x0D9D, "adr_mode"); (0x0D9E, "conv_idx"); (0x0D9F, "baud_a_idx");
   (0x0DA0, "baud_b_idx"); (0x0DA1, "motor_lo"); (0x0DA2, "motor_hl"); (0x0DF5, "dma_buf_sec3");
   (0x0E75, "dma_buf_sec4"); (0x0EF5, "dma_buf_sec5"); (0x0FF5, "conv_tables"); (0xDA0C, "BIOS_CONOUT");
   (0xDA1B, "BIOS_SELDSK"); (0xDA1E, "BIOS_SETTRK"); (0xDA21, "BIOS_SETSEC"); (0xDA24, "BIOS_SETDMA");
   (0xDA27, "BIOS_READ"); (0xDA2A, "BIOS_WRITE")
  ]%string.

Definition JUMP_TABLES : list (Z * nat) := [(0x0176, 6%nat); (0x0196, 5%nat); (0x01B4, 4%nat); (0x0354, 2%nat)].

(** [LABELS.get(addr, other)]. *)
Definition label_at (a : Z) (other : str) : str :=
  match List.find (fun p => fst p =? a) LABELS with Some p => chars (snd p) | None => other end.

(** A literal in which a tab is written as a tilde. *)
Definition tabbed (s : string) : str := map (fun c => if c =? 126 then 9 else c) (chars s).
Arguments tabbed s%_string.

(** [str(n)] of any integer. *)
Definition integer (n : Z) : str := if n <? 0 then 45 :: decimal (- n) else decimal n.

(** ** format_jump_table *)

Definition hex0h (w : nat) (n : Z) : str := chars "0" ++ fmt_hex w n ++ chars "h".

Fixpoint jump_lines (data : bytes) (off : nat) (i count : nat) : outcome (list str) :=
  match count with
  | O => Ret []
  | S count' =>
      lo ← index data off; hi ← index data (S off);
      let target := Z.lor lo (Z.shiftl hi 8) in
      rest ← jump_lines data (off + 2) (S i) count';
      Ret ((tabbed "~DW " ++ label_at target (hex0h 4 target) ++ tabbed "~~; option " ++ decimal (Z.of_nat (S i))) :: rest)
  end.

Definition format_jump_table (data : bytes) (addr : Z) (count : nat) : outcome (list str) :=
  jump_lines data (Z.to_nat (addr - 0x0100)) 0 count.

(** ** decode_string *)

(** How a byte is shown that stands for itself. *)
Definition shown (b : Z) : str :=
  if b =? 0x05 then chars "*" else if b =? 0x1F then chars "[CLR-EOS]" else if b =? 0x0C then chars "[FF]"
  else if b =? 0x0A then chars "\n" else if b =? 0x0D then chars "\r" else if b =? 0x07 then chars "[BEL]"
  else if (0x20 <=? b) && (b <? 0x7F) then [b] else chars "[" ++ fmt_hex 2 b ++ chars "]".

Definition position_text (h v : Z) : str := chars "[XY:" ++ integer (h - 0x20) ++ chars "," ++ integer (v - 0x20) ++ chars "]".

(** The text of the string at the front of [s], and its length. *)
Fixpoint decode_from (s : bytes) : outcome (str * Z) :=
  match s with
  | [] => Ret ([], 0)
  | b :: s1 =>
      if b =? 0 then Ret ([], 0)
      else if b =? 0x06 then
        match s1 with
        | h :: v :: s3 => '(t, n) ← decode_from s3; Ret (position_text h v ++ t, n + 3)
        | _ => Raise IndexError
        end
      else '(t, n) ← decode_from s1; Ret (shown b ++ t, n + 1)
  end.

Definition decode_string (data : bytes) (addr : Z) : outcome (str * Z) :=
  '(t, i) ← decode_from (dropZ (addr - 0x0100) data); Ret (t, i + 1).

(** ** The banner's strings *)

Definition quoted (s : str) : str := [34] ++ s ++ [34].

Definition DB (chunk : bytes) : str := tabbed "~DB " ++ join [44] (map (hex0h 2) chunk).

(** [data[off + i:off + i + min(16, length - i)]] for every sixteenth [i]. *)
Definition db_rows (data : bytes) (off len : nat) : list str :=
  map (fun k => DB (slice (off + 16 * k) (off + 16 * k + Nat.min 16 (len - 16 * k)) data)) (seq 0 ((len + 15) / 16)).

(** The line that names an address, if it has a name. *)
Definition label_line (addr : Z) : list str := match label_at addr [] with [] => [] | l => [l ++ [58]] end.

Definition banner_string (data : bytes) (addr : Z) (s : str) (len : Z) : list str :=
  label_line addr ++
  [if 70 <? zlength s then tabbed "~; " ++ quoted (take 70 s ++ chars "...") else tabbed "~; " ++ quoted s] ++
  db_rows data (Z.to_nat (addr - 0x0100)) (Z.to_nat len).

(** The lines, and the address at which the loop ends. *)
Fixpoint banner_strings (fuel : nat) (data : bytes) (addr : Z) : outcome (list str * Z) :=
  if negb (addr <? 0x0659) then Ret ([], addr) else
  match fuel with
  | O => Raise OutOfFuel
  | S fuel' =>
      '(s, len) ← decode_string data addr;
      '(rest, e) ← banner_strings fuel' data (addr + len);
      Ret (banner_string data addr s len ++ rest, e)
  end.

(** ** The menus *)

Definition menu_addrs : list Z :=
  merge_sort Z.le (map fst (filter (fun p => 0x0659 <= fst p < 0x0D5F /\ take 4 (chars (snd p)) = chars "str_") LABELS)).

(** [s.split] of a backslash and an n, the first part. *)
Definition first_line (s : str) : str := match find_bytes [92; 110] s 0 with Some p => take p s | None => s end.

Definition menu_lines (addr next_addr : Z) (s : str) : list str :=
  match label_at addr [] with [] => [] | l => [l ++ tabbed ":~~; 0x" ++ fmt_hex 4 addr] end ++
  [tabbed "~; " ++ quoted (take 80 (first_line s));
   tabbed "~; (" ++ integer (next_addr - addr) ++ chars " bytes)";
   tabbed "~DS " ++ integer (next_addr - addr)].

Fixpoint menu_strings (data : bytes) (addrs : list Z) : outcome (list str) :=
  match addrs with
  | [] => Ret []
  | addr :: addrs' =>
      '(s, _) ← decode_string data addr;
      rest ← menu_strings data addrs';
      Ret (menu_lines addr (default 0x0D5F (head addrs')) s ++ rest)
  end.

(** ** The tables *)

Definition bauds : list Z := [50; 75; 110; 150; 300; 600; 1200; 2400; 4800; 9600; 19200].

Definition pad5 (n : Z) : str := let d := decimal n in replicate (5 - length d) 32 ++ d.

Definition mode_text (b : Z) : str := if b =? 0xC0 then chars "x64" else if b =? 0x40 then chars "x16" else chars "???".

Definition wr4_line (baud b : Z) : str :=
  tabbed "~DB " ++ hex0h 2 b ++ tabbed "~~; " ++ pad5 baud ++ chars " bps → " ++ mode_text b.

(** [f'{614400.0 / div_mode / b:.1f}'].  The divisors make 614400 a whole number, and
    no quotient of it by a byte lies half-way between two tenths ([tenths_not_half]),
    nor so near that the float's error matters; so the digits are those of the
    exact quotient, rounded. *)
Definition tenths (clock b : Z) : Z := (20 * clock + b) / (2 * b).
Definition rate_text (div_mode b : Z) : str :=
  let n := if b =? 0 then 0 else tenths (614400 / div_mode) b in decimal (n / 10) ++ [46] ++ decimal (n mod 10).

Definition ctc_line (i : nat) (baud b : Z) : str :=
  let div_mode := if (i <? 5)%nat then 64 else 16 in
  tabbed "~DB " ++ hex0h 2 b ++ tabbed "~~; " ++ pad5 baud ++ chars " bps = 614400/" ++ decimal div_mode ++ chars "/" ++
  decimal b ++ chars " = " ++ rate_text div_mode b.

Fixpoint table_lines (f : nat -> Z -> Z -> str) (data : bytes) (off i : nat) (rates : list Z) : outcome (list str) :=
  match rates with
  | [] => Ret []
  | baud :: rates' =>
      b ← index data (off + i);
      rest ← table_lines f data off (S i) rates';
      Ret (f i baud b :: rest)
  end.

(** ** main *)

Definition heading : list str := map tabbed
  ["; CONFI.COM Annotated Disassembly";
   "; RC700 CP/M CONFIGURATION UTILITY VERS 2.1 13.01.83";
   "; Source: SW1711-I8.imd (rel.2.3 maxi system disk)";
   ";";
   "; Generated by annotate_confi.py";
   ";";
   "; NOTE: Menu labels 'PRINTER PORT' and 'TERMINAL PORT' are";
   ";       swapped relative to the SIO channels they configure.";
   ";       'PRINTER PORT' menu configures SIO-B (terminal channel).";
   ";       'TERMINAL PORT' menu configures SIO-A (printer channel).";
   "";
   "; === Label Summary ===";
   ";";
   "; Main flow:      entry, drive_select, main_sequence, exit_warmboot";
   "; Menus:           main_menu, submenu_printer, submenu_terminal,";
   ";                  submenu_conversion, submenu_cursor, submenu_motor";
   "; SIO handlers:   stopbits_sioa/b, parity_sioa/b, baudrate_sioa/b,";
   ";                  txbits_sioa/b, rxbits_sioa/b";
   "; HW programming: prog_sio_a, prog_sio_b, prog_ctc_ch0/1, prog_crt";
   "; Disk I/O:       disk_rw_config, disk_rw_sector, save_config";
   "; Utilities:       menu_handler, jt_dispatch, print_string,";
   ";                  mul10, mul100, print_decimal";
   "; Conv tables:     copy_conv_to_bios (→ 0xF680)";
   ";";
   "; BIOS calls:     0xDA0C=CONOUT, 0xDA1B=SELDSK, 0xDA1E=SETTRK,";
   ";                  0xDA21=SETSEC, 0xDA24=SETDMA, 0xDA27=READ,";
   ";                  0xDA2A=WRITE";
   "";
   "~ORG 0100h";
   "";
   "; ============================================================";
   "; DATA SECTIONS";
   "; ============================================================";
   "";
   "; --- Banner strings (0x05E4-0x0658) ---"]%string.

Definition menu_heading : list str := map tabbed
  ["";
   "; --- Menu strings (0x0659-0x0D5E) ---"]%string.

Definition wr4_heading : list str := map tabbed
  ["";
   "; --- Baud rate lookup tables (0x0D5F-0x0D74) ---";
   "wr4_clock_tab:~~; SIO WR4 clock mode bits, indexed by baud selection"]%string.

Definition ctc_heading : list str := map tabbed
  ["";
   "ctc_div_tab:~~; CTC divisor bytes, indexed by baud selection"]%string.

Definition buffer_lines : list str := map tabbed
  ["";
   "; --- DMA buffer: Track 0 sector 2 (hw config, 128 bytes at 0x0D75) ---";
   "; Overwritten at runtime by disk read. Layout:";
   ";   +0x01: ctc_a_div    CTC Ch0 divisor (SIO-A baud)";
   ";   +0x03: ctc_b_div    CTC Ch1 divisor (SIO-B baud)";
   ";   +0x08: sio_a_cfg    SIO-A init block (9 bytes)";
   ";     +0x0A: sio_a_wr4  WR4: clock+parity+stop";
   ";     +0x0C: sio_a_wr3  WR3: RX bits+enable";
   ";     +0x0E: sio_a_wr5  WR5: TX bits+DTR+RTS";
   ";   +0x11: sio_b_cfg    SIO-B init block (11 bytes)";
   ";     +0x15: sio_b_wr4  WR4: clock+parity+stop";
   ";     +0x17: sio_b_wr3  WR3: RX bits+enable";
   ";     +0x19: sio_b_wr5  WR5: TX bits+DTR+RTS";
   ";   +0x20: crt_params   8275 parameters (5 bytes)";
   ";   +0x28: adr_mode     cursor addressing (0=H,V 1=V,H)";
   ";   +0x29: conv_idx     conversion table index (0-6)";
   ";   +0x2A: baud_a_idx   SIO-A baud selection (for display)";
   ";   +0x2B: baud_b_idx   SIO-B baud selection (for display)";
   ";   +0x2C: motor_lo     motor timer low byte";
   ";   +0x2D: motor_hl     motor timer word (seconds)";
   "dma_buf_sec2:~DS 128~; 0x0D75-0x0DF4";
   "dma_buf_sec3:~DS 128~; 0x0DF5-0x0E74 (output conv)";
   "dma_buf_sec4:~DS 128~; 0x0E75-0x0EF4 (input conv)";
   "dma_buf_sec5:~DS 128~; 0x0EF5-0x0F74 (semigraphic)";
   "";
   "; --- Stack area (0x0F75-0x0FF4) ---";
   "~DS 128~~; stack grows down from 0x0FF5";
   "";
   "; --- Built-in conversion tables (0x0FF5-0x1A74) ---";
   "; 7 tables x 384 bytes = 2688 bytes";
   "; Each table: 128 output + 128 input + 128 semigraphic"]%string.

Definition table_names : list string := ["Danish (identity)"; "Swedish"; "German"; "UK ASCII"; "US ASCII"; "French"; "Library"]%string.

Definition conv_lines : list str :=
  concat (imap (fun i name =>
    [chars "conv_" ++ lower (take_while (fun c => negb (py_space c)) (chars name)) ++ tabbed ":~; " ++ chars name ++
     chars " @ 0x" ++ fmt_hex 4 (0x0FF5 + Z.of_nat i * 384);
     tabbed "~DS 384"]) table_names).

Definition ending : list str := map tabbed
  ["";
   "; --- Trailing data (11 bytes) ---";
   "~DS 11";
   "";
   "~END"]%string.

Definition annotate_confi (data : bytes) : outcome (list str) :=
  '(banner, _) ← banner_strings (Z.to_nat (0x0659 - 0x05E4)) data 0x05E4;
  menus ← menu_strings data menu_addrs;
  wr4 ← table_lines (fun _ => wr4_line) data (Z.to_nat (0x0D5F - 0x0100)) 0 bauds;
  ctc ← table_lines ctc_line data (Z.to_nat (0x0D6A - 0x0100)) 0 bauds;
  Ret (heading ++ banner ++ menu_heading ++ menus ++ wr4_heading ++ wr4 ++ ctc_heading ++ ctc ++ buffer_lines ++ conv_lines ++ ending).

(** ** The assembler's view

    What a macro assembler makes of lines: an optional label before a colon, and DB, DS
    and ORG behind a tab; a semicolon starts a comment.  [assemble] gives the labels
    with their addresses, and the image, with [None] where DS leaves space. *)
Inductive operation : Set := Data (bs : bytes) | Space (n : Z) | Org (n : Z) | Nothing.

#[export] Instance operation_eq_dec : EqDecision operation.
Proof. solve_decision. Defined.

Definition operand (s : str) : outcome Z :=
  let s := strip_with py_space s in
  match last s with Some 104 => int16 (take (length s - 1) s) | _ => int_of s end.

Fixpoint operands (ps : list str) : outcome bytes :=
  match ps with
  | [] => Ret []
  | p :: ps' => v ← operand p; r ← operands ps'; Ret (v :: r)
  end.

Definition asm_op (op : str) : outcome operation :=
  if startswith (tabbed "~DB ") op then bs ← operands (split_on 44 (drop 4 op)); Ret (Data bs)
  else if startswith (tabbed "~DS ") op then n ← operand (drop 4 op); Ret (Space n)
  else if startswith (tabbed "~ORG ") op then n ← operand (drop 5 op); Ret (Org n)
  else if bool_decide (strip_with py_space op ∈ [[]; chars "END"]) then Ret Nothing
  else Raise ValueError.

Definition asm_line (l : str) : outcome (option str * operation) :=
  let code := before 59 l in
  if decide (58 ∈ code) then o ← asm_op (drop (S (length (before 58 code))) code); Ret (Some (before 58 code), o)
  else o ← asm_op code; Ret (None, o).

Definition symbol (l : option str) (loc : Z) : list (str * Z) := match l with Some n => [(n, loc)] | None => [] end.

Fixpoint assemble (loc : Z) (ls : list str) : outcome (list (str * Z) * list (option Z)) :=
  match ls with
  | [] => Ret ([], [])
  | l :: ls' =>
      '(label, o) ← asm_line l;
      match o with
      | Data bs => '(syms, img) ← assemble (loc + zlength bs) ls'; Ret (symbol label loc ++ syms, map Some bs ++ img)
      | Space n => '(syms, img) ← assemble (loc + n) ls'; Ret (symbol label loc ++ syms, replicate (Z.to_nat n) None ++ img)
      | Org n => '(syms, img) ← assemble n ls'; Ret (symbol label loc ++ syms, img)
      | Nothing => '(syms, img) ← assemble loc ls'; Ret (symbol label loc ++ syms, img)
      end
  end.

(** ** Strings as the program prints them

    A string is characters and cursor positions, up to a zero byte; the two bytes of a
    position may have any value. *)
Inductive token : Set := Char (b : Z) | Position (h v : Z).

Definition token_ok (t : token) : Prop := match t with Char b => b <> 0 /\ b <> 6 | Position _ _ => True end.
Definition token_bytes (t : token) : bytes := match t with Char b => [b] | Position h v => [6; h; v] end.
Definition token_text (t : token) : str := match t with Char b => shown b | Position h v => position_text h v end.
Definition string_bytes (ts : list token) : bytes := concat (map token_bytes ts) ++ [0].
Definition string_text (ts : list token) : str := concat (map token_text ts).

Lemma decode_tokens ts rest : Forall token_ok ts ->
  decode_from (string_bytes ts ++ rest) = Ret (string_text ts, zlength (string_bytes ts) - 1).
Proof.
  unfold string_bytes, string_text. induction 1 as [|t ts Ht Hts IH]; [done|]. cbn [map concat].
  destruct t as [b|h v]; cbn [token_bytes token_text app decode_from].
  - destruct Ht as [H0 H6]. rewrite (proj2 (Z.eqb_neq b 0)), (proj2 (Z.eqb_neq b 6)), IH by done.
    cbn [mbind outcome_bind]. do 2 f_equal. unfold zlength. cbn [length]. rewrite !length_app. cbn [length]. lia.
  - change (6 =? 0) with false. change (6 =? 6) with true. cbn match. rewrite IH.
    cbn [mbind outcome_bind]. do 2 f_equal. unfold zlength. cbn [length]. rewrite !length_app. cbn [length]. lia.
Qed.

Lemma decode_string_tokens data addr ts rest : Forall token_ok ts -> dropZ (addr - 0x0100) data = string_bytes ts ++ rest ->
  decode_string data addr = Ret (string_text ts, zlength (string_bytes ts)).
Proof.
  intros Ht E. unfold decode_string. rewrite E, decode_tokens by done. cbn [mbind outcome_bind]. do 2 f_equal. lia.
Qed.

(** ** Pieces of the listing

    [asms ls syms img]: whatever comes in front and behind, the lines give these symbols,
    with addresses relative to the first line's, and this image; and no line has a line
    end in it. *)
Record asms (ls : list str) (syms : list (str * Z)) (img : list (option Z)) : Prop := Asms {
  asms_lines : Forall (fun l => 10 ∉ l) ls;
  asms_gives loc rest : assemble loc (ls ++ rest) =
    ('(s, i) ← assemble (loc + zlength img) rest; Ret (map (fun p => (fst p, loc + snd p)) syms ++ s, img ++ i)) }.

Lemma asms_nil : asms [] [] [].
Proof.
  split; [constructor|]. intros loc rest. cbn. change (zlength []) with 0. rewrite Z.add_0_r.
  by destruct (assemble loc rest) as [[s i]|].
Qed.

Definition moved_by (d : Z) (syms : list (str * Z)) : list (str * Z) := map (fun p => (fst p, d + snd p)) syms.

Lemma asms_app l1 s1 i1 l2 s2 i2 : asms l1 s1 i1 -> asms l2 s2 i2 -> asms (l1 ++ l2) (s1 ++ moved_by (zlength i1) s2) (i1 ++ i2).
Proof.
  intros [L1 H1] [L2 H2]. split; [by apply Forall_app_2|]. intros loc rest.
  rewrite <- app_assoc, H1, H2. rewrite zlength_app, Z.add_assoc.
  destruct (assemble _ rest) as [[s i]|]; [|done]. cbn [mbind outcome_bind]. unfold moved_by.
  rewrite map_app, map_map, <- !app_assoc. cbn [fst snd].
  assert (E : forall l, map (fun p : str * Z => (fst p, loc + zlength i1 + snd p)) l = map (fun p => (fst p, loc + (zlength i1 + snd p))) l).
  { intros l. apply map_ext. intros p. f_equal. lia. }
  by rewrite E.
Qed.

Lemma asms_eq l s s' i i' : asms l s i -> s = s' -> i = i' -> asms l s' i'.
Proof. by intros H -> ->. Qed.

Lemma asms_line l label bs : 10 ∉ l -> asm_line l = Ret (label, Data bs) -> asms [l] (symbol label 0) (map Some bs).
Proof.
  intros Hl H. split; [by apply Forall_singleton|]. intros loc rest. cbn [app assemble]. rewrite H. cbn [mbind outcome_bind].
  assert (zlength (map Some bs) = zlength bs) as -> by (unfold zlength; by rewrite length_map).
  destruct (assemble _ rest) as [[s i]|]; [|done]. cbn [mbind outcome_bind]. do 3 f_equal.
  destruct label; [|done]. cbn. by rewrite Z.add_0_r.
Qed.

Lemma asms_space l label n : 10 ∉ l -> asm_line l = Ret (label, Space n) -> 0 <= n -> asms [l] (symbol label 0) (replicate (Z.to_nat n) None).
Proof.
  intros Hl H Hn. split; [by apply Forall_singleton|]. intros loc rest. cbn [app assemble]. rewrite H. cbn [mbind outcome_bind].
  assert (zlength (replicate (Z.to_nat n) (@None Z)) = n) as -> by (unfold zlength; rewrite length_replicate; lia).
  destruct (assemble _ rest) as [[s i]|]; [|done]. cbn [mbind outcome_bind]. do 3 f_equal.
  destruct label; [|done]. cbn. by rewrite Z.add_0_r.
Qed.

Lemma asms_nothing l label : 10 ∉ l -> asm_line l = Ret (label, Nothing) -> asms [l] (symbol label 0) [].
Proof.
  intros Hl H. split; [by apply Forall_singleton|]. intros loc rest. cbn [app assemble]. rewrite H. cbn [mbind outcome_bind].
  change (zlength []) with 0. rewrite Z.add_0_r.
  destruct (assemble _ rest) as [[s i]|]; [|done]. cbn [mbind outcome_bind]. do 3 f_equal.
  destruct label; [|done]. cbn. by rewrite Z.add_0_r.
Qed.

Lemma asms_blank ls : Forall (fun l => (10 ∉ l) /\ asm_line l = Ret (None, Nothing)) ls -> asms ls [] [].
Proof.
  induction 1 as [|l ls [Hl H] Hls IH]; [apply asms_nil|]. apply (asms_app [l] [] [] ls [] []); [exact (asms_nothing l None Hl H)|done].
Qed.

(** ** Texts without line ends and semicolons *)

Definition quiet (s : str) : Prop := Forall (fun c => c <> 10) s.

Lemma quiet_no_newline s : quiet s <-> 10 ∉ s.
Proof.
  unfold quiet. rewrite Forall_forall. split; [intros H Hin; by apply (H 10)|]. intros H c Hc ->. done.
Qed.

Lemma quiet_app a b : quiet a -> quiet b -> quiet (a ++ b).
Proof. intros. by apply Forall_app_2. Qed.

Lemma digits_quiet s : digits s -> quiet s.
Proof. intros H. eapply Forall_impl; [exact H|]. intros c Hc%is_digit_spec. cbn. lia. Qed.

Lemma decimal_quiet n : 0 <= n -> quiet (decimal n).
Proof. intros H. by apply digits_quiet, decimal_ok. Qed.

Lemma integer_quiet n : quiet (integer n).
Proof.
  unfold integer. destruct (Z.ltb_spec n 0); [|apply decimal_quiet; lia].
  constructor; [lia|]. apply decimal_quiet. lia.
Qed.

Lemma shown_quiet b : is_byte b -> quiet (shown b).
Proof.
  assert (F : Forall (fun b => quiet (shown b)) (seqZ 0 256)) by (unfold quiet; decided).
  intros [H1 H2]. apply (proj1 (Forall_forall _ _) F), elem_of_seqZ. lia.
Qed.

Lemma string_text_quiet ts : all_bytes (concat (map token_bytes ts)) -> quiet (string_text ts).
Proof.
  unfold string_text. induction ts as [|t ts IH]; [constructor|]. cbn [map concat]. intros [Ht H]%Forall_app.
  apply quiet_app; [|by apply IH]. destruct t as [b|h v]; cbn [token_text token_bytes] in *.
  - apply Forall_cons in Ht as [Ht _]. by apply shown_quiet.
  - unfold position_text, quiet. rewrite !Forall_app. split_and!; try apply integer_quiet; decided.
Qed.

Lemma quiet_take n s : quiet s -> quiet (take n s).
Proof. apply Forall_take. Qed.

Lemma quiet_quoted s : quiet s -> quiet (quoted s).
Proof. intros H. unfold quoted, quiet. rewrite !Forall_app. split_and!; [decided|done|decided]. Qed.

(** Behind a semicolon anything may stand. *)
Lemma asm_line_comment code rest : (59 ∉ code) -> asm_line (code ++ 59 :: rest) = asm_line code.
Proof.
  intros H. unfold asm_line. rewrite before_at by done.
  assert (before 59 code = code) as -> by (unfold before; by rewrite split_on_none). done.
Qed.

Lemma asms_comment rest : quiet rest -> asms [9 :: 59 :: rest] [] [].
Proof.
  intros H. apply asms_blank, Forall_singleton. split.
  - apply quiet_no_newline. by repeat (constructor; [done|]).
  - change (9 :: 59 :: rest) with ([9] ++ 59 :: rest). rewrite asm_line_comment by decided. done.
Qed.

(** ** DB lines *)

Definition hex_ok (b : Z) : Prop :=
  operand (hex0h 2 b) = Ret b /\ operand (hex0h 2 b ++ [9; 9]) = Ret b /\
  (10 ∉ hex0h 2 b) /\ (44 ∉ hex0h 2 b) /\ (58 ∉ hex0h 2 b) /\ (59 ∉ hex0h 2 b).

#[export] Instance hex_ok_dec b : Decision (hex_ok b).
Proof. unfold hex_ok. apply _. Defined.

Lemma byte_hex b : is_byte b -> hex_ok b.
Proof.
  assert (F : Forall hex_ok (seqZ 0 256)) by decided.
  intros [H1 H2]. apply (proj1 (Forall_forall _ _) F), elem_of_seqZ. lia.
Qed.

Lemma hexes_without c bs : all_bytes bs -> c ∈ [10; 58; 59] -> c ∉ join [44] (map (hex0h 2) bs).
Proof.
  intros Hb Hc. apply elem_of_join; [intros ->; revert Hc; decided|]. apply Forall_map. eapply Forall_impl; [exact Hb|].
  intros b (_ & _ & H10 & _ & H58 & H59)%byte_hex. cbn.
  rewrite !elem_of_cons in Hc. destruct Hc as [->|[->|[->|Hc]]]; try done. by apply elem_of_nil in Hc.
Qed.

Lemma operands_hexes bs : all_bytes bs -> operands (map (hex0h 2) bs) = Ret bs.
Proof. induction 1 as [|b bs Hb Hbs IH]; [done|]. cbn [map operands]. destruct (byte_hex b Hb) as [-> _]. cbn [mbind outcome_bind]. by rewrite IH. Qed.

Lemma asm_line_DB bs : all_bytes bs -> bs <> [] -> asm_line (DB bs) = Ret (None, Data bs).
Proof.
  intros Hb Hne. unfold asm_line, DB.
  assert (Hj : forall c, c ∈ [58; 59] -> c ∉ tabbed "~DB " ++ join [44] (map (hex0h 2) bs)).
  { intros c Hc. rewrite not_elem_of_app. split; [revert Hc; rewrite !elem_of_cons; intros [->|[->|[]%elem_of_nil]]; decided|].
    apply hexes_without; [done|]. rewrite !elem_of_cons in *. tauto. }
  unfold before. rewrite split_on_none by (apply Hj; decided). rewrite decide_False by (apply Hj; decided).
  unfold asm_op. assert (startswith (tabbed "~DB ") (tabbed "~DB " ++ join [44] (map (hex0h 2) bs)) = true) as ->.
  { unfold startswith. by apply bool_decide_eq_true. }
  change (drop 4 _) with (join [44] (map (hex0h 2) bs)). rewrite split_join, operands_hexes; [done|done| |by destruct bs].
  apply Forall_map. eapply Forall_impl; [exact Hb|]. by intros b (_ & _ & _ & H & _)%byte_hex.
Qed.

Lemma asms_DB bs : all_bytes bs -> bs <> [] -> asms [DB bs] [] (map Some bs).
Proof.
  intros Hb Hne. apply (asms_line _ None); [|by apply asm_line_DB]. unfold DB. rewrite not_elem_of_app. split; [decided|].
  apply hexes_without; [done|decided].
Qed.

Lemma slice_join {A} a b c (l : list A) : (a <= b <= c)%nat -> slice a b l ++ slice b c l = slice a c l.
Proof.
  intros H. unfold slice. replace (c - a)%nat with ((b - a) + (c - b))%nat by lia.
  rewrite <- (take_take_drop (drop a l) (b - a) (c - b)), drop_drop. by replace (a + (b - a))%nat with b by lia.
Qed.

Lemma slice_none {A} a b (l : list A) : (b <= a)%nat -> slice a b l = [].
Proof. intros H. unfold slice. by replace (b - a)%nat with 0%nat by lia. Qed.

Lemma db_rows_asms data off len : all_bytes data -> (off + len <= length data)%nat ->
  asms (db_rows data off len) [] (map Some (slice off (off + len) data)).
Proof.
  intros Hb Hl. unfold db_rows.
  set (row := fun k => DB _).
  assert (G : forall n k, (forall j, (j < k + n)%nat -> (16 * j < len)%nat) ->
    asms (map row (seq k n)) [] (map Some (slice (off + 16 * k) (off + Nat.min len (16 * (k + n))) data))).
  { induction n as [|n IH]; intros k Hk.
    - rewrite slice_none by lia. apply asms_nil.
    - cbn [seq map]. pose proof (Hk k ltac:(lia)) as Hkk. specialize (IH (S k)).
      eapply (asms_eq (row k :: _)); [eapply (asms_app [row k] []); [|apply IH; intros j Hj; apply Hk; lia]| |].
      + unfold row. apply asms_DB; [by apply slice_all|]. intros E%(f_equal length). rewrite length_slice in E. cbn [length] in E. lia.
      + done.
      + rewrite <- map_app. f_equal. destruct (decide (16 * S k <= len)%nat).
        * replace (off + 16 * k + Nat.min 16 (len - 16 * k))%nat with (off + 16 * S k)%nat by lia.
          rewrite slice_join by lia. f_equal. lia.
        * rewrite (slice_none (off + 16 * S k)) by lia. rewrite app_nil_r. f_equal. lia. }
  specialize (G ((len + 15) / 16)%nat 0%nat). cbn [Nat.add] in G.
  assert (H16 : (16 * ((len + 15) / 16) <= len + 15 < 16 * ((len + 15) / 16) + 16)%nat).
  { pose proof (Nat.div_mod_eq (len + 15) 16). pose proof (Nat.mod_upper_bound (len + 15) 16). lia. }
  eapply asms_eq; [apply G; intros j Hj; lia|done|]. do 2 f_equal; lia.
Qed.

(** ** Labels *)

Definition names : list (Z * str) := map (fun p => (fst p, chars (snd p))) LABELS.

Definition symbol_at (a : Z) : list (str * Z) := match label_at a [] with [] => [] | l => [(l, 0)] end.

Lemma label_at_name a : label_at a [] <> [] -> (a, label_at a []) ∈ names.
Proof.
  unfold label_at, names. destruct (List.find _ LABELS) as [p|] eqn:E; [|done]. intros _.
  apply find_some in E as [Hin H%Z.eqb_eq]. apply list_elem_of_fmap. exists p. split; [by rewrite H|by apply list_elem_of_In].
Qed.

Lemma label_lines_ok : Forall (fun p => asm_line (snd p ++ [58]) = Ret (Some (snd p), Nothing) /\ (10 ∉ snd p ++ [58])) names.
Proof. decided. Qed.

Lemma label_line_asms a : asms (label_line a) (symbol_at a) [].
Proof.
  unfold label_line, symbol_at. pose proof (label_at_name a) as H. destruct (label_at a []) as [|c l]; [apply asms_nil|].
  specialize (H ltac:(done)). apply (proj1 (Forall_forall _ _) label_lines_ok) in H as [H1 H2]. cbn [snd] in *.
  exact (asms_nothing _ (Some (c :: l)) H2 H1).
Qed.

Lemma banner_string_asms data addr s len : all_bytes data -> quiet s -> (Z.to_nat (addr - 0x0100) + Z.to_nat len <= length data)%nat ->
  asms (banner_string data addr s len) (symbol_at addr)
    (map Some (slice (Z.to_nat (addr - 0x0100)) (Z.to_nat (addr - 0x0100) + Z.to_nat len) data)).
Proof.
  intros Hb Hs Hl. unfold banner_string.
  eapply asms_eq; [apply asms_app; [apply label_line_asms|apply asms_app; [|by apply db_rows_asms]]| |].
  - instantiate (1 := []). instantiate (1 := []).
    assert (E : forall q, quiet q -> asms [tabbed "~; " ++ quoted q] [] []).
    { intros q Hq. change (tabbed "~; " ++ quoted q) with (9 :: 59 :: 32 :: quoted q). apply asms_comment.
      constructor; [done|]. by apply quiet_quoted. }
    destruct (70 <? zlength s); apply E; [|done]. apply quiet_app; [by apply quiet_take|unfold quiet; decided].
  - cbn. by rewrite app_nil_r.
  - done.
Qed.

(** ** The banner *)

Lemma slice_dropZ {A} a n (l : list A) : slice (Z.to_nat a) (Z.to_nat a + Z.to_nat n) l = takeZ n (dropZ a l).
Proof. unfold slice. rewrite takeZ_take, dropZ_drop. f_equal. lia. Qed.

Lemma string_bytes_pos ts : 1 <= zlength (string_bytes ts).
Proof. unfold string_bytes, zlength. rewrite length_app. cbn. lia. Qed.

Definition size (strings : list (list token)) : Z := zlength (concat (map string_bytes strings)).

Lemma size_cons ts strings : size (ts :: strings) = zlength (string_bytes ts) + size strings.
Proof. unfold size. cbn [map concat]. apply zlength_app. Qed.

Lemma banner_step data fuel addr ts strs rest : all_bytes data -> Forall token_ok ts -> 0x0100 <= addr < 0x0659 ->
  dropZ (addr - 0x0100) data = string_bytes ts ++ strs ++ rest ->
  banner_strings (S fuel) data addr =
    ('(r, e) ← banner_strings fuel data (addr + zlength (string_bytes ts));
     Ret (banner_string data addr (string_text ts) (zlength (string_bytes ts)) ++ r, e)) /\
  asms (banner_string data addr (string_text ts) (zlength (string_bytes ts))) (symbol_at addr) (map Some (string_bytes ts)) /\
  dropZ (addr + zlength (string_bytes ts) - 0x0100) data = strs ++ rest.
Proof.
  intros Hb Hts Ha E. pose proof (string_bytes_pos ts) as Hp. split_and!.
  - cbn [banner_strings]. rewrite (proj2 (Z.ltb_lt _ _)) by lia. cbn [negb]. by rewrite (decode_string_tokens _ _ _ _ Hts E).
  - assert (Hall : all_bytes (dropZ (addr - 0x0100) data)) by (rewrite dropZ_drop; by apply Forall_drop).
    rewrite E in Hall. apply Forall_app in Hall as [Hall _].
    eapply asms_eq; [apply banner_string_asms; [done| |]|done|].
    + apply string_text_quiet. unfold string_bytes in Hall. by apply Forall_app in Hall as [? _].
    + apply (f_equal length) in E. rewrite dropZ_drop, length_drop, length_app in E. unfold zlength in *. lia.
    + f_equal. rewrite slice_dropZ, E, takeZ_take. apply take_app_length'. unfold zlength. lia.
  - replace (addr + zlength (string_bytes ts) - 0x0100) with ((addr - 0x0100) + zlength (string_bytes ts)) by lia.
    rewrite dropZ_drop in E |- *. rewrite Z2Nat.inj_add by lia. rewrite <- drop_drop, E.
    apply drop_app_length'. unfold zlength. lia.
Qed.

Lemma symbol_at_named a : Forall (fun p => (a + snd p, fst p) ∈ names) (symbol_at a).
Proof.
  unfold symbol_at. pose proof (label_at_name a) as Hn. destruct (label_at a []) as [|c l]; [constructor|].
  apply Forall_singleton. cbn [fst snd]. rewrite Z.add_0_r. by apply Hn.
Qed.

Lemma banner_strings_asms data : all_bytes data -> forall strings s fuel addr rest,
  Forall (Forall token_ok) (strings ++ [s]) -> 0x0100 <= addr ->
  dropZ (addr - 0x0100) data = concat (map string_bytes (strings ++ [s])) ++ rest ->
  addr + size strings < 0x0659 <= addr + size (strings ++ [s]) -> (length strings < fuel)%nat ->
  exists lines syms, banner_strings fuel data addr = Ret (lines, addr + size (strings ++ [s])) /\
    asms lines syms (map Some (takeZ (size (strings ++ [s])) (dropZ (addr - 0x0100) data))) /\
    Forall (fun p => (addr + snd p, fst p) ∈ names) syms.
Proof.
  intros Hb strings s.
  induction strings as [|ts strings IH]; intros fuel addr rest Hok Ha E Hsz Hf; (destruct fuel as [|fuel]; [cbn in Hf; lia|]);
    cbn [app map concat] in *; apply Forall_cons in Hok as [Hts Hok]; rewrite <- ?app_assoc in E.
  - change (size []) with 0 in Hsz.
    destruct (banner_step data fuel addr s [] rest Hb Hts ltac:(lia) E) as (Hs & Has & _). rewrite size_cons in *. change (size []) with 0 in *.
    rewrite Z.add_0_r in *. exists (banner_string data addr (string_text s) (zlength (string_bytes s))), (symbol_at addr). split_and!.
    + rewrite Hs. assert (banner_strings fuel data (addr + zlength (string_bytes s)) = Ret ([], addr + zlength (string_bytes s))) as ->.
      { destruct fuel; cbn [banner_strings]; rewrite (proj2 (Z.ltb_ge _ _)) by lia; done. }
      cbn [mbind outcome_bind]. by rewrite app_nil_r.
    + eapply asms_eq; [exact Has|done|]. f_equal. rewrite E, takeZ_take. symmetry. apply take_app_length'. unfold zlength. lia.
    + apply symbol_at_named.
  - rewrite size_cons in Hsz. pose proof (string_bytes_pos ts). pose proof (zlength_pos (concat (map string_bytes strings))) as Hz.
    fold (size strings) in Hz.
    destruct (banner_step data fuel addr ts (concat (map string_bytes (strings ++ [s]))) rest Hb Hts ltac:(lia) E) as (Hs & Has & Hd).
    destruct (IH fuel (addr + zlength (string_bytes ts)) rest Hok ltac:(lia) Hd) as (lines & syms & Hb' & Has' & Hsy).
    { rewrite size_cons in Hsz. lia. }
    { cbn in Hf. lia. }
    rewrite size_cons. exists (banner_string data addr (string_text ts) (zlength (string_bytes ts)) ++ lines),
      (symbol_at addr ++ moved_by (zlength (string_bytes ts)) syms). split_and!.
    + rewrite Hs, Hb'. cbn [mbind outcome_bind]. do 2 f_equal. lia.
    + eapply asms_eq; [apply asms_app; [exact Has|exact Has']| |].
      * do 2 f_equal. unfold zlength. by rewrite length_map.
      * rewrite <- map_app. f_equal. rewrite E, Hd, !takeZ_take. unfold size.
        rewrite (take_app_length' (concat _)) by (unfold zlength; lia).
        rewrite app_assoc, take_app_length'; [done|]. rewrite length_app. unfold zlength. lia.
    + apply Forall_app_2.
      * apply symbol_at_named.
      * unfold moved_by. apply Forall_map. eapply Forall_impl; [exact Hsy|]. intros p. cbn [fst snd].
        by rewrite <- Z.add_assoc.
Qed.

(** ** The menus *)

Definition menu_start : str := tabbed ":~~; 0x".

(** What is checked of each menu's address and the next one. *)
Definition menu_ok (p : Z * Z) : Prop :=
  let l := label_at (fst p) [] in
  l <> [] /\ fst p <= snd p /\ (10 ∉ l ++ tabbed ":~~; 0x" ++ fmt_hex 4 (fst p)) /\
  asm_line (l ++ tabbed ":~~; 0x" ++ fmt_hex 4 (fst p)) = Ret (Some l, Nothing) /\
  (10 ∉ tabbed "~DS " ++ integer (snd p - fst p)) /\
  asm_line (tabbed "~DS " ++ integer (snd p - fst p)) = Ret (None, Space (snd p - fst p)).

#[export] Instance menu_ok_dec p : Decision (menu_ok p).
Proof. unfold menu_ok. apply _. Defined.

Fixpoint with_next (addrs : list Z) : list (Z * Z) :=
  match addrs with [] => [] | a :: addrs' => (a, default 0x0D5F (head addrs')) :: with_next addrs' end.

Lemma menus_ok : Forall menu_ok (with_next menu_addrs).
Proof. decided. Qed.

Lemma menu_lines_asms a nx s : menu_ok (a, nx) -> quiet s ->
  asms (menu_lines a nx s) [(label_at a [], 0)] (replicate (Z.to_nat (nx - a)) None).
Proof.
  intros (Hl & Hle & Hn1 & H1 & Hn2 & H2) Hs. cbn [fst snd] in *. unfold menu_lines.
  assert (H0 : asms (match label_at a [] with [] => [] | l => [l ++ tabbed ":~~; 0x" ++ fmt_hex 4 a] end) [(label_at a [], 0)] []).
  { destruct (label_at a []) as [|c l]; [done|]. exact (asms_nothing _ (Some (c :: l)) Hn1 H1). }
  eapply asms_eq; [apply asms_app; [exact H0|]| |].
  - eapply (asms_app [_] [] [] [_; _]); [|eapply (asms_app [_] [] [] [_])].
    + change (tabbed "~; " ++ ?q) with (9 :: 59 :: 32 :: q). apply asms_comment.
      constructor; [done|]. apply quiet_quoted, quiet_take. unfold first_line.
      destruct (find_bytes _ _ _); [by apply quiet_take|done].
    + change (tabbed "~; (" ++ ?q) with (9 :: 59 :: 32 :: 40 :: q). apply asms_comment.
      do 2 (constructor; [done|]). apply quiet_app; [apply integer_quiet|unfold quiet; decided].
    + exact (asms_space _ None (nx - a) Hn2 H2 ltac:(lia)).
  - done.
  - done.
Qed.

Definition menu_file (data : bytes) (a : Z) : Prop :=
  exists ts rest, Forall token_ok ts /\ dropZ (a - 0x0100) data = string_bytes ts ++ rest.

Lemma menu_strings_asms data addrs : all_bytes data -> Forall (menu_file data) addrs -> Forall menu_ok (with_next addrs) ->
  exists lines, menu_strings data addrs = Ret lines /\
    asms lines (map (fun a => (label_at a [], a - default 0x0D5F (head addrs))) addrs)
      (replicate (Z.to_nat (0x0D5F - default 0x0D5F (head addrs))) None) /\ default 0x0D5F (head addrs) <= 0x0D5F.
Proof.
  intros Hb. induction addrs as [|a addrs IH]; intros Hf Hm.
  - exists []. split_and!; [done|apply asms_nil|done].
  - cbn [with_next] in Hm. apply Forall_cons in Hf as [(ts & rest & Hts & E) Hf]. apply Forall_cons in Hm as [Ha Hm].
    destruct (IH Hf Hm) as (lines & Hl & Has & Hle). change (default 0x0D5F (head (a :: addrs))) with a. cbn [menu_strings].
    set (nx := default 0x0D5F (head addrs)) in *.
    exists (menu_lines a nx (string_text ts) ++ lines). pose proof Ha as (_ & Ha1 & _). cbn [fst snd] in Ha1. split_and!; [| |lia].
    + rewrite (decode_string_tokens _ _ _ _ Hts E), Hl. done.
    + eapply asms_eq; [apply asms_app; [|exact Has]| |].
      * apply menu_lines_asms; [exact Ha|]. apply string_text_quiet.
        assert (Hall : all_bytes (dropZ (a - 0x0100) data)) by (rewrite dropZ_drop; by apply Forall_drop).
        rewrite E in Hall. apply Forall_app in Hall as [Hall _]. unfold string_bytes in Hall. by apply Forall_app in Hall as [? _].
      * cbn [map]. rewrite Z.sub_diag. f_equal. unfold moved_by. rewrite map_map. apply map_ext. intros x. cbn [fst snd].
        f_equal. unfold zlength. rewrite length_replicate. lia.
      * rewrite <- replicate_add. f_equal. lia.
Qed.

(** ** The tables *)

Lemma table_lines_asms f data off : (forall i baud b, is_byte b -> baud ∈ bauds ->
    (10 ∉ f i baud b) /\ asm_line (f i baud b) = Ret (None, Data [b])) -> all_bytes data -> forall rates i, (forall r, r ∈ rates -> r ∈ bauds) ->
  (off + i + length rates <= length data)%nat ->
  exists lines, table_lines f data off i rates = Ret lines /\ asms lines [] (map Some (slice (off + i) (off + i + length rates) data)).
Proof.
  intros Hf Hb. induction rates as [|r rates IH]; intros i Hr Hl.
  - exists []. split; [done|]. cbn [length]. rewrite slice_none by lia. apply asms_nil.
  - cbn [length] in Hl. destruct (lookup_lt_is_Some_2 data (off + i) ltac:(lia)) as [b Hbi].
    destruct (IH (S i)) as (lines & Hls & Has); [intros x Hx; apply Hr; by apply elem_of_cons; right|lia|].
    destruct (Hf i r b) as [Hn Ha]; [by eapply all_bytes_lookup|apply Hr, list_elem_of_here|].
    cbn [table_lines]. rewrite (index_in _ _ _ Hbi), Hls. cbn [mbind outcome_bind]. exists (f i r b :: lines). split; [done|].
    eapply (asms_eq (f i r b :: lines)); [eapply (asms_app [f i r b] []); [exact (asms_line _ None [b] Hn Ha)|exact Has]|done|].
    cbn [map app length]. rewrite <- (slice_join (off + i) (off + S i) (off + i + S (length rates))) by lia.
    assert (slice (off + i) (off + S i) data = [b]) as ->.
    { unfold slice. replace (off + S i - (off + i))%nat with 1%nat by lia. rewrite (drop_S _ _ _ Hbi). done. }
    cbn [map app]. do 3 f_equal. lia.
Qed.

Lemma pad5_quiet n : 0 <= n -> quiet (pad5 n).
Proof. intros H. unfold pad5. apply quiet_app; [by apply Forall_replicate|by apply decimal_quiet]. Qed.

Lemma asm_line_table b rest : is_byte b ->
  asm_line (tabbed "~DB " ++ hex0h 2 b ++ tabbed "~~; " ++ rest) = Ret (None, Data [b]).
Proof.
  intros (H & H2 & H10 & H44 & H58 & H59)%byte_hex.
  change (tabbed "~~; " ++ rest) with ([9; 9] ++ 59 :: 32 :: rest). rewrite !app_assoc.
  rewrite asm_line_comment.
  2: { rewrite !not_elem_of_app. split_and!; [decided|done|decided]. }
  unfold asm_line, before. rewrite split_on_none.
  2: { rewrite !not_elem_of_app. split_and!; [decided|done|decided]. }
  rewrite decide_False by (rewrite !not_elem_of_app; split_and!; [decided|done|decided]).
  unfold asm_op. rewrite <- app_assoc.
  assert (startswith (tabbed "~DB ") (tabbed "~DB " ++ hex0h 2 b ++ [9; 9]) = true) as ->.
  { unfold startswith. by apply bool_decide_eq_true. }
  change (drop 4 _) with (hex0h 2 b ++ [9; 9]). rewrite split_on_none by (rewrite not_elem_of_app; split; [done|decided]).
  cbn [operands]. by rewrite H2.
Qed.

(** The pieces of lines that do not depend on the file. *)
Fixpoint fixed_lines (ls : list str) : outcome (list (str * Z) * list (option Z)) :=
  match ls with
  | [] => Ret ([], [])
  | l :: ls' =>
      '(label, o) ← asm_line l;
      '(syms, img) ← fixed_lines ls';
      match o with
      | Space n => if (n <? 0) || bool_decide (10 ∈ l) then Raise ValueError
          else Ret (symbol label 0 ++ moved_by n syms, replicate (Z.to_nat n) None ++ img)
      | Nothing => if bool_decide (10 ∈ l) then Raise ValueError else Ret (symbol label 0 ++ moved_by 0 syms, img)
      | _ => Raise ValueError
      end
  end.

Lemma fixed_asms ls : forall s i, fixed_lines ls = Ret (s, i) -> asms ls s i.
Proof.
  induction ls as [|l ls IH]; intros s i H; cbn [fixed_lines] in H; [injection H as <- <-; apply asms_nil|].
  destruct (asm_line l) as [[label o]|] eqn:E; [|done]. cbn [mbind outcome_bind] in H.
  destruct (fixed_lines ls) as [[syms img]|]; [|done]. cbn [mbind outcome_bind] in H. specialize (IH _ _ eq_refl).
  destruct o as [bs|n|n|]; try done.
  - destruct (Z.ltb_spec n 0); [done|]. cbn [orb] in H. case_bool_decide as Hl; [done|]. injection H as <- <-.
    eapply (asms_eq (l :: ls)); [apply (asms_app [l] _ _ ls _ _ (asms_space l label n Hl E ltac:(lia)) IH)| |done].
    do 2 f_equal. unfold zlength. rewrite length_replicate. lia.
  - case_bool_decide as Hl; [done|]. injection H as <- <-.
    exact (asms_app [l] _ _ ls _ _ (asms_nothing l label Hl E) IH).
Qed.

(** The labels behind the menus, with the addresses they have in the program. *)
Definition table_names_at : list (str * Z) :=
  [(chars "conv_danish", 0x0FF5); (chars "conv_swedish", 0x1175); (chars "conv_german", 0x12F5); (chars "conv_uk", 0x1475);
   (chars "conv_us", 0x15F5); (chars "conv_french", 0x1775); (chars "conv_library", 0x18F5)].
Definition buffer_names_at : list (str * Z) := map (fun a => (label_at a [], a)) [0x0D75; 0x0DF5; 0x0E75; 0x0EF5].
Definition data_names : list (str * Z) :=
  map (fun a => (label_at a [], a)) (menu_addrs ++ [0x0D5F; 0x0D6A; 0x0D75; 0x0DF5; 0x0E75; 0x0EF5]) ++ table_names_at.

Lemma tail_asms : asms (buffer_lines ++ conv_lines ++ ending) (moved_by (- 0x0D75) (buffer_names_at ++ table_names_at))
  (replicate (Z.to_nat (0x1A80 - 0x0D75)) None).
Proof. apply fixed_asms. by vm_compute. Qed.

Lemma wr4_heading_asms : asms wr4_heading [(label_at 0x0D5F [], 0)] [].
Proof. apply fixed_asms. by vm_compute. Qed.

Lemma ctc_heading_asms : asms ctc_heading [(label_at 0x0D6A [], 0)] [].
Proof. apply fixed_asms. by vm_compute. Qed.

Lemma menu_heading_asms : asms menu_heading [] [].
Proof. apply fixed_asms. by vm_compute. Qed.

Lemma heading_assembled rest : assemble 0 (heading ++ rest) = assemble 0x0100 rest.
Proof.
  assert (H : exists h1 h2, heading = h1 ++ tabbed "~ORG 0100h" :: h2 /\ fixed_lines h1 = Ret ([], []) /\ fixed_lines h2 = Ret ([], [])).
  { exists (take 28 heading), (drop 29 heading). split_and!; by vm_compute. }
  destruct H as (h1 & h2 & E & H1%fixed_asms & H2%fixed_asms). rewrite E, <- app_assoc, (asms_gives _ _ _ H1). cbn [app assemble].
  assert (asm_line (tabbed "~ORG 0100h") = Ret (None, Org 0x0100)) as -> by (by vm_compute).
  cbn [mbind outcome_bind symbol app map]. rewrite (asms_gives _ _ _ H2). change (zlength []) with 0. rewrite Z.add_0_r.
  destruct (assemble 0x0100 rest) as [[s i]|]; done.
Qed.

(** ** Rates, jump tables *)

Lemma tenths_not_half clock b : clock ∈ [9600; 38400] -> 0 < b < 256 -> 2 * Z.abs (10 * clock - tenths clock b * b) < b.
Proof.
  intros Hc Hb.
  assert (F : Forall (fun b => 2 * Z.abs (10 * 9600 - tenths 9600 b * b) < b /\ 2 * Z.abs (10 * 38400 - tenths 38400 b * b) < b) (seqZ 1 255)) by decided.
  assert (Hin : b ∈ seqZ 1 255) by (apply elem_of_seqZ; lia).
  apply (proj1 (Forall_forall _ _) F) in Hin as [F1 F2].
  apply elem_of_cons in Hc as [->|Hc]; [done|]. by apply elem_of_cons in Hc as [->|[]%elem_of_nil].
Qed.

(** The word a line of a jump table stands for. *)
Definition jump_value (l : str) : outcome Z :=
  let x := rstrip_with py_space (before 59 (drop 4 l)) in
  match List.find (fun p => bool_decide (chars (snd p) = x)) LABELS with Some p => Ret (fst p) | None => operand x end.

Definition label_unique (p : Z * string) : Prop :=
  (59 ∉ chars (snd p)) /\ rstrip_with py_space (chars (snd p) ++ [9; 9]) = chars (snd p) /\ head (chars (snd p)) <> Some 48 /\
  (q ← List.find (fun q => bool_decide (chars (snd q) = chars (snd p))) LABELS; Some (fst q)) = Some (fst p).

#[export] Instance label_unique_dec p : Decision (label_unique p).
Proof. unfold label_unique. apply _. Defined.

Lemma labels_unique : Forall label_unique LABELS.
Proof. decided. Qed.

Lemma hex4_operand n : 0 <= n < 65536 -> exists s, hex0h 4 n = 48 :: s /\ (59 ∉ hex0h 4 n) /\
  rstrip_with py_space (hex0h 4 n ++ [9; 9]) = hex0h 4 n /\ operand (hex0h 4 n) = Ret n.
Proof.
  intros H. set (hi := Z.shiftr n 8). set (lo := Z.land n 255).
  assert (Hhi : is_byte hi) by (unfold hi; rewrite Z.shiftr_div_pow2 by lia; split; [Z.div_mod_to_equations; lia|]; Z.div_mod_to_equations; lia).
  assert (Hlo : is_byte lo) by (unfold lo; apply u8_range).
  assert (Hn : n = hi * 256 + lo).
  { unfold hi, lo. rewrite Z.shiftr_div_pow2 by lia. change (Z.land n 255) with (u8 n). rewrite u8_mod.
    change (2 ^ 8) with 256. pose proof (Z.div_mod n 256). lia. }
  assert (Hb : all_bytes [0; hi; lo]) by (repeat (constructor; [first [done|unfold is_byte; lia]|]); constructor).
  assert (E : hex0h 4 n = 48 :: hex_bytes [hi; lo] ++ [104]) by (unfold hex0h; by rewrite fmt_hex_4).
  assert (Hd : Forall (fun c => c <> 59 /\ py_space c = false /\ c <> 43 /\ c <> 45 /\ c <> 120 /\ c <> 88) (48 :: hex_bytes [hi; lo])).
  { constructor; [done|]. apply hex_bytes_chars; [by inversion Hb|]. intros d Hd.
    assert (F : Forall (fun d => hexdig d <> 59 /\ py_space (hexdig d) = false /\ hexdig d <> 43 /\ hexdig d <> 45 /\ hexdig d <> 120 /\ hexdig d <> 88) (seqZ 0 16)) by decided.
    apply (proj1 (Forall_forall _ _) F). apply elem_of_seqZ. lia. }
  exists (hex_bytes [hi; lo] ++ [104]). rewrite E. split_and!; [done| | |].
  - rewrite app_comm_cons, not_elem_of_app. split; [|decided]. intros Hin. by apply (proj1 (Forall_forall _ _) Hd) in Hin as [? _].
  - apply (rstrip_with_pad py_space 2 9); [done|]. rewrite app_comm_cons, last_snoc. by intros x [= <-].
  - unfold operand. rewrite strip_clean; [|done|].
    2: { apply Forall_cons in Hd as [_ Hd]. apply Forall_app_2; [|by apply Forall_singleton]. eapply Forall_impl; [exact Hd|]. by intros c (_ & ? & _). }
    rewrite app_comm_cons, last_snoc, length_app. change (length [104]) with 1%nat. rewrite Nat.add_sub.
    rewrite take_app_length. pose proof (int16_bytes [0; hi; lo] Hb ltac:(done)) as Hi.
    change (hex_bytes [0; hi; lo]) with (48 :: 48 :: hex_bytes [hi; lo]) in Hi. cbn [foldl] in Hi.
    rewrite Hn. replace (hi * 256 + lo) with (((0 * 256 + 0) * 256 + hi) * 256 + lo) by lia. rewrite <- Hi.
    assert (Hs : Forall (fun c => py_space c = false) (hex_bytes [hi; lo])).
    { apply Forall_cons in Hd as [_ Hd]. eapply Forall_impl; [exact Hd|]. by intros c (_ & ? & _). }
    unfold int16. rewrite (strip_clean 48 (hex_bytes [hi; lo])) by done. rewrite (strip_clean 48 (48 :: hex_bytes [hi; lo])) by (done || by constructor).
    unfold base16_unsigned. change (hex_bytes [hi; lo]) with (hexdig (hi / 16) :: hexdig (hi mod 16) :: hex_bytes [lo]) in *.
    apply Forall_cons in Hd as [_ Hd]. apply Forall_cons in Hd as [(_ & _ & _ & _ & H120 & H88) _].
    by rewrite (proj2 (Z.eqb_neq _ 120)), (proj2 (Z.eqb_neq _ 88)) by done.
Qed.

Lemma jump_line_value target i : 0 <= target < 65536 ->
  jump_value (tabbed "~DW " ++ label_at target (hex0h 4 target) ++ tabbed "~~; option " ++ decimal (Z.of_nat (S i))) = Ret target.
Proof.
  intros H. unfold jump_value. change (drop 4 _) with (label_at target (hex0h 4 target) ++ [9; 9] ++ 59 :: chars " option " ++ decimal (Z.of_nat (S i))).
  destruct (hex4_operand target H) as (s & E & H59 & Hr & Ho). rewrite app_assoc.
  assert (L : label_at target (hex0h 4 target) = match List.find (fun p => fst p =? target) LABELS with Some p => chars (snd p) | None => hex0h 4 target end) by done.
  rewrite L. clear L. destruct (List.find (fun p => fst p =? target) LABELS) as [p|] eqn:F.
  - apply find_some in F as [Hp Ht%Z.eqb_eq]. apply list_elem_of_In, (proj1 (Forall_forall _ _) labels_unique) in Hp as (P59 & Pr & _ & Pf).
    rewrite before_at by (rewrite not_elem_of_app; split; [done|decided]). rewrite Pr.
    destruct (List.find _ LABELS) as [q|]; [|done]. cbn [mbind option_bind] in Pf. injection Pf as ->. by rewrite Ht.
  - rewrite before_at by (rewrite not_elem_of_app; split; [done|decided]). rewrite Hr.
    destruct (List.find (fun p => bool_decide (chars (snd p) = hex0h 4 target)) LABELS) as [q|] eqn:G; [|done]. exfalso. apply find_some in G as [Hq Hn%bool_decide_eq_true].
    apply list_elem_of_In, (proj1 (Forall_forall _ _) labels_unique) in Hq as (_ & _ & Hh & _). rewrite Hn, E in Hh. done.
Qed.

(** The words of a jump table. *)
Fixpoint words_at (data : bytes) (off count : nat) : bytes :=
  match count with
  | O => []
  | S count' => (default 0 (data !! off) + 256 * default 0 (data !! S off)) :: words_at data (off + 2) count'
  end.

Fixpoint jump_values (ls : list str) : outcome (list Z) :=
  match ls with [] => Ret [] | l :: ls' => v ← jump_value l; r ← jump_values ls'; Ret (v :: r) end.

Lemma jump_lines_words data : all_bytes data -> forall count off i, (off + 2 * count <= length data)%nat ->
  exists lines, jump_lines data off i count = Ret lines /\ jump_values lines = Ret (words_at data off count).
Proof.
  intros Hb. induction count as [|count IH]; intros off i Hl; [by exists []|].
  destruct (lookup_lt_is_Some_2 data off ltac:(lia)) as [lo Hlo]. destruct (lookup_lt_is_Some_2 data (S off) ltac:(lia)) as [hi Hhi].
  destruct (IH (off + 2)%nat (S i) ltac:(lia)) as (lines & E & V).
  pose proof (all_bytes_lookup _ _ _ Hb Hlo) as [L1 L2]. pose proof (all_bytes_lookup _ _ _ Hb Hhi) as [H1 H2].
  cbn [jump_lines words_at]. rewrite (index_in _ _ _ Hlo), (index_in _ _ _ Hhi), E, Hlo, Hhi. cbn [mbind outcome_bind].
  eexists. split; [done|]. cbn [jump_values default from_option]. unfold id.
  rewrite (lor_shiftl lo hi 8) by (try split; lia). rewrite jump_line_value by (change (2 ^ 8) with 256; lia).
  cbn [mbind outcome_bind]. rewrite V. cbn [mbind outcome_bind]. do 2 f_equal. change (2 ^ 8) with 256. lia.
Qed.

(** ** Errors *)

Lemma decode_total s : (exists t n, decode_from s = Ret (t, n) /\ 0 <= n) \/ decode_from s = Raise IndexError.
Proof.
  assert (G : forall k s, (length s <= k)%nat -> (exists t n, decode_from s = Ret (t, n) /\ 0 <= n) \/ decode_from s = Raise IndexError).
  2: { by apply (G (length s)). }
  clear s. induction k as [|k IH]; intros s Hk; destruct s as [|b s1]; try (left; by exists [], 0); [cbn in Hk; lia|].
  cbn [decode_from length] in *. destruct (b =? 0); [left; by exists [], 0|].
  destruct (b =? 6).
  - destruct s1 as [|h [|v s3]]; [by right|by right|]. cbn [length] in Hk.
    destruct (IH s3 ltac:(lia)) as [(t & n & -> & Hn)| ->]; [left|by right]. cbn [mbind outcome_bind]. do 2 eexists. split; [done|lia].
  - destruct (IH s1 ltac:(lia)) as [(t & n & -> & Hn)| ->]; [left|by right]. cbn [mbind outcome_bind]. do 2 eexists. split; [done|lia].
Qed.

Lemma banner_total data fuel : forall addr, 0x0659 - addr <= Z.of_nat fuel ->
  (exists r, banner_strings fuel data addr = Ret r) \/ banner_strings fuel data addr = Raise IndexError.
Proof.
  induction fuel as [|fuel IH]; intros addr Hf; cbn [banner_strings]; destruct (Z.ltb_spec addr 0x0659); cbn [negb]; try (left; by eexists); [lia|].
  unfold decode_string. destruct (decode_total (dropZ (addr - 0x0100) data)) as [(t & n & -> & Hn)| ->]; [|by right].
  cbn [mbind outcome_bind]. destruct (IH (addr + (n + 1)) ltac:(lia)) as [[[l e] ->]| ->]; [left; by eexists|by right].
Qed.

Lemma menu_total data addrs : (exists r, menu_strings data addrs = Ret r) \/ menu_strings data addrs = Raise IndexError.
Proof.
  induction addrs as [|a addrs IH]; [left; by eexists|]. cbn [menu_strings]. unfold decode_string.
  destruct (decode_total (dropZ (a - 0x0100) data)) as [(t & n & -> & Hn)| ->]; [|by right]. cbn [mbind outcome_bind].
  destruct IH as [[r ->]| ->]; [left; by eexists|by right].
Qed.

Lemma table_short f data off : forall rates i, (length data < off + i + length rates)%nat -> rates <> [] ->
  table_lines f data off i rates = Raise IndexError.
Proof.
  induction rates as [|r rates IH]; intros i Hl Hne; [done|]. cbn [table_lines length] in *. unfold index.
  destruct (data !! (off + i)%nat) eqn:E; [|done]. apply lookup_lt_Some in E. cbn [mbind outcome_bind].
  rewrite IH; [done|lia|]. intros ->. cbn in Hl. lia.
Qed.

Lemma table_total f data off rates i : (exists r, table_lines f data off i rates = Ret r) \/ table_lines f data off i rates = Raise IndexError.
Proof.
  revert i. induction rates as [|r rates IH]; intros i; [left; by eexists|]. cbn [table_lines]. unfold index.
  destruct (data !! (off + i)%nat); [|by right]. cbn [mbind outcome_bind]. destruct (IH (S i)) as [[x ->]| ->]; [left; by eexists|by right].
Qed.

Lemma short_file data : zlength data < 0x0C75 -> annotate_confi data = Raise IndexError.
Proof.
  intros H. unfold annotate_confi.
  destruct (banner_total data (Z.to_nat (0x0659 - 0x05E4)) 0x05E4 ltac:(lia)) as [[[l e] ->]| ->]; [|done]. cbn [mbind outcome_bind].
  destruct (menu_total data menu_addrs) as [[m ->]| ->]; [|done]. cbn [mbind outcome_bind].
  destruct (table_total (fun _ => wr4_line) data (Z.to_nat (0x0D5F - 0x0100)) bauds 0) as [[w ->]| ->]; [|done]. cbn [mbind outcome_bind].
  rewrite table_short; [done| |done]. change (length bauds) with 11%nat. unfold zlength in H. lia.
Qed.

(** ** The listing *)

(** A file with the strings [strings] and [s] from 05E4h on, of which [s] is the first to
    reach 0659h, with strings at the menus' addresses, and with the tables. *)
Record confi_file (data : bytes) (strings : list (list token)) (s : list token) : Prop := ConfiFile {
  confi_bytes : all_bytes data;
  confi_length : 0x0C75 <= zlength data;
  confi_tokens : Forall (Forall token_ok) (strings ++ [s]);
  confi_banner : exists rest, dropZ (0x05E4 - 0x0100) data = concat (map string_bytes (strings ++ [s])) ++ rest;
  confi_last : size strings < 0x0659 - 0x05E4 <= size (strings ++ [s]);
  confi_menus : Forall (menu_file data) menu_addrs }.

Lemma wr4_lines_ok (i : nat) baud b : is_byte b -> baud ∈ bauds -> (10 ∉ wr4_line baud b) /\ asm_line (wr4_line baud b) = Ret (None, Data [b]).
Proof.
  intros Hb Hbaud. assert (0 <= baud) as H0 by (revert Hbaud; unfold bauds; rewrite !elem_of_cons, elem_of_nil; lia).
  split; [|by apply asm_line_table]. apply quiet_no_newline. unfold wr4_line, quiet. rewrite !Forall_app.
  split_and!; [decided|apply quiet_no_newline; by apply byte_hex|decided|by apply pad5_quiet|decided|].
  unfold mode_text. destruct (b =? 0xC0), (b =? 0x40); decided.
Qed.

Lemma rate_text_quiet div b : 0 <= 614400 / div -> 0 <= b -> quiet (rate_text div b).
Proof.
  intros Hd Hb. unfold rate_text, quiet. cbv zeta. set (n := if b =? 0 then 0 else _).
  assert (0 <= n).
  { unfold n, tenths. destruct (Z.eqb_spec b 0); [lia|]. apply Z.div_pos; lia. }
  rewrite !Forall_app. split_and!; [apply decimal_quiet, Z.div_pos; lia|decided|]. apply decimal_quiet. pose proof (Z.mod_pos_bound n 10). lia.
Qed.

Lemma ctc_lines_ok (i : nat) baud b : is_byte b -> baud ∈ bauds -> (10 ∉ ctc_line i baud b) /\ asm_line (ctc_line i baud b) = Ret (None, Data [b]).
Proof.
  intros Hb Hbaud. assert (0 <= baud) as H0 by (revert Hbaud; unfold bauds; rewrite !elem_of_cons, elem_of_nil; lia).
  unfold ctc_line. cbv zeta. split; [|by apply asm_line_table]. apply quiet_no_newline. destruct Hb as [Hb1 Hb2] eqn:Ehb. clear Ehb.
  unfold quiet. rewrite !Forall_app.
  split_and!; [decided|apply quiet_no_newline; by apply byte_hex|decided|by apply pad5_quiet|decided| |decided|by apply decimal_quiet|decided|].
  - destruct (i <? 5)%nat; decided.
  - apply rate_text_quiet; [by destruct (i <? 5)%nat|done].
Qed.

Definition listed_image (data : bytes) (over : Z) : list (option Z) :=
  map Some (takeZ (0x75 + over) (dropZ (0x05E4 - 0x0100) data)) ++ replicate (Z.to_nat (0x0D5F - 0x0659)) None ++
  map Some (takeZ 22 (dropZ (0x0D5F - 0x0100) data)) ++ replicate (Z.to_nat (0x1A80 - 0x0D75)) None.

Lemma tables_asms data : all_bytes data -> 0x0C75 <= zlength data -> exists wr4 ctc,
  table_lines (fun _ => wr4_line) data (Z.to_nat (0x0D5F - 0x0100)) 0 bauds = Ret wr4 /\
  table_lines ctc_line data (Z.to_nat (0x0D6A - 0x0100)) 0 bauds = Ret ctc /\
  asms (wr4_heading ++ wr4 ++ ctc_heading ++ ctc) [(label_at 0x0D5F [], 0); (label_at 0x0D6A [], 11)]
    (map Some (takeZ 22 (dropZ (0x0D5F - 0x0100) data))).
Proof.
  intros Hb Hl. unfold zlength in Hl.
  destruct (table_lines_asms (fun _ => wr4_line) data (Z.to_nat (0x0D5F - 0x0100)) wr4_lines_ok Hb bauds 0) as (wr4 & E1 & A1); [done|change (length bauds) with 11%nat; lia|].
  destruct (table_lines_asms ctc_line data (Z.to_nat (0x0D6A - 0x0100)) ctc_lines_ok Hb bauds 0) as (ctc & E2 & A2); [done|change (length bauds) with 11%nat; lia|].
  exists wr4, ctc. split_and!; [done|done|].
  eapply asms_eq; [apply asms_app; [apply wr4_heading_asms|apply asms_app; [exact A1|apply asms_app; [apply ctc_heading_asms|exact A2]]]| |].
  - cbn [app moved_by map fst snd]. do 3 f_equal. change (length bauds) with 11%nat. unfold zlength. rewrite length_map, length_slice. cbn [length]. lia.
  - rewrite !app_nil_l, <- map_app. f_equal. change (length bauds) with 11%nat. rewrite !Nat.add_0_r.
    replace (Z.to_nat (0x0D6A - 0x0100)) with (Z.to_nat (0x0D5F - 0x0100) + 11)%nat by lia.
    rewrite slice_join by lia. rewrite <- slice_dropZ. f_equal.
Qed.

Lemma zlength_Some n (l : bytes) : 0 <= n <= zlength l -> zlength (map Some (takeZ n l)) = n.
Proof. intros H. rewrite takeZ_take. unfold zlength in *. rewrite length_map, length_take. lia. Qed.

Lemma moved_moved d e l : moved_by d (moved_by e l) = moved_by (d + e) l.
Proof. unfold moved_by. rewrite map_map. apply map_ext. intros p. cbn [fst snd]. f_equal. lia. Qed.

Lemma moved_app d a b : moved_by d (a ++ b) = moved_by d a ++ moved_by d b.
Proof. apply map_app. Qed.

Definition named (addrs : list Z) : list (str * Z) := map (fun a => (label_at a [], a)) addrs.

Lemma menu_symbols d addrs : map (fun a => (label_at a [], a - d)) addrs = moved_by (- d) (named addrs).
Proof. unfold moved_by, named. rewrite map_map. apply map_ext. intros a. cbn [fst snd]. f_equal. lia. Qed.

Lemma data_names_parts : data_names = named menu_addrs ++ named [0x0D5F; 0x0D6A] ++ buffer_names_at ++ table_names_at.
Proof. unfold data_names, named, buffer_names_at. rewrite map_app, <- app_assoc. done. Qed.

(** The labels of the pieces put together: each piece's addresses are counted from its
    first line. *)
Lemma symbols_together d :
  moved_by d (moved_by 0 (map (fun a => (label_at a [], a - 0x0659)) menu_addrs ++
    moved_by (0x0D5F - 0x0659) ([(label_at 0x0D5F [], 0); (label_at 0x0D6A [], 11)] ++
      moved_by 22 (moved_by (- 0x0D75) (buffer_names_at ++ table_names_at))))) = moved_by (d - 0x0659) data_names.
Proof.
  rewrite menu_symbols, data_names_parts.
  change [(label_at 0x0D5F [], 0); (label_at 0x0D6A [], 11)] with (moved_by (- 0x0D5F) (named [0x0D5F; 0x0D6A])).
  rewrite !moved_app, !moved_moved. repeat f_equal; lia.
Qed.

Lemma listing_assembled data strings s : confi_file data strings s ->
  let over := size (strings ++ [s]) - 0x75 in
  exists lines syms, annotate_confi data = Ret lines /\ Forall (fun l => 10 ∉ l) lines /\
    assemble 0 lines = Ret (syms ++ map (fun p => (fst p, snd p - 0x04E4 + over)) data_names, listed_image data over) /\
    Forall (fun p => (snd p + 0x04E4, fst p) ∈ names) syms.
Proof.
  intros [Hb Hl Htok [rest Hban] Hlast Hmen] over.
  destruct (banner_strings_asms data Hb strings s (Z.to_nat (0x0659 - 0x05E4)) 0x05E4 rest Htok ltac:(lia) Hban ltac:(lia)) as (bl & bs & E1 & A1 & N1).
  { assert (Hstr : Z.of_nat (length strings) <= size strings).
    { clear. unfold size. induction strings as [|t l IH]; [done|]. cbn [map concat length]. rewrite zlength_app. pose proof (string_bytes_pos t). lia. }
    lia. }
  destruct (menu_strings_asms data menu_addrs Hb Hmen menus_ok) as (ml & E2 & A2 & _).
  assert (head menu_addrs = Some 0x0659) as Eh by (by vm_compute). rewrite Eh in A2. change (default 0x0D5F (Some 0x0659)) with 0x0659 in A2.
  destruct (tables_asms data Hb Hl) as (wr4 & ctc & E3 & E4 & A3).
  assert (A : asms (bl ++ menu_heading ++ ml ++ wr4_heading ++ wr4 ++ ctc_heading ++ ctc ++ buffer_lines ++ conv_lines ++ ending)
    (bs ++ moved_by (over - 0x05E4) data_names) (listed_image data over)).
  { pose proof (asms_app _ _ _ _ _ _ A1 (asms_app _ _ _ _ _ _ menu_heading_asms (asms_app _ _ _ _ _ _ A2 (asms_app _ _ _ _ _ _ A3 tail_asms)))) as A.
    rewrite <- !app_assoc in A. eapply asms_eq; [exact A| |].
    - f_equal. rewrite app_nil_l. change (zlength []) with 0.
      assert (zlength (replicate (Z.to_nat (0x0D5F - 0x0659)) (@None Z)) = 0x0D5F - 0x0659) as -> by (unfold zlength; rewrite length_replicate; lia).
      rewrite (zlength_Some 22), (zlength_Some (size (strings ++ [s]))).
      + rewrite symbols_together. f_equal. unfold over. lia.
      + rewrite Hban. unfold size in *. rewrite zlength_app. pose proof (zlength_pos rest). lia.
      + rewrite dropZ_drop. unfold zlength in *. rewrite length_drop. lia.
    - rewrite app_nil_l. unfold listed_image, over. by replace (0x75 + (size (strings ++ [s]) - 0x75)) with (size (strings ++ [s])) by lia. }
  exists (heading ++ bl ++ menu_heading ++ ml ++ wr4_heading ++ wr4 ++ ctc_heading ++ ctc ++ buffer_lines ++ conv_lines ++ ending),
    (moved_by 0x0100 bs). split_and!.
  - unfold annotate_confi. by rewrite E1, E2, E3, E4.
  - apply Forall_app_2; [decided|apply A].
  - rewrite heading_assembled. destruct A as [_ A]. rewrite <- (app_nil_r (bl ++ _)), A. cbn [assemble mbind outcome_bind].
    rewrite !app_nil_r. do 2 f_equal. rewrite map_app. f_equal. unfold moved_by. rewrite map_map.
    apply map_ext. intros p. cbn [fst snd]. f_equal. unfold over. lia.
  - unfold moved_by. apply Forall_map. eapply Forall_impl; [exact N1|]. intros p Hp. cbn [fst snd].
    by replace (0x0100 + snd p + 0x04E4) with (0x05E4 + snd p) by lia.
Qed.

(** C31: the listing of a configuration program, put through the assembler, is the data
    part of the file: the strings as bytes, space for the menus, the tables as bytes,
    space up to 1A80h, and each label of LABELS and of the conversion tables stands where
    the program has it, less 4E4h, since the origin 0100h is given to what begins at
    05E4h, and plus what the strings run over 0659h.  No line contains a line end.
    Strings are decoded, cursor positions of any value included, and measured, up to the
    zero byte that ends them; the lines of a jump table stand for its words; the rate
    shown is the nearest tenth.  A file that ends within the tables or in front of
    them raises IndexError. *)
Theorem confi_is_listed data strings s : confi_file data strings s ->
  (let over := size (strings ++ [s]) - 0x75 in
   exists lines syms, annotate_confi data = Ret lines /\ Forall (fun l => 10 ∉ l) lines /\
    assemble 0 lines = Ret (syms ++ map (fun p => (fst p, snd p - 0x04E4 + over)) data_names, listed_image data over) /\
    Forall (fun p => (snd p + 0x04E4, fst p) ∈ names) syms)
  /\ (forall addr ts rest, Forall token_ok ts -> dropZ (addr - 0x0100) data = string_bytes ts ++ rest ->
       decode_string data addr = Ret (string_text ts, zlength (string_bytes ts)))
  /\ (forall addr count, (addr, count) ∈ JUMP_TABLES -> exists lines, format_jump_table data addr count = Ret lines /\
       jump_values lines = Ret (words_at data (Z.to_nat (addr - 0x0100)) count))
  /\ (forall clock b, clock ∈ [9600; 38400] -> 0 < b < 256 -> 2 * Z.abs (10 * clock - tenths clock b * b) < b)
  /\ (forall short, zlength short < 0x0C75 -> annotate_confi short = Raise IndexError).
Proof.
  intros H. split_and!.
  - by apply listing_assembled.
  - intros addr ts rest. apply decode_string_tokens.
  - intros addr count Hin. apply jump_lines_words; [apply H|]. pose proof (confi_length _ _ _ H) as Hl. unfold zlength in Hl.
    assert (F : Forall (fun p => fst p + 2 * Z.of_nat (snd p) <= 0x0D75 /\ 0x0100 <= fst p) JUMP_TABLES) by decided.
    apply (proj1 (Forall_forall _ _) F) in Hin as [H1 H2]. cbn [fst snd] in *. lia.
  - apply tenths_not_half.
  - apply short_file.
Qed.

(** A file of zeros but for 128 letters from 05E4h on: the first string, 129 bytes long,
    runs 12 bytes into the menus, and the labels are that much too high. *)
Definition letters_file : bytes := replicate (Z.to_nat 0x04E4) 0 ++ replicate 128 65 ++ replicate (Z.to_nat 0x1400) 0.

Lemma letters_confi : confi_file letters_file [] (replicate 128 (Char 65)).
Proof.
  split.
  - unfold letters_file. rewrite !Forall_app. split_and!; apply Forall_replicate; done.
  - by vm_compute.
  - apply Forall_singleton, Forall_replicate. done.
  - exists (replicate (Z.to_nat 0x13FF) 0). by vm_compute.
  - by vm_compute.
  - assert (F : Forall (fun a => take 12 (dropZ (a - 0x0100) letters_file) = replicate 11 65 ++ [0] \/ take 1 (dropZ (a - 0x0100) letters_file) = [0]) menu_addrs) by decided.
    eapply Forall_impl; [exact F|]. intros a [Ha|Ha]; unfold menu_file.
    + exists (replicate 11 (Char 65)), (drop 12 (dropZ (a - 0x0100) letters_file)). split; [by apply Forall_replicate|].
      rewrite <- (take_drop 12 (dropZ (a - 0x0100) letters_file)) at 1. by rewrite Ha.
    + exists [], (drop 1 (dropZ (a - 0x0100) letters_file)). split; [constructor|].
      rewrite <- (take_drop 1 (dropZ (a - 0x0100) letters_file)) at 1. by rewrite Ha.
Qed.

Lemma confi_is_listed_witness : exists lines syms, annotate_confi letters_file = Ret lines /\
  assemble 0 lines = Ret (syms ++ map (fun p => (fst p, snd p - 0x04E4 + 12)) data_names, listed_image letters_file 12).
Proof.
  destruct (proj1 (confi_is_listed letters_file [] (replicate 128 (Char 65)) letters_confi)) as (lines & syms & H1 & _ & H2 & _).
  assert (size ([] ++ [replicate 128 (Char 65)]) - 0x75 = 12) as E by (by vm_compute).
  exists lines, syms. split; [exact H1|]. rewrite H2, E. reflexivity.
Defined.
