(* ===== verification/Profile.v ===== *)
(** * Profiles of instruction traces: rcbios-in-c/profile_trace.py.

    The script counts the program counters of a trace ([count_trace]), finds for each the
    function it lies in by a binary search among the symbols of a map file
    ([addr_to_func]) and ranks functions and addresses.  [profile] is the numbers
    and names of the report and the text of the histogram file, or the exit status; the
    report's layout and percentages are left out.  Texts are ASCII. *)

From S2P Require Import Prelude Imd Hex Text Labels.
#[local] Open Scope Z_scope.

Definition is_hex (c : Z) : bool := match hexval c with Some _ => true | None => false end.

(** ** Symbols *)

(** [re.match(r'(\w+)\s*=\s*\$([0-9A-Fa-f]+)', line)]: no part can give back what it
    took, since the next begins with another kind of character. *)
Definition match_symbol (line : str) : option (str * str) :=
  let name := take_while is_word line in
  match name, drop_while py_space (drop_while is_word line) with
  | _ :: _, 61 :: rest =>
      match drop_while py_space rest with
      | 36 :: rest => match take_while is_hex rest with [] => None | digits => Some (name, digits) end
      | _ => None
      end
  | _, _ => None
  end.

Abbreviation symbol := (Z * str)%type.

Fixpoint symbols_of (lines : list str) : outcome (list symbol) :=
  match lines with
  | [] => Ret []
  | line :: lines' =>
      match match_symbol line with
      | Some (name, digits) => a ← int16 digits; rest ← symbols_of lines'; Ret ((a, name) :: rest)
      | None => symbols_of lines'
      end
  end.

(** The order of pairs: by address, then by name. *)
Definition symbol_le (a b : symbol) : bool :=
  if fst a <? fst b then true else if fst b <? fst a then false else str_leb (snd a) (snd b).

(** [map_file] is the file's text, [None] when it does not exist. *)
Definition load_symbols (map_file : option str) : outcome (list symbol) :=
  match map_file with
  | None => Ret []
  | Some text => syms ← symbols_of (readlines text); Ret (sort_by symbol_le syms)
  end.

(** ** addr_to_func *)

Fixpoint search (fuel : nat) (addr : Z) (syms : list symbol) (lo hi : Z) (best : option Z) : outcome (option Z) :=
  if negb (lo <=? hi) then Ret best else
  match fuel with
  | O => Raise OutOfFuel
  | S fuel' =>
      let mid := (lo + hi) / 2 in
      match syms !! Z.to_nat mid with
      | None => Raise IndexError
      | Some s => if fst s <=? addr then search fuel' addr syms (mid + 1) hi (Some mid)
                  else search fuel' addr syms lo (mid - 1) best
      end
  end.

Definition addr_to_func (addr : Z) (syms : list symbol) : outcome (str * Z) :=
  best ← search (length syms) addr syms 0 (zlength syms - 1) None;
  match best with
  | Some i => match syms !! Z.to_nat i with Some s => Ret (snd s, addr - fst s) | None => Raise IndexError end
  | None => Ret (chars "0x" ++ fmt_hex 4 addr, 0)
  end.

(** ** Counting *)

(** A Counter: keys in the order they came. *)
Section Counter.
Context {K : Type} `{EqDecision K}.

Fixpoint add (k : K) (n : Z) (c : list (K * Z)) : list (K * Z) :=
  match c with
  | [] => [(k, n)]
  | (k', m) :: c' => if decide (k = k') then (k', m + n) :: c' else (k', m) :: add k n c'
  end.

Fixpoint count_of (k : K) (c : list (K * Z)) : Z :=
  match c with [] => 0 | (k', m) :: c' => if decide (k = k') then m else count_of k c' end.

(** [most_common(n)] and [sorted(..., key=lambda x: -x[1])[:n]]. *)
Definition most_common (n : nat) (c : list (K * Z)) : list (K * Z) := take n (sort_by (fun a b => snd b <=? snd a) c).
End Counter.

(** [re.match(r'^\s*([0-9A-Fa-f]{4}):', line)]. *)
Definition match_pc (line : str) : option str :=
  match drop_while py_space line with
  | a :: b :: c :: d :: 58 :: _ => if is_hex a && is_hex b && is_hex c && is_hex d then Some [a; b; c; d] else None
  | _ => None
  end.

Fixpoint count_lines (lines : list str) (pcs : list (Z * Z)) (total : Z) : outcome (list (Z * Z) * Z) :=
  match lines with
  | [] => Ret (pcs, total)
  | line :: lines' =>
      match match_pc line with
      | Some digits => addr ← int16 digits; count_lines lines' (add addr 1 pcs) (total + 1)
      | None => count_lines lines' pcs total
      end
  end.

Definition count_trace (trace : str) : outcome (list (Z * Z) * Z) := count_lines (readlines trace) [] 0.

Fixpoint func_profile (syms : list symbol) (pcs : list (Z * Z)) (funcs : list (str * Z)) : outcome (list (str * Z)) :=
  match pcs with
  | [] => Ret funcs
  | (addr, count) :: pcs' =>
      '(name, _) ← addr_to_func addr syms;
      func_profile syms pcs' (add name count funcs)
  end.

(** ** The report *)

Definition in_bios (a : Z) : bool := (0xDA00 <=? a) && (a <=? 0xFFFF).
Definition in_bdos (a : Z) : bool := (0xCC06 <=? a) && (a <? 0xDA00).
Definition in_ccp (a : Z) : bool := (0xC400 <=? a) && (a <? 0xCC06).
Definition in_tpa (a : Z) : bool := a <? 0xC400.

Definition counted_in (range : Z -> bool) (pcs : list (Z * Z)) : Z :=
  zsum (map snd (List.filter (fun p => range (fst p)) pcs)).

(** The label of a hotspot. *)
Definition place (syms : list symbol) (addr : Z) : outcome str :=
  '(name, offset) ← addr_to_func addr syms;
  Ret (if offset =? 0 then name else name ++ chars "+" ++ decimal offset).

Fixpoint hotspots (syms : list symbol) (l : list (Z * Z)) : outcome (list (Z * str * Z)) :=
  match l with
  | [] => Ret []
  | (addr, count) :: l' => label ← place syms addr; rest ← hotspots syms l'; Ret ((addr, label, count) :: rest)
  end.

(** [any(0xDA00 <= a <= 0xFFFF for ...)]: does the function [k] have an address in the
    BIOS? *)
Fixpoint has_bios (syms : list symbol) (k : str) (pcs : list (Z * Z)) : outcome bool :=
  match pcs with
  | [] => Ret false
  | (a, _) :: pcs' =>
      '(name, _) ← addr_to_func a syms;
      r ← has_bios syms k pcs';
      Ret ((bool_decide (name = k) && in_bios a) || r)
  end.

Fixpoint bios_funcs (syms : list symbol) (pcs : list (Z * Z)) (funcs : list (str * Z)) : outcome (list (str * Z)) :=
  match funcs with
  | [] => Ret []
  | (k, v) :: funcs' => b ← has_bios syms k pcs; rest ← bios_funcs syms pcs funcs'; Ret (if b : bool then (k, v) :: rest else rest)
  end.

(** The lines of the histogram file, in the order of addresses. *)
Fixpoint hist_lines (syms : list symbol) (pcs : list (Z * Z)) : outcome str :=
  match pcs with
  | [] => Ret []
  | (addr, count) :: pcs' =>
      '(name, offset) ← addr_to_func addr syms;
      rest ← hist_lines syms pcs';
      Ret (chars "0x" ++ fmt_hex 4 addr ++ [9] ++ decimal count ++ [9] ++ name ++ chars "+" ++ decimal offset ++ [10] ++ rest)
  end.

Definition hist_file (syms : list symbol) (pcs : list (Z * Z)) : outcome str :=
  text ← hist_lines syms (sort_by by_number pcs);
  Ret (chars "# addr" ++ [9] ++ chars "count" ++ [9] ++ chars "function" ++ [10] ++ text).

Record report : Type := Report {
  total : Z; bios : Z; bdos : Z; ccp : Z; tpa : Z;
  functions : list (str * Z); hot : list (Z * str * Z); bios_functions : list (str * Z); histogram : str }.

(** main, from the two files' texts. *)
Definition profile (trace : str) (map_file : option str) : outcome report :=
  syms ← load_symbols map_file;
  '(pcs, n) ← count_trace trace;
  if n =? 0 then Raise (SystemExit 1) else
  funcs ← func_profile syms pcs [];
  h ← hotspots syms (most_common 30 pcs);
  bf ← bios_funcs syms pcs funcs;
  hist ← hist_file syms pcs;
  Ret (Report n (counted_in in_bios pcs) (counted_in in_bdos pcs) (counted_in in_ccp pcs) (counted_in in_tpa pcs)
    (most_common 30 funcs) h (if 0 <? counted_in in_bios pcs then most_common 20 bf else []) hist).

(** ** Numbers *)

Definition value16 (acc : Z) (s : str) : Z := foldl (fun a c => a * 16 + default 0 (hexval c)) acc s.
Definition hexes (s : str) : Prop := Forall (fun c => is_hex c = true) s.

Lemma hexval_digit c d : hexval c = Some d -> 0 <= d < 16 /\ py_space c = false /\ c <> 43 /\ c <> 45 /\ c <> 120 /\ c <> 88.
Proof.
  unfold hexval, py_space. intros H. repeat case_match; try done; injection H as <-; repeat match goal with H : _ && _ = true |- _ => apply andb_true_iff in H as [? ?] end; lia.
Qed.

Lemma base16_hexes s : hexes s -> forall b acc, b = true \/ s <> [] -> base16_digits b acc s = Ret (value16 acc s).
Proof.
  induction 1 as [|c s Hc Hs IH]; intros b acc H; cbn [base16_digits]; [by destruct H as [->|]|].
  unfold is_hex in Hc. unfold value16. cbn [foldl]. destruct (hexval c) as [d|] eqn:E; [|done]. cbn [default from_option]. unfold id.
  apply IH. by left.
Qed.

Lemma int16_hexes s : hexes s -> s <> [] -> int16 s = Ret (value16 0 s).
Proof.
  intros H Hne. rewrite <- (base16_hexes s H false 0) by (by right).
  assert (Hp : Forall (fun c => py_space c = false /\ c <> 43 /\ c <> 45 /\ c <> 120 /\ c <> 88) s).
  { eapply Forall_impl; [exact H|]. intros c Hc. unfold is_hex in Hc. destruct (hexval c) as [d|] eqn:E; [|done].
    apply hexval_digit in E. naive_solver. }
  destruct s as [|c s]; [done|]. unfold int16. apply Forall_cons in Hp as [(Hc & H43 & H45 & _) Hp].
  rewrite strip_clean; [|done|by eapply Forall_impl; [exact Hp|]; intros d (? & _)].
  assert (base16_unsigned (c :: s) = base16_digits false 0 (c :: s)) as <-.
  { unfold base16_unsigned. destruct s as [|x s]; [by repeat case_match|]. apply Forall_cons in Hp as [(_ & _ & _ & H120 & H88) _].
    rewrite (proj2 (Z.eqb_neq x 120)), (proj2 (Z.eqb_neq x 88)) by done. by repeat case_match. }
  destruct c as [|p|p]; try done. do 6 (destruct p as [p|p|]; try done).
Qed.

Lemma value16_range s : hexes s -> forall acc, 0 <= acc -> acc * 16 ^ Z.of_nat (length s) <= value16 acc s < (acc + 1) * 16 ^ Z.of_nat (length s).
Proof.
  induction 1 as [|c s Hc Hs IH]; intros acc Ha; [cbn; lia|]. unfold is_hex in Hc. destruct (hexval c) as [d|] eqn:E; [|done].
  pose proof (hexval_digit _ _ E) as (Hd & _).
  assert (value16 acc (c :: s) = value16 (acc * 16 + d) s) as -> by (unfold value16; cbn [foldl]; by rewrite E).
  specialize (IH (acc * 16 + d) ltac:(lia)). cbn [length]. rewrite Nat2Z.inj_succ, Z.pow_succ_r by lia.
  pose proof (Z.pow_pos_nonneg 16 (Z.of_nat (length s)) ltac:(lia) ltac:(lia)). nia.
Qed.

(** ** The binary search *)

Definition le_symbol (a b : symbol) : Prop := symbol_le a b = true.

Lemma symbol_le_fst a b : le_symbol a b -> fst a <= fst b.
Proof. unfold le_symbol, symbol_le. destruct (Z.ltb_spec (fst a) (fst b)), (Z.ltb_spec (fst b) (fst a)); [lia|lia|done|lia]. Qed.

(** The nearest symbol at or below an address. *)
Definition nearest (addr : Z) (syms : list symbol) : option symbol := last (filter (fun s => fst s <= addr) syms).

Definition rank (addr : Z) (syms : list symbol) : nat := length (filter (fun s => fst s <= addr) syms).

Lemma none_below addr syms x : Forall (le_symbol x) syms -> addr < fst x -> filter (fun s : symbol => fst s <= addr) syms = [].
Proof.
  intros H Hx. induction H as [|t syms Ht H IH]; [done|]. rewrite filter_cons, decide_False; [done|]. apply symbol_le_fst in Ht. lia.
Qed.

Lemma filter_sorted addr syms : StronglySorted le_symbol syms -> filter (fun s => fst s <= addr) syms = take (rank addr syms) syms.
Proof.
  unfold rank. induction 1 as [|s syms Hs IH Hall]; [done|]. rewrite filter_cons. destruct (decide (fst s <= addr)); cbn [length take]; [by f_equal|].
  by rewrite (none_below addr syms s) by (done || lia).
Qed.

Lemma rank_le addr syms : (rank addr syms <= length syms)%nat.
Proof. apply length_filter. Qed.

Lemma rank_spec addr syms i s : StronglySorted le_symbol syms -> syms !! i = Some s -> (fst s <= addr <-> (i < rank addr syms)%nat).
Proof.
  intros Hs. revert i. unfold rank. induction Hs as [|x syms Hs IH Hall]; intros i Hi; [done|]. rewrite filter_cons.
  destruct (decide (fst x <= addr)) as [Hx|Hx]; cbn [length].
  - destruct i as [|i]; cbn in Hi; [injection Hi as ->; split; [lia|done]|]. rewrite (IH i Hi). lia.
  - rewrite (none_below addr syms x) by (done || lia). cbn [length]. destruct i as [|i]; cbn in Hi; [injection Hi as ->; lia|].
    apply (proj1 (Forall_lookup _ _) Hall) in Hi as Hle%symbol_le_fst. lia.
Qed.

Lemma search_rank addr syms fuel : StronglySorted le_symbol syms -> forall lo hi best,
  0 <= lo -> hi < zlength syms -> lo <= hi + 1 -> hi + 1 - lo <= Z.of_nat fuel -> lo <= Z.of_nat (rank addr syms) <= hi + 1 ->
  best = (if lo =? 0 then None else Some (lo - 1)) ->
  search fuel addr syms lo hi best = Ret (if (rank addr syms =? 0)%nat then None else Some (Z.of_nat (rank addr syms) - 1)).
Proof.
  intros Hs. assert (Hend : forall lo, lo = Z.of_nat (rank addr syms) ->
    (if lo =? 0 then None else Some (lo - 1)) = (if (rank addr syms =? 0)%nat then None else Some (Z.of_nat (rank addr syms) - 1))).
  { intros lo ->. destruct (Z.eqb_spec (Z.of_nat (rank addr syms)) 0), (Nat.eqb_spec (rank addr syms) 0); done || lia. }
  induction fuel as [|fuel IH]; intros lo hi best H0 Hhi Hlo Hf Hk ->; cbn [search];
    destruct (Z.leb_spec lo hi) as [Hle|Hgt]; cbn [negb]; try (rewrite Hend by lia; done); [lia|].
  cbv zeta. assert (lo <= (lo + hi) / 2 <= hi) as Hm by (Z.div_mod_to_equations; lia). set (mid := (lo + hi) / 2) in *.
  unfold zlength in Hhi. destruct (lookup_lt_is_Some_2 syms (Z.to_nat mid) ltac:(lia)) as [s Hl]. rewrite Hl.
  pose proof (rank_spec addr syms _ s Hs Hl) as Hr. destruct (Z.leb_spec (fst s) addr) as [Ha|Ha].
  - apply IH; unfold zlength; try lia. rewrite (proj2 (Z.eqb_neq _ 0)) by lia. f_equal. lia.
  - apply IH; unfold zlength; try lia. done.
Qed.

(** What addr_to_func gives in a sorted table. *)
Definition func_of (addr : Z) (syms : list symbol) : str * Z :=
  match nearest addr syms with Some s => (snd s, addr - fst s) | None => (chars "0x" ++ fmt_hex 4 addr, 0) end.

Lemma addr_to_func_nearest addr syms : StronglySorted le_symbol syms -> addr_to_func addr syms = Ret (func_of addr syms).
Proof.
  intros Hs. unfold addr_to_func, func_of, nearest. rewrite filter_sorted by done. pose proof (rank_le addr syms) as Hr.
  rewrite (search_rank addr syms) by (done || unfold zlength; lia). cbn [mbind outcome_bind].
  destruct (Nat.eqb_spec (rank addr syms) 0) as [->|Hne]; [done|].
  replace (Z.to_nat (Z.of_nat (rank addr syms) - 1)) with (rank addr syms - 1)%nat by lia.
  rewrite last_lookup, length_take, Nat.min_l by done. rewrite lookup_take_lt by lia.
  replace (Nat.pred (rank addr syms)) with (rank addr syms - 1)%nat by lia.
  destruct (lookup_lt_is_Some_2 syms (rank addr syms - 1) ltac:(lia)) as [s ->]. done.
Qed.

(** ** Sorting *)

Lemma sort_by_StronglySorted {A} (le : A -> A -> bool) (l : list A) :
  (forall a b, le a b = true \/ le b a = true) -> (forall a b c, le a b = true -> le b c = true -> le a c = true) ->
  StronglySorted (fun a b => le a b = true) (sort_by le l).
Proof.
  intros Ht Htr. induction l as [|x l IH]; [constructor|]. change (sort_by le (x :: l)) with (insert_by le x (sort_by le l)). revert IH. generalize (sort_by le l). intros k.
  induction 1 as [|y k Hs IH Hy]; cbn [insert_by]; [by repeat constructor|]. destruct (le x y) eqn:E.
  - constructor; [by constructor|]. constructor; [done|]. eapply Forall_impl; [exact Hy|]. intros z. by apply Htr.
  - constructor; [done|]. rewrite insert_by_perm. constructor; [|done]. destruct (Ht x y); [congruence|done].
Qed.

Lemma str_leb_total a b : str_leb a b = true \/ str_leb b a = true.
Proof. apply (str_le_total a b). Qed.

Lemma load_sorted l : StronglySorted le_symbol (sort_by symbol_le l).
Proof.
  apply sort_by_StronglySorted.
  - intros a b. unfold symbol_le. destruct (Z.ltb_spec (fst a) (fst b)), (Z.ltb_spec (fst b) (fst a)); try (by left); try (by right). apply str_leb_total.
  - intros a b c. unfold symbol_le.
    destruct (Z.ltb_spec (fst a) (fst b)), (Z.ltb_spec (fst b) (fst a)), (Z.ltb_spec (fst b) (fst c)), (Z.ltb_spec (fst c) (fst b)),
      (Z.ltb_spec (fst a) (fst c)), (Z.ltb_spec (fst c) (fst a)); try done; try lia. apply str_le_trans.
Qed.

(** ** Counters *)

Section CounterFacts.
Context {K : Type} `{EqDecision K}.
Implicit Types c : list (K * Z).

Lemma count_add k k' n c : count_of k (add k' n c) = count_of k c + (if decide (k = k') then n else 0).
Proof.
  induction c as [|[k0 m] c IH]; cbn [add count_of]; [repeat case_decide; congruence || lia|].
  destruct (decide (k' = k0)) as [->|Hne]; cbn [count_of]; repeat case_decide; congruence || lia.
Qed.

Lemma keys_add k n c x : x ∈ map fst (add k n c) <-> x = k \/ x ∈ map fst c.
Proof.
  induction c as [|[k0 m] c IH]; cbn [add map fst]; [by rewrite elem_of_cons, elem_of_nil|].
  destruct (decide (k = k0)) as [->|Hne]; cbn [map fst]; rewrite !elem_of_cons; [naive_solver|]. rewrite IH. naive_solver.
Qed.

Lemma NoDup_add k n c : NoDup (map fst c) -> NoDup (map fst (add k n c)).
Proof.
  induction c as [|[k0 m] c IH]; cbn [add map fst]; [intros _; constructor; [by intros ?%elem_of_nil|constructor]|].
  intros [H1 H2]%NoDup_cons. destruct (decide (k = k0)) as [->|Hne]; cbn [map fst]; constructor; auto.
  rewrite keys_add. naive_solver.
Qed.

Lemma count_in k n c : NoDup (map fst c) -> (k, n) ∈ c -> count_of k c = n.
Proof.
  induction c as [|[k0 m] c IH]; cbn [map fst count_of]; [by intros _ ?%elem_of_nil|]. intros [H1 H2]%NoDup_cons [E|Hin]%elem_of_cons.
  - injection E as -> ->. by rewrite decide_True.
  - rewrite decide_False; [by apply IH|]. intros ->. apply H1. apply list_elem_of_fmap. by exists (k0, n).
Qed.

(** [l] is a ranking: the first [n] of the counter's entries, the highest counts first. *)
Definition top (n : nat) (c l : list (K * Z)) : Prop :=
  exists rest, c ≡ₚ l ++ rest /\ length l = Nat.min n (length c) /\
    StronglySorted (fun a b => snd b <= snd a) l /\ Forall (fun x => Forall (fun y => snd y <= snd x) rest) l.

Lemma most_common_top n c : top n c (most_common n c).
Proof.
  unfold most_common. set (f := fun a b : K * Z => snd b <=? snd a). pose proof (sort_by_perm f c) as Hp.
  assert (Hs : StronglySorted (fun a b => snd b <= snd a) (sort_by f c)).
  { pose proof (sort_by_StronglySorted f c) as H. assert (E : StronglySorted (fun a b => f a b = true) (sort_by f c)) by (apply H; unfold f; lia).
    clear -E. induction E as [|x l Hl IH Hx]; constructor; [done|]. eapply Forall_impl; [exact Hx|]. intros y. unfold f. lia. }
  exists (drop n (sort_by f c)). split_and!.
  - by rewrite take_drop.
  - rewrite length_take. by rewrite Hp.
  - rewrite <- (take_drop n) in Hs. by apply StronglySorted_app in Hs as (_ & ? & _).
  - rewrite <- (take_drop n) in Hs. apply StronglySorted_app in Hs as (Hcross & _ & _).
    apply Forall_forall. intros x Hx. apply Forall_forall. intros y Hy. by apply Hcross.
Qed.
End CounterFacts.

(** ** The trace *)

Definition pcs_of (lines : list str) : list Z := omap (fun l => value16 0 <$> match_pc l) lines.

(** How often [P] holds. *)
Definition times (P : Z -> bool) (l : list Z) : Z := zlength (List.filter P l).

Lemma match_pc_hexes line digits : match_pc line = Some digits -> hexes digits /\ length digits = 4%nat.
Proof.
  unfold match_pc. repeat case_match; try done. intros [= <-].
  repeat match goal with H : _ && _ = true |- _ => apply andb_true_iff in H as [? ?] end. split; [|done].
  unfold hexes. by repeat constructor.
Qed.

Lemma times_cons P a l : times P (a :: l) = (if P a then 1 else 0) + times P l.
Proof. unfold times. cbn [List.filter]. destruct (P a); [by rewrite zlength_cons|done]. Qed.

Record counts_of (l : list Z) (c : list (Z * Z)) : Prop := CountsOf {
  counts_nodup : NoDup (map fst c);
  counts_times a : count_of a c = times (Z.eqb a) l;
  counts_keys a : a ∈ map fst c <-> a ∈ l }.

Lemma counts_add l c a : counts_of l c -> counts_of (a :: l) (add a 1 c).
Proof.
  intros [H1 H2 H3]. split.
  - by apply NoDup_add.
  - intros x. rewrite count_add, H2, times_cons. destruct (Z.eqb_spec x a); case_decide; lia.
  - intros x. rewrite keys_add, elem_of_cons. by rewrite H3.
Qed.

Lemma count_lines_ok lines : forall l c n, counts_of l c -> exists c' l',
  count_lines lines c n = Ret (c', n + zlength (pcs_of lines)) /\ counts_of l' c' /\ l' ≡ₚ pcs_of lines ++ l.
Proof.
  induction lines as [|line lines IH]; intros l c n H; cbn [count_lines].
  - exists c, l. split_and!; [|done|done]. cbn. by rewrite Z.add_0_r.
  - unfold pcs_of. cbn [omap list_omap]. destruct (match_pc line) as [digits|] eqn:E; cbn [fmap option_fmap option_map]; [|by apply IH].
    apply match_pc_hexes in E as [Hh Hl]. rewrite int16_hexes by (done || by intros ->). cbn [mbind outcome_bind].
    destruct (IH (value16 0 digits :: l) (add (value16 0 digits) 1 c) (n + 1) (counts_add _ _ _ H)) as (c' & l' & E' & H' & P').
    exists c', l'. split_and!; [|done|].
    + rewrite E', zlength_cons. do 2 f_equal. unfold pcs_of. lia.
    + rewrite P'. change (omap _ lines) with (pcs_of lines). by rewrite <- Permutation_middle.
Qed.

Lemma times_perm P l l' : l ≡ₚ l' -> times P l = times P l'.
Proof. intros H. induction H; rewrite ?times_cons in *; lia || congruence. Qed.

Lemma count_trace_ok trace : exists c, count_trace trace = Ret (c, zlength (pcs_of (readlines trace))) /\ counts_of (pcs_of (readlines trace)) c.
Proof.
  destruct (count_lines_ok (readlines trace) [] [] 0) as (c & l & E & [H1 H2 H3] & P).
  - split; [constructor|done|]. by intros a; cbn.
  - rewrite app_nil_r in P. exists c. split; [exact E|]. split; [done| |].
    + intros a. by rewrite H2, (times_perm _ _ _ P).
    + intros a. by rewrite H3, P.
Qed.

Lemma pcs_range lines : Forall (fun a => 0 <= a < 65536) (pcs_of lines).
Proof.
  unfold pcs_of. induction lines as [|line lines IH]; [constructor|]. cbn [omap list_omap].
  destruct (match_pc line) as [digits|] eqn:E; cbn [fmap option_fmap option_map]; [|done]. constructor; [|done].
  apply match_pc_hexes in E as [Hh Hl]. pose proof (value16_range digits Hh 0 ltac:(lia)) as H. rewrite Hl in H. cbn in H |- *. lia.
Qed.

(** ** Sums over a counter *)

Lemma zsum_single x ks : NoDup ks -> x ∈ ks -> zsum (map (fun a => if a =? x then 1 else 0) ks) = 1.
Proof.
  induction 1 as [|k ks Hk Hn IH]; [by intros ?%elem_of_nil|]. cbn [map]. rewrite zsum_cons.
  assert (Z0 : forall ks, x ∉ ks -> zsum (map (fun a => if a =? x then 1 else 0) ks) = 0).
  { clear. induction ks as [|k ks IH]; [done|]. intros [H1 H2]%not_elem_of_cons. cbn [map]. rewrite zsum_cons, IH by done.
    rewrite (proj2 (Z.eqb_neq k x)) by congruence. lia. }
  intros [->|Hx]%elem_of_cons; [rewrite Z.eqb_refl, Z0 by done; lia|].
  rewrite IH by done. rewrite (proj2 (Z.eqb_neq k x)); [lia|]. by intros ->.
Qed.

Lemma zsum_map_add {A} (f g : A -> Z) l : zsum (map (fun x => f x + g x) l) = zsum (map f l) + zsum (map g l).
Proof. induction l as [|x l IH]; [done|]. cbn [map]. rewrite !zsum_cons, IH. lia. Qed.

Lemma zsum_zero {A} (f : A -> Z) l : (forall x, x ∈ l -> f x = 0) -> zsum (map f l) = 0.
Proof.
  induction l as [|x l IH]; intros H; [done|]. cbn [map]. rewrite zsum_cons, IH, (H x) by (apply list_elem_of_here || (intros y Hy; apply H; by right)). done.
Qed.

Lemma group_times range l ks : NoDup ks -> (forall a, a ∈ l -> a ∈ ks) ->
  zsum (map (fun a => times (Z.eqb a) l) (List.filter range ks)) = times range l.
Proof.
  intros Hn. induction l as [|x l IH]; intros Hin; [apply zsum_zero; done|].
  assert (E : map (fun a => times (Z.eqb a) (x :: l)) (List.filter range ks) =
    map (fun a => (if a =? x then 1 else 0) + times (Z.eqb a) l) (List.filter range ks)) by (apply map_ext; intros a; apply times_cons).
  rewrite E, zsum_map_add, IH, times_cons by (intros a Ha; apply Hin; by right). f_equal.
  destruct (range x) eqn:R.
  - apply zsum_single; [by apply NoDup_ListNoDup, List.NoDup_filter, NoDup_ListNoDup|].
    apply list_elem_of_In, filter_In. split; [|done]. apply list_elem_of_In, Hin, list_elem_of_here.
  - apply zsum_zero. intros a Ha. destruct (Z.eqb_spec a x) as [->|]; [|done].
    apply list_elem_of_In, filter_In in Ha as [_ Ha]. congruence.
Qed.

Lemma counted_times range l c : counts_of l c -> counted_in range c = times range l.
Proof.
  intros [H1 H2 H3]. rewrite <- (group_times range l (map fst c) H1) by (intros a; apply H3). unfold counted_in.
  assert (F : Forall (fun p => snd p = times (Z.eqb (fst p)) l) c).
  { apply Forall_forall. intros [a n] Hin. cbn [fst snd]. rewrite <- H2. symmetry. by apply count_in. }
  clear H1 H2 H3. f_equal. induction F as [|p c Hp F IH]; [done|]. cbn [List.filter map]. destruct (range (fst p)); cbn [map]; by rewrite IH, ?Hp.
Qed.

Section Reported.
Context (syms : list symbol) (Hs : StronglySorted le_symbol syms).

Definition name_at (a : Z) : str := fst (func_of a syms).
Definition is_named (k : str) (a : Z) : bool := bool_decide (name_at a = k).

Lemma func_profile_ok pcs : forall funcs, NoDup (map fst funcs) -> exists F, func_profile syms pcs funcs = Ret F /\ NoDup (map fst F) /\
  forall k, count_of k F = count_of k funcs + counted_in (is_named k) pcs.
Proof.
  induction pcs as [|[a n] pcs IH]; intros funcs Hn; cbn [func_profile].
  - exists funcs. split_and!; [done|done|]. intros k. cbn. lia.
  - rewrite addr_to_func_nearest by done. cbn [mbind outcome_bind]. fold (name_at a).
    destruct (func_of a syms) as [name off] eqn:E. assert (En : name_at a = name) by (unfold name_at; by rewrite E).
    destruct (IH (add name n funcs) (NoDup_add _ _ _ Hn)) as (F & EF & HF & HC). exists F. split_and!; [done|done|].
    intros k. rewrite HC, count_add. unfold counted_in. cbn [List.filter fst]. unfold is_named at 2. rewrite En.
    destruct (decide (k = name)) as [->|Hne]; [rewrite bool_decide_eq_true_2 by done; cbn [map snd]; rewrite zsum_cons; lia|].
    rewrite bool_decide_eq_false_2 by congruence. lia.
Qed.

Definition hot_label (a : Z) : str :=
  let '(name, offset) := func_of a syms in if offset =? 0 then name else name ++ chars "+" ++ decimal offset.

Lemma hotspots_ok l : hotspots syms l = Ret (map (fun p => (fst p, hot_label (fst p), snd p)) l).
Proof.
  induction l as [|[a n] l IH]; [done|]. cbn [hotspots map fst snd]. unfold place, hot_label. rewrite addr_to_func_nearest by done. cbn [mbind outcome_bind].
  destruct (func_of a syms) as [name off]. cbn [mbind outcome_bind]. by rewrite IH.
Qed.

Lemma has_bios_ok k pcs : has_bios syms k pcs = Ret (existsb (fun p => is_named k (fst p) && in_bios (fst p)) pcs).
Proof.
  induction pcs as [|[a n] pcs IH]; [done|]. cbn [has_bios existsb fst]. rewrite addr_to_func_nearest by done. cbn [mbind outcome_bind].
  unfold is_named at 1, name_at. destruct (func_of a syms) as [name off]. rewrite IH. done.
Qed.

Lemma bios_funcs_ok pcs funcs : bios_funcs syms pcs funcs =
  Ret (List.filter (fun kv => existsb (fun p => is_named (fst kv) (fst p) && in_bios (fst p)) pcs) funcs).
Proof.
  induction funcs as [|[k v] funcs IH]; [done|]. cbn [bios_funcs List.filter fst]. rewrite has_bios_ok, IH. cbn [mbind outcome_bind].
  by destruct (existsb _ pcs).
Qed.

Definition hist_line (a n : Z) : str :=
  chars "0x" ++ fmt_hex 4 a ++ [9] ++ decimal n ++ [9] ++ name_at a ++ chars "+" ++ decimal (snd (func_of a syms)) ++ [10].

Lemma hist_lines_ok l : hist_lines syms l = Ret (concat (map (fun p => hist_line (fst p) (snd p)) l)).
Proof.
  induction l as [|[a n] l IH]; [done|]. cbn [hist_lines map concat fst snd]. rewrite addr_to_func_nearest by done. cbn [mbind outcome_bind].
  unfold hist_line, name_at. destruct (func_of a syms) as [name off]. rewrite IH. cbn [mbind outcome_bind fst snd]. by rewrite <- !app_assoc.
Qed.
End Reported.

Lemma ranges_partition l : Forall (fun a => 0 <= a < 65536) l ->
  times in_bios l + times in_bdos l + times in_ccp l + times in_tpa l = zlength l.
Proof.
  induction 1 as [|a l Ha Hl IH]; [done|]. rewrite !times_cons, zlength_cons, <- IH. unfold in_bios, in_bdos, in_ccp, in_tpa.
  repeat match goal with |- context [?x <=? ?y] => destruct (Z.leb_spec x y) | |- context [?x <? ?y] => destruct (Z.ltb_spec x y) end; cbn [andb]; lia.
Qed.

(** What is in the map file: the address and name of each line that has the form. *)
Definition map_symbols (text : str) : list symbol :=
  omap (fun l => (fun p => (value16 0 (snd p), fst p)) <$> match_symbol l) (readlines text).

Lemma match_symbol_hexes line name digits : match_symbol line = Some (name, digits) -> hexes digits /\ digits <> [].
Proof.
  assert (T : forall s, hexes (take_while is_hex s)).
  { induction s as [|c s IH]; cbn [take_while]; [constructor|]. destruct (is_hex c) eqn:E; [by constructor|constructor]. }
  unfold match_symbol. repeat case_match; try done. intros [= <- <-]. split; [|done].
  match goal with H : take_while is_hex ?s = _ |- _ => rewrite <- H; apply T end.
Qed.

Lemma load_symbols_ok map_file : exists syms, load_symbols map_file = Ret syms /\ StronglySorted le_symbol syms /\
  syms ≡ₚ match map_file with Some text => map_symbols text | None => [] end.
Proof.
  destruct map_file as [text|]; [|exists []; split_and!; [done|constructor|done]]. cbn [load_symbols].
  assert (E : symbols_of (readlines text) = Ret (map_symbols text)).
  { unfold map_symbols. induction (readlines text) as [|l ls IH]; [done|]. cbn [symbols_of omap list_omap].
    destruct (match_symbol l) as [[name digits]|] eqn:E; cbn [fmap option_fmap option_map]; [|done].
    apply match_symbol_hexes in E as [H1 H2]. rewrite int16_hexes by done. cbn [mbind outcome_bind]. by rewrite IH. }
  rewrite E. cbn [mbind outcome_bind]. exists (sort_by symbol_le (map_symbols text)). split_and!; [done|apply load_sorted|apply sort_by_perm].
Qed.

Lemma existsb_keys (f : Z -> bool) (c : list (Z * Z)) l : (forall a, a ∈ map fst c <-> a ∈ l) ->
  existsb (fun p => f (fst p)) c = existsb f l.
Proof.
  intros H. apply eq_true_iff_eq. rewrite !existsb_exists. split.
  - intros (p & Hp%list_elem_of_In & Hf). exists (fst p). split; [|done]. apply list_elem_of_In, H, list_elem_of_fmap. by exists p.
  - intros (a & Ha%list_elem_of_In & Hf). apply H, list_elem_of_fmap in Ha as (p & -> & Hp). exists p. by split; [apply list_elem_of_In|].
Qed.

Lemma sorted_fst (l : list (Z * Z)) : StronglySorted before l -> StronglySorted Z.lt (map fst l).
Proof. induction 1 as [|x l Hl IH Hx]; [constructor|]. cbn [map]. constructor; [done|]. by apply Forall_map. Qed.

(** C32: a trace is profiled.  Let [pcs] be the program counters of the lines that begin
    with one, and the symbols those of the map file, in order.  Without any the script
    ends with status 1; otherwise it reports their number, and how many lie in the BIOS,
    the BDOS, the CCP and below, which add up to it.  An address belongs to the last
    symbol at or below it ([func_of]: the binary search finds it), or else to its own
    number.  The functions listed are the thirty with the highest counts, a
    function's count being that of its addresses; likewise the addresses, each with its
    count and label, and twenty of the functions with an address in the BIOS.  The
    histogram file has each address once, in ascending order, with its count. *)
Theorem traces_are_profiled trace map_file :
  let pcs := pcs_of (readlines trace) in
  exists syms, load_symbols map_file = Ret syms /\ StronglySorted le_symbol syms /\
    syms ≡ₚ match map_file with Some text => map_symbols text | None => [] end /\
    (forall a, addr_to_func a syms = Ret (func_of a syms)) /\
    if decide (pcs = []) then profile trace map_file = Raise (SystemExit 1) else
    exists r, profile trace map_file = Ret r /\ total r = zlength pcs /\
      bios r = times in_bios pcs /\ bdos r = times in_bdos pcs /\ ccp r = times in_ccp pcs /\ tpa r = times in_tpa pcs /\
      bios r + bdos r + ccp r + tpa r = total r /\
      (exists F, NoDup (map fst F) /\ (forall k, count_of k F = times (is_named syms k) pcs) /\ top 30 F (functions r) /\
        (0 < bios r -> top 20 (List.filter (fun kv => existsb (fun a => is_named syms (fst kv) a && in_bios a) pcs) F) (bios_functions r))) /\
      (exists l, NoDup (map fst l) /\ (forall a, count_of a l = times (Z.eqb a) pcs) /\
        top 30 l (map (fun h => (fst (fst h), snd h)) (hot r)) /\
        Forall (fun h => snd (fst h) = hot_label syms (fst (fst h))) (hot r)) /\
      exists ds, StronglySorted Z.lt ds /\ (forall a, a ∈ ds <-> a ∈ pcs) /\
        histogram r = chars "# addr" ++ [9] ++ chars "count" ++ [9] ++ chars "function" ++ [10] ++
          concat (map (fun a => hist_line syms a (times (Z.eqb a) pcs)) ds).
Proof.
  intros pcs. destruct (load_symbols_ok map_file) as (syms & E1 & Hs & Hp). destruct (count_trace_ok trace) as (c & E2 & Hc).
  exists syms. split_and!; [done|done|done|intros a; by apply addr_to_func_nearest|].
  assert (E : (zlength pcs =? 0) = bool_decide (pcs = [])).
  { destruct (Z.eqb_spec (zlength pcs) 0) as [H|H]; symmetry; [apply bool_decide_eq_true|apply bool_decide_eq_false].
    - destruct pcs; [done|]. rewrite zlength_cons in H. pose proof (zlength_pos pcs). lia.
    - by intros ->. }
  unfold profile. rewrite E1, E2. cbn [mbind outcome_bind]. fold pcs. rewrite E. unfold pcs in *. clear E.
  case_decide as D; [by rewrite bool_decide_eq_true_2|]. rewrite bool_decide_eq_false_2 by done. fold pcs in Hc, D |- *.
  destruct (func_profile_ok syms Hs c [] ltac:(constructor)) as (F & E3 & HF & HC). rewrite E3. cbn [mbind outcome_bind].
  rewrite (hotspots_ok syms Hs), (bios_funcs_ok syms Hs). unfold hist_file. rewrite (hist_lines_ok syms Hs). cbn [mbind outcome_bind].
  eexists. split; [reflexivity|]. cbn [total bios bdos ccp tpa functions hot bios_functions histogram].
  rewrite !(counted_times _ _ _ Hc). split_and!; try done.
  - apply ranges_partition, pcs_range.
  - exists F. split_and!; [done| |apply most_common_top|].
    + intros k. rewrite HC, (counted_times _ _ _ Hc). done.
    + intros Hb. rewrite (proj2 (Z.ltb_lt _ _) Hb).
      assert (List.filter (fun kv : str * Z => existsb (fun p : Z * Z => is_named syms (fst kv) (fst p) && in_bios (fst p)) c) F =
        List.filter (fun kv => existsb (fun a => is_named syms (fst kv) a && in_bios a) pcs) F) as ->; [|apply most_common_top].
      apply List.filter_ext. intros kv. apply (existsb_keys (fun a => is_named syms (fst kv) a && in_bios a)). apply Hc.
  - exists c. destruct Hc as [H1 H2 H3]. split_and!; [done|done| |].
    + rewrite map_map. cbn [fst snd].
      assert (map (fun p : Z * Z => (fst p, snd p)) (most_common 30 c) = most_common 30 c) as ->; [|apply most_common_top].
      rewrite <- (map_id (most_common 30 c)) at 2. apply map_ext. by intros [].
    + apply Forall_map, Forall_true. done.
  - exists (map fst (sort_by by_number c)). destruct Hc as [H1 H2 H3].
    pose proof (sort_by_perm by_number c) as Hperm. split_and!.
    + by apply sorted_fst, sort_by_sorted.
    + intros a. by rewrite <- H3, Hperm.
    + assert (F' : Forall (fun p => snd p = times (Z.eqb (fst p)) pcs) (sort_by by_number c)).
      { rewrite Hperm. apply Forall_forall. intros [a n] Hin. cbn [fst snd]. rewrite <- H2. symmetry. by apply count_in. }
      rewrite map_map. do 7 f_equal. apply map_ext_in. intros p Hin%list_elem_of_In.
      by rewrite (proj1 (Forall_forall _ _) F' p Hin) at 1.
Qed.
