(* ===== verification/ImdInfo.v ===== *)
(** * What is on a disk image: rcbios/imdinfo.py.

    The script reads an IMD image, says which format it has, groups the cylinders by
    their geometry ([groups_of]) and looks in track 0 for the system that boots
    ([system_line], [find_signon]).  [imdinfo] is the lines it prints for a file, in
    UTF-8, or the exception; what it prints before an exception is left out, and so are
    the arguments.  The path is ASCII. *)

From S2P Require Import Prelude Imd Hex Text Verify.
#[local] Open Scope Z_scope.

(** ** Reading *)

Section Parse.
Context (data : bytes).

Definition info_track : stM Z raw_track :=
  mode ← peek data 0;
  cyl ← peek data 1;
  head_byte ← peek data 2;
  let head := Z.land head_byte 63 in
  let has_cyl_map := negb (Z.land head_byte 128 =? 0) in
  let has_head_map := negb (Z.land head_byte 64 =? 0) in
  nsect ← peek data 3;
  code ← peek data 4;
  let sectsize := Z.shiftl 128 code in
  skip 5;;
  secnums ← chunk data nsect;
  (if has_cyl_map then skip nsect else mret tt);;
  (if has_head_map then skip nsect else mret tt);;
  sectors ← for_range 0 (Z.to_nat nsect) (Patch.read_sector data secnums sectsize);
  mret (RawTrack cyl head mode nsect sectsize sectors).

Definition info_parse : outcome (bytes * list raw_track) :=
  hdr_end ← index_of 26 data;
  tracks ← fst (while_data data (S (length data)) info_track (hdr_end + 1));
  Ret (takeZ hdr_end data, tracks).
End Parse.

(** The order of tuples: by number, then by contents. *)
Definition sector_le (a b : Z * bytes) : bool :=
  if fst a <? fst b then true else if fst b <? fst a then false else str_leb (snd a) (snd b).

(** [t0_raw]: the sectors of cylinder 0, track by track. *)
Definition t0_raw (tracks : list raw_track) : bytes :=
  concat (map (fun t => concat (map snd (sort_by sector_le (r_sectors t)))) (List.filter (fun t => r_cyl t =? 0) tracks)).

(** ** Geometry *)

Abbreviation geometry := (gmap Z (Z * Z * Z)).

Fixpoint cyls_from (tracks : list raw_track) (cyls : gmap Z geometry) : gmap Z geometry :=
  match tracks with
  | [] => cyls
  | t :: tracks' =>
      let old := default ∅ (cyls !! r_cyl t) in
      cyls_from tracks' (<[r_cyl t := <[r_head t := (r_mode t, r_nsect t, r_sectsize t)]> old]> cyls)
  end.

(** The groups, the last one in front: first and last cylinder, and the geometry. *)
Definition group_step (groups : list (Z * Z * geometry)) (c : Z * geometry) : list (Z * Z * geometry) :=
  let '(cyl, geo) := c in
  match groups with
  | (lo, hi, geo') :: rest => if bool_decide (geo' = geo) && (cyl =? hi + 1) then (lo, cyl, geo) :: rest else (cyl, cyl, geo) :: groups
  | [] => [(cyl, cyl, geo)]
  end.

Definition in_order {A} (m : gmap Z A) : list (Z * A) := sort_by by_number (map_to_list m).
Definition groups_of (cyls : gmap Z geometry) : list (Z * Z * geometry) := rev (foldl group_step [] (in_order cyls)).

Definition MODE_STR : list (Z * string) :=
  [(0, "500k FM"); (1, "300k FM"); (2, "250k FM"); (3, "500k MFM"); (4, "300k MFM"); (5, "250k MFM")]%string.

Definition mode_str (mode : Z) : str :=
  match List.find (fun p => fst p =? mode) MODE_STR with Some p => chars (snd p) | None => chars "mode " ++ decimal mode end.

Definition group_lines (g : Z * Z * geometry) : list str :=
  let '(lo, hi, geo) := g in
  let cyl_range := if lo =? hi then chars "T" ++ decimal lo else chars "T" ++ decimal lo ++ chars "-" ++ decimal hi in
  map (fun '(head, (mode, nsect, sectsize)) =>
    chars "  " ++ cyl_range ++ chars " S" ++ decimal head ++ chars ": " ++ mode_str mode ++ chars ", " ++
    decimal nsect ++ chars " x " ++ decimal sectsize ++ chars "B") (in_order geo).

(** ** The signon *)

Definition printable (c : Z) : bool := (0x20 <=? c) && (c <? 0x7F).

Definition markers : list str := map chars ["56k CP/M"; "58K CP/M"; "CP/M vers"; "CP/M VERS"]%string.

(** [while start > 0 and ...: start -= 1]. *)
Fixpoint walk_back (raw : bytes) (start : nat) : nat :=
  match start with
  | O => O
  | S p => match raw !! p with Some c => if printable c then walk_back raw p else start | None => start end
  end.

(** How far the printable characters reach. *)
Fixpoint walk_on (s : bytes) : nat := match s with c :: s' => if printable c then S (walk_on s') else O | [] => O end.

Fixpoint signon_at (raw : bytes) (ms : list str) : option str :=
  match ms with
  | [] => None
  | marker :: ms' =>
      match find_bytes marker raw 0 with
      | None => signon_at raw ms'
      | Some idx =>
          let start := walk_back raw idx in
          let end_ := (idx + walk_on (drop idx raw))%nat in
          Some (strip_with py_space (slice start end_ raw))
      end
  end.
Definition find_signon (raw : bytes) : option str := signon_at raw markers.

Definition system_line (raw : bytes) : list str :=
  match raw with
  | b0 :: b1 :: _ =>
      let entry := Z.lor b0 (Z.shiftl b1 8) in
      if forallb (fun b => b =? b0) (take 128 raw) && (b0 =? 0xE5) then [chars "  System: data only (no boot sectors)"] else
      let label := if entry =? 0x0280 then chars "56K CP/M BIOS" else if entry =? 0x0380 then chars "58K CP/M BIOS"
                   else chars "boot entry 0x" ++ fmt_hex 4 entry in
      match find_signon raw with
      | Some (c :: signon) => [chars "  System: " ++ label ++ chars " — " ++ c :: signon]
      | _ => [chars "  System: " ++ label]
      end
  | _ => []
  end.

(** ** imdinfo *)

Definition max_of (l : list Z) : outcome Z := match l with [] => Raise ValueError | x :: l' => Ret (foldl Z.max x l') end.

Definition fmt_name (tracks : list raw_track) : str :=
  match List.find (fun t => (r_cyl t =? 0) && (r_head t =? 0)) tracks with
  | Some t => if r_nsect t =? 26 then chars "MAXI (8" ++ [34] ++ chars ")"
              else if r_nsect t =? 16 then chars "MINI (5.25" ++ [34] ++ chars ")" else chars "UNKNOWN"
  | None => chars "UNKNOWN"
  end.

Definition imdinfo (path : str) (data : bytes) : outcome (list str) :=
  '(header, tracks) ← info_parse data;
  max_cyl ← max_of (map r_cyl tracks);
  max_head ← max_of (map r_head tracks);
  Ret ([path ++ chars ": " ++ fmt_name tracks ++ chars ", " ++ decimal (max_cyl + 1) ++ chars " cylinders, " ++ decimal (1 + max_head) ++ chars " sides";
        chars "  " ++ ascii_replace (strip_with py_space header)] ++
       concat (map group_lines (groups_of (cyls_from tracks ∅))) ++ system_line (t0_raw tracks)).

(** ** Images of the format *)

Lemma info_reads data pos t : track_ok t -> reads data pos (info_track data) (track_bytes t) (as_raw t).
Proof.
  intros Ht. unfold info_track. pose proof (head_byte_fields t Ht) as (Hh & Hhm & Hcm & _).
  repeat (eapply reads_peek; [done|reflexivity|]). rewrite ?Hh.
  eapply (reads_bind _ _ _ _ (track_head t)); [by apply reads_skip|].
  eapply reads_bind; [apply reads_chunk; symmetry; apply ok_count, Ht|].
  eapply reads_bind; [apply map_reads; [apply ok_cyl_map, Ht|exact Hcm]|].
  eapply reads_bind; [apply map_reads; [apply ok_head_map, Ht|exact Hhm]|].
  rewrite <- (app_nil_r (stored_bytes t)). eapply reads_bind; [|apply reads_ret].
  rewrite <- (list_fmap_id (sectors_of t)). apply (track_records _ _ _ _ id Ht).
  intros k n ty d pos' Hn Hk (Hty & _ & Hd). by apply patch_record.
Qed.

Lemma info_parses header ts : image_ok header ts -> info_parse (image header ts) = Ret (header, map as_raw ts).
Proof.
  intros [Hh Ht]. unfold info_parse. rewrite index_of_image by done. cbn [mbind outcome_bind].
  rewrite (image_while _ _ _ (fun _ => as_raw)).
  - cbn [mbind outcome_bind]. rewrite go_map. unfold image. by rewrite takeZ_app.
  - intros t pos Hin. apply info_reads. by eapply Forall_forall; [|apply list_elem_of_In].
Qed.

Lemma max_of_greatest l m : max_of l = Ret m -> m ∈ l /\ forall x, x ∈ l -> x <= m.
Proof.
  destruct l as [|x l]; [done|]. cbn [max_of]. intros [= <-].
  revert x. induction l as [|y l IH]; intros x; cbn [foldl].
  - split; [apply list_elem_of_here|]. intros z [->|[]%elem_of_nil]%elem_of_cons. lia.
  - destruct (IH (Z.max x y)) as [H1 H2]. split.
    + apply elem_of_cons in H1 as [H1|H1]; [|by do 2 (apply elem_of_cons; right)].
      rewrite !elem_of_cons. destruct (Z.max_spec x y) as [[_ E]|[_ E]]; rewrite E in H1 |- *; auto.
    + pose proof (H2 (Z.max x y) (list_elem_of_here _ _)). intros z [->|[->|Hz]%elem_of_cons]%elem_of_cons; [lia|lia|].
      apply H2. by apply elem_of_cons; right.
Qed.

(** ** Geometry and groups *)

(** The last track of a cylinder's side. *)
Definition side_geometry (c h : Z) (tracks : list raw_track) : option (Z * Z * Z) :=
  last (omap (fun t => if (r_cyl t =? c) && (r_head t =? h) then Some (r_mode t, r_nsect t, r_sectsize t) else None) tracks).

Lemma last_cons_default {A} (x : A) l : last (x :: l) = Some (default x (last l)).
Proof. revert x. induction l as [|y l IH]; intros x; [done|]. change (last (x :: y :: l)) with (last (y :: l)). rewrite IH. by destruct (last l). Qed.

Lemma cyls_from_lookup tracks c h : forall cyls,
  default ∅ (cyls_from tracks cyls !! c) !! h =
  match side_geometry c h tracks with Some g => Some g | None => default ∅ (cyls !! c) !! h end.
Proof.
  unfold side_geometry. induction tracks as [|t tracks IH]; intros cyls; [done|]. cbn [cyls_from omap list_omap]. rewrite IH.
  assert (G : default ∅ (<[r_cyl t:=<[r_head t:=(r_mode t, r_nsect t, r_sectsize t)]> (default ∅ (cyls !! r_cyl t))]> cyls !! c) !! h =
    (if (r_cyl t =? c) && (r_head t =? h) then Some (r_mode t, r_nsect t, r_sectsize t) else default ∅ (cyls !! c) !! h)).
  { destruct (Z.eqb_spec (r_cyl t) c) as [->|Hc]; cbn [andb]; [|by rewrite lookup_insert_ne].
    rewrite lookup_insert_eq. cbn [default from_option]. unfold id.
    destruct (Z.eqb_spec (r_head t) h) as [->|Hh]; [by rewrite lookup_insert_eq|by rewrite lookup_insert_ne]. }
  rewrite G. destruct ((r_cyl t =? c) && (r_head t =? h)); [|done].
  rewrite last_cons_default. by destruct (last _).
Qed.

Lemma cyls_from_keys tracks c : forall cyls, is_Some (cyls_from tracks cyls !! c) <-> c ∈ map r_cyl tracks \/ is_Some (cyls !! c).
Proof.
  induction tracks as [|t tracks IH]; intros cyls; cbn [cyls_from map]; [rewrite elem_of_nil; tauto|].
  rewrite IH, elem_of_cons. destruct (decide (r_cyl t = c)) as [->|Hc]; [rewrite lookup_insert_eq; naive_solver|].
  rewrite lookup_insert_ne by done. naive_solver.
Qed.

(** The cylinders of a group, each with the geometry. *)
Definition expand (g : Z * Z * geometry) : list (Z * geometry) :=
  let '(lo, hi, geo) := g in map (fun c => (c, geo)) (seqZ lo (hi - lo + 1)).

Definition mergeable (g1 g2 : Z * Z * geometry) : Prop := snd g1 = snd g2 /\ fst (fst g2) = snd (fst g1) + 1.

(** No two neighbours could be one group. *)
Fixpoint separate (gs : list (Z * Z * geometry)) : Prop :=
  match gs with
  | g1 :: (g2 :: _) as gs' => ~ mergeable g1 g2 /\ separate gs'
  | _ => True
  end.

Lemma separate_snoc gs g1 g2 : separate (gs ++ [g1; g2]) <-> separate (gs ++ [g1]) /\ ~ mergeable g1 g2.
Proof.
  induction gs as [|g gs IH]; [cbn; tauto|]. destruct gs as [|g' gs]; cbn [app separate] in *; [tauto|]. rewrite IH. tauto.
Qed.

Definition proper (g : Z * Z * geometry) : Prop := fst (fst g) <= snd (fst g).

Lemma group_step_ok groups cyl geo : separate (rev groups) -> Forall proper groups ->
  separate (rev (group_step groups (cyl, geo))) /\ Forall proper (group_step groups (cyl, geo)) /\
  concat (map expand (rev (group_step groups (cyl, geo)))) = concat (map expand (rev groups)) ++ [(cyl, geo)].
Proof.
  assert (E1 : expand (cyl, cyl, geo) = [(cyl, geo)]) by (unfold expand; by replace (cyl - cyl + 1) with 1 by lia).
  intros Hs Hp. destruct groups as [|[[lo hi] geo'] groups]; cbn [group_step].
  - split_and!; [done|constructor; [unfold proper; cbn; lia|constructor]|]. cbn [rev app map concat]. by rewrite E1.
  - cbn [rev] in Hs. case_bool_decide as Eg; cbn [andb]; [subst geo'; destruct (Z.eqb_spec cyl (hi + 1)) as [->|Hc]|].
    + apply Forall_cons in Hp as [Hp0 Hp]. unfold proper in Hp0. cbn [fst snd] in Hp0. cbn [rev]. split_and!.
      * destruct groups as [|g groups]; [done|]. cbn [rev] in *. rewrite <- app_assoc in *. cbn [app] in *.
        apply separate_snoc in Hs as [Hs Hm]. apply separate_snoc. by split.
      * constructor; [unfold proper; cbn [fst snd]; lia|done].
      * rewrite !map_app, !concat_app, <- app_assoc. f_equal. cbn [map concat]. rewrite !app_nil_r. unfold expand.
        replace (hi + 1 - lo + 1) with ((hi - lo + 1) + 1) by lia. rewrite seqZ_app by lia. rewrite map_app. f_equal. cbn [seqZ map].
        by replace (lo + (hi - lo + 1)) with (hi + 1) by lia.
    + cbn [rev]. rewrite <- app_assoc. split_and!; [|by constructor; [unfold proper; cbn; lia|]|].
      * cbn [app]. apply separate_snoc. split; [done|]. intros [_ E]. cbn in E. lia.
      * rewrite !map_app, !concat_app, <- app_assoc. cbn [map concat]. by rewrite E1, !app_nil_r.
    + cbn [rev]. rewrite <- app_assoc. split_and!; [|by constructor; [unfold proper; cbn; lia|]|].
      * cbn [app]. apply separate_snoc. split; [done|]. intros [E _]. by cbn in E.
      * rewrite !map_app, !concat_app, <- app_assoc. cbn [map concat]. by rewrite E1, !app_nil_r.
Qed.

Lemma groups_ok l : forall groups, separate (rev groups) -> Forall proper groups ->
  separate (rev (foldl group_step groups l)) /\ Forall proper (foldl group_step groups l) /\
  concat (map expand (rev (foldl group_step groups l))) = concat (map expand (rev groups)) ++ l.
Proof.
  induction l as [|[c g] l IH]; intros groups Hs Hp; cbn [foldl]; [by rewrite app_nil_r|].
  destruct (group_step_ok groups c g Hs Hp) as (H1 & H2 & H3). destruct (IH _ H1 H2) as (H4 & H5 & H6).
  split_and!; [done|done|]. by rewrite H6, H3, <- app_assoc.
Qed.

Lemma in_order_spec {A} (m : gmap Z A) : StronglySorted before (in_order m) /\ forall k x, (k, x) ∈ in_order m <-> m !! k = Some x.
Proof.
  unfold in_order. split; [apply sort_by_sorted, NoDup_fst_map_to_list|]. intros k x. rewrite sort_by_perm. apply elem_of_map_to_list.
Qed.

(** ** The signon *)

Definition occurs (m s : str) : Prop := exists x y, s = x ++ m ++ y.

Lemma find_from_spec m l : forall pos,
  match find_from m l pos with
  | Some p => exists x y, l = x ++ m ++ y /\ p = (pos + length x)%nat
  | None => ~ occurs m l
  end.
Proof.
  induction l as [|c l IH]; intros pos; cbn [find_from]; case_bool_decide as E.
  - exists [], []. destruct m; [split; [done|cbn; lia]|]. done.
  - intros (x & y & H). symmetry in H. apply app_eq_nil in H as [-> H]. apply app_eq_nil in H as [-> ->]. by apply E.
  - exists [], (drop (length m) (c :: l)). split; [|cbn; lia]. rewrite app_nil_l, <- (take_drop (length m) (c :: l)) at 1. by rewrite E.
  - specialize (IH (S pos)). destruct (find_from m l (S pos)) as [p|].
    + destruct IH as (x & y & -> & ->). exists (c :: x), y. split; [done|cbn; lia].
    + intros (x & y & H). destruct x as [|d x]; [apply E; rewrite H; cbn [app]; apply take_app_length|].
      injection H as -> H. apply IH. by exists x, y.
Qed.

Lemma walk_back_spec raw start : (start <= length raw)%nat -> exists a run, take start raw = a ++ run /\ length a = walk_back raw start /\
  Forall (fun c => printable c = true) run /\ forall c, last a = Some c -> printable c = false.
Proof.
  induction start as [|p IH]; intros Hl; [by exists [], []|]. cbn [walk_back].
  destruct (lookup_lt_is_Some_2 raw p ltac:(lia)) as [c Hc]. rewrite Hc, (take_S_r _ _ _ Hc). destruct (printable c) eqn:E.
  - destruct (IH ltac:(lia)) as (a & run & H1 & H2 & H3 & H4). exists a, (run ++ [c]). split_and!; [by rewrite H1, app_assoc|done| |done].
    apply Forall_app_2; [done|by apply Forall_singleton].
  - exists (take p raw ++ [c]), []. split_and!; [by rewrite app_nil_r| |constructor|].
    + rewrite length_app, length_take. cbn [length]. lia.
    + intros d. rewrite last_snoc. by intros [= <-].
Qed.

Lemma walk_on_spec s : exists run b, s = run ++ b /\ length run = walk_on s /\ Forall (fun c => printable c = true) run /\
  forall c, head b = Some c -> printable c = false.
Proof.
  induction s as [|c s IH]; cbn [walk_on]; [by exists [], []|]. destruct (printable c) eqn:E.
  - destruct IH as (run & b & -> & H2 & H3 & H4). exists (c :: run), b. split_and!; [done|cbn; lia|by constructor|done].
  - exists [], (c :: s). split_and!; [done|done|constructor|]. by intros d [= <-].
Qed.

(** [s] is the whole run of printable characters around an occurrence of [m], without
    the blanks around it. *)
Definition signon_of (raw : bytes) (m s : str) : Prop :=
  exists a run b, raw = a ++ run ++ b /\ Forall (fun c => printable c = true) run /\
    (forall c, last a = Some c -> printable c = false) /\ (forall c, head b = Some c -> printable c = false) /\
    occurs m run /\ s = strip_with py_space run.

Lemma signon_found raw m idx : Forall (fun c => printable c = true) m -> find_bytes m raw 0 = Some idx ->
  signon_of raw m (strip_with py_space (slice (walk_back raw idx) (idx + walk_on (drop idx raw)) raw)).
Proof.
  intros Hm H. unfold find_bytes in H. cbn in H. rewrite drop_0 in H. pose proof (find_from_spec m raw 0) as Hf. rewrite H in Hf.
  destruct Hf as (x & y & E & ->). cbn [Nat.add] in *.
  assert (Hl : (length x <= length raw)%nat) by (rewrite E, length_app; lia).
  destruct (walk_back_spec raw (length x) Hl) as (a & r1 & E1 & L1 & F1 & N1).
  destruct (walk_on_spec (drop (length x) raw)) as (r2 & b & E2 & L2 & F2 & N2).
  assert (Eraw : raw = a ++ (r1 ++ r2) ++ b) by (rewrite <- (take_drop (length x) raw), E1, E2, <- !app_assoc; done).
  assert (La : (length a + length r1 = length x)%nat).
  { apply (f_equal length) in E1. rewrite length_take, length_app in E1. lia. }
  exists a, (r1 ++ r2), b. split_and!; [done|by apply Forall_app_2|done|done| |].
  - exists r1. assert (Ex : drop (length x) raw = m ++ y) by (rewrite E; apply drop_app_length).
    rewrite Ex in E2. apply app_eq_inv in E2 as [(k & -> & ->)|(k & -> & ->)].
    + destruct k as [|c k]; [exists []; by rewrite !app_nil_r|]. exfalso. rewrite Forall_app in Hm. destruct Hm as [_ Hm].
      apply Forall_cons in Hm as [Hc _]. specialize (N2 c eq_refl). congruence.
    + exists k. done.
  - f_equal. rewrite <- L1, <- L2, Eraw. apply slice_app_exact; [done|]. rewrite length_app. lia.
Qed.

Lemma find_signon_spec raw :
  match find_signon raw with
  | None => Forall (fun m => ~ occurs m raw) markers
  | Some s => exists before m after, markers = before ++ m :: after /\ Forall (fun m => ~ occurs m raw) before /\ signon_of raw m s
  end.
Proof.
  unfold find_signon. assert (Hp : Forall (fun m => Forall (fun c => printable c = true) m) markers) by decided. revert Hp. generalize markers.
  intros ms. induction ms as [|m ms IH]; intros Hp; [constructor|]. apply Forall_cons in Hp as [Hm Hp]. cbn [signon_at].
  destruct (find_bytes m raw 0) as [idx|] eqn:E.
  - exists [], m, ms. split_and!; [done|constructor|]. by apply signon_found.
  - assert (No : ~ occurs m raw).
    { unfold find_bytes in E. cbn in E. rewrite drop_0 in E. pose proof (find_from_spec m raw 0) as H. by rewrite E in H. }
    specialize (IH Hp). destruct (signon_at raw ms) as [s|]; [|by constructor].
    destruct IH as (before & m' & after & -> & Hb & Hs). exists (m :: before), m', after. split_and!; [done|by constructor|done].
Qed.

(** ** Errors and ends *)

Lemma info_moves data : all_bytes data -> moves (info_track data).
Proof.
  intros Hd. unfold info_track. do 3 (apply moves_peek_byte; [done|]; intros ? ?). cbv zeta.
  do 2 (apply moves_peek_byte; [done|]; intros ? ?). apply moves_skip; [lia|].
  apply steady_bind; [apply steady_chunk; unfold is_byte in *; lia|]. intros ids.
  apply steady_bind; [destruct (negb _); [apply steady_skip; unfold is_byte in *; lia|apply steady_ret]|]. intros _.
  apply steady_bind; [destruct (negb _); [apply steady_skip; unfold is_byte in *; lia|apply steady_ret]|]. intros _.
  apply steady_bind; [|intros ?; apply steady_ret]. apply steady_for. intros i. unfold Patch.read_sector.
  apply steady_peek_byte; [done|]. intros ty _. apply steady_bind; [by apply steady_skip|]. intros _.
  destruct (ty =? 0); [apply steady_bind; [apply steady_lift|intros ?; apply steady_ret]|].
  case_bool_decide; [apply steady_bind; [apply steady_lift|intros ?]; apply steady_bind; [apply steady_chunk, size_nonneg; done|intros ?; apply steady_ret]|].
  case_bool_decide; [|by apply steady_raise]. apply steady_bind; [apply steady_lift|]. intros n. apply steady_peek_byte; [done|]. intros v _.
  apply steady_bind; [by apply steady_skip|]. intros _. apply steady_ret.
Qed.

Lemma info_ends path data : all_bytes data -> imdinfo path data <> Raise OutOfFuel.
Proof.
  intros Hd. unfold imdinfo. apply outcome_bind_fuel.
  - unfold info_parse. destruct (index_of 26 data) as [p|e] eqn:Ei; cbn [mbind outcome_bind]; [|by apply index_of_raises in Ei as ->].
    apply index_of_nonneg in Ei. apply outcome_bind_fuel; [|done]. apply while_ends; [by apply info_moves|lia].
  - intros [header tracks]. apply outcome_bind_fuel; [by destruct (map r_cyl tracks)|]. intros m.
    apply outcome_bind_fuel; [by destruct (map r_head tracks)|done].
Qed.

Lemma groups_of_ok cyls :
  separate (groups_of cyls) /\ Forall proper (groups_of cyls) /\ concat (map expand (groups_of cyls)) = in_order cyls.
Proof.
  destruct (groups_ok (in_order cyls) [] I (Forall_nil_2 _)) as (H1 & H2 & H3). unfold groups_of. split_and!; [done| |done].
  by apply Forall_rev.
Qed.

Lemma max_of_cons x l : exists m, max_of (x :: l) = Ret m.
Proof. by eexists. Qed.

(** The first lines: the format comes from the first track of cylinder 0, side 0. *)
Definition described (path header : str) (tracks : list raw_track) (max_cyl max_head : Z) : list str :=
  [path ++ chars ": " ++ fmt_name tracks ++ chars ", " ++ decimal (max_cyl + 1) ++ chars " cylinders, " ++ decimal (1 + max_head) ++ chars " sides";
   chars "  " ++ ascii_replace (strip_with py_space header)].

(** The groups show what the tracks are: each side of a cylinder has the geometry of
    its last track, the groups are as long as they can be, and taken apart they are
    the image's cylinders, in order, each with its sides. *)
Definition geometry_of (tracks : list raw_track) (gs : list (Z * Z * geometry)) : Prop :=
  separate gs /\ Forall proper gs /\ StronglySorted before (concat (map expand gs)) /\
  (forall c, c ∈ map fst (concat (map expand gs)) <-> c ∈ map r_cyl tracks) /\
  forall c geo, (c, geo) ∈ concat (map expand gs) -> forall h, geo !! h = side_geometry c h tracks.

Lemma groups_describe tracks : geometry_of tracks (groups_of (cyls_from tracks ∅)).
Proof.
  destruct (groups_of_ok (cyls_from tracks ∅)) as (H1 & H2 & H3). destruct (in_order_spec (cyls_from tracks ∅)) as [H4 H5].
  split_and!; [done|done|by rewrite H3| |].
  - intros c. rewrite H3. transitivity (is_Some (cyls_from tracks ∅ !! c)).
    + rewrite list_elem_of_fmap. split; [intros ([k g] & -> & H%H5); by exists g|intros [g H%H5]; by exists (c, g)].
    + rewrite cyls_from_keys, lookup_empty. split; [intros [H|[? [=]]]|]; tauto.
  - intros c geo Hin h. rewrite H3 in Hin. apply H5 in Hin. pose proof (cyls_from_lookup tracks c h ∅) as E.
    rewrite Hin, lookup_empty in E. cbn [default from_option] in E. unfold id in E. rewrite E. by destruct (side_geometry c h tracks).
Qed.

(** C33: For an image of the format with a track, imdinfo prints the format, the greatest
    cylinder and side, the header, the groups of cylinders and the system.  The groups
    taken apart are the image's cylinders in ascending order, each with the geometry of
    its last track on every side, and no two neighbouring groups could be one.  The
    signon is the whole printable run around the first occurrence of the first marker
    that occurs.  An image without tracks raises ValueError, and any file of bytes is
    read to an end. *)
Theorem images_are_described path header t ts data : image_ok header (t :: ts) -> all_bytes data ->
  let tracks := map as_raw (t :: ts) in
  (exists gs max_cyl max_head,
    imdinfo path (image header (t :: ts)) =
      Ret (described path header tracks max_cyl max_head ++ concat (map group_lines gs) ++ system_line (t0_raw tracks)) /\
    (max_cyl ∈ map r_cyl tracks /\ forall c, c ∈ map r_cyl tracks -> c <= max_cyl) /\
    (max_head ∈ map r_head tracks /\ forall h, h ∈ map r_head tracks -> h <= max_head) /\
    geometry_of tracks gs) /\
  (forall raw, match find_signon raw with
    | None => Forall (fun m => ~ occurs m raw) markers
    | Some s => exists before m after, markers = before ++ m :: after /\ Forall (fun m => ~ occurs m raw) before /\ signon_of raw m s
    end) /\
  imdinfo path (image header []) = Raise ValueError /\ imdinfo path data <> Raise OutOfFuel.
Proof.
  intros Hi Hd tracks. split_and!; [|exact find_signon_spec| |by apply info_ends].
  - destruct (max_of_cons (r_cyl (as_raw t)) (map r_cyl (map as_raw ts))) as [mc Hc].
    destruct (max_of_cons (r_head (as_raw t)) (map r_head (map as_raw ts))) as [mh Hh].
    exists (groups_of (cyls_from tracks ∅)), mc, mh.
    split; [|split; [by apply max_of_greatest|split; [by apply max_of_greatest|apply groups_describe]]].
    unfold imdinfo. rewrite info_parses by done. cbn [mbind outcome_bind]. fold tracks.
    change (map r_cyl tracks) with (r_cyl (as_raw t) :: map r_cyl (map as_raw ts)). rewrite Hc. cbn [mbind outcome_bind].
    change (map r_head tracks) with (r_head (as_raw t) :: map r_head (map as_raw ts)). by rewrite Hh.
  - unfold imdinfo. rewrite info_parses; [done|]. destruct Hi as [Hh _]. by split.
Qed.

Lemma images_are_described_witness :
  (exists gs, geometry_of [as_raw small_track] gs) /\
  imdinfo (chars "a.imd") (image [73; 77; 68] [small_track]) =
    Ret (map chars ["a.imd: UNKNOWN, 1 cylinders, 1 sides"; "  IMD"; "  T0 S0: 250k FM, 3 x 128B"; "  System: data only (no boot sectors)"]%string) /\
  imdinfo (chars "a.imd") (image [73; 77; 68] []) = Raise ValueError.
Proof.
  destruct (images_are_described (chars "a.imd") [73; 77; 68] small_track [] [26] small_track_ok ltac:(by repeat constructor))
    as ((gs & mc & mh & _ & _ & _ & H) & _ & H' & _).
  split_and!; [by exists gs|vm_compute; reflexivity|exact H'].
Defined.
