(* ===== verification/Watch.v ===== *)
(** * Watching a target through the debugger stub.

    What the tracers of rcbios-in-c/gdb_trace.py and gdb_bgstar.py share.  The methods of
    their class GdbClient are the interface [Client], which Gdb.v's client implements
    ([gdb_client]), so that theorems about the tracers hold for every behaviour of the
    stub.  A tracer has its variables, what it prints ([out], in UTF-8) and, for the
    theorems, a log of what it asks of the target and of the target's stops ([log]).
    Statements about programs over this state are triples ([trip]); programs that only
    look at the target are [quiet]. *)

From S2P Require Import Prelude Imd Hex Text Gdb.
#[local] Open Scope Z_scope.

(** ** The client, as the scripts use it *)

Class Client (G : Type) : Type := {
  c_set_breakpoint : Z -> stM G bool;
  c_remove_breakpoint : Z -> stM G bool;
  c_cont : stM G unit;
  c_step : stM G str;
  c_read_regs : stM G (list (str * Z));
  c_read_mem : Z -> Z -> stM G bytes;
  c_read_byte : Z -> stM G Z;
  c_read_word : Z -> stM G Z;
  c_recv_stop : stM G str;
  c_interrupt : stM G unit;
  c_inject_keys : str -> stM G unit;
  c_inject_string : Z -> Z -> str -> stM G unit;
  c_at_prompt : stM G bool;
  c_read_screen_line : Z -> stM G str;
  c_screen_has : str -> stM G bool
}.

#[export] Instance gdb_client {St} (react : St -> bytes -> St * bytes) (turns : nat) : Client (gdb St) := {
  c_set_breakpoint := set_breakpoint react turns;
  c_remove_breakpoint := remove_breakpoint react turns;
  c_cont := cont react turns;
  c_step := step react turns;
  c_read_regs := read_regs react turns;
  c_read_mem := read_mem react turns;
  c_read_byte := read_byte react turns;
  c_read_word := read_word react turns;
  c_recv_stop := recv_stop react turns;
  c_interrupt := interrupt react;
  c_inject_keys := inject_keys react turns;
  c_inject_string := inject_string react turns;
  c_at_prompt := at_prompt react turns;
  c_read_screen_line := read_screen_line react turns;
  c_screen_has := screen_has react turns
}.

(** What a tracer asks of the target, when it asks, and when the target is seen to
    stop or, for the socket's time, is not. *)
Inductive event : Type :=
  | Stop | Idle | Interrupt | Cont | Step | Look
  | Keys (text : str) | Place (a : Z) | Remove (a : Z).
#[export] Instance event_eq_dec : EqDecision event.
Proof. solve_decision. Defined.

Section Watch.
Context {G V : Type} `{Client G}.

Record watch : Type := Watch { target : G; its : V; out : str; log : list event }.

Definition getv {A} (f : V -> A) : stM watch A := gets (fun t => f (its t)).
Definition setv (f : V -> V) : stM watch unit := modify (fun t => Watch (target t) (f (its t)) (out t) (log t)).
Definition say (line : str) : stM watch unit := modify (fun t => Watch (target t) (its t) (out t ++ line ++ [10]) (log t)).
Definition note (e : event) : stM watch unit := modify (fun t => Watch (target t) (its t) (out t) (log t ++ [e])).

(** A request to the target. *)
Definition ask {A} (e : event) (m : stM G A) : stM watch A :=
  note e;; (fun t => let '(r, g) := m (target t) in (r, Watch g (its t) (out t) (log t))) : stM watch A.

Definition set_bp (a : Z) : stM watch bool := ask (Place a) (c_set_breakpoint a).
Definition remove_bp (a : Z) : stM watch bool := ask (Remove a) (c_remove_breakpoint a).
Definition resume : stM watch unit := ask Cont c_cont.
Definition one_step : stM watch str := ask Step c_step.
Definition regs_now : stM watch (list (str * Z)) := ask Look c_read_regs.
Definition mem (a n : Z) : stM watch bytes := ask Look (c_read_mem a n).
Definition byte_at (a : Z) : stM watch Z := ask Look (c_read_byte a).
Definition word_at (a : Z) : stM watch Z := ask Look (c_read_word a).
Definition screen_line (row : Z) : stM watch str := ask Look (c_read_screen_line row).
Definition on_screen (text : str) : stM watch bool := ask Look (c_screen_has text).
Definition keys (text : str) : stM watch unit := ask (Keys text) (c_inject_keys text).
Definition break_in : stM watch unit := ask Interrupt c_interrupt.

(** [recv_stop]. *)
Definition stop : stM watch str := fun t =>
  match c_recv_stop (target t) with
  | (Ret s, g) => (Ret s, Watch g (its t) (out t) (log t ++ [Stop]))
  | (Raise TimeoutError, g) => (Raise TimeoutError, Watch g (its t) (out t) (log t ++ [Idle]))
  | (Raise e, g) => (Raise e, Watch g (its t) (out t) (log t))
  end.

(** [regs[name]]. *)
Definition reg (regs : list (str * Z)) (name : string) : stM watch Z :=
  lift match List.find (fun p => bool_decide (fst p = chars name)) regs with Some p => Ret (snd p) | None => Raise KeyError end.

End Watch.
Arguments watch : clear implicits.

(** ** Text *)

Definition h2 (n : Z) : str := fmt_hex 2 n.
Definition h4 (n : Z) : str := fmt_hex 4 n.
(** [f'{n:wd}'] and [f'{s:ws}']. *)
Definition right (w : nat) (n : Z) : str := let d := decimal n in replicate (w - length d) 32 ++ d.
Definition left (w : nat) (s : str) : str := ljust w 32 s.
Definition bar : str := replicate 60 61.
(** [str] of a list of numbers. *)
Definition list_text (l : list Z) : str := chars "[" ++ join (chars ", ") (map decimal l) ++ chars "]".

(** ** Logs *)

(** The target runs from [Cont] to [Stop] or to an [Interrupt]'s [Stop]; while it
    runs nothing can be asked of it.  [follow] is whether it runs, as long as that is
    kept to. *)
Definition follow (s : option bool) (e : event) : option bool :=
  running ← s;
  match e with
  | Stop => if running : bool then Some false else None
  | Idle | Interrupt => if running : bool then Some true else None
  | Cont => if running : bool then None else Some true
  | _ => if running : bool then None else Some false
  end.
Definition live (l : list event) : option bool := foldl follow (Some false) l.

(** The texts typed, and the breakpoints asked for and not removed. *)
Definition typed (l : list event) : list str := omap (fun e => match e with Keys s => Some s | _ => None end) l.
Definition stand (s : gset Z) (e : event) : gset Z := match e with Place a => {[a]} ∪ s | Remove a => s ∖ {[a]} | _ => s end.
Definition standing (l : list event) : gset Z := foldl stand ∅ l.

(** How often the target stopped, and was idle before and after the first keys. *)
Definition count (e : event) (l : list event) : nat := length (List.filter (fun x => bool_decide (x = e)) l).
Definition late_step (s : bool * nat) (e : event) : bool * nat :=
  match e with Keys _ => (true, snd s) | Idle => if fst s then (true, S (snd s)) else s | _ => s end.
Definition late (l : list event) : nat := snd (foldl late_step (false, 0%nat) l).
Definition early (l : list event) : nat := (count Idle l - late l)%nat.

Lemma live_snoc l e : live (l ++ [e]) = follow (live l) e.
Proof. unfold live. by rewrite foldl_app. Qed.
Lemma typed_snoc l e : typed (l ++ [e]) = typed l ++ match e with Keys s => [s] | _ => [] end.
Proof. unfold typed. rewrite omap_app. by destruct e. Qed.
Lemma standing_snoc l e : standing (l ++ [e]) = stand (standing l) e.
Proof. unfold standing. by rewrite foldl_app. Qed.
Lemma count_snoc e l x : count e (l ++ [x]) = (count e l + if bool_decide (x = e) then 1 else 0)%nat.
Proof. unfold count. rewrite List.filter_app, length_app. cbn [List.filter]. by case_bool_decide. Qed.

Lemma late_typed l : fst (foldl late_step (false, 0%nat) l) = negb (bool_decide (typed l = [])).
Proof.
  induction l as [|e l IH] using rev_ind; [done|]. rewrite foldl_app, typed_snoc. cbn [foldl].
  destruct e; cbn [late_step fst]; rewrite ?app_nil_r; try done; [|by destruct (typed l)].
  by case_match; [|rewrite IH in *].
Qed.
Lemma late_snoc l e : late (l ++ [e]) = (late l + if bool_decide (e = Idle) && negb (bool_decide (typed l = [])) then 1 else 0)%nat.
Proof.
  unfold late at 1. rewrite foldl_app. cbn [foldl]. rewrite <- late_typed. unfold late.
  destruct e; cbn [late_step snd bool_decide decide decide_rel]; rewrite ?Nat.add_0_r; try done.
  rewrite bool_decide_eq_true_2 by done. cbn [andb]. destruct (fst _); cbn [snd]; lia.
Qed.

Lemma late_other l e : e <> Idle -> late (l ++ [e]) = late l.
Proof. intros He. rewrite late_snoc, bool_decide_eq_false_2 by done. cbn. lia. Qed.

Definition beats (l : list event) : nat := (count Stop l + count Idle l)%nat.


Lemma beats_snoc l e : (beats l <= beats (l ++ [e]))%nat.
Proof. unfold beats. rewrite !count_snoc. lia. Qed.
Lemma beats_snoc_one l e : e = Stop \/ e = Idle -> (S (beats l) <= beats (l ++ [e]))%nat.
Proof. unfold beats. rewrite !count_snoc. intros [-> | ->]; repeat case_bool_decide; done || lia. Qed.

(** ** Rules *)

Section Rules.
Context {G V : Type} `{Client G}.
Abbreviation watch := (watch G V).

(** From a state with [P], [m] ends with [Q], or with an exception and [E]. *)
Definition trip {A} (P : V -> list event -> Prop) (m : stM watch A) (Q : A -> V -> list event -> Prop) (E : V -> list event -> Prop) : Prop :=
  forall t, P (its t) (log t) -> match m t with (Ret a, t') => Q a (its t') (log t') | (Raise _, t') => E (its t') (log t') end.

Lemma trip_ret {A} (a : A) P (Q : A -> _) E : (forall v l, P v l -> Q a v l) -> trip P (mret a) Q E.
Proof. intros H0 t Ht. by apply H0. Qed.

Lemma trip_bind {A B} (m : stM watch A) (f : A -> stM watch B) P R Q E : trip P m R E -> (forall a, trip (R a) (f a) Q E) -> trip P (m ≫= f) Q E.
Proof.
  intros Hm Hf t Ht. specialize (Hm t Ht). unfold mbind, stM_bind. destruct (m t) as [[a|e] t']; [|done]. by apply Hf.
Qed.

(** Four requests in a row, taken together. *)
Lemma trip_assoc4 {A B C D E} (a : stM watch A) (b : stM watch B) (c : stM watch C) (d : stM watch D) (f : stM watch E) P R Q X :
  trip P (a;; b;; c;; d) R X -> (forall x, trip (R x) f Q X) -> trip P (a;; b;; c;; d;; f) Q X.
Proof.
  intros Hm Hf t Ht. specialize (Hm t Ht). unfold mbind, stM_bind in *. destruct (a t) as [[?|?] ta]; [|done]. destruct (b ta) as [[?|?] tb]; [|done].
  destruct (c tb) as [[?|?] tc]; [|done]. destruct (d tc) as [[x|?] td]; [|done]. by apply (Hf x).
Qed.

Lemma trip_conseq {A} (m : stM watch A) P P' (Q Q' : A -> _) E E' : trip P' m Q' E' -> (forall v l, P v l -> P' v l) ->
  (forall a v l, Q' a v l -> Q a v l) -> (forall v l, E' v l -> E v l) -> trip P m Q E.
Proof. intros Hm HP HQ HE t Ht. specialize (Hm t (HP _ _ Ht)). destruct (m t) as [[a|e] t']; auto. Qed.

Lemma trip_eq {A B} (x y : A) (m : stM watch B) P Q E : (x = y -> trip P m Q E) -> trip (fun v l => x = y /\ P v l) m Q E.
Proof. intros Hm t [Hx Ht]. by apply Hm. Qed.

Lemma trip_catch {A} c (m : stM watch A) h P Q E1 E : trip P m Q E1 -> (forall e, trip E1 (h e) Q E) -> (forall v l, E1 v l -> E v l) ->
  trip P (catch c m h) Q E.
Proof.
  intros Hm Hh He t Ht. specialize (Hm t Ht). unfold catch. destruct (m t) as [[a|e] t']; [done|]. destruct (c e); [by apply Hh|by apply He].
Qed.

Lemma trip_setv f P (Q : unit -> _) E : (forall v l, P v l -> Q tt (f v) l) -> trip P (setv f) Q E.
Proof. intros H0 t Ht. by apply H0. Qed.

Lemma trip_getv {A} (f : V -> A) P (Q : A -> _) E : (forall v l, P v l -> Q (f v) v l) -> trip P (getv f) Q E.
Proof. intros H0 t Ht. by apply H0. Qed.

Lemma trip_ask {A} e (m : stM G A) P (Q : A -> _) E : (forall v l a, P v l -> Q a v (l ++ [e])) -> (forall v l, P v l -> E v (l ++ [e])) ->
  trip P (ask e m) Q E.
Proof.
  intros HQ HE t Ht. unfold ask, note, modify, mbind, stM_bind. cbn [target its out log]. destruct (m (target t)) as [[a|x] g]; [by apply HQ|by apply HE].
Qed.

(** [m] does not change the variables and only looks. *)
Definition quiet {A} (m : stM watch A) : Prop :=
  forall t, its (snd (m t)) = its t /\ exists n, log (snd (m t)) = log t ++ replicate n Look.

Lemma quiet_returned {A} (a : A) : quiet (mret a).
Proof. intros t. split; [done|]. exists O. by rewrite app_nil_r. Qed.
Lemma quiet_lifted {A} (o : outcome A) : quiet (lift o).
Proof. intros t. split; [done|]. exists O. by rewrite app_nil_r. Qed.
Lemma quiet_raise {A} e : quiet (raise e : stM watch A).
Proof. intros t. split; [done|]. exists O. by rewrite app_nil_r. Qed.
Lemma quiet_say s : quiet (say s).
Proof. intros t. split; [done|]. exists O. by rewrite app_nil_r. Qed.
Lemma quiet_getv {A} (f : V -> A) : quiet (getv f).
Proof. intros t. split; [done|]. exists O. by rewrite app_nil_r. Qed.
Lemma quiet_look {A} (m : stM G A) : quiet (ask Look m).
Proof.
  intros t. unfold ask, note, modify, mbind, stM_bind. cbn [target its out log]. destruct (m (target t)) as [r g].
  split; [done|]. by exists 1%nat.
Qed.
Lemma quiet_then {A B} (m : stM watch A) (f : A -> stM watch B) : quiet m -> (forall a, quiet (f a)) -> quiet (m ≫= f).
Proof.
  intros Hm Hf t. unfold mbind, stM_bind. destruct (Hm t) as [E1 [n E2]]. destruct (m t) as [[a|e] t']; cbn [snd] in *; [|by split; [|exists n]].
  destruct (Hf a t') as [E3 [k E4]]. split; [by rewrite E3|]. exists (n + k)%nat. by rewrite E4, E2, replicate_add, app_assoc.
Qed.

(** Looking changes nothing that a predicate [P] closed under it can tell. *)
Definition looks (P : V -> list event -> Prop) : Prop := forall v l, P v l -> P v (l ++ [Look]).

Lemma looks_many P n v l : looks P -> P v l -> P v (l ++ replicate n Look).
Proof.
  intros HP. induction n as [|n IH]; intros Hl; [by rewrite app_nil_r|]. rewrite replicate_S_end, app_assoc. by apply HP, IH.
Qed.

Lemma trip_quiet {A} (m : stM watch A) P (E : V -> list event -> Prop) : quiet m -> looks P -> (forall v l, P v l -> E v l) -> trip P m (fun _ => P) E.
Proof.
  intros Hm HP HE t Ht. destruct (Hm t) as [E1 [n E2]]. pose proof (looks_many P n _ _ HP Ht) as Hn.
  destruct (m t) as [[a|e] t']; cbn [snd] in *; rewrite E1, E2; auto.
Qed.

Lemma quiet_reg regs name : quiet (reg regs name).
Proof. apply quiet_lifted. Qed.
End Rules.

Create HintDb quiet.

Ltac quieter :=
  cbv zeta beta;
  lazymatch goal with
  | |- quiet (mbind _ _) => apply quiet_then; [|intros ?]; quieter
  | |- quiet (mret _) => apply quiet_returned
  | |- quiet (say _) => apply quiet_say
  | |- quiet (lift _) => apply quiet_lifted
  | |- quiet (raise _) => apply quiet_raise
  | |- quiet (getv _) => apply quiet_getv
  | |- quiet (mem _ _) => apply quiet_look
  | |- quiet (byte_at _) => apply quiet_look
  | |- quiet (word_at _) => apply quiet_look
  | |- quiet (screen_line _) => apply quiet_look
  | |- quiet (on_screen _) => apply quiet_look
  | |- quiet regs_now => apply quiet_look
  | |- quiet (match _ with _ => _ end) => case_match; quieter
  | |- _ => auto with quiet
  end.

#[export] Hint Resolve quiet_reg : quiet.

(** ** A target *)

(** A target that plays a script: where it stops, with which BC, or that it does not. *)
Record scripted : Type := Scripted { script : list (option (Z * Z)); now : Z * Z }.

Definition play : stM scripted str := fun s =>
  match script s with
  | [] => (Raise ConnectionError, s)
  | None :: rest => (Raise TimeoutError, Scripted rest (now s))
  | Some a :: rest => (Ret (chars "T05"), Scripted rest a)
  end.

#[export] Instance scripted_client : Client scripted := {
  c_set_breakpoint := fun _ => mret true;
  c_remove_breakpoint := fun _ => mret true;
  c_cont := mret tt;
  c_step := play;
  c_read_regs := fun s => (Ret [(chars "AF", 0); (chars "BC", snd (now s)); (chars "DE", 0x5C); (chars "HL", 0); (chars "SP", 0xF4F0); (chars "PC", fst (now s))], s);
  c_read_mem := fun _ n => mret (repeatZ n 0);
  c_read_byte := fun _ => mret 0;
  c_read_word := fun _ => mret 0x0480;
  c_recv_stop := play;
  c_interrupt := mret tt;
  c_inject_keys := fun _ => mret tt;
  c_inject_string := fun _ _ _ => mret tt;
  c_at_prompt := mret true;
  c_read_screen_line := fun _ => mret [];
  c_screen_has := fun _ => mret true
}.

