(* ===== verification/Tracer.v ===== *)
(** * The BIOS tracer: rcbios-in-c/gdb_trace.py, class BiosTracer.

    The tracer works through the client of Watch.v and keeps its variables in [vars].
    [setup_breakpoints], [handle_breakpoint], [single_step_trace] and [run] are the
    methods of those names; [turn] is one turn of the loop, [at_breakpoint] what it does
    at a stop and [on_timeout] what it does without one.
    A set of numbers is the list of its elements as they were added; [in_turn] is the
    order Python lists them in.  The loop of [run] has fuel and says whether it ended.
    The arguments and main, which connects and reports exceptions, are left out. *)

From S2P Require Import Prelude Imd Hex Text Gdb Watch.
#[local] Open Scope Z_scope.

(** ** Tables *)

Definition BDOS_OPEN : Z := 15.
Definition BDOS_CLOSE : Z := 16.
Definition BDOS_SEARCH : Z := 17.
Definition BDOS_SEARCH_N : Z := 18.
Definition BDOS_READ_SEQ : Z := 20.
Definition BDOS_SETDMA : Z := 26.

Definition BDOS_NAMES : list (Z * string) :=
  [(0, "BOOT"); (1, "CONST"); (2, "CONOUT"); (6, "DIRECTIO"); (9, "PRINT$"); (10, "READBUF"); (11, "CONST2"); (12, "VERSION");
   (13, "RESETDSK"); (14, "SELDSK"); (15, "OPEN"); (16, "CLOSE"); (17, "SEARCH"); (18, "SEARCH_N"); (19, "DELETE"); (20, "READ_SEQ");
   (21, "WRITE_SEQ"); (22, "MAKE"); (23, "RENAME"); (24, "LOGINVEC"); (25, "CURDSK"); (26, "SETDMA"); (27, "GETALLOC");
   (32, "GETUSER"); (35, "GETRO"); (36, "GETFREE")]%string.

Definition BDOS_ENTRY : Z := 0x0005.
Definition DEFAULT_FCB : Z := 0x005C.
Definition DEFAULT_DMA : Z := 0x0080.

Definition BIOS_ENTRY : list (Z * string) :=
  [(0xDA00, "BOOT"); (0xDA03, "WBOOT"); (0xDA06, "CONST"); (0xDA09, "CONIN"); (0xDA0C, "CONOUT"); (0xDA0F, "LIST"); (0xDA12, "PUNCH");
   (0xDA15, "READER"); (0xDA18, "HOME"); (0xDA1B, "SELDSK"); (0xDA1E, "SETTRK"); (0xDA21, "SETSEC"); (0xDA24, "SETDMA"); (0xDA27, "READ");
   (0xDA2A, "WRITE"); (0xDA2D, "LISTST"); (0xDA30, "SECTRAN")]%string.

Definition INTERNAL : list (Z * string) :=
  [(0xE2D7, "secrd"); (0xE458, "rdhst"); (0xE479, "rwoper"); (0xE255, "chktrk"); (0xE1A0, "fdc_irq_arm"); (0xE1AF, "fdc_irq_wait_rearm");
   (0xEFC0, "isr_floppy"); (0xE1B5, "flp_dma_setup"); (0xE1EE, "fdc_general_cmd")]%string.

(** The variables of the BIOS that are shown. *)
Definition VARS : list (string * Z) :=
  [("cpm_disk", 0xDF83); ("cpm_track", 0xDF84); ("cpm_sector", 0xDF86); ("hostbuf_disk", 0xDF88); ("hostbuf_track", 0xDF89);
   ("hostbuf_sector", 0xDF8B); ("last_seek_disk", 0xDF8D); ("last_seek_track", 0xDF8E); ("cpm_sector_as_host", 0xDF90);
   ("hostbuf_valid", 0xDF92); ("hostbuf_dirty", 0xDF93); ("unalloc_count", 0xDF94); ("disk_error", 0xDF9B); ("need_pre_read", 0xDF9C);
   ("is_read", 0xDF9D); ("cpm_dma_addr", 0xDF9F); ("current_format", 0xDFA1); ("current_format_idx", 0xDFA3);
   ("track0_sectors_per_side", 0xDFA4); ("fdc_unit_head", 0xDFA6); ("fdc_track", 0xDFA9); ("fdc_sector", 0xDFAA); ("fl_flg", 0xDFB4);
   ("kbbuf", 0xDC23); ("kbhead", 0xDC33); ("kbtail", 0xDC34)]%string.

Definition COMMANDS : list str := [chars "DIR *.ASM" ++ [13]; chars "TYPE DUMP.ASM" ++ [13]].
(** [{COMMANDS[0]!r}]. *)
Definition first_command : str := chars "'DIR *.ASM\r'".

(** [d.get(n)]. *)
Definition named (d : list (Z * string)) (n : Z) : option str := chars ∘ snd <$> List.find (fun p => fst p =? n) d.

(** ** State *)

Inductive phase_t : Type := BOOT | DIR | TYPE | DONE.
#[export] Instance phase_eq_dec : EqDecision phase_t.
Proof. solve_decision. Defined.

Definition phase_name (p : phase_t) : str :=
  match p with BOOT => chars "BOOT" | DIR => chars "DIR" | TYPE => chars "TYPE" | DONE => chars "DONE" end.

Record vars : Type := Vars {
  call_num : Z; isr_count : Z; cmd_idx : nat; phase : phase_t; bp_set : list Z;
  bdos_call_count : Z; last_bdos_func : option Z; bdos_return_bp : option Z;
  type_read_count : Z; single_step_after_read : bool }.

(** [__init__]. *)
Definition new_vars : vars := Vars 0 0 0 BOOT [] 0 None None 0 false.

Definition set_call_num n v := Vars n (isr_count v) (cmd_idx v) (phase v) (bp_set v) (bdos_call_count v) (last_bdos_func v) (bdos_return_bp v) (type_read_count v) (single_step_after_read v).
Definition set_isr_count n v := Vars (call_num v) n (cmd_idx v) (phase v) (bp_set v) (bdos_call_count v) (last_bdos_func v) (bdos_return_bp v) (type_read_count v) (single_step_after_read v).
Definition set_phase n p v := Vars (call_num v) (isr_count v) n p (bp_set v) (bdos_call_count v) (last_bdos_func v) (bdos_return_bp v) (type_read_count v) (single_step_after_read v).
Definition set_bp_set s v := Vars (call_num v) (isr_count v) (cmd_idx v) (phase v) s (bdos_call_count v) (last_bdos_func v) (bdos_return_bp v) (type_read_count v) (single_step_after_read v).
Definition set_bdos_call_count n v := Vars (call_num v) (isr_count v) (cmd_idx v) (phase v) (bp_set v) n (last_bdos_func v) (bdos_return_bp v) (type_read_count v) (single_step_after_read v).
Definition set_last_bdos_func f v := Vars (call_num v) (isr_count v) (cmd_idx v) (phase v) (bp_set v) (bdos_call_count v) f (bdos_return_bp v) (type_read_count v) (single_step_after_read v).
Definition set_bdos_return_bp b v := Vars (call_num v) (isr_count v) (cmd_idx v) (phase v) (bp_set v) (bdos_call_count v) (last_bdos_func v) b (type_read_count v) (single_step_after_read v).
Definition set_type_read_count n v := Vars (call_num v) (isr_count v) (cmd_idx v) (phase v) (bp_set v) (bdos_call_count v) (last_bdos_func v) (bdos_return_bp v) n (single_step_after_read v).
Definition set_single_step v := Vars (call_num v) (isr_count v) (cmd_idx v) (phase v) (bp_set v) (bdos_call_count v) (last_bdos_func v) (bdos_return_bp v) (type_read_count v) true.

Section Tracer.
Context {G : Type} `{Client G} (in_turn : list Z -> list Z).
Abbreviation tracer := (watch G vars).


Fixpoint dump_rows (n : nat) (row : Z) : stM tracer unit :=
  match n with
  | O => mret tt
  | S n' =>
      line ← screen_line row;
      (match line with [] => mret tt | _ => say (chars "  " ++ right 2 row ++ chars ": " ++ line) end);;
      dump_rows n' (row + 1)
  end.

Definition dump_screen : stM tracer unit :=
  say (chars "  --- Screen ---");;
  dump_rows 25%nat 0;;
  say (chars "  --- End screen ---").

(** [self.read_var8(name)] and [self.read_var16(name)], shown. *)
Definition var_addr (name : string) : stM tracer Z :=
  lift match List.find (fun p => bool_decide (fst p = name)) VARS with Some p => Ret (snd p) | None => Raise KeyError end.
Definition read_var8 (name : string) : stM tracer Z := a ← var_addr name; byte_at a.
Definition read_var16 (name : string) : stM tracer Z := a ← var_addr name; word_at a.

(** A line of variables: the name shown, whether it is a word, and its variable. *)
Fixpoint var_fields (fs : list (string * bool * string)) : stM tracer str :=
  match fs with
  | [] => mret []
  | (label, word, name) :: fs' =>
      v ← (if word : bool then read_var16 name else read_var8 name);
      rest ← var_fields fs';
      mret (chars " " ++ chars label ++ chars "=" ++ (if word then h4 v else h2 v) ++ rest)
  end.
Definition var_line (fs : list (string * bool * string)) : stM tracer unit := text ← var_fields fs; say (chars "      " ++ text).

Definition dump_disk_state : stM tracer unit :=
  var_line [("cpm_disk", false, "cpm_disk"); ("cpm_track", true, "cpm_track"); ("cpm_sector", true, "cpm_sector");
    ("cpm_sector_as_host", true, "cpm_sector_as_host")]%string;;
  var_line [("hostbuf_disk", false, "hostbuf_disk"); ("hostbuf_track", true, "hostbuf_track"); ("hostbuf_sector", true, "hostbuf_sector");
    ("hostbuf_valid", false, "hostbuf_valid"); ("hostbuf_dirty", false, "hostbuf_dirty")]%string;;
  var_line [("cpm_dma_addr", true, "cpm_dma_addr"); ("disk_error", false, "disk_error"); ("need_pre_read", false, "need_pre_read");
    ("is_read", false, "is_read"); ("unalloc_count", false, "unalloc_count")]%string;;
  text ← var_fields [("fl_flg", false, "fl_flg"); ("track0_sectors_per_side", false, "track0_sectors_per_side");
    ("current_format_idx", false, "current_format_idx"); ("fdc_unit_head", false, "fdc_unit_head")]%string;
  n ← getv isr_count;
  say (chars "      " ++ text ++ chars " isr_floppy_count=" ++ decimal n).

Definition dump_fdc_state : stM tracer unit :=
  var_line [("fdc_track", false, "fdc_track"); ("fdc_sector", false, "fdc_sector"); ("last_seek_disk", false, "last_seek_disk");
    ("last_seek_track", true, "last_seek_track"); ("form", true, "current_format")]%string.

(** The sixteen-bit numbers of a block list, low byte first. *)
Fixpoint words_of (s : bytes) : list Z :=
  match s with lo :: hi :: s' => Z.lor lo (Z.shiftl hi 8) :: words_of s' | _ => [] end.
Definition alloc_text (fcb : bytes) : str := list_text (List.filter (fun b => negb (b =? 0)) (words_of (slice 16 32 fcb))).
(** [decode('ascii', errors='replace')] of a part of an FCB. *)
Definition part (a b : nat) (fcb : bytes) : str := ascii_replace (slice a b fcb).

Definition dump_fcb (addr : Z) (label : string) : stM tracer unit :=
  fcb ← mem addr 36;
  if (length fcb <? 32)%nat then say (chars "       " ++ chars label ++ chars ": read error") else
  let at_ i := default 0 (fcb !! i) in
  let cr := at_ 32%nat in
  say (chars "       " ++ chars label ++ chars "@" ++ h4 addr ++ chars ": DR=" ++ decimal (at_ 0%nat) ++ [32; 34] ++ part 1 9 fcb ++ chars "." ++ part 9 12 fcb ++
       [34] ++ chars " EX=" ++ h2 (at_ 12%nat) ++ chars " S1=" ++ h2 (at_ 13%nat) ++ chars " S2=" ++ h2 (at_ 14%nat) ++ chars " RC=" ++ h2 (at_ 15%nat));;
  say (chars "       CR=" ++ decimal cr ++ chars " alloc=" ++ alloc_text fcb);;
  say (chars "       raw=" ++ hex_of (take 32 fcb)).

(** ** Breakpoints *)

Definition disk_entries : list Z := [0xDA03; 0xDA18; 0xDA1B; 0xDA1E; 0xDA21; 0xDA24; 0xDA27; 0xDA2A; 0xDA30].
(** All of them, in the order they are set. *)
Definition permanent : list Z := disk_entries ++ [0xEFC0; 0xE2D7; 0xE458; BDOS_ENTRY].

(** [set.add]. *)
Definition add_to (a : Z) (s : list Z) : list Z := if decide (a ∈ s) then s else s ++ [a].

Fixpoint set_all (addrs : list Z) : stM tracer unit :=
  match addrs with
  | [] => mret tt
  | addr :: addrs' =>
      ok ← set_bp addr;
      (if ok : bool then setv (fun v => set_bp_set (add_to addr (bp_set v)) v) else mret tt);;
      set_all addrs'
  end.

Definition setup_breakpoints : stM tracer unit :=
  set_all permanent;;
  s ← getv bp_set;
  say (chars "Set " ++ decimal (zlength s) ++ chars " breakpoints").

(** The name of the last BDOS function, if the tracer knows it. *)
Definition last_name (f : option Z) : str := default (chars "?") (f ≫= named BDOS_NAMES).

Definition on_bdos_return (regs : list (str * Z)) (bp : Z) : stM tracer unit :=
  af ← reg regs "AF";
  let a := Z.land (Z.shiftr af 8) 255 in
  hl ← reg regs "HL";
  f ← getv last_bdos_func;
  say (chars "  BDOS RETURN: A=" ++ h2 a ++ chars " HL=" ++ h4 hl ++ chars " (from " ++ last_name f ++ chars ")");;
  (if bool_decide (f = Some BDOS_OPEN) then
     if a =? 255 then say (chars "       *** OPEN FAILED (A=FF) — file not found! ***")
     else say (chars "       OPEN succeeded (dir code=" ++ decimal a ++ chars ")");; dump_fcb DEFAULT_FCB "FCB after OPEN"
   else if bool_decide (f = Some BDOS_READ_SEQ) then
     if negb (a =? 0) then say (chars "       *** READ_SEQ FAILED (A=" ++ h2 a ++ chars ") ***")
     else say (chars "       READ_SEQ ok")
   else mret tt);;
  remove_bp bp;;
  setv (set_bdos_return_bp None).

Definition on_bdos_entry (regs : list (str * Z)) : stM tracer unit :=
  bc ← reg regs "BC";
  let c := Z.land bc 255 in
  de ← reg regs "DE";
  setv (fun v => set_bdos_call_count (bdos_call_count v + 1) v);;
  let fname := default (chars "F" ++ decimal c) (named BDOS_NAMES c) in
  p ← getv phase;
  if bool_decide (p = TYPE) || bool_decide (c ∈ [BDOS_OPEN; BDOS_READ_SEQ; BDOS_CLOSE; BDOS_SEARCH; BDOS_SEARCH_N; BDOS_SETDMA]) then
    n ← getv bdos_call_count;
    say (chars "  BDOS #" ++ right 4 n ++ [32] ++ left 5 (phase_name p) ++ [32] ++ left 12 fname ++ chars " C=" ++ h2 c ++ chars " DE=" ++ h4 de);;
    (if bool_decide (c ∈ [BDOS_OPEN; BDOS_SEARCH]) then dump_fcb de "FCB" else mret tt);;
    setv (set_last_bdos_func (Some c));;
    if bool_decide (c ∈ [BDOS_OPEN; BDOS_READ_SEQ; BDOS_SEARCH]) && bool_decide (p = TYPE) then
      sp ← reg regs "SP";
      ret_addr ← word_at sp;
      pending ← getv bdos_return_bp;
      if negb (ret_addr =? 0) && bool_decide (pending = None) then
        setv (set_bdos_return_bp (Some ret_addr));;
        set_bp ret_addr;;
        say (chars "       (return BP set at " ++ h4 ret_addr ++ chars ")")
      else mret tt
    else mret tt
  else mret tt.

(** What a line shows of the registers at the entry [name]. *)
Definition call_text (name : str) (a bc de hl : Z) : str :=
  let c := Z.land bc 255 in
  let called (s : string) := bool_decide (name = chars s) in
  if called "SELDSK"%string then chars " C=" ++ h2 c ++ chars " (drive " ++ decimal c ++ chars ")"
  else if called "SETTRK"%string then chars " BC=" ++ h4 bc ++ chars " (track " ++ decimal bc ++ chars ")"
  else if called "SETSEC"%string then chars " BC=" ++ h4 bc ++ chars " (sector " ++ decimal bc ++ chars ")"
  else if called "SETDMA"%string then chars " BC=" ++ h4 bc
  else if called "READ"%string then chars " A=" ++ h2 a
  else if called "WRITE"%string then chars " C=" ++ h2 c ++ chars " (type " ++ decimal c ++ chars ")"
  else if called "SECTRAN"%string then chars " BC=" ++ h4 bc ++ chars " DE=" ++ h4 de
  else if called "HOME"%string then []
  else if called "secrd"%string || called "rdhst"%string || called "chktrk"%string then chars " (internal)"
  else chars " A=" ++ h2 a ++ chars " BC=" ++ h4 bc ++ chars " DE=" ++ h4 de ++ chars " HL=" ++ h4 hl.

(** [BIOS_ENTRY.get(pc) or INTERNAL.get(pc) or f'BP@{pc:04X}']. *)
Definition entry_name (pc : Z) : str :=
  match named BIOS_ENTRY pc with Some s => s | None => match named INTERNAL pc with Some s => s | None => chars "BP@" ++ h4 pc end end.

Definition on_type_home : stM tracer unit :=
  say (chars "       --- FCB state when TYPE starts disk I/O ---");;
  dump_fcb DEFAULT_FCB "DefaultFCB";;
  dma ← mem DEFAULT_DMA 128;
  match dma with [] => mret tt | _ => say (chars "       DMA@0080: " ++ hex_of (take 32 dma) ++ chars " ...") end.

Definition on_type_read : stM tracer unit :=
  setv (fun v => set_type_read_count (type_read_count v + 1) v);;
  n ← getv type_read_count;
  if n =? 2 then
    say (chars "       *** 2nd TYPE READ — will single-step after return ***");;
    setv set_single_step
  else mret tt.

Definition on_call (regs : list (str * Z)) (pc : Z) : stM tracer unit :=
  setv (fun v => set_call_num (call_num v + 1) v);;
  let name := entry_name pc in
  let called (s : string) := bool_decide (name = chars s) in
  bc ← reg regs "BC";
  de ← reg regs "DE";
  hl ← reg regs "HL";
  af ← reg regs "AF";
  let a := Z.land (Z.shiftr af 8) 255 in
  p ← getv phase;
  if bool_decide (p = DIR) then mret tt else
  n ← getv call_num;
  say (chars "[" ++ right 4 n ++ chars "] " ++ left 5 (phase_name p) ++ [32] ++ left 12 name ++ call_text name a bc de hl);;
  (if called "READ"%string || called "WRITE"%string || called "secrd"%string || called "rdhst"%string then
     dump_disk_state;;
     if called "secrd"%string || called "rdhst"%string then dump_fdc_state else mret tt
   else mret tt);;
  (if bool_decide (p = TYPE) && called "HOME"%string then on_type_home else mret tt);;
  if bool_decide (p = TYPE) && called "READ"%string then on_type_read else mret tt.

Definition handle_breakpoint (regs : list (str * Z)) : stM tracer bool :=
  pc ← reg regs "PC";
  if pc =? 0xEFC0 then setv (fun v => set_isr_count (isr_count v + 1) v);; mret true else
  pending ← getv bdos_return_bp;
  let bp := default 0 pending in
  if negb (bp =? 0) && (pc =? bp) then on_bdos_return regs bp;; mret true else
  if pc =? BDOS_ENTRY then on_bdos_entry regs;; mret true else
  on_call regs pc;; mret true.

(** ** Single steps *)

(** [code.hex()] at an address, if it can be read. *)
Definition hex_at (label : string) (a : Z) : stM tracer unit :=
  code ← mem a 16;
  match code with [] => mret tt | _ => say (chars label ++ hex_of code) end.

Definition far (limit new old : Z) : bool := if old =? 0 then false else limit <? Z.abs (new - old).

(** The loop's last [n] steps, from [step_num]: did it break?  The variable
    [verbose_start], which nothing uses, is left out. *)
Fixpoint steps_from (n : nat) (step_num prev_sp prev_pc : Z) : stM tracer bool :=
  match n with
  | O => mret false
  | S n' =>
      one_step;;
      regs ← regs_now;
      match regs with
      | [] => say (chars "  STEP " ++ decimal step_num ++ chars ": register read failed");; mret true
      | _ =>
          pc ← reg regs "PC";
          sp ← reg regs "SP";
          af ← reg regs "AF";
          let a := Z.land (Z.shiftr af 8) 255 in
          hl ← reg regs "HL";
          de ← reg regs "DE";
          bc ← reg regs "BC";
          (if (step_num mod 200 =? 0) || far 4 sp prev_sp || far 100 pc prev_pc || (1100 <? step_num) || (pc <? 0x0500) || (0xF000 <? pc) then
             inst ← mem pc 1;
             let inst_hex := match inst with [] => chars "??" | _ => hex_of inst end in
             say (chars "  STEP " ++ right 5 step_num ++ chars ": PC=" ++ h4 pc ++ chars " [" ++ inst_hex ++ chars "] SP=" ++ h4 sp ++ chars " A=" ++ h2 a ++
                  chars " BC=" ++ h4 bc ++ chars " DE=" ++ h4 de ++ chars " HL=" ++ h4 hl)
           else mret tt);;
          if (0x0005 <? pc) && (pc <? 0x0500) then
            say (10 :: chars "  *** CRASH at step " ++ decimal step_num ++ chars ": PC=" ++ h4 pc ++ chars " SP=" ++ h4 sp ++ chars " ***");;
            hex_at "      Code: " pc;;
            hex_at "      Stack: " sp;;
            dump_fcb 0xCBCD "CCP FCB";;
            mret true
          else steps_from n' (step_num + 1) sp pc
      end
  end.

Definition single_step_trace (max_steps : Z) : stM tracer unit :=
  say (10 :: chars "  === Single-stepping up to " ++ decimal max_steps ++ chars " instructions ===");;
  broke ← steps_from (Z.to_nat max_steps) 0 0 0;
  if broke : bool then mret tt else
  say (chars "  === " ++ decimal max_steps ++ chars " steps without crash ===");;
  regs ← regs_now;
  match regs with
  | [] => mret tt
  | _ => pc ← reg regs "PC"; sp ← reg regs "SP"; say (chars "  Final: PC=" ++ h4 pc ++ chars " SP=" ++ h4 sp)
  end.

(** ** The loop *)

(** What an iteration does after its [try]: [continue], [break], or go on to the
    breakpoint. *)
Inductive next : Type := Continue | Break | Handle.

Fixpoint say_all (lines : list str) : stM tracer unit := match lines with [] => mret tt | l :: lines' => say l;; say_all lines' end.
Definition banner (lines : list str) : stM tracer unit := say (10 :: bar);; say_all lines;; say (bar ++ [10]).

(** The first command goes in, and the directory phase begins. *)
Definition start_dir : stM tracer unit :=
  keys (default [] (COMMANDS !! 0%nat));;
  setv (fun v => set_isr_count 0 (set_phase 1 DIR v)).

Definition quiet_boot : stM tracer next :=
  say (10 :: chars "--- Timeout during BOOT (no BIOS JP table calls?) ---");;
  say (chars "--- This is normal: wboot bypasses JP table ---");;
  say (chars "--- Sending interrupt to check screen ---" ++ [10]);;
  break_in;;
  stop;;
  regs_now;;
  ready ← on_screen (chars "A>");
  (if ready : bool then
     banner [chars "Boot complete. Injecting: " ++ first_command];;
     start_dir
   else
     say (chars "Screen does not show A> yet, waiting more...");;
     dump_screen);;
  resume;;
  mret Continue.

Definition quiet_dir : stM tracer next :=
  say (10 :: chars "--- DIR done, injecting TYPE ---");;
  break_in;;
  stop;;
  i ← getv cmd_idx;
  match COMMANDS !! i with
  | Some cmd =>
      keys cmd;;
      setv (fun v => set_isr_count 0 (set_phase (i + 1)%nat TYPE v));;
      resume;;
      mret Continue
  | None => mret Handle
  end.

(** The entries of the directory buffer, four of 32 bytes. *)
Definition dirbuf_line (dirbuf : bytes) (i : nat) : stM tracer unit :=
  let entry := slice (32 * i) (32 * i + 32) dirbuf in
  user ← lift (index entry 0);
  rc ← lift (index entry 15);
  (if (length entry <? 32)%nat then raise IndexError else mret tt);;
  say (chars "  dirbuf[" ++ decimal (Z.of_nat i) ++ chars "]: u=" ++ decimal user ++ [32; 34] ++ part 1 9 entry ++ chars "." ++ part 9 12 entry ++ [34] ++
       chars " RC=" ++ decimal rc ++ chars " alloc=" ++ alloc_text entry).

Definition show_dirbuf : stM tracer unit :=
  dirbuf ← mem 0xDE35 128;
  match dirbuf with
  | [] => mret tt
  | _ => dirbuf_line dirbuf 0;; dirbuf_line dirbuf 1;; dirbuf_line dirbuf 2;; dirbuf_line dirbuf 3
  end.

Definition quiet_type : stM tracer next :=
  say (10 :: bar);;
  say (chars "TYPE stalled (no BIOS calls for 4.0s)");;
  break_in;;
  stop;;
  regs ← regs_now;
  (match regs with
   | [] => mret tt
   | _ =>
       pc ← reg regs "PC";
       sp ← reg regs "SP";
       af ← reg regs "AF";
       bc ← reg regs "BC";
       de ← reg regs "DE";
       hl ← reg regs "HL";
       say (chars "  STALL PC=" ++ h4 pc ++ chars " SP=" ++ h4 sp ++ chars " A=" ++ h2 (Z.land (Z.shiftr af 8) 255) ++ chars " BC=" ++ h4 bc ++
            chars " DE=" ++ h4 de ++ chars " HL=" ++ h4 hl);;
       hex_at "  Code at PC: " pc;;
       hex_at "  Stack at SP: " sp;;
       dump_fcb 0xCBCD "CCP FCB";;
       dump_fcb DEFAULT_FCB "Default FCB";;
       show_dirbuf
   end);;
  dump_screen;;
  say bar;;
  setv (fun v => set_phase (cmd_idx v) DONE v);;
  mret Break.

Definition on_timeout : stM tracer next :=
  p ← getv phase;
  match p with BOOT => quiet_boot | DIR => quiet_dir | TYPE => quiet_type | DONE => mret Handle end.

(** The first breakpoint outside the interrupt routine while booting. *)
Definition on_first_call (pc : Z) : stM tracer unit :=
  banner [chars "First BIOS JP table call after boot at PC=" ++ h4 pc; chars "  → " ++ default (chars "???") (named BIOS_ENTRY pc);
    chars "Injecting: " ++ first_command];;
  start_dir.

Fixpoint remove_all (addrs : list Z) : stM tracer unit :=
  match addrs with [] => mret tt | a :: addrs' => remove_bp a;; remove_all addrs' end.

Definition step_to_the_end : stM tracer next :=
  say (chars "       *** SETDMA after 2nd READ — removing BPs and single-stepping ***");;
  s ← getv bp_set;
  remove_all (in_turn s);;
  pending ← getv bdos_return_bp;
  (match pending with Some bp => if bp =? 0 then mret tt else remove_bp bp;; mret tt | None => mret tt end);;
  single_step_trace 3000;;
  setv (fun v => set_phase (cmd_idx v) DONE v);;
  mret Break.

Definition at_breakpoint : stM tracer next :=
  regs ← regs_now;
  match regs with
  | [] => say (chars "WARNING: could not read registers, continuing...");; resume;; mret Continue
  | _ =>
      pc ← reg regs "PC";
      p ← getv phase;
      (if bool_decide (p = BOOT) && negb (pc =? 0xEFC0) then on_first_call pc else mret tt);;
      ok ← handle_breakpoint regs;
      if negb ok then mret Break else
      stepping ← getv single_step_after_read;
      if (stepping : bool) && (pc =? 0xDA24) then step_to_the_end else
      resume;;
      mret Continue
  end.

(** One turn: [try: stop = self.gdb.recv_stop() except socket.timeout: ...] and the rest. *)
Definition turn : stM tracer next :=
  timed_out ← catch (fun e => bool_decide (e = TimeoutError)) (stop;; mret false) (fun _ => mret true);
  n ← (if timed_out : bool then on_timeout else mret Handle);
  match n with Handle => at_breakpoint | _ => mret n end.

(** [while self.phase != 'DONE'], for at most [fuel] turns: has it ended? *)
Fixpoint turns_from (fuel : nat) : stM tracer bool :=
  p ← getv phase;
  if bool_decide (p = DONE) then mret true else
  match fuel with
  | O => mret false
  | S fuel' => n ← turn; match n with Break => mret true | _ => turns_from fuel' end
  end.

Definition run (fuel : nat) : stM tracer bool :=
  setup_breakpoints;;
  banner [chars "Starting MAME execution, waiting for boot..."];;
  resume;;
  ended ← turns_from fuel;
  if negb ended then mret false else
  v ← getv id;
  say (10 :: bar);;
  say (chars "Trace complete. Total BIOS calls logged: " ++ decimal (call_num v));;
  say (chars "Total floppy ISR firings: " ++ decimal (isr_count v));;
  say bar;;
  mret true.

Lemma quiet_dump_rows n : forall row, quiet (dump_rows n row).
Proof. induction n as [|n IH]; intros row; cbn [dump_rows]; quieter. Qed.
Lemma quiet_dump_screen : quiet dump_screen.
Proof. unfold dump_screen. quieter. apply quiet_dump_rows. Qed.
Lemma quiet_var8 name : quiet (read_var8 name).
Proof. unfold read_var8, var_addr. quieter. Qed.
Lemma quiet_var16 name : quiet (read_var16 name).
Proof. unfold read_var16, var_addr. quieter. Qed.
#[local] Hint Resolve quiet_dump_screen quiet_var8 quiet_var16 : quiet.

Lemma quiet_var_fields fs : quiet (var_fields fs).
Proof. induction fs as [|[[label word] name] fs IH]; cbn [var_fields]; quieter; auto with quiet. Qed.
#[local] Hint Resolve quiet_var_fields : quiet.
Lemma quiet_disk_state : quiet dump_disk_state.
Proof. unfold dump_disk_state, var_line. quieter. Qed.
Lemma quiet_fdc_state : quiet dump_fdc_state.
Proof. unfold dump_fdc_state, var_line. quieter. Qed.
Lemma quiet_fcb addr label : quiet (dump_fcb addr label).
Proof. unfold dump_fcb. quieter. Qed.
#[local] Hint Resolve quiet_disk_state quiet_fdc_state quiet_fcb : quiet.
Lemma quiet_hex_at label a : quiet (hex_at label a).
Proof. unfold hex_at. quieter. Qed.
Lemma quiet_say_all ls : quiet (say_all ls).
Proof. induction ls; cbn [say_all]; quieter. Qed.
#[local] Hint Resolve quiet_hex_at quiet_say_all : quiet.
Lemma quiet_banner ls : quiet (banner ls).
Proof. unfold banner. quieter. Qed.
Lemma quiet_dirbuf_line d i : quiet (dirbuf_line d i).
Proof. unfold dirbuf_line. quieter. Qed.
#[local] Hint Resolve quiet_banner quiet_dirbuf_line : quiet.
Lemma quiet_show_dirbuf : quiet show_dirbuf.
Proof. unfold show_dirbuf. quieter. Qed.
Lemma quiet_type_home : quiet on_type_home.
Proof. unfold on_type_home. quieter. Qed.
#[local] Hint Resolve quiet_show_dirbuf quiet_type_home : quiet.

Definition commands_given (p : phase_t) : nat := match p with BOOT => 0 | DIR => 1 | TYPE | DONE => 2 end.
Definition timeouts_after (p : phase_t) : nat := match p with BOOT | DIR => 0 | TYPE => 1 | DONE => 2 end.

(** The state between two requests: does the target run; how many timeouts more than
    the phase tells; at least [n] stops and timeouts were seen; and the return
    breakpoint that stands. *)
Record Inv (running : bool) (extra n : nat) (pend : option Z) (v : vars) (l : list event) : Prop := {
  inv_live : live l = Some running;
  inv_typed : typed l = take (cmd_idx v) COMMANDS;
  inv_idx : cmd_idx v = commands_given (phase v);
  inv_phase : phase v <> DONE;
  inv_bps : forall a, a ∈ bp_set v -> a ∈ permanent;
  inv_stand : forall a, a ∉ permanent -> (a ∈ standing l <-> pend = Some a);
  inv_pend : pend <> Some 0;
  inv_late : (late l <= extra + timeouts_after (phase v))%nat;
  inv_limit : (extra + timeouts_after (phase v) <= 2)%nat;
  inv_single : single_step_after_read v = true -> phase v = TYPE;
  inv_nostep : Step ∉ l;
  inv_beats : (n <= beats l)%nat
}.

(** What holds of the log whenever the tracer is left, by an exception too. *)
Record Allowed (v : vars) (l : list event) : Prop := {
  ok_live : is_Some (live l);
  ok_typed : prefix (typed l) COMMANDS;
  ok_stand : exists pend : option Z, forall a, a ∉ permanent -> a ∈ standing l -> pend = Some a;
  ok_late : (late l <= 3)%nat;
  ok_steps : exists l0 m, l = l0 ++ m /\ (Step ∉ l0) /\ Forall (fun e => e = Step \/ e = Look) m /\ (count Step m <= Z.to_nat 3000)%nat /\
    (m <> [] -> forall a, a ∈ standing l0 -> a ∈ permanent /\ a ∉ bp_set v)
}.

Lemma inv_allowed r x n pend v l : Inv r x n pend v l -> Allowed v l.
Proof.
  intros []. split; [by eexists| | |lia|].
  - rewrite inv_typed0. exists (drop (cmd_idx v) COMMANDS). by rewrite take_drop.
  - exists pend. intros a Ha. by apply inv_stand0.
  - exists l, []. split_and!; [by rewrite app_nil_r|done|by apply Forall_nil|cbn; lia|done].
Qed.

(** A request that types nothing and sets and removes nothing. *)
Definition plain (e : event) : bool := match e with Interrupt | Cont | Look => true | _ => false end.

Lemma inv_plain r r' x n pend v l e : plain e = true -> follow (Some r) e = Some r' -> Inv r x n pend v l -> Inv r' x n pend v (l ++ [e]).
Proof.
  intros Hp Hf []. split; try done.
  - by rewrite live_snoc, inv_live0.
  - rewrite typed_snoc, inv_typed0. by destruct e; rewrite ?app_nil_r.
  - intros a Ha. rewrite standing_snoc, <- inv_stand0 by done. by destruct e.
  - rewrite late_other by (by destruct e). lia.
  - rewrite elem_of_app, list_elem_of_singleton. intros [?|E]; [done|]. by rewrite <- E in Hp.
  - etrans; [done|apply beats_snoc].
Qed.

Lemma inv_stop x n pend v l : Inv true x n pend v l -> Inv false x (S n) pend v (l ++ [Stop]).
Proof.
  intros []. split; try done.
  - by rewrite live_snoc, inv_live0.
  - by rewrite typed_snoc, app_nil_r.
  - intros a Ha. by rewrite standing_snoc, <- inv_stand0.
  - rewrite late_other by done. lia.
  - rewrite elem_of_app, list_elem_of_singleton. naive_solver.
  - etrans; [by apply le_n_S|apply beats_snoc_one; auto].
Qed.

(** A timeout counts once commands were given, and not while booting. *)
Definition extra_of (p : phase_t) : nat := match p with DIR | TYPE => 1 | _ => 0 end.

Lemma inv_idle n pend v l : Inv true 0 n pend v l -> Inv true (extra_of (phase v)) (S n) pend v (l ++ [Idle]).
Proof.
  intros []. split; try done.
  - by rewrite live_snoc, inv_live0.
  - by rewrite typed_snoc, app_nil_r.
  - intros a Ha. by rewrite standing_snoc, <- inv_stand0.
  - rewrite late_snoc, inv_typed0, inv_idx0. destruct (phase v); cbn [commands_given timeouts_after extra_of] in *; [|case_match; lia..|done].
    rewrite (bool_decide_eq_true_2 (take 0 COMMANDS = [])) by done. rewrite andb_false_r. lia.
  - by destruct (phase v); cbn; lia.
  - rewrite elem_of_app, list_elem_of_singleton. naive_solver.
  - etrans; [by apply le_n_S|apply beats_snoc_one; auto].
Qed.

Lemma inv_place x n v l a : a <> 0 -> Inv false x n None v l -> Inv false x n (Some a) v (l ++ [Place a]).
Proof.
  intros H0 []. split; try done.
  - by rewrite live_snoc, inv_live0.
  - by rewrite typed_snoc, app_nil_r.
  - intros b Hb. rewrite standing_snoc. cbn [stand]. rewrite elem_of_union, elem_of_singleton, inv_stand0 by done. naive_solver.
  - naive_solver.
  - rewrite late_other by done. lia.
  - rewrite elem_of_app, list_elem_of_singleton. naive_solver.
  - etrans; [done|apply beats_snoc].
Qed.

Lemma inv_permanent x n pend v l a : a ∈ permanent -> Inv false x n pend v l -> Inv false x n pend v (l ++ [Place a]) /\ Inv false x n pend v (l ++ [Remove a]).
Proof.
  intros H0 []. split; split; try done; try (rewrite late_other by done; lia); try (etrans; [done|apply beats_snoc]);
    try (rewrite live_snoc; by rewrite inv_live0); try (by rewrite typed_snoc, app_nil_r);
    try (rewrite elem_of_app, list_elem_of_singleton; naive_solver).
  - intros b Hb. rewrite standing_snoc. cbn [stand]. rewrite elem_of_union, elem_of_singleton, inv_stand0 by done. naive_solver.
  - intros b Hb. rewrite standing_snoc. cbn [stand]. rewrite elem_of_difference, elem_of_singleton, inv_stand0 by done. naive_solver.
Qed.

Lemma inv_remove x n v l a : Inv false x n (Some a) v l -> Inv false x n None v (l ++ [Remove a]).
Proof.
  intros []. split; try done.
  - by rewrite live_snoc, inv_live0.
  - by rewrite typed_snoc, app_nil_r.
  - intros b Hb. rewrite standing_snoc. cbn [stand]. rewrite elem_of_difference, elem_of_singleton, inv_stand0 by done. naive_solver.
  - rewrite late_other by done. lia.
  - rewrite elem_of_app, list_elem_of_singleton. naive_solver.
  - etrans; [done|apply beats_snoc].
Qed.

(** ** The operations *)

Definition At (C : vars -> Prop) (running : bool) (extra n : nat) (pend : option Z) : vars -> list event -> Prop :=
  fun v l => C v /\ Inv running extra n pend v l.

Lemma at_quiet {A} (m : stM tracer A) C x n p : quiet m -> trip (At C false x n p) m (fun _ => At C false x n p) Allowed.
Proof.
  intros Hm. apply trip_quiet; [done| |].
  - intros v l [HC HI]. split; [done|]. by (eapply inv_plain; [| |exact HI]).
  - intros v l [_ HI]. by eapply inv_allowed.
Qed.

Lemma at_say C r x n p line E : trip (At C r x n p) (say line : stM tracer unit) (fun _ => At C r x n p) E.
Proof. intros t Ht. exact Ht. Qed.

Lemma at_getv {A} (f : vars -> A) (C : vars -> Prop) r x n p E : trip (At C r x n p) (getv f : stM tracer A) (fun a => At (fun v => f v = a /\ C v) r x n p) E.
Proof. apply trip_getv. by intros v l []. Qed.

Lemma at_setv f C (C' : vars -> Prop) r x x' n p p' E : (forall v l, C v -> Inv r x n p v l -> C' (f v) /\ Inv r x' n p' (f v) l) ->
  trip (At C r x n p) (setv f : stM tracer unit) (fun _ => At C' r x' n p') E.
Proof. intros H0. apply trip_setv. intros v l [HC HI]. by apply H0. Qed.

(** A change of variables the invariant does not speak of. *)
Lemma at_count f (C : vars -> Prop) r x n p E : (forall v, cmd_idx (f v) = cmd_idx v /\ phase (f v) = phase v /\ bp_set (f v) = bp_set v /\
    single_step_after_read (f v) = single_step_after_read v) -> (forall v, C v -> C (f v)) ->
  trip (At C r x n p) (setv f : stM tracer unit) (fun _ => At C r x n p) E.
Proof.
  intros Hf HC. apply at_setv. intros v l Hv []. split; [auto|]. destruct (Hf v) as (E1 & E2 & E3 & E4).
  split; rewrite ?E1, ?E2, ?E3, ?E4; done.
Qed.

Lemma at_resume C x n p : trip (At C false x n p) (resume : stM tracer unit) (fun _ => At C true x n p) Allowed.
Proof.
  apply trip_ask.
  - intros v l a [HC HI]. split; [done|]. by (eapply inv_plain; [| |exact HI]).
  - intros v l [_ HI]. eapply inv_allowed, inv_plain; [..|exact HI]; done.
Qed.

Lemma at_break_in C x n p : trip (At C true x n p) (break_in : stM tracer unit) (fun _ => At C true x n p) Allowed.
Proof.
  apply trip_ask.
  - intros v l a [HC HI]. split; [done|]. by (eapply inv_plain; [| |exact HI]).
  - intros v l [_ HI]. eapply inv_allowed, inv_plain; [..|exact HI]; done.
Qed.

Lemma idle_allowed x n p v l : Inv true x n p v l -> Allowed v (l ++ [Idle]).
Proof.
  intros HI. destruct (inv_allowed _ _ _ _ _ _ HI) as [_ H2 (o & H3) _ _]. destruct HI. split.
  - rewrite live_snoc, inv_live0. by eexists.
  - by rewrite typed_snoc, app_nil_r.
  - exists o. intros a Ha. rewrite standing_snoc. by apply H3.
  - rewrite late_snoc. case_match; lia.
  - exists (l ++ [Idle]), []. split_and!; [by rewrite app_nil_r| |by apply Forall_nil|cbn; lia|done].
    rewrite elem_of_app, list_elem_of_singleton. naive_solver.
Qed.

Lemma at_stop C x n p : trip (At C true x n p) (stop : stM tracer str) (fun _ => At C false x (S n) p) Allowed.
Proof.
  intros t [HC HI]. unfold stop. destruct (c_recv_stop (target t)) as [[s|e] g]; cbn [its log].
  - split; [done|]. by apply inv_stop.
  - destruct e; cbn [its log]; try (by eapply inv_allowed). by eapply idle_allowed.
Qed.

(** Typing the command of a phase, and on to the next. *)
Lemma at_command ph ph' cmd (C : vars -> Prop) x x' n p : COMMANDS !! commands_given ph = Some cmd -> commands_given ph' = S (commands_given ph) ->
  (x + timeouts_after ph <= x' + timeouts_after ph')%nat -> (x' + timeouts_after ph' <= 2)%nat -> ph <> TYPE -> ph' <> DONE ->
  (forall v, C v -> phase v = ph) ->
  trip (At C false x n p) (keys cmd : stM tracer unit) (fun _ v l => C v /\ Inv false x' n p (set_isr_count 0 (set_phase (commands_given ph') ph' v)) l) Allowed.
Proof.
  intros Hc Hg Hx Hx' Ht Hd HC.
  assert (K : forall v l, At C false x n p v l -> C v /\ Inv false x' n p (set_isr_count 0 (set_phase (commands_given ph') ph' v)) (l ++ [Keys cmd])).
  { intros v l [Hv []]. specialize (HC v Hv). rewrite HC in *. split; [done|]. split; try done.
    - by rewrite live_snoc, inv_live0.
    - rewrite typed_snoc, inv_typed0, inv_idx0. cbn [cmd_idx set_isr_count set_phase]. rewrite Hg. by rewrite (take_S_r _ _ _ Hc).
    - intros a Ha. by rewrite standing_snoc, <- inv_stand0.
    - rewrite late_other by done. cbn [phase set_isr_count set_phase]. lia.
    - intros Hs. destruct (Ht (inv_single0 Hs)).
    - rewrite elem_of_app, list_elem_of_singleton. naive_solver.
    - etrans; [done|apply beats_snoc]. }
  apply trip_ask; [by intros v l _ Hv; apply K|]. intros v l Hv. destruct (K v l Hv) as [_ HI].
  destruct (inv_allowed _ _ _ _ _ _ HI) as [H1 H2 H3 H4 H5]. by split.
Qed.

Lemma trip_weaken {A} (m : stM tracer A) (C C' : vars -> Prop) r x n p Q E : (forall v, C v -> C' v) ->
  trip (At C' r x n p) m Q E -> trip (At C r x n p) m Q E.
Proof. intros HC Hm. eapply trip_conseq; [exact Hm| |done|done]. intros v l [H1 H2]. by split; [apply HC|]. Qed.

(** The tracer's return breakpoint is the one that stands. *)
Abbreviation synced p := (fun v => bdos_return_bp v = p).
Definition Good (r : bool) (x n : nat) : vars -> list event -> Prop := fun v l => Inv r x n (bdos_return_bp v) v l.

Lemma good_at r x n {A} (m : stM tracer A) Q E : (forall p, trip (At (synced p) r x n p) m Q E) -> trip (Good r x n) m Q E.
Proof. intros Hm t Ht. by apply (Hm (bdos_return_bp (its t))). Qed.

Ltac looked := eapply trip_bind; [apply at_quiet; solve [quieter]|intros ?]; cbv beta.
Ltac got := eapply trip_bind; [apply at_getv|intros ?]; cbv beta.
Ltac counted := eapply trip_bind; [apply at_count; [done|solve [done | by intros ? []]]|intros ?]; cbv beta.
Ltac ended := apply trip_ret; cbv beta; intros ? ? [? ?].

Lemma trip_set_all addrs : forall C n, (forall v s, C v -> C (set_bp_set s v)) -> (forall a, a ∈ addrs -> a ∈ permanent) ->
  trip (At C false 0 n None) (set_all addrs) (fun _ => At C false 0 n None) Allowed.
Proof.
  induction addrs as [|a addrs IH]; intros C n HC Ha; cbn [set_all]; [by apply trip_ret|].
  assert (Hp : a ∈ permanent) by apply Ha, list_elem_of_here. apply (trip_bind _ _ _ (fun _ => At C false 0 n None)).
  { apply trip_ask; [intros v l ok [Hv HI]; split; [exact Hv|]; by apply inv_permanent|].
    intros v l [_ HI]. eapply inv_allowed. by apply inv_permanent. }
  intros ok. apply (trip_bind _ _ _ (fun _ => At C false 0 n None)).
  - destruct ok; [|by apply trip_ret].
    apply at_setv. intros v l Hv []. split; [by apply HC|]. split; try done. cbn [bp_set set_bp_set]. intros b.
    unfold add_to. case_decide; [by apply inv_bps0|]. rewrite elem_of_app, list_elem_of_singleton. by intros [?|<-]; [apply inv_bps0|].
  - intros _. apply IH; [done|]. intros b Hb. apply Ha. by apply elem_of_cons; right.
Qed.

Lemma trip_bdos_return regs bp x n : trip (At (synced (Some bp)) false x n (Some bp)) (on_bdos_return regs bp) (fun _ => Good false x n) Allowed.
Proof.
  unfold on_bdos_return. looked. looked. looked. looked. looked. apply (trip_bind _ _ _ (fun _ => Inv false x n None)).
  - apply trip_ask; [intros v l ok [Hv HI]|intros v l [_ HI]; by eapply inv_allowed, inv_remove].
    exact (inv_remove _ _ _ _ _ HI).
  - intros _. apply trip_setv. intros v l []. by split.
Qed.

Lemma trip_bdos_entry regs x n : trip (Good false x n) (on_bdos_entry regs) (fun _ => Good false x n) Allowed.
Proof.
  apply good_at. intros p. assert (Hend : trip (At (synced p) false x n p) (mret tt : stM tracer unit) (fun _ => Good false x n) Allowed).
  { apply trip_ret. intros v l [<- HI]. exact HI. }
  unfold on_bdos_entry. looked. looked. counted. looked. case_match; [|exact Hend]. looked. looked. looked. counted.
  case_match; [|exact Hend]. looked. eapply trip_bind; [apply at_quiet; solve [quieter]|intros ret_addr]. got.
  case_match; [|eapply trip_weaken; [|exact Hend]; by intros v []].
  apply andb_true_iff in H2 as [Hr Hp]. apply bool_decide_eq_true in Hp as ->. apply negb_true_iff, Z.eqb_neq in Hr.
  apply (trip_bind _ _ _ (fun _ => At (synced (Some ret_addr)) false x n None)).
  - apply at_setv. intros v l [Hp Hs] HI. split; [done|]. assert (p = None) as -> by congruence. destruct HI; by split.
  - intros _. apply (trip_bind _ _ _ (fun _ => At (synced (Some ret_addr)) false x n (Some ret_addr))).
    + apply trip_ask; [intros v l ok [Hv HI]|intros v l [_ HI]; by eapply inv_allowed, inv_place].
      split; [exact Hv|]. by apply inv_place.
    + intros _. eapply trip_conseq; [apply at_say|done| |done]. intros _ v l [Hs HI]. unfold Good. by rewrite Hs.
Qed.

Lemma at_good C r x n p E : (forall v, C v -> bdos_return_bp v = p) -> trip (At C r x n p) (mret tt : stM tracer unit) (fun _ => Good r x n) E.
Proof. intros HC. apply trip_ret. intros v l [Hv HI]. unfold Good. by rewrite (HC v Hv). Qed.

Lemma trip_type_read x n p : trip (At (fun v => phase v = TYPE /\ bdos_return_bp v = p) false x n p) on_type_read (fun _ => Good false x n) Allowed.
Proof.
  unfold on_type_read. counted. looked. case_match; [|apply at_good; by intros v []]. looked.
  apply trip_setv. intros v l [[Hp Hs] []]. unfold Good. cbn [bdos_return_bp set_single_step]. rewrite Hs. by split.
Qed.

Lemma trip_call regs pc x n : trip (Good false x n) (on_call regs pc) (fun _ => Good false x n) Allowed.
Proof.
  apply good_at. intros p. unfold on_call. counted. looked. looked. looked. looked. got.
  case_match; [apply at_good; by intros v []|]. looked. looked. looked. looked.
  case_match; [|apply at_good; by intros v []]. apply andb_true_iff in H1 as [Hp _]. apply bool_decide_eq_true in Hp as ->.
  apply trip_type_read.
Qed.

Lemma trip_handle regs x n : trip (Good false x n) (handle_breakpoint regs) (fun b v l => b = true /\ Good false x n v l) Allowed.
Proof.
  assert (Hend : trip (Good false x n) (mret true : stM tracer bool) (fun b v l => b = true /\ Good false x n v l) Allowed) by (by apply trip_ret).
  unfold handle_breakpoint. apply good_at. intros p. looked. case_match.
  { counted. apply trip_ret. intros v l [Hs HI]. split; [done|]. unfold Good. by rewrite Hs. }
  got. case_match.
  - apply andb_true_iff in H1 as [Hb _]. apply negb_true_iff, Z.eqb_neq in Hb. apply (trip_bind _ _ _ (fun _ => Good false x n)); [|intros _; exact Hend].
    destruct a0 as [bp|]; [|done]. cbn [default from_option] in *. unfold id in *.
    eapply trip_conseq; [apply (trip_bdos_return _ _ x n)| |done|done]. intros v l [[Hp Hs] HI]. assert (p = Some bp) as -> by congruence. by split.
  - assert (HG : forall m : stM tracer unit, trip (Good false x n) m (fun _ => Good false x n) Allowed ->
      trip (At (fun v => bdos_return_bp v = a0 /\ bdos_return_bp v = p) false x n p) (m;; mret true) (fun b v l => b = true /\ Good false x n v l) Allowed).
    { intros m Hm. apply (trip_bind _ _ _ (fun _ => Good false x n)); [|intros _; exact Hend]. eapply trip_conseq; [exact Hm| |done|done].
      intros v l [[_ Hs] HI]. unfold Good. by rewrite Hs. }
    case_match; apply HG; [apply trip_bdos_entry|apply trip_call].
Qed.

(** ** Single steps *)

(** From [l0] on, the tracer has only stepped, at most [k] times, and looked. *)
Definition Stepped (C : vars -> Prop) (l0 : list event) (k : nat) : vars -> list event -> Prop := fun v l =>
  C v /\ Inv false 0 0 None v l0 /\ (forall a, a ∈ standing l0 -> a ∈ permanent /\ a ∉ bp_set v) /\ (k <= Z.to_nat 3000)%nat /\
  exists m, l = l0 ++ m /\ Forall (fun e => e = Step \/ e = Look) m /\ (count Step m <= k)%nat.

Lemma after_steps l0 m s o : Forall (fun e => e = Step \/ e = Look) m -> live l0 = Some false -> typed l0 = s -> standing l0 = o ->
  live (l0 ++ m) = Some false /\ typed (l0 ++ m) = s /\ standing (l0 ++ m) = o /\ late (l0 ++ m) = late l0.
Proof.
  intros Hm H1 H2 H3. induction m as [|e m IH] using rev_ind; [by rewrite app_nil_r|].
  apply Forall_app in Hm as [Hm He]. apply Forall_cons in He as [He _]. destruct (IH Hm) as (I1 & I2 & I3 & I4).
  rewrite app_assoc, live_snoc, typed_snoc, standing_snoc, I1, I2, I3, late_other, I4 by (by destruct He as [-> | ->]).
  by destruct He as [-> | ->]; cbn; rewrite app_nil_r.
Qed.

Lemma stepped_allowed C l0 k v l : Stepped C l0 k v l -> Allowed v l.
Proof.
  intros (_ & HI & Hst & Hk & m & -> & Hm & Hc). destruct (after_steps l0 m _ _ Hm (inv_live _ _ _ _ _ _ HI) eq_refl eq_refl) as (I1 & I2 & I3 & I4).
  destruct (inv_allowed _ _ _ _ _ _ HI) as [_ H2 (o & H3) H4 _]. split.
  - by rewrite I1.
  - by rewrite I2.
  - exists o. by rewrite I3.
  - by rewrite I4.
  - exists l0, m. split_and!; [done|apply HI|done|lia|done].
Qed.

Lemma stepped_snoc C l0 k v l e : e = Step \/ e = Look -> (k + (if bool_decide (e = Step) then 1 else 0) <= Z.to_nat 3000)%nat ->
  Stepped C l0 k v l -> Stepped C l0 (k + if bool_decide (e = Step) then 1 else 0)%nat v (l ++ [e]).
Proof.
  intros He Hk (HC & HI & Hst & _ & m & -> & Hm & Hc). split_and!; [done|done|done|done|].
  exists (m ++ [e]). split_and!; [by rewrite app_assoc|apply Forall_app_2; [done|by apply Forall_cons]|].
  rewrite count_snoc. lia.
Qed.

Lemma stepped_quiet {A} (m : stM tracer A) C l0 k : quiet m -> trip (Stepped C l0 k) m (fun _ => Stepped C l0 k) Allowed.
Proof.
  intros Hm. apply trip_quiet; [done| |].
  - intros v l HS. assert (Hk : (k <= Z.to_nat 3000)%nat) by apply HS. pose proof (stepped_snoc C l0 k v l Look) as Hn.
    rewrite bool_decide_eq_false_2, Nat.add_0_r in Hn by done. auto.
  - intros v l HS. by eapply stepped_allowed.
Qed.

Ltac stepped := eapply trip_bind; [apply stepped_quiet; solve [quieter]|intros ?]; cbv beta.

Lemma trip_steps C l0 : forall n k step_num sp pc, (k + n <= Z.to_nat 3000)%nat ->
  trip (Stepped C l0 k) (steps_from n step_num sp pc) (fun _ => Stepped C l0 (k + n)) Allowed.
Proof.
  assert (Hle : forall k k' v l, (k <= k')%nat -> (k' <= Z.to_nat 3000)%nat -> Stepped C l0 k v l -> Stepped C l0 k' v l).
  { intros k k' v l H0 H1 (HC & HI & Hst & _ & m & -> & Hm & Hc). split_and!; try done. exists m. split_and!; [done|done|lia]. }
  induction n as [|n IH]; intros k step_num sp pc Hk; cbn [steps_from].
  { apply trip_ret. intros v l. by rewrite Nat.add_0_r. }
  apply (trip_bind _ _ _ (fun _ => Stepped C l0 (S k))).
  { assert (K : forall v l, Stepped C l0 k v l -> Stepped C l0 (S k) v (l ++ [Step])).
    { intros v l HS. pose proof (stepped_snoc C l0 k v l Step (or_introl eq_refl)) as Hn. rewrite bool_decide_eq_true_2 in Hn by done.
      replace (k + 1)%nat with (S k) in Hn by lia. apply Hn; [lia|done]. }
    apply trip_ask; [intros v l _ HS; by apply K|intros v l HS; eapply stepped_allowed; by apply K]. }
  intros _. stepped. assert (Hend : forall b : bool, trip (Stepped C l0 (S k)) (mret b : stM tracer bool) (fun _ => Stepped C l0 (k + S n)) Allowed).
  { intros b. apply trip_ret. intros v l. apply Hle; lia. }
  case_match; [stepped; apply Hend|]. do 7 stepped. case_match.
  - do 4 stepped. apply Hend.
  - replace (k + S n)%nat with (S k + n)%nat by lia. apply IH. lia.
Qed.

Lemma trip_single_step C l0 : trip (Stepped C l0 0) (single_step_trace 3000) (fun _ => Stepped C l0 (Z.to_nat 3000)) Allowed.
Proof.
  unfold single_step_trace. stepped. eapply trip_bind; [apply trip_steps; lia|]. intros broke. cbn [Nat.add].
  case_match; [by apply trip_ret|]. stepped. stepped. case_match; [by apply trip_ret|]. stepped. stepped. apply stepped_quiet. quieter.
Qed.

(** Removing some of the permanent breakpoints. *)
Lemma trip_remove_all addrs : forall C n p (gone : list Z), (forall a, a ∈ addrs -> a ∈ permanent) ->
  trip (fun v l => At C false 0 n p v l /\ forall a, a ∈ gone -> a ∉ standing l) (remove_all addrs)
    (fun _ v l => At C false 0 n p v l /\ forall a, a ∈ gone \/ a ∈ addrs -> a ∉ standing l) Allowed.
Proof.
  induction addrs as [|a addrs IH]; intros C n p gone Ha; cbn [remove_all].
  { apply trip_ret. intros v l [H1 H2]. split; [done|]. intros a [?|?%elem_of_nil]; auto. }
  assert (Hp : a ∈ permanent) by apply Ha, list_elem_of_here.
  apply (trip_bind _ _ _ (fun _ v l => At C false 0 n p v l /\ forall b, b ∈ a :: gone -> b ∉ standing l)).
  - apply trip_ask.
    + intros v l ok [[HC HI] Hg]. split; [split; [done|by apply inv_permanent]|]. intros b Hb. rewrite standing_snoc. cbn [stand].
      rewrite elem_of_difference, elem_of_singleton. apply elem_of_cons in Hb as [->|Hb]; [tauto|]. specialize (Hg b Hb). tauto.
    + intros v l [[_ HI] _]. eapply inv_allowed. by apply inv_permanent.
  - intros _. eapply trip_conseq; [apply (IH C n p (a :: gone)); intros b Hb; apply Ha; by apply elem_of_cons; right|done| |done].
    intros _ v l [H1 H2]. split; [done|]. intros b Hb. apply H2. rewrite !elem_of_cons in *. tauto.
Qed.

(** The end of a run, and the turns before. *)
Definition Ended (v : vars) (l : list event) : Prop := phase v = DONE /\ live l = Some false /\ typed l = COMMANDS /\ Allowed v l.

Lemma stepped_ended C l0 k v l : (forall v, C v -> cmd_idx v = 2%nat) -> Stepped C l0 k v l -> Ended (set_phase (cmd_idx v) DONE v) l.
Proof.
  intros HC HS. pose proof (stepped_allowed _ _ _ _ _ HS) as [H1 H2 H3 H4 H5]. destruct HS as (Hv & HI & Hst & Hk & m & -> & Hm & Hc).
  destruct (after_steps l0 m _ _ Hm (inv_live _ _ _ _ _ _ HI) eq_refl eq_refl) as (I1 & I2 & I3 & I4).
  split_and!; [done|done| |by split]. rewrite I2, (inv_typed _ _ _ _ _ _ HI), (HC v Hv). done.
Qed.

Hypothesis in_turn_perm : forall l, in_turn l ≡ₚ l.

(** The breakpoints of the set are gone. *)
Definition Bare (s : list Z) (n : nat) (p : option Z) : vars -> list event -> Prop := fun v l =>
  At (fun v => cmd_idx v = 2%nat /\ bp_set v = s /\ bdos_return_bp v = p) false 0 n p v l /\ forall b, b ∈ s -> b ∉ standing l.

Lemma trip_bare s n p : trip (At (fun v => cmd_idx v = 2%nat /\ bp_set v = s /\ bdos_return_bp v = p) false 0 n p) (remove_all (in_turn s))
  (fun _ => Bare s n p) Allowed.
Proof.
  intros t [(Hc & Hs & Hp) HI].
  assert (Hin : forall b, b ∈ in_turn s -> b ∈ permanent) by (intros b Hb; apply (inv_bps _ _ _ _ _ _ HI); rewrite Hs; by rewrite <- in_turn_perm).
  assert (Hpre : At (fun v => cmd_idx v = 2%nat /\ bp_set v = s /\ bdos_return_bp v = p) false 0 n p (its t) (log t) /\
    forall b, b ∈ [] -> b ∉ standing (log t)) by (split; [by split_and!|]; intros b Hb; by apply elem_of_nil in Hb).
  pose proof (trip_remove_all (in_turn s) _ n p [] Hin t Hpre) as K.
  destruct (remove_all (in_turn s) t) as [[u|e] t']; [|exact K]. destruct K as [K1 K2]. split; [done|].
  intros b Hb. apply K2. right. by rewrite in_turn_perm.
Qed.

Lemma trip_pending s n p : trip (Bare s n p)
  (match p with Some bp => if bp =? 0 then mret tt else remove_bp bp;; mret tt | None => mret tt end : stM tracer unit)
  (fun _ v l => (cmd_idx v = 2%nat /\ bp_set v = s) /\ Inv false 0 n None v l /\ forall b, b ∈ s -> b ∉ standing l) Allowed.
Proof.
  destruct p as [bp|]; [|apply trip_ret; intros v l [[(?&?&?) HI] Hb]; by split_and!]. case_match eqn:E0.
  - apply Z.eqb_eq in E0 as ->. apply trip_ret. intros v l [[_ HI] _]. by destruct (inv_pend _ _ _ _ _ _ HI).
  - apply (trip_bind _ _ _ (fun _ v l => (cmd_idx v = 2%nat /\ bp_set v = s) /\ Inv false 0 n None v l /\ forall b, b ∈ s -> b ∉ standing l)).
    2: { intros _. by apply trip_ret. }
    apply trip_ask.
    + intros v l ok [[Hv HI] Hb]. split_and!; [apply Hv|apply Hv|exact (inv_remove _ _ _ _ _ HI)|]. intros b Hin. rewrite standing_snoc. cbn [stand].
      rewrite elem_of_difference. specialize (Hb b Hin). tauto.
    + intros v l [[_ HI] _]. by eapply inv_allowed, inv_remove.
Qed.

Lemma trip_step_to_the_end n : trip (fun v l => single_step_after_read v = true /\ Good false 0 n v l) step_to_the_end (fun r v l => r = Break /\ Ended v l) Allowed.
Proof.
  assert (G1 : forall p s, trip (At (fun v => cmd_idx v = 2%nat /\ bp_set v = s /\ bdos_return_bp v = p) false 0 n p) step_to_the_end
    (fun r v l => r = Break /\ Ended v l) Allowed).
  { intros p s. unfold step_to_the_end. looked.
    apply (trip_bind _ _ _ (fun s' v l => s' = s /\ At (fun v => cmd_idx v = 2%nat /\ bp_set v = s /\ bdos_return_bp v = p) false 0 n p v l)).
    { apply trip_getv. intros v l Hv. split; [apply Hv|done]. }
    intros s'. apply trip_eq. intros ->. apply (trip_bind _ _ _ (fun _ => Bare s n p)); [apply trip_bare|]. intros _.
    apply (trip_bind _ _ _ (fun p' v l => p' = p /\ Bare s n p v l)).
    { apply trip_getv. intros v l Hv. split; [apply Hv|done]. }
    intros p'. apply trip_eq. intros ->.
    eapply trip_bind; [apply trip_pending|]. intros _ t ((Hc & Hs) & HI & Hb).
    set (C := fun v : vars => cmd_idx v = 2%nat).
    assert (HS : Stepped C (log t) 0 (its t) (log t)).
    { split_and!; [exact Hc| | |lia|exists []; split_and!; [by rewrite app_nil_r|by apply Forall_nil|done]].
      - destruct HI; split; done || lia.
      - intros a' Ha. split; [|rewrite Hs; intros Hin; by apply (Hb a')].
        destruct (decide (a' ∈ permanent)) as [|Hn]; [done|]. by apply (inv_stand _ _ _ _ _ _ HI) in Ha. }
    pose proof (trip_bind (single_step_trace 3000) (fun _ => setv (fun v => set_phase (cmd_idx v) DONE v);; mret Break)
      _ _ (fun r v l => r = Break /\ Ended v l) Allowed (trip_single_step C (log t))) as K.
    apply K; [|exact HS]. intros _. apply (trip_bind _ _ _ (fun _ => Ended)); [|intros _; by apply trip_ret].
    apply trip_setv. intros v l Hv. eapply stepped_ended; [|exact Hv]. done. }
  intros t [Hs HI]. apply (G1 (bdos_return_bp (its t)) (bp_set (its t))). split; [|exact HI]. split_and!; [|done|done].
  rewrite (inv_idx _ _ _ _ _ _ HI), (inv_single _ _ _ _ _ _ HI Hs). done.
Qed.

(** ** Turns *)

Lemma good_more r n n' v l : (n <= n')%nat -> Good r 0 n' v l -> Good r 0 n v l.
Proof. intros Hn []. split; done || lia. Qed.

Lemma good_resume n : trip (Good false 0 n) (resume : stM tracer unit) (fun _ => Good true 0 n) Allowed.
Proof. apply good_at. intros p. eapply trip_conseq; [apply at_resume|done| |done]. intros _ v l [Hs HI]. unfold Good. by rewrite Hs. Qed.

(** What a turn may end with. *)
Definition After (n : nat) (r : next) : vars -> list event -> Prop :=
  match r with Continue => Good true 0 n | Break => Ended | Handle => fun _ _ => False end.

Lemma resumed n : trip (Good false 0 n) (resume;; mret Continue : stM tracer next) (After n) Allowed.
Proof. eapply trip_bind; [apply good_resume|intros ?]. by apply trip_ret. Qed.

Lemma trip_start_dir n p : trip (At (fun v => phase v = BOOT /\ bdos_return_bp v = p) false 0 n p) start_dir (fun _ => Good false 0 n) Allowed.
Proof.
  unfold start_dir. eapply trip_bind.
  - apply (at_command BOOT DIR _ _ 0 0); [done|done|cbn; lia|cbn; lia|done|done|by intros v []].
  - intros ?. apply trip_setv. intros v l [[_ Hs] HI]. unfold Good. cbn [bdos_return_bp set_isr_count set_phase]. by rewrite Hs.
Qed.

Lemma trip_at_breakpoint n : trip (Good false 0 n) at_breakpoint (After n) Allowed.
Proof.
  apply good_at. intros p. unfold at_breakpoint. looked. case_match.
  { looked. eapply trip_conseq; [apply (resumed n)| |done|done]. intros v l2 [Hs HI]. unfold Good. by rewrite Hs. }
  looked. got. apply (trip_bind _ _ _ (fun _ => Good false 0 n)).
  { case_match; [|apply at_good; by intros v []]. apply andb_true_iff in H1 as [Hb _]. apply bool_decide_eq_true in Hb as ->.
    unfold on_first_call. looked. apply trip_start_dir. }
  intros _. eapply trip_bind; [apply trip_handle|]. intros ok. apply trip_eq. intros ->. cbn [negb].
  apply (trip_bind _ _ _ (fun b v l => single_step_after_read v = b /\ Good false 0 n v l)); [by apply trip_getv|]. intros b.
  case_match.
  - apply andb_true_iff in H1 as [-> _]. eapply trip_conseq; [apply (trip_step_to_the_end n)|done| |done]. by intros r v l' [-> HE].
  - eapply trip_conseq; [apply (resumed n)|by intros v l' []|done|done].
Qed.

Lemma trip_quiet_boot n p : trip (At (fun v => phase v = BOOT /\ bdos_return_bp v = p) true 0 n p) quiet_boot (After n) Allowed.
Proof.
  unfold quiet_boot. do 3 (eapply trip_bind; [apply at_say|intros ?]); cbv beta. eapply trip_bind; [apply at_break_in|intros ?]; cbv beta.
  eapply trip_bind; [apply at_stop|intros ?]; cbv beta. looked. looked. apply (trip_bind _ _ _ (fun _ => Good false 0 (S n))).
  - case_match; [looked; apply trip_start_dir|]. looked. eapply trip_conseq; [apply at_quiet, quiet_dump_screen|done| |done].
    intros _ v l [[_ Hs] HI]. unfold Good. by rewrite Hs.
  - intros _. eapply trip_conseq; [apply (resumed (S n))|done| |done]. intros r v l. destruct r; cbn [After]; try done; apply good_more; lia.
Qed.

Lemma trip_quiet_dir n p : trip (At (fun v => phase v = DIR /\ bdos_return_bp v = p) true 1 n p) quiet_dir (After n) Allowed.
Proof.
  unfold quiet_dir. eapply trip_bind; [apply at_say|intros ?]; cbv beta. eapply trip_bind; [apply at_break_in|intros ?]; cbv beta.
  eapply trip_bind; [apply at_stop|intros ?]; cbv beta.
  apply (trip_bind _ _ _ (fun i v l => i = 1%nat /\ At (fun v => phase v = DIR /\ bdos_return_bp v = p) false 1 (S n) p v l)).
  { apply trip_getv. intros v l [Hv HI]. split; [|done]. rewrite (inv_idx _ _ _ _ _ _ HI). by rewrite (proj1 Hv). }
  intros i. apply trip_eq. intros ->. change (COMMANDS !! 1%nat) with (Some (chars "TYPE DUMP.ASM" ++ [13])). cbv iota.
  eapply trip_bind; [apply (at_command DIR TYPE _ _ 1 0); [done|done|cbn; lia|cbn; lia|done|done|by intros v []]|intros ?]; cbv beta.
  apply (trip_bind _ _ _ (fun _ => Good false 0 (S n))).
  - apply trip_setv. intros v l [[_ Hs] HI]. unfold Good. cbn [bdos_return_bp set_isr_count set_phase]. by rewrite Hs.
  - intros _. eapply trip_conseq; [apply (resumed (S n))|done| |done]. intros r v l. destruct r; cbn [After]; try done; apply good_more; lia.
Qed.

Lemma trip_quiet_type n p : trip (At (fun v => phase v = TYPE /\ bdos_return_bp v = p) true 1 n p) quiet_type (After n) Allowed.
Proof.
  unfold quiet_type. do 2 (eapply trip_bind; [apply at_say|intros ?]); cbv beta. eapply trip_bind; [apply at_break_in|intros ?]; cbv beta.
  eapply trip_bind; [apply at_stop|intros ?]; cbv beta. looked. looked. looked. looked. apply (trip_bind _ _ _ (fun _ => Ended)).
  - apply trip_setv. intros v l [[Hp _] HI]. destruct (inv_allowed _ _ _ _ _ _ HI). split_and!; [done|apply HI| |by split].
    rewrite (inv_typed _ _ _ _ _ _ HI), (inv_idx _ _ _ _ _ _ HI), Hp. done.
  - intros _. by apply trip_ret.
Qed.

(** The stop that is waited for, or the timeout. *)
Lemma trip_wait n : trip (Good true 0 n) (catch (fun e => bool_decide (e = TimeoutError)) (stop;; mret false) (fun _ => mret true) : stM tracer bool)
  (fun b v l => if b then Inv true (extra_of (phase v)) (S n) (bdos_return_bp v) v l else Good false 0 (S n) v l) Allowed.
Proof.
  intros t HI. unfold catch, mbind, stM_bind, stop. destruct (c_recv_stop (target t)) as [[x|e] g]; cbn [its log mret stM_ret].
  { by apply inv_stop. }
  pose proof (inv_allowed _ _ _ _ _ _ HI) as HA. destruct e; cbn [its log]; try exact HA.
  by apply inv_idle.
Qed.

Lemma trip_on_timeout n : trip (fun v l => Inv true (extra_of (phase v)) n (bdos_return_bp v) v l) on_timeout (After n) Allowed.
Proof.
  intros t HI. unfold on_timeout. unfold mbind, stM_bind, getv, gets. pose proof (inv_phase _ _ _ _ _ _ HI) as Hd. destruct (phase (its t)) eqn:E; [..|done].
  - by apply (trip_quiet_boot n (bdos_return_bp (its t))).
  - by apply (trip_quiet_dir n (bdos_return_bp (its t))).
  - by apply (trip_quiet_type n (bdos_return_bp (its t))).
Qed.

Lemma trip_turn n : trip (Good true 0 n) turn (fun r v l => match r with Break => Ended v l | _ => Good true 0 (S n) v l end) Allowed.
Proof.
  unfold turn. eapply trip_bind; [apply trip_wait|intros timed_out]; cbv beta.
  apply (trip_bind _ _ _ (fun r => match r with Handle => Good false 0 (S n) | _ => After (S n) r end)).
  - destruct timed_out; [|by apply trip_ret]. eapply trip_conseq; [apply (trip_on_timeout (S n))|done| |done]. by intros [].
  - intros [| |]; cbn [After]; [by apply trip_ret..|]. eapply trip_conseq; [apply (trip_at_breakpoint (S n))|done| |done].
    by intros [].
Qed.

(** At a bound of the turns, as many stops and timeouts were seen. *)
Definition Going (fuel : nat) (v : vars) (l : list event) : Prop := (fuel <= beats l)%nat /\ (late l <= 2)%nat /\ Allowed v l.

Lemma trip_turns fuel : forall n, trip (Good true 0 n) (turns_from fuel) (fun b v l => if b then Ended v l else Going (fuel + n) v l) Allowed.
Proof.
  assert (Gd : forall n v l, Good true 0 n v l -> phase v = DONE -> False) by (intros n v l HI; apply (inv_phase _ _ _ _ _ _ HI)).
  induction fuel as [|fuel IH]; intros n; cbn [turns_from].
  - intros t HI. unfold mbind, stM_bind, getv, gets. case_bool_decide as Hd; [by destruct (Gd _ _ _ HI)|]. cbn.
    pose proof (inv_allowed _ _ _ _ _ _ HI). destruct HI. split_and!; try done; lia.
  - intros t HI. unfold mbind at 1, stM_bind at 1, getv, gets. case_bool_decide as Hd; [by destruct (Gd _ _ _ HI)|].
    revert t HI Hd. intros t HI Hd. pose proof (trip_turn n t HI) as K. unfold mbind, stM_bind. destruct (turn t) as [[r|e] t']; [|exact K].
    replace (S fuel + n)%nat with (fuel + S n)%nat by lia. destruct r; [apply IH; exact K|exact K|apply IH; exact K].
Qed.

(** A tracer that begins, on any target. *)
Definition begin (g : G) : tracer := Watch g new_vars [] [].

Lemma trip_run fuel : trip (fun v l => v = new_vars /\ l = []) (run fuel) (fun b v l => if b then Ended v l else Going fuel v l) Allowed.
Proof.
  unfold run. apply (trip_bind _ _ _ (fun _ => Good false 0 0)).
  - unfold setup_breakpoints. apply (trip_bind _ _ _ (fun _ => At (synced None) false 0 0 None)).
    + eapply trip_conseq; [apply (trip_set_all permanent (synced None) 0); [done|done]| |done|done].
      intros v l [-> ->]. split; [done|]. split; try done; try (cbn; lia).
      * by intros a Ha%elem_of_nil.
      * by intros Hs%elem_of_nil.
    + intros _. looked. eapply trip_conseq; [apply at_say|done| |done]. intros _ v l [Hs HI]. unfold Good. by rewrite Hs.
  - intros _. apply (trip_bind _ _ _ (fun _ => Good false 0 0)); [apply good_at; intros p; eapply trip_conseq; [apply at_quiet, quiet_banner|done| |done]|].
    { intros _ v l [Hs HI]. unfold Good. by rewrite Hs. }
    intros _. eapply trip_bind; [apply good_resume|intros ?]; cbv beta. eapply trip_bind; [apply trip_turns|intros b]; cbv beta.
    destruct b; cbn [negb]; [|apply trip_ret; intros v l; by rewrite Nat.add_0_r].
    intros t Ht. exact Ht.
Qed.
End Tracer.

(** The system boots and lists the directory; TYPE opens the file, reads twice and
    runs into a crash. *)
Definition demo_script : list (option (Z * Z)) :=
  [Some (0xEFC0, 0); Some (0xDA03, 0); None; Some (0xE000, 0); Some (BDOS_ENTRY, 15); Some (0x0480, 0); Some (0xDA27, 0); Some (0xDA27, 0);
   Some (0xDA24, 0x80); Some (0xDA25, 0x80); Some (0x0100, 0)].

(** ** Properties *)

(** C34: the tracer and its target.  Whatever the stub does, and however the tracer is
    left, it has asked for nothing but a stop while the target ran and has resumed it
    only after a stop; the commands typed are those of its list, in order, none twice;
    beside the permanent breakpoints at most one stands, that of the BDOS call under
    way; single steps come after every breakpoint that was set is taken away, at most
    3000 of them, with nothing but looks between and behind.  When the loop ends, the
    phase is DONE, both commands were typed and the target is left stopped.  The loop
    makes a turn for a stop or a timeout only, and at most two timeouts are seen after
    the first command, so it goes on only while the target stops or before that
    command. *)
Theorem tracer_keeps_its_target {G} `{Client G} (in_turn : list Z -> list Z) (fuel : nat) (g : G) : (forall l, in_turn l ≡ₚ l) ->
  let '(r, t) := run in_turn fuel (begin g) in
  let l := log t in
  is_Some (live l) /\ prefix (typed l) COMMANDS /\
  (exists pend : option Z, forall a, a ∉ permanent -> a ∈ standing l -> pend = Some a) /\
  (exists l0 m, l = l0 ++ m /\ (Step ∉ l0) /\ Forall (fun e => e = Step \/ e = Look) m /\ (count Step m <= Z.to_nat 3000)%nat /\
    (m <> [] -> forall a, a ∈ standing l0 -> a ∈ permanent /\ a ∉ bp_set (its t))) /\
  match r with
  | Ret true => phase (its t) = DONE /\ live l = Some false /\ typed l = COMMANDS
  | Ret false => (fuel <= count Stop l + early l + 2)%nat
  | Raise _ => True
  end.
Proof.
  intros Hin. pose proof (trip_run in_turn Hin fuel (begin g) (conj eq_refl eq_refl)) as K.
  destruct (run in_turn fuel (begin g)) as [[b|e] t]; [destruct b|].
  - destruct K as (K1 & K2 & K3 & []). by split_and!.
  - destruct K as (K1 & K2 & []). split_and!; try done. unfold beats, early in *. lia.
  - destruct K. by split_and!.
Qed.

(** The script's log: what is asked between the breakpoints set at the beginning and
    taken away at the end. *)
Lemma tracer_keeps_its_target_witness :
  let '(r, t) := run (fun l => l) 20 (begin (Scripted demo_script (0, 0))) in
  r = Ret true /\ List.filter (fun e => negb (bool_decide (e = Look))) (log t) =
    map Place permanent ++ [Cont; Stop; Cont; Stop; Keys (chars "DIR *.ASM" ++ [13]); Cont; Idle; Interrupt; Stop; Keys (chars "TYPE DUMP.ASM" ++ [13]);
      Cont; Stop; Place 0x0480; Cont; Stop; Remove 0x0480; Cont; Stop; Cont; Stop; Cont; Stop] ++ map Remove permanent ++ [Step; Step] /\
  phase (its t) = DONE /\ call_num (its t) = 4 /\ isr_count (its t) = 0.
Proof.
  pose proof (tracer_keeps_its_target (fun l => l) 20 (Scripted demo_script (0, 0)) (fun l => reflexivity l)) as K.
  destruct (run (fun l => l) 20 (begin (Scripted demo_script (0, 0)))) as [r t] eqn:E.
  assert (Er : r = Ret true) by (change r with (fst (r, t)); rewrite <- E; vm_compute; reflexivity). rewrite Er in *.
  destruct K as (_ & _ & _ & _ & Hp & _). split_and!; [done| |exact Hp| |]; change t with (snd (Ret true : outcome bool, t)); rewrite <- E; vm_compute; reflexivity.
Defined.
