(* ===== verification/Bgstar.v ===== *)
(** * The background tracer: rcbios-in-c/gdb_bgstar.py, main.

    The script waits for the prompt, types BGTEST and follows the calls of bg_set_bit
    and specc.  The client is the interface of Watch.v; the addresses come from the
    map file ([read_addresses], with Gdb.v's read_map_addr).  [main] is what the script
    does between connecting and closing; all its loops are bounded, so it needs no
    fuel.  The waits by [time.sleep], the arguments, and the reports of exceptions are
    left out. *)

From S2P Require Import Prelude Imd Hex Text Gdb Watch.
#[local] Open Scope Z_scope.

Record addresses : Type := Addresses { BG_SET_BIT : Z; BGFLG : Z; SPECC : Z; DISPL : Z; CONOUT_BODY : Z; MAP_KBBUF : Z; MAP_KBHEAD : Z }.

Definition read_addresses (map_file : str) : outcome addresses :=
  a ← read_map_addr (chars "_bg_set_bit") map_file;
  b ← read_map_addr (chars "_bgflg") map_file;
  c ← read_map_addr (chars "_specc") map_file;
  d ← read_map_addr (chars "_displ") map_file;
  e ← read_map_addr (chars "_conout_body") map_file;
  f ← read_map_addr (chars "_kbbuf") map_file;
  g ← read_map_addr (chars "_kbhead") map_file;
  Ret (Addresses a b c d e f g).

Definition BGSTAR : Z := 0xF500.
Definition USESSION : Z := 0xFFDA.
Definition LOCAD : Z := 0xFFD8.
Definition CURX : Z := 0xFFD1.
Definition CURY : Z := 0xFFD2.

Record counts : Type := Counts { hit_count : Z; specc_count : Z; bg_set_bit_count : Z }.

(** Where the bit of a screen position is: byte, number, mask. *)
Definition bit_place (hl : Z) : Z * Z * Z := (Z.shiftr hl 3, Z.land hl 7, Z.shiftr 128 (Z.land hl 7)).

Definition session_names : list (Z * string) := [(0x13, "SET_BG"); (0x14, "SET_FG"); (0x15, "CLR_FG"); (0x0C, "CLR_SCR")]%string.

Definition command : str := chars "BGTEST" ++ [13].

(** The RET of bg_set_bit. *)
Definition ret_of (map_addrs : addresses) : Z := BG_SET_BIT map_addrs + (0x0720 - 0x06E1).

Section Bgstar.
Context {G : Type} `{Client G} (addrs : addresses).
Abbreviation tracer := (watch G counts).

Definition dump_bgstar (label : string) : stM tracer unit :=
  data ← mem BGSTAR 32;
  say (chars label ++ chars " BGSTAR[0-31]: " ++ join [32] (map h2 data)).

(** The loop that waits for the prompt: was it found? *)
Fixpoint wait_prompt (n : nat) : stM tracer bool :=
  match n with
  | O => mret false
  | S n' =>
      resume;;
      break_in;;
      stop;;
      ready ← ask Look c_at_prompt;
      if ready : bool then say (chars "A> prompt found!");; mret true else wait_prompt n'
  end.

(** What becomes of an iteration: does the loop break? *)
Definition on_quiet : stM tracer bool :=
  say (chars "Timeout waiting for breakpoint, checking state...");;
  break_in;;
  stop;;
  bgflg ← byte_at (BGFLG addrs);
  say (chars "  bgflg=" ++ decimal bgflg);;
  dump_bgstar "  Current";;
  n ← getv bg_set_bit_count;
  if (bgflg =? 0) && (0 <? n) then
    say (chars "  bgflg back to 0, test likely complete");; mret true
  else resume;; mret false.

Definition get (regs : list (str * Z)) (name : string) : Z :=
  match List.find (fun p => bool_decide (fst p = chars name)) regs with Some p => snd p | None => 0 end.

Definition on_specc : stM tracer unit :=
  setv (fun v => Counts (hit_count v) (specc_count v + 1) (bg_set_bit_count v));;
  usession ← byte_at USESSION;
  bgflg ← byte_at (BGFLG addrs);
  n ← getv specc_count;
  (match List.find (fun p => fst p =? usession) session_names with
   | Some p => say (chars "  SPECC #" ++ decimal n ++ chars ": usession=0x" ++ h2 usession ++ chars " (" ++ chars (snd p) ++ chars ") bgflg=" ++ decimal bgflg)
   | None => mret tt
   end);;
  resume.

Definition look_result (n byteoff : Z) : stM tracer unit :=
  new_val ← byte_at (BGSTAR + byteoff);
  regs2 ← regs_now;
  if n <=? 20 then
    say (chars "    After: bgstar[" ++ decimal byteoff ++ chars "]=0x" ++ h2 new_val ++ chars " A=0x" ++ h2 (Z.shiftr (get regs2 "AF") 8) ++
         chars " BC=0x" ++ h4 (get regs2 "BC"))
  else mret tt.

(** [try: recv_stop and the look at the result, except socket.timeout]. *)
Definition see_result (n byteoff : Z) : stM tracer unit :=
  catch (fun e => bool_decide (e = TimeoutError)) (stop;; look_result n byteoff)
    (fun _ => say (chars "    Timeout waiting for bg_set_bit ret!")).

Definition on_bg_set_bit (regs : list (str * Z)) : stM tracer unit :=
  setv (fun v => Counts (hit_count v) (specc_count v) (bg_set_bit_count v + 1));;
  let hl := get regs "HL" in
  bgflg ← byte_at (BGFLG addrs);
  word_at LOCAD;;
  byte_at CURX;;
  word_at CURY;;
  let '(byteoff, bitno, mask) := bit_place hl in
  old_val ← byte_at (BGSTAR + byteoff);
  n ← getv bg_set_bit_count;
  (if n <=? 20 then
     say (chars "  BG_SET_BIT #" ++ decimal n ++ chars ": HL(pos)=" ++ decimal hl ++ chars " byte=" ++ decimal byteoff ++ chars " bit=" ++ decimal bitno ++
          chars " mask=0x" ++ h2 mask ++ chars " bgstar[" ++ decimal byteoff ++ chars "]=0x" ++ h2 old_val ++ chars " bgflg=" ++ decimal bgflg)
   else mret tt);;
  remove_bp (BG_SET_BIT addrs);;
  remove_bp (SPECC addrs);;
  set_bp (ret_of addrs);;
  resume;;
  see_result n byteoff;;
  remove_bp (ret_of addrs);;
  set_bp (BG_SET_BIT addrs);;
  set_bp (SPECC addrs);;
  resume.

Definition on_hit : stM tracer bool :=
  regs ← regs_now;
  let pc := get regs "PC" in
  setv (fun v => Counts (hit_count v + 1) (specc_count v) (bg_set_bit_count v));;
  (if pc =? SPECC addrs then on_specc
   else if pc =? BG_SET_BIT addrs then on_bg_set_bit regs
   else say (chars "  Unknown BP at PC=0x" ++ h4 pc);; resume);;
  n ← getv bg_set_bit_count;
  if 50 <=? n then say (chars "  (reached 50 bg_set_bit calls, stopping)");; mret true else mret false.

Fixpoint follow_calls (n : nat) : stM tracer unit :=
  match n with
  | O => mret tt
  | S n' =>
      timed_out ← catch (fun e => bool_decide (e = TimeoutError)) (stop;; mret false) (fun _ => mret true);
      broke ← (if timed_out : bool then on_quiet else on_hit);
      if broke : bool then mret tt else follow_calls n'
  end.

Definition final_state : stM tracer unit :=
  break_in;;
  stop;;
  bgflg ← byte_at (BGFLG addrs);
  say (10 :: chars "Final: bgflg=" ++ decimal bgflg);;
  dump_bgstar "Final";;
  data ← mem (0xF800 + 2 * 80 + 35) 7;
  say (chars "Screen row2 col35: " ++ join [32] (map (fun b => h2 b ++ chars "(" ++ [if (32 <=? b) && (b <? 127) then b else 63] ++ chars ")") data));;
  v ← getv id;
  say (10 :: chars "Totals: " ++ decimal (hit_count v) ++ chars " breakpoint hits, " ++ decimal (specc_count v) ++ chars " specc, " ++
       decimal (bg_set_bit_count v) ++ chars " bg_set_bit").

Definition trace_calls : stM tracer unit :=
  say (chars "Injecting BGTEST command...");;
  ask (Keys command) (c_inject_string (MAP_KBBUF addrs) (MAP_KBHEAD addrs) command);;
  say (chars "Setting breakpoint on bg_set_bit at 0x" ++ h4 (BG_SET_BIT addrs));;
  set_bp (BG_SET_BIT addrs);;
  say (chars "Setting breakpoint on specc at 0x" ++ h4 (SPECC addrs));;
  set_bp (SPECC addrs);;
  resume;;
  follow_calls (Z.to_nat 2000);;
  final_state.

Definition main : stM tracer unit :=
  say (chars "Waiting for A> prompt...");;
  found ← wait_prompt 60;
  if found : bool then trace_calls else say (chars "TIMEOUT waiting for boot").

(** ** The log *)

(** The two faults: after a timeout at the RET the breakpoints are changed while the
    target runs, and after the quiet end it is interrupted although it is stopped. *)
Definition Fault (l : list event) : Prop := exists l1 l2, l = l1 ++ l2 /\
  (((exists l0, l1 = l0 ++ [Place (ret_of addrs); Cont; Idle]) /\ live l1 = Some true /\ exists rest, l2 = Remove (ret_of addrs) :: rest) \/
   (live l1 = Some false /\ exists rest, l2 = Interrupt :: rest)).

Lemma fault_app l m : Fault l -> Fault (l ++ m).
Proof.
  intros (l1 & l2 & -> & [(H1 & H2 & rest & ->)|(H1 & rest & ->)]); exists l1; eexists; (split; [by rewrite <- app_assoc|]).
  - left. split_and!; [done|done|]. by eexists.
  - right. split; [done|]. by eexists.
Qed.

Definition tracked : gset Z := {[BG_SET_BIT addrs; SPECC addrs]}.

(** Calls counted, at most [b] of bg_set_bit and [k] in all. *)
Definition counted (k b : Z) (v : counts) : Prop :=
  0 <= specc_count v /\ 0 <= bg_set_bit_count v <= b /\ specc_count v + bg_set_bit_count v <= hit_count v <= k.

(** While the calls are followed: does the target run, unless there was a fault; and
    which breakpoints stand. *)
Definition St (r : bool) (S : gset Z) (k b : Z) (v : counts) (l : list event) : Prop :=
  (live l = Some r \/ Fault l) /\ typed l = [command] /\ standing l = S /\ counted k b v.

Definition Allowed (v : counts) (l : list event) : Prop :=
  (is_Some (live l) \/ Fault l) /\ prefix (typed l) [command] /\ counted 2000 50 v.

Lemma counted_le k k' b b' v : k <= k' -> b <= b' -> counted k b v -> counted k' b' v.
Proof. unfold counted. lia. Qed.

Lemma st_allowed r S k b v l : k <= 2000 -> b <= 50 -> St r S k b v l -> Allowed v l.
Proof.
  intros Hk Hb (Hl & Ht & _ & Hc). split_and!; [|by rewrite Ht|by eapply counted_le].
  destruct Hl as [->|Hf]; [left; by eexists|by right].
Qed.

Definition no_keys (e : event) : bool := match e with Keys _ => false | _ => true end.

Lemma st_event e r r' S k b v l : no_keys e = true -> follow (Some r) e = Some r' -> St r S k b v l -> St r' (stand S e) k b v (l ++ [e]).
Proof.
  intros He Hf (Hl & Ht & <- & Hc). split_and!; [| |apply standing_snoc|done].
  - destruct Hl as [Hl|Hl]; [left|right; by apply fault_app]. by rewrite live_snoc, Hl.
  - rewrite typed_snoc, Ht. by destruct e.
Qed.

Section Bounds.
Context (k b : Z) (Hk : k <= 2000) (Hb : b <= 50).

Lemma st_ask {A} e r r' S (m : stM G A) : no_keys e = true -> follow (Some r) e = Some r' ->
  trip (St r S k b) (ask e m) (fun _ => St r' (stand S e) k b) Allowed.
Proof.
  intros He Hf. apply trip_ask; [intros v l _ HS; by eapply st_event|]. intros v l HS. eapply st_allowed; [done|done|by eapply st_event].
Qed.

Lemma st_quiet {A} (m : stM tracer A) S : quiet m -> trip (St false S k b) m (fun _ => St false S k b) Allowed.
Proof.
  intros Hm. apply trip_quiet; [done| |intros v l; by apply st_allowed]. intros v l HS. by apply (st_event Look false false S k b v l).
Qed.

Lemma st_say line r S E : trip (St r S k b) (say line : stM tracer unit) (fun _ => St r S k b) E.
Proof. intros t Ht. exact Ht. Qed.

(** An idle moment while the target runs. *)
Lemma st_stop S : trip (St true S k b) (stop : stM tracer str) (fun _ => St false S k b) Allowed.
Proof.
  intros t HS. unfold stop. destruct (c_recv_stop (target t)) as [[s|e] g]; cbn [its log].
  - by apply (st_event Stop true false S).
  - destruct e; cbn [its log]; try (by eapply st_allowed). apply (st_allowed true S k b); [done|done|]. by apply (st_event Idle true true S).
Qed.

Lemma st_wait S : trip (St true S k b) (catch (fun e => bool_decide (e = TimeoutError)) (stop;; mret false) (fun _ => mret true) : stM tracer bool)
  (fun c => St c S k b) Allowed.
Proof.
  intros t HS. unfold catch, mbind, stM_bind, stop. destruct (c_recv_stop (target t)) as [[x|e] g]; cbn [its log mret stM_ret].
  { by apply (st_event Stop true false S). }
  destruct e; cbn [its log]; try (by eapply st_allowed). by apply (st_event Idle true true S).
Qed.
End Bounds.

Lemma quiet_bgstar label : quiet (dump_bgstar label).
Proof. unfold dump_bgstar. quieter. Qed.
#[local] Hint Resolve quiet_bgstar : quiet.

Ltac asked := eapply trip_bind; [eapply st_ask; [lia|lia|reflexivity|reflexivity]|intros ?]; cbv beta.
Ltac seen := eapply trip_bind; [eapply st_quiet; [lia|lia|solve [quieter]]|intros ?]; cbv beta.
Ltac stopped := eapply trip_bind; [eapply st_stop; lia|intros ?]; cbv beta.

(** The quiet end leaves the target stopped, otherwise it runs on. *)
Lemma trip_on_quiet k b : k <= 2000 -> b <= 49 -> trip (St true tracked k b) on_quiet (fun c => St (negb c) tracked k b) Allowed.
Proof.
  intros Hk Hb. unfold on_quiet. eapply trip_bind; [apply st_say|intros ?]; cbv beta. unfold break_in at 1. asked. stopped. seen. seen. seen. seen.
  case_match; [seen; by apply trip_ret|]. unfold resume at 1. asked. by apply trip_ret.
Qed.

Lemma trip_on_specc k b : k < 2000 -> b <= 49 ->
  trip (fun v l => St false tracked (k + 1) b v l /\ specc_count v + bg_set_bit_count v < hit_count v) on_specc (fun _ => St true tracked (k + 1) b) Allowed.
Proof.
  intros Hk Hb. unfold on_specc. apply (trip_bind _ _ _ (fun _ => St false tracked (k + 1) b)).
  { apply trip_setv. intros v l [(H1 & H2 & H3 & H4) Hlt]. split_and!; try done; unfold counted in *; cbn; lia. }
  intros _. seen. seen. seen. seen. exact (st_ask (k + 1) b ltac:(lia) ltac:(lia) Cont false true tracked c_cont eq_refl eq_refl).
Qed.

(** After [see_result] the target is stopped, or a timeout was seen at once. *)
Definition Seen (S : gset Z) (k b : Z) (v : counts) (l : list event) : Prop :=
  St false S k b v l \/ ((exists l0, l = l0 ++ [Place (ret_of addrs); Cont; Idle]) /\ St true S k b v l).

Lemma trip_see_result n byteoff S k b : k <= 2000 -> b <= 50 ->
  trip (fun v l => St true S k b v l /\ exists l0, l = l0 ++ [Place (ret_of addrs); Cont]) (see_result n byteoff) (fun _ => Seen S k b) Allowed.
Proof.
  intros Hk Hb t [HS [l0 El]].
  assert (HQ : trip (St false S k b) (look_result n byteoff) (fun _ => St false S k b) (St false S k b)).
  { apply trip_quiet; [unfold look_result; quieter| |done]. intros v l. by apply (st_event Look false false S k b v l). }
  unfold see_result, catch, mbind, stM_bind, stop. destruct (c_recv_stop (target t)) as [[s|e] g].
  - pose proof (HQ (Watch g (its t) (out t) (log t ++ [Stop])) (st_event Stop true false S k b _ _ eq_refl eq_refl HS)) as K.
    destruct (look_result n byteoff _) as [[u|e] t']; [by left|]. destruct (bool_decide _); [by left|]. by eapply st_allowed.
  - destruct e; cbn [its log]; try (by eapply st_allowed). right. split; [|by apply (st_event Idle true true S)].
    exists l0. cbn [log]. by rewrite El, <- app_assoc.
Qed.

Lemma seen_remove S k b v l : Seen S k b v l -> St false (stand S (Remove (ret_of addrs))) k b v (l ++ [Remove (ret_of addrs)]).
Proof.
  intros [HS|[[l0 El] HS]]; [by apply (st_event (Remove _) false false S)|]. destruct HS as (Hl & Ht & <- & Hc).
  split_and!; [right|by rewrite typed_snoc, Ht|apply standing_snoc|done]. destruct Hl as [Hl|Hl]; [|by apply fault_app].
  exists l, [Remove (ret_of addrs)]. split; [done|]. left. split_and!; [by exists l0|done|by exists []].
Qed.

Lemma trip_window n byteoff S k b : k <= 2000 -> b <= 50 ->
  trip (St false S k b) (set_bp (ret_of addrs);; resume;; see_result n byteoff;; remove_bp (ret_of addrs))
    (fun _ => St false (({[ret_of addrs]} ∪ S) ∖ {[ret_of addrs]}) k b) Allowed.
Proof.
  intros Hk Hb. set (S' := {[ret_of addrs]} ∪ S : gset Z).
  apply (trip_bind _ _ _ (fun _ v l => St false S' k b v l /\ exists l0, l = l0 ++ [Place (ret_of addrs)])).
  { apply trip_ask; [intros v l _ HS; split; [by apply (st_event (Place _) false false S)|by exists l]|].
    intros v l HS. apply (st_allowed false S' k b); [done|done|]. by apply (st_event (Place _) false false S). }
  intros _. apply (trip_bind _ _ _ (fun _ v l => St true S' k b v l /\ exists l0, l = l0 ++ [Place (ret_of addrs); Cont])).
  { apply trip_ask.
    - intros v l _ [HS [l0 ->]]. split; [by apply (st_event Cont false true S')|]. exists l0. by rewrite <- app_assoc.
    - intros v l [HS _]. apply (st_allowed true S' k b); [done|done|]. by apply (st_event Cont false true S'). }
  intros _. apply (trip_bind _ _ _ (fun _ => Seen S' k b)); [by apply trip_see_result|]. intros _.
  apply trip_ask; intros v l; [intros _|]; intros HS%seen_remove; [done|]. eapply st_allowed; [done|done|exact HS].
Qed.

Lemma tracked_again (S : gset Z) : S = tracked ->
  {[SPECC addrs]} ∪ ({[BG_SET_BIT addrs]} ∪ (({[ret_of addrs]} ∪ ((S ∖ {[BG_SET_BIT addrs]}) ∖ {[SPECC addrs]})) ∖ {[ret_of addrs]})) = tracked.
Proof. intros ->. unfold tracked. apply leibniz_equiv. intros x. set_unfold. destruct (decide (x = BG_SET_BIT addrs)), (decide (x = SPECC addrs)); naive_solver. Qed.

Lemma trip_on_bg_set_bit regs k : k < 2000 ->
  trip (fun v l => St false tracked (k + 1) 49 v l /\ specc_count v + bg_set_bit_count v < hit_count v) (on_bg_set_bit regs) (fun _ => St true tracked (k + 1) 50) Allowed.
Proof.
  intros Hk. unfold on_bg_set_bit. apply (trip_bind _ _ _ (fun _ => St false tracked (k + 1) 50)).
  { apply trip_setv. intros v l [(H1 & H2 & H3 & H4) Hlt]. split_and!; try done; unfold counted in *; cbn; lia. }
  intros _. seen. seen. seen. seen. unfold bit_place. seen. seen. seen.
  unfold remove_bp at 1. asked. unfold remove_bp at 1. asked. cbn [stand].
  set (S0 := (tracked ∖ {[BG_SET_BIT addrs]}) ∖ {[SPECC addrs]} : gset Z).
  assert (K : forall v l, St true (stand (stand (({[ret_of addrs]} ∪ S0) ∖ {[ret_of addrs]}) (Place (BG_SET_BIT addrs))) (Place (SPECC addrs))) (k + 1) 50 v l ->
    St true tracked (k + 1) 50 v l).
  { intros v l. cbn [stand]. unfold S0. by rewrite (tracked_again tracked eq_refl). }
  eapply trip_conseq with (Q' := fun _ => St true _ (k + 1) 50) (E' := Allowed) (P' := St false S0 (k + 1) 50); [|done|intros _; exact K|done].
  apply (trip_assoc4 _ _ _ _ _ _ _ _ _ (trip_window _ _ S0 (k + 1) 50 ltac:(lia) ltac:(lia))).
  intros ?. asked. asked.
  exact (st_ask (k + 1) 50 ltac:(lia) ltac:(lia) Cont false true _ c_cont eq_refl eq_refl).
Qed.

Lemma trip_on_hit k : k < 2000 -> trip (St false tracked k 49) on_hit (fun c => St true tracked (k + 1) (if c then 50 else 49)) Allowed.
Proof.
  intros Hk. unfold on_hit. seen. apply (trip_bind _ _ _ (fun _ v l => St false tracked (k + 1) 49 v l /\ specc_count v + bg_set_bit_count v < hit_count v)).
  { apply trip_setv. intros v l (H1 & H2 & H3 & H4). split; [split_and!; try done|]; unfold counted in *; cbn; lia. }
  intros _. apply (trip_bind _ _ _ (fun _ => St true tracked (k + 1) 50)).
  - case_match; [eapply trip_conseq; [apply (trip_on_specc k 49); lia|done| |done]|case_match; [by apply trip_on_bg_set_bit|]].
    + intros _ v l (H1 & H2 & H3 & H4). split_and!; try done. eapply counted_le; [..|exact H4]; lia.
    + apply (trip_bind _ _ _ (fun _ => St false tracked (k + 1) 50)); [|intros _; exact (st_ask (k + 1) 50 ltac:(lia) ltac:(lia) Cont false true _ c_cont eq_refl eq_refl)].
      intros t [(S1 & S2 & S3 & S4) _]. split_and!; try done. eapply counted_le; [..|exact S4]; lia.
  - intros _. apply (trip_bind _ _ _ (fun n v l => n = bg_set_bit_count v /\ St true tracked (k + 1) 50 v l)); [by apply trip_getv|]. intros n.
    case_match eqn:E0.
    + apply (trip_bind _ _ _ (fun _ => St true tracked (k + 1) 50)); [intros t [_ HS]; exact HS|]. intros _. by apply trip_ret.
    + apply trip_ret. intros v l (-> & H1 & H2 & H3 & H4). split_and!; try done. apply Z.leb_gt in E0. unfold counted in *. lia.
Qed.

Definition Over (v : counts) (l : list event) : Prop := exists r, St r tracked 2000 50 v l.

Lemma trip_follow_calls n : forall k, k + Z.of_nat n <= 2000 -> trip (St true tracked k 49) (follow_calls n) (fun _ => Over) Allowed.
Proof.
  assert (HO : forall r k v l, k <= 2000 -> St r tracked k 49 v l -> Over v l).
  { intros r k v l Hk (H1 & H2 & H3 & H4). exists r. split_and!; try done. eapply counted_le; [..|exact H4]; lia. }
  induction n as [|n IH]; intros k Hk; cbn [follow_calls].
  { apply trip_ret. intros v l. apply HO. lia. }
  eapply trip_bind; [apply st_wait; lia|intros timed_out]; cbv beta.
  apply (trip_bind _ _ _ (fun (c : bool) v l => if c then Over v l else St true tracked (k + 1) 49 v l)).
  - destruct timed_out.
    + eapply trip_conseq; [apply (trip_on_quiet k 49); lia|done| |done]. intros [] v l HS; [by eapply HO; [|exact HS]; lia|].
      destruct HS as (H1 & H2 & H3 & H4). split_and!; try done. eapply counted_le; [..|exact H4]; lia.
    + eapply trip_conseq; [apply (trip_on_hit k); lia|done| |done]. intros [] v l HS; [|exact HS].
      exists true. destruct HS as (H1 & H2 & H3 & H4). split_and!; try done. eapply counted_le; [..|exact H4]; lia.
  - intros []; [by apply trip_ret|]. apply IH. lia.
Qed.

Lemma trip_final : trip Over final_state (fun _ => St false tracked 2000 50) Allowed.
Proof.
  unfold final_state. apply (trip_bind _ _ _ (fun _ => St true tracked 2000 50)).
  - assert (K : forall v l, Over v l -> St true tracked 2000 50 v (l ++ [Interrupt])).
    { intros v l [[] HS]; [by apply (st_event Interrupt true true)|]. destruct HS as (Hl & Ht & <- & Hc). split_and!; [right|by rewrite typed_snoc, Ht|apply standing_snoc|done].
      destruct Hl as [Hl|Hl]; [|by apply fault_app]. exists l, [Interrupt]. split; [done|]. right. split; [done|by exists []]. }
    apply trip_ask; [intros v l _; apply K|intros v l HO; by eapply st_allowed, K].
  - intros _. stopped. seen. seen. seen. seen. seen. eapply trip_bind; [apply st_quiet; [lia|lia|quieter]|intros ?]; cbv beta.
    apply st_quiet; [lia|lia|quieter].
Qed.

(** Before the command: nothing is typed or set. *)
Definition Waiting (r : bool) (v : counts) (l : list event) : Prop := live l = Some r /\ typed l = [] /\ standing l = ∅ /\ counted 0 0 v.

Lemma waiting_allowed r v l : Waiting r v l -> Allowed v l.
Proof.
  intros (Hl & Ht & _ & Hc). split_and!; [left; by eexists|rewrite Ht; apply prefix_nil|eapply counted_le; [..|exact Hc]; lia].
Qed.

Lemma waiting_event e r r' v l : match e with Keys _ | Place _ | Remove _ => false | _ => true end = true -> follow (Some r) e = Some r' ->
  Waiting r v l -> Waiting r' v (l ++ [e]).
Proof.
  intros He Hf (Hl & Ht & Hs & Hc). split_and!; [by rewrite live_snoc, Hl| | |done].
  - rewrite typed_snoc, Ht. by destruct e.
  - rewrite standing_snoc, Hs. by destruct e.
Qed.

Lemma waiting_ask {A} e r r' (m : stM G A) : match e with Keys _ | Place _ | Remove _ => false | _ => true end = true -> follow (Some r) e = Some r' ->
  trip (Waiting r) (ask e m) (fun _ => Waiting r') Allowed.
Proof. intros He Hf. apply trip_ask; intros v l; [intros _|]; intros HW; [by eapply waiting_event|]. by eapply waiting_allowed, waiting_event. Qed.

Lemma trip_wait_prompt n : trip (Waiting false) (wait_prompt n) (fun _ => Waiting false) Allowed.
Proof.
  induction n as [|n IH]; cbn [wait_prompt]; [by apply trip_ret|].
  eapply trip_bind; [by apply (waiting_ask Cont false true)|intros ?]; cbv beta.
  eapply trip_bind; [by apply (waiting_ask Interrupt true true)|intros ?]; cbv beta.
  apply (trip_bind _ _ _ (fun _ => Waiting false)).
  - intros t HW. unfold stop. destruct (c_recv_stop (target t)) as [[x|e] g]; cbn [its log]; [by apply (waiting_event Stop true false)|].
    destruct e; cbn [its log]; try (by eapply waiting_allowed). eapply waiting_allowed. by apply (waiting_event Idle true true).
  - intros _. eapply trip_bind; [by apply (waiting_ask Look false false)|intros ready]; cbv beta. destruct ready; [|apply IH].
    eapply trip_bind; [|intros ?; apply trip_ret; intros v l HW; exact HW]. by intros t HW.
Qed.

Definition begin (g : G) : tracer := Watch g (Counts 0 0 0) [] [].

Lemma trip_main : trip (fun v l => v = Counts 0 0 0 /\ l = []) main
  (fun _ v l => Waiting false v l \/ St false tracked 2000 50 v l) Allowed.
Proof.
  unfold main. apply (trip_bind _ _ _ (fun _ => Waiting false)); [intros t [Hv Hl]; cbn; rewrite Hv, Hl; done|].
  intros _. eapply trip_bind; [apply trip_wait_prompt|intros found]; cbv beta. destruct found; [|intros t HW; by left].
  unfold trace_calls. apply (trip_bind _ _ _ (fun _ => Waiting false)); [by intros t HW|]. intros _.
  apply (trip_bind _ _ _ (fun _ => St false ∅ 0 0)).
  { assert (K : forall v l, Waiting false v l -> St false ∅ 0 0 v (l ++ [Keys command])).
    { intros v l (Hl & Ht & Hs & Hc). split_and!; [left; by rewrite live_snoc, Hl|by rewrite typed_snoc, Ht|by rewrite standing_snoc|done]. }
    apply trip_ask; intros v l; [intros _|]; intros HW; [by apply K|]. by eapply st_allowed, K. }
  intros _. eapply trip_bind; [apply st_say|intros ?]; cbv beta. asked. eapply trip_bind; [apply st_say|intros ?]; cbv beta. asked. asked.
  apply (trip_bind _ _ _ (fun _ => Over)).
  - eapply trip_conseq; [apply (trip_follow_calls (Z.to_nat 2000) 0); lia| |done|done]. intros v l (H1 & H2 & H3 & H4). split_and!; [done|done| |].
    + rewrite H3. cbn [stand]. unfold tracked. set_solver.
    + eapply counted_le; [..|exact H4]; lia.
  - intros _. eapply trip_conseq; [apply trip_final|done| |done]. intros ? v l HS. by right.
Qed.

(** The quiet end: the target is stopped when the last interrupt is sent. *)
Definition Live (r : option bool) (v : counts) (l : list event) : Prop := live l = r.

Lemma live_event e r v l : Live r v l -> Live (follow r e) v (l ++ [e]).
Proof. unfold Live. intros <-. apply live_snoc. Qed.

Lemma live_ask {A} e r (m : stM G A) : trip (Live r) (ask e m) (fun _ => Live (follow r e)) (fun _ _ => True).
Proof. apply trip_ask; [|done]. intros v l _. apply live_event. Qed.

Lemma live_quiet {A} (m : stM tracer A) : quiet m -> trip (Live (Some false)) m (fun _ => Live (Some false)) (fun _ _ => True).
Proof. intros Hm. apply trip_quiet; [done| |done]. intros v l. apply (live_event Look (Some false)). Qed.

Lemma live_stop r : trip (Live r) (stop : stM tracer str) (fun _ => Live (follow r Stop)) (fun _ _ => True).
Proof. intros t HL. unfold stop. destruct (c_recv_stop (target t)) as [[s|e] g]; [by apply live_event|by destruct e]. Qed.

Lemma quiet_end_stopped : trip (Live (Some true)) on_quiet (fun c => Live (Some (negb c))) (fun _ _ => True).
Proof.
  unfold on_quiet. apply (trip_bind _ _ _ (fun _ => Live (Some true))); [by intros t Ht|intros ?]. eapply trip_bind; [apply live_ask|intros ?]; cbv beta.
  eapply trip_bind; [apply live_stop|intros ?]; cbv beta. cbn [follow mbind option_bind].
  do 4 (eapply trip_bind; [apply live_quiet; solve [quieter]|intros ?]; cbv beta). case_match.
  - eapply trip_bind; [apply live_quiet, quiet_say|intros ?]; cbv beta. by apply trip_ret.
  - eapply trip_bind; [apply live_ask|intros ?]; cbv beta. by apply trip_ret.
Qed.

(** Once the log breaks the rule it does so for good. *)
Lemma live_lost t : live (log t) = Some false -> live (log (snd (final_state t))) = None.
Proof.
  intros Ht. assert (K : trip (Live (Some false)) final_state (fun _ => Live None) (fun v l => live l = None)).
  { assert (KQ : forall A (m : stM tracer A), quiet m -> trip (Live None) m (fun _ => Live None) (fun v l => live l = None)).
    { intros A m Hm. apply trip_quiet; [done| |done]. intros v l. apply (live_event Look None). }
    unfold final_state. apply (trip_bind _ _ _ (fun _ => Live None)).
    { apply trip_ask; intros v l; [intros _|]; apply (live_event Interrupt (Some false)). }
    intros _. apply (trip_bind _ _ _ (fun _ => Live None)).
    { intros t' HL. unfold stop.
      destruct (c_recv_stop (target t')) as [[s|e] g]; [by apply (live_event Stop None)|]. destruct e; try exact HL. by apply (live_event Idle None (its t')). }
    intros _. apply KQ. quieter. }
  specialize (K t Ht). destruct (final_state t) as [[u|e] t']; exact K.
Qed.
End Bgstar.

(** ** Properties *)

Definition demo_addresses : addresses := Addresses 0xE300 0xE400 0xE2A4 0xE1F0 0xE200 0xDC23 0xDC33.

(** The system is at its prompt; bg_set_bit is called once, then the target is quiet. *)
Definition quiet_script : list (option (Z * Z)) :=
  [Some (0xE000, 0); Some (0xE300, 0); Some (0xE33F, 0); None; Some (0xE000, 0); None].

(** The same, but the RET of bg_set_bit is not reached in time. *)
Definition late_script : list (option (Z * Z)) := [Some (0xE000, 0); Some (0xE300, 0); None; Some (0xE000, 0); None].

(** C35: the tracer and its target.  Whatever the stub does and however the tracer is
    left, no request but an interrupt is made while the target runs and none is made to
    stop or resume it twice, unless one of two faults has happened: the breakpoints are
    changed after the RET of bg_set_bit was not reached in time, while the target runs;
    or the target is interrupted at the end although it is stopped.  The latter always
    happens when the test is found complete.  At most BGTEST is typed, at most 50 calls
    of bg_set_bit and 2000 stops are counted, and a run without an exception leaves
    either nothing typed and no breakpoint, or exactly the two that it set.  Bit [hl] of
    the screen is bit 7 - hl mod 8 of byte hl / 8. *)
Theorem bgtest_is_followed {G} `{Client G} (addrs : addresses) :
  (forall g, let '(r, t) := main addrs (begin g) in
    (is_Some (live (log t)) \/ Fault addrs (log t)) /\ prefix (typed (log t)) [command] /\ counted 2000 50 (its t) /\
    (r = Ret tt -> typed (log t) = [] /\ standing (log t) = ∅ \/ typed (log t) = [command] /\ standing (log t) = tracked addrs)) /\
  (forall t t' : watch G counts, live (log t) = Some true -> on_quiet addrs t = (Ret true, t') ->
    live (log t') = Some false /\ live (log (snd (final_state addrs t'))) = None) /\
  (forall hl, 0 <= hl -> bit_place hl = (hl / 8, hl mod 8, 2 ^ (7 - hl mod 8))).
Proof.
  split_and!.
  - intros g. pose proof (trip_main addrs (begin g) (conj eq_refl eq_refl)) as K. destruct (main addrs (begin g)) as [[[]|e] t].
    + destruct K as [K|K].
      * pose proof (waiting_allowed addrs _ _ _ K) as (A1 & A2 & A3). split_and!; try done. intros _. left. by destruct K as (_ & ? & ? & _).
      * assert (A : Allowed addrs (its t) (log t)) by (by eapply st_allowed). destruct A as (A1 & A2 & A3). split_and!; try done.
        intros _. right. by destruct K as (_ & ? & ? & _).
    + destruct K as (A1 & A2 & A3). by split_and!.
  - intros t t' Ht E. pose proof (quiet_end_stopped addrs t Ht) as K. rewrite E in K. split; [exact K|by apply live_lost].
  - intros hl Hh. unfold bit_place. pose proof (Z.mod_pos_bound hl 8 ltac:(lia)) as Hm.
    change 7 with (Z.ones 3) at 1 2. rewrite Z.land_ones by lia. change (2 ^ 3) with 8. rewrite !Z.shiftr_div_pow2 by lia. change (2 ^ 3) with 8. f_equal.
    assert (E : forallb (fun m => 128 / 2 ^ m =? 2 ^ (7 - m)) (seqZ 0 8) = true) by (vm_compute; reflexivity).
    apply Z.eqb_eq, (proj1 (forallb_forall _ _) E), list_elem_of_In, elem_of_seqZ. lia.
Qed.

(** Both faults. *)
Lemma bgtest_is_followed_witness :
  (let '(r, t) := main demo_addresses (begin (Scripted quiet_script (0, 0))) in
   r = Raise TimeoutError /\ live (log t) = None /\ Fault demo_addresses (log t)) /\
  (let '(r, t) := main demo_addresses (begin (Scripted late_script (0, 0))) in
   r = Raise ConnectionError /\ Fault demo_addresses (log t)) /\ bit_place 13 = (1, 5, 4).
Proof.
  destruct (bgtest_is_followed (G := scripted) demo_addresses) as (K1 & K2 & K3). split_and!.
  - specialize (K1 (Scripted quiet_script (0, 0))). destruct (main demo_addresses (begin (Scripted quiet_script (0, 0)))) as [r t] eqn:E.
    assert (El : live (log t) = None) by (change t with (snd (r, t)); rewrite <- E; vm_compute; reflexivity).
    split_and!; [change r with (fst (r, t)); rewrite <- E; vm_compute; reflexivity|exact El|].
    destruct K1 as [[[? H]|H] _]; [congruence|exact H].
  - specialize (K1 (Scripted late_script (0, 0))). destruct (main demo_addresses (begin (Scripted late_script (0, 0)))) as [r t] eqn:E.
    assert (El : live (log t) = None) by (change t with (snd (r, t)); rewrite <- E; vm_compute; reflexivity).
    split_and!; [change r with (fst (r, t)); rewrite <- E; vm_compute; reflexivity|].
    destruct K1 as [[[? H]|H] _]; [congruence|exact H].
  - exact (K3 13 ltac:(lia)).
Defined.
