(* ===== verification/Ddt.v ===== *)
(** * Programs typed into DDT: rcbios-in-c/ddt_deploy.py and sioa_fix_via_ddt.py.

    Both scripts talk to the machine's console over a serial line.  The line is not code
    of the repository: it is the interface [Console], of which nothing is assumed; the
    log of a [link] is what went over it, and its [dialogue] each text written with what
    was read before the next.  [deploy] is ddt_deploy.py's main after its arguments,
    [fix_sioa] sioa_fix_via_ddt.py's.  Statements about logs are triples ([talk]); the
    index of a line in [all_lines] is how far a run has come ([said]).

    What CP/M and DDT do with the lines is not code of the repository either: the laws
    of [Cpm] are what the head of ddt_deploy.py says of the commands.  [row_text] is a
    row of DDT's dump as parse_dump describes it; the characters at its end may be any
    in which [_DUMP_LINE] does not match ([calm]).

    A wait reads at most [turns] times; a run that needs more raises [OutOfFuel], and
    the theorem covers it like any exception.  The texts on the terminal, the sleeps, the
    closing of the port and reading the program from its file are left out. *)

From S2P Require Import Prelude Imd Hex Text Gdb.
#[local] Open Scope Z_scope.

(** ** The line *)

(** Writing; reading what has come, or nothing after the port's time; and whether the
    time of a wait is over. *)
Class Console (G : Type) : Type := {
  c_write : bytes -> stM G unit;
  c_read : stM G bytes;
  c_late : stM G bool
}.

Inductive traffic : Type := Tx (b : bytes) | Rx (b : bytes).
#[export] Instance traffic_eq_dec : EqDecision traffic.
Proof. solve_decision. Defined.

(** ** parse_dump *)

(** [\s+], at least one. *)
Definition blanks (s : str) : option str := match s with c :: s' => if py_space c then Some (drop_while py_space s') else None | [] => None end.

(** [(?:[0-9A-Fa-f]{2}\s+){0,n}]: the bytes, and what is behind them. *)
Fixpoint match_pairs (n : nat) (s : str) : bytes * str :=
  match n with
  | O => ([], s)
  | S n' =>
      match s with
      | a :: b :: s' =>
          match hexval a, hexval b, blanks s' with
          | Some x, Some y, Some s'' => let '(l, r) := match_pairs n' s'' in (x * 16 + y :: l, r)
          | _, _, _ => ([], s)
          end
      | _ => ([], s)
      end
  end.

(** [_DUMP_LINE] at the beginning of a text: the address, the bytes, and the rest. *)
Definition match_dump (s : str) : option (Z * bytes * str) :=
  match s with
  | a :: b :: c :: d :: s' =>
      w ← hexval a; x ← hexval b; y ← hexval c; z ← hexval d;
      s'' ← blanks s';
      match match_pairs 16 s'' with
      | ([], _) => None
      | (l, r) => Some (((w * 16 + x) * 16 + y) * 16 + z, l, r)
      end
  | _ => None
  end.

(** [out[addr + j] = ...]. *)
Fixpoint put_row (addr : Z) (l : bytes) (m : gmap Z Z) : gmap Z Z :=
  match l with [] => m | b :: l' => put_row (addr + 1) l' (<[addr := b]> m) end.

(** The loop over [finditer], with the text's length as fuel. *)
Fixpoint dump_from (fuel : nat) (s : str) (m : gmap Z Z) : gmap Z Z :=
  match fuel with
  | O => m
  | S fuel' =>
      match match_dump s with
      | Some (addr, l, r) => dump_from fuel' r (put_row addr l m)
      | None => match s with [] => m | _ :: s' => dump_from fuel' s' m end
      end
  end.
Definition parse_dump (text : str) : gmap Z Z := dump_from (S (length text)) text ∅.

(** Every byte of [data] is in the dump. *)
Fixpoint agrees (mem : gmap Z Z) (addr : Z) (data : bytes) : bool :=
  match data with [] => true | b :: data' => bool_decide (mem !! addr = Some b) && agrees mem (addr + 1) data' end.

(** ** The scripts *)

Section Ddt.
Context {G : Type} `{Console G} (turns : nat).

Record link : Type := Link { port : G; log : list traffic }.

Definition write (b : bytes) : stM link unit := fun t =>
  let '(r, g) := c_write b (port t) in (r, Link g (log t ++ [Tx b])).
Definition send (text : str) : stM link unit := b ← lift (encode_ascii text); write b.
Definition read : stM link bytes := fun t =>
  match c_read (port t) with
  | (Ret b, g) => (Ret b, Link g (log t ++ [Rx b]))
  | (Raise e, g) => (Raise e, Link g (log t))
  end.
Definition late : stM link bool := fun t => let '(r, g) := c_late (port t) in (r, Link g (log t)).

Fixpoint wait (fuel : nat) (markers : list str) (buf : str) : stM link str :=
  match fuel with
  | O => raise OutOfFuel
  | S fuel' =>
      over ← late;
      if over : bool then mret buf else
      chunk ← read;
      match chunk with
      | [] => wait fuel' markers buf
      | _ =>
          let buf' := buf ++ decode_ascii chunk in
          if existsb (fun m => contains m buf') markers then mret buf' else wait fuel' markers buf'
      end
  end.
Definition read_until (marker : str) : stM link str := wait turns [marker] [].

Fixpoint enter_bytes (next_addr : Z) (data : bytes) : stM link unit :=
  match data with
  | [] => mret tt
  | b :: data' =>
      send (fmt_hex 2 b ++ [13]);;
      read_until (fmt_hex 4 (next_addr + 1));;
      enter_bytes (next_addr + 1) data'
  end.

Definition enter_bytes_via_ddt (addr : Z) (data : bytes) : stM link unit :=
  send (chars "S" ++ fmt_hex 4 addr ++ [13]);;
  read_until (fmt_hex 4 addr);;
  enter_bytes addr data;;
  send (chars "." ++ [13]);;
  read_until (chars "-");;
  mret tt.

Definition dump_command (addr : Z) (data : bytes) : str :=
  chars "D" ++ fmt_hex 4 addr ++ chars "," ++ fmt_hex 4 (addr + zlength data - 1) ++ [13].

Definition verify_via_ddt (addr : Z) (data : bytes) : stM link bool :=
  let end_ := addr + zlength data - 1 in
  send (dump_command addr data);;
  let last_row := Z.land end_ (Z.lnot 15) in
  buf ← read_until (fmt_hex 4 last_row);
  extra ← read;
  let buf := buf ++ decode_ascii extra in
  mret (agrees (parse_dump buf) addr data).

(** Before the first dot. *)
Definition stem_of (name : str) : str := match split_on 46 name with w :: _ => w | [] => [] end.

Definition deploy (data : bytes) (com_name : str) (run : bool) : stM link Z :=
  let base := 0x0100 in
  let n_pages := (zlength data + 255) / 256 in
  send [13];;
  first ← read_until (chars "A>");
  if negb (contains (chars "A>") first) then mret 1 else
  send (chars "DDT" ++ [13]);;
  read_until (chars "-");;
  enter_bytes_via_ddt base data;;
  ok ← verify_via_ddt base data;
  if negb ok then send (chars "G0" ++ [13]);; mret 2 else
  send (chars "G0" ++ [13]);;
  read_until (chars "A>");;
  send (chars "ERA " ++ com_name ++ [13]);;
  read_until (chars "A>");;
  send (chars "SAVE " ++ decimal n_pages ++ [32] ++ com_name ++ [13]);;
  read_until (chars "A>");;
  (if run then send (stem_of com_name ++ [13]);; read_until (chars "A>");; mret tt else mret tt);;
  mret 0.

(** sioa_fix_via_ddt.py. *)
Definition BYTES : bytes := [0xF3; 0x3E; 0x05; 0xD3; 0x0A; 0x3E; 0x68; 0xD3; 0x0A; 0x3E; 0x0A; 0xD3; 0x0A; 0x3E; 0x00; 0xD3; 0x0A; 0xFB; 0xC7].

Fixpoint type_bytes (data : bytes) : stM link unit :=
  match data with
  | [] => mret tt
  | b :: data' => read_until [32];; send (fmt_hex 2 b ++ [13]);; type_bytes data'
  end.

Definition fix_sioa : stM link Z :=
  send [13];;
  read_until (chars "A>");;
  send (chars "DDT" ++ [13]);;
  read_until (chars "-");;
  send (chars "S100" ++ [13]);;
  type_bytes BYTES;;
  read_until [32];;
  send (chars "." ++ [13]);;
  read_until (chars "-");;
  send (chars "G100" ++ [13]);;
  read_until (chars "A>");;
  mret 0.
End Ddt.
Arguments link : clear implicits.
Arguments Link {G}.

(** ** Dumps *)

(** A row of DDT's dump: the address, the bytes, and what they are as characters. *)
Definition pairs (l : bytes) : str := concat (map (fun b => fmt_hex 2 b ++ [32]) l).
Definition row_text (addr : Z) (l : bytes) (ascii : str) : str := fmt_hex 4 addr ++ [32] ++ pairs l ++ [32] ++ ascii ++ [13; 10].

(** What [_DUMP_LINE] needs: two digits and a blank; an address and such a pair. *)
Definition is_hex (c : Z) : bool := match hexval c with Some _ => true | None => false end.
Definition pair (s : str) : bool := match s with a :: b :: c :: _ => is_hex a && is_hex b && py_space c | _ => false end.
Definition opens (s : str) : bool :=
  match s with
  | a :: b :: c :: d :: s' => is_hex a && is_hex b && is_hex c && is_hex d && match blanks s' with Some s'' => pair s'' | None => false end
  | _ => false
  end.
(** Nowhere in the text; and a text that does not go on with one. *)
Fixpoint calm (s : str) : bool := match s with [] => true | _ :: s' => negb (opens s) && calm s' end.
Definition fresh (s : str) : bool := match s with [] => true | c :: _ => negb (py_space c) && negb (pair s) end.

Lemma hex_not_space c d : hexval c = Some d -> py_space c = false.
Proof. unfold hexval, py_space. intros H. repeat case_match; try done; lia. Qed.

Lemma pairs_none n s : pair s = false -> fst (match_pairs n s) = [].
Proof.
  destruct n as [|n]; [done|]. destruct s as [|a [|b s]]; try done. cbn [match_pairs]. destruct s as [|c s].
  - intros _. cbn [blanks]. by destruct (hexval a), (hexval b).
  - cbn [pair blanks]. unfold is_hex. destruct (hexval a), (hexval b), (py_space c); done.
Qed.

Lemma opens_none s : opens s = false -> match_dump s = None.
Proof.
  destruct s as [|a [|b [|c [|d s]]]]; try done. cbn [opens match_dump]. unfold is_hex, mbind, option_bind.
  destruct (hexval a), (hexval b), (hexval c), (hexval d); try done. destruct (blanks s) as [s'|]; [|done]. cbn [andb]. intros H.
  apply (pairs_none 16) in H. destruct (match_pairs 16 s') as [l r]. cbn [fst] in H. by rewrite H.
Qed.

Lemma length_blanks s r : blanks s = Some r -> (length r < length s)%nat.
Proof. destruct s as [|c s]; [done|]. cbn [blanks]. destruct (py_space c); [|done]. intros [= <-]. pose proof (length_drop_while py_space s). cbn [length]. lia. Qed.

Lemma length_match_pairs n : forall s, (length (snd (match_pairs n s)) <= length s)%nat.
Proof.
  induction n as [|n IH]; intros s; cbn [match_pairs]; [done|]. destruct s as [|a [|b s]]; try done.
  destruct (hexval a), (hexval b); try done. destruct (blanks s) as [r|] eqn:E; [|done]. apply length_blanks in E.
  specialize (IH r). destruct (match_pairs n r) as [l r']. cbn [snd length] in *. lia.
Qed.

Lemma length_match_dump s addr l r : match_dump s = Some (addr, l, r) -> (length r < length s)%nat.
Proof.
  destruct s as [|a [|b [|c [|d s]]]]; try done. cbn [match_dump]. unfold mbind, option_bind.
  destruct (hexval a), (hexval b), (hexval c), (hexval d); try done. destruct (blanks s) as [s'|] eqn:E; [|done]. apply length_blanks in E.
  pose proof (length_match_pairs 16 s') as H. destruct (match_pairs 16 s') as [[|x l'] r']; [done|]. intros [= _ _ <-]. cbn [snd length] in *. lia.
Qed.

(** Enough fuel is enough. *)
Lemma dump_fuel f1 : forall f2 s m, (length s < f1)%nat -> (length s < f2)%nat -> dump_from f1 s m = dump_from f2 s m.
Proof.
  induction f1 as [|f1 IH]; intros f2 s m H1 H2; [lia|]. destruct f2 as [|f2]; [lia|]. cbn [dump_from].
  destruct (match_dump s) as [[[addr l] r]|] eqn:E; [apply length_match_dump in E; apply IH; lia|].
  destruct s as [|c s]; [done|]. cbn [length] in *. apply IH; lia.
Qed.

(** All matches of a text, in order. *)
Definition scan (s : str) (m : gmap Z Z) : gmap Z Z := dump_from (S (length s)) s m.

Lemma scan_match s addr l r m : match_dump s = Some (addr, l, r) -> scan s m = scan r (put_row addr l m).
Proof. intros E. unfold scan at 1. cbn [dump_from]. rewrite E. apply length_match_dump in E. apply dump_fuel; lia. Qed.

Lemma scan_skip c s m : match_dump (c :: s) = None -> scan (c :: s) m = scan s m.
Proof. intros E. unfold scan at 1. cbn [dump_from]. rewrite E. apply dump_fuel; cbn [length]; lia. Qed.

Lemma drop_blank x rest : drop_while py_space (x ++ 13 :: 10 :: rest) = drop_while py_space rest \/
  exists z, z <> [] /\ forall rest', drop_while py_space (x ++ 13 :: 10 :: rest') = z ++ 13 :: 10 :: rest'.
Proof.
  induction x as [|a x IH]; [by left|]. cbn [app drop_while]. destruct (py_space a); [done|]. right. by exists (a :: x).
Qed.

Lemma opens_line x next : fresh next = true -> opens (x ++ 13 :: 10 :: next) = opens (x ++ [13; 10]).
Proof.
  intros Hn. assert (Hd : drop_while py_space next = next).
  { destruct next as [|c next]; [done|]. cbn [fresh drop_while] in *. apply andb_true_iff in Hn as [Hn _]. apply negb_true_iff in Hn. by rewrite Hn. }
  assert (Hp : pair next = false) by (destruct next; [done|]; cbn [fresh] in Hn; apply andb_true_iff in Hn as [_ Hn]; by apply negb_true_iff).
  assert (N : forall y, match blanks (y ++ 13 :: 10 :: next) with Some s => pair s | None => false end = match blanks (y ++ [13; 10]) with Some s => pair s | None => false end).
  { intros y. assert (P : forall z, z <> [] -> pair (z ++ 13 :: 10 :: next) = pair (z ++ [13; 10])).
    { intros z Hz. destruct z as [|a [|b [|c z]]]; done. }
    destruct y as [|c y]; cbn [app blanks].
    - change (drop_while py_space (10 :: next)) with (drop_while py_space next). rewrite Hd. change (py_space 13) with true. cbv iota. by rewrite Hp.
    - destruct (py_space c); [|done]. destruct (drop_blank y next) as [E | (z & Hz & E)].
      + destruct (drop_blank y []) as [E' | (z & Hz & E')]; [by rewrite E, E', Hd, Hp|]. rewrite (E' next) in E. rewrite Hd in E.
        exfalso. apply (f_equal length) in E. rewrite length_app in E. cbn [length] in E. lia.
      + rewrite !E. by apply P. }
  clear Hd Hp Hn. destruct x as [|a [|b [|c [|d x]]]]; [| | | |cbn [app opens]; by rewrite N]; destruct next as [|? [|? next]]; cbn [app opens];
    change (is_hex 13) with false; by rewrite ?andb_false_r.
Qed.

(** A line without a row in it gives nothing. *)
Lemma scan_line x next m : calm (x ++ [13; 10]) = true -> fresh next = true -> scan (x ++ 13 :: 10 :: next) m = scan next m.
Proof.
  intros Hc Hn. induction x as [|a x IH].
  - cbn [app]. assert (N : forall c s, is_hex c = false -> match_dump (c :: s) = None).
    { intros c s H. apply opens_none. destruct s as [|? [|? [|? ?]]]; try done. cbn [opens]. by rewrite H. }
    by rewrite !scan_skip by (apply N; done).
  - cbn [app calm] in Hc. apply andb_true_iff in Hc as [Hf Hc]. cbn [app]. rewrite scan_skip; [by apply IH|].
    apply opens_none. change (a :: x ++ 13 :: 10 :: next) with ((a :: x) ++ 13 :: 10 :: next). rewrite opens_line by done. by apply negb_true_iff in Hf.
Qed.

Lemma calm_drop f x : calm x = true -> calm (drop_while f x) = true.
Proof. induction x as [|a x IH]; [done|]. cbn [drop_while]. destruct (f a); [|done]. cbn [calm]. intros [_ Hc]%andb_true_iff. auto. Qed.

Lemma calm_join x tail : calm (x ++ [13; 10]) = true -> fresh tail = true -> calm tail = true -> calm (x ++ 13 :: 10 :: tail) = true.
Proof.
  intros Hl Hn Ht. induction x as [|a x IH].
  - cbn [app calm] in *. rewrite Ht. assert (N : forall c s, is_hex c = false -> opens (c :: s) = false).
    { intros c s H. destruct s as [|? [|? [|? ?]]]; try done. cbn [opens]. by rewrite H. }
    by rewrite !N.
  - cbn [app calm] in Hl |- *. apply andb_true_iff in Hl as [Hf Hl]. rewrite IH by done.
    change (a :: x ++ 13 :: 10 :: tail) with ((a :: x) ++ 13 :: 10 :: tail). rewrite opens_line by done. by rewrite andb_true_r.
Qed.

Lemma scan_calm s m : calm s = true -> scan s m = m.
Proof.
  induction s as [|a s IH]; intros Hc; [done|]. cbn [calm] in Hc. apply andb_true_iff in Hc as [Hf Hc].
  rewrite scan_skip; [by apply IH|]. by apply opens_none, negb_true_iff.
Qed.

Lemma calm_pairs n : forall s, calm s = true -> calm (snd (match_pairs n s)) = true.
Proof.
  induction n as [|n IH]; intros s Hc; cbn [match_pairs]; [done|]. destruct s as [|a [|b s]]; try done.
  destruct (hexval a), (hexval b); try done. destruct (blanks s) as [r|] eqn:E; [|done].
  assert (Hr : calm r = true).
  { destruct s as [|c s]; [done|]. cbn [blanks] in E. destruct (py_space c); [|done]. injection E as <-. apply calm_drop.
    cbn [calm] in Hc. by repeat (apply andb_true_iff in Hc as [_ Hc]). }
  specialize (IH r Hr). by destruct (match_pairs n r).
Qed.

(** ** Rows *)

Lemma hex2_text b : is_byte b -> exists c d, fmt_hex 2 b = [c; d] /\ hexval c = Some (b / 16) /\ hexval d = Some (b mod 16).
Proof.
  intros Hb. rewrite fmt_hex_2 by done. destruct (byte_digits b Hb) as [H1 H2]. exists (hexdig (b / 16)), (hexdig (b mod 16)).
  split; [done|]. by destruct (hexval_hexdig _ H1) as (-> & _), (hexval_hexdig _ H2) as (-> & _).
Qed.

Lemma hex4_text n : 0 <= n < 65536 -> exists a b c d w x y z, fmt_hex 4 n = [a; b; c; d] /\
  hexval a = Some w /\ hexval b = Some x /\ hexval c = Some y /\ hexval d = Some z /\ ((w * 16 + x) * 16 + y) * 16 + z = n.
Proof.
  intros Hn. rewrite fmt_hex_4 by done. rewrite Z.shiftr_div_pow2 by lia. change 255 with (Z.ones 8). rewrite Z.land_ones by lia. change (2 ^ 8) with 256.
  assert (H1 : is_byte (n / 256)) by (unfold is_byte; Z.div_mod_to_equations; lia). assert (H2 : is_byte (n mod 256)) by (unfold is_byte; Z.div_mod_to_equations; lia).
  destruct (byte_digits _ H1) as [A B], (byte_digits _ H2) as [C D].
  exists (hexdig (n / 256 / 16)), (hexdig (n / 256 mod 16)), (hexdig (n mod 256 / 16)), (hexdig ((n mod 256) mod 16)).
  exists (n / 256 / 16), (n / 256 mod 16), (n mod 256 / 16), ((n mod 256) mod 16). split; [done|].
  destruct (hexval_hexdig _ A) as (-> & _), (hexval_hexdig _ B) as (-> & _), (hexval_hexdig _ C) as (-> & _), (hexval_hexdig _ D) as (-> & _).
  split_and!; try done. clear. Z.div_mod_to_equations. lia.
Qed.

Lemma pairs_read l : forall n rest, all_bytes l -> l <> [] -> (length l <= n)%nat ->
  match_pairs n (pairs l ++ rest) = let '(l', r) := match_pairs (n - length l) (drop_while py_space rest) in (l ++ l', r).
Proof.
  induction l as [|b l IH]; intros n rest Hl Hne Hn; [done|]. apply Forall_cons in Hl as [Hb Hl]. destruct n as [|n]; [cbn [length] in Hn; lia|].
  destruct (hex2_text b Hb) as (c & d & E & H1 & H2). change (pairs (b :: l)) with ((fmt_hex 2 b ++ [32]) ++ pairs l). rewrite E. cbn [app match_pairs].
  rewrite H1, H2. cbn [blanks]. change (py_space 32) with true. cbv iota. replace (b / 16 * 16 + b mod 16) with b by (Z.div_mod_to_equations; lia).
  cbn [length Nat.sub]. destruct l as [|b' l].
  - cbn [pairs map concat app length]. rewrite Nat.sub_0_r. by destruct (match_pairs n _).
  - assert (Ed : drop_while py_space (pairs (b' :: l) ++ rest) = pairs (b' :: l) ++ rest).
    { apply Forall_cons in Hl as [Hb' _]. destruct (hex2_text b' Hb') as (c' & d' & E' & H1' & _).
      change (pairs (b' :: l)) with ((fmt_hex 2 b' ++ [32]) ++ pairs l). rewrite E'. cbn [app drop_while]. by rewrite (hex_not_space _ _ H1'). }
    rewrite Ed, IH by (done || cbn [length] in *; lia). cbn [length]. by destruct (match_pairs (n - _) _).
Qed.

Lemma row_read addr l ascii next : 0 <= addr < 65536 -> all_bytes l -> (1 <= length l <= 16)%nat ->
  match_dump (row_text addr l ascii ++ next) =
    let '(l', r) := match_pairs (16 - length l) (drop_while py_space (ascii ++ [13; 10] ++ next)) in Some (addr, l ++ l', r).
Proof.
  intros Ha Hl Hn. destruct (hex4_text addr Ha) as (a & b & c & d & w & x & y & z & E & H1 & H2 & H3 & H4 & Hv).
  assert (Hne : l <> []) by (destruct l; [cbn in Hn; lia|done]). unfold row_text. rewrite E. cbn [app match_dump]. rewrite H1, H2, H3, H4. cbn [mbind option_bind blanks].
  change (py_space 32) with true. cbv iota. cbn [mbind option_bind].
  assert (Ed : forall rest, drop_while py_space (pairs l ++ rest) = pairs l ++ rest).
  { intros rest. destruct l as [|b' l]; [done|]. apply Forall_cons in Hl as [Hb' _]. destruct (hex2_text b' Hb') as (c' & d' & E' & H1' & _).
    change (pairs (b' :: l)) with ((fmt_hex 2 b' ++ [32]) ++ pairs l). rewrite E'. cbn [app drop_while]. by rewrite (hex_not_space _ _ H1'). }
  rewrite <- app_assoc, Ed. rewrite pairs_read by (done || lia). cbn [app drop_while]. change (py_space 32) with true. cbv iota.
  rewrite <- app_assoc. cbn [app]. rewrite Hv. destruct (match_pairs _ _) as [l' r]. destruct l; [done|]. done.
Qed.

Lemma put_row_lookup l : forall addr m x, put_row addr l m !! x = if (addr <=? x) && (x <? addr + zlength l) then l !! Z.to_nat (x - addr) else m !! x.
Proof.
  induction l as [|b l IH]; intros addr m x; cbn [put_row].
  - change (zlength (@nil Z)) with 0. destruct (Z.leb_spec addr x), (Z.ltb_spec x (addr + 0)); cbn [andb]; done || lia.
  - rewrite IH, zlength_cons. pose proof (zlength_pos l). destruct (Z.eq_dec x addr) as [->|Hx].
    + rewrite (proj2 (Z.leb_gt (addr + 1) addr)), (proj2 (Z.leb_le addr addr)), (proj2 (Z.ltb_lt addr (addr + (1 + zlength l)))) by lia. cbn [andb]. by rewrite lookup_insert_eq, Z.sub_diag.
    + destruct (Z.leb_spec (addr + 1) x), (Z.ltb_spec x (addr + 1 + zlength l)), (Z.leb_spec addr x), (Z.ltb_spec x (addr + (1 + zlength l))); cbn [andb]; try lia; try (rewrite lookup_insert_ne by lia; done).
      replace (Z.to_nat (x - addr)) with (S (Z.to_nat (x - (addr + 1)))) by lia. done.
Qed.

(** The rows from an address on, with the characters at their ends. *)
Fixpoint rows_text (addr : Z) (rows : list (bytes * str)) : str :=
  match rows with [] => [] | (l, a) :: rows' => row_text addr l a ++ rows_text (addr + zlength l) rows' end.

(** Rows of sixteen bytes, and a last one of up to sixteen. *)
Fixpoint in_rows (rows : list (bytes * str)) : Prop :=
  match rows with
  | [] => True
  | (l, a) :: rows' =>
      all_bytes l /\ calm (a ++ [13; 10]) = true /\ (1 <= length l <= 16)%nat /\ (rows' <> [] -> length l = 16%nat) /\ in_rows rows'
  end.
Definition dumped (rows : list (bytes * str)) : bytes := concat (map fst rows).

Lemma row_fresh addr l a next : 0 <= addr < 65536 -> fresh (row_text addr l a ++ next) = true.
Proof.
  intros Ha. destruct (hex4_text addr Ha) as (x & y & z & w & ? & ? & ? & ? & E & H1 & H2 & H3 & _). unfold row_text. rewrite E. cbn [app fresh pair].
  rewrite (hex_not_space _ _ H1), (hex_not_space _ _ H3). by rewrite andb_false_r.
Qed.

Lemma dump_rows rows : forall addr tail m, in_rows rows -> 0 <= addr -> addr + zlength (dumped rows) <= 65536 -> calm tail = true -> fresh tail = true ->
  forall x, x < addr + zlength (dumped rows) -> scan (rows_text addr rows ++ tail) m !! x = if addr <=? x then dumped rows !! Z.to_nat (x - addr) else m !! x.
Proof.
  induction rows as [|[l a] rows IH]; intros addr tail m Hr Ha Hz Ht Hf x Hx.
  - cbn [rows_text app]. change (zlength (dumped [])) with 0 in Hx. rewrite scan_calm by done. by rewrite (proj2 (Z.leb_gt addr x)) by lia.
  - destruct Hr as (Hl & Hc & Hn & Hfull & Hr). change (dumped ((l, a) :: rows)) with (l ++ dumped rows) in *. rewrite zlength_app in *.
    pose proof (zlength_pos (dumped rows)) as Hp. assert (Hl1 : 1 <= zlength l <= 16) by (unfold zlength; lia).
    cbn [rows_text]. rewrite <- app_assoc. set (next := rows_text (addr + zlength l) rows ++ tail).
    pose proof (row_read addr l a next ltac:(lia) Hl Hn) as E. destruct (match_pairs _ _) as [l' r] eqn:Em. rewrite (scan_match _ _ _ _ _ E). clear E.
    assert (Hin : forall y, y < addr + zlength l -> put_row addr (l ++ l') m !! y = if addr <=? y then l !! Z.to_nat (y - addr) else m !! y).
    { intros y Hy. rewrite put_row_lookup, zlength_app. pose proof (zlength_pos l'). rewrite (proj2 (Z.ltb_lt y (addr + (zlength l + zlength l')))) by lia. rewrite andb_true_r.
      destruct (Z.leb_spec addr y); [|done]. rewrite lookup_app_l; [done|]. unfold zlength in *. lia. }
    destruct rows as [|row2 rows].
    + subst next. cbn [rows_text app] in Em. change (dumped []) with (@nil Z) in *. rewrite zlength_nil in *. rewrite app_nil_r. rewrite scan_calm; [apply Hin; lia|].
      replace r with (snd (match_pairs (16 - length l) (drop_while py_space (a ++ 13 :: 10 :: tail)))) by (change ([13; 10] ++ tail) with (13 :: 10 :: tail) in Em; by rewrite Em).
      by apply calm_pairs, calm_drop, calm_join.
    + rewrite (Hfull ltac:(done)) in Em. injection Em as <- <-. rewrite app_nil_r in *.
      assert (Hs : fresh next = true).
      { subst next. destruct row2 as [l2 a2]. cbn [rows_text]. rewrite <- app_assoc. apply row_fresh. destruct Hr as (_ & _ & Hn2 & _).
        change (dumped ((l2, a2) :: rows)) with (l2 ++ dumped rows) in Hz. rewrite zlength_app in Hz. pose proof (zlength_pos (dumped rows)). unfold zlength in *. lia. }
      assert (Hd : scan (drop_while py_space (a ++ 13 :: 10 :: next)) (put_row addr l m) = scan next (put_row addr l m)).
      { destruct (drop_blank a next) as [-> | (z & _ & E)].
        - f_equal. destruct next as [|c next']; [done|]. cbn [fresh drop_while] in *. apply andb_true_iff in Hs as [Hs _]. apply negb_true_iff in Hs. by rewrite Hs.
        - rewrite E. apply scan_line; [|done]. rewrite <- (E []). by apply calm_drop. }
      rewrite Hd. subst next. destruct (Z.ltb_spec x (addr + zlength l)) as [Hx1|Hx1].
      * rewrite (IH _ _ _ Hr) by (done || lia). rewrite (proj2 (Z.leb_gt (addr + zlength l) x)) by lia. rewrite Hin by done.
        destruct (Z.leb_spec addr x); [|done]. rewrite lookup_app_l; [done|]. unfold zlength in *. lia.
      * rewrite (IH _ _ _ Hr) by (done || lia). rewrite !(proj2 (Z.leb_le _ _)) by lia. rewrite lookup_app_r by (unfold zlength in *; lia).
        f_equal. unfold zlength in *. lia.
Qed.

Lemma agrees_lookup mem l : forall addr data, length data = length l -> (forall x, addr <= x < addr + zlength l -> mem !! x = l !! Z.to_nat (x - addr)) ->
  agrees mem addr data = bool_decide (data = l).
Proof.
  induction l as [|b l IH]; intros addr data Hlen Hm; destruct data as [|d data]; try done; cbn [agrees].
  rewrite zlength_cons in Hm. pose proof (zlength_pos l). rewrite (Hm addr) by lia. rewrite Z.sub_diag. change ((b :: l) !! Z.to_nat 0) with (Some b).
  rewrite (IH (addr + 1) data) by (first [cbn [length] in Hlen; lia | intros x Hx; rewrite Hm by lia; replace (Z.to_nat (x - addr)) with (S (Z.to_nat (x - (addr + 1)))) by lia; done]).
  repeat case_bool_decide; cbn [andb]; naive_solver.
Qed.

(** The dump command's own echo gives nothing. *)
Lemma echo_calm addr n : 0 <= addr < 65536 -> 0 <= n < 65536 -> calm ((chars "D" ++ fmt_hex 4 addr ++ chars "," ++ fmt_hex 4 n) ++ [13; 10]) = true.
Proof.
  intros Ha Hn. destruct (hex4_text addr Ha) as (a & b & c & d & ? & ? & ? & ? & -> & H1 & H2 & H3 & H4 & _).
  destruct (hex4_text n Hn) as (e & f & g & h & ? & ? & ? & ? & -> & G1 & G2 & G3 & G4 & _).
  change (chars "D") with [68]. change (chars ",") with [44]. cbn [app calm opens blanks].
  rewrite (hex_not_space _ _ H4). change (py_space 44) with false. change (is_hex 44) with false. change (is_hex 13) with false. change (is_hex 10) with false.
  rewrite ?andb_false_r. cbn. by rewrite ?andb_false_r.
Qed.

(** The text that comes back from a dump of as many bytes as [data] has. *)
Definition dump_reply (data : bytes) (rows : list (bytes * str)) (tail : str) : str :=
  (chars "D" ++ fmt_hex 4 256 ++ chars "," ++ fmt_hex 4 (256 + zlength data - 1)) ++ 13 :: 10 :: rows_text 256 rows ++ tail.
Definition true_dump (data : bytes) (rows : list (bytes * str)) (tail : str) : Prop :=
  in_rows rows /\ length data = length (dumped rows) /\ calm tail = true /\ fresh tail = true.

(** It tells whether the memory holds the data. *)
Lemma dump_is_compared data rows tail : true_dump data rows tail -> 256 + zlength data <= 65536 ->
  agrees (parse_dump (dump_reply data rows tail)) 256 data = bool_decide (data = dumped rows).
Proof.
  intros (Hr & Hlen & Ht & Hf) Hz. assert (Hz' : zlength data = zlength (dumped rows)) by (unfold zlength; by rewrite Hlen).
  destruct (decide (data = [])) as [->|Hne]; [by destruct (dumped rows)|].
  assert (Hpos : 0 < zlength data) by (destruct data; [done|]; rewrite zlength_cons; pose proof (zlength_pos data); lia).
  apply agrees_lookup; [done|]. intros x Hx. unfold parse_dump. fold (scan (dump_reply data rows tail) ∅). unfold dump_reply. rewrite scan_line.
  - rewrite (dump_rows rows 256 tail) by (done || lia). by rewrite (proj2 (Z.leb_le 256 x)) by lia.
  - apply echo_calm; lia.
  - destruct rows as [|[l a] rows]; [done|]. cbn [rows_text]. rewrite <- app_assoc. by apply row_fresh.
Qed.

(** ** The dialogue *)

(** Each text written with what was read before the next one, the latest first. *)
Definition hear (d : list (bytes * bytes)) (e : traffic) : list (bytes * bytes) :=
  match e, d with
  | Tx b, _ => (b, []) :: d
  | Rx b, (s, h) :: d' => (s, h ++ b) :: d'
  | Rx _, [] => []
  end.
Definition latest (l : list traffic) : list (bytes * bytes) := foldl hear [] l.
Definition dialogue (l : list traffic) : list (bytes * bytes) := rev (latest l).

Lemma latest_snoc l e : latest (l ++ [e]) = hear (latest l) e.
Proof. unfold latest. by rewrite foldl_app. Qed.

(** What is typed until the memory is dumped, and after it. *)
Definition set_lines (addr : Z) (data : bytes) : list str :=
  (chars "S" ++ fmt_hex 4 addr ++ [13]) :: map (fun b => fmt_hex 2 b ++ [13]) data ++ [chars "." ++ [13]].
Definition entry_lines (data : bytes) : list str := [[13]; chars "DDT" ++ [13]] ++ set_lines 256 data ++ [dump_command 256 data].
Definition pages (data : bytes) : Z := (zlength data + 255) / 256.
Definition save_lines (data : bytes) (name : str) : list str :=
  [chars "G0" ++ [13]; chars "ERA " ++ name ++ [13]; chars "SAVE " ++ decimal (pages data) ++ [32] ++ name ++ [13]].
Definition run_lines (name : str) (run : bool) : list str := if run then [stem_of name ++ [13]] else [].
Definition all_lines (data : bytes) (name : str) (run : bool) : list str := entry_lines data ++ save_lines data name ++ run_lines name run.

Section Dialogue.
Context {G : Type} `{Console G} (turns : nat).

(** From a log with [P], [m] ends with [Q], or with an exception and [E]. *)
Definition talk {A} (P : list traffic -> Prop) (m : stM (link G) A) (Q : A -> list traffic -> Prop) (E : list traffic -> Prop) : Prop :=
  hoare (fun t => P (log t)) m (fun a t => Q a (log t)) (fun _ t => E (log t)).

Lemma talk_ret {A} (a : A) P (Q : A -> _) E : (forall l, P l -> Q a l) -> talk P (mret a) Q E.
Proof. intros H0. apply hoare_ret. auto. Qed.

Lemma talk_bind {A B} (m : stM (link G) A) (f : A -> stM (link G) B) P R Q E : talk P m R E -> (forall a, talk (R a) (f a) Q E) -> talk P (m ≫= f) Q E.
Proof. apply (hoare_bind m f (fun t => P (log t)) (fun a t => R a (log t))). Qed.

Lemma talk_conseq {A} (m : stM (link G) A) P P' (Q Q' : A -> _) (E E' : list traffic -> Prop) : talk P' m Q' E' -> (forall l, P l -> P' l) ->
  (forall a l, Q' a l -> Q a l) -> (forall l, E' l -> E l) -> talk P m Q E.
Proof. intros Hm HP HQ HE. exact (hoare_conseq m _ _ _ _ _ _ Hm (fun s => HP (log s)) (fun a s => HQ a (log s)) (fun _ s => HE (log s))). Qed.

Lemma talk_send s P (Q : unit -> _) E : (forall l, P l -> E l) -> (forall l, P l -> E (l ++ [Tx s])) -> (forall l, P l -> Q tt (l ++ [Tx s])) -> talk P (send s) Q E.
Proof.
  intros H1 H2 H3 t Ht. unfold send, mbind, stM_bind, lift, encode_ascii. destruct (forallb _ s); [|by apply H1].
  unfold write. destruct (c_write s (port t)) as [[[]|e] g]; [by apply H3|by apply H2].
Qed.

Lemma talk_read P (Q : bytes -> _) E : (forall l, P l -> E l) -> (forall l b, P l -> Q b (l ++ [Rx b])) -> talk P read Q E.
Proof. intros H1 H2 t Ht. unfold read. destruct (c_read (port t)) as [[b|e] g]; [by apply H2|by apply H1]. Qed.

Lemma talk_late P E : (forall l, P l -> E l) -> talk P late (fun _ => P) E.
Proof. intros H1 t Ht. unfold late. destruct (c_late (port t)) as [[b|e] g]; [done|by apply H1]. Qed.

(** Waiting only adds to what was read after the last text, and returns it. *)
Definition heard (s : bytes) (h : bytes) (d : list (bytes * bytes)) (l : list traffic) : Prop := latest l = (s, h) :: d.

Lemma talk_wait s d n markers : forall h, talk (heard s h d) (wait n markers (decode_ascii h)) (fun buf l => exists h', heard s h' d l /\ buf = decode_ascii h')
  (fun l => exists h', heard s h' d l).
Proof.
  induction n as [|n IH]; intros h; cbn [wait]; [intros t Ht; by exists h|].
  eapply (talk_bind _ _ _ (fun _ => heard s h d)); [apply talk_late; eauto|intros over]. destruct over; [apply talk_ret; eauto|].
  eapply (talk_bind _ _ _ (fun b => heard s (h ++ b) d)); [apply talk_read; [eauto|intros l b Hl; unfold heard in *; by rewrite latest_snoc, Hl]|].
  intros b. destruct b as [|c b]; [rewrite app_nil_r; apply IH|]. replace (decode_ascii h ++ decode_ascii (c :: b)) with (decode_ascii (h ++ c :: b)) by (unfold decode_ascii; by rewrite map_app).
  destruct (existsb _ markers); [apply talk_ret; eauto|apply IH].
Qed.

(** ... so it keeps what reading keeps. *)
Lemma talk_wait_keeps (P E : list traffic -> Prop) n markers : (forall l b, P l -> P (l ++ [Rx b])) -> (forall l, P l -> E l) ->
  forall buf, talk P (wait n markers buf) (fun _ => P) E.
Proof.
  intros Hr He. induction n as [|n IH]; intros buf; cbn [wait]; [intros t Ht; by apply He|].
  eapply talk_bind; [by apply talk_late|]. intros over; cbv beta. destruct over; [by apply talk_ret|].
  eapply (talk_bind _ _ _ (fun _ => P)); [apply talk_read; auto|]. intros b. destruct b as [|c b]; [apply IH|]. destruct (existsb _ markers); [by apply talk_ret|apply IH].
Qed.

(** ** What is typed, whatever the machine answers *)

Section Typed.
Context (data : bytes) (name : str) (run : bool).
Let lines := all_lines data name run.
Let n := length data.
Let dump := dump_command 256 data.

Definition said (k : nat) (l : list traffic) : Prop := map fst (latest l) = rev (take k lines).
Definition past (ok : bool) (l : list traffic) : Prop := exists d1 h d2, latest l = d1 ++ (dump, h) :: d2 /\ d1 <> [] /\ length d2 = (n + 4)%nat /\
  agrees (parse_dump (decode_ascii h)) 256 data = ok.
Definition good (k : nat) (l : list traffic) : Prop := said k l /\ ((n + 5 < k)%nat -> past true l).
Definition cut (l : list traffic) : Prop := exists k, said k l /\ ((n + 6 < k)%nat -> past true l).

Lemma said_snoc k s l : lines !! k = Some s -> said k l -> said (S k) (l ++ [Tx s]).
Proof. intros Hk Hl. unfold said in *. rewrite latest_snoc. cbn [hear map fst]. rewrite Hl, (take_S_r _ _ _ Hk), rev_app_distr. done. Qed.
Lemma said_read k b l : said k l -> said k (l ++ [Rx b]).
Proof. unfold said. intros <-. rewrite latest_snoc. by destruct (latest l) as [|[s h] d]. Qed.
Lemma past_snoc ok e l : past ok l -> past ok (l ++ [e]).
Proof.
  intros (d1 & h & d2 & E & Hne & Hlen & Ha). unfold past. rewrite latest_snoc, E. destruct d1 as [|[s h1] d1]; [done|].
  destruct e as [s'|b]; cbn [hear app]; [exists ((s', []) :: (s, h1) :: d1)|exists ((s, h1 ++ b) :: d1)]; by exists h, d2.
Qed.
Lemma good_cut k l : good k l -> cut l.
Proof. intros [H1 H2]. exists k. split; [done|]. intros. apply H2. lia. Qed.
Lemma good_read k b l : good k l -> good k (l ++ [Rx b]).
Proof. intros [H1 H2]. split; [by apply said_read|]. intros. by apply past_snoc, H2. Qed.
Lemma good_say k s l : lines !! k = Some s -> k <> (n + 5)%nat -> good k l -> good (S k) (l ++ [Tx s]).
Proof. intros Hk Hn [H1 H2]. split; [by apply said_snoc|]. intros. apply past_snoc, H2. lia. Qed.

Lemma talk_say k s : lines !! k = Some s -> k <> (n + 5)%nat -> talk (good k) (send s) (fun _ => good (S k)) cut.
Proof. intros Hk Hn. apply talk_send; intros l Hl; [by eapply good_cut|eapply good_cut, good_say; eauto|by apply good_say]. Qed.
Lemma talk_hear k m : talk (good k) (read_until turns m) (fun _ => good k) cut.
Proof. apply talk_wait_keeps; [intros; by apply good_read|apply good_cut]. Qed.

Lemma lines_split : lines = ([[13]; chars "DDT" ++ [13]; chars "S" ++ fmt_hex 4 256 ++ [13]] ++ map (fun b => fmt_hex 2 b ++ [13]) data) ++
  ([chars "." ++ [13]; dump] ++ save_lines data name ++ run_lines name run).
Proof. subst lines dump. unfold all_lines, entry_lines, set_lines. rewrite <- !app_assoc. cbn [app]. by rewrite <- app_assoc. Qed.
Lemma line_of_byte i b : data !! i = Some b -> lines !! (3 + i)%nat = Some (fmt_hex 2 b ++ [13]).
Proof.
  intros Hi. rewrite lines_split, lookup_app_l by (rewrite length_app, length_map; apply lookup_lt_Some in Hi; cbn [length]; lia).
  change (3 + i)%nat with (S (S (S i))). cbn [app]. change (map (fun b => fmt_hex 2 b ++ [13]) data !! i = Some (fmt_hex 2 b ++ [13])). rewrite <- list_fmap_map || idtac.
  change (((fun b => fmt_hex 2 b ++ [13]) <$> data) !! i = Some (fmt_hex 2 b ++ [13])). by rewrite list_lookup_fmap, Hi.
Qed.
Lemma line_after j : lines !! (n + 3 + j)%nat = ([chars "." ++ [13]; dump] ++ save_lines data name ++ run_lines name run) !! j.
Proof. rewrite lines_split, lookup_app_r by (rewrite length_app, length_map; cbn [length]; lia). rewrite length_app, length_map. cbn [length]. f_equal. lia. Qed.
Lemma length_lines : length lines = (n + 8 + length (run_lines name run))%nat.
Proof. rewrite lines_split, !length_app, length_map. cbn [length save_lines]. lia. Qed.

Lemma talk_enter_bytes rest : forall a k, (k + length rest = n + 3)%nat -> (forall i b, rest !! i = Some b -> lines !! (k + i)%nat = Some (fmt_hex 2 b ++ [13])) ->
  talk (good k) (enter_bytes turns a rest) (fun _ => good (n + 3)) cut.
Proof.
  induction rest as [|b rest IH]; intros a k Hk Hl; cbn [enter_bytes].
  - apply talk_ret. cbn [length] in Hk. by replace (n + 3)%nat with k by lia.
  - cbn [length] in Hk. eapply talk_bind; [apply talk_say; [rewrite <- (Nat.add_0_r k); by apply Hl|lia]|]. intros ?; cbv beta.
    eapply talk_bind; [apply talk_hear|]. intros ?; cbv beta. apply IH; [lia|]. intros i c Hi. rewrite Nat.add_succ_comm. by apply Hl.
Qed.

Lemma talk_enter : talk (good 2) (enter_bytes_via_ddt turns 256 data) (fun _ => good (n + 4)) cut.
Proof.
  unfold enter_bytes_via_ddt. eapply talk_bind; [apply talk_say; [done|lia]|]. intros ?; cbv beta. eapply talk_bind; [apply talk_hear|]. intros ?; cbv beta.
  eapply talk_bind; [apply talk_enter_bytes; [subst n; lia|apply line_of_byte]|]. intros ?; cbv beta.
  eapply talk_bind; [apply talk_say; [rewrite <- (Nat.add_0_r (n + 3)); by rewrite line_after|lia]|]. intros ?; cbv beta.
  eapply talk_bind; [apply talk_hear|]. intros ?; cbv beta. apply talk_ret. intros l. by replace (S (n + 3)) with (n + 4)%nat by lia.
Qed.

(** The dump was asked for and this is what came, up to now. *)
Definition answered (h : bytes) (d : list (bytes * bytes)) (l : list traffic) : Prop := heard dump h d l /\ map fst d = rev (take (n + 4) lines).
Lemma answered_said h d l : answered h d l -> said (n + 5) l.
Proof.
  intros [Hh Hd]. unfold said. rewrite Hh. cbn [map fst]. rewrite Hd. replace (n + 5)%nat with (S (n + 4)) by lia.
  rewrite (take_S_r _ (n + 4) dump), rev_app_distr; [done|]. replace (n + 4)%nat with (n + 3 + 1)%nat by lia. by rewrite line_after.
Qed.
Lemma answered_cut h d l : answered h d l -> cut l.
Proof. intros Hh. exists (n + 5)%nat. split; [by eapply answered_said|]. lia. Qed.
Lemma answered_past h d l s : answered h d l -> past (agrees (parse_dump (decode_ascii h)) 256 data) (l ++ [Tx s]).
Proof.
  intros [Hh Hd]. exists [(s, [])], h, d. rewrite latest_snoc, Hh. split_and!; try done. apply (f_equal length) in Hd.
  rewrite length_map, length_rev, length_take in Hd. pose proof length_lines. lia.
Qed.

Lemma talk_verify : talk (good (n + 4)) (verify_via_ddt turns 256 data) (fun ok l => exists d h, answered h d l /\ agrees (parse_dump (decode_ascii h)) 256 data = ok) cut.
Proof.
  unfold verify_via_ddt. apply (talk_bind _ _ _ (fun _ l => exists d, answered [] d l)).
  - assert (Hl : lines !! (n + 4)%nat = Some dump) by (replace (n + 4)%nat with (n + 3 + 1)%nat by lia; by rewrite line_after).
    apply talk_send; [by apply good_cut|intros l Hg; eapply good_cut, good_say; eauto; lia|]. intros l [Hs _]. exists (latest l). split; [by unfold heard; rewrite latest_snoc|done].
  - intros _ t [d [Hh Hd]]. revert t Hh. change (talk (heard dump [] d) (buf ← read_until turns (fmt_hex 4 (Z.land (256 + zlength data - 1) (Z.lnot 15)));
      extra ← read; mret (agrees (parse_dump (buf ++ decode_ascii extra)) 256 data))
      (fun ok l => exists d h, answered h d l /\ agrees (parse_dump (decode_ascii h)) 256 data = ok) cut).
    assert (Hcut : forall h l, heard dump h d l -> cut l) by (intros h l Hl; apply (answered_cut h d); by split).
    eapply (talk_bind _ _ _ (fun buf l => exists h, heard dump h d l /\ buf = decode_ascii h)).
    { eapply talk_conseq; [apply (talk_wait dump d turns [_] [])|done|done|]. intros l [h Hl]. by eapply Hcut. }
    intros buf t [h [Hh ->]]. revert t Hh.
    change (talk (heard dump h d) (extra ← read; mret (agrees (parse_dump (decode_ascii h ++ decode_ascii extra)) 256 data))
      (fun ok l => exists d h, answered h d l /\ agrees (parse_dump (decode_ascii h)) 256 data = ok) cut).
    eapply (talk_bind _ _ _ (fun b => heard dump (h ++ b) d)); [apply talk_read; [apply Hcut|intros l b Hl; unfold heard in *; by rewrite latest_snoc, Hl]|].
    intros b. apply talk_ret. intros l Hl. exists d, (h ++ b). split; [done|]. unfold decode_ascii. by rewrite map_app.
Qed.

(** How the script ends. *)
Definition ended (r : Z) (l : list traffic) : Prop :=
  (r = 1 /\ exists h, latest l = [([13], h)] /\ contains (chars "A>") (decode_ascii h) = false) \/
  (r = 2 /\ said (n + 6) l /\ past false l) \/
  (r = 0 /\ said (length lines) l /\ past true l).

Lemma talk_finish : talk (good (n + 6)) (
    read_until turns (chars "A>");;
    send (chars "ERA " ++ name ++ [13]);;
    read_until turns (chars "A>");;
    send (chars "SAVE " ++ decimal (pages data) ++ [32] ++ name ++ [13]);;
    read_until turns (chars "A>");;
    (if run then send (stem_of name ++ [13]);; read_until turns (chars "A>");; mret tt else mret tt);;
    mret 0) ended cut.
Proof.
  assert (L : forall j s, ([chars "." ++ [13]; dump] ++ save_lines data name ++ run_lines name run) !! j = Some s -> lines !! (n + 3 + j)%nat = Some s) by (intros; by rewrite line_after).
  eapply talk_bind; [apply talk_hear|]. intros ?; cbv beta.
  eapply talk_bind; [apply talk_say; [replace (n + 6)%nat with (n + 3 + 3)%nat by lia; by apply L|lia]|]. intros ?; cbv beta.
  eapply talk_bind; [apply talk_hear|]. intros ?; cbv beta.
  eapply talk_bind; [apply talk_say; [replace (S (n + 6)) with (n + 3 + 4)%nat by lia; by apply L|lia]|]. intros ?; cbv beta.
  eapply talk_bind; [apply talk_hear|]. intros ?; cbv beta. eapply (talk_bind _ _ _ (fun _ => good (length lines))).
  - rewrite length_lines. unfold run_lines. destruct (Bool.bool_dec run true) as [Hrun|Hrun%not_true_is_false]; rewrite Hrun; [|apply talk_ret; intros l; cbn [length]; by replace (n + 8 + 0)%nat with (S (S (n + 6))) by lia].
    eapply talk_bind; [apply talk_say; [replace (S (S (n + 6))) with (n + 3 + 5)%nat by lia; apply L; unfold run_lines; by rewrite Hrun|lia]|]. intros ?; cbv beta.
    eapply talk_bind; [apply talk_hear|]. intros ?; cbv beta. apply talk_ret. intros l. cbn [length]. by replace (n + 8 + 1)%nat with (S (S (S (n + 6)))) by lia.
  - intros _. apply talk_ret. intros l [H1 H2]. right. right. split_and!; try done. apply H2. rewrite length_lines. lia.
Qed.

Lemma talk_deploy : talk (fun l => l = []) (deploy turns data name run) ended cut.
Proof.
  assert (H0 : forall l, latest l = [] -> cut l) by (intros l Hl; exists 0%nat; split; [unfold said; by rewrite Hl|lia]).
  assert (H1 : forall h l, heard [13] h [] l -> good 1 l) by (intros h l Hl; split; [unfold said; by rewrite Hl|lia]).
  unfold deploy. apply (talk_bind _ _ _ (fun _ => heard [13] [] [])).
  { apply talk_send; intros l ->; [by apply H0|by eapply good_cut, (H1 [])|done]. }
  intros _. apply (talk_bind _ _ _ (fun buf l => exists h, heard [13] h [] l /\ buf = decode_ascii h)).
  { eapply talk_conseq; [apply (talk_wait [13] [] turns [_] [])|done|done|]. intros l [h Hl]. by eapply good_cut, H1. }
  intros first. destruct (contains (chars "A>") first) eqn:Hc; cbn [negb].
  2: { apply talk_ret. intros l (h & Hh & ->). left. split; [done|]. by exists h. }
  apply (talk_conseq _ _ (good 1) _ ended _ cut); [|intros l (h & Hh & _); by eapply H1|done|done].
  eapply talk_bind; [apply talk_say; [done|lia]|]. intros ?; cbv beta. eapply talk_bind; [apply talk_hear|]. intros ?; cbv beta.
  eapply talk_bind; [apply talk_enter|]. intros ?; cbv beta. eapply talk_bind; [apply talk_verify|]. intros ok; cbv beta.
  assert (Hg : lines !! (n + 5)%nat = Some (chars "G0" ++ [13])) by (replace (n + 5)%nat with (n + 3 + 2)%nat by lia; by rewrite line_after).
  assert (Hsay : forall d h l, answered h d l -> said (n + 6) (l ++ [Tx (chars "G0" ++ [13])])).
  { intros d h l Hl. replace (n + 6)%nat with (S (n + 5)) by lia. eapply said_snoc; [done|]. by eapply answered_said. }
  destruct ok; cbn [negb].
  - apply (talk_bind _ _ _ (fun _ => good (n + 6))); [|intros _; apply talk_finish]. apply talk_send; intros l (d & h & Hl & Ha).
    + by eapply answered_cut.
    + exists (n + 6)%nat. split; [by eapply Hsay|lia].
    + split; [by eapply Hsay|]. intros _. rewrite <- Ha. by eapply answered_past.
  - apply (talk_bind _ _ _ (fun _ => ended 2)); [|intros _; by apply talk_ret]. apply talk_send; intros l (d & h & Hl & Ha).
    + by eapply answered_cut.
    + exists (n + 6)%nat. split; [by eapply Hsay|lia].
    + right. left. split_and!; [done|by eapply Hsay|]. rewrite <- Ha. by eapply answered_past.
Qed.
End Typed.
End Dialogue.

(** ** sioa_fix_via_ddt.py *)

Definition fix_lines : list str :=
  [[13]; chars "DDT" ++ [13]; chars "S100" ++ [13]] ++ map (fun b => fmt_hex 2 b ++ [13]) BYTES ++ [chars "." ++ [13]; chars "G100" ++ [13]].

Section Fix.
Context {G : Type} `{Console G} (turns : nat).
Definition fixed (k : nat) (l : list traffic) : Prop := map fst (latest l) = rev (take k fix_lines).
Definition fix_cut (l : list traffic) : Prop := exists k, fixed k l.

Lemma fix_say k s : fix_lines !! k = Some s -> talk (fixed k) (send s) (fun _ => fixed (S k)) fix_cut.
Proof.
  intros Hk. assert (Hs : forall l, fixed k l -> fixed (S k) (l ++ [Tx s])) by (intros l Hl; unfold fixed in *; rewrite latest_snoc; cbn [hear map fst]; by rewrite Hl, (take_S_r _ _ _ Hk), rev_app_distr).
  apply talk_send; intros l Hl; [by exists k|exists (S k); auto|auto].
Qed.
Lemma fix_hear k m : talk (fixed k) (read_until turns m) (fun _ => fixed k) fix_cut.
Proof. apply talk_wait_keeps; [|by exists k]. unfold fixed. intros l b <-. rewrite latest_snoc. by destruct (latest l) as [|[s h] d]. Qed.
Lemma fix_bytes l : forall k, (forall i b, l !! i = Some b -> fix_lines !! (k + i)%nat = Some (fmt_hex 2 b ++ [13])) ->
  talk (fixed k) (type_bytes turns l) (fun _ => fixed (k + length l)) fix_cut.
Proof.
  induction l as [|b l IH]; intros k Hl; cbn [type_bytes]; [apply talk_ret; by rewrite Nat.add_0_r|].
  eapply talk_bind; [apply fix_hear|]. intros ?; cbv beta. eapply talk_bind; [apply fix_say; rewrite <- (Nat.add_0_r k); by apply Hl|]. intros ?; cbv beta.
  cbn [length]. rewrite <- Nat.add_succ_comm. apply IH. intros i c Hi. rewrite Nat.add_succ_comm. by apply Hl.
Qed.

(** It types its program and starts it, whatever the machine answers. *)
Lemma fix_is_typed g : let '(r, t) := fix_sioa turns (Link g []) in
  match r with Ret c => c = 0 /\ map fst (dialogue (log t)) = fix_lines | Raise _ => exists k, map fst (dialogue (log t)) = take k fix_lines end.
Proof.
  assert (Ht : talk (fixed 0) (fix_sioa turns) (fun c l => c = 0 /\ fixed 24 l) fix_cut).
  { unfold fix_sioa. repeat (eapply talk_bind; [first [apply fix_hear | by apply fix_say | apply fix_bytes; intros i b Hi; apply lookup_lt_Some in Hi as Hlt; change (length BYTES) with 19%nat in Hlt;
      do 19 (destruct i as [|i]; [by injection Hi as <-|]); lia]|]; intros ?; cbv beta). by apply talk_ret. }
  specialize (Ht (Link g []) eq_refl). assert (Hd : forall k l, fixed k l -> map fst (dialogue l) = take k fix_lines) by (intros k l Hl; unfold dialogue, fixed in *; by rewrite map_rev, Hl, rev_involutive).
  destruct (fix_sioa turns (Link g [])) as [[c|e] t].
  - destruct Ht as [-> Hf]. split; [done|]. by rewrite (Hd _ _ Hf).
  - destruct Ht as [k Hk]. exists k. by apply Hd.
Qed.
End Fix.

(** ** The machine the lines are typed at *)

(** What ddt_deploy.py relies on, as its head describes it: DDT's S, dot, D and G0, and
    CP/M's SAVE.  [takes] are the file names CP/M takes. *)
Inductive mode : Type := Ccp | DDT | Setting (addr : Z).
Class Cpm (M : Type) : Type := {
  mode_of : M -> mode;
  memory : M -> Z -> Z;
  file : M -> str -> option bytes;
  enter : M -> bytes -> M;
  takes : str -> bool
}.
Class CpmLaws (M : Type) `{Cpm M} : Prop := {
  ccp_empty m : mode_of m = Ccp -> mode_of (enter m [13]) = Ccp;
  ccp_ddt m : mode_of m = Ccp -> mode_of (enter m (chars "DDT" ++ [13])) = DDT;
  ddt_set m a : mode_of m = DDT -> 0 <= a < 65536 -> mode_of (enter m (chars "S" ++ fmt_hex 4 a ++ [13])) = Setting a;
  set_byte m a b : mode_of m = Setting a -> 0 <= a < 65535 -> is_byte b -> let m' := enter m (fmt_hex 2 b ++ [13]) in
    mode_of m' = Setting (a + 1) /\ forall x, memory m' x = if x =? a then b else memory m x;
  set_dot m a : mode_of m = Setting a -> let m' := enter m (chars "." ++ [13]) in mode_of m' = DDT /\ forall x, memory m' x = memory m x;
  ddt_dump m a e : mode_of m = DDT -> 0 <= a < 65536 -> 0 <= e < 65536 ->
    let m' := enter m (chars "D" ++ fmt_hex 4 a ++ chars "," ++ fmt_hex 4 e ++ [13]) in mode_of m' = DDT /\ forall x, memory m' x = memory m x;
  ddt_go m : mode_of m = DDT -> let m' := enter m (chars "G0" ++ [13]) in mode_of m' = Ccp /\ forall x, 256 <= x -> memory m' x = memory m x;
  ccp_era m name : mode_of m = Ccp -> takes name = true -> let m' := enter m (chars "ERA " ++ name ++ [13]) in
    mode_of m' = Ccp /\ forall x, 256 <= x -> memory m' x = memory m x;
  ccp_save m n name : mode_of m = Ccp -> takes name = true -> 0 <= n < 256 ->
    file (enter m (chars "SAVE " ++ decimal n ++ [32] ++ name ++ [13])) name = Some (map (memory m) (seqZ 256 (256 * n)))
}.

Section Machine.
Context {M : Type} `{CpmLaws M}.

Lemma enter_set_bytes l : forall m a, mode_of m = Setting a -> 0 <= a -> a + zlength l <= 65535 -> all_bytes l ->
  let m' := foldl enter m (map (fun b => fmt_hex 2 b ++ [13]) l) in
  mode_of m' = Setting (a + zlength l) /\ (forall x, x < a -> memory m' x = memory m x) /\ map (memory m') (seqZ a (zlength l)) = l.
Proof.
  induction l as [|b l IH]; intros m a Hm Ha Hz Hl.
  - cbn [map foldl]. rewrite Hm, zlength_nil. split_and!; try done. f_equal. lia.
  - apply Forall_cons in Hl as [Hb Hl]. rewrite zlength_cons in *. pose proof (zlength_pos l). cbn [map foldl].
    destruct (set_byte m a b Hm ltac:(lia) Hb) as [S1 S2]. destruct (IH _ (a + 1) S1 ltac:(lia) ltac:(lia) Hl) as (I1 & I2 & I3). cbv zeta in *. split_and!.
    + rewrite I1. f_equal. lia.
    + intros x Hx. rewrite I2 by lia. rewrite S2. by rewrite (proj2 (Z.eqb_neq x a)) by lia.
    + rewrite seqZ_cons by lia. replace (Z.succ a) with (a + 1) by lia. replace (Z.pred (1 + zlength l)) with (zlength l) by lia. cbn [map]. rewrite I3, I2, S2, Z.eqb_refl by lia. done.
Qed.

(** The lines make the file. *)
Lemma lines_make_file data name m : all_bytes data -> 256 + zlength data < 65536 -> takes name = true -> mode_of m = Ccp ->
  exists rest, file (foldl enter m (entry_lines data ++ save_lines data name)) name = Some (data ++ rest) /\ zlength (data ++ rest) = 256 * pages data.
Proof.
  intros Hd Hz Hn Hm. pose proof (zlength_pos data). unfold entry_lines, set_lines, save_lines. rewrite <- !app_assoc. cbn [app foldl]. rewrite <- !app_assoc, foldl_app. cbn [app foldl].
  apply ccp_empty, ccp_ddt in Hm. apply (ddt_set _ 256) in Hm; [|lia]. destruct (enter_set_bytes data _ _ Hm ltac:(lia) ltac:(lia) Hd) as (S1 & _ & S3). cbv zeta in *.
  set (m1 := foldl enter _ _) in *. destruct (set_dot _ _ S1) as [D1 D2]. destruct (ddt_dump _ 256 (256 + zlength data - 1) D1 ltac:(lia) ltac:(lia)) as [E1 E2].
  fold (dump_command 256 data) in E1, E2. destruct (ddt_go _ E1) as [G1 G2]. destruct (ccp_era _ name G1 Hn) as [F1 F2]. cbv zeta in *.
  assert (Hp : 0 <= pages data < 256 /\ zlength data <= 256 * pages data) by (unfold pages; Z.div_mod_to_equations; lia).
  pose proof (ccp_save _ (pages data) name F1 Hn ltac:(lia)) as HS. set (m2 := enter _ (chars "ERA " ++ _)) in *.
  assert (Hmem : forall x, 256 <= x -> memory m2 x = memory m1 x) by (intros x Hx; by rewrite F2, G2, E2, D2 by lia).
  exists (map (memory m2) (seqZ (256 + zlength data) (256 * pages data - zlength data))). split.
  - etransitivity; [exact HS|]. f_equal. replace (256 * pages data) with (zlength data + (256 * pages data - zlength data)) at 1 by lia. rewrite seqZ_app by lia. rewrite map_app. f_equal.
    rewrite <- S3 at 2. apply map_ext_in. intros x Hx. apply Hmem. apply list_elem_of_In, elem_of_seqZ in Hx. lia.
  - rewrite zlength_app. unfold zlength at 2. rewrite length_map, length_seqZ. lia.
Qed.
End Machine.

(** ** The theorem *)

(** The reply to the dump command, and how it compares. *)
Definition compared (data : bytes) (d : list (bytes * bytes)) (ok : bool) : Prop :=
  exists h, d !! (length data + 4)%nat = Some (dump_command 256 data, h) /\ agrees (parse_dump (decode_ascii h)) 256 data = ok /\
    (forall rows tail, decode_ascii h = dump_reply data rows tail -> true_dump data rows tail -> bool_decide (data = dumped rows) = ok).

Lemma past_compared data ok l : 256 + zlength data <= 65536 -> past data ok l -> compared data (dialogue l) ok.
Proof.
  intros Hz (d1 & h & d2 & E & _ & Hlen & Ha). exists h. split_and!; [|done|].
  - unfold dialogue. rewrite E, rev_app_distr. cbn [rev]. rewrite <- app_assoc, lookup_app_r, length_rev, Hlen by (rewrite length_rev; lia). by rewrite Nat.sub_diag.
  - intros rows tail Eh Ht. rewrite <- Ha, Eh. symmetry. by apply dump_is_compared.
Qed.

Lemma said_dialogue data name run k l : said data name run k l -> map fst (dialogue l) = take k (all_lines data name run).
Proof. unfold said, dialogue. intros E. by rewrite map_rev, E, rev_involutive. Qed.

(** C36: ddt_deploy.py.  Whatever the machine answers, a run that returns has either
    found no prompt and typed nothing but a return (1); or typed the program and DDT's
    dump command, not found the program in the reply, and left DDT without erasing or
    saving anything (2); or found it there, and typed exactly the lines up to SAVE and,
    if asked for, the program's name (0).  A run that an exception ends has typed a
    beginning of these lines, ERA and SAVE only after the program was found in the
    reply.  A reply that is a true dump of the memory is judged correctly.  CP/M, typed
    these lines, ends with a file that holds the program and less than a page more. *)
Theorem deploy_saves_what_it_verified {G} `{Console G} (turns : nat) (data : bytes) (name : str) (run : bool) (g : G) :
  all_bytes data -> 256 + zlength data < 65536 ->
  let '(r, t) := deploy turns data name run (Link g []) in
  let d := dialogue (log t) in
  match r with
  | Ret c =>
      (c = 1 /\ exists h, d = [([13], h)] /\ contains (chars "A>") (decode_ascii h) = false) \/
      (c = 2 /\ map fst d = entry_lines data ++ [chars "G0" ++ [13]] /\ compared data d false) \/
      (c = 0 /\ map fst d = entry_lines data ++ save_lines data name ++ run_lines name run /\ compared data d true /\
        forall (M : Type) (C : Cpm M), CpmLaws M -> forall m, takes name = true -> mode_of m = Ccp ->
          exists rest, file (foldl enter m (entry_lines data ++ save_lines data name)) name = Some (data ++ rest) /\
            zlength (data ++ rest) = 256 * pages data /\ zlength rest < 256)
  | Raise _ => exists k, map fst d = take k (entry_lines data ++ save_lines data name ++ run_lines name run) /\ ((length data + 6 < k)%nat -> compared data d true)
  end.
Proof.
  intros Hd Hz. pose proof (talk_deploy turns data name run (Link g []) eq_refl) as Ht. destruct (deploy turns data name run (Link g [])) as [[c|e] t]; cbv zeta.
  - destruct Ht as [(-> & h & Hl & Hc) | [(-> & Hs & Hp) | (-> & Hs & Hp)]].
    + left. split; [done|]. exists h. unfold dialogue. by rewrite Hl.
    + right. left. apply said_dialogue in Hs. apply past_compared in Hp; [|lia]. split_and!; try done. rewrite Hs. unfold all_lines.
      rewrite take_app_ge by (unfold entry_lines, set_lines; rewrite !length_app; cbn [length]; rewrite length_app, length_map; cbn [length]; lia).
      f_equal. unfold entry_lines, set_lines. rewrite !length_app. cbn [length]. rewrite length_app, length_map. cbn [length].
      by replace (length data + 6 - _)%nat with 1%nat by lia.
    + right. right. apply said_dialogue in Hs. apply past_compared in Hp; [|lia]. rewrite take_ge in Hs by done. split_and!; try done.
      intros M C HC m Hn Hm. destruct (lines_make_file data name m Hd Hz Hn Hm) as (rest & H1 & H2). exists rest. split_and!; try done.
      rewrite zlength_app in H2. unfold pages in H2. pose proof (zlength_pos data). Z.div_mod_to_equations. lia.
  - destruct Ht as (k & Hs & Hp). exists k. split; [by apply said_dialogue|]. intros Hk. apply past_compared; [lia|]. by apply Hp.
Qed.

(** A console that answers each text at once. *)
#[local] Instance answering : Console (bytes * list bytes) := {
  c_write _ := fun '(p, l) => match l with a :: l' => (Ret tt, (p ++ a, l')) | [] => (Ret tt, (p, [])) end;
  c_read := fun '(p, l) => (Ret p, ([], l));
  c_late := fun s => (Ret false, s)
}.
(** A machine with nothing in it but these commands. *)
Record toy : Type := Toy { t_mode : mode; t_memory : Z -> Z; t_file : str -> option bytes }.
Definition toy_enter (m : toy) (line : bytes) : toy :=
  let at_ x := Toy x (t_memory m) (t_file m) in
  match t_mode m with
  | Ccp =>
      match split_on 32 line with
      | [v; n; f] => if bool_decide (v = chars "SAVE") then Toy Ccp (t_memory m) (fun x => if bool_decide (x = removelast f) then Some (map (t_memory m) (seqZ 256 (256 * value 0 n))) else t_file m x) else m
      | [v; f] => if bool_decide (v = chars "ERA") then Toy Ccp (t_memory m) (fun x => if bool_decide (x = removelast f) then None else t_file m x) else m
      | _ => if bool_decide (line = chars "DDT" ++ [13]) then at_ DDT else m
      end
  | DDT =>
      match line with
      | [83; a; b; c; d; 13] => match hexval a, hexval b, hexval c, hexval d with Some w, Some x, Some y, Some z => at_ (Setting (((w * 16 + x) * 16 + y) * 16 + z)) | _, _, _, _ => m end
      | [71; 48; 13] => at_ Ccp
      | _ => m
      end
  | Setting a =>
      if bool_decide (line = chars "." ++ [13]) then at_ DDT else
      match line with
      | [c; d; _] => match hexval c, hexval d with Some x, Some y => Toy (Setting (a + 1)) (fun z => if z =? a then x * 16 + y else t_memory m z) (t_file m) | _, _ => m end
      | _ => m
      end
  end.
#[local] Instance toy_cpm : Cpm toy := {
  mode_of := t_mode; memory := t_memory; file := t_file; enter := toy_enter; takes name := forallb (fun c => negb (c =? 32)) name
}.
#[local] Instance toy_laws : CpmLaws toy.
Proof.
  assert (Hsp : forall name, takes name = true -> 32 ∉ name ++ [13]).
  { intros name Hn Hin. apply elem_of_app in Hin as [Hin|Hin%list_elem_of_singleton]; [|done]. apply list_elem_of_In, (proj1 (forallb_forall _ _) Hn) in Hin. lia. }
  split; unfold mode_of, memory, file, enter, toy_cpm; cbv zeta.
  - intros m Hm. unfold toy_enter. by rewrite Hm.
  - intros m Hm. unfold toy_enter. by rewrite Hm.
  - intros m a Hm Ha. destruct (hex4_text a Ha) as (x & y & z & w & ? & ? & ? & ? & -> & H1 & H2 & H3 & H4 & <-). unfold toy_enter. rewrite Hm. cbn [app]. change (chars "S") with [83]. cbn. by rewrite H1, H2, H3, H4.
  - intros m a b Hm Ha Hb. destruct (hex2_text b Hb) as (x & y & -> & H1 & H2). unfold toy_enter. rewrite Hm. cbn [app]. rewrite bool_decide_eq_false_2 by done. rewrite H1, H2. split; [done|].
    intros z. cbn [t_memory]. destruct (z =? a); [|done]. Z.div_mod_to_equations. lia.
  - intros m a Hm. unfold toy_enter. by rewrite Hm.
  - intros m a e Hm Ha He. unfold toy_enter. rewrite Hm. change (chars "D") with [68]. by cbn [app].
  - intros m Hm. unfold toy_enter. by rewrite Hm.
  - intros m name Hm Hn. unfold toy_enter. rewrite Hm. change (chars "ERA ") with (chars "ERA" ++ [32]). rewrite <- app_assoc. cbn [app].
    rewrite split_on_app, (split_on_none _ (name ++ [13])) by by apply Hsp. done.
  - intros m n name Hm Hn Hr. unfold toy_enter. rewrite Hm. change (chars "SAVE ") with (chars "SAVE" ++ [32]). rewrite <- app_assoc. cbn [app].
    rewrite !split_on_app, (split_on_none _ (name ++ [13])) by by apply Hsp. destruct (decimal_ok n ltac:(lia)) as (Hd & Hv & _).
    rewrite (split_on_none _ (decimal n)) by (intros Hin; apply list_elem_of_In, (proj1 (List.Forall_forall _ _) Hd) in Hin; done).
    change (split_on 32 (chars "SAVE")) with [chars "SAVE"]. cbn [app].
    rewrite (bool_decide_eq_true_2 (chars "SAVE" = chars "SAVE")) by done. cbn [t_file]. rewrite removelast_last, bool_decide_eq_true_2, Hv by done. done.
Qed.

Definition answers : bytes * list bytes := ([], map chars ["
A>"; "DDT
-"; "S0100
0100 00 "; "F3
0101 00 "; "C9
0102 00 "; ".
-"; "D0100,0101
0100 F3 C9  ..
-"; "
A>"; "ERA A.COM
A>"; "SAVE 1 A.COM
A>"; "A
A>"]%string).

Lemma deploy_saves_what_it_verified_witness :
  let tried := deploy 5 [0xF3; 0xC9] (chars "A.COM") true (Link answers []) in
  fst tried = Ret 0 /\ map fst (dialogue (log (snd tried))) = entry_lines [0xF3; 0xC9] ++ save_lines [0xF3; 0xC9] (chars "A.COM") ++ [chars "A" ++ [13]] /\
  exists rest, file (foldl enter (Toy Ccp (fun _ => 0) (fun _ => None)) (entry_lines [0xF3; 0xC9] ++ save_lines [0xF3; 0xC9] (chars "A.COM"))) (chars "A.COM") = Some ([0xF3; 0xC9] ++ rest) /\
    zlength ([0xF3; 0xC9] ++ rest) = 256.
Proof.
  cbv zeta. pose proof (deploy_saves_what_it_verified 5 [0xF3; 0xC9] (chars "A.COM") true answers ltac:(decided) ltac:(done)) as H.
  assert (E : fst (deploy 5 [0xF3; 0xC9] (chars "A.COM") true (Link answers [])) = Ret 0) by (vm_compute; reflexivity).
  destruct (deploy _ _ _ _ _) as [r t]. cbn [fst snd] in *. subst r. cbv zeta in H. destruct H as [[H _]|[[H _]|(_ & Hl & _ & Hf)]]; [done|done|].
  split_and!; [done|exact Hl|]. destruct (Hf toy _ toy_laws (Toy Ccp (fun _ => 0) (fun _ => None)) eq_refl eq_refl) as (rest & H1 & H2 & _). by exists rest.
Defined.

(** A true dump of that memory, for the text that comes back. *)
Example a_true_dump : true_dump [0xF3; 0xC9] [([0xF3; 0xC9], chars " ..")] (chars "-").
Proof. split_and!; try done. cbn [in_rows]. split_and!; try done; [decided|cbn; lia|cbn; lia]. Qed.
