(* ===== verification/Siob.v ===== *)
(** * The serial servers: rcbios-in-c/siob_*.py, sysgen_serial_server.py, sio_b_driver.py.

    Programs between a machine's serial lines and the rest: siob_deploy_server.py types a
    system's installation and feeds PIP the HEX file ([deploy_main]), siob_iobyte_server.py
    and sysgen_serial_server.py feed a file ([iobyte_main], [sysgen_main]),
    siob_console_server.py types commands and keeps what comes back ([console_main]),
    siob_interactive.py and siob_daemon.py join a terminal or a FIFO to the line
    ([interactive_main], [daemon_main]), sio_b_driver.py waits for a text and answers it
    ([driver_main]).

    The lines, the trigger files of the emulator's scripts and the clock are the interface
    [Wires], of which nothing is assumed but, where it says so, how much a read may
    return; the log of a [desk] is what the program did.  The [while True] loops take fuel.
    Sleeps, printed messages, the set-up and closing of sockets, terminals and files
    are left out. *)

From S2P Require Import Prelude Imd Hex Text Gdb Ddt.
#[local] Open Scope Z_scope.

(** ** The interface *)

(** [Con] is the console line, [Dat] the data line, [Key] the terminal or the FIFO. *)
Inductive port : Type := Con | Dat | Key.
#[export] Instance port_eq_dec : EqDecision port.
Proof. solve_decision. Defined.

(** [sendall]; [recv], empty when the other side has closed; whether a wait is over;
    [os.path.exists(trigger)]; [open(trigger).read()], nothing when it is not there;
    what [select] finds ready, the line and the terminal; [in_waiting]; opening the FIFO
    again. *)
Class Wires (G : Type) : Type := {
  w_sendall : port -> bytes -> stM G unit;
  w_recv : port -> stM G bytes;
  w_late : stM G bool;
  w_exists : stM G bool;
  w_text : stM G (option str);
  w_ready : stM G (bool * bool);
  w_waiting : stM G bool;
  w_reopen : stM G unit
}.

(** What a program did: sent, received, removed the trigger, showed (on the terminal or
    in its log), wrote a file. *)
Inductive entry : Type :=
  | Sent (p : port) (b : bytes) | Got (p : port) (b : bytes) | Unlinked | Shown (s : str) | Wrote (name text : str).
#[export] Instance entry_eq_dec : EqDecision entry.
Proof. solve_decision. Defined.

Definition is_timeout (e : exn) : bool := match e with TimeoutError => true | _ => false end.
Definition is_connection (e : exn) : bool := match e with ConnectionError => true | _ => false end.
Definition is_interrupt (e : exn) : bool := match e with KeyboardInterrupt => true | _ => false end.

Section Siob.
Context {G : Type} `{Wires G} (turns : nat).

Record desk : Type := Desk { wires : G; log : list entry }.

Definition note (e : entry) : stM desk unit := modify (fun t => Desk (wires t) (log t ++ [e])).
(** Something that leaves no trace in the log. *)
Definition quietly {A} (m : stM G A) : stM desk A := fun t => let '(r, g) := m (wires t) in (r, Desk g (log t)).
Definition sendall (p : port) (b : bytes) : stM desk unit := note (Sent p b);; quietly (w_sendall p b).
Definition recv (p : port) : stM desk bytes := b ← quietly (w_recv p); note (Got p b);; mret b.
(** [recv], or nothing when the socket's time is over. *)
Definition try_recv (p : port) : stM desk (option bytes) := catch is_timeout (b ← recv p; mret (Some b)) (fun _ => mret None).

(** Until the text is there, the other side closes or the time is over. *)
Fixpoint wait_from (fuel : nat) (p : port) (needle : str) (buf : bytes) : stM desk bytes :=
  match fuel with
  | O => raise OutOfFuel
  | S fuel' =>
      over ← quietly w_late;
      if over : bool then mret buf else
      chunk ← try_recv p;
      match chunk with
      | None => wait_from fuel' p needle buf
      | Some [] => mret buf
      | Some chunk => let buf := buf ++ chunk in if contains needle buf then mret buf else wait_from fuel' p needle buf
      end
  end.
Definition wait_for (p : port) (needle : str) : stM desk bytes := wait_from turns p needle [].

(** The last loop of the servers: until the other side is gone. *)
Fixpoint until_closed (fuel : nat) : stM desk unit :=
  match fuel with
  | O => raise OutOfFuel
  | S fuel' =>
      more ← catch is_connection (d ← recv Con; mret (negb (bool_decide (d = [])))) (fun _ => mret false);
      if more : bool then until_closed fuel' else mret tt
  end.

(** ** siob_deploy_server.py *)

Fixpoint wait_trigger (n : nat) : stM desk bool :=
  match n with
  | O => mret false
  | S n' => there ← quietly w_exists; if there : bool then note Unlinked;; mret true else wait_trigger n'
  end.

(** [while True] with only the time-out to leave it by. *)
Fixpoint drain (fuel : nat) : stM desk unit :=
  match fuel with
  | O => raise OutOfFuel
  | S fuel' => r ← try_recv Con; match r with None => mret tt | Some _ => drain fuel' end
  end.

Definition send_cmd (cmd expect : str) : stM desk (bytes * bool) :=
  sendall Con (cmd ++ [13]);;
  data ← wait_for Con expect;
  mret (data, contains expect data).

(** The lines of the HEX file. *)
Definition hex_line (line : bytes) : option bytes := match rstrip_with (fun c => c =? 13) line with [] => None | l => Some (l ++ [13; 10]) end.
Fixpoint send_lines (lines : list bytes) : stM desk unit :=
  match lines with
  | [] => mret tt
  | line :: lines' => match hex_line line with None => send_lines lines' | Some l => sendall Dat l;; send_lines lines' end
  end.

Definition deploy_main (hex_data : bytes) : stM desk Z :=
  there ← wait_trigger 120;
  if negb there then mret 2 else
  drain turns;;
  sendall Con (chars "PIP CPM56.HEX=RDR:" ++ [13]);;
  send_lines (split_on 10 hex_data);;
  sendall Dat [26];;
  data ← wait_for Con (chars "A>");
  if negb (contains (chars "A>") data) then mret 3 else
  '(data, ok) ← send_cmd (chars "MLOAD CPM56.COM=BDOSCCP.COM,CPM56.HEX") (chars "A>");
  if negb ok then mret 4 else
  send_cmd (chars "CPM56") (chars "OK");;
  '(data, ok) ← send_cmd (chars "SYSGEN CPM56.COM") (chars "DESTINATION DRIVE");
  if negb ok then mret 5 else
  sendall Con (chars "A" ++ [13]);;
  wait_for Con (chars "DESTINATION ON A");;
  sendall Con [13];;
  wait_for Con (chars "FUNCTION COMPLETE");;
  note (Wrote (chars "/tmp/siob_deploy_done") (chars "done" ++ [10]));;
  until_closed turns;;
  mret 0.

(** ** siob_iobyte_server.py and sysgen_serial_server.py *)

Fixpoint wait_go (n : nat) : stM desk bool :=
  match n with
  | O => mret false
  | S n' =>
      t ← quietly w_text;
      if bool_decide (option_map (strip_with py_space) t = Some (chars "go")) then mret true else wait_go n'
  end.

(** [for i in range(0, len(data), 32): sendall(data[i:i + 32])], [n] at a time. *)
Fixpoint pieces (fuel : nat) (n : nat) (data : bytes) : list bytes :=
  match fuel with O => [] | S fuel' => match data with [] => [] | _ => take n data :: pieces fuel' n (drop n data) end end.
Fixpoint send_pieces (l : list bytes) : stM desk unit := match l with [] => mret tt | b :: l' => sendall Con b;; send_pieces l' end.
Definition feed (data : bytes) : stM desk unit := send_pieces (pieces (length data) 32 data);; sendall Con [26].

Definition iobyte_main (data : bytes) : stM desk Z :=
  go ← wait_go 600;
  if negb go then mret 2 else
  note Unlinked;;
  feed data;;
  until_closed turns;;
  mret 0.

Definition sysgen_main (data : bytes) : stM desk unit :=
  go ← wait_go 600;
  if negb go then raise (SystemExit 1) else
  note Unlinked;;
  feed data.

(** ** siob_console_server.py *)

Definition COMMANDS : list bytes := [chars "DIR" ++ [13]; chars "ASM FILEX" ++ [13]; chars "TYPE FILEX.PRN" ++ [13]].

Fixpoint wait_trigger_os (n : nat) : stM desk bool :=
  match n with
  | O => mret false
  | S n' => there ← try_os (there ← quietly w_exists; if there : bool then note Unlinked;; mret true else mret false) false; if there : bool then mret true else wait_trigger_os n'
  end.

Fixpoint drain_output (fuel : nat) (all_output : bytes) : stM desk bytes :=
  match fuel with
  | O => raise OutOfFuel
  | S fuel' => r ← try_recv Con; match r with None | Some [] => mret all_output | Some chunk => drain_output fuel' (all_output ++ chunk) end
  end.

Fixpoint wait_text (fuel : nat) (p : port) (needle : str) (buf : bytes) : stM desk bytes :=
  match fuel with
  | O => raise OutOfFuel
  | S fuel' =>
      over ← quietly w_late;
      if over : bool then mret buf else
      chunk ← try_recv p;
      match chunk with
      | None => wait_text fuel' p needle buf
      | Some [] => mret buf
      | Some chunk => let buf := buf ++ chunk in if contains needle (decode_ascii buf) then mret buf else wait_text fuel' p needle buf
      end
  end.

Fixpoint run_commands (cmds : list bytes) (all_output : bytes) : stM desk bytes :=
  match cmds with
  | [] => mret all_output
  | cmd :: cmds' => sendall Con cmd;; data ← wait_text turns Con (chars "A>") []; run_commands cmds' (all_output ++ data)
  end.

(** The exit status is 2 or nothing. *)
Definition console_main : stM desk (option Z) :=
  there ← wait_trigger_os 120;
  if negb there then mret (Some 2) else
  all_output ← drain_output turns [];
  all_output ← run_commands COMMANDS all_output;
  note (Wrote (chars "/tmp/siob_console_serial.txt") (decode_ascii all_output));;
  note (Wrote (chars "/tmp/siob_console_done") (chars "done" ++ [10]));;
  until_closed turns;;
  mret None.

(** ** siob_interactive.py *)

Definition ESC : Z := 29.
(** The loop over what was typed: what to send, whether an escape is pending, and
    whether it was the end. *)
Fixpoint translate (escape_pending : bool) (data : bytes) : bytes * bool * bool :=
  match data with
  | [] => ([], escape_pending, false)
  | b :: data' =>
      if escape_pending then
        if (b =? 113) || (b =? 81) then ([], false, true) else
        let '(out, e, q) := translate false data' in (ESC :: b :: out, e, q)
      else if b =? ESC then translate true data'
      else let '(out, e, q) := translate false data' in ((if b =? 10 then 13 else b) :: out, e, q)
  end.

(** [try: ... except OSError: break]. *)
Definition or_break {A} (m : stM desk A) : stM desk (option A) := try_os (x ← m; mret (Some x)) None.

(** What was typed: the escape state to go on with, or the end. *)
Definition from_terminal (escape_pending : bool) : stM desk (option bool) :=
  data ← or_break (recv Key);
  match data with
  | None | Some [] => mret None
  | Some data =>
      let '(out, e, q) := translate escape_pending data in
      if q : bool then mret None else
      match out with
      | [] => mret (Some e)
      | _ => ok ← or_break (sendall Con out); mret (option_map (fun _ => e) ok)
      end
  end.
(** What came over the line: whether to go on. *)
Definition to_terminal : stM desk bool :=
  chunk ← or_break (recv Con);
  match chunk with None | Some [] => mret false | Some chunk => note (Shown chunk);; mret true end.

Fixpoint interact (fuel : nat) (escape_pending : bool) : stM desk unit :=
  match fuel with
  | O => raise OutOfFuel
  | S fuel' =>
      '(line, key) ← quietly w_ready;
      e ← (if key : bool then from_terminal escape_pending else mret (Some escape_pending));
      match e with
      | None => mret tt
      | Some e =>
          more ← (if line : bool then to_terminal else mret true);
          if more : bool then interact fuel' e else mret tt
      end
  end.
Definition interactive_main : stM desk Z := interact turns false;; mret 0.

(** ** siob_daemon.py *)

Definition ENQ : Z := 5.
Definition notice : str := chars "[siob] ENQ" ++ [8594] ++ chars "ACK (boot probe)" ++ [10].
(** The loop over the bytes received. *)
Fixpoint answer_probes (data : bytes) : stM desk unit :=
  match data with
  | [] => mret tt
  | b :: data' => (if b =? ENQ then sendall Con [6];; note (Shown notice) else mret tt);; answer_probes data'
  end.
Definition without_probes (data : bytes) : str := decode_ascii (List.filter (fun b => negb (b =? ENQ)) data).
Definition from_serial : stM desk unit :=
  data ← recv Con;
  answer_probes data;;
  match without_probes data with [] => mret tt | text => note (Shown text) end.
Definition from_fifo : stM desk unit :=
  catch is_os_error (cmd ← recv Key; match cmd with [] => quietly w_reopen | _ => sendall Con cmd end) (fun _ => quietly w_reopen).

(** [except (ValueError, OSError)] around [select]. *)
Definition is_select_error (e : exn) : bool := match e with ValueError => true | e => is_os_error e end.
Definition daemon_turn : stM desk unit :=
  r ← catch (A := option (bool * bool)) is_select_error (r ← quietly w_ready; mret (Some r)) (fun _ => try_os (quietly w_reopen) tt;; mret None);
  match r with
  | None => mret tt
  | Some (line, fifo) =>
      some ← (if line : bool then mret true else quietly w_waiting);
      (if some : bool then from_serial else mret tt);;
      (if fifo : bool then from_fifo else mret tt)
  end.
Fixpoint daemon_loop (fuel : nat) : stM desk unit := match fuel with O => raise OutOfFuel | S fuel' => daemon_turn;; daemon_loop fuel' end.
(** [try: ... except KeyboardInterrupt: pass finally: output(...)], after the first line. *)
Definition daemon_main (port_name : str) : stM desk unit :=
  note (Shown (chars "[siob] daemon started on " ++ port_name ++ chars " @ 38400" ++ [10]));;
  (fun t => let '(r, t') := catch is_interrupt (daemon_loop turns) (fun _ => mret tt) t in
    let '(_, t'') := note (Shown (chars "[siob] daemon stopping" ++ [10])) t' in (r, t'')) : stM desk unit.

(** ** sio_b_driver.py *)

(** [del buf[:-4096]] of a longer buffer. *)
Definition window (buf : bytes) : bytes := if (4096 <? zlength buf) then dropZ (zlength buf - 4096) buf else buf.

Fixpoint drive (fuel : nat) (trigger inject : bytes) (buf : bytes) (armed : bool) : stM desk unit :=
  match fuel with
  | O => raise OutOfFuel
  | S fuel' =>
      over ← quietly w_late;
      if over : bool then mret tt else
      data ← try_recv Con;
      match data with
      | None => drive fuel' trigger inject buf armed
      | Some [] => mret tt
      | Some data =>
          note (Shown data);;
          let buf := window (buf ++ data) in
          if armed && contains trigger buf then
            sendall Con inject;; drive fuel' trigger inject buf false
          else drive fuel' trigger inject buf armed
      end
  end.
Definition driver_main (trigger inject : bytes) : stM desk Z :=
  drive turns trigger inject [] (negb (bool_decide (trigger = [])));; mret 0.
End Siob.
Arguments desk : clear implicits.
Arguments Desk {G}.

(** ** Logs *)

Definition same (p q : port) : bool := match p, q with Con, Con | Dat, Dat | Key, Key => true | _, _ => false end.
(** What was sent to and received from a port, in pieces and whole; what was shown. *)
Definition sends (p : port) (l : list entry) : list bytes := omap (fun e => match e with Sent q b => if same q p then Some b else None | _ => None end) l.
Definition gots (p : port) (l : list entry) : list bytes := omap (fun e => match e with Got q b => if same q p then Some b else None | _ => None end) l.
Definition sent (p : port) (l : list entry) : bytes := concat (sends p l).
Definition got (p : port) (l : list entry) : bytes := concat (gots p l).
Definition shown (l : list entry) : str := concat (omap (fun e => match e with Shown s => Some s | _ => None end) l).

Lemma sends_snoc p l e : sends p (l ++ [e]) = sends p l ++ match e with Sent q b => if same q p then [b] else [] | _ => [] end.
Proof. unfold sends. rewrite omap_app. destruct e; cbn; try done. by destruct (same _ _). Qed.
Lemma sent_snoc p l e : sent p (l ++ [e]) = sent p l ++ match e with Sent q b => if same q p then b else [] | _ => [] end.
Proof. unfold sent. rewrite sends_snoc, concat_app. f_equal. destruct e; try done. destruct (same _ _); [apply app_nil_r|done]. Qed.
Lemma gots_snoc p l e : gots p (l ++ [e]) = gots p l ++ match e with Got q b => if same q p then [b] else [] | _ => [] end.
Proof. unfold gots. rewrite omap_app. destruct e; cbn; try done. by destruct (same _ _). Qed.
Lemma got_snoc p l e : got p (l ++ [e]) = got p l ++ match e with Got q b => if same q p then b else [] | _ => [] end.
Proof. unfold got. rewrite gots_snoc, concat_app. f_equal. destruct e; try done. destruct (same _ _); [apply app_nil_r|done]. Qed.
Lemma shown_snoc l e : shown (l ++ [e]) = shown l ++ match e with Shown s => s | _ => [] end.
Proof. unfold shown. rewrite omap_app, concat_app. f_equal. destruct e; try done. apply app_nil_r. Qed.
Create Rewrite HintDb snoc.
#[export] Hint Rewrite sends_snoc sent_snoc gots_snoc got_snoc shown_snoc : snoc.
Ltac snoc := autorewrite with snoc; cbn [same]; rewrite ?app_nil_r.

Section Rules.
Context {G : Type} `{Wires G}.
Implicit Types P : list entry -> Prop.

(** From a log with [P], [m] ends with [Q], or with an exception and [E]. *)
Definition acts {A} P (m : stM (desk G) A) (Q : A -> list entry -> Prop) (E : list entry -> Prop) : Prop :=
  hoare (fun t => P (log t)) m (fun a t => Q a (log t)) (fun _ t => E (log t)).

Lemma acts_ret {A} (a : A) P (Q : A -> _) E : (forall l, P l -> Q a l) -> acts P (mret a) Q E.
Proof. intros H0. apply hoare_ret. auto. Qed.
Lemma acts_raise {A} e P (Q : A -> _) (E : _ -> Prop) : (forall l, P l -> E l) -> acts P (raise e) Q E.
Proof. intros H0 t Ht. by apply H0. Qed.
Lemma acts_bind {A B} (m : stM (desk G) A) (f : A -> stM (desk G) B) P R Q E : acts P m R E -> (forall a, acts (R a) (f a) Q E) -> acts P (m ≫= f) Q E.
Proof. apply (hoare_bind m f (fun t => P (log t)) (fun a t => R a (log t))). Qed.
Lemma acts_conseq {A} (m : stM (desk G) A) P P' (Q Q' : A -> _) (E E' : _ -> Prop) : acts P' m Q' E' -> (forall l, P l -> P' l) -> (forall a l, Q' a l -> Q a l) -> (forall l, E' l -> E l) ->
  acts P m Q E.
Proof. intros Hm HP HQ HE. exact (hoare_conseq m _ _ _ _ _ _ Hm (fun s => HP (log s)) (fun a s => HQ a (log s)) (fun _ s => HE (log s))). Qed.
Lemma acts_catch {A} caught (m : stM (desk G) A) h P Q E F : acts P m Q F -> (forall e, acts F (h e) Q E) -> (forall l, F l -> E l) -> acts P (catch caught m h) Q E.
Proof. intros Hm Hh HF. eapply hoare_catch; [exact Hm|intros e _; apply Hh|intros e s _; apply HF]. Qed.

Lemma acts_pure {A} (X : Prop) (m : stM (desk G) A) P (Q : A -> _) E : (X -> acts P m Q E) -> acts (fun l => P l /\ X) m Q E.
Proof. intros Hm t [Ht Hx]. by apply Hm. Qed.

Lemma acts_note e P (Q : unit -> _) E : (forall l, P l -> Q tt (l ++ [e])) -> acts P (note e) Q E.
Proof. intros H0 t Ht. by apply H0. Qed.
Lemma acts_quietly {A} (m : stM G A) P (E : _ -> Prop) : (forall l, P l -> E l) -> acts P (quietly m) (fun _ => P) E.
Proof. intros H0 t Ht. unfold quietly. destruct (m (wires t)) as [[a|e] g]; [done|by apply H0]. Qed.
Lemma acts_sendall p b P (Q : unit -> _) (E : _ -> Prop) : (forall l, P l -> Q tt (l ++ [Sent p b])) -> (forall l, P l -> E (l ++ [Sent p b])) -> acts P (sendall p b) Q E.
Proof.
  intros HQ HE t Ht. unfold sendall, note, modify, mbind, stM_bind, quietly. cbn [wires log]. destruct (w_sendall p b (wires t)) as [[[]|e] g]; [by apply HQ|by apply HE].
Qed.
Lemma acts_recv p P (Q : bytes -> _) (E : _ -> Prop) : (forall l b, P l -> Q b (l ++ [Got p b])) -> (forall l, P l -> E l) -> acts P (recv p) Q E.
Proof. intros HQ HE t Ht. unfold recv, quietly, note, modify, mbind, stM_bind. destruct (w_recv p (wires t)) as [[b|e] g]; [by apply HQ|by apply HE]. Qed.
Lemma acts_try_recv p P (Q : option bytes -> _) (E : _ -> Prop) : (forall l b, P l -> Q (Some b) (l ++ [Got p b])) -> (forall l, P l -> Q None l) -> (forall l, P l -> E l) ->
  acts P (try_recv p) Q E.
Proof.
  intros HQ HN HE. unfold try_recv. apply (acts_catch _ _ _ _ _ _ P); [|intros e; by apply acts_ret|done].
  apply (acts_bind _ _ _ (fun b => Q (Some b))); [by apply acts_recv|]. intros b. by apply acts_ret.
Qed.
Lemma acts_or_break {A} (m : stM (desk G) A) P (Q : option A -> _) (E : _ -> Prop) : acts P m (fun a => Q (Some a)) E -> (forall l, E l -> Q None l) -> acts P (or_break m) Q E.
Proof.
  intros Hm HE. unfold or_break, try_os. apply (acts_catch _ _ _ _ _ _ E); [|intros e; by apply acts_ret|done].
  eapply acts_bind; [exact Hm|]. intros a; cbv beta. by apply acts_ret.
Qed.
End Rules.

(** ** siob_interactive.py *)

Lemma translate_app a : forall e b, translate e (a ++ b) =
  let '(o, e1, q) := translate e a in if q then (o, e1, true) else let '(o2, e2, q2) := translate e1 b in (o ++ o2, e2, q2).
Proof.
  induction a as [|x a IH]; intros e b; cbn [app translate]; [by destruct (translate e b) as [[o e2] q2]|].
  destruct e; [destruct ((x =? 113) || (x =? 81)); [done|]|destruct (x =? ESC); [apply IH|]];
    rewrite IH; destruct (translate false a) as [[o e1] []]; try done; by destruct (translate e1 b) as [[o2 e2] q2].
Qed.

Section Interactive.
Context {G : Type} `{Wires G} (turns : nat).

(** All that was typed was sent, and all that came shown. *)
Definition joined (e : bool) (l : list entry) : Prop := translate false (got Key l) = (sent Con l, e, false) /\ shown l = got Con l.
(** ... but, at the end, what was read together with the escape sequence. *)
Definition left_off (l : list entry) : Prop :=
  shown l = got Con l /\ exists typed rest e, got Key l = typed ++ rest /\ translate false typed = (sent Con l, e, false) /\
    (rest = [] \/ snd (translate e rest) = true /\ exists l0, l = l0 ++ [Got Key rest]).

Lemma joined_left e l : joined e l -> left_off l.
Proof. intros [H1 H2]. split; [done|]. exists (got Key l), [], e. rewrite app_nil_r. auto. Qed.

Lemma acts_from_terminal e : acts (joined e) (from_terminal e) (fun r => match r with Some e' => joined e' | None => left_off end) left_off.
Proof.
  unfold from_terminal. apply (acts_bind _ _ _ (fun d l => match d with Some b => exists l0, l = l0 ++ [Got Key b] /\ joined e l0 | None => left_off l end)).
  { apply acts_or_break; [|done]. apply acts_recv; [intros l b Hl; by exists l|by apply joined_left]. }
  intros [[|b0 b]|]; [apply acts_ret|..].
  { intros l (l0 & -> & H1 & H2). split; snoc; [done|]. exists (got Key l0), [], e. rewrite app_nil_r. auto. }
  2: by apply acts_ret.
  set (d := b0 :: b). clearbody d. destruct (translate e d) as [[out e'] q] eqn:Et.
  assert (Hj : forall l0, joined e l0 -> translate false (got Key (l0 ++ [Got Key d])) = if q then (sent Con l0 ++ out, e', true) else (sent Con l0 ++ out, e', false)).
  { intros l0 [H1 _]. rewrite got_snoc. cbn [same]. rewrite translate_app, H1, Et. by destruct q. }
  destruct q.
  - apply acts_ret. intros l (l0 & -> & H1 & H2). split; [by snoc|]. exists (got Key l0), d, e. snoc.
    split_and!; try done. right. rewrite Et. split; [done|]. by exists l0.
  - assert (Hs : forall l0, joined e l0 -> joined e' ((l0 ++ [Got Key d]) ++ [Sent Con out])).
    { intros l0 Hl. split; [|destruct Hl as [_ Hl]; snoc; done]. rewrite got_snoc, app_nil_r, (Hj _ Hl). by snoc. }
    destruct out as [|o out].
    + apply acts_ret. intros l (l0 & -> & Hl). split; [rewrite (Hj _ Hl); by snoc|]. destruct Hl as [_ Hl]. by snoc.
    + apply (acts_bind _ _ _ (fun ok => match ok with Some _ => joined e' | None => left_off end)).
      * apply acts_or_break; [|done]. apply acts_sendall; intros l (l0 & -> & Hl); [by apply Hs|by eapply joined_left, Hs].
      * intros [u|]; by apply acts_ret.
Qed.

Lemma acts_to_terminal e : acts (joined e) to_terminal (fun more => if more : bool then joined e else left_off) left_off.
Proof.
  unfold to_terminal. apply (acts_bind _ _ _ (fun d l => match d with Some b => exists l0, l = l0 ++ [Got Con b] /\ joined e l0 | None => left_off l end)).
  { apply acts_or_break; [|done]. apply acts_recv; [intros l b Hl; by exists l|by apply joined_left]. }
  intros [[|b0 b]|]; [apply acts_ret|..|by apply acts_ret].
  - intros l (l0 & -> & Hl). apply (joined_left e). destruct Hl as [H1 H2]. split; by snoc.
  - apply (acts_bind _ _ _ (fun _ => joined e)); [|intros _; by apply acts_ret]. apply acts_note. intros l (l0 & -> & H1 & H2).
    split; snoc; [done|]. by rewrite H2.
Qed.

Lemma acts_interact fuel : forall e, acts (joined e) (interact fuel e) (fun _ => left_off) left_off.
Proof.
  induction fuel as [|fuel IH]; intros e; cbn [interact]; [apply acts_raise, joined_left|].
  eapply acts_bind; [apply acts_quietly, joined_left|]. intros [line key]; cbv beta.
  apply (acts_bind _ _ _ (fun r => match r with Some e' => joined e' | None => left_off end)); [destruct key; [apply acts_from_terminal|by apply acts_ret]|].
  intros [e'|]; [|by apply acts_ret]. apply (acts_bind _ _ _ (fun more => if more : bool then joined e' else left_off)); [destruct line; [apply acts_to_terminal|by apply acts_ret]|].
  intros [|]; [apply IH|by apply acts_ret].
Qed.
End Interactive.

(** ** siob_daemon.py *)

(** What each thing read is answered with and shows. *)
Definition probes (d : bytes) : nat := length (List.filter (fun b => b =? ENQ) d).
Definition reply_to (e : entry) : bytes := match e with Got Con d => replicate (probes d) 6 | Got Key c => c | _ => [] end.
Definition shown_for (e : entry) : str := match e with Got Con d => concat (replicate (probes d) notice) ++ without_probes d | _ => [] end.
Definition replies (l : list entry) : bytes := concat (map reply_to l).
Definition showings (l : list entry) : str := concat (map shown_for l).
Lemma replies_snoc l e : replies (l ++ [e]) = replies l ++ reply_to e.
Proof. unfold replies. rewrite map_app, concat_app. cbn. by rewrite app_nil_r. Qed.
Lemma showings_snoc l e : showings (l ++ [e]) = showings l ++ shown_for e.
Proof. unfold showings. rewrite map_app, concat_app. cbn. by rewrite app_nil_r. Qed.
#[export] Hint Rewrite replies_snoc showings_snoc : snoc.
Ltac snoc ::= autorewrite with snoc; cbn [same reply_to shown_for]; rewrite ?app_nil_r.

Section Daemon.
Context {G : Type} `{Wires G} (turns : nat) (start : str).

(** Everything read was passed on, every probe answered. *)
Definition passed (l : list entry) : Prop := sent Con l = replies l /\ shown l = start ++ showings l.
(** ... up to the answers to the last reading of the line. *)
Definition broken_off (l : list entry) : Prop :=
  passed l \/ exists l0 d l1, l = (l0 ++ [Got Con d]) ++ l1 /\ passed l0 /\ gots Con l1 = [] /\ gots Key l1 = [] /\
    sent Con l `prefix_of` replies l /\ shown l `prefix_of` start ++ showings l.

(** In the middle of that reading, with [data] still to look at. *)
Definition midway (l0 : list entry) (d data : bytes) (l : list entry) : Prop :=
  passed l0 /\ exists l1, l = (l0 ++ [Got Con d]) ++ l1 /\ gots Con l1 = [] /\ gots Key l1 = [] /\
    sent Con l ++ replicate (probes data) 6 = replies l /\ shown l ++ concat (replicate (probes data) notice) ++ without_probes d = start ++ showings l.

Lemma midway_off l0 d data l : midway l0 d data l -> broken_off l.
Proof.
  intros (Hp & l1 & -> & H1 & H2 & H3 & H4). right. exists l0, d, l1. split_and!; try done; [by eexists|by eexists].
Qed.

Lemma acts_answer_probes l0 d data : acts (midway l0 d data) (answer_probes data) (fun _ => midway l0 d []) broken_off.
Proof.
  induction data as [|b data IH]; cbn [answer_probes]; [by apply acts_ret|]. destruct (b =? ENQ) eqn:Eb.
  - assert (Hn : probes (b :: data) = S (probes data)) by (unfold probes; cbn [List.filter]; by rewrite Eb).
    assert (Ha : forall l, midway l0 d (b :: data) l -> (passed l0 /\ exists l1, l = (l0 ++ [Got Con d]) ++ l1 /\ gots Con l1 = [] /\ gots Key l1 = [] /\
      (sent Con l ++ [6]) ++ replicate (probes data) 6 = replies l /\ (shown l ++ notice) ++ concat (replicate (probes data) notice) ++ without_probes d = start ++ showings l)).
    { intros l (Hp & l1 & -> & H1 & H2 & H3 & H4). split; [done|]. exists l1. rewrite Hn in *. split_and!; try done; [by rewrite <- H3, <- app_assoc|].
      rewrite <- H4. cbn [replicate concat]. by rewrite <- !app_assoc. }
    assert (Hs : forall l, midway l0 d (b :: data) l -> midway l0 d data ((l ++ [Sent Con [6]]) ++ [Shown notice])).
    { intros l (Hp & l1 & -> & H1 & H2 & H3 & H4)%Ha. split; [done|]. exists ((l1 ++ [Sent Con [6]]) ++ [Shown notice]). rewrite !app_assoc. split_and!; [done|by snoc|by snoc|..]; snoc; [done|]. etransitivity; [|exact H4]. by rewrite <- !app_assoc. }
    apply (acts_bind _ _ _ (fun _ => midway l0 d data)); [|intros _; apply IH].
    apply (acts_bind _ _ _ (fun _ l => exists l', l = l' ++ [Sent Con [6]] /\ midway l0 d (b :: data) l')).
    + apply acts_sendall; intros l Hl; [by exists l|]. apply Ha in Hl as (Hp & l1 & -> & H1 & H2 & H3 & H4). right. exists l0, d, (l1 ++ [Sent Con [6]]). rewrite !app_assoc.
      split_and!; try done; [by snoc|by snoc|snoc; by eexists|snoc; eexists; rewrite <- H4; by rewrite <- !app_assoc].
    + intros _. apply acts_note. intros l (l' & -> & Hl). by apply Hs.
  - apply (acts_bind _ _ _ (fun _ => midway l0 d data)); [|intros _; apply IH]. apply acts_ret. unfold midway. 
    replace (probes (b :: data)) with (probes data) by (unfold probes; cbn [List.filter]; by rewrite Eb). done.
Qed.

Lemma acts_from_serial : acts passed from_serial (fun _ => passed) broken_off.
Proof.
  unfold from_serial. apply (acts_bind _ _ _ (fun d l => exists l0, l = l0 ++ [Got Con d] /\ passed l0)); [apply acts_recv; [intros l b Hl; by exists l|by left]|].
  intros d. apply (acts_bind _ _ _ (fun _ l => exists l0, midway l0 d [] l)).
  - apply (acts_conseq _ _ (fun l => exists l0, midway l0 d d l) _ (fun _ l => exists l0, midway l0 d [] l) _ broken_off); [|intros l (l0 & -> & Hp)|done|done].
    + apply hoare_ex. intros l0. eapply hoare_conseq; [apply (acts_answer_probes l0 d d)|done|by eexists|done].
    + exists l0. split; [done|]. exists []. rewrite app_nil_r. destruct Hp as [H1 H2]. split_and!; try done; snoc; [by rewrite H1|].
      cbn [shown_for]. by rewrite H2, <- app_assoc.
  - intros _. assert (Hp : forall l, (exists l0, midway l0 d [] l) -> sent Con l = replies l /\ shown l ++ without_probes d = start ++ showings l).
    { intros l (l0 & _ & l1 & -> & _ & _ & H3 & H4). cbn in H3, H4. by rewrite app_nil_r in H3. }
    destruct (without_probes d) as [|c text]; [apply acts_ret|apply acts_note]; intros l Hl; apply Hp in Hl as [H1 H2]; [by rewrite app_nil_r in H2|].
    split; snoc; [done|exact H2].
Qed.

Lemma acts_from_fifo : acts passed from_fifo (fun _ => passed) broken_off.
Proof.
  assert (Hr : forall E, (forall l, passed l -> E l) -> acts passed (quietly w_reopen) (fun _ => passed) E) by (intros E HE; by apply acts_quietly).
  unfold from_fifo. apply (acts_catch _ _ _ _ _ _ passed); [|intros _; apply Hr; by left|by left].
  apply (acts_bind _ _ _ (fun d l => exists l0, l = l0 ++ [Got Key d] /\ passed l0)); [apply acts_recv; [intros l b Hl; by exists l|done]|].
  intros [|b d].
  - eapply acts_conseq; [by apply Hr| |done|done]. intros l (l0 & -> & H1 & H2). split; by snoc.
  - apply acts_sendall; intros l (l0 & -> & H1 & H2); (split; snoc; [by rewrite H1|by cbn [shown_for]]).
Qed.

Lemma acts_daemon fuel : acts passed (daemon_loop fuel) (fun _ => broken_off) broken_off.
Proof.
  induction fuel as [|fuel IH]; cbn [daemon_loop]; [apply acts_raise; by left|].
  eapply acts_bind; [|intros ?; exact IH]. unfold daemon_turn. apply (acts_bind _ _ _ (fun _ => passed)).
  - apply (acts_catch _ _ _ _ _ _ passed); [|intros _|by left].
    + eapply acts_bind; [by apply acts_quietly|]. intros r; cbv beta. by apply acts_ret.
    + apply (acts_bind _ _ _ (fun _ => passed)); [|intros _; by apply acts_ret]. apply (acts_catch _ _ _ _ _ _ passed); [by apply acts_quietly|intros _; by apply acts_ret|by left].
  - intros [[line fifo]|]; [|by apply acts_ret]. apply (acts_bind _ _ _ (fun _ => passed)); [destruct line; [by apply acts_ret|apply acts_quietly; by left]|].
    intros more. apply (acts_bind _ _ _ (fun _ => passed)); [destruct more; [apply acts_from_serial|by apply acts_ret]|].
    intros _. destruct fifo; [apply acts_from_fifo|by apply acts_ret].
Qed.
End Daemon.

(** ** sio_b_driver.py *)

Lemma contains_spec t s : contains t s = true <-> exists a b, s = a ++ t ++ b.
Proof.
  split.
  - induction s as [|c s IH]; cbn [contains]; intros [E|E]%orb_true_iff; try done.
    + apply bool_decide_eq_true in E. exists [], []. rewrite take_nil in E. by subst t.
    + apply bool_decide_eq_true in E. exists [], (drop (length t) (c :: s)). cbn [app]. rewrite <- (take_drop (length t) (c :: s)) at 1. by rewrite E.
    + apply IH in E as (a & b & ->). by exists (c :: a), b.
  - intros (a & b & ->). induction a as [|c a IH]; [|cbn [app contains]; rewrite IH; apply orb_true_r].
    cbn [app]. destruct (t ++ b) eqn:E; cbn [contains]; rewrite <- E, take_app_length, bool_decide_eq_true_2 by done; done.
Qed.

(** A text that ends in the last piece is still in the window. *)
Lemma contains_window t s d : contains t s = false -> zlength t <= 3841 -> zlength d <= 256 -> contains t (window (s ++ d)) = contains t (s ++ d).
Proof.
  intros Hs Ht Hd. unfold window. destruct (Z.ltb_spec 4096 (zlength (s ++ d))) as [Hl|]; [|done]. rewrite dropZ_drop. set (k := Z.to_nat _).
  destruct (contains t (s ++ d)) eqn:Ec.
  - apply contains_spec in Ec as (a & b & E). assert (Ha : (k <= length a)%nat).
    { destruct (le_lt_dec (length a + length t) (length s)) as [Hin|Hin].
      - exfalso. assert (contains t s = true) as ?; [|congruence]. apply contains_spec. exists a, (take (length s - (length a + length t)) b).
        apply (f_equal (take (length s))) in E. rewrite take_app_length in E. rewrite E at 1. rewrite take_app_ge, take_app_ge by lia. do 3 f_equal. lia.
      - subst k. rewrite zlength_app in *. unfold zlength in *. lia. }
    rewrite E, drop_app_le by done. apply contains_spec. by eexists _, _.
  - apply not_true_is_false. intros (a & b & E)%contains_spec. assert (contains t (s ++ d) = true) as ?; [|congruence].
    apply contains_spec. exists (take k (s ++ d) ++ a), b. rewrite <- app_assoc, <- E. by rewrite take_drop.
Qed.

Lemma window_app s d : window (window s ++ d) = window (s ++ d).
Proof.
  unfold window at 2. destruct (Z.ltb_spec 4096 (zlength s)) as [Hl|]; [|done]. rewrite dropZ_drop. pose proof (zlength_pos d) as Hd.
  unfold window. rewrite !zlength_app. assert (El : zlength (drop (Z.to_nat (zlength s - 4096)) s) = 4096) by (unfold zlength in *; rewrite length_drop; lia). rewrite El.
  rewrite (proj2 (Z.ltb_lt 4096 (zlength s + zlength d))) by lia. destruct (Z.ltb_spec 4096 (4096 + zlength d)).
  - rewrite !dropZ_drop. rewrite <- (drop_app_le s d (Z.to_nat (zlength s - 4096))) by (unfold zlength; lia). rewrite drop_drop. f_equal. lia.
  - rewrite dropZ_drop. rewrite drop_app_le by (unfold zlength in *; lia). do 2 f_equal. lia.
Qed.

Section Driver.
Context {G : Type} `{Wires G} (turns : nat) (trigger inject : bytes).
Context (Hshort : forall g b g', w_recv Con g = (Ret b, g') -> zlength b <= 256) (Htrigger : zlength trigger <= 3841).

Definition met (l : list entry) : bool := negb (bool_decide (trigger = [])) && contains trigger (got Con l).
(** All is in the log, and the answer was sent if the text has come. *)
Definition watched (l : list entry) : Prop := shown l = got Con l /\ sends Con l = if met l then [inject] else [].
Definition watching (buf : bytes) (armed : bool) (l : list entry) : Prop :=
  watched l /\ buf = window (got Con l) /\ armed = negb (bool_decide (trigger = [])) && negb (contains trigger (got Con l)).

Lemma contains_app t s d : contains t s = true -> contains t (s ++ d) = true.
Proof. intros (a & b & ->)%contains_spec. apply contains_spec. exists a, (b ++ d). by rewrite <- !app_assoc. Qed.

Lemma acts_recv_short buf armed : acts (watching buf armed) (try_recv Con)
  (fun r l => match r with Some d => exists l0, l = l0 ++ [Got Con d] /\ watching buf armed l0 /\ zlength d <= 256 | None => watching buf armed l end) watched.
Proof.
  intros t Ht. unfold try_recv, catch, recv, quietly, note, modify, mbind, stM_bind. destruct (w_recv Con (wires t)) as [[b|e] g] eqn:E; cbn.
  - exists (log t). split_and!; [done|done|by eapply Hshort].
  - destruct (is_timeout e); cbn; [done|by destruct Ht].
Qed.

Lemma watching_got l0 d buf armed : watching buf armed l0 -> zlength d <= 256 ->
  let l := (l0 ++ [Got Con d]) ++ [Shown d] in
  let buf' := window (buf ++ d) in
  buf' = window (got Con l) /\ shown l = got Con l /\ sends Con l = (if met l0 then [inject] else []) /\
  (if armed && contains trigger buf' then met l0 = false /\ met l = true
   else met l = met l0 /\ armed = negb (bool_decide (trigger = [])) && negb (contains trigger (got Con l))).
Proof.
  intros [[H1 H2] [-> ->]] Hd. cbv zeta. rewrite window_app. unfold met in *. snoc. split_and!; [done|by rewrite H1|done|].
  destruct (bool_decide (trigger = [])) eqn:Et; [done|]. cbn [negb andb]. destruct (contains trigger (got Con l0)) eqn:Ec; cbn [negb andb].
  - by rewrite contains_app.
  - rewrite contains_window by done. by destruct (contains trigger (got Con l0 ++ d)).
Qed.

Lemma acts_drive fuel : forall buf armed, acts (watching buf armed) (drive fuel trigger inject buf armed) (fun _ => watched) watched.
Proof.
  induction fuel as [|fuel IH]; intros buf armed; cbn [drive]; [apply acts_raise; by intros l [Hl _]|].
  eapply acts_bind; [apply acts_quietly; by intros l [Hl _]|]. intros over; cbv beta. destruct over; [apply acts_ret; by intros l [Hl _]|].
  eapply acts_bind; [apply acts_recv_short|]. intros [[|d0 d]|]; cbv beta iota; [|set (dd := d0 :: d); clearbody dd; clear d0 d|apply IH].
  - apply acts_ret. intros l (l0 & -> & [[H1 H2] _] & _). unfold watched, met in *. by snoc.
  - apply (acts_bind _ _ _ (fun _ l => exists l0, l = (l0 ++ [Got Con dd]) ++ [Shown dd] /\ watching buf armed l0 /\ zlength dd <= 256)).
    { apply acts_note. intros l (l0 & -> & Hl). by exists l0. }
    intros _. destruct (armed && contains trigger (window (buf ++ dd))) eqn:Ef.
    + assert (Hw : forall l, (exists l0, l = (l0 ++ [Got Con dd]) ++ [Shown dd] /\ watching buf armed l0 /\ zlength dd <= 256) -> watching (window (buf ++ dd)) false (l ++ [Sent Con inject])).
      { intros l (l0 & -> & Hl & Hd). pose proof (watching_got l0 dd buf armed Hl Hd) as Hg. cbv zeta in Hg. rewrite Ef in Hg. destruct Hg as (G1 & G2 & G3 & G4 & G5).
        assert (Eg : got Con (((l0 ++ [Got Con dd]) ++ [Shown dd]) ++ [Sent Con inject]) = got Con ((l0 ++ [Got Con dd]) ++ [Shown dd])) by by snoc.
        assert (Em : met (((l0 ++ [Got Con dd]) ++ [Shown dd]) ++ [Sent Con inject]) = true) by (unfold met in *; by rewrite Eg).
        split; [split; rewrite ?Em, ?Eg|split; rewrite Eg; [done|]].
        - rewrite shown_snoc, app_nil_r. done.
        - rewrite sends_snoc, G3, G4. done.
        - unfold met in G5. apply andb_true_iff in G5 as [_ G5]. rewrite G5. by rewrite andb_false_r. }
      eapply acts_bind; [apply (acts_sendall _ _ _ (fun _ => watching (window (buf ++ dd)) false)); [exact Hw|intros l Hl; by apply Hw in Hl as [? _]]|]. intros ?; cbv beta. apply IH.
    + eapply acts_conseq; [apply (IH (window (buf ++ dd)) armed)| |done|done]. intros l (l0 & -> & Hl & Hd).
      pose proof (watching_got l0 dd buf armed Hl Hd) as Hg. cbv zeta in Hg. rewrite Ef in Hg. destruct Hg as (G1 & G2 & G3 & G4 & G5). split; [split; [done|by rewrite G3, G4]|split; done].
Qed.
End Driver.

(** ** siob_deploy_server.py *)

(** The console's side of a log, as a dialogue. *)
Definition con (l : list entry) : list traffic := omap (fun e => match e with Sent Con b => Some (Tx b) | Got Con b => Some (Rx b) | _ => None end) l.
Definition turn_of (e : entry) (d : list (bytes * bytes)) : list (bytes * bytes) := match e with Sent Con b => hear d (Tx b) | Got Con b => hear d (Rx b) | _ => d end.
Lemma con_snoc l e : latest (con (l ++ [e])) = turn_of e (latest (con l)).
Proof.
  unfold con. rewrite omap_app. destruct e as [[]|[]| | |]; cbn [omap list_omap turn_of]; rewrite ?app_nil_r; try done; apply latest_snoc.
Qed.
Definition files (l : list entry) : list (str * str) := omap (fun e => match e with Wrote n t => Some (n, t) | _ => None end) l.
Lemma files_snoc l e : files (l ++ [e]) = files l ++ match e with Wrote n t => [(n, t)] | _ => [] end.
Proof. unfold files. rewrite omap_app. by destruct e. Qed.

(** What is typed, and what must have come back before the next line is. *)
Definition INSTALL : list (bytes * str) := [
  (chars "PIP CPM56.HEX=RDR:" ++ [13], chars "A>"); (chars "MLOAD CPM56.COM=BDOSCCP.COM,CPM56.HEX" ++ [13], chars "A>"); (chars "CPM56" ++ [13], []);
  (chars "SYSGEN CPM56.COM" ++ [13], chars "DESTINATION DRIVE"); (chars "A" ++ [13], []); ([13], [])].
(** What PIP is sent: the lines that are not empty, with CR LF, and the end of file. *)
Definition hex_sent (hex_data : bytes) : bytes := concat (omap hex_line (split_on 10 hex_data)).
Definition done_file : str * str := (chars "/tmp/siob_deploy_done", chars "done" ++ [10]).

Section Deploy.
Context {G : Type} `{Wires G} (turns : nat) (hex_data : bytes).
Let full := hex_sent hex_data ++ [26].

(** The first [k] lines were typed and answered. *)
Definition asked (k : nat) (d : list (bytes * bytes)) : Prop := Forall2 (fun x y => fst y = fst x /\ contains (snd x) (snd y) = true) (take k INSTALL) (rev d).
Definition ready (k : nat) (dat : bytes) (l : list entry) : Prop := asked k (latest (con l)) /\ sent Dat l = dat /\ files l = [].
(** The next one was typed, and [h] has come back up to now. *)
Definition waits (k : nat) (h dat : bytes) (l : list entry) : Prop :=
  exists s x d, INSTALL !! k = Some (s, x) /\ latest (con l) = (s, h) :: d /\ asked k d /\ sent Dat l = dat /\ files l = [].
Definition installed (l : list entry) : Prop := asked 6 (latest (con l)) /\ sent Dat l = full /\ files l = [done_file].
Definition halted (l : list entry) : Prop :=
  ready 0 [] l \/ (exists dat, (exists h, waits 0 h dat l) /\ dat `prefix_of` full) \/ (exists k, (1 <= k)%nat /\ (ready k full l \/ exists h, waits k h full l)) \/ installed l.

Lemma waits_ready k h dat l x s : INSTALL !! k = Some (s, x) -> contains x h = true -> waits k h dat l -> ready (S k) dat l.
Proof.
  intros Hk Hx (s' & x' & d & Hk' & El & Ha & Hd & Hf). rewrite Hk in Hk'. injection Hk' as <- <-. split_and!; try done. unfold asked. rewrite El. cbn [rev].
  rewrite (take_S_r _ _ _ Hk). apply Forall2_app; [done|]. by constructor.
Qed.
Lemma waits_got k h dat l b : waits k h dat l -> waits k (h ++ b) dat (l ++ [Got Con b]).
Proof. intros (s & x & d & Hk & El & Ha & Hd & Hf). exists s, x, d. rewrite con_snoc, files_snoc. cbn [turn_of]. rewrite El. snoc. done. Qed.
Lemma waits_halted k h l : (1 <= k)%nat -> waits k h full l -> halted l.
Proof. intros Hk Hl. right. right. left. exists k. split; [done|]. right. by exists h. Qed.
Lemma waits_0_halted h dat l : dat `prefix_of` full -> waits 0 h dat l -> halted l.
Proof. intros Hd Hl. right. left. exists dat. split; [by exists h|done]. Qed.
Lemma waits_any_halted k h l : waits k h full l -> halted l.
Proof. destruct k; [by apply waits_0_halted|apply waits_halted; lia]. Qed.

Lemma acts_wait k needle n : forall h, acts (waits k h full) (wait_from n Con needle h) (fun buf => waits k buf full) halted.
Proof.
  induction n as [|n IH]; intros h; cbn [wait_from]; [apply acts_raise, waits_any_halted|].
  eapply acts_bind; [apply acts_quietly, waits_any_halted|]. intros over; cbv beta. destruct over; [by apply acts_ret|].
  apply (acts_bind _ _ _ (fun r => match r with Some b => waits k (h ++ b) full | None => waits k h full end)); [apply acts_try_recv; [intros l b; apply waits_got|done|apply waits_any_halted]|].
  intros [[|b0 b]|]; [rewrite app_nil_r; by apply acts_ret| |apply IH]. destruct (contains needle _); [by apply acts_ret|apply IH].
Qed.

Lemma ready_sent k s x dat l : INSTALL !! k = Some (s, x) -> ready k dat l -> waits k [] dat (l ++ [Sent Con s]).
Proof. intros Hk (Ha & Hd & Hf). exists s, x, (latest (con l)). rewrite con_snoc, files_snoc. cbn [turn_of hear]. snoc. done. Qed.

Lemma acts_say k s x needle : INSTALL !! k = Some (s, x) -> acts (ready k full) (sendall Con s;; wait_for turns Con needle) (fun buf => waits k buf full) halted.
Proof.
  intros Hk. eapply acts_bind; [apply (acts_sendall _ _ _ (fun _ => waits k [] full)); intros l Hl; [by eapply ready_sent|by eapply waits_any_halted, ready_sent]|].
  intros ?; cbv beta. apply acts_wait.
Qed.

Lemma acts_send_cmd k cmd x : INSTALL !! k = Some (cmd ++ [13], x) -> forall expect, acts (ready k full) (send_cmd turns cmd expect)
  (fun r l => waits k (fst r) full l /\ snd r = contains expect (fst r)) halted.
Proof.
  intros Hk expect. unfold send_cmd. eapply acts_bind; [apply (acts_sendall _ _ _ (fun _ => waits k [] full)); intros l Hl; [by eapply ready_sent|by eapply waits_any_halted, ready_sent]|].
  intros ?; cbv beta. eapply acts_bind; [apply acts_wait|]. intros buf; cbv beta. by apply acts_ret.
Qed.

Lemma acts_send_lines lines : forall dat, dat ++ concat (omap hex_line lines) ++ [26] = full ->
  acts (waits 0 [] dat) (send_lines lines) (fun _ => waits 0 [] (dat ++ concat (omap hex_line lines))) halted.
Proof.
  induction lines as [|line lines IH]; intros dat Hd; cbn [send_lines]; [apply acts_ret; by rewrite app_nil_r|].
  cbn [omap list_omap] in *. destruct (hex_line line) as [b|]; [|by apply IH]. cbn [concat] in *.
  assert (Hs : forall l, waits 0 [] dat l -> waits 0 [] (dat ++ b) (l ++ [Sent Dat b])).
  { intros l (s & x & d & Hk & El & Ha & Hdat & Hf). exists s, x, d. rewrite con_snoc, files_snoc. cbn [turn_of]. snoc. by rewrite Hdat. }
  eapply acts_bind; [apply (acts_sendall _ _ _ (fun _ => waits 0 [] (dat ++ b))); [exact Hs|]|].
  - intros l Hl. eapply waits_0_halted; [|by apply Hs]. rewrite <- Hd. exists (concat (omap hex_line lines) ++ [26]). by rewrite <- !app_assoc.
  - intros ?; cbv beta. rewrite app_assoc. apply IH. by rewrite <- Hd, <- !app_assoc.
Qed.

Lemma acts_drain n : acts (ready 0 []) (drain n) (fun _ => ready 0 []) halted.
Proof.
  induction n as [|n IH]; cbn [drain]; [apply acts_raise; by left|]. apply (acts_bind _ _ _ (fun _ => ready 0 [])); [|intros [d|]; [apply IH|by apply acts_ret]].
  apply acts_try_recv; [|done|by left]. intros l b (Ha & Hd & Hf). unfold ready. rewrite con_snoc, files_snoc. apply Forall2_length in Ha as Hlen. rewrite length_rev in Hlen. cbn in Hlen.
  destruct (latest (con l)); [|done]. snoc. done.
Qed.

Lemma acts_trigger n : acts (ready 0 []) (wait_trigger n) (fun _ => ready 0 []) halted.
Proof.
  induction n as [|n IH]; cbn [wait_trigger]; [by apply acts_ret|]. eapply acts_bind; [apply acts_quietly; by left|]. intros there; cbv beta. destruct there; [|done].
  apply (acts_bind _ _ _ (fun _ => ready 0 [])); [|intros _; by apply acts_ret]. apply acts_note. intros l (Ha & Hd & Hf). unfold ready. rewrite con_snoc, files_snoc. by snoc.
Qed.

Lemma acts_until_closed n : acts installed (until_closed n) (fun _ => installed) installed.
Proof.
  induction n as [|n IH]; cbn [until_closed]; [by apply acts_raise|]. apply (acts_bind _ _ _ (fun _ => installed)); [|intros [|]; [apply IH|by apply acts_ret]].
  apply (acts_catch _ _ _ _ _ _ installed); [|intros _; by apply acts_ret|done]. apply (acts_bind _ _ _ (fun _ => installed)); [|intros b; by apply acts_ret].
  apply acts_recv; [|done]. intros l b (Ha & Hd & Hf). unfold installed. rewrite con_snoc, files_snoc. snoc. split_and!; try done. cbn [turn_of]. unfold asked in *.
  destruct (latest (con l)) as [|[s h] d]; [done|]. cbn [hear rev] in *. change (take 6 INSTALL) with (take 5 INSTALL ++ [([13], [])] : list (bytes * str)) in *.
  apply Forall2_app_inv in Ha as [H1 H2]; [|apply Forall2_length in Ha; rewrite !length_app in Ha; cbn in *; rewrite length_rev in *; lia]. apply Forall2_app; [done|].
  inversion H2 as [|? ? ? ? [E _] _]. constructor; [|done]. split; [done|]. cbn [snd]. by destruct (h ++ b).
Qed.

(** How the server ends. *)
Definition ended (c : Z) (l : list entry) : Prop :=
  (c = 2 /\ ready 0 [] l) \/ (c = 3 /\ exists h, waits 0 h full l /\ contains (chars "A>") h = false) \/ (c = 4 /\ exists h, waits 1 h full l /\ contains (chars "A>") h = false) \/
  (c = 5 /\ exists h, waits 3 h full l /\ contains (chars "DESTINATION DRIVE") h = false) \/ (c = 0 /\ installed l).

Lemma acts_finish : acts (ready 4 full) (
    sendall Con (chars "A" ++ [13]);;
    wait_for turns Con (chars "DESTINATION ON A");;
    sendall Con [13];;
    wait_for turns Con (chars "FUNCTION COMPLETE");;
    note (Wrote (chars "/tmp/siob_deploy_done") (chars "done" ++ [10]));;
    until_closed turns;;
    mret 0) ended halted.
Proof.
  assert (Hk : forall k s x, INSTALL !! k = Some (s, x) -> acts (ready k full) (sendall Con s) (fun _ => waits k [] full) halted).
  { intros k s x Hk. apply acts_sendall; intros l Hl; [by eapply ready_sent|by eapply waits_any_halted, ready_sent]. }
  eapply acts_bind; [by eapply (Hk 4%nat)|]. intros ?; cbv beta. eapply acts_bind; [apply acts_wait|]. intros h4; cbv beta.
  apply (acts_conseq _ _ (ready 5 full) _ ended _ halted); [|intros l; eapply waits_ready; [done|by destruct h4]|done|done].
  eapply acts_bind; [by eapply (Hk 5%nat)|]. intros ?; cbv beta. eapply acts_bind; [apply acts_wait|]. intros h5; cbv beta.
  apply (acts_conseq _ _ (ready 6 full) _ ended _ halted); [|intros l; eapply waits_ready; [done|by destruct h5]|done|done].
  apply (acts_bind _ _ _ (fun _ => installed)).
  - apply acts_note. intros l (Ha & Hd & Hf). unfold installed. rewrite con_snoc, files_snoc, Hf. by snoc.
  - intros ?. apply (acts_bind _ _ _ (fun _ => installed)); [|intros _; apply acts_ret; intros l Hl; right; right; right; by right].
    eapply acts_conseq; [apply acts_until_closed|done|done|]. intros l Hl. right. right. by right.
Qed.

Lemma acts_deploy : acts (ready 0 []) (deploy_main turns hex_data) ended halted.
Proof.
  unfold deploy_main. apply (acts_bind _ _ _ (fun _ => ready 0 [])); [apply acts_trigger|]. intros [|]; cbn [negb]; [|apply acts_ret; by left].
  eapply acts_bind; [apply acts_drain|]. intros ?; cbv beta.
  eapply acts_bind; [apply (acts_sendall _ _ _ (fun _ => waits 0 [] [])); intros l Hl; [by eapply ready_sent|eapply waits_0_halted; [apply prefix_nil|by eapply ready_sent]]|]. intros ?; cbv beta.
  eapply acts_bind; [by apply (acts_send_lines _ [])|]. intros ?; cbv beta. change ([] ++ concat (omap hex_line (split_on 10 hex_data))) with (hex_sent hex_data).
  assert (Hs : forall l, waits 0 [] (hex_sent hex_data) l -> waits 0 [] full (l ++ [Sent Dat [26]])).
  { intros l (s & x & d & Hk & El & Ha & Hdat & Hf). exists s, x, d. rewrite con_snoc, files_snoc. cbn [turn_of]. snoc. by rewrite Hdat. }
  eapply acts_bind; [apply (acts_sendall _ _ _ (fun _ => waits 0 [] full)); [exact Hs|intros l Hl; by eapply waits_any_halted, Hs]|]. intros ?; cbv beta.
  eapply acts_bind; [apply acts_wait|]. intros h0; cbv beta. destruct (contains (chars "A>") h0) eqn:E0; cbn [negb]; [|apply acts_ret; intros l Hl; right; left; split; [done|by exists h0]].
  eapply (acts_conseq _ _ (ready 1 full) _ ended _ halted); [|intros l; by eapply waits_ready|done|done].
  eapply acts_bind; [by eapply (acts_send_cmd 1)|]. intros [h1 ok1]; cbv beta; cbn [fst snd]. apply acts_pure. intros ->.
  destruct (contains (chars "A>") h1) eqn:E1; cbn [negb]; [|apply acts_ret; intros l Hl; right; right; left; split; [done|by exists h1]].
  eapply (acts_conseq _ _ (ready 2 full) _ ended _ halted); [|intros l; by eapply waits_ready|done|done].
  eapply acts_bind; [by eapply (acts_send_cmd 2)|]. intros [h2 ok2]; cbv beta; cbn [fst snd].
  eapply (acts_conseq _ _ (ready 3 full) _ ended _ halted); [|intros l [Hl _]; eapply (waits_ready 2 h2); [done|by destruct h2|exact Hl]|done|done].
  eapply acts_bind; [by eapply (acts_send_cmd 3)|]. intros [h3 ok3]; cbv beta; cbn [fst snd]. apply acts_pure. intros ->.
  destruct (contains (chars "DESTINATION DRIVE") h3) eqn:E3; cbn [negb]; [|apply acts_ret; intros l Hl; right; right; right; left; split; [done|by exists h3]].
  apply (acts_conseq _ _ (ready 4 full) _ ended _ halted); [|intros l; by eapply waits_ready|done|done]. apply acts_finish.
Qed.
End Deploy.

(** ** siob_iobyte_server.py and sysgen_serial_server.py *)

Lemma pieces_ok n fuel : forall data, (0 < n)%nat -> (length data <= fuel)%nat -> concat (pieces fuel n data) = data /\ Forall (fun b => (length b <= n)%nat) (pieces fuel n data).
Proof.
  induction fuel as [|fuel IH]; intros data Hn Hd; cbn [pieces].
  - destruct data; [done|cbn [length] in Hd; lia].
  - destruct data as [|b data]; [done|]. destruct (IH (drop n (b :: data)) Hn) as [H1 H2]; [rewrite length_drop; cbn [length] in *; lia|].
    cbn [concat]. rewrite H1, take_drop. split; [done|]. constructor; [rewrite length_take; lia|done].
Qed.

Section Feed.
Context {G : Type} `{Wires G} (turns : nat) (data : bytes).
Definition FEED : list bytes := pieces (length data) 32 data ++ [[26]].

Definition fed (n : nat) (l : list entry) : Prop := sends Con l = take n FEED.
Definition part_fed (l : list entry) : Prop := exists n, fed n l.

Lemma acts_go n : acts (fed 0) (wait_go n) (fun _ => fed 0) part_fed.
Proof.
  induction n as [|n IH]; cbn [wait_go]; [by apply acts_ret|]. eapply acts_bind; [apply acts_quietly; by exists 0%nat|]. intros t; cbv beta.
  case_bool_decide; [by apply acts_ret|apply IH].
Qed.

Lemma acts_send_pieces l : forall n, take (length l) (drop n FEED) = l -> acts (fed n) (send_pieces l) (fun _ => fed (n + length l)) part_fed.
Proof.
  induction l as [|b l IH]; intros n Hl; cbn [send_pieces]; [apply acts_ret; cbn [length]; by rewrite Nat.add_0_r|].
  assert (Hb : FEED !! n = Some b). { apply (f_equal (fun l => l !! 0%nat)) in Hl. cbn [length] in Hl. rewrite lookup_take_lt, lookup_drop, Nat.add_0_r in Hl by lia. done. }
  assert (Hs : forall l', fed n l' -> fed (S n) (l' ++ [Sent Con b])) by (intros l' Hf; unfold fed in *; rewrite (take_S_r _ _ _ Hb); snoc; by rewrite Hf).
  eapply acts_bind; [apply (acts_sendall _ _ _ (fun _ => fed (S n))); [exact Hs|intros l' Hf; exists (S n); auto]|]. intros ?; cbv beta. cbn [length]. rewrite <- Nat.add_succ_comm. apply IH.
  cbn [length] in Hl. erewrite drop_S in Hl by exact Hb. cbn [take] in Hl. by injection Hl.
Qed.

Lemma acts_feed : acts (fed 0) (feed data) (fun _ => fed (length FEED)) part_fed.
Proof.
  unfold feed. eapply acts_bind; [apply acts_send_pieces; unfold FEED; by rewrite drop_0, take_app_length|]. intros ?; cbv beta.
  assert (Hs : forall l, fed (0 + length (pieces (length data) 32 data)) l -> fed (length FEED) (l ++ [Sent Con [26]])).
  { intros l Hf. unfold fed in *. rewrite take_ge by done. snoc. rewrite Hf. unfold FEED. rewrite Nat.add_0_l. by rewrite take_app_length. }
  apply acts_sendall; intros l Hl; [by apply Hs|exists (length FEED); by apply Hs].
Qed.

Lemma fed_other n l e : sends Con [e] = [] -> fed n l -> fed n (l ++ [e]).
Proof. unfold fed. intros He <-. rewrite sends_snoc. destruct e as [[] b|p b| | |]; try done; by rewrite app_nil_r. Qed.

Lemma acts_fed_closed fuel : acts (fed (length FEED)) (until_closed fuel) (fun _ => fed (length FEED)) part_fed.
Proof.
  assert (Hp : forall l, fed (length FEED) l -> part_fed l) by (intros l Hl; by exists (length FEED)).
  induction fuel as [|fuel IH]; cbn [until_closed]; [by apply acts_raise|]. apply (acts_bind _ _ _ (fun _ => fed (length FEED))); [|intros [|]; [apply IH|by apply acts_ret]].
  apply (acts_catch _ _ _ _ _ _ (fed (length FEED))); [|intros _; by apply acts_ret|done]. apply (acts_bind _ _ _ (fun _ => fed (length FEED))); [|intros b; by apply acts_ret].
  apply acts_recv; [|done]. intros l b. by apply fed_other.
Qed.

Lemma acts_iobyte : acts (fed 0) (iobyte_main turns data) (fun c l => c = 2 /\ fed 0 l \/ c = 0 /\ fed (length FEED) l) part_fed.
Proof.
  unfold iobyte_main. eapply acts_bind; [apply acts_go|]. intros go; cbv beta. destruct go; cbn [negb]; [|apply acts_ret; by left].
  apply (acts_bind _ _ _ (fun _ => fed 0)); [apply acts_note; intros l; by apply fed_other|]. intros _.
  eapply acts_bind; [apply acts_feed|]. intros ?; cbv beta. eapply acts_bind; [apply acts_fed_closed|]. intros ?; cbv beta. apply acts_ret. by right.
Qed.

Lemma acts_sysgen : acts (fed 0) (sysgen_main data) (fun _ => fed (length FEED)) part_fed.
Proof.
  unfold sysgen_main. eapply acts_bind; [apply acts_go|]. intros go; cbv beta. destruct go; cbn [negb]; [|apply acts_raise; by exists 0%nat].
  apply (acts_bind _ _ _ (fun _ => fed 0)); [apply acts_note; intros l; by apply fed_other|]. intros _. apply acts_feed.
Qed.
End Feed.

(** ** siob_console_server.py *)

Section Output.
Context {G : Type} `{Wires G} (turns : nat).

Definition kept (n : nat) (out : bytes) (l : list entry) : Prop := sends Con l = take n COMMANDS /\ got Con l = out /\ files l = [].
(** The files, and what was received before. *)
Definition saved (l : list entry) : Prop := exists l0 l1, l = (l0 ++ [Wrote (chars "/tmp/siob_console_serial.txt") (decode_ascii (got Con l0)); Wrote (chars "/tmp/siob_console_done") (chars "done" ++ [10])]) ++ l1 /\
  sends Con l0 = COMMANDS /\ files l0 = [] /\ sends Con l1 = [] /\ files l1 = [].
Definition part_kept (l : list entry) : Prop := (exists n out, kept n out l) \/ saved l.

Lemma kept_part n out l : kept n out l -> part_kept l.
Proof. intros Hl. left. by exists n, out. Qed.
Lemma kept_got n out b l : kept n out l -> kept n (out ++ b) (l ++ [Got Con b]).
Proof. intros (H1 & H2 & H3). unfold kept. rewrite files_snoc. snoc. by rewrite H2. Qed.

Lemma acts_drain_output fuel : forall out, acts (kept 0 out) (drain_output fuel out) (fun out' => kept 0 out') part_kept.
Proof.
  induction fuel as [|fuel IH]; intros out; cbn [drain_output]; [apply acts_raise, kept_part|].
  apply (acts_bind _ _ _ (fun r => match r with Some b => kept 0 (out ++ b) | None => kept 0 out end)); [apply acts_try_recv; [intros l b; apply kept_got|done|apply kept_part]|].
  intros [[|b0 b]|]; [rewrite app_nil_r; by apply acts_ret|apply IH|by apply acts_ret].
Qed.

Lemma acts_wait_text n out needle fuel : forall buf, acts (kept n (out ++ buf)) (wait_text fuel Con needle buf) (fun buf' => kept n (out ++ buf')) part_kept.
Proof.
  induction fuel as [|fuel IH]; intros buf; cbn [wait_text]; [apply acts_raise, kept_part|]. eapply acts_bind; [apply acts_quietly, kept_part|]. intros over; cbv beta.
  destruct over; [by apply acts_ret|]. apply (acts_bind _ _ _ (fun r => match r with Some b => kept n (out ++ buf ++ b) | None => kept n (out ++ buf) end)).
  - apply acts_try_recv; [intros l b; rewrite app_assoc; apply kept_got|done|apply kept_part].
  - intros [[|b0 b]|]; [rewrite app_nil_r; by apply acts_ret| |apply IH]. destruct (contains needle _); [by apply acts_ret|apply IH].
Qed.

Lemma acts_commands cmds : forall n out, drop n COMMANDS = cmds -> acts (kept n out) (run_commands turns cmds out) (fun out' => kept (length COMMANDS) out') part_kept.
Proof.
  induction cmds as [|cmd cmds IH]; intros n out Hc; cbn [run_commands].
  - apply acts_ret. intros l (H1 & H2). split; [|done]. rewrite H1. rewrite !take_ge; [done|done|]. apply (f_equal length) in Hc. rewrite length_drop in Hc. cbn [length] in *. lia.
  - assert (Hk : COMMANDS !! n = Some cmd) by (rewrite <- (Nat.add_0_r n), <- lookup_drop, Hc; done).
    assert (Hs : forall l, kept n out l -> kept (S n) (out ++ []) (l ++ [Sent Con cmd])).
    { intros l (H1 & H2 & H3). unfold kept. rewrite files_snoc, (take_S_r _ _ _ Hk). snoc. by rewrite H1. }
    eapply acts_bind; [apply (acts_sendall _ _ _ (fun _ => kept (S n) (out ++ []))); [exact Hs|intros l Hl; by eapply kept_part, Hs]|]. intros ?; cbv beta.
    eapply acts_bind; [apply acts_wait_text|]. intros d; cbv beta. apply IH. by erewrite drop_S in Hc; [injection Hc|].
Qed.

Lemma acts_trigger_os n : acts (kept 0 []) (wait_trigger_os n) (fun _ => kept 0 []) part_kept.
Proof.
  induction n as [|n IH]; cbn [wait_trigger_os]; [by apply acts_ret|]. apply (acts_bind _ _ _ (fun _ => kept 0 [])); [|intros [|]; [by apply acts_ret|apply IH]].
  unfold try_os. apply (acts_catch _ _ _ _ _ _ (kept 0 [])); [|intros _; by apply acts_ret|apply kept_part].
  eapply acts_bind; [by apply acts_quietly|]. intros [|]; [|by apply acts_ret]. apply (acts_bind _ _ _ (fun _ => kept 0 [])); [|intros _; by apply acts_ret].
  apply acts_note. intros l (H1 & H2 & H3). unfold kept. rewrite files_snoc. by snoc.
Qed.

Lemma acts_saved_closed fuel : acts saved (until_closed fuel) (fun _ => saved) part_kept.
Proof.
  induction fuel as [|fuel IH]; cbn [until_closed]; [apply acts_raise; by right|]. apply (acts_bind _ _ _ (fun _ => saved)); [|intros [|]; [apply IH|by apply acts_ret]].
  apply (acts_catch _ _ _ _ _ _ saved); [|intros _; by apply acts_ret|by right]. apply (acts_bind _ _ _ (fun _ => saved)); [|intros b; by apply acts_ret].
  apply acts_recv; [|done]. intros l b (l0 & l1 & -> & H1 & H2 & H3 & H4). exists l0, (l1 ++ [Got Con b]). rewrite files_snoc. snoc. by rewrite <- !app_assoc.
Qed.

Lemma acts_console : acts (kept 0 []) (console_main turns) (fun c l => c = Some 2 /\ kept 0 [] l \/ c = None /\ saved l) part_kept.
Proof.
  unfold console_main. eapply acts_bind; [apply acts_trigger_os|]. intros there; cbv beta. destruct there; cbn [negb]; [|apply acts_ret; by left].
  eapply acts_bind; [apply acts_drain_output|]. intros out; cbv beta. eapply acts_bind; [by apply acts_commands|]. intros out'; cbv beta.
  apply (acts_bind _ _ _ (fun _ l => exists l0, l = l0 ++ [Wrote (chars "/tmp/siob_console_serial.txt") (decode_ascii out')] /\ kept (length COMMANDS) out' l0)); [apply acts_note; intros l Hl; by exists l|].
  intros _. apply (acts_bind _ _ _ (fun _ => saved)).
  - apply acts_note. intros l (l0 & -> & H1 & H2 & H3). exists l0, []. rewrite app_nil_r, <- app_assoc, H2. by rewrite take_ge in H1.
  - intros _. eapply acts_bind; [apply acts_saved_closed|]. intros ?; cbv beta. apply acts_ret. by right.
Qed.
End Output.

(** ** HEX files on the data line *)

Lemma split_on_join x ls : 10 ∉ x -> Forall (fun l => 10 ∉ l) ls -> ls <> [] -> split_on 10 (join (x ++ [10]) ls ++ x ++ [10]) = map (fun l => l ++ x) ls ++ [[]].
Proof.
  intros Hx. induction 1 as [|l ls Hl Hls IH]; [done|]. intros _. assert (Hn : 10 ∉ l ++ x) by (rewrite elem_of_app; tauto). destruct ls as [|l' ls].
  - cbn [join map app]. replace (l ++ x ++ [10]) with ((l ++ x) ++ 10 :: []) by by rewrite <- app_assoc. by rewrite split_on_app, split_on_none.
  - change (join (x ++ [10]) (l :: l' :: ls)) with (l ++ (x ++ [10]) ++ join (x ++ [10]) (l' :: ls)).
    replace ((l ++ (x ++ [10]) ++ join (x ++ [10]) (l' :: ls)) ++ x ++ [10]) with ((l ++ x) ++ 10 :: (join (x ++ [10]) (l' :: ls) ++ x ++ [10])) by by rewrite <- !app_assoc.
    rewrite split_on_app, split_on_none, IH by done. done.
Qed.

Lemma hex_line_clean x l : x = [] \/ x = [13] -> clean l -> hex_line (l ++ x) = match l with [] => None | _ => Some (l ++ [13; 10]) end.
Proof.
  intros Hx Hl. unfold hex_line. assert (E : rstrip_with (fun c => c =? 13) (l ++ x) = l).
  { destruct Hx as [-> | ->]; [apply (rstrip_with_pad (fun c => c =? 13) 0 13)|apply (rstrip_with_pad (fun c => c =? 13) 1 13)]; try done;
      intros c Hc%last_Some_elem_of; apply (proj1 (Forall_forall _ _) Hl) in Hc as [_ Hc]; lia. }
  rewrite E. by destruct l.
Qed.

Definition filled (l : str) : bool := match l with [] => false | _ => true end.
Definition crlf (ls : list str) : str := concat (map (fun l => l ++ [13; 10]) ls).

Lemma hex_sent_lines x ls : x = [] \/ x = [13] -> Forall clean ls -> ls <> [] -> hex_sent (join (x ++ [10]) ls ++ x ++ [10]) = crlf (List.filter filled ls).
Proof.
  intros Hx Hls Hne. unfold hex_sent. rewrite split_on_join; [|by destruct Hx as [-> | ->]; [apply not_elem_of_nil|intros Hin%list_elem_of_singleton]| |done].
  - rewrite omap_app. cbn [omap list_omap]. rewrite app_nil_r. unfold crlf. clear Hne. f_equal. induction Hls as [|l ls Hl Hls IH]; [done|].
    cbn [map omap list_omap List.filter]. rewrite (hex_line_clean x) by done. destruct l as [|c l]; [done|]. cbn [filled map]. f_equal. exact IH.
  - eapply Forall_impl; [exact Hls|]. intros l Hl Hin. apply (proj1 (Forall_forall _ _) Hl) in Hin as [H _]. done.
Qed.

Lemma crlf_join l ls : crlf (l :: ls) = join [13; 10] (l :: ls) ++ [13; 10].
Proof. revert l. induction ls as [|l' ls IH]; intros l; [by cbn; rewrite app_nil_r|]. change (crlf (l :: l' :: ls)) with ((l ++ [13; 10]) ++ crlf (l' :: ls)). rewrite IH. change (join [13; 10] (l :: l' :: ls)) with (l ++ [13; 10] ++ join [13; 10] (l' :: ls)). by rewrite <- !app_assoc. Qed.

(** PIP gets a file of the same records. *)
Lemma hex_sent_reads x ls : x = [] \/ x = [13] -> Forall clean ls -> ls <> [] ->
  parse_hex (hex_sent (join (x ++ [10]) ls ++ x ++ [10])) = parse_hex (join (x ++ [10]) ls ++ x ++ [10]).
Proof.
  intros Hx Hls Hne. rewrite hex_sent_lines by done. assert (Hp : forall ls, Forall clean ls -> parse_hex (crlf ls) = parse_lines ls).
  { intros [|l ls'] H; [done|]. unfold parse_hex. rewrite crlf_join, split_text; [done|by left|done]. }
  rewrite Hp by (apply List.Forall_forall; intros l [Hin _]%filter_In; by apply (proj1 (List.Forall_forall _ _) Hls)). destruct ls as [|l ls]; [done|].
  unfold parse_hex. rewrite split_text; [|destruct Hx as [-> | ->]; [by right; right|by left]|done].
  clear. generalize (l :: ls). clear. intros ls. induction ls as [|l ls IH]; [done|]. destruct l as [|c l]; [exact IH|]. cbn [List.filter filled parse_lines]. destruct (parse_line _) as [[]|]; cbn [mbind outcome_bind]; try done; by rewrite IH.
Qed.

(** ** The theorems *)

(** Closed lines and slow ones. *)
Lemma drained_forever {G} `{Wires G} n : forall t : desk G, (forall g, w_recv Con g = (Ret [], g)) -> fst (drain n t) = Raise OutOfFuel.
Proof.
  induction n as [|n IH]; intros t Hc; [done|]. cbn [drain]. unfold try_recv, catch, recv, quietly, note, modify, mbind, stM_bind at 1. unfold stM_bind. rewrite Hc. cbn. by apply IH.
Qed.
Lemma waits_too_long {G} `{Wires G} n (t : desk G) : fst (w_recv Con (wires t)) = Raise TimeoutError -> fst (until_closed (S n) t) = Raise TimeoutError.
Proof.
  intros Hc. cbn [until_closed]. unfold catch, recv, quietly, mbind, stM_bind. destruct (w_recv Con (wires t)) as [r g]. cbn [fst] in Hc. by subst r.
Qed.

(** C37: the servers that type and feed.  Whatever the machine answers,
    siob_deploy_server.py types the lines of [INSTALL] in order, each only after the answer
    to the one before that it waits for, sends PIP the whole HEX file after the first, and
    its exit status says at which it stopped ([ended]); an exception ends it at a state in
    between ([halted]).  What PIP is sent are the file's lines that are not empty, and
    reads as the same records.  When the line is closed the server drains it for ever; when
    it is only quiet at the end, the time-out left from the last wait ends the server with
    an exception.  The servers of files send exactly the file, at most 32 bytes at a time,
    and an end of file.  siob_console_server.py writes all that came until then to its
    file. *)
Theorem serial_servers_follow_the_machine :
  (forall G (W : Wires G) turns hex_data g, let '(r, t) := deploy_main turns hex_data (Desk g []) in
    match r with Ret c => ended hex_data c (log t) | Raise _ => halted hex_data (log t) end) /\
  (forall x ls, x = [] \/ x = [13] -> Forall clean ls -> ls <> [] -> let hex_data := join (x ++ [10]) ls ++ x ++ [10] in
    hex_sent hex_data = crlf (List.filter filled ls) /\ parse_hex (hex_sent hex_data) = parse_hex hex_data) /\
  (forall G (W : Wires G) n (t : desk G), ((forall g, w_recv Con g = (Ret [], g)) -> fst (drain n t) = Raise OutOfFuel) /\
    (fst (w_recv Con (wires t)) = Raise TimeoutError -> fst (until_closed (S n) t) = Raise TimeoutError)) /\
  (forall data, concat (FEED data) = data ++ [26] /\ Forall (fun b => (length b <= 32)%nat) (FEED data)) /\
  (forall G (W : Wires G) turns data g, let '(r, t) := iobyte_main turns data (Desk g []) in
    match r with Ret c => c = 2 /\ sends Con (log t) = [] \/ c = 0 /\ sends Con (log t) = FEED data | Raise _ => sends Con (log t) `prefix_of` FEED data end) /\
  (forall G (W : Wires G) data g, let '(r, t) := sysgen_main data (Desk g []) in
    match r with Ret _ => sends Con (log t) = FEED data | Raise _ => sends Con (log t) `prefix_of` FEED data end) /\
  (forall G (W : Wires G) turns g, let '(r, t) := console_main turns (Desk g []) in
    match r with Ret c => c = Some 2 /\ sends Con (log t) = [] \/ c = None /\ saved (log t) | Raise _ => sends Con (log t) `prefix_of` COMMANDS end).
Proof.
  assert (Hpre : forall data l, part_fed data l -> sends Con l `prefix_of` FEED data) by (intros data l [n ->]; apply prefix_take).
  split_and!.
  - intros G W turns hex_data g. pose proof (acts_deploy turns hex_data (Desk g [])) as Hd. destruct (deploy_main turns hex_data (Desk g [])) as [[c|e] t]; apply Hd; (split; [constructor|done]).
  - intros x ls Hx Hls Hne. split; [by apply hex_sent_lines|by apply hex_sent_reads].
  - intros G W n t. split; [apply drained_forever|apply waits_too_long].
  - intros data. destruct (pieces_ok 32 (length data) data ltac:(lia) ltac:(lia)) as [H1 H2]. unfold FEED. rewrite concat_app, H1. split; [done|]. apply Forall_app. split; [done|]. repeat constructor.
  - intros G W turns data g. pose proof (acts_iobyte turns data (Desk g []) eq_refl) as Hd. destruct (iobyte_main turns data (Desk g [])) as [[c|e] t]; [|by apply Hpre].
    destruct Hd as [[-> Hd]|[-> Hd]]; [left|right]; (split; [done|]); rewrite Hd; [done|by rewrite take_ge].
  - intros G W data g. pose proof (acts_sysgen data (Desk g []) eq_refl) as Hd. destruct (sysgen_main data (Desk g [])) as [[c|e] t]; [|by apply Hpre]. by rewrite Hd, take_ge.
  - intros G W turns g. pose proof (acts_console turns (Desk g [])) as Hd. destruct (console_main turns (Desk g [])) as [[c|e] t].
    + destruct Hd as [[-> [Hd _]]|Hd]; [done|by left|by right].
    + destruct Hd as [(n & out & -> & _)|(l0 & l1 & -> & H1 & _ & H3 & _)]; [done|apply prefix_take|]. unfold sends in *. rewrite !omap_app, H1, H3. reflexivity.
Qed.

(** A machine that answers each line typed with the next of some texts, and then closes. *)
#[local] Instance answering : Wires (bytes * list bytes) := {
  w_sendall p _ := fun '(b, l) => match p, l with Con, a :: l' => (Ret tt, (b ++ a, l')) | _, _ => (Ret tt, (b, l)) end;
  w_recv _ := fun '(b, l) => match b, l with [], _ :: _ => (Raise TimeoutError, ([], l)) | _, _ => (Ret b, ([], l)) end;
  w_late := mret false; w_exists := mret true; w_text := mret (Some (chars "go")); w_ready := mret (true, false); w_waiting := mret false; w_reopen := mret tt
}.

Lemma serial_servers_follow_the_machine_witness :
  (exists t, deploy_main 5 (chars ":00000001FF" ++ [10]) (Desk ([], [chars "A>"; chars "A>"; chars "OK"; chars "DESTINATION DRIVE NAME"; chars "DESTINATION ON A"; chars "FUNCTION COMPLETE"]) []) = (Ret 0, t) /\
    installed (chars ":00000001FF" ++ [10]) (log t)) /\
  (let hex_data := join [13; 10] [chars ":0201000000FEFF"; []; chars ":00000001FF"] ++ [13; 10] in
    hex_sent hex_data = crlf [chars ":0201000000FEFF"; chars ":00000001FF"] /\ parse_hex (hex_sent hex_data) = Ret [(256, [0; 254])]).
Proof.
  split.
  - pose proof (proj1 serial_servers_follow_the_machine _ answering 5%nat (chars ":00000001FF" ++ [10])
      ([], [chars "A>"; chars "A>"; chars "OK"; chars "DESTINATION DRIVE NAME"; chars "DESTINATION ON A"; chars "FUNCTION COMPLETE"])) as Hd.
    destruct (deploy_main _ _ _) as [r t] eqn:E. assert (r = Ret 0) as -> by (apply (f_equal fst) in E; cbn [fst] in E; rewrite <- E; vm_compute; reflexivity).
    exists t. split; [done|]. destruct Hd as [[Hc _]|[[Hc _]|[[Hc _]|[[Hc _]|[_ Hd]]]]]; done.
  - destruct (proj1 (proj2 serial_servers_follow_the_machine) [13] [chars ":0201000000FEFF"; []; chars ":00000001FF"] ltac:(by right) ltac:(decided) ltac:(done)) as [H1 H2].
    split; [exact H1|]. cbv zeta in *. etransitivity; [exact H2|]. vm_compute. reflexivity.
Defined.

(** C38: the programs between a line and a terminal, a FIFO or a log.  siob_interactive.py
    shows all that comes over the line and sends all that is typed, with Return for line
    feed, however it is cut into readings, until Ctrl-] and q; only what was typed in
    one reading with these two is not sent, and Ctrl-] with any other key is sent as it is.
    siob_daemon.py sends, in the order of its readings, an ACK for each ENQ of the machine
    and each command of the FIFO as it is, and logs what came without the ENQs; what it
    leaves out when it is ended are answers to its last reading.  sio_b_driver.py logs all
    that comes, and sends its answer once, as soon as the text it waits for (up to 3841
    bytes of it) has come, however that is cut into readings, and else never. *)
Theorem consoles_pass_everything_on :
  ((forall e a b, translate e (a ++ b) = let '(o, e1, q) := translate e a in if q then (o, e1, true) else let '(o2, e2, q2) := translate e1 b in (o ++ o2, e2, q2)) /\
   (forall d, ESC ∉ d -> translate false d = (map (fun b => if b =? 10 then 13 else b) d, false, false)) /\
   (forall b, translate false [ESC; b] = if (b =? 113) || (b =? 81) then ([], false, true) else ([ESC; b], false, false))) /\
  (forall G (W : Wires G) turns g, let '(r, t) := interactive_main turns (Desk g []) in (forall c, r = Ret c -> c = 0) /\ left_off (log t)) /\
  (forall G (W : Wires G) turns port_name g, let '(r, t) := daemon_main turns port_name (Desk g []) in
    exists l, log t = l ++ [Shown (chars "[siob] daemon stopping" ++ [10])] /\ broken_off (chars "[siob] daemon started on " ++ port_name ++ chars " @ 38400" ++ [10]) l) /\
  (forall G (W : Wires G) turns trigger inject g, (forall g b g', w_recv Con g = (Ret b, g') -> zlength b <= 256) -> zlength trigger <= 3841 ->
    let '(r, t) := driver_main turns trigger inject (Desk g []) in
    (forall c, r = Ret c -> c = 0) /\ shown (log t) = got Con (log t) /\
    sends Con (log t) = if negb (bool_decide (trigger = [])) && contains trigger (got Con (log t)) then [inject] else []).
Proof.
  split; [split_and!; [intros e a; apply translate_app| |by intros b; cbn; destruct (_ || _)]|split_and!].
  - intros d. induction d as [|b d IH]; [done|]. intros [Hb Hd]%not_elem_of_cons. cbn [translate map]. rewrite (proj2 (Z.eqb_neq b ESC)), IH by (done || congruence). done.
  - intros G W turns g. unfold interactive_main.
    assert (Hd : acts (joined false) (interact turns false;; mret 0) (fun c l => c = 0 /\ left_off l) left_off).
    { eapply acts_bind; [apply acts_interact|]. intros ?; cbv beta. by apply acts_ret. }
    specialize (Hd (Desk g []) (conj eq_refl eq_refl)). destruct ((interact turns false;; mret 0) (Desk g [])) as [[c|e] t]; [|done]. destruct Hd as [-> Hd]. split; [by intros c [= <-]|done].
  - intros G W turns port_name g. unfold daemon_main. set (start := chars "[siob] daemon started on " ++ _). unfold note, modify, mbind, stM_bind. cbn [wires log app].
    assert (Hd : acts (passed start) (catch is_interrupt (daemon_loop turns) (fun _ => mret tt)) (fun _ => broken_off start) (broken_off start)).
    { apply (acts_catch _ _ _ _ _ _ (broken_off start)); [apply acts_daemon|intros _; by apply acts_ret|done]. }
    specialize (Hd (Desk g [Shown start])). destruct (catch _ _ _ _) as [r t]. exists (log t). split; [done|]. assert (Hp : passed start [Shown start]) by (split; [done|unfold shown; cbn [omap list_omap concat]; by rewrite !app_nil_r]).
    specialize (Hd Hp). by destruct r.
  - intros G W turns trigger inject g Hshort Ht. unfold driver_main.
    assert (Hd : acts (watching trigger inject [] (negb (bool_decide (trigger = [])))) (drive turns trigger inject [] (negb (bool_decide (trigger = [])));; mret 0) (fun c l => c = 0 /\ watched trigger inject l) (watched trigger inject)).
    { eapply acts_bind; [by apply acts_drive|]. intros ?; cbv beta. by apply acts_ret. }
    assert (Hw : watching trigger inject [] (negb (bool_decide (trigger = []))) []).
    { destruct trigger as [|c trigger]; [done|]. split; [done|]. split; [done|]. cbn [got gots]. by rewrite bool_decide_eq_false_2. }
    specialize (Hd (Desk g []) Hw). destruct ((drive _ _ _ _ _;; mret 0) (Desk g [])) as [[c|e] t].
    + destruct Hd as [-> [H1 H2]]. split; [by intros c [= <-]|]. done.
    + destruct Hd as [H1 H2]. done.
Qed.

(** A machine that sends some texts, at most 256 bytes at a time, and closes. *)
#[local] Instance telling : Wires (list bytes) := {
  w_sendall _ _ := mret tt;
  w_recv _ := fun l => match l with [] => (Ret [], []) | b :: l' => (Ret (takeZ 256 b), l') end;
  w_late := mret false; w_exists := mret true; w_text := mret None; w_ready := mret (true, true); w_waiting := mret false; w_reopen := mret tt
}.

Lemma consoles_pass_everything_on_witness :
  exists t, driver_main 5 (chars "A>") (chars "DIR" ++ [13]) (Desk [chars "CP/M"; chars " A"; chars "> "; chars "A>"] []) = (Ret 0, t) /\
    shown (log t) = chars "CP/M A> A>" /\ sends Con (log t) = [chars "DIR" ++ [13]].
Proof.
  pose proof (proj2 (proj2 (proj2 consoles_pass_everything_on)) _ telling 5%nat (chars "A>") (chars "DIR" ++ [13]) [chars "CP/M"; chars " A"; chars "> "; chars "A>"]) as Hd.
  assert (Hs : forall (g : list bytes) b g', w_recv Con g = (Ret b, g') -> zlength b <= 256).
  { intros [|c g] b g' [= <- <-]; [done|]. rewrite takeZ_take. unfold zlength. rewrite length_take. lia. }
  specialize (Hd Hs ltac:(done)). destruct (driver_main _ _ _ _) as [r t] eqn:E. exists t.
  assert (Et : (r, t) = driver_main 5 (chars "A>") (chars "DIR" ++ [13]) (Desk [chars "CP/M"; chars " A"; chars "> "; chars "A>"] [])) by by rewrite E.
  assert (r = Ret 0) as -> by (apply (f_equal fst) in Et; cbn [fst] in Et; rewrite Et; vm_compute; reflexivity).
  assert (Hg : got Con (log t) = chars "CP/M A> A>") by (apply (f_equal snd) in Et; cbn [snd] in Et; rewrite Et; vm_compute; reflexivity).
  destruct Hd as (_ & H1 & H2). rewrite Hg in H1, H2. split_and!; [done|exact H1|]. rewrite H2. vm_compute. reflexivity.
Defined.
