(* ===== verification/Smoke.v ===== *)
(** * The CP/NET smoke test: cpnos-rom/testutil/mksmokeasm.py and smoke_inject.py.

    mksmokeasm.py writes the source of a program ([sumtest_asm]) that adds the numbers to
    1000 and prints the sum; smoke_inject.py types the commands that assemble and run it at
    the machine's prompts ([inject_main]) and looks for what it prints.

    What the source means is specified by an 8080 ([step]) that runs a program given as
    its lines ([load]): the mnemonics the program uses, its labels, numbers and strings,
    and the two BDOS functions it calls.  A BDOS call leaves all registers in some state
    ([bdos_leaves]), of which nothing is assumed.  The machine that is typed at is the
    interface [Wires] of the serial servers; the injector's half second of rest after a
    command is [Rest]. *)

From S2P Require Import Prelude Imd Hex Text Gdb Ddt Siob.
#[local] Open Scope Z_scope.

(** ** mksmokeasm.py *)

Definition N : Z := 1000.
Definition EXPECTED : Z := Z.land (zsum (seqZ 1 N)) 0xFFFF.

Definition preamble : str := chars "; sumtest.asm -- CP/NOS end-to-end smoke test (GENERATED; do not hand-edit).
;
; Generated by mksmokeasm.py with N = " ++ decimal N ++ chars ", expected HL = 0x" ++ fmt_hex 4 EXPECTED ++ chars ".
;
; Pure 8080, meant to be assembled ON the slave by CP/M ASM.COM
; (served from master drive B: = cpm22-1.dsk).  The smoke test drives
; this across the CP/NET wire:
;
;   B:ASM D:SUMTEST.DDZ    (assemble; read SRC, write HEX, no listing)
;   B:LOAD D:SUMTEST       (HEX -> COM)
;   D:SUMTEST              (execute; prints " ++ [34] ++ chars "CPNET OK " ++ fmt_hex 4 EXPECTED ++ [34] ++ chars ")
;
; The sum-of-1..N accumulation is fully unrolled -- N pairs of
; (LXI D,n ; DAD D) -- so the source is deliberately ~" ++ decimal (5 + N * 3) ++ chars " lines,
; forcing dozens of CP/NET READ-SEQ round-trips during assembly.

BDOS    equ     0005h
CONOUT  equ     2
PRINTS  equ     9

        aseg                    ; absolute (CP/M .COM) not relocatable
        org     0100h

start:  ; entry point referenced by END
        ; HL = sum(1.." ++ decimal N ++ chars "), fully unrolled.
        lxi     h, 0
".

Definition body_lines : list str := concat (map (fun i => [chars "        lxi     d, " ++ decimal i; chars "        dad     d"]) (seqZ 1 N)).

Definition postamble : str := chars "
        ; Print leading message.  BDOS trashes HL, so preserve sum.
        push    h
        lxi     d, msg1
        mvi     c, PRINTS
        call    BDOS
        pop     h

        ; Print HL as 4 hex digits.
        mov     a, h
        rrc
        rrc
        rrc
        rrc
        call    pnib
        mov     a, h
        call    pnib
        mov     a, l
        rrc
        rrc
        rrc
        rrc
        call    pnib
        mov     a, l
        call    pnib

        ; Print trailing CR/LF.
        lxi     d, msg2
        mvi     c, PRINTS
        call    BDOS

        ; Signal " ++ [34] ++ chars "test complete" ++ [34] ++ chars " via I/O port write.  MAME Lua taps
        ; install_write_tap on this port to time the workload without
        ; needing to scrape SIO-B for " ++ [34] ++ chars "CPNET OK" ++ [34] ++ chars ".  Port 80h is in the
        ; unmapped 0x20-0xEF range on the RC702 (the only mapped IO
        ; ranges are 0x00-0x1F and 0xF0-0xFF " ++ [8212] ++ chars " see rc702.cpp:167-175);
        ; harness side picks up the OUT atomically.  A is " ++ [34] ++ chars "U" ++ [34] ++ chars " (0x55)
        ; for " ++ [34] ++ chars "Unique done" ++ [34] ++ chars "; any value would work " ++ [8212] ++ chars " only the write
        ; event matters.
        mvi     a, 055h
        out     080h

        ; CP/M warm-boot via zero-page (= JP NDOS WBOOT wrapper, which
        ; reloads CCP and prompts again).  Plain RET would also work
        ; since sumtest's small TPA footprint leaves CCP intact, but
        ; jmp 0 is the canonical CP/M idiom for transient programs.
        jmp     0

pnib:
        ani     0fh
        adi     '0'
        cpi     '9'+1
        jc      pok
        adi     7               ; 'A' - '9' - 1 = 7
pok:
        push    h
        push    b
        mov     e, a
        mvi     c, CONOUT
        call    BDOS
        pop     b
        pop     h
        ret

msg1:   db      'CPNET OK $'
msg2:   db      0dh, 0ah, '$'

        END
".

(** Written with [newline='\r\n']. *)
Definition sumtest_asm : str := concat (map (fun c => if c =? 10 then [13; 10] else [c]) (preamble ++ join [10] body_lines ++ [10] ++ postamble)).

Example expected_sum : EXPECTED = 0xA314.
Proof. vm_compute. reflexivity. Qed.

(** ** The 8080 that runs a source text *)

Definition blank (c : Z) : bool := (c =? 32) || (c =? 9).
Definition up_to (f : Z -> bool) (s : str) : str := take_while (fun c => negb (f c)) s.
Definition trim (s : str) : str := strip_with blank s.

(** A line: its label, its mnemonic and its operands, without the comment. *)
Record line : Type := Line { label : str; mnemonic : str; operands : list str }.
Definition parse_source (l : str) : line :=
  let l := up_to (fun c => c =? 59) l in
  let name := up_to (fun c => blank c || (c =? 58)) l in
  let l := drop_while blank (match drop (length name) l with 58 :: l => l | l => l end) in
  let m := up_to blank l in
  Line name m (map trim (split_on 44 (trim (drop (length m) l)))).

(** Numbers in decimal and hexadecimal, a character, a sum, a name. *)
Definition digits_in (base : Z) (s : str) : Z := foldl (fun n c => n * base + default 0 (hexval c)) 0 s.
Definition number (s : str) : option Z :=
  match s with
  | [39; c; 39] => Some c
  | c :: _ => if is_digit c then Some (if bool_decide (last s = Some 104) then digits_in 16 (removelast s) else digits_in 10 s) else None
  | [] => None
  end.
Definition symbols : Type := list (str * Z).
Definition term (syms : symbols) (s : str) : option Z :=
  match number s with Some n => Some n | None => snd <$> List.find (fun p => bool_decide (fst p = s)) syms end.
Definition operand (syms : symbols) (s : str) : option Z :=
  foldl (fun n t => x ← n; y ← term syms (trim t); Some (x + y)) (Some 0) (split_on 43 s).

Definition is_op (m : str) (names : list string) : bool := existsb (fun n => bool_decide (m = chars n)) names.
(** The bytes of [db]. *)
Definition db_bytes (syms : symbols) (o : str) : list Z :=
  match o with 39 :: s => removelast s | _ => match operand syms o with Some n => [n] | None => [] end end.
Definition size_of (l : line) : Z :=
  let m := mnemonic l in
  if is_op m ["lxi"; "call"; "jmp"; "jc"]%string then 3
  else if is_op m ["mvi"; "ani"; "adi"; "cpi"; "out"]%string then 2
  else if is_op m ["dad"; "push"; "pop"; "mov"; "rrc"; "ret"]%string then 1
  else if is_op m ["db"]%string then zlength (concat (map (db_bytes []) (operands l)))
  else 0.

(** The lines with their addresses, and the names. *)
Fixpoint place (pc : Z) (ls : list line) : list (Z * line) :=
  match ls with
  | [] => []
  | l :: ls' =>
      let pc := if is_op (mnemonic l) ["org"]%string then default pc (o ← head (operands l); number o) else pc in
      (pc, l) :: place (pc + size_of l) ls'
  end.
Definition names (code : list (Z * line)) : symbols :=
  omap (fun p => match label (snd p) with [] => None | n => Some (n, if is_op (mnemonic (snd p)) ["equ"]%string then default 0 (o ← head (operands (snd p)); number o) else fst p) end) code.
Definition is_code (l : line) : bool := negb (is_op (mnemonic l) [""; "equ"; "org"; "aseg"; "db"; "END"]%string).

Record program : Type := Program { code : list (Z * line); syms : symbols; data : gmap Z Z }.
Definition load (source : str) : program :=
  let c := place 0 (map parse_source (split_on 10 (universal_newlines source))) in
  let s := names c in
  Program (List.filter (fun p => is_code (snd p)) c) s
    (foldl (fun m p => if is_op (mnemonic (snd p)) ["db"]%string then put_row (fst p) (concat (map (db_bytes s) (operands (snd p)))) m else m) ∅ c).

(** ** The machine *)

Record regs : Type := Regs { ra : Z; rb : Z; rc : Z; rd : Z; re : Z; rh : Z; rl : Z; cy : bool }.
Record cpu : Type := Cpu { rs : regs; rest : list (Z * line); stack : list Z; printed : str; ports : list (Z * Z) }.
Inductive outcome8080 : Type := Running (c : cpu) | Booted (c : cpu) | Stuck.

Definition reg_of (r : regs) (n : str) : option Z :=
  match n with [97] => Some (ra r) | [104] => Some (rh r) | [108] => Some (rl r) | [101] => Some (re r) | _ => None end.
Definition set_reg (r : regs) (n : str) (v : Z) : option regs :=
  match n with
  | [97] => Some (Regs v (rb r) (rc r) (rd r) (re r) (rh r) (rl r) (cy r))
  | [99] => Some (Regs (ra r) (rb r) v (rd r) (re r) (rh r) (rl r) (cy r))
  | [101] => Some (Regs (ra r) (rb r) (rc r) (rd r) v (rh r) (rl r) (cy r))
  | _ => None
  end.
Definition pair_of (r : regs) (n : str) : option Z :=
  match n with [98] => Some (rb r * 256 + rc r) | [100] => Some (rd r * 256 + re r) | [104] => Some (rh r * 256 + rl r) | _ => None end.
Definition set_pair (r : regs) (n : str) (v : Z) : option regs :=
  match n with
  | [98] => Some (Regs (ra r) (v / 256) (v mod 256) (rd r) (re r) (rh r) (rl r) (cy r))
  | [100] => Some (Regs (ra r) (rb r) (rc r) (v / 256) (v mod 256) (rh r) (rl r) (cy r))
  | [104] => Some (Regs (ra r) (rb r) (rc r) (rd r) (re r) (v / 256) (v mod 256) (cy r))
  | _ => None
  end.
Definition set_acc (r : regs) (v : Z) (carry : bool) : regs := Regs v (rb r) (rc r) (rd r) (re r) (rh r) (rl r) carry.

(** Up to the dollar sign. *)
Fixpoint string_at (fuel : nat) (mem : gmap Z Z) (a : Z) : str :=
  match fuel with O => [] | S fuel' => match mem !! a with Some 36 | None => [] | Some c => c :: string_at fuel' mem (a + 1) end end.

Section Machine.
Context (p : program) (bdos_leaves : regs -> regs).

Definition go (a : Z) : list (Z * line) := (fix find l := match l with [] => [] | (b, x) :: l' => if b =? a then l else find l' end) (code p).

(** The two functions of the BDOS. *)
Definition bdos (c : cpu) (next : list (Z * line)) : outcome8080 :=
  let r := rs c in
  let out o := Running (Cpu (bdos_leaves r) next (stack c) (printed c ++ o) (ports c)) in
  if rc r =? 2 then out [re r] else if rc r =? 9 then out (string_at 128 (data p) (rd r * 256 + re r)) else Stuck.

Definition exec (l : line) (c : cpu) (next : list (Z * line)) : option outcome8080 :=
  let r := rs c in
  let m := mnemonic l in
  let with_regs r := Running (Cpu r next (stack c) (printed c) (ports c)) in
  let jump a := if a =? 0 then Booted c else Running (Cpu r (go a) (stack c) (printed c) (ports c)) in
  match operands l with
  | [x; y] =>
      if is_op m ["lxi"]%string then v ← operand (syms p) y; r ← set_pair r x v; Some (with_regs r)
      else if is_op m ["mvi"]%string then v ← operand (syms p) y; r ← set_reg r x v; Some (with_regs r)
      else if is_op m ["mov"]%string then v ← reg_of r y; r ← set_reg r x v; Some (with_regs r)
      else None
  | [x] =>
      if is_op m ["dad"]%string then
        v ← pair_of r x;
        let s := rh r * 256 + rl r + v in
        r ← set_pair r (chars "h") (s mod 65536);
        Some (with_regs (set_acc r (ra r) (65536 <=? s)))
      else if is_op m ["push"]%string then v ← pair_of r x; Some (Running (Cpu r next (v :: stack c) (printed c) (ports c)))
      else if is_op m ["pop"]%string then
        match stack c with v :: st => r ← set_pair r x v; Some (Running (Cpu r next st (printed c) (ports c))) | [] => None end
      else if is_op m ["rrc"]%string then Some (with_regs (set_acc r (Z.lor (Z.shiftr (ra r) 1) (Z.shiftl (Z.land (ra r) 1) 7)) (Z.testbit (ra r) 0)))
      else if is_op m ["ret"]%string then match stack c with a :: st => Some (Running (Cpu r (go a) st (printed c) (ports c))) | [] => None end
      else
        v ← operand (syms p) x;
        if is_op m ["ani"]%string then Some (with_regs (set_acc r (Z.land (ra r) v) false))
        else if is_op m ["adi"]%string then Some (with_regs (set_acc r ((ra r + v) mod 256) (256 <=? ra r + v)))
        else if is_op m ["cpi"]%string then Some (with_regs (set_acc r (ra r) (ra r <? v)))
        else if is_op m ["jmp"]%string then Some (jump v)
        else if is_op m ["jc"]%string then Some (if cy r then jump v else with_regs r)
        else if is_op m ["out"]%string then Some (Running (Cpu r next (stack c) (printed c) (ports c ++ [(v, ra r)])))
        else if is_op m ["call"]%string then
          if v =? 5 then Some (bdos c next)
          else match next with (a, _) :: _ => Some (Running (Cpu r (go v) (a :: stack c) (printed c) (ports c))) | [] => None end
        else None
  | _ => None
  end.

Definition step (c : cpu) : outcome8080 :=
  match rest c with [] => Stuck | (_, l) :: next => default Stuck (exec l c next) end.
Fixpoint steps (fuel : nat) (c : cpu) : outcome8080 :=
  match fuel with O => Running c | S fuel' => match step c with Running c' => steps fuel' c' | o => o end end.
End Machine.

Definition start (p : program) (r : regs) : cpu := Cpu r (code p) [] [] [].

Definition prog : program := load sumtest_asm.
Definition report : str := chars "CPNET OK " ++ fmt_hex 4 EXPECTED ++ [13; 10].

(** From its first instruction, with any registers and whatever the BDOS leaves in them,
    the program prints the sum, writes to the port the test watches, and boots. *)
Definition result (o : outcome8080) : option (str * list (Z * Z)) := match o with Booted c => Some (printed c, ports c) | _ => None end.
Lemma program_prints bdos_leaves r : result (steps prog bdos_leaves (Z.to_nat 4096) (start prog r)) = Some (report, [(0x80, 0x55)]).
Proof. vm_compute. reflexivity. Qed.

(** ** smoke_inject.py *)

Abbreviation plan := (list (bytes * bytes)).
Definition WORKLOADS : list (str * (plan * bytes)) := [
  (chars "sumtest", ([(chars "A>", chars "m80 sumtest,=sumtest.asm" ++ [13]); (chars "A>", chars "l80 sumtest,sumtest/n/e" ++ [13]); (chars "A>", chars "sumtest" ++ [13])], chars "CPNET OK "));
  (chars "filecopy", ([(chars "A>", chars "filecopy" ++ [13])], chars "FILECOPY OK "))].

(** Whether the injector still rests after a command. *)
Class Rest (G : Type) : Type := w_rests : stM G bool.

Section Inject.
Context {G : Type} `{Wires G} `{Rest G} (turns : nat) (STEPS : plan) (MARKER : bytes).

Fixpoint send_each (cmd : bytes) : stM (desk G) unit := match cmd with [] => mret tt | b :: cmd' => sendall Con [b];; send_each cmd' end.

(** The step and the buffer, before and after. *)
Definition maybe_fire_step (step_idx : nat) (buf : bytes) : stM (desk G) (nat * bytes) :=
  match STEPS !! step_idx with
  | None => mret (step_idx, buf)
  | Some (prompt, cmd) =>
      rests ← quietly w_rests;
      if rests : bool then mret (step_idx, buf) else
      if negb (bool_decide (drop (length buf - length prompt) buf = prompt)) then mret (step_idx, buf) else
      send_each cmd;; mret (S step_idx, [])
  end.

Fixpoint watch_prompts (fuel : nat) (step_idx : nat) (buf : bytes) (saw_marker : bool) : stM (desk G) bool :=
  match fuel with
  | O => raise OutOfFuel
  | S fuel' =>
      over ← quietly w_late;
      if over : bool then mret saw_marker else
      data ← try_recv Con;
      match data with
      | None => '(step_idx, buf) ← maybe_fire_step step_idx buf; watch_prompts fuel' step_idx buf saw_marker
      | Some [] => mret saw_marker
      | Some data =>
          note (Shown data);;
          let buf := window (buf ++ data) in
          if (length STEPS <=? step_idx)%nat && contains MARKER buf && negb saw_marker then watch_prompts fuel' step_idx buf true
          else '(step_idx, buf) ← maybe_fire_step step_idx buf; watch_prompts fuel' step_idx buf saw_marker
      end
  end.
Definition inject_main : stM (desk G) Z := saw_marker ← watch_prompts turns 0 [] false; mret (if saw_marker : bool then 0 else 2).
End Inject.

(** ** What was typed, and when *)

(** After [k] commands: the log, and what was received since the last of them.  A command
    is only typed after text that ends with its prompt. *)
Inductive typed (steps : plan) : nat -> list entry -> bytes -> Prop :=
  | typed_nothing : typed steps 0 [] []
  | typed_got k l h b : typed steps k l h -> typed steps k (l ++ [Got Con b]) (h ++ b)
  | typed_shown k l h s : typed steps k l h -> typed steps k (l ++ [Shown s]) h
  | typed_command k l h prompt cmd : typed steps k l h -> steps !! k = Some (prompt, cmd) -> prompt `suffix_of` h ->
      typed steps (S k) (l ++ map (fun b => Sent Con [b]) cmd) [].

(** The same, and perhaps the beginning of the next command. *)
Definition typing (steps : plan) (l : list entry) : Prop :=
  exists k l0 h, typed steps k l0 h /\ (l = l0 \/ exists prompt cmd n, steps !! k = Some (prompt, cmd) /\ prompt `suffix_of` h /\ l = l0 ++ map (fun b => Sent Con [b]) (take n cmd)).

Lemma typed_sends steps k l h : typed steps k l h -> (k <= length steps)%nat /\ sent Con l = concat (map snd (take k steps)) /\ (steps = [] \/ exists rest, got Con l = rest ++ h).
Proof.
  induction 1 as [|k l h b Ht (IH1 & IH2 & IH3)|k l h s Ht (IH1 & IH2 & IH3)|k l h p c Ht (IH1 & IH2 & IH3) Hk Hp].
  - split_and!; [lia|done|right; by exists []].
  - snoc. split_and!; [done|done|]. destruct IH3 as [->|[r ->]]; [by left|right]. exists r. by rewrite app_assoc.
  - by snoc.
  - apply lookup_lt_Some in Hk as Hlt. split_and!; [lia| |].
    + rewrite (take_S_r _ _ _ Hk), map_app, concat_app. unfold sent, sends in *. rewrite omap_app, concat_app, IH2. f_equal. cbn. rewrite app_nil_r.
      clear. induction c as [|b c IH]; [done|]. cbn [map omap list_omap same concat]. f_equal. exact IH.
    + right. exists (got Con l). rewrite app_nil_r. unfold got, gots. rewrite omap_app, concat_app. replace (omap _ (map _ c)) with (@nil bytes); [by rewrite app_nil_r|]. clear. by induction c.
Qed.

Section Injecting.
Context {G : Type} `{Wires G} `{Rest G} (turns : nat) (STEPS : plan) (MARKER : bytes).
Context (Hprompts : Forall (fun s => zlength (fst s) <= 4096) STEPS).

(** [buf] is the end of what was received since the last command. *)
Definition at_step (k : nat) (buf : bytes) (saw : bool) (l : list entry) : Prop :=
  exists h, typed STEPS k l h /\ buf = window h /\ (saw = true -> (length STEPS <= k)%nat /\ contains MARKER h = true).
Definition seen (saw : bool) (l : list entry) : Prop :=
  exists k h, typed STEPS k l h /\ (saw = true -> k = length STEPS /\ contains MARKER h = true).

Lemma at_step_typing k buf saw l : at_step k buf saw l -> typing STEPS l.
Proof. intros (h & Ht & _). exists k, l, h. auto. Qed.
Lemma at_step_seen k buf saw l : at_step k buf saw l -> seen saw l.
Proof.
  intros (h & Ht & _ & Hs). exists k, h. split; [done|]. intros E. destruct (Hs E). split; [|done]. apply typed_sends in Ht as (Hk & _). lia.
Qed.

Lemma window_suffix h p : zlength p <= 4096 -> p `suffix_of` window h -> p `suffix_of` h.
Proof.
  intros _ [r Hr]. unfold window in Hr. destruct (4096 <? zlength h); [|by exists r]. rewrite dropZ_drop in Hr. exists (take (Z.to_nat (zlength h - 4096)) h ++ r). by rewrite <- app_assoc, <- Hr, take_drop.
Qed.
Lemma window_contains h m : contains m (window h) = true -> contains m h = true.
Proof.
  intros (a & b & E)%contains_spec. apply contains_spec. unfold window in E. destruct (4096 <? zlength h); [|by exists a, b]. rewrite dropZ_drop in E.
  exists (take (Z.to_nat (zlength h - 4096)) h ++ a), b. by rewrite <- app_assoc, <- E, take_drop.
Qed.

Lemma acts_send_each k prompt cmd h l0 : typed STEPS k l0 h -> STEPS !! k = Some (prompt, cmd) -> prompt `suffix_of` h ->
  forall n, acts (fun l => l = l0 ++ map (fun b => Sent Con [b]) (take n cmd)) (send_each (drop n cmd)) (fun _ l => l = l0 ++ map (fun b => Sent Con [b]) cmd) (typing STEPS).
Proof.
  intros Ht Hk Hp n. remember (drop n cmd) as c eqn:E. revert n E. induction c as [|b c IH]; intros n E; cbn [send_each].
  - apply acts_ret. intros l ->. rewrite take_ge; [done|]. apply (f_equal length) in E. rewrite length_drop in E. cbn [length] in E. lia.
  - assert (Hb : cmd !! n = Some b) by (rewrite <- (Nat.add_0_r n), <- lookup_drop, <- E; done).
    assert (Hs : (l0 ++ map (fun b => Sent Con [b]) (take n cmd)) ++ [Sent Con [b]] = l0 ++ map (fun b => Sent Con [b]) (take (S n) cmd)) by by rewrite (take_S_r _ _ _ Hb), map_app, app_assoc.
    eapply acts_bind; [apply (acts_sendall _ _ _ (fun _ l => l = l0 ++ map (fun b => Sent Con [b]) (take (S n) cmd))); intros l ->; [exact Hs|]|].
    + exists k, l0, h. split; [done|]. right. exists prompt, cmd, (S n). by rewrite Hs.
    + intros ?; cbv beta. apply IH. erewrite drop_S in E by exact Hb. by injection E.
Qed.

Lemma acts_fire k buf saw : acts (at_step k buf saw) (maybe_fire_step STEPS k buf) (fun r => at_step (fst r) (snd r) saw) (typing STEPS).
Proof.
  unfold maybe_fire_step. destruct (STEPS !! k) as [[prompt cmd]|] eqn:Hk; [|by apply acts_ret].
  eapply acts_bind; [apply acts_quietly, at_step_typing|]. intros rests; cbv beta. destruct rests; [by apply acts_ret|].
  destruct (bool_decide _) eqn:Eb; cbn [negb]; [|by apply acts_ret]. apply bool_decide_eq_true in Eb.
  intros t (h & Ht & -> & Hs). assert (Hp : prompt `suffix_of` h).
  { apply (window_suffix h); [by apply (proj1 (Forall_forall _ _) Hprompts (prompt, cmd)), (list_elem_of_lookup_2 _ k)|]. rewrite <- Eb at 1. eexists. symmetry. apply take_drop. }
  pose proof (acts_bind (send_each cmd) (fun _ => mret (S k, [])) (fun l => l = log t) (fun _ l => l = log t ++ map (fun b => Sent Con [b]) cmd)
    (fun r => at_step (fst r) (snd r) saw) (typing STEPS)) as Hb. apply Hb; [| |done].
  - pose proof (acts_send_each k prompt cmd h (log t) Ht Hk Hp 0) as Hse. rewrite drop_0 in Hse. cbn [take map] in Hse. by rewrite app_nil_r in Hse.
  - intros _. apply acts_ret. intros l ->. exists []. split_and!; [by eapply typed_command|done|]. intros E. apply Hs in E as [Hlen _]. apply lookup_lt_Some in Hk. lia.
Qed.

Lemma acts_watch_prompts fuel : forall k buf saw, acts (at_step k buf saw) (watch_prompts STEPS MARKER fuel k buf saw) seen (typing STEPS).
Proof.
  induction fuel as [|fuel IH]; intros k buf saw; cbn [watch_prompts]; [apply acts_raise, at_step_typing|].
  eapply acts_bind; [apply acts_quietly, at_step_typing|]. intros over; cbv beta. destruct over; [apply acts_ret, at_step_seen|].
  apply (acts_bind _ _ _ (fun r l => match r with Some d => exists l0, l = l0 ++ [Got Con d] /\ at_step k buf saw l0 | None => at_step k buf saw l end)).
  { apply acts_try_recv; [intros l b Hl; by exists l|done|apply at_step_typing]. }
  assert (Hfire : forall k buf saw, acts (at_step k buf saw) ('(step_idx, buf) ← maybe_fire_step STEPS k buf; watch_prompts STEPS MARKER fuel step_idx buf saw) seen (typing STEPS)).
  { intros k' buf' saw'. eapply acts_bind; [apply acts_fire|]. intros [k2 buf2]. apply IH. }
  intros [[|d0 d]|]; [|set (dd := d0 :: d); clearbody dd; clear d0 d|apply Hfire].
  - apply acts_ret. intros l (l0 & -> & h & Ht & _ & Hs). exists k, h. split; [rewrite <- (app_nil_r h); by constructor|]. intros E. destruct (Hs E). split; [|done].
    apply typed_sends in Ht as (Hk & _). lia.
  - apply (acts_bind _ _ _ (fun _ => at_step k (window (buf ++ dd)) saw)).
    { apply acts_note. intros l (l0 & -> & h & Ht & -> & Hs). exists (h ++ dd). split_and!; [by repeat constructor|by rewrite window_app|]. intros E. destruct (Hs E) as [H1 H2]. split; [done|]. by apply contains_app. }
    intros _. destruct (_ && _ && _) eqn:Ef; [|apply Hfire]. apply andb_true_iff in Ef as [[Hk%Nat.leb_le Hm]%andb_true_iff _].
    eapply acts_conseq; [apply (IH k (window (buf ++ dd)) true)| |done|done]. intros l (h & Ht & E & _). exists h. split_and!; [done|done|]. intros _. split; [done|]. rewrite E in Hm. by apply window_contains.
Qed.
End Injecting.

(** ** The theorem *)

(** C39: the smoke test.  The program mksmokeasm.py writes, assembled and run from its
    first instruction with whatever in the registers and whatever the BDOS leaves in them,
    prints the sum of the numbers up to 1000 modulo 65536, A314, after the text the
    injector waits for, writes to the port the test watches and boots.  smoke_inject.py,
    whatever the machine answers, types the commands of its workload in order, each in
    one go and only after text that ends with the prompt and came since the command
    before, and nothing else; it returns 0 only when all were typed and the text came
    after the last, and otherwise 2. *)
Theorem smoke_test_is_run :
  (forall bdos_leaves r, result (steps (load sumtest_asm) bdos_leaves (Z.to_nat 4096) (start (load sumtest_asm) r)) =
    Some (chars "CPNET OK " ++ fmt_hex 4 (zsum (seqZ 1 1000) mod 65536) ++ [13; 10], [(0x80, 0x55)])) /\
  (forall G (W : Wires G) (R : Rest G) turns name steps marker g, (name, (steps, marker)) ∈ WORKLOADS ->
    let '(r, t) := inject_main turns steps marker (Desk g []) in
    match r with
    | Ret c => (c = 0 \/ c = 2) /\ exists k h, typed steps k (log t) h /\ sent Con (log t) = concat (map snd (take k steps)) /\ (c = 0 -> k = length steps /\ contains marker h = true)
    | Raise _ => typing steps (log t)
    end).
Proof.
  split.
  - intros bdos_leaves r. etransitivity; [apply program_prints|]. vm_compute. reflexivity.
  - intros G W R turns name steps marker g Hw.
    assert (Hp : Forall (fun s => zlength (fst s) <= 4096) steps).
    { assert (F : Forall (fun w => Forall (fun s => zlength (fst s) <= 4096) (fst (snd w))) WORKLOADS) by decided. by apply (proj1 (Forall_forall _ _) F (name, (steps, marker))). }
    assert (Hi : acts (at_step steps marker 0 [] false) (inject_main turns steps marker) (fun c l => exists saw, c = (if saw : bool then 0 else 2) /\ seen steps marker saw l) (typing steps)).
    { unfold inject_main. eapply acts_bind; [by apply acts_watch_prompts|]. intros saw; cbv beta. apply acts_ret. intros l Hl. by exists saw. }
    specialize (Hi (Desk g [])). destruct (inject_main turns steps marker (Desk g [])) as [[c|e] t].
    + destruct Hi as (saw & -> & k & h & Ht & Hs); [exists []; split_and!; [constructor|done|done]|]. split; [destruct saw; auto|]. exists k, h. split; [done|].
      split; [by apply typed_sends in Ht as (_ & Ht & _)|]. intros Hc. apply Hs. by destruct saw.
    + apply Hi. exists []. split_and!; [constructor|done|done].
Qed.

#[local] Instance awake : Rest (bytes * list bytes) := mret false.
Lemma smoke_test_is_run_witness :
  result (steps (load sumtest_asm) (fun _ => Regs 1 2 3 4 5 6 7 true) (Z.to_nat 4096) (start (load sumtest_asm) (Regs 0 0 0 0 0 0 0 false))) = Some (chars "CPNET OK A314" ++ [13; 10], [(0x80, 0x55)]) /\
  exists t k h, @inject_main _ answering awake 40 [(chars "A>", chars "filecopy" ++ [13])] (chars "FILECOPY OK ") (Desk (chars "A>", replicate 8 [] ++ [chars "FILECOPY OK 8"]) []) = (Ret 0, t) /\
    typed [(chars "A>", chars "filecopy" ++ [13])] k (log t) h /\ contains (chars "FILECOPY OK ") h = true.
Proof.
  split.
  - etransitivity; [apply (proj1 smoke_test_is_run)|]. vm_compute. reflexivity.
  - pose proof (proj2 smoke_test_is_run _ answering awake 40%nat (chars "filecopy") [(chars "A>", chars "filecopy" ++ [13])] (chars "FILECOPY OK ") (chars "A>", replicate 8 [] ++ [chars "FILECOPY OK 8"])
      ltac:(by right; left)) as H.
    destruct (inject_main _ _ _ _) as [r t] eqn:E. assert (r = Ret 0) as -> by (apply (f_equal fst) in E; cbn [fst] in E; rewrite <- E; vm_compute; reflexivity).
    destruct H as (_ & k & h & Ht & _ & Hm). exists t, k, h. split_and!; [done|done|by apply Hm].
Defined.
