(* ===== verification/Monitor.v ===== *)
(** * The throughput monitor: class ThroughputMonitor of cpnet/server.py and serial_graph.py.

    The server counts the bytes it sends and receives; a thread of its own writes the
    counts to a CSV file once a second and sets them back.  [mstep] is one atomic step of
    either, so that a list of events is an interleaving ([run_events]).  serial_graph.py
    reads the file again and again; [refresh] is one reading, a list of texts the file has
    then is a run ([watch]).  The bars and the screen are left out. *)

From S2P Require Import Prelude Imd Hex Text.
#[local] Open Scope Z_scope.

(** ** ThroughputMonitor *)

(** Where the thread is: before the test of [_running], in its sleep, before the lock,
    with the counts in its hands, at its end. *)
Inductive place : Type := Testing | Asleep | Awake | Holding (tx rx : Z) | Over.
Record monitor : Type := Monitor { tx_bytes : Z; rx_bytes : Z; second : Z; running : bool; thread : place; csv : list (Z * Z * Z) }.

(** [__init__] and [start]. *)
Definition new_monitor : monitor := Monitor 0 0 0 false Over [].
Definition start (m : monitor) : monitor := Monitor (tx_bytes m) (rx_bytes m) (second m) true Testing [].

Definition stop (m : monitor) : monitor := Monitor (tx_bytes m) (rx_bytes m) (second m) false (thread m) (csv m).
Definition add_tx (n : Z) (m : monitor) : monitor := Monitor (tx_bytes m + n) (rx_bytes m) (second m) (running m) (thread m) (csv m).
Definition add_rx (n : Z) (m : monitor) : monitor := Monitor (tx_bytes m) (rx_bytes m + n) (second m) (running m) (thread m) (csv m).

(** One step of [_run]. *)
Definition thread_step (m : monitor) : monitor :=
  match thread m with
  | Testing => Monitor (tx_bytes m) (rx_bytes m) (second m) (running m) (if running m then Asleep else Over) (csv m)
  | Asleep => Monitor (tx_bytes m) (rx_bytes m) (second m + 1) (running m) Awake (csv m)
  | Awake => Monitor 0 0 (second m) (running m) (Holding (tx_bytes m) (rx_bytes m)) (csv m)
  | Holding tx rx => Monitor (tx_bytes m) (rx_bytes m) (second m) (running m) Testing (csv m ++ [(second m, tx, rx)])
  | Over => m
  end.

Inductive event : Type := Tx (n : Z) | Rx (n : Z) | Stop | Thread.
Definition mstep (m : monitor) (e : event) : monitor := match e with Tx n => add_tx n m | Rx n => add_rx n m | Stop => stop m | Thread => thread_step m end.
Definition run_events (es : list event) : monitor := foldl mstep (start new_monitor) es.

(** The text of the file. *)
Definition header : str := chars "second,tx_bytes,rx_bytes".
Definition row (r : Z * Z * Z) : str := let '(s, tx, rx) := r in decimal s ++ [44] ++ decimal tx ++ [44] ++ decimal rx.
Definition csv_text (rows : list (Z * Z * Z)) : str := concat (map (fun l => l ++ [10]) (header :: map row rows)).

(** ** serial_graph.py *)

Definition HISTORY : nat := 24.
Definition BAR_WIDTH : Z := 24.
Record graph : Type := Graph { last_line : nat; total_tx : Z; total_rx : Z; peak_tx : Z; peak_rx : Z; history : list (Z * Z * Z); had_data : bool }.
Definition new_graph : graph := Graph 0 0 0 0 0 [] false.

(** One line of new data. *)
Definition see_line (line : str) : stM graph unit :=
  let line := strip_with py_space line in
  if bool_decide (line = []) || bool_decide (take 6 line = chars "second") then mret tt else
  match split_on 44 line with
  | a :: b :: c :: _ =>
      sec ← lift (int_of a);
      tx ← lift (int_of b);
      rx ← lift (int_of c);
      modify (fun g => Graph (last_line g) (total_tx g + tx) (total_rx g + rx) (if peak_tx g <? tx then tx else peak_tx g) (if peak_rx g <? rx then rx else peak_rx g)
        (history g ++ [(sec, tx, rx)]) true)
  | _ => mret tt
  end.
Fixpoint see_lines (lines : list str) : stM graph unit := match lines with [] => mret tt | l :: lines' => see_line l;; see_lines lines' end.

(** One reading of the file; an exception ends it where it is. *)
Definition is_caught (e : exn) : bool := match e with ValueError => true | e => is_os_error e end.
Definition refresh (text : outcome str) : stM graph unit :=
  catch is_caught (
    text ← lift text;
    let lines := readlines text in
    g ← get;
    see_lines (drop (Nat.max 1 (last_line g)) lines);;
    modify (fun g => Graph (length lines) (total_tx g) (total_rx g) (peak_tx g) (peak_rx g)
      (if (HISTORY <? length (history g))%nat then drop (length (history g) - HISTORY) (history g) else history g) (had_data g))) (fun _ => mret tt).
Fixpoint watch (texts : list (outcome str)) : stM graph unit := match texts with [] => mret tt | t :: texts' => refresh t;; watch texts' end.

Definition max_rate (g : graph) : Z := Z.max (Z.max (peak_tx g) (peak_rx g)) 100.
(** The scale over the bars: zero, half and all of the greatest rate. *)
Definition scale (max_rate : Z) : str :=
  let lblm := decimal (max_rate / 2) in
  let lblx := decimal max_rate in
  let w := BAR_WIDTH in
  let pad1 := w / 2 - 1 - zlength lblm / 2 in
  let pad2 := w - w / 2 - zlength lblm / 2 - zlength lblm mod 2 - zlength lblx in
  chars "0" ++ replicate (Z.to_nat (Z.max pad1 1)) 9472 ++ lblm ++ replicate (Z.to_nat (Z.max pad2 1)) 9472 ++ lblx.

(** ** The counts *)

Definition txs (rows : list (Z * Z * Z)) : Z := zsum (map (fun r => snd (fst r)) rows).
Definition rxs (rows : list (Z * Z * Z)) : Z := zsum (map snd rows).
Definition sent (es : list event) : Z := zsum (map (fun e => match e with Tx n => n | _ => 0 end) es).
Definition received (es : list event) : Z := zsum (map (fun e => match e with Rx n => n | _ => 0 end) es).
Definition held_tx (p : place) : Z := match p with Holding tx _ => tx | _ => 0 end.
Definition held_rx (p : place) : Z := match p with Holding _ rx => rx | _ => 0 end.
Definition is_up (p : place) : bool := match p with Awake | Holding _ _ => true | _ => false end.

(** Every byte is in the file, in the thread's hands or in a counter, and the rows are
    numbered from one. *)
Definition counted (es : list event) (m : monitor) : Prop :=
  txs (csv m) + held_tx (thread m) + tx_bytes m = sent es /\ rxs (csv m) + held_rx (thread m) + rx_bytes m = received es /\
  map (fun r => fst (fst r)) (csv m) = seqZ 1 (zlength (csv m)) /\ second m = zlength (csv m) + (if is_up (thread m) then 1 else 0).

Lemma events_counted es : counted es (run_events es).
Proof.
  induction es as [|e es IH] using rev_ind; [by split_and!|]. unfold run_events. rewrite foldl_app. fold (run_events es). cbn [foldl]. destruct IH as (H1 & H2 & H3 & H4).
  assert (Hs : sent (es ++ [e]) = sent es + match e with Tx n => n | _ => 0 end) by (unfold sent; rewrite map_app, zsum_app; cbn; lia).
  assert (Hr : received (es ++ [e]) = received es + match e with Rx n => n | _ => 0 end) by (unfold received; rewrite map_app, zsum_app; cbn; lia).
  unfold counted. rewrite Hs, Hr, <- H1, <- H2. destruct (run_events es) as [tx rx s r p c]. cbn [csv thread tx_bytes rx_bytes second] in *. destruct e; cbn [mstep add_tx add_rx stop csv thread tx_bytes rx_bytes second]; [split_and!; done || lia..|].
  unfold thread_step. cbn [csv thread tx_bytes rx_bytes second running]. destruct p; cbn [csv thread tx_bytes rx_bytes second running held_tx held_rx is_up] in *.
  - destruct r; cbn [held_tx held_rx is_up]; split_and!; done || lia.
  - split_and!; done || lia.
  - split_and!; done || lia.
  - unfold txs, rxs. rewrite !map_app, !zsum_app, H3. cbn [map fst snd zsum foldr]. rewrite zlength_app. change (zlength [(s, tx0, rx0)]) with 1. split_and!; try lia.
    pose proof (zlength_pos c). rewrite seqZ_app by lia. f_equal. rewrite seqZ_cons by lia. replace (Z.pred 1) with 0 by lia. rewrite seqZ_nil by lia. f_equal. lia.
  - split_and!; done || lia.
Qed.

(** ** What the graph reads *)

Definition fine (r : Z * Z * Z) : Prop := 0 <= fst (fst r) /\ 0 <= snd (fst r) /\ 0 <= snd r.

Lemma file_listing l ls : concat (map (fun l => l ++ [10]) (l :: ls)) = listing (l :: ls).
Proof.
  revert l. induction ls as [|l' ls IH]; intros l; [by cbn; rewrite app_nil_r|].
  change (concat (map (fun l => l ++ [10]) (l :: l' :: ls))) with ((l ++ [10]) ++ concat (map (fun l => l ++ [10]) (l' :: ls))).
  rewrite IH. unfold listing. change (join [10] (l :: l' :: ls)) with (l ++ [10] ++ join [10] (l' :: ls)). by rewrite <- !app_assoc.
Qed.

Lemma row_chars r : fine r -> Forall (fun c => is_digit c = true \/ c = 44) (row r).
Proof.
  destruct r as [[s tx] rx]. intros (H1 & H2 & H3). cbn [fst snd] in *. unfold row.
  destruct (decimal_ok s H1) as (D1 & _), (decimal_ok tx H2) as (D2 & _), (decimal_ok rx H3) as (D3 & _). unfold digits in *.
  repeat (apply Forall_app; split); try (eapply Forall_impl; [eassumption|]; by left); by repeat constructor; right.
Qed.

Lemma readlines_csv rows : Forall fine rows -> readlines (csv_text rows) = header :: map row rows.
Proof.
  intros Hr. unfold csv_text. rewrite file_listing. apply readlines_listing; [done|].
  constructor; [unfold clean; by decided|]. apply Forall_fmap. eapply Forall_impl; [exact Hr|]. intros r Hf.
  eapply Forall_impl; [exact (row_chars r Hf)|]. intros c [Hd| ->]; [|done]. unfold is_digit in Hd. split; [|lia].
  apply not_true_is_false. unfold line_break. rewrite ?orb_true_iff, ?existsb_exists. lia.
Qed.

Lemma see_row r g : fine r -> see_line (row r) g = (Ret tt, Graph (last_line g) (total_tx g + snd (fst r)) (total_rx g + snd r) (Z.max (peak_tx g) (snd (fst r))) (Z.max (peak_rx g) (snd r)) (history g ++ [r]) true).
Proof.
  intros Hf. pose proof (row_chars r Hf) as Hc. destruct r as [[s tx] rx]. destruct Hf as (H1 & H2 & H3). cbn [fst snd] in *. unfold see_line.
  destruct (decimal_ok s H1) as (D1 & V1 & N1 & _), (decimal_ok tx H2) as (D2 & V2 & N2 & _), (decimal_ok rx H3) as (D3 & V3 & N3 & _).
  assert (Hne : exists c l, row (s, tx, rx) = c :: l /\ is_digit c = true).
  { unfold row. destruct (decimal s) as [|c l] eqn:E; [done|]. apply Forall_cons in D1 as [Hd _]. by exists c, (l ++ [44] ++ decimal tx ++ [44] ++ decimal rx). }
  destruct Hne as (c & l & E & Hd). assert (Hsp : strip_with py_space (row (s, tx, rx)) = row (s, tx, rx)).
  { rewrite E in *. apply Forall_cons in Hc as [_ Hc]. apply strip_clean; [by apply digit_not_space|]. eapply Forall_impl; [exact Hc|]. intros x [Hx| ->]; [by apply digit_not_space|done]. }
  rewrite Hsp. rewrite (bool_decide_eq_false_2 (row _ = [])) by by rewrite E. rewrite bool_decide_eq_false_2 by (rewrite E; cbn; intros [= -> _]; done). cbn [orb].
  assert (Hn : forall x, digits x -> 44 ∉ x) by (intros x Hx Hin; apply (proj1 (Forall_forall _ _) Hx) in Hin; done).
  unfold row. cbn [app]. rewrite split_on_app, (split_on_none _ (decimal s)), split_on_app, (split_on_none _ (decimal tx)), (split_on_none _ (decimal rx)) by auto. cbn [app].
  unfold lift, modify, mbind, stM_bind. rewrite !int_of_digits, V1, V2, V3 by done. do 3 f_equal.
  - destruct (Z.ltb_spec (peak_tx g) tx); lia.
  - destruct (Z.ltb_spec (peak_rx g) rx); lia.
Qed.

(** The greatest of them and of what was before. *)
Definition zmax (l : list Z) (m : Z) : Z := foldl Z.max m l.

Lemma see_rows rows : forall g, Forall fine rows -> rows <> [] -> see_lines (map row rows) g = (Ret tt, Graph (last_line g) (total_tx g + txs rows) (total_rx g + rxs rows)
  (zmax (map (fun r => snd (fst r)) rows) (peak_tx g)) (zmax (map snd rows) (peak_rx g)) (history g ++ rows) true).
Proof.
  induction rows as [|r rows IH]; intros g Hr Hne; [done|]. apply Forall_cons in Hr as [Hf Hr]. cbn [map see_lines]. unfold mbind, stM_bind. rewrite see_row by done.
  destruct rows as [|r' rows]; [cbn [map see_lines mret stM_ret]; unfold txs, rxs; cbn; by rewrite !Z.add_0_r|].
  rewrite IH by done. cbn [last_line total_tx total_rx peak_tx peak_rx history]. do 2 f_equal; [unfold txs; cbn; lia|unfold rxs; cbn; lia|by rewrite <- app_assoc].
Qed.

(** The graph shows the rows [rows]. *)
Definition shows (rows : list (Z * Z * Z)) (g : graph) : Prop :=
  total_tx g = txs rows /\ total_rx g = rxs rows /\ peak_tx g = zmax (map (fun r => snd (fst r)) rows) 0 /\ peak_rx g = zmax (map snd rows) 0 /\
  history g = drop (length rows - HISTORY) rows /\ had_data g = negb (bool_decide (rows = [])) /\ (last_line g = S (length rows) \/ last_line g = 0%nat /\ rows = []).

Lemma last_rows (a b : list (Z * Z * Z)) n : drop (length (drop (length a - n) a ++ b) - n) (drop (length a - n) a ++ b) = drop (length (a ++ b) - n) (a ++ b).
Proof.
  rewrite !length_app, length_drop. rewrite <- (drop_app_le a b (length a - n)) by lia. rewrite drop_drop. f_equal. lia.
Qed.

Lemma refresh_shows rows more g : Forall fine (rows ++ more) -> shows rows g -> exists g', refresh (Ret (csv_text (rows ++ more))) g = (Ret tt, g') /\ shows (rows ++ more) g'.
Proof.
  intros Hf (H1 & H2 & H3 & H4 & H5 & H6 & H7). unfold refresh, catch, lift, get, mbind, stM_bind. rewrite readlines_csv by done.
  assert (Hd : drop (Nat.max 1 (last_line g)) (header :: map row (rows ++ more)) = map row more).
  { destruct H7 as [->|[-> ->]]; [|done]. rewrite Nat.max_r by lia. cbn [drop]. rewrite map_app. rewrite drop_app_ge by (rewrite length_map; lia). by rewrite length_map, Nat.sub_diag. }
  rewrite Hd. clear Hd. assert (Hh : forall l : list (Z * Z * Z), (if (HISTORY <? length l)%nat then drop (length l - HISTORY) l else l) = drop (length l - HISTORY) l).
  { intros l. destruct (Nat.ltb_spec HISTORY (length l)); [done|]. replace (length l - HISTORY)%nat with 0%nat by lia. done. }
  destruct more as [|r more].
  - rewrite app_nil_r in *. cbn [map see_lines mret stM_ret modify]. eexists. split; [done|]. unfold shows. cbn [total_tx total_rx peak_tx peak_rx history had_data last_line length]. rewrite length_map, Hh, H5.
    split_and!; try done; [|by left]. pose proof (last_rows rows [] HISTORY) as El. by rewrite !app_nil_r in El.
  - apply Forall_app in Hf as [_ Hf]. rewrite see_rows by done. cbn [modify]. eexists. split; [done|]. unfold shows. cbn [total_tx total_rx peak_tx peak_rx history had_data last_line length].
    rewrite H1, H2, H3, H4, H5, Hh, length_map. split_and!; [by unfold txs; rewrite map_app, zsum_app|by unfold rxs; rewrite map_app, zsum_app|unfold zmax; by rewrite map_app, foldl_app|unfold zmax; by rewrite map_app, foldl_app|apply last_rows| |by left].
    by destruct rows.
Qed.

(** ** Both together *)

Lemma csv_grows es : forall m, exists more, csv (foldl mstep m es) = csv m ++ more.
Proof.
  induction es as [|e es IH]; intros m; cbn [foldl]; [exists []; by rewrite app_nil_r|]. destruct (IH (mstep m e)) as [more E]. rewrite E.
  destruct e; cbn [mstep add_tx add_rx stop csv]; [by eexists..|]. unfold thread_step. destruct (thread m); cbn [csv]; try by eexists. rewrite <- app_assoc. by eexists.
Qed.

Definition natural (e : event) : Prop := match e with Tx n | Rx n => 0 <= n | _ => True end.
Definition sound (m : monitor) : Prop := 0 <= tx_bytes m /\ 0 <= rx_bytes m /\ 0 <= second m /\ 0 <= held_tx (thread m) /\ 0 <= held_rx (thread m) /\ Forall fine (csv m).

Lemma events_sound es : forall m, Forall natural es -> sound m -> sound (foldl mstep m es).
Proof.
  induction es as [|e es IH]; intros m Hes Hm; cbn [foldl]; [done|]. apply Forall_cons in Hes as [He Hes]. apply IH; [done|]. destruct Hm as (H1 & H2 & H3 & H4 & H5 & H6).
  destruct e; unfold sound; cbn [mstep add_tx add_rx stop natural tx_bytes rx_bytes second thread csv] in *; [split_and!; done || lia..|].
  unfold thread_step. destruct (thread m) eqn:Et; cbn [tx_bytes rx_bytes second thread csv held_tx held_rx] in *; [|split_and!; done || lia..| |rewrite Et; by split_and!].
  - destruct (running m); by split_and!.
  - split_and!; try done. apply Forall_app. split; [done|]. by repeat constructor.
Qed.

(** The graph's readings: after some events each, some of them refused. *)
Fixpoint readings (m : monitor) (segs : list (list event * bool)) : list (outcome str) :=
  match segs with [] => [] | (es, ok) :: segs' => let m := foldl mstep m es in (if ok : bool then Ret (csv_text (csv m)) else Raise OSError) :: readings m segs' end.

Lemma watch_shows segs : forall m rows more g, sound m -> csv m = rows ++ more -> shows rows g -> Forall (fun s => Forall natural (fst s)) segs ->
  exists rows' more' g', watch (readings m segs) g = (Ret tt, g') /\ csv (foldl mstep m (concat (map fst segs))) = rows' ++ more' /\ shows rows' g' /\
    (forall s, last segs = Some s -> snd s = true -> more' = []).
Proof.
  induction segs as [|[es ok] segs IH]; intros m rows more g Hm Hc Hg Hn; cbn [readings watch map concat foldl fst]; [by exists rows, more, g|].
  apply Forall_cons in Hn as [Hes Hn]. pose proof (events_sound es m Hes Hm) as Hm'. destruct (csv_grows es m) as [new Enew]. rewrite foldl_app.
  assert (Hc' : csv (foldl mstep m es) = rows ++ (more ++ new)) by by rewrite Enew, Hc, app_assoc.
  assert (Hstep : exists rows1 more1 g1, refresh (if ok then Ret (csv_text (csv (foldl mstep m es))) else Raise OSError) g = (Ret tt, g1) /\ csv (foldl mstep m es) = rows1 ++ more1 /\ shows rows1 g1 /\ (ok = true -> more1 = [])).
  { destruct ok.
    - rewrite Hc'. destruct (refresh_shows rows (more ++ new) g) as (g1 & E1 & S1); [rewrite <- Hc'; by destruct Hm' as (_ & _ & _ & _ & _ & ?)|done|].
      exists (rows ++ more ++ new), [], g1. split_and!; [done|by rewrite app_nil_r|done|done].
    - by exists rows, (more ++ new), g. }
  destruct Hstep as (rows1 & more1 & g1 & E1 & Ec1 & S1 & Hok). unfold mbind, stM_bind. rewrite E1.
  destruct (IH _ rows1 more1 g1 Hm' Ec1 S1 Hn) as (rows' & more' & g' & E2 & Ec2 & S2 & Hl). exists rows', more', g'. split_and!; try done.
  intros s Hs Hsn. destruct segs as [|s2 segs]; [|by apply (Hl s)]. injection Hs as <-. cbn in Hsn. specialize (Hok Hsn). subst more1. cbn [readings watch] in E2. injection E2 as <-.
  cbn [map concat foldl] in Ec2. rewrite Ec2, app_nil_r in Ec1. destruct S1 as (_ & _ & _ & _ & _ & _ & L1), S2 as (_ & _ & _ & _ & _ & _ & L2).
  assert (Hlen : length rows' = length rows1). { destruct L1 as [L1|[L1 ->]], L2 as [L2|[L2 ->]]; try done; rewrite L1 in L2; done || lia. }
  apply (f_equal length) in Ec1. rewrite length_app in Ec1. destruct more'; [done|cbn [length] in Ec1; lia].
Qed.

Lemma length_decimal k n : 0 <= n < 10 ^ Z.of_nat (S k) -> (length (decimal n) <= S k)%nat.
Proof. unfold decimal. apply length_decimal_from. Qed.

Lemma scale_width r : 100 <= r < 10000000 -> zlength (scale r) = BAR_WIDTH.
Proof.
  intros Hr. pose proof (length_decimal 6 r ltac:(cbn; lia)) as H1. pose proof (length_decimal 6 (r / 2) ltac:(cbn; Z.div_mod_to_equations; lia)) as H2.
  unfold scale, BAR_WIDTH. rewrite !zlength_app. change (zlength (chars "0")) with 1. unfold zlength in *. rewrite !length_replicate. cbn [Z.div] in *.
  change (24 / 2) with 12. Z.div_mod_to_equations. lia.
Qed.

(** ** A row that is no number *)

Definition spoilt (l : str) : Prop := forall g, see_line l g = (Raise ValueError, g).

(** The lines the next reading of a text would go through. *)
Definition unread (g : graph) (text : str) : list str := drop (Nat.max 1 (last_line g)) (readlines text).

Lemma see_lines_app a b g : see_lines (a ++ b) g = match see_lines a g with (Ret _, g') => see_lines b g' | (Raise e, g') => (Raise e, g') end.
Proof.
  revert g. induction a as [|l a IH]; intros g; [done|]. cbn [app see_lines]. unfold mbind, stM_bind.
  destruct (see_line l g) as [[u|e] g']; [apply IH|done].
Qed.

(** Each reading goes as far as the spoilt row, counts the rows in front of it, and the
    next one begins where it began. *)
Lemma spoilt_refresh text g rows bad rest : Forall fine rows -> spoilt bad -> unread g text = map row rows ++ bad :: rest ->
  exists g', refresh (Ret text) g = (Ret tt, g') /\ last_line g' = last_line g /\ total_tx g' = total_tx g + txs rows /\ total_rx g' = total_rx g + rxs rows /\
    history g' = history g ++ rows.
Proof.
  intros Hf Hb Hu. unfold unread in Hu. unfold refresh, catch, lift, get, mbind, stM_bind. rewrite Hu, see_lines_app. destruct rows as [|r rows].
  - cbn [map see_lines mret stM_ret]. unfold mbind, stM_bind. rewrite Hb. cbn [is_caught]. exists g. unfold txs, rxs. cbn [map zsum foldr]. rewrite app_nil_r. split_and!; done || lia.
  - rewrite see_rows by done. cbn [see_lines]. unfold mbind, stM_bind. rewrite Hb. cbn [is_caught]. by eexists.
Qed.

Lemma spoilt_watch rows bad texts : Forall fine rows -> spoilt bad -> forall g, Forall (fun t => exists rest, unread g t = map row rows ++ bad :: rest) texts ->
  exists g', watch (map Ret texts) g = (Ret tt, g') /\ last_line g' = last_line g /\ total_tx g' = total_tx g + zlength texts * txs rows /\
    total_rx g' = total_rx g + zlength texts * rxs rows /\ history g' = history g ++ concat (map (fun _ => rows) texts).
Proof.
  intros Hf Hb. induction texts as [|t texts IH]; intros g Ht.
  - exists g. rewrite (zlength_nil (A := str)). cbn [map concat watch mret stM_ret]. rewrite app_nil_r. split_and!; done || lia.
  - apply Forall_cons in Ht as [[rest Hu] Ht]. destruct (spoilt_refresh t g rows bad rest Hf Hb Hu) as (g1 & E & L & T & R & Hh).
    destruct (IH g1) as (g' & E' & L' & T' & R' & Hh'); [unfold unread in *; by rewrite L|]. exists g'. cbn [map watch concat]. unfold mbind, stM_bind. rewrite E, zlength_cons.
    split_and!; [done|congruence|rewrite T', T; lia|rewrite R', R; lia|by rewrite Hh', Hh, app_assoc].
Qed.

(** C40: the throughput monitor and its graph.  Under every interleaving of the server's
    sends and receptions, the thread's steps and a stop, every byte is in exactly one
    place, a row of the file, the thread's hands or the counter, and the rows are numbered
    from one without a gap.  Whenever and however often serial_graph.py reads the file
    meanwhile, some of the readings failing, after a successful one its totals, peaks and
    history are those of the rows the file then has.  The scale has the bars' width for
    rates below ten million.  When the lines a reading has not been through begin with
    some rows and a line [see_line] raises [ValueError] at, whatever stands behind it, no
    reading gets past that line: each counts the rows in front of it once more, and the
    next one begins where it began. *)
Theorem monitor_and_graph_agree :
  (forall es, let m := run_events es in
    txs (csv m) + held_tx (thread m) + tx_bytes m = sent es /\ rxs (csv m) + held_rx (thread m) + rx_bytes m = received es /\
    map (fun r => fst (fst r)) (csv m) = seqZ 1 (zlength (csv m))) /\
  (forall segs es, Forall (fun s => Forall natural (fst s)) (segs ++ [(es, true)]) ->
    let m := run_events (concat (map fst segs) ++ es) in
    exists g, watch (readings (start new_monitor) (segs ++ [(es, true)])) new_graph = (Ret tt, g) /\ shows (csv m) g /\
      total_tx g + held_tx (thread m) + tx_bytes m = sent (concat (map fst segs) ++ es)) /\
  (forall r, 100 <= r < 10000000 -> zlength (scale r) = BAR_WIDTH) /\
  (forall rows bad texts g, Forall fine rows -> spoilt bad -> Forall (fun t => exists rest, unread g t = map row rows ++ bad :: rest) texts ->
    exists g', watch (map Ret texts) g = (Ret tt, g') /\ last_line g' = last_line g /\ total_tx g' = total_tx g + zlength texts * txs rows /\
      total_rx g' = total_rx g + zlength texts * rxs rows /\ history g' = history g ++ concat (map (fun _ => rows) texts)).
Proof.
  split_and!.
  - intros es. by destruct (events_counted es) as (H1 & H2 & H3 & _).
  - intros segs es Hn. assert (Hs : sound (start new_monitor)) by by repeat split.
    assert (H0 : shows [] new_graph) by (repeat split; by right).
    destruct (watch_shows (segs ++ [(es, true)]) (start new_monitor) [] [] new_graph Hs eq_refl H0 Hn) as (rows & more & g & E & Ec & Sg & Hl).
    rewrite (Hl (es, true)) in Ec by (by rewrite ?last_snoc). rewrite map_app, concat_app, app_nil_r in Ec. cbn [map concat fst] in Ec. rewrite app_nil_r in Ec.
    exists g. unfold run_events. rewrite Ec. split_and!; [done|done|]. destruct (events_counted (concat (map fst segs) ++ es)) as (H1 & _). unfold run_events in H1. rewrite <- H1, Ec. by destruct Sg as (-> & _).
  - apply scale_width.
  - intros rows bad texts g Hf Hb. by apply spoilt_watch.
Qed.

Lemma monitor_and_graph_agree_witness :
  (exists g, watch (readings (start new_monitor) [([Tx 3; Thread; Thread; Rx 2; Thread; Tx 4; Thread], true); ([Thread], false); ([Thread; Thread; Thread], true)]) new_graph = (Ret tt, g) /\
    shows [(1, 3, 2); (2, 4, 0)] g) /\ zlength (scale 100) = 24 /\
  (let text := chars "second,tx_bytes,rx_bytes
1,5,7
2,x,5
" in exists g, watch (map Ret [text; text; text]) new_graph = (Ret tt, g) /\ total_tx g = 15 /\ total_rx g = 21).
Proof.
  split_and!.
  - destruct (proj1 (proj2 monitor_and_graph_agree) [([Tx 3; Thread; Thread; Rx 2; Thread; Tx 4; Thread], true); ([Thread], false)] [Thread; Thread; Thread]) as (g & E & Sg & _).
    + by repeat constructor.
    + exists g. split; [exact E|]. exact Sg.
  - apply (proj1 (proj2 (proj2 monitor_and_graph_agree)) 100). lia.
  - intros text. destruct (proj2 (proj2 (proj2 monitor_and_graph_agree)) [(1, 5, 7)] (chars "2,x,5") [text; text; text] new_graph) as (g & E & _ & T & R & _).
    + by repeat constructor.
    + intros g. vm_compute. reflexivity.
    + repeat constructor; exists []; vm_compute; reflexivity.
    + exists g. split_and!; [exact E|rewrite T; vm_compute; reflexivity|rewrite R; vm_compute; reflexivity].
Defined.
